(* ===== verification/_CoqProject ===== *)
-Q . S2P
Prelude.v
StateMonad.v
Asset.v
Names.v
Combinatorics.v
Records.v
Keys.v
Building.v
ChainInterface.v
AmountText.v
EvalState.v
BalanceOps.v
AccountOps.v
AssetOps.v
MarketOps.v
Transaction.v
Tables.v
PendingState.v
ChainDatabase.v
Market.v
Concrete.v
BlockOps.v
Node.v
ForkDb.v
Undo.v
Supply.v
Conservation.v
BlockProps.v
Frames.v
AccountKeys.v
MarketProps.v
ForkTree.v
ForkStore.v
NodeTree.v
ForkSwitch.v
ForkDemo.v
ForkProps.v
ChainSupply.v
Authority.v
Outcomes.v
Rankings.v
Genesis.v
GenesisProps.v
ChainGenesis.v
Pool.v
PoolProps.v
BlockMaking.v
Storage.v
StorageProps.v
MemoProps.v
AmountProps.v
AddressText.v
WalletDb.v
WalletDbProps.v
WalletSteps.v
WalletKeys.v
WalletProps.v
Wallet.v
Spending.v
TransactionBuilder.v
WalletTrx.v
Ledger.v
WalletDemo.v
SpendingProps.v
BuilderProps.v
WalletSafe.v
LedgerProps.v
WalletLock.v
Reopen.v
ChainMemory.v
ReopenProps.v
MainChain.v
Client.v
ClientProps.v
Sync.v
Inventory.v
SyncProps.v
SyncOrder.v
SyncDemo.v
