(* ===== verification/Prelude.v ===== *)
(** The block chain, the wallet and the peer-to-peer node of the BitShares toolkit
    (libraries/blockchain, libraries/db, libraries/wallet, libraries/client,
    libraries/net): a model of their state transitions and the properties that
    make them correct.

    * The program

    A node keeps a [chain_database]: tables of records (balances, accounts,
    assets, ...) in which every amount of the chain lives. A block is applied in
    [chain_database::extend_chain]: the header is checked, a
    [pending_chain_state] is put over the database, the transactions, the pay of
    the delegate, the markets and the rewards are evaluated on it, the state
    that would undo it is saved, and [apply_changes] writes it down.
    [pop_block] applies the undo state, when another fork wins. A transaction is
    a list of operations; [transaction_evaluation_state] checks signatures,
    evaluates the operations one by one and collects fees and votes.

    The tables are kept by maps over LevelDB that hold a part of their contents
    in memory; a process that starts opens them again and rebuilds what it keeps
    in memory only. The wallet is a file of numbered records with its own
    indexes; its private keys are encrypted with a password. While it is
    unlocked it makes transactions with the functions of [transaction], directly
    or with a [transaction_builder] that keeps what each account owes, takes what
    is needed from its balances, puts encrypted memos in the deposits and signs.

    A [node_impl] talks with peers. It sends each a synopsis of its chain, from
    which the peer finds the last block they share and replies with the ids of
    the blocks after it; the node asks idle peers for the blocks and hands them
    to the client in the order of the chain. Peers in sync tell each other of
    new blocks and transactions, fetch what they lack, give it to the client and
    pass it on. [client_impl] answers from the [chain_database] and pushes what
    comes.

    * The files

    - Prelude, StateMonad: machine integers, the error monad, maps of amounts,
      tactics; the monad of stateful operations whose writes survive an
      exception, with the class of facts that operations keep ([keeps]).
    - Asset, Names, Combinatorics: asset.cpp, the name checks of
      chain_interface.cpp, combinatorics.cpp of libraries/utilities.
    - Records: the records, withdraw conditions, operations and transactions as
      data, with the functions that read no state (the record and operation
      headers, [*_record.cpp], withdraw_types.cpp).
    - ChainInterface: [chain_interface] as the class [chain_interface S], which
      lists the virtual functions by table and index; the [lookup], [store] and
      [remove] of each record class, the accessors of chain_interface.cpp. The
      class [chain_spec] states what a chain state promises: the contents of its
      tables are finite maps that insertions and erasures update.
    - EvalState, BalanceOps, AccountOps, AssetOps, MarketOps (with slates and
      feeds), Transaction: transaction_evaluation_state.cpp, the [evaluate] function of every operation, the dispatch
      (operation_factory.hpp, operations.cpp) and [apply_transactions], over any
      [S] with the interface.
    - Tables, PendingState, ChainDatabase: the two implementations of the
      interface, [pending_chain_state] over another state
      (pending_chain_state.cpp) and the database (chain_database.cpp, time.cpp),
      with [apply_changes], [build_undo_state], the feed price and the rankings.
      Both are instances of [chain_spec].
    - Market: the market engine (market_engine.cpp, market_records.cpp) and
      [execute_markets].
    - BlockOps: the steps of [extend_chain] other than the transactions and the
      markets (chain_database.cpp, block.cpp).
    - Node, ForkDb: the state of a node around its database (blocks, fork
      records, undo states, pool), the marking of forks, [store_and_index],
      [extend_chain], [pop_block], [switch_to_fork] and [push_block].
    - Genesis: [initialize_genesis].
    - Pool: the transactions that wait and [generate_block].
    - Keys, Building: extended keys (extended_address.cpp), memos
      (withdraw_types.cpp), the functions of [transaction] that append
      operations (transaction.cpp).
    - Storage: [cached_level_map] and [fast_level_map] of libraries/db as
      machines over a LevelDB database, of which a killed process keeps what was
      written (cached_level_map.hpp, fast_level_map.hpp, level_map.hpp).
    - Reopen: [chain_database::open], the indexes a process rebuilds and the
      replay of blocks (chain_database.cpp).
    - WalletDb: the wallet's records, their encryption and [wallet_db]
      (wallet_records.hpp, wallet_records.cpp, wallet_db.cpp).
    - AmountText, AddressText: amounts and prices as text (asset.cpp,
      asset_record.cpp, chain_interface.cpp); the texts of addresses and keys
      (address.cpp, pts_address.cpp, types.cpp).
    - Wallet: [wallet] over its database (wallet.cpp): files, opening, locking
      and unlocking, properties, accounts and keys, signing; the balances and
      accounts it finds on the chain (transaction_ledger_experimental.cpp).
    - Spending: the balances an amount is taken from, recipients, the keys that
      authorize an update, the slate of the votes ([wallet_impl], wallet.cpp).
    - TransactionBuilder: transaction_builder.cpp. WalletTrx: the transactions
      of the commands of the wallet (wallet.cpp).
    - Ledger: what the operations of a block mean for the keys of the wallet
      (transaction_ledger.cpp) and the scan of the blocks (wallet.cpp).
    - Client: what the node asks of [client_impl], synopses, items, blocks and
      transactions (client.cpp, messages.hpp).
    - Sync: the state of [node_impl] and its peers, the interface
      [NodeDelegate] of the client with the instance [client_delegate], and the
      handlers and loops of synchronization (node.cpp, peer_connection.cpp).
      Inventory: normal operation, the messages of peers and the events of the
      life of a node ([handle_event]).
    - Concrete, ForkDemo, WalletDemo, SyncDemo: small chains, a wallet,
      a synchronization and stand-ins for the hash functions and keys, on which
      the witnesses compute.
    - Properties: Undo, Supply, Conservation, BlockProps, Frames, AccountKeys,
      Authority, Outcomes and Rankings of the operations and the steps of a
      block; MarketProps of the markets; ForkTree, ForkStore,
      NodeTree, ForkSwitch and ForkProps of the fork database;
      ChainSupply of whole blocks and chains; GenesisProps and ChainGenesis of
      the genesis; PoolProps and BlockMaking of the pool and its blocks;
      StorageProps of the maps; ChainMemory and ReopenProps of restarts of a
      node; MemoProps of memos; WalletDbProps (the invariant that ties disk,
      records and indexes), WalletSteps (each operation keeps it and
      opening restores it), WalletKeys (private keys) and WalletProps of the
      wallet database; AmountProps of amounts and prices as text; SpendingProps
      of withdrawals and scanned balances, BuilderProps of the transaction
      builder, WalletLock of locking and signing, WalletSafe of what an unlocked
      wallet keeps through its commands and scans, LedgerProps of the ledger;
      MainChain of the blocks from the genesis to the head, ClientProps of
      synopses and replies, SyncProps of requests, SyncOrder of the blocks on
      their way to the client and of the ids asked for and taken.

    A function of the source keeps its name; [x_operation::evaluate] is
    [evaluate_x]. A field of a record has the prefix of its record. State is
    passed explicitly, and a throwing function returns [result]: an exception is
    the value [Throw e], and a failed [FC_ASSERT] is [Throw assert_exception].
    Undefined behaviour of C++ that the source can reach (an empty optional
    dereferenced, an index out of range, division by zero) is
    [Throw undefined_behaviour].

    * Integers

    A 64-bit amount is a [Z] and every unchecked addition, subtraction and
    multiplication wraps explicitly ([+!], [-!], [*!]); 32-bit and 16-bit
    conversions are [uwrap32] and [uwrap16]. Conservation is proved modulo 2^64
    ([≡64], a congruence with its [Proper] instances), so no absence of overflow
    is assumed; the bounds that exclude wrapping are hypotheses where a property
    is about exact values.

    * Parameters

    What is not under src/ is a parameter: the numbers of the fc library
    ([Fc], with the instance [fc_exact]), hashes, addresses and signatures
    ([Crypto], [TxCrypto], [BlockCrypto]), chain id and statistics switch
    ([Statics]), identifiers of transactions ([TrxIds]), the encodings that the
    genesis and the sizes of blocks depend on ([GenesisCodec], [Sizes]), elliptic
    curve keys and encryption ([KeyCrypto], with the laws [KeyLaws] of
    Diffie-Hellman, signing and AES that memos rely on; [Signing]), the hash of
    a master key ([WalletHash]), the hashes and base58 of texts ([TextCodec],
    with the laws [TextLaws]), the grouping of thousands ([PrettyNumber]), the
    hash of a password and the JSON of public data ([WalletEnv]). That the digest
    of a transaction does not depend on its signatures is [DigestLaw], that a
    key is recovered from what it signed is [SigningLaw]. Conservation needs that two withdraw conditions of different
    assets have different addresses ([CollisionFree]), the usual assumption on
    the hash. The wallet keeps the alternative addresses of its keys in one
    index; that no two keys share one is [PtsDisjoint]. The hash that names a
    message is [MessageHash].

    * The properties

    - Fork choice: [push_block] ends on the longest chain it can link and apply,
      keeps the records of the fork database consistent, extends the head at
      once, and reaches another block within a known number of pops; two states
      from which it never moves again (ForkProps). The included blocks are one
      chain, numbered from 1, up to the head, as long as no block is pushed that
      has the number 0, or the number 1 on another block (ClientProps, on
      MainChain).
    - Synchronization: a synopsis has as many ids as the number of blocks has
      digits; the reply to it starts where two chains part, and lists all that
      follows, or is refused when it has too many ids (ClientProps); the synopsis
      for a peer has a part of our blocks and one of its ids, and is that of the
      chain it offers when the number kept with the shared block is right; of a
      first reply what the client has is dropped, unless another peer offers it
      too (SyncOrder); no block is asked of two peers (SyncProps); blocks are
      handed over in the order of the chain, 200 at a time, and none is lost, up
      to the first that was accepted another way (SyncOrder). What stalls a
      synchronization is shown on examples (SyncDemo).
    - Supply: from the genesis on, whatever blocks are stored and extend the
      chain, with no claim to the account -1, the amounts that are held add up to
      the current supply of every asset (Supply, Conservation, ChainSupply,
      ChainGenesis).
    - Refinement: a pending state shows what the database holds after
      [apply_changes]; popping a block restores it, except for ads and reward
      pools (Undo).
    - Authority: in an operation, balances, accounts and the rules of assets
      change only with the signatures they demand, and each operation writes its
      own tables only (Authority).
    - Replay: a transaction is applied once (Frames).
    - Outcomes: vesting, yield, red packets and their claims, escrows and fees,
      with the 32-bit words that wrap (Outcomes); header checks, slots, the shuffle (BlockProps).
    - Markets: the engine of this code never matches an order, and ends with an
      exception only at a market whose ids are in the wrong order (MarketProps).
    - Pool: its index fits the transactions that wait (PoolProps); a block made
      of it keeps the limits and has a header that is accepted (BlockMaking).
    - Rankings and feeds: delegates by vote in every reachable database, the
      median price (Rankings).
    - Storage: both maps implement one specification, the contents now and those
      a new process would find (StorageProps).
    - Restarts: a node that only extended its chain and opens it again is the
      node that stopped, except for one index (ReopenProps); a wallet that is opened again
      has its records, indexes and keys (WalletProps).
    - Keys: a memo reaches its receiver (MemoProps); a private key is lost only
      when a key without one is stored over it, a new account has two new keys, stored encrypted, and
      contacts of a closed wallet can overwrite records of the next one
      (WalletProps).
    - Wallet: a withdrawal takes exactly the amount from spendable balances, a
      scan finds exactly the balances of the wallet's keys (SpendingProps); a
      finalized transaction pays what its operations charge and the fee
      (BuilderProps); a locked wallet does nothing, unlocking takes the password,
      and an unlocked wallet signs for its keys (WalletLock); a new wallet
      loses no private key through its commands, in memory and on disk, and
      through changes of the password and the lock, unless it makes a deposit in
      escrow (WalletSafe).
    - Ledger: a payment to a key of an account is found, with its private key;
      the fee noted for a transaction is what it takes less what it gives
      (LedgerProps).
    - Texts: amounts, prices, addresses and keys are read as they were written
      (AmountProps, AddressText).
    - Arithmetic and names: prices, checked amounts, combinations, the grammars
      of names (Asset, Combinatorics, Names).

    * Bounds and fuel

    The loops over parent names take the length of the name as fuel, each step
    shortens it. Halving the units of a red packet takes 32 steps, the number of
    units has 32 bits. The search for a producible slot runs over the 101 slots
    of a round. The loop over missed slots takes their number. Matching takes
    the number of orders as fuel; marking descendants takes the number of fork
    records; the history of a fork the number of known blocks, and it is proved
    that these suffice. The search of the wallet for unused keys runs over 32-bit
    numbers; [until] gives it 2^32 steps, after which the counter has wrapped to
    zero, where the code's loop stops (WalletProps). The loops of a synopsis halve
    a 32-bit number and have 64 steps; handing blocks over takes the number of
    waiting blocks; both are proved to end within them. [pop_until] takes a bound as an argument: the code's loop
    has none, and that it does not end from a head of number 0 is a property.

    * Not modelled

    The build for the test network, which adds [sanity_check] and
    [check_supplies]; assertions of [assert], which release builds drop; games
    (JavaScript programs); block statistics, observers, the mutex, and the lists
    of market, game and reward transactions kept for reports; serialization,
    other than that of memos and keys. Of the wallet: backups and JSON files,
    orders given as text, games, the commands for notes and chips, the lists of
    its history. The ledger tries the keys on a memo one after the other, not in
    threads. Of the network: sockets, the handshake, addresses, firewall checks,
    timeouts (a connection may close at any moment), bandwidth and the queue of
    messages; that other fibers run while a handler waits for the client. Of the
    client: configuration and the classes of the API. Outside: mail, RPC and
    command line. *)

From Stdlib Require Export ZArith Lia.
From stdpp Require Export base gmap strings list fin_maps sorting.

#[global] Open Scope Z_scope.

(** ** Machine integers

    [share_type] is [int64_t], ids are 32-bit signed, counters are [uint32_t]
    and [uint64_t].  A value is a [Z]; arithmetic the code does not check is
    written with an explicit wrap to the width. *)

Definition two32 : Z := 4294967296.
Definition two64 : Z := 18446744073709551616.
Definition INT64_MAX : Z := 9223372036854775807.
Definition INT64_MIN : Z := -9223372036854775808.

Definition wrap64 (z : Z) : Z := (z + 9223372036854775808) mod two64 - 9223372036854775808.
Definition uwrap64 (z : Z) : Z := z mod two64.
Definition uwrap32 (z : Z) : Z := z mod two32.
Definition uwrap16 (z : Z) : Z := z mod 65536.
Definition uwrap8 (z : Z) : Z := z mod 256.
(** Conversion to [int32_t]. *)
Definition swrap32 (z : Z) : Z := (z + 2147483648) mod two32 - 2147483648.

Definition in_int64 (z : Z) : Prop := INT64_MIN <= z <= INT64_MAX.

#[export] Instance in_int64_dec z : Decision (in_int64 z).
Proof. unfold in_int64. apply _. Defined.

Definition add64 (a b : Z) : Z := wrap64 (a + b).
Definition sub64 (a b : Z) : Z := wrap64 (a - b).
Definition mul64 (a b : Z) : Z := wrap64 (a * b).
Definition neg64 (a : Z) : Z := wrap64 (- a).

Declare Scope int64_scope.
Delimit Scope int64_scope with i64.
Infix "+!" := add64 (at level 50, left associativity) : int64_scope.
Infix "-!" := sub64 (at level 50, left associativity) : int64_scope.
Infix "*!" := mul64 (at level 40, left associativity) : int64_scope.
#[global] Open Scope int64_scope.

Ltac unfold_width :=
  unfold in_int64, two64, two32, INT64_MAX, INT64_MIN in *.

Lemma wrap64_id z : in_int64 z -> wrap64 z = z.
Proof. unfold wrap64; unfold_width; intros H. rewrite Z.mod_small by lia. lia. Qed.

Lemma wrap64_range z : in_int64 (wrap64 z).
Proof.
  unfold wrap64; unfold_width.
  pose proof (Z.mod_pos_bound (z + 9223372036854775808) 18446744073709551616). lia.
Qed.

Lemma add64_id a b : in_int64 (a + b) -> a +! b = a + b.
Proof. apply wrap64_id. Qed.

Lemma sub64_id a b : in_int64 (a - b) -> a -! b = a - b.
Proof. apply wrap64_id. Qed.

Lemma mul64_id a b : in_int64 (a * b) -> a *! b = a * b.
Proof. apply wrap64_id. Qed.

Lemma uwrap64_range z : 0 <= uwrap64 z < two64.
Proof. unfold uwrap64. apply Z.mod_pos_bound. reflexivity. Qed.

Lemma uwrap32_range z : 0 <= uwrap32 z < two32.
Proof. unfold uwrap32. apply Z.mod_pos_bound. reflexivity. Qed.

(** *** Congruence modulo 2^64

    Amounts that pass through unchecked 64-bit arithmetic are known up to a
    multiple of 2^64; the ring operations are compatible with it, so sums of
    machine integers are handled by setoid rewriting. *)

Definition eqm (a b : Z) : Prop := a mod two64 = b mod two64.
Infix "≡64" := eqm (at level 70) : Z_scope.

#[global] Instance eqm_equivalence : Equivalence eqm.
Proof. split; unfold eqm; [ intros ? | intros ??? | intros ????? ]; congruence. Qed.

#[global] Instance eqm_add_proper : Proper (eqm ==> eqm ==> eqm) Z.add.
Proof. intros a b H c d K. unfold eqm in *. rewrite Zplus_mod, H, K, <- Zplus_mod. done. Qed.

#[global] Instance eqm_sub_proper : Proper (eqm ==> eqm ==> eqm) Z.sub.
Proof. intros a b H c d K. unfold eqm in *. rewrite Zminus_mod, H, K, <- Zminus_mod. done. Qed.

#[global] Instance eqm_mul_proper : Proper (eqm ==> eqm ==> eqm) Z.mul.
Proof. intros a b H c d K. unfold eqm in *. rewrite Zmult_mod, H, K, <- Zmult_mod. done. Qed.

#[global] Instance eqm_opp_proper : Proper (eqm ==> eqm) Z.opp.
Proof. intros a b H. change (0 - a ≡64 0 - b). rewrite H. done. Qed.

Lemma eqm_of_eq a b : a = b -> a ≡64 b.
Proof. by intros ->. Qed.

Lemma eqm_sub_0 a b : a ≡64 b <-> a - b ≡64 0.
Proof.
  split; intros H.
  - rewrite H, Z.sub_diag. done.
  - replace a with ((a - b) + b) by lia. rewrite H. done.
Qed.

Lemma eqm_wrap64 z : wrap64 z ≡64 z.
Proof.
  unfold wrap64, eqm. rewrite Zminus_mod, Zmod_mod, <- Zminus_mod. f_equal. lia.
Qed.

Lemma eqm_uwrap64 z : uwrap64 z ≡64 z.
Proof. unfold uwrap64, eqm. apply Zmod_mod. Qed.

Lemma eqm_add64 a b : a +! b ≡64 a + b.
Proof. apply eqm_wrap64. Qed.

Lemma eqm_sub64 a b : a -! b ≡64 a - b.
Proof. apply eqm_wrap64. Qed.

Lemma eqm_neg64 a : neg64 a ≡64 - a.
Proof. apply eqm_wrap64. Qed.

Lemma eqm_eq a b : in_int64 a -> in_int64 b -> a ≡64 b -> a = b.
Proof.
  intros Ha Hb H. rewrite <- (wrap64_id a), <- (wrap64_id b) by done.
  unfold wrap64. f_equal. change (a + 9223372036854775808 ≡64 b + 9223372036854775808).
  rewrite H. done.
Qed.

(** Closes a congruence that is linear once the wraps are dropped. *)
Ltac eqm_solve :=
  repeat rewrite ?eqm_add64, ?eqm_sub64, ?eqm_neg64, ?eqm_wrap64, ?eqm_uwrap64;
  apply eqm_of_eq; lia.

(** *** Integer division of the code

    C++ [/] and [%] on signed operands truncate toward zero. *)

Definition div64 (a b : Z) : Z := Z.quot a b.
Definition mod64 (a b : Z) : Z := Z.rem a b.

(** ** Errors

    The exceptions of [exceptions.hpp] that the modelled code throws;
    [FC_ASSERT] throws [fc::assert_exception]. [undefined_behaviour] is not an
    exception: it marks the runs that dereference an empty optional, divide by
    zero, fail a C assertion or do not end. *)

Inductive exception : Type :=
  | assert_exception | parse_error | out_of_range
  | addition_overflow | subtraction_overflow | addition_underflow
  | asset_divide_by_zero | asset_divide_by_self | asset_type_mismatch
  | price_multiplication_overflow | price_multiplication_underflow | price_multiplication_undefined
  | negative_fee | insufficient_fee | fee_greater_than_max | insufficient_relay_fee
  | unknown_asset_id | unknown_asset_symbol | unknown_account_id | unknown_game_id
  | unknown_balance_record | unknown_delegate_slate | unknown_market_order
  | negative_deposit | negative_withdraw | negative_issue | insufficient_funds
  | invalid_withdraw_condition | missing_signature | missing_parent_account_signature
  | invalid_account_name | account_already_registered | account_key_in_use | account_retracted
  | not_a_delegate | pay_balance_remaining
  | invalid_asset_symbol | asset_symbol_in_use | asset_id_in_use | invalid_asset_name
  | invalid_asset_amount | invalid_precision | amount_too_large | over_issue | not_user_issued
  | outstanding_shares_exist | invalid_fee_rate | permission_not_available | invalid_authority
  | too_may_delegates_in_slate | invalid_feed_price | invalid_market
  | zero_price | zero_amount | insufficient_feeds
  | expired_transaction | invalid_transaction_expiration | duplicate_transaction
  | unsupported_chain_operation | unexpected_supply_change
  | block_numbers_not_sequential | invalid_previous_block_id | invalid_block_time
  | time_in_past | time_in_future | invalid_block_digest | invalid_delegate_signee
  | block_older_than_undo_history | failed_checkpoint_verification
  | key_not_found_exception | invalid_pts_address
  | aes_exception | memo_too_long | wallet_closed | wallet_locked | invalid_password | invalid_timeout
  | unknown_wallet_account | unknown_account | invalid_contact | label_already_in_use | duplicate_account_name
  | duplicate_key | key_already_registered | private_key_not_found | invalid_name | unauthorized_child_account
  | invalid_fee | invalid_expiration_time | bad_cast_exception | wallet_already_exists | no_such_wallet
  | password_too_short | transaction_not_found | invalid_transaction_id | invalid_price | invalid_operation
  | account_not_registered | unsupported_version | unknown_slate | invalid_slate | invalid_wallet_name
  | negative_bid | issuer_not_found | invalid_cancel | unknown_address | file_not_found | std_exception
  | unlinkable_block | fc_exception
  | undefined_behaviour.

#[export] Instance exception_eq_dec : EqDecision exception.
Proof. solve_decision. Defined.

Inductive result (A : Type) : Type :=
  | Ok (a : A)
  | Throw (e : exception).
Arguments Ok {A} a.
Arguments Throw {A} e.

Definition rbind {A B} (r : result A) (f : A -> result B) : result B :=
  match r with Ok a => f a | Throw e => Throw e end.

Declare Scope result_scope.
Notation "x <- m ;; k" := (rbind m (fun x => k))
  (at level 100, m at next level, right associativity) : result_scope.
#[global] Open Scope result_scope.

Definition is_ok {A} (r : result A) : bool := match r with Ok _ => true | Throw _ => false end.

(** [FC_ASSERT( b )] and [if( !b ) FC_CAPTURE_AND_THROW( e )]. *)
Definition fc_assert (b : bool) : result unit := if b then Ok tt else Throw assert_exception.
Definition throw_unless (e : exception) (b : bool) : result unit := if b then Ok tt else Throw e.
Definition throw_if (e : exception) (b : bool) : result unit := if b then Throw e else Ok tt.
Definition from_option_or {A} (e : exception) (o : option A) : result A :=
  match o with Some a => Ok a | None => Throw e end.

Lemma Ok_inj {A} (a b : A) : Ok a = Ok b -> a = b.
Proof. by intros [= ->]. Qed.

Lemma bind_Ok {A B} (r : result A) (f : A -> result B) b :
  rbind r f = Ok b <-> exists a, r = Ok a /\ f a = Ok b.
Proof. destruct r; simpl; split; [ eauto | by intros (? & [= ->] & ?) | done | by intros (? & ? & ?) ]. Qed.

Lemma fc_assert_Ok b u : fc_assert b = Ok u <-> b = true.
Proof. destruct b, u; simpl; split; done. Qed.

Lemma throw_unless_Ok e b u : throw_unless e b = Ok u <-> b = true.
Proof. destruct b, u; simpl; split; done. Qed.

Lemma throw_if_Ok e b u : throw_if e b = Ok u <-> b = false.
Proof. destruct b, u; simpl; split; done. Qed.

Lemma from_option_or_Ok {A} e (o : option A) a : from_option_or e o = Ok a <-> o = Some a.
Proof. destruct o; simpl; split; congruence. Qed.

(** Loops over containers whose body may throw. *)
Fixpoint foldM {A S} (f : A -> S -> result S) (l : list A) (s : S) : result S :=
  match l with
  | [] => Ok s
  | a :: l => s <- f a s ;; foldM f l s
  end.

(** ** Finite maps

    [std::map::operator[]] creates a zero entry for a missing key. *)

Definition at_or_0 `{Countable K} (m : gmap K Z) (k : K) : Z := default 0 (m !! k).

Lemma at_or_0_insert `{Countable K} (m : gmap K Z) k k' v :
  at_or_0 (<[k:=v]> m) k' = if decide (k = k') then v else at_or_0 m k'.
Proof. unfold at_or_0. rewrite lookup_insert. by case_decide. Qed.

(** A [std::map] is walked in the order of its keys. *)
Definition entry_le {V} (a b : Z * V) : Prop := fst a <= fst b.
#[export] Instance entry_le_dec {V} : RelDecision (@entry_le V).
Proof. intros a b. unfold entry_le. apply _. Defined.
#[export] Instance entry_le_total {V} : Total (@entry_le V).
Proof. intros a b. unfold entry_le. lia. Qed.

Definition map_items {V} (m : gmap Z V) : list (Z * V) := merge_sort entry_le (map_to_list m).

Lemma map_items_perm {V} (m : gmap Z V) : map_items m ≡ₚ map_to_list m.
Proof. apply merge_sort_Permutation. Qed.

Lemma elem_of_map_items {V} (m : gmap Z V) k v : (k, v) ∈ map_items m <-> m !! k = Some v.
Proof. by rewrite map_items_perm, elem_of_map_to_list. Qed.

(** Sums over a finite map. *)
Section map_sum.
Context `{Countable K} {V : Type}.
Implicit Types (f : K -> V -> Z) (m : gmap K V).

Definition map_sum f m : Z := map_fold (fun k v acc => f k v + acc) 0 m.

Definition contrib f k (o : option V) : Z := match o with Some v => f k v | None => 0 end.

Lemma map_sum_empty f : map_sum f ∅ = 0.
Proof. apply map_fold_empty. Qed.

Lemma map_sum_insert_new f m k v :
  m !! k = None -> map_sum f (<[k:=v]> m) = f k v + map_sum f m.
Proof. intros Hk. unfold map_sum.
  refine (map_fold_insert_L (fun k v acc => f k v + acc) 0 k v m _ Hk). intros; lia. Qed.

Lemma map_sum_delete f m k : map_sum f m = contrib f k (m !! k) + map_sum f (delete k m).
Proof.
  destruct (m !! k) as [v|] eqn:E; simpl.
  - rewrite <- (insert_delete_id m k v) at 1 by done.
    apply map_sum_insert_new, lookup_delete_eq.
  - by rewrite delete_id.
Qed.

Lemma map_sum_insert f m k v :
  map_sum f (<[k:=v]> m) = map_sum f m - contrib f k (m !! k) + f k v.
Proof.
  rewrite <- insert_delete_eq, map_sum_insert_new by apply lookup_delete_eq.
  rewrite (map_sum_delete f m k). lia.
Qed.

Lemma map_sum_ext f g m :
  (forall k v, m !! k = Some v -> f k v = g k v) -> map_sum f m = map_sum g m.
Proof.
  induction m as [|k v m Hk IH] using map_ind; intros Hfg.
  - by rewrite !map_sum_empty.
  - rewrite !map_sum_insert_new by done. rewrite (Hfg k v) by apply lookup_insert_eq.
    f_equal. apply IH. intros k' v' Hk'. apply Hfg.
    rewrite lookup_insert_ne; [ done | congruence ].
Qed.

Lemma map_sum_nonneg f m :
  (forall k v, m !! k = Some v -> 0 <= f k v) -> 0 <= map_sum f m.
Proof.
  induction m as [|k v m Hk IH] using map_ind; intros Hf.
  - by rewrite map_sum_empty.
  - rewrite map_sum_insert_new by done.
    pose proof (Hf k v (lookup_insert_eq _ _ _)).
    assert (0 <= map_sum f m); [ | lia ].
    apply IH. intros k' v' Hk'. apply (Hf k'). rewrite lookup_insert_ne; [ done | congruence ].
Qed.
End map_sum.

(** ** Tactics *)

(** Splits a successful run of monadic code into its steps. *)
Ltac inv_ok :=
  repeat match goal with
  | H : Ok _ = Ok _ |- _ => apply Ok_inj in H;
      try (match type of H with ?x = ?y => first [ is_var y; subst y | is_var x; subst x ] end)
  | H : Throw _ = Ok _ |- _ => discriminate H
  | H : fc_assert _ = Ok _ |- _ => apply fc_assert_Ok in H
  | H : throw_unless _ _ = Ok _ |- _ => apply throw_unless_Ok in H
  | H : throw_if _ _ = Ok _ |- _ => apply throw_if_Ok in H
  | H : from_option_or _ _ = Ok _ |- _ => apply from_option_or_Ok in H
  | H : rbind _ _ = Ok _ |- _ =>
      apply bind_Ok in H; let a := fresh "a" in let Ha := fresh "Ha" in destruct H as (a & Ha & H)
  end.

(** Turns boolean tests into propositions for [lia]. *)
Ltac b2p :=
  repeat match goal with
  | H : _ && _ = true |- _ => apply andb_true_iff in H as [? ?]
  | H : _ || _ = false |- _ => apply orb_false_iff in H as [? ?]
  | H : negb _ = true |- _ => apply negb_true_iff in H
  | H : negb _ = false |- _ => apply negb_false_iff in H
  | H : bool_decide _ = true |- _ => apply bool_decide_eq_true in H
  | H : bool_decide _ = false |- _ => apply bool_decide_eq_false in H
  | H : (_ <=? _) = true |- _ => apply Z.leb_le in H
  | H : (_ <=? _) = false |- _ => apply Z.leb_gt in H
  | H : (_ <? _) = true |- _ => apply Z.ltb_lt in H
  | H : (_ <? _) = false |- _ => apply Z.ltb_ge in H
  | H : (_ =? _) = true |- _ => apply Z.eqb_eq in H
  | H : (_ =? _) = false |- _ => apply Z.eqb_neq in H
  end.
