(* ===== verification/StateMonad.v ===== *)
(** Computations on a state that may throw: the state they leave stays changed
    when an exception passes, as the members of an object do. *)

From S2P Require Import Prelude.

Definition state_m (S A : Type) : Type := S -> S * result A.

Section state_monad.
Context {S : Type}.

Definition nret {A} (a : A) : state_m S A := fun n => (n, Ok a).
Definition nbind {A B} (m : state_m S A) (f : A -> state_m S B) : state_m S B :=
  fun n => match m n with
           | (n, Ok a) => f a n
           | (n, Throw e) => (n, Throw e)
           end.
Definition nthrow {A} (e : exception) : state_m S A := fun n => (n, Throw e).
(** A computation that reads the state. *)
Definition nread {A} (f : S -> result A) : state_m S A := fun n => (n, f n).
Definition nwrite (f : S -> S) : state_m S unit := fun n => (f n, Ok tt).
(** [try] and [catch]: what is not an exception is not caught. *)
Definition ncatch {A} (m : state_m S A) (handler : exception -> state_m S A) : state_m S A :=
  fun n => match m n with
           | (n, Throw undefined_behaviour) => (n, Throw undefined_behaviour)
           | (n, Throw e) => handler e n
           | r => r
           end.
End state_monad.

Declare Scope node_scope.
Delimit Scope node_scope with node.
Notation "x <~ m ;; k" := (nbind m (fun x => k))
  (at level 100, m at next level, right associativity) : node_scope.
#[global] Open Scope node_scope.

Fixpoint nfold {S A B : Type} (f : A -> B -> state_m S B) (l : list A) (b : B) : state_m S B :=
  match l with
  | [] => nret b
  | a :: l => b <~ f a b ;; nfold f l b
  end.

(** ** How a computation ends *)

Section running.
Context {S : Type}.
Implicit Types n : S.

Lemma nbind_inv {A B} (m : state_m S A) (f : A -> state_m S B) n n' r :
  nbind m f n = (n', r) ->
  (exists n1 a, m n = (n1, Ok a) /\ f a n1 = (n', r)) \/ (exists e, m n = (n', Throw e) /\ r = Throw e).
Proof. unfold nbind. destruct (m n) as [n1 [a|e]]; intros H; [ left; eauto | right; exists e; by simplify_eq ]. Qed.

Lemma nbind_ok {A B} (m : state_m S A) (f : A -> state_m S B) n n1 a : m n = (n1, Ok a) -> nbind m f n = f a n1.
Proof. unfold nbind. by intros ->. Qed.
Lemma nbind_throw {A B} (m : state_m S A) (f : A -> state_m S B) n n1 e : m n = (n1, Throw e) -> nbind m f n = (n1, Throw e).
Proof. unfold nbind. by intros ->. Qed.
Lemma nread_inv {A B} (f : S -> result A) (k : A -> state_m S B) n n' r : nbind (nread f) k n = (n', r) ->
  (exists a, f n = Ok a /\ k a n = (n', r)) \/ (exists e, f n = Throw e /\ n' = n /\ r = Throw e).
Proof. unfold nbind, nread. destruct (f n) as [a|e]; intros H; [ left; eauto | right; exists e; by simplify_eq ]. Qed.
Lemma nwrite_inv {B} (f : S -> S) (k : unit -> state_m S B) n : nbind (nwrite f) k n = k tt (f n).
Proof. done. Qed.
End running.

(** ** What a computation keeps *)

(** A computation keeps a property of the state, however it ends. *)
Definition keeps {S : Type} (P : S -> Prop) {A} (m : state_m S A) : Prop := forall n n' r, m n = (n', r) -> P n -> P n'.

Create HintDb keeps.

Section keeps.
Context {S : Type} (P : S -> Prop).

Lemma keeps_ret {A} (a : A) : keeps P (nret a).
Proof. by intros n n' r [= <- <-]. Qed.
Lemma keeps_throw {A} e : keeps P (nthrow (A := A) e).
Proof. by intros n n' r [= <- <-]. Qed.
Lemma keeps_read {A} (f : S -> result A) : keeps P (nread f).
Proof. by intros n n' r [= <- <-]. Qed.
Lemma keeps_write f : (forall n, P n -> P (f n)) -> keeps P (nwrite f).
Proof. intros H n n' r [= <- <-]. apply H. Qed.
Lemma keeps_bind {A B} (m : state_m S A) (f : A -> state_m S B) : keeps P m -> (forall a, keeps P (f a)) -> keeps P (nbind m f).
Proof.
  intros Hm Hf n n' r [(n1 & a & E & H)|(e & E & ->)]%nbind_inv Hp; [ | by eapply Hm ]. eapply Hf; [ exact H | ]. by eapply Hm.
Qed.
Lemma keeps_catch {A} (m : state_m S A) handler : keeps P m -> (forall e, keeps P (handler e)) -> keeps P (ncatch m handler).
Proof.
  intros Hm Hh n n' r H Hp. unfold ncatch in H. destruct (m n) as [n1 [a|e]] eqn:E; [ simplify_eq; by eapply Hm | ].
  pose proof (Hm _ _ _ E Hp) as Hp1. destruct e; try (by eapply Hh); by simplify_eq.
Qed.
Lemma keeps_fold {A B} (f : A -> B -> state_m S B) l b : (forall a b, keeps P (f a b)) -> keeps P (nfold f l b).
Proof. intros Hf. revert b. induction l; intros b; cbn [nfold]; [ apply keeps_ret | apply keeps_bind; auto ]. Qed.
(** A computation that looks at the state first. *)
Lemma keeps_at {A} (m : S -> state_m S A) : (forall n, keeps P (m n)) -> keeps P (fun n => m n n).
Proof. intros H n n' r E. by apply (H n n n' r). Qed.
End keeps.
#[export] Hint Resolve keeps_ret keeps_throw keeps_read keeps_write keeps_bind keeps_catch keeps_fold : keeps.
