(* ===== verification/Asset.v ===== *)
(** Amounts and prices: [asset], [price] and their arithmetic
    (libraries/blockchain/asset.cpp and asset.hpp).

    [fc::bigint], [fc::uint128] and the constant [FC_REAL128_PRECISION] belong
    to the fc library, which is not part of the repository: they are the class
    [Fc] with the documented behaviour the code relies on. *)

From S2P Require Import Prelude.

(** ** The fc number types *)

Definition uint128_max : Z := 340282366920938463463374607431768211455.

Class Fc := {
  (** denominator of a price ratio: a power of ten *)
  FC_REAL128_PRECISION : Z;
  precision_digits : nat;
  bigint_div : Z -> Z -> Z;
  bigint_log2 : Z -> Z;
  bigint_to_int64 : Z -> result Z;
  bigint_to_uint128 : Z -> Z;
  uint128_to_integer : Z -> result Z;
  precision_pow10 : FC_REAL128_PRECISION = 10 ^ Z.of_nat precision_digits;
  precision_fits : (precision_digits <= 18)%nat;
  bigint_div_spec : forall a b, 0 <= a -> 0 < b -> bigint_div a b = a / b;
  bigint_log2_spec : forall a, 0 <= a < two64 -> bigint_log2 a <= 64;
  bigint_to_int64_spec : forall a, 0 <= a <= INT64_MAX -> bigint_to_int64 a = Ok a;
  bigint_to_uint128_spec : forall a, 0 <= a <= uint128_max -> bigint_to_uint128 a = a;
  uint128_to_integer_spec : forall a, 0 <= a < two32 -> uint128_to_integer a = Ok a
}.

Lemma precision_pos `{Fc} : 0 < FC_REAL128_PRECISION.
Proof. rewrite precision_pow10. apply Z.pow_pos_nonneg; lia. Qed.

(** An instance for concrete runs: exact integers, denominator 10^18. *)
#[export] Instance fc_exact : Fc.
Proof.
  refine {| FC_REAL128_PRECISION := 1000000000000000000;
            precision_digits := 18;
            bigint_div := Z.quot;
            bigint_log2 := fun z => if z =? 0 then 0 else Z.log2 (Z.abs z) + 1;
            bigint_to_int64 := fun z =>
              if (INT64_MIN <=? z) && (z <=? INT64_MAX) then Ok z else Throw assert_exception;
            bigint_to_uint128 := fun z => z mod (uint128_max + 1);
            uint128_to_integer := fun z => if (0 <=? z) && (z <? two32) then Ok z else Throw assert_exception |}.
  - reflexivity.
  - lia.
  - intros a b Ha Hb. apply Z.quot_div_nonneg; lia.
  - intros a Ha. destruct (Z.eqb_spec a 0); [ lia | ].
    assert (Z.log2 (Z.abs a) < 64); [ | lia ].
    apply Z.log2_lt_pow2; [ lia | ]. unfold two64 in Ha. rewrite Z.abs_eq by lia. lia.
  - intros a Ha. unfold INT64_MIN, INT64_MAX in *.
    rewrite !(proj2 (Z.leb_le _ _)) by lia. done.
  - intros a Ha. apply Z.mod_small. unfold uint128_max in *. lia.
  - intros a Ha. unfold two32 in *. rewrite (proj2 (Z.leb_le _ _)), (proj2 (Z.ltb_lt _ _)) by lia. done.
Defined.

(** ** [asset] *)

Record asset := mk_asset { amount : Z; asset_id : Z }.

#[export] Instance asset_eq_dec : EqDecision asset.
Proof. solve_decision. Defined.

Definition asset_default : asset := mk_asset 0 0.

(** [asset::operator +=]: checked 64-bit addition. *)
Definition asset_add (a o : asset) : result asset :=
  _ <- fc_assert (asset_id a =? asset_id o) ;;
  if ((0 <? amount o) && (INT64_MAX - amount o <? amount a))
     || ((amount o <? 0) && (amount a <? INT64_MIN - amount o))
  then Throw addition_overflow
  else Ok (mk_asset (amount a + amount o) (asset_id a)).

(** [asset::operator -=]. *)
Definition asset_sub (a o : asset) : result asset :=
  _ <- fc_assert (asset_id a =? asset_id o) ;;
  if ((0 <? amount o) && (amount a <? INT64_MIN + amount o))
     || ((amount o <? 0) && (INT64_MAX + amount o <? amount a))
  then Throw subtraction_overflow
  else Ok (mk_asset (amount a - amount o) (asset_id a)).

(** [asset::operator / ( uint64_t )]: the amount is converted to unsigned,
    divided, and converted back. *)
Definition asset_div (a : asset) (c : Z) : asset :=
  mk_asset (wrap64 (uwrap64 (amount a) / c)) (asset_id a).

Definition asset_neg (a : asset) : asset := mk_asset (neg64 (amount a)) (asset_id a).

Definition asset_eqb (l r : asset) : bool := (amount l =? amount r) && (asset_id l =? asset_id r).

Definition asset_lt (l r : asset) : result bool :=
  _ <- fc_assert (asset_id l =? asset_id r) ;; Ok (amount l <? amount r).

Definition asset_gt (l r : asset) : result bool :=
  _ <- fc_assert (asset_id l =? asset_id r) ;; Ok (amount r <? amount l).

(** [l < r || l == r]. *)
Definition asset_le (l r : asset) : result bool :=
  b <- asset_lt l r ;; if b then Ok true else Ok (asset_eqb l r).

Definition asset_ge (l r : asset) : result bool :=
  b <- asset_gt l r ;; if b then Ok true else Ok (asset_eqb l r).

(** ** [price] *)

Record price := mk_price { ratio : Z; base_asset_id : Z; quote_asset_id : Z }.

#[export] Instance price_eq_dec : EqDecision price.
Proof. solve_decision. Defined.

(** Default construction leaves the ratio and both ids at zero. *)
Definition price_default : price := mk_price 0 0 0.

Definition price_infinite : Z := uint128_max.
Definition is_infinite (p : price) : bool := ratio p =? price_infinite.

Definition asset_pair (p : price) : Z * Z := (quote_asset_id p, base_asset_id p).

Definition price_eqb (l r : price) : bool :=
  (ratio l =? ratio r) && (base_asset_id l =? base_asset_id r) && (quote_asset_id l =? quote_asset_id r).

(** The order of the market index: quote id, base id, ratio. *)
Definition price_lt (l r : price) : bool :=
  if quote_asset_id l <? quote_asset_id r then true
  else if quote_asset_id r <? quote_asset_id l then false
  else if base_asset_id l <? base_asset_id r then true
  else if base_asset_id r <? base_asset_id l then false
  else ratio l <? ratio r.

Definition price_gt (l r : price) : bool :=
  if quote_asset_id r <? quote_asset_id l then true
  else if quote_asset_id l <? quote_asset_id r then false
  else if base_asset_id r <? base_asset_id l then true
  else if base_asset_id l <? base_asset_id r then false
  else ratio r <? ratio l.

Definition price_le (l r : price) : bool :=
  (ratio l <=? ratio r) && bool_decide (asset_pair l = asset_pair r).

Section arithmetic.
Context `{FcI : Fc}.

(** [operator * ( price, price )]. *)
Definition price_mul (l r : price) : result price :=
  _ <- fc_assert (quote_asset_id l =? quote_asset_id r) ;;
  _ <- fc_assert (base_asset_id l =? base_asset_id r) ;;
  if is_infinite l then
    if ratio r =? 0 then Throw price_multiplication_undefined else Ok l
  else if is_infinite r then
    if ratio l =? 0 then Throw price_multiplication_undefined else Ok r
  else if ratio l =? 0 then Ok l
  else if ratio r =? 0 then Ok r
  else
    let product := bigint_div (ratio l * ratio r) FC_REAL128_PRECISION in
    if product =? 0 then Throw price_multiplication_underflow
    else if price_infinite <=? product then Throw price_multiplication_overflow
    else Ok (mk_price (bigint_to_uint128 product) (base_asset_id l) (quote_asset_id l)).

(** [operator / ( asset, asset )]: the smaller id becomes the denominator. *)
Definition asset_div_asset (a b : asset) : result price :=
  if asset_id a =? asset_id b then Throw asset_divide_by_self
  else
    let '(l, r) := if asset_id a <? asset_id b then (b, a) else (a, b) in
    if amount r =? 0 then Throw asset_divide_by_zero
    else
      Ok (mk_price (bigint_to_uint128 (bigint_div (amount l * FC_REAL128_PRECISION) (amount r)))
            (asset_id r) (asset_id l)).

(** [operator * ( asset, price )]. *)
Definition asset_mul_price (a : asset) (p : price) : result asset :=
  if asset_id a =? base_asset_id p then
    let amnt := bigint_div (amount a * ratio p) FC_REAL128_PRECISION in
    if 128 <=? bigint_log2 amnt then Throw addition_overflow
    else v <- bigint_to_int64 amnt ;; Ok (mk_asset v (quote_asset_id p))
  else if asset_id a =? quote_asset_id p then
    let res := bigint_div (amount a * FC_REAL128_PRECISION) (ratio p) in
    if 128 <=? bigint_log2 res then Throw addition_overflow
    else v <- bigint_to_int64 res ;; Ok (mk_asset v (base_asset_id p))
  else Throw asset_type_mismatch.

(** [operator / ( asset, price )] is defined as the product. *)
Definition asset_div_price (a : asset) (p : price) : result asset := asset_mul_price a p.
End arithmetic.

(** ** Checked addition and subtraction *)

Lemma asset_add_Ok a o r :
  asset_add a o = Ok r -> asset_id a = asset_id o /\ r = mk_asset (amount a + amount o) (asset_id a).
Proof.
  unfold asset_add. intros H. inv_ok. b2p. case_match; [ done | ]. inv_ok. done.
Qed.

Definition asset_wf (a : asset) : Prop := in_int64 (amount a).

(** [asset::operator +=] and [-=] on two amounts of one asset never wrap:
    each yields the exact result, and throws exactly when that result is not
    an [int64_t]; on different assets both throw. *)
Theorem asset_checked_arithmetic (a o : asset) (Ha : asset_wf a) (Ho : asset_wf o) :
  asset_add a o =
    (if bool_decide (asset_id a = asset_id o)
     then if bool_decide (in_int64 (amount a + amount o))
          then Ok (mk_asset (amount a + amount o) (asset_id a)) else Throw addition_overflow
     else Throw assert_exception)
  /\ asset_sub a o =
    (if bool_decide (asset_id a = asset_id o)
     then if bool_decide (in_int64 (amount a - amount o))
          then Ok (mk_asset (amount a - amount o) (asset_id a)) else Throw subtraction_overflow
     else Throw assert_exception).
Proof.
  unfold asset_add, asset_sub, asset_wf in *. unfold_width.
  destruct (Z.eqb_spec (asset_id a) (asset_id o)) as [Hid|Hid]; simpl;
    [ rewrite (bool_decide_eq_true_2 _ Hid) | rewrite !(bool_decide_eq_false_2 _ Hid); done ].
  split; repeat case_bool_decide; unfold_width;
    repeat match goal with |- context [Z.ltb ?x ?y] => destruct (Z.ltb_spec x y); simpl end;
    first [ done | lia ].
Qed.

Lemma asset_checked_arithmetic_witness :
  asset_wf (mk_asset INT64_MAX 0) /\ asset_wf (mk_asset 1 0)
  /\ asset_add (mk_asset INT64_MAX 0) (mk_asset 1 0) = Throw addition_overflow
  /\ asset_sub (mk_asset INT64_MAX 0) (mk_asset 1 0) = Ok (mk_asset (INT64_MAX - 1) 0).
Proof.
  assert (H1 : asset_wf (mk_asset INT64_MAX 0)) by (vm_compute; split; discriminate).
  assert (H2 : asset_wf (mk_asset 1 0)) by (vm_compute; split; discriminate).
  destruct (asset_checked_arithmetic _ _ H1 H2) as [E1 E2].
  split; [ exact H1 | ]. split; [ exact H2 | ]. rewrite E1, E2. split; reflexivity.
Defined.

(** ** Exchange at a price *)

Definition ratio_ok (p : price) : Prop := 0 < ratio p < uint128_max.

Section exchange.
Context `{FcI : Fc}.

(** The exact quotient the code computes for the two directions. *)
Definition to_quote (x r : Z) : Z := x * r / FC_REAL128_PRECISION.
Definition to_base (x r : Z) : Z := x * FC_REAL128_PRECISION / r.

Lemma to_quote_to_base_le x r : 0 <= x -> 0 < r -> to_base (to_quote x r) r <= x.
Proof.
  intros Hx Hr. unfold to_base, to_quote. pose proof precision_pos as HP.
  apply Z.div_le_upper_bound; [ done | ].
  rewrite (Z.mul_comm r x), (Z.mul_comm _ FC_REAL128_PRECISION).
  apply Z.mul_div_le. done.
Qed.

Lemma to_base_to_quote_le x r : 0 <= x -> 0 < r -> to_quote (to_base x r) r <= x.
Proof.
  intros Hx Hr. unfold to_base, to_quote. pose proof precision_pos as HP.
  apply Z.div_le_upper_bound; [ done | ].
  rewrite (Z.mul_comm _ r), (Z.mul_comm FC_REAL128_PRECISION x).
  apply Z.mul_div_le. done.
Qed.

Lemma log2_guard v : 0 <= v <= INT64_MAX -> (128 <=? bigint_log2 v) = false.
Proof.
  intros Hv. apply Z.leb_gt. assert (bigint_log2 v <= 64); [ | lia ].
  apply bigint_log2_spec. unfold_width. lia.
Qed.

Lemma asset_mul_price_base x p :
  0 <= x -> 0 < ratio p -> to_quote x (ratio p) <= INT64_MAX ->
  asset_mul_price (mk_asset x (base_asset_id p)) p = Ok (mk_asset (to_quote x (ratio p)) (quote_asset_id p)).
Proof.
  intros Hx Hr Hfit. pose proof precision_pos as HP. unfold asset_mul_price. simpl. rewrite Z.eqb_refl.
  rewrite bigint_div_spec by lia. fold (to_quote x (ratio p)).
  assert (0 <= to_quote x (ratio p)) by (apply Z.div_pos; lia).
  rewrite log2_guard by lia. rewrite bigint_to_int64_spec by lia. done.
Qed.

Lemma asset_mul_price_quote x p :
  0 <= x -> 0 < ratio p -> base_asset_id p <> quote_asset_id p -> to_base x (ratio p) <= INT64_MAX ->
  asset_mul_price (mk_asset x (quote_asset_id p)) p = Ok (mk_asset (to_base x (ratio p)) (base_asset_id p)).
Proof.
  intros Hx Hr Hne Hfit. pose proof precision_pos as HP. unfold asset_mul_price. simpl.
  rewrite (proj2 (Z.eqb_neq _ _)) by congruence. rewrite Z.eqb_refl.
  rewrite bigint_div_spec by lia. fold (to_base x (ratio p)).
  assert (0 <= to_base x (ratio p)) by (apply Z.div_pos; lia).
  rewrite log2_guard by lia. rewrite bigint_to_int64_spec by lia. done.
Qed.

(** exchanging an amount at a price and exchanging the proceeds back at
    the same price never gains: whenever both products of [operator *] fit
    an [int64_t] they succeed, name the two assets of the price, and the
    amount that comes back is at most the one put in, starting from either
    side of the market. *)
Theorem exchange_never_gains (x : Z) (p : price) (Hx : 0 <= x <= INT64_MAX) (Hp : ratio_ok p)
    (Hid : base_asset_id p <> quote_asset_id p)
    (Hq : to_quote x (ratio p) <= INT64_MAX) (Hb : to_base x (ratio p) <= INT64_MAX) :
  (exists q y, asset_mul_price (mk_asset x (base_asset_id p)) p = Ok q
     /\ asset_id q = quote_asset_id p
     /\ asset_mul_price q p = Ok (mk_asset y (base_asset_id p)) /\ 0 <= y <= x)
  /\ (exists b y, asset_mul_price (mk_asset x (quote_asset_id p)) p = Ok b
     /\ asset_id b = base_asset_id p
     /\ asset_mul_price b p = Ok (mk_asset y (quote_asset_id p)) /\ 0 <= y <= x).
Proof.
  destruct Hp as [Hr _]. pose proof precision_pos as HP.
  pose proof (to_quote_to_base_le x (ratio p) ltac:(lia) Hr).
  pose proof (to_base_to_quote_le x (ratio p) ltac:(lia) Hr).
  assert (0 <= to_quote x (ratio p)) by (apply Z.div_pos; lia).
  assert (0 <= to_base x (ratio p)) by (apply Z.div_pos; lia).
  assert (0 <= to_base (to_quote x (ratio p)) (ratio p)) by (apply Z.div_pos; lia).
  assert (0 <= to_quote (to_base x (ratio p)) (ratio p)) by (apply Z.div_pos; lia).
  split.
  - exists (mk_asset (to_quote x (ratio p)) (quote_asset_id p)), (to_base (to_quote x (ratio p)) (ratio p)).
    rewrite (asset_mul_price_base x p), (asset_mul_price_quote (to_quote x (ratio p)) p) by (done || lia).
    done.
  - exists (mk_asset (to_base x (ratio p)) (base_asset_id p)), (to_quote (to_base x (ratio p)) (ratio p)).
    rewrite (asset_mul_price_quote x p), (asset_mul_price_base (to_base x (ratio p)) p) by (done || lia).
    done.
Qed.
End exchange.

Lemma exchange_never_gains_witness :
  let p := mk_price 3333333333333333333 0 4 in
  exists q y, asset_mul_price (mk_asset 1000 0) p = Ok q /\ asset_id q = 4
    /\ asset_mul_price q p = Ok (mk_asset y 0) /\ 0 <= y <= 1000.
Proof.
  refine (proj1 (exchange_never_gains 1000 (mk_price 3333333333333333333 0 4) _ _ _ _ _));
    vm_compute; try (split; [ discriminate || reflexivity | discriminate || reflexivity ]); discriminate.
Defined.

(** ** Product of two prices *)

Section price_product.
Context `{FcI : Fc}.

Definition finite_price (p : price) : Prop := 0 <= ratio p < uint128_max.

(** [operator * ( price, price )] on finite prices of one market is the
    product of the two decimal fractions rounded down; zero is absorbing, and
    a nonzero product below the resolution, or one that reaches the encoding of
    infinity, throws underflow or overflow. *)
Theorem price_mul_finite (l r : price) (Hl : finite_price l) (Hr : finite_price r)
    (Hq : quote_asset_id l = quote_asset_id r) (Hb : base_asset_id l = base_asset_id r) :
  price_mul l r =
    let v := ratio l * ratio r / FC_REAL128_PRECISION in
    if bool_decide (ratio l = 0) then Ok l
    else if bool_decide (ratio r = 0) then Ok r
    else if bool_decide (v = 0) then Throw price_multiplication_underflow
    else if bool_decide (uint128_max <= v) then Throw price_multiplication_overflow
    else Ok (mk_price v (base_asset_id l) (quote_asset_id l)).
Proof.
  unfold finite_price, price_mul, is_infinite, price_infinite in *.
  pose proof precision_pos as HP.
  rewrite Hq, Hb, !Z.eqb_refl. simpl.
  rewrite (proj2 (Z.eqb_neq (ratio l) uint128_max)), (proj2 (Z.eqb_neq (ratio r) uint128_max)) by lia.
  destruct (Z.eqb_spec (ratio l) 0); [ by rewrite bool_decide_eq_true_2 | rewrite bool_decide_eq_false_2 by done ].
  destruct (Z.eqb_spec (ratio r) 0); [ by rewrite bool_decide_eq_true_2 | rewrite bool_decide_eq_false_2 by done ].
  rewrite bigint_div_spec by nia. set (v := ratio l * ratio r / FC_REAL128_PRECISION).
  assert (0 <= v) by (apply Z.div_pos; nia).
  destruct (Z.eqb_spec v 0); [ by rewrite bool_decide_eq_true_2 | rewrite bool_decide_eq_false_2 by done ].
  destruct (Z.leb_spec uint128_max v); [ by rewrite bool_decide_eq_true_2 | rewrite bool_decide_eq_false_2 by lia ].
  rewrite bigint_to_uint128_spec by lia. done.
Qed.
End price_product.

Lemma price_mul_finite_witness :
  price_mul (mk_price 1500000000000000000 0 4) (mk_price 2000000000000000001 0 4)
    = Ok (mk_price 3000000000000000001 0 4)
  /\ price_mul (mk_price 1 0 4) (mk_price 1 0 4) = Throw price_multiplication_underflow.
Proof.
  split; (rewrite price_mul_finite;
    [ reflexivity | split; [ discriminate | reflexivity ] | split; [ discriminate | reflexivity ]
    | reflexivity | reflexivity ]).
Defined.
