(* ===== verification/Names.v ===== *)
(** Names of accounts and assets: the parent of a name and the validity checks
    ([get_parent_account_name], [is_valid_account_name] and
    [is_valid_symbol_name] of chain_interface.cpp).

    A [std::string] is a list of characters; the character classes are those of
    the C locale. *)

From Stdlib Require Import Ascii String.
From S2P Require Import Prelude.

Definition chars (s : string) : list ascii := list_ascii_of_string s.
Definition unchars (l : list ascii) : string := string_of_list_ascii l.

Definition code (c : ascii) : Z := Z.of_nat (nat_of_ascii c).
Definition dot : ascii := "."%char.
Definition hyphen : ascii := "-"%char.

Definition islower (c : ascii) : bool := (97 <=? code c) && (code c <=? 122).
Definition isupper (c : ascii) : bool := (65 <=? code c) && (code c <=? 90).
Definition isdigit (c : ascii) : bool := (48 <=? code c) && (code c <=? 57).
Definition isalpha (c : ascii) : bool := islower c || isupper c.
Definition isalnum (c : ascii) : bool := isalpha c || isdigit c.

(** [string::find( c )]: the position of the first [c]. *)
Fixpoint find_char (c : ascii) (l : list ascii) : option nat :=
  match l with
  | [] => None
  | a :: l => if Ascii.eqb a c then Some O else S <$> find_char c l
  end.

(** [get_parent_account_name]. *)
Definition parent_chars (l : list ascii) : option (list ascii) :=
  match find_char dot l with Some pos => Some (drop (S pos) l) | None => None end.
Definition get_parent_account_name (name : string) : option string := unchars <$> parent_chars (chars name).

Definition MIN_NAME_SIZE : nat := 1.
Definition MAX_NAME_SIZE : nat := 63.

(** The last character must not be other than a lower-case letter or a digit. *)
Definition bad_last (l : list ascii) : bool :=
  match last l with Some c => negb (isalnum c) || isupper c | None => true end.

Definition subname_char (c : ascii) : bool := (isalnum c && negb (isupper c)) || Ascii.eqb c hyphen.

(** The recursion is on the part after the first dot: each call has a shorter
    name, so [S (length name)] steps are enough. *)
Fixpoint valid_name_from (fuel : nat) (name : list ascii) : bool :=
  match fuel with
  | O => false
  | S fuel =>
      if (length name <? MIN_NAME_SIZE)%nat then false
      else if (MAX_NAME_SIZE <? length name)%nat then false
      else if negb (match name with c :: _ => isalpha c | [] => false end) then false
      else if bad_last name then false
      else
        let '(subname, supername) :=
          match find_char dot name with
          | Some pos => (take pos name, drop (S pos) name)
          | None => (name, [])
          end in
        if bad_last subname then false
        else if negb (forallb subname_char subname) then false
        else match supername with
             | [] => true
             | _ => valid_name_from fuel supername
             end
  end.

Definition is_valid_account_name (name : string) : bool :=
  valid_name_from (S (length (chars name))) (chars name).

(** ** Symbols *)

Definition MIN_SYMBOL_SIZE : Z := 3.
Definition MAX_SUB_SYMBOL_SIZE : Z := 8.
Definition MAX_SYMBOL_SIZE : Z := 12.

(** The scan of the characters: the number of dots, the position of the last
    one and the length. *)
Fixpoint scan_symbol (l : list ascii) (dots dot_position position : Z) : result (Z * Z * Z) :=
  match l with
  | [] => Ok (dots, dot_position, position)
  | c :: l =>
      if Ascii.eqb c dot then
        if 1 <? dots + 1 then Throw assert_exception
        else scan_symbol l (dots + 1) position (position + 1)
      else if (dots =? 0) && negb (isupper c) then Throw assert_exception
      else if negb (isupper c) && negb (isdigit c) then Throw assert_exception
      else scan_symbol l dots dot_position (position + 1)
  end.

Fixpoint starts_with (p l : list ascii) : bool :=
  match p, l with
  | [], _ => true
  | a :: p, b :: l => Ascii.eqb a b && starts_with p l
  | _, [] => false
  end.

Definition is_valid_symbol_chars (symbol : list ascii) : result bool :=
  let size := Z.of_nat (length symbol) in
  _ <- throw_if assert_exception (size <? MIN_SYMBOL_SIZE) ;;
  scan <- scan_symbol symbol 0 0 0 ;;
  let '(dots, dot_position, position) := scan in
  if match last symbol with Some c => Ascii.eqb c dot | None => false end then Ok false
  else if match symbol with c :: _ => Ascii.eqb c dot | [] => false end then Ok false
  else
    _ <- (if dots =? 0 then throw_if assert_exception (MAX_SUB_SYMBOL_SIZE <? position)
          else
            _ <- throw_if assert_exception (MAX_SUB_SYMBOL_SIZE <? position - dot_position - 1) ;;
            throw_if assert_exception (MAX_SYMBOL_SIZE <? size)) ;;
    _ <- throw_if assert_exception (starts_with (chars "BIT") symbol) ;;
    Ok true.

Definition is_valid_symbol_name (symbol : string) : result bool := is_valid_symbol_chars (chars symbol).

(** ** What a valid account name is *)

(** The labels between the dots. *)
Fixpoint labels (l : list ascii) : list (list ascii) :=
  match l with
  | [] => [ [] ]
  | c :: l =>
      if Ascii.eqb c dot then [] :: labels l
      else match labels l with w :: ws => (c :: w) :: ws | [] => [ [c] ] end
  end.

(** A label starts with a lower-case letter, ends with a lower-case letter or a
    digit, and has only these and hyphens. *)
Definition label_ok (w : list ascii) : Prop :=
  (exists c, head w = Some c /\ islower c = true)
  /\ (exists c, last w = Some c /\ (islower c || isdigit c) = true)
  /\ Forall (fun c => (islower c || isdigit c || Ascii.eqb c hyphen) = true) w.

Lemma labels_find l :
  labels l = match find_char dot l with
             | Some pos => take pos l :: labels (drop (S pos) l)
             | None => [ l ]
             end.
Proof.
  induction l as [|c l IH]; [ done | ]. cbn [labels find_char]. destruct (Ascii.eqb c dot); [ done | ].
  rewrite IH. destruct (find_char dot l); done.
Qed.

Lemma code_classes c :
  (isalnum c && negb (isupper c)) = (islower c || isdigit c)
  /\ (negb (isalnum c) || isupper c) = negb (islower c || isdigit c).
Proof.
  unfold isalnum, isalpha, islower, isupper, isdigit.
  repeat match goal with |- context [?a <=? ?b] => destruct (Z.leb_spec a b); simpl end; first [ done | lia ].
Qed.

Lemma find_char_split l pos : find_char dot l = Some pos -> l = take pos l ++ dot :: drop (S pos) l.
Proof.
  revert pos. induction l as [|c l IH]; simpl; intros pos H; [ done | ].
  destruct (Ascii.eqb_spec c dot) as [->|Hne]; [ by injection H as <- | ].
  destruct (find_char dot l) as [p|]; [ | done ]. injection H as <-. simpl. f_equal. by apply IH.
Qed.

Lemma bad_last_false l : bad_last l = false <-> exists c, last l = Some c /\ (islower c || isdigit c) = true.
Proof.
  unfold bad_last. destruct (last l) as [c|].
  - rewrite (proj2 (code_classes c)), negb_false_iff. naive_solver.
  - naive_solver.
Qed.

Lemma subname_char_label c : subname_char c = (islower c || isdigit c || Ascii.eqb c hyphen).
Proof. unfold subname_char. by rewrite (proj1 (code_classes c)). Qed.

Lemma forallb_label w :
  forallb subname_char w = true <-> Forall (fun c => (islower c || isdigit c || Ascii.eqb c hyphen) = true) w.
Proof.
  rewrite forallb_forall, Forall_forall. setoid_rewrite subname_char_label.
  split; intros H c Hc; apply H; by apply list_elem_of_In.
Qed.

Definition alpha_first (w : list ascii) : bool := match w with c :: _ => isalpha c | [] => false end.

Lemma alpha_label_char c : isalpha c = true -> subname_char c = true -> islower c = true.
Proof.
  rewrite subname_char_label. unfold isalpha, islower, isupper, isdigit, hyphen. intros H1 H2.
  destruct (Ascii.eqb_spec c "-"%char) as [->|]; [ by vm_compute in H1 | ]. rewrite orb_false_r in H2.
  repeat match goal with H : context [?a <=? ?b] |- _ => destruct (Z.leb_spec a b); simpl in * end; done || lia.
Qed.

Lemma lower_alpha c : islower c = true -> isalpha c = true.
Proof. unfold isalpha. by intros ->. Qed.

(** What the code checks of a label. *)
Lemma label_check w :
  label_ok w <-> alpha_first w = true /\ bad_last w = false /\ forallb subname_char w = true.
Proof.
  unfold label_ok. rewrite bad_last_false, <- forallb_label. destruct w as [|c w].
  - split; [ intros ((c & ? & _) & _); done | intros [? _]; done ].
  - cbn [head alpha_first]. split.
    + intros ((? & [= <-] & Hc) & Hl & Hf). split_and!; [ by apply lower_alpha | done.. ].
    + intros (Hc & Hl & Hf). split_and!; [ | done.. ]. exists c. split; [ done | ].
      apply alpha_label_char; [ done | ]. simpl in Hf. by b2p.
Qed.

Lemma valid_from_last fuel l : valid_name_from fuel l = true -> bad_last l = false.
Proof.
  destruct fuel; simpl; [ done | ]. repeat case_match; try done; by rewrite negb_true_iff || intros; done.
Qed.

Lemma last_drop_nonempty {A} n (l : list A) : drop n l <> [] -> last (drop n l) = last l.
Proof.
  intros H. rewrite <- (take_drop n l) at 2. rewrite last_app.
  destruct (last (drop n l)) eqn:E; [ done | ]. by apply last_None in E.
Qed.

(** One step of the check, with its conditions as propositions. *)
Lemma valid_step fuel l :
  valid_name_from (S fuel) l = true <->
  (1 <= length l <= 63)%nat /\ alpha_first l = true /\ bad_last l = false
  /\ match find_char dot l with
     | Some pos => bad_last (take pos l) = false /\ forallb subname_char (take pos l) = true
                   /\ (drop (S pos) l = [] \/ valid_name_from fuel (drop (S pos) l) = true)
     | None => forallb subname_char l = true
     end.
Proof.
  cbn [valid_name_from]. fold (alpha_first l). unfold MIN_NAME_SIZE, MAX_NAME_SIZE.
  destruct (Nat.ltb_spec (length l) 1); [ split; [ done | lia ] | ].
  destruct (Nat.ltb_spec 63 (length l)); [ split; [ done | lia ] | ].
  destruct (alpha_first l); simpl; [ | split; [ done | naive_solver ] ].
  destruct (bad_last l) eqn:E; [ split; [ done | naive_solver ] | ].
  destruct (find_char dot l) as [pos|]; cbv zeta beta iota.
  - destruct (bad_last (take pos l)); [ split; [ done | naive_solver ] | ].
    destruct (forallb subname_char (take pos l)); simpl negb; cbv iota; [ | split; [ done | naive_solver ] ].
    destruct (drop (S pos) l); split; intros; split_and?; auto; try lia; naive_solver.
  - rewrite E. destruct (forallb subname_char l); simpl; split; intros; split_and?; auto; try lia; naive_solver.
Qed.

Lemma valid_from_labels fuel l :
  (length l < fuel)%nat ->
  (valid_name_from fuel l = true <-> (length l <= 63)%nat /\ Forall label_ok (labels l)).
Proof.
  revert l. induction fuel as [|fuel IH]; intros l Hl; [ lia | ].
  rewrite valid_step, labels_find. destruct (find_char dot l) as [pos|] eqn:E.
  - apply find_char_split in E.
    assert (Hpos : (0 < length l)%nat) by (rewrite E, length_app; simpl; lia).
    assert (Hlen : (length (drop (S pos) l) < fuel)%nat) by (rewrite length_drop; lia).
    assert (Hsub : (length (drop (S pos) l) <= length l)%nat) by (rewrite length_drop; lia).
    specialize (IH _ Hlen). rewrite Forall_cons, label_check.
    assert (Ha : alpha_first (take pos l) = true -> alpha_first l = true) by (by destruct l, pos).
    split.
    + intros (Hl1 & Hl2 & Hl3 & Hs1 & Hs2 & Hs3). split; [ lia | ].
      assert (valid_name_from fuel (drop (S pos) l) = true) as Hv.
      { destruct Hs3 as [Hs3|]; [ | done ]. exfalso. clear IH.
        rewrite Hs3 in E. rewrite E in Hl3. unfold bad_last in Hl3. rewrite last_snoc in Hl3. done. }
      split; [ | by apply IH ]. split_and!; [ | done.. ].
      destruct pos; [ done | by destruct l ].
    + intros (Hl1 & (Hs1 & Hs2 & Hs3) & Hs4).
      assert (Hv : valid_name_from fuel (drop (S pos) l) = true) by (apply IH; split; [ lia | done ]).
      assert (Hne : drop (S pos) l <> []).
      { intros En. rewrite En in Hs4. apply Forall_cons in Hs4 as [Hb _]. destruct Hb as [(? & ? & _) _]; done. }
      assert (Hbl : bad_last l = false).
      { apply valid_from_last in Hv. unfold bad_last in *. by rewrite last_drop_nonempty in Hv. }
      split_and!; auto; lia.
  - rewrite Forall_singleton, label_check. split.
    + intros (? & ? & ? & ?). split; [ lia | done ].
    + intros (? & ? & ? & ?). split_and!; [ destruct l; [ done | simpl; lia ] | lia | done.. ].
Qed.

(** C40: [is_valid_account_name] accepts exactly the names of at most 63
    characters whose dot-separated labels all start with a lower-case letter,
    end with a lower-case letter or a digit, and contain only these and
    hyphens; its recursion on the part after the first dot terminates on every
    name. *)
Theorem is_valid_account_name_spec (name : string) :
  is_valid_account_name name = true
  <-> (length (chars name) <= 63)%nat /\ Forall label_ok (labels (chars name)).
Proof. apply valid_from_labels. lia. Qed.

(** The parent of a valid name is valid. *)
Lemma parent_chars_valid l p :
  (length l <= 63)%nat /\ Forall label_ok (labels l) -> parent_chars l = Some p ->
  (length p <= 63)%nat /\ Forall label_ok (labels p).
Proof.
  unfold parent_chars. rewrite labels_find. intros [Hl Hf] Hp.
  destruct (find_char dot l) as [pos|]; [ | done ]. injection Hp as <-.
  apply Forall_cons in Hf as [_ Hf]. split; [ rewrite length_drop; lia | done ].
Qed.

(** A parent name is shorter. *)
Lemma parent_chars_shorter l p : parent_chars l = Some p -> (length p < length l)%nat.
Proof.
  unfold parent_chars. destruct (find_char dot l) as [pos|] eqn:E; [ | done ]. intros [= <-].
  apply find_char_split in E. rewrite E at 2. rewrite length_app. simpl. lia.
Qed.

(** ** What a valid symbol is *)

Definition sub_char (c : ascii) : Prop := isupper c = true \/ isdigit c = true.
Definition upper_char (c : ascii) : Prop := isupper c = true.

Lemma scan_after_dot l dp pos r :
  scan_symbol l 1 dp pos = Ok r <-> Forall sub_char l /\ r = (1, dp, pos + Z.of_nat (length l)).
Proof.
  revert pos. induction l as [|c l IH]; intros pos.
  - simpl. rewrite Z.add_0_r. split; [ intros [= <-]; done | by intros [_ ->] ].
  - cbn [scan_symbol length]. rewrite Forall_cons. unfold sub_char at 1.
    destruct (Ascii.eqb_spec c dot) as [->|Hne].
    + simpl. split; [ done | ]. intros [[[H|H] _] _]; by vm_compute in H.
    + replace (pos + Z.of_nat (S (length l))) with (pos + 1 + Z.of_nat (length l)) by lia.
      cbn [Z.eqb andb]. destruct (isupper c) eqn:Eu, (isdigit c) eqn:Ed; cbn [negb andb]; rewrite ?IH;
        (split; [ intros H | intros [[Hc ?] ->] ]); try done;
        first [ destruct H as [? ->]; auto | by destruct Hc ].
Qed.

Lemma scan_before_dot l pos r :
  scan_symbol l 0 0 pos = Ok r <->
  (Forall upper_char l /\ r = (0, 0, pos + Z.of_nat (length l)))
  \/ exists p s, l = p ++ dot :: s /\ Forall upper_char p /\ Forall sub_char s
     /\ r = (1, pos + Z.of_nat (length p), pos + Z.of_nat (length l)).
Proof.
  revert pos. induction l as [|c l IH]; intros pos.
  - simpl. rewrite Z.add_0_r. split; [ intros [= <-]; by left | ].
    intros [[_ ->]|(p & s & H & _)]; [ done | by destruct p ].
  - cbn [scan_symbol length].
    replace (pos + Z.of_nat (S (length l))) with (pos + 1 + Z.of_nat (length l)) by lia.
    destruct (Ascii.eqb_spec c dot) as [->|Hne].
    + change (0 + 1) with 1. cbn [Z.ltb Z.compare Pos.compare Pos.compare_cont]. rewrite scan_after_dot. split.
      * intros [H ->]. right. exists [], l. rewrite Z.add_0_r. done.
      * intros [[H _]|(p & s & Hl & Hp & Hs & ->)]; [ by apply Forall_cons in H as [H _] | ].
        destruct p as [|a p]; [ injection Hl as <-; by rewrite Z.add_0_r | ].
        injection Hl as <- _. by apply Forall_cons in Hp as [Hp _].
    + cbn [Z.eqb andb]. destruct (isupper c) eqn:Eu; cbn [negb andb].
      * rewrite IH. split.
        -- intros [[H ->]|(p & s & -> & Hp & Hs & ->)]; [ left; by rewrite Forall_cons | right ].
           exists (c :: p), s. rewrite Forall_cons. split_and!; try done. simpl. f_equal. f_equal. lia.
        -- intros [[H ->]|(p & s & Hl & Hp & Hs & ->)];
             [ left; apply Forall_cons in H as [_ H]; done | right ].
           destruct p as [|a p]; [ by injection Hl as -> _ | ]. injection Hl as -> ->.
           apply Forall_cons in Hp as [_ Hp]. exists p, s. split_and!; try done. simpl. f_equal. f_equal. lia.
      * split; [ done | ]. intros [[H _]|(p & s & Hl & Hp & _)].
        -- apply Forall_cons in H as [H _]. unfold upper_char in H. congruence.
        -- destruct p as [|a p]; [ by injection Hl as -> _ | ]. injection Hl as -> _.
           apply Forall_cons in Hp as [Hp _]. unfold upper_char in Hp. congruence.
Qed.

Definition dot_at_end (l : list ascii) : bool :=
  match last l with Some c => Ascii.eqb c dot | None => false end.
Definition dot_at_start (l : list ascii) : bool :=
  match l with c :: _ => Ascii.eqb c dot | [] => false end.

Lemma sub_char_not_dot c : sub_char c -> Ascii.eqb c dot = false.
Proof. intros Hc. destruct (Ascii.eqb_spec c dot) as [->|]; [ | done ]. by destruct Hc. Qed.

Lemma dotted_ends p s :
  Forall upper_char p -> Forall sub_char s ->
  dot_at_end (p ++ dot :: s) = bool_decide (s = []) /\ dot_at_start (p ++ dot :: s) = bool_decide (p = []).
Proof.
  intros Hp Hs. unfold dot_at_end, dot_at_start. split.
  - rewrite last_app. destruct s as [|c s] using rev_ind; [ done | ].
    rewrite app_comm_cons, last_snoc. apply Forall_app in Hs as [_ Hs]. rewrite Forall_singleton in Hs.
    rewrite (sub_char_not_dot _ Hs). symmetry. apply bool_decide_eq_false_2. by destruct s.
  - destruct p as [|c p]; [ done | ]. simpl. apply Forall_cons in Hp as [Hc _].
    rewrite sub_char_not_dot by (by left). done.
Qed.

Lemma plain_ends l : Forall upper_char l -> dot_at_end l = false /\ dot_at_start l = false.
Proof.
  intros H. unfold dot_at_end, dot_at_start. split.
  - destruct (last l) as [c|] eqn:E; [ | done ]. apply last_Some in E as [l' ->].
    apply Forall_app in H as [_ H]. rewrite Forall_singleton in H. apply sub_char_not_dot. by left.
  - destruct l; [ done | ]. apply Forall_cons in H as [H _]. apply sub_char_not_dot. by left.
Qed.

(** The checks after the scan. *)
Lemma symbol_checks l dots dp len r :
  scan_symbol l 0 0 0 = Ok (dots, dp, len) ->
  is_valid_symbol_chars l = Ok r -> r = true ->
  (3 <= length l)%nat /\ dot_at_end l = false /\ dot_at_start l = false
  /\ starts_with (chars "BIT") l = false
  /\ (if dots =? 0 then len <= 8 else len - dp - 1 <= 8 /\ Z.of_nat (length l) <= 12).
Proof.
  unfold is_valid_symbol_chars. intros -> H ->. inv_ok. fold (dot_at_end l) (dot_at_start l) in H.
  unfold MIN_SYMBOL_SIZE, MAX_SUB_SYMBOL_SIZE, MAX_SYMBOL_SIZE in *.
  destruct (dot_at_end l); [ done | ]. destruct (dot_at_start l); [ done | ]. inv_ok. b2p.
  split_and!; try done; [ lia | ]. destruct (dots =? 0); inv_ok; b2p; lia.
Qed.

Lemma symbol_checks_conv l dots dp len :
  scan_symbol l 0 0 0 = Ok (dots, dp, len) ->
  (3 <= length l)%nat -> dot_at_end l = false -> dot_at_start l = false ->
  starts_with (chars "BIT") l = false ->
  (if dots =? 0 then len <= 8 else len - dp - 1 <= 8 /\ Z.of_nat (length l) <= 12) ->
  is_valid_symbol_chars l = Ok true.
Proof.
  unfold is_valid_symbol_chars. intros -> Hl He Hs Hb Hd. fold (dot_at_end l) (dot_at_start l).
  unfold MIN_SYMBOL_SIZE, MAX_SUB_SYMBOL_SIZE, MAX_SYMBOL_SIZE.
  rewrite He, Hs, Hb. rewrite (proj2 (Z.ltb_ge _ _)) by lia. simpl.
  destruct (dots =? 0); rewrite ?(proj2 (Z.ltb_ge _ _)) by lia; done.
Qed.

(** [is_valid_symbol_name] returns true exactly for 3 to 8 upper-case
    letters, or for upper-case letters, a dot and 1 to 8 upper-case letters or
    digits of at most 12 characters in all, not starting with BIT. The length
    of the part before the dot is not limited on its own. *)
Theorem is_valid_symbol_name_spec (symbol : string) :
  is_valid_symbol_name symbol = Ok true <->
  starts_with (chars "BIT") (chars symbol) = false /\
  ((3 <= length (chars symbol) <= 8)%nat /\ Forall upper_char (chars symbol)
   \/ exists primary sub, chars symbol = primary ++ dot :: sub
       /\ Forall upper_char primary /\ Forall sub_char sub
       /\ (1 <= length primary)%nat /\ (1 <= length sub <= 8)%nat
       /\ (3 <= length (chars symbol) <= 12)%nat).
Proof.
  unfold is_valid_symbol_name. generalize (chars symbol) as l. intros l. split.
  - intros H. destruct (scan_symbol l 0 0 0) as [[[dots dp] len]|] eqn:E.
    + destruct (symbol_checks _ _ _ _ _ E H eq_refl) as (Hl & He & Hs & Hb & Hd). split; [ done | ].
      apply scan_before_dot in E as [[Hf [= -> -> ->]]|(p & s & -> & Hp & Hsf & [= -> -> ->])]; simpl in Hd.
      * left. split; [ lia | done ].
      * right. destruct (dotted_ends p s Hp Hsf) as [He' Hs']. rewrite He' in He. rewrite Hs' in Hs. b2p.
        rewrite length_app in *. simpl in *. exists p, s. split_and!; try done; try lia;
          [ destruct p; [ done | simpl; lia ] | destruct s; [ done | simpl; lia ] ].
    + unfold is_valid_symbol_chars in H. rewrite E in H. by destruct (throw_if _ _).
  - intros [Hb [[Hl Hf]|(p & s & -> & Hp & Hs & Hlp & Hls & Hl)]].
    + destruct (plain_ends l Hf). eapply (symbol_checks_conv l 0 0 (Z.of_nat (length l))); try done; [ | lia | simpl; lia ].
      apply scan_before_dot. by left.
    + destruct (dotted_ends p s Hp Hs) as [He Hst]. rewrite length_app in *. simpl in *.
      eapply (symbol_checks_conv _ 1 (Z.of_nat (length p)) (Z.of_nat (length p + S (length s)))); try done.
      * apply scan_before_dot. right. exists p, s. rewrite length_app. done.
      * rewrite length_app. simpl. lia.
      * rewrite He. apply bool_decide_eq_false_2. intros ->. simpl in Hls. lia.
      * rewrite Hst. apply bool_decide_eq_false_2. intros ->. simpl in Hlp. lia.
      * rewrite length_app. simpl. lia.
Qed.

(** A primary symbol of ten characters: the comment on the function limits it
    to eight. *)
Example long_primary_symbol : is_valid_symbol_name "ABCDEFGHIJ.K" = Ok true.
Proof. reflexivity. Qed.
