(* ===== verification/Combinatorics.v ===== *)
(** Binomial coefficients and the enumeration of combinations
    (libraries/utilities/combinatorics.cpp), from which red packets and the
    note rewards draw their lucky indices. *)

From S2P Require Import Prelude.

(** Pascal's triangle. *)
Fixpoint binom (n k : nat) : Z :=
  match k, n with
  | O, _ => 1
  | S k, O => 0
  | S k, S n => binom n k + binom n (S k)
  end.

(** One pass of the inner loop: [c[j] += c[j-1]] for [j] from 1 to [r], where
    [c[j-1]] has already been updated. *)
Fixpoint add_previous (prev : Z) (c : list Z) : list Z :=
  match c with
  | [] => []
  | x :: c => let v := uwrap64 (x + prev) in v :: add_previous v c
  end.
Definition cnr_pass (c : list Z) : list Z :=
  match c with c0 :: c => c0 :: add_previous c0 c | [] => [] end.

(** [cnr]. The C assertion is [n >= r]; with [n - r = 65535] the 16-bit counter
    of the outer loop never exceeds its bound. *)
Definition cnr (n r : nat) : result Z :=
  if (n <? r)%nat then Throw undefined_behaviour
  else
    let r := if (n - r <? r)%nat then (n - r)%nat else r in
    if 65535 <=? Z.of_nat (n - r) then Throw undefined_behaviour
    else Ok (List.last (Nat.iter (n - r) cnr_pass (repeat 1 (S r))) 0).

(** [ranking] of a combination, sorted first. *)
Fixpoint rank_from (i : nat) (v : list nat) (n : Z) : result Z :=
  match v with
  | [] => Ok n
  | x :: v => c <- cnr x i ;; rank_from (S i) v (uwrap64 (n + c))
  end.
Definition sort_nat (l : list nat) : list nat := merge_sort le l.
Definition ranking (c : list nat) : result Z := rank_from 1 (sort_nat c) 0.

(** The search of [unranking] for the greatest coefficient not above [num]:
    the number pushed, if any, the rest of [num] and the new [max]. *)
Fixpoint unrank_search (i : nat) (num : Z) (max : nat) : result (option nat * Z * nat) :=
  match max with
  | O => Ok (None, num, O)
  | S m =>
      c <- cnr max i ;;
      if c <=? num then Ok (Some max, num - c, m) else unrank_search i num m
  end.

(** The loop over [i], giving the pushed numbers in order. *)
Fixpoint unrank_loop (i : nat) (num : Z) (max : nat) : result (list nat) :=
  match i with
  | O => Ok []
  | S i' =>
      if num <=? 0 then rest <- unrank_loop i' num max ;; Ok (i' :: rest)
      else
        found <- unrank_search i num max ;;
        let '(pushed, num, max) := found in
        rest <- unrank_loop i' num max ;;
        Ok (match pushed with Some v => v :: rest | None => rest end)
  end.

Definition unranking (num : Z) (k n : nat) : result (list nat) :=
  l <- unrank_loop k num n ;; Ok (sort_nat l).

(** ** Binomials *)

Lemma binom_0_r n : binom n 0 = 1.
Proof. by destruct n. Qed.

Lemma binom_step n k : binom (S n) (S k) = binom n k + binom n (S k).
Proof. done. Qed.

Lemma binom_small n k : (n < k)%nat -> binom n k = 0.
Proof.
  revert k. induction n as [|n IH]; intros [|k] H; try lia; [ done | ].
  rewrite binom_step, !IH by lia. done.
Qed.

Lemma binom_diag n : binom n n = 1.
Proof. induction n as [|n IH]; [ done | ]. rewrite binom_step, IH, binom_small by lia. done. Qed.

Lemma binom_nonneg n k : 0 <= binom n k.
Proof.
  revert k. induction n as [|n IH]; intros [|k]; simpl; try lia.
  pose proof (IH k). pose proof (IH (S k)). lia.
Qed.

Lemma binom_pos n k : (k <= n)%nat -> 0 < binom n k.
Proof.
  revert k. induction n as [|n IH]; intros [|k] H; try lia; [ done.. | ].
  rewrite binom_step. pose proof (IH k ltac:(lia)). pose proof (binom_nonneg n (S k)). lia.
Qed.

Lemma binom_sym n k : (k <= n)%nat -> binom n (n - k) = binom n k.
Proof.
  revert k. induction n as [|n IH]; intros [|k] H; try lia; [ done | | ].
  - rewrite Nat.sub_0_r, binom_diag. done.
  - destruct (decide (k = n)) as [->|Hne]; [ by rewrite Nat.sub_diag, binom_diag | ].
    replace (S n - S k)%nat with (S (n - S k)) by lia. rewrite !binom_step.
    replace (S (n - S k)) with (n - k)%nat by lia. rewrite !IH by lia. lia.
Qed.

Lemma binom_mono n k : binom n k <= binom (S n) k.
Proof. destruct k; [ by rewrite !binom_0_r | ]. rewrite binom_step. pose proof (binom_nonneg n k). lia. Qed.

Lemma binom_mono_le n m k : (n <= m)%nat -> binom n k <= binom m k.
Proof. induction 1; [ done | ]. etrans; [ eassumption | apply binom_mono ]. Qed.

Lemma binom_pow n k : binom n k <= 2 ^ Z.of_nat n.
Proof.
  revert k. induction n as [|n IH]; intros k; [ by destruct k | ].
  rewrite Nat2Z.inj_succ, Z.pow_succ_r by lia. destruct k as [|k].
  - rewrite binom_0_r. pose proof (Z.pow_pos_nonneg 2 (Z.of_nat n)). lia.
  - rewrite binom_step. pose proof (IH k). pose proof (IH (S k)). lia.
Qed.

(** ** [cnr] *)

Definition row (t j : nat) : Z := uwrap64 (binom (t + j) j).

Lemma add_previous_row t j l :
  add_previous (row (S t) j) (map (row t) (seq (S j) l)) = map (row (S t)) (seq (S j) l).
Proof.
  revert j. induction l as [|l IH]; intros j; [ done | ]. simpl.
  assert (E : uwrap64 (row t (S j) + row (S t) j) = row (S t) (S j)).
  { unfold row. unfold uwrap64 at 1. rewrite Zplus_mod. unfold uwrap64. rewrite !Zmod_mod, <- Zplus_mod.
    f_equal. replace (S t + S j)%nat with (S (t + S j)) by lia. rewrite binom_step.
    replace (S t + j)%nat with (t + S j)%nat by lia. lia. }
  rewrite E. f_equal. apply IH.
Qed.

Lemma row_0_r t : row t 0 = 1.
Proof. unfold row. by rewrite binom_0_r. Qed.

Lemma cnr_rows r t : Nat.iter t cnr_pass (repeat 1 (S r)) = map (row t) (seq 0 (S r)).
Proof.
  induction t as [|t IH].
  - simpl Nat.iter. assert (E : forall j l, repeat 1 l = map (row 0) (seq j l)).
    { intros j l. revert j. induction l as [|l IH]; intros j; [ done | ]. simpl. rewrite <- IH.
      f_equal. unfold row. simpl. by rewrite binom_diag. }
    exact (E 0%nat (S r)).
  - rewrite Nat.iter_succ, IH. cbn [seq map cnr_pass]. rewrite !row_0_r. f_equal.
    rewrite <- (row_0_r (S t)). apply add_previous_row.
Qed.

Lemma last_rows (f : nat -> Z) j r : List.last (map f (seq j (S r))) 0 = f (j + r)%nat.
Proof.
  revert j. induction r as [|r IH]; intros j; [ simpl; f_equal; lia | ].
  change (List.last (f j :: map f (seq (S j) (S r))) 0 = f (j + S r)%nat).
  transitivity (List.last (map f (seq (S j) (S r))) 0); [ done | ]. rewrite IH. f_equal. lia.
Qed.

Lemma cnr_value n r : (r <= n)%nat -> Z.of_nat n < 65535 -> cnr n r = Ok (uwrap64 (binom n r)).
Proof.
  intros Hr Hn. unfold cnr. rewrite (proj2 (Nat.ltb_ge _ _)) by done.
  set (r' := if (n - r <? r)%nat then (n - r)%nat else r).
  assert (Hr' : (r' <= n)%nat /\ binom n r' = binom n r).
  { unfold r'. destruct (Nat.ltb_spec (n - r) r); [ split; [ lia | by apply binom_sym ] | done ]. }
  destruct Hr' as [Hle Hb]. rewrite (proj2 (Z.leb_gt _ _)) by lia.
  rewrite cnr_rows, last_rows. unfold row. simpl. do 2 f_equal. rewrite <- Hb. f_equal. lia.
Qed.

(** For [r <= n < 65535] the array of [cnr] ends with the binomial
    coefficient modulo 2^64; with [r > n] the C assertion fails. *)
Theorem cnr_is_binomial (n r : nat) (Hn : Z.of_nat n < 65535) :
  cnr n r = if (n <? r)%nat then Throw undefined_behaviour else Ok (uwrap64 (binom n r)).
Proof.
  destruct (Nat.ltb_spec n r) as [H|H]; [ | by apply cnr_value ].
  unfold cnr. by rewrite (proj2 (Nat.ltb_lt _ _)).
Qed.

Lemma cnr_is_binomial_witness : cnr 12 5 = Ok 792 /\ cnr 5 12 = Throw undefined_behaviour.
Proof. split; [ rewrite (cnr_is_binomial 12 5) by lia | rewrite (cnr_is_binomial 5 12) by lia ]; reflexivity. Defined.

(** ** [unranking] *)

(** The rank of numbers listed from the greatest. *)
Fixpoint rank_desc (i : nat) (d : list nat) : Z :=
  match i, d with
  | S i', v :: d => binom v i + rank_desc i' d
  | _, _ => 0
  end.

(** All the coefficients that the search can meet fit 64 bits. *)
Definition coefficients_fit (n k : nat) : Prop :=
  Z.of_nat n < 65535 /\ forall m i, (m <= n)%nat -> (i <= k)%nat -> binom m i < two64.

Lemma coefficients_fit_63 n k : (n <= 63)%nat -> coefficients_fit n k.
Proof.
  intros Hn. split; [ lia | ]. intros m i Hm _. pose proof (binom_pow m i).
  assert (2 ^ Z.of_nat m <= 2 ^ 63) by (apply Z.pow_le_mono_r; lia).
  unfold two64. change (2 ^ 63) with 9223372036854775808 in *. lia.
Qed.

Section unrank.
Context (n k : nat) (Hfit : coefficients_fit n k).

Lemma cnr_exact m i : (i <= m <= n)%nat -> (i <= k)%nat -> cnr m i = Ok (binom m i).
Proof.
  destruct Hfit as [Hn Hf]. intros Hm Hi. rewrite cnr_value by lia. f_equal.
  apply Z.mod_small. pose proof (binom_nonneg m i). pose proof (Hf m i). lia.
Qed.

(** The search finds the greatest number whose coefficient is not above. *)
Lemma unrank_search_spec i num max :
  (1 <= i <= k)%nat -> (max <= n)%nat -> 0 < num < binom (S max) i ->
  exists v, unrank_search i num max = Ok (Some v, num - binom v i, Nat.pred v)
    /\ (i <= v <= max)%nat /\ 0 <= num - binom v i < binom v (Nat.pred i).
Proof.
  intros Hi. induction max as [|max IH]; intros Hmax Hnum.
  - destruct i as [|[|i]]; simpl in Hnum; lia.
  - assert (i <= S max)%nat.
    { destruct (decide (i <= S max)%nat) as [|Hgt]; [ done | ].
      destruct (decide (i = S (S max))) as [->|]; [ rewrite binom_diag in Hnum; lia | ].
      rewrite binom_small in Hnum by lia. lia. }
    cbn [unrank_search]. rewrite cnr_exact by lia. cbn [rbind].
    destruct (Z.leb_spec (binom (S max) i) num) as [Hle|Hgt].
    + exists (S max). split_and!; [ done | lia | lia | lia | ].
      destruct i as [|i]; [ lia | ]. cbn [Nat.pred].
      change (binom (S (S max)) (S i)) with (binom (S max) i + binom (S max) (S i)) in Hnum. lia.
    + destruct IH as (v & E & Hv & Hr); [ lia | lia | ]. exists v. split_and!; try done; lia.
Qed.

Lemma unrank_loop_spec i num max :
  (i <= k)%nat -> (max <= n)%nat -> (i <= S max)%nat -> 0 <= num < binom (S max) i ->
  exists d, unrank_loop i num max = Ok d /\ length d = i /\ Forall (fun v => (v <= max)%nat) d
    /\ StronglySorted (fun a b => (b < a)%nat) d /\ rank_desc i d = num
    /\ (num = 0 -> Forall (fun v => (v < i)%nat) d).
Proof.
  revert num max. induction i as [|i IH]; intros num max Hi Hmax Him Hnum.
  - rewrite binom_0_r in Hnum. assert (num = 0) as -> by lia. exists [].
    split_and!; try done; intros; constructor.
  - cbn [unrank_loop]. destruct (Z.leb_spec num 0) as [Hz|Hpos].
    + assert (num = 0) as -> by lia.
      destruct (IH 0 max) as (d & E & Hl & Hf & Hs & Hr & Hb); [ lia | lia | lia | pose proof (binom_pos (S max) i); lia | ].
      specialize (Hb eq_refl). rewrite E. exists (i :: d). split_and!; simpl; auto.
      * constructor; [ lia | done ].
      * constructor; [ done | ]. exact Hb.
      * change (binom i (S i) + rank_desc i d = 0). rewrite Hr, binom_small by lia. lia.
      * intros _. constructor; [ lia | ]. eapply Forall_impl; [ exact Hb | simpl; lia ].
    + destruct (unrank_search_spec (S i) num max) as (v & E & Hv & Hr); [ lia | lia | lia | ].
      rewrite E. cbn [rbind]. destruct v as [|v]; [ lia | ]. cbn [Nat.pred] in *.
      destruct (IH (num - binom (S v) (S i)) v) as (d & E' & Hl & Hf & Hs & Hr' & Hb); [ lia.. | ].
      rewrite E'. exists (S v :: d). split_and!; simpl length; auto.
      * constructor; [ lia | ]. eapply Forall_impl; [ exact Hf | simpl; lia ].
      * constructor; [ done | ]. eapply Forall_impl; [ exact Hf | simpl; lia ].
      * cbn [rank_desc]. rewrite Hr'. lia.
      * lia.
Qed.
End unrank.

Lemma unrank_loop_length i num max l : unrank_loop i num max = Ok l -> (length l <= i)%nat.
Proof.
  revert num max l. induction i as [|i IH]; intros num max l H; cbn [unrank_loop] in H; [ inv_ok; simpl; lia | ].
  destruct (num <=? 0); inv_ok.
  - match goal with H : unrank_loop _ _ _ = Ok _ |- _ => apply IH in H end. simpl. lia.
  - match goal with H : unrank_search _ _ _ = Ok ?x |- _ => destruct x as [[pushed num'] max'] end. inv_ok.
    match goal with H : unrank_loop _ _ _ = Ok _ |- _ => apply IH in H end. destruct pushed; simpl; lia.
Qed.

Lemma unranking_length num k n l : unranking num k n = Ok l -> (length l <= k)%nat.
Proof.
  unfold unranking. intros H. inv_ok. match goal with H : unrank_loop _ _ _ = Ok _ |- _ => apply unrank_loop_length in H end.
  unfold sort_nat. by rewrite merge_sort_Permutation.
Qed.

(** ** Ranks of combinations *)

(** A combination of [k] out of [n]: increasing numbers below [n]. *)
Definition is_combination (n k : nat) (l : list nat) : Prop :=
  length l = k /\ StronglySorted lt l /\ Forall (fun v => (v < n)%nat) l.

(** The mathematical rank: the sum of [binom l_j (j+1)]. *)
Definition combination_rank (l : list nat) : Z := rank_desc (length l) (reverse l).

Abbreviation descending := (StronglySorted (fun a b => (b < a)%nat)).

Lemma StronglySorted_snoc {A} (R : A -> A -> Prop) l x :
  StronglySorted R l -> Forall (fun y => R y x) l -> StronglySorted R (l ++ [x]).
Proof.
  induction 1 as [|a l Hl IH Ha]; simpl; intros Hx; [ repeat constructor | ].
  apply Forall_cons in Hx as [Hax Hx]. constructor; [ by apply IH | ]. apply Forall_app. auto.
Qed.

Lemma descending_reverse (l : list nat) : descending l -> StronglySorted lt (reverse l).
Proof.
  induction 1 as [|a l Hl IH Ha]; [ constructor | ]. rewrite reverse_cons.
  apply StronglySorted_snoc; [ done | ]. by apply Forall_reverse.
Qed.

Lemma ascending_reverse (l : list nat) : StronglySorted lt l -> descending (reverse l).
Proof.
  induction 1 as [|a l Hl IH Ha]; [ constructor | ]. rewrite reverse_cons.
  apply StronglySorted_snoc; [ done | ]. by apply Forall_reverse.
Qed.

Lemma StronglySorted_weaken {A} (R R' : A -> A -> Prop) l :
  (forall a b, R a b -> R' a b) -> StronglySorted R l -> StronglySorted R' l.
Proof. intros H. induction 1; constructor; [ done | ]. eapply Forall_impl; eauto. Qed.

Lemma sort_descending (l : list nat) : descending l -> sort_nat l = reverse l.
Proof.
  intros H. unfold sort_nat.
  apply (Sorted_unique le); [ apply Sorted_merge_sort; apply _ | | ].
  - apply StronglySorted_Sorted. eapply StronglySorted_weaken; [ | by apply descending_reverse ]. simpl. intros; lia.
  - by rewrite merge_sort_Permutation, reverse_Permutation.
Qed.

(** A descending list of [i] numbers below [b] has a rank below [binom b i]. *)
Lemma rank_desc_bound i d b :
  descending d -> length d = i -> Forall (fun v => (v < b)%nat) d -> 0 <= rank_desc i d < binom b i.
Proof.
  revert d b. induction i as [|i IH]; intros d b Hs Hl Hb.
  - rewrite binom_0_r. simpl. lia.
  - destruct d as [|v d]; [ done | ]. cbn [rank_desc]. apply Forall_cons in Hb as [Hv Hb].
    inversion Hs as [|? ? Hs' Hd]; subst.
    pose proof (IH d v Hs' ltac:(simpl in Hl; lia) Hd). pose proof (binom_nonneg v (S i)).
    pose proof (binom_mono_le (S v) b (S i) ltac:(lia)). rewrite binom_step in *. lia.
Qed.

Lemma rank_desc_inj i d d' :
  descending d -> descending d' -> length d = i -> length d' = i ->
  rank_desc i d = rank_desc i d' -> d = d'.
Proof.
  revert d d'. induction i as [|i IH]; intros d d' Hs Hs' Hl Hl' E.
  - by destruct d, d'.
  - destruct d as [|v d], d' as [|v' d']; try done.
    inversion Hs as [|? ? Hs1 Hd]; inversion Hs' as [|? ? Hs2 Hd']; subst.
    simpl in Hl, Hl'. cbn [rank_desc] in E.
    pose proof (rank_desc_bound i d v Hs1 ltac:(lia) Hd).
    pose proof (rank_desc_bound i d' v' Hs2 ltac:(lia) Hd').
    assert (v = v') as ->.
    { destruct (Nat.lt_trichotomy v v') as [Hlt|[->|Hlt]]; [ | done | ]; exfalso.
      - pose proof (binom_mono_le (S v) v' (S i) ltac:(lia)). rewrite binom_step in *. lia.
      - pose proof (binom_mono_le (S v') v (S i) ltac:(lia)). rewrite binom_step in *. lia. }
    f_equal. apply IH; (done || lia).
Qed.

Lemma unranking_combination num k n :
  coefficients_fit n k -> (k <= n)%nat -> 0 <= num < binom n k ->
  exists l, unranking num k n = Ok l /\ is_combination n k l /\ combination_rank l = num.
Proof.
  intros Hfit Hk Hnum. unfold unranking.
  assert (exists d, unrank_loop k num n = Ok d /\ length d = k /\ Forall (fun v => (v < n)%nat) d
      /\ descending d /\ rank_desc k d = num) as (d & E & Hl & Hf & Hs & Hr).
  { destruct (decide (num = 0)) as [->|Hne].
    - destruct (unrank_loop_spec n k Hfit k 0 n) as (d & E & Hl & _ & Hs & Hr & Hb); try lia.
      { pose proof (binom_mono n k). lia. }
      exists d. split_and!; try done. eapply Forall_impl; [ by apply Hb | simpl; lia ].
    - destruct k as [|k]; [ rewrite binom_0_r in Hnum; lia | ]. destruct n as [|n]; [ lia | ].
      destruct (unrank_loop_spec (S n) (S k) Hfit (S k) num n) as (d & E & Hl & Hf & Hs & Hr & _); try lia.
      exists d. split_and!; try done; [ | eapply Forall_impl; [ exact Hf | simpl; lia ] ].
      rewrite <- E. cbn [unrank_loop]. destruct (Z.leb_spec num 0); [ lia | ].
      assert (En : unrank_search (S k) num (S n) = unrank_search (S k) num n).
      { cbn [unrank_search]. rewrite (cnr_exact (S n) (S k) Hfit) by lia. cbn [rbind].
        by rewrite (proj2 (Z.leb_gt _ _)) by lia. }
      by rewrite En. }
  rewrite E. simpl. exists (reverse d). rewrite sort_descending by done. split_and!; [ done | | ].
  - split_and!; [ by rewrite length_reverse | by apply descending_reverse | by apply Forall_reverse ].
  - unfold combination_rank. by rewrite length_reverse, Hl, reverse_involutive.
Qed.

(** For [k <= n] and a number below the binomial coefficient, [unranking]
    terminates with a combination: [k] increasing numbers below [n], whose rank
    is the number it was given. *)
Theorem unranking_spec (num : Z) (k n : nat) (Hfit : coefficients_fit n k) (Hk : (k <= n)%nat)
    (Hnum : 0 <= num < binom n k) :
  exists l, unranking num k n = Ok l /\ is_combination n k l /\ combination_rank l = num.
Proof. by apply unranking_combination. Qed.

Lemma unranking_spec_witness :
  exists l, unranking 7 3 6 = Ok l /\ is_combination 6 3 l /\ combination_rank l = 7.
Proof.
  apply (unranking_spec 7 3 6); [ apply coefficients_fit_63; lia | lia | vm_compute; split; [ discriminate | reflexivity ] ].
Defined.

(** every combination is the unranking of its rank, so [unranking]
    numbers the combinations of [k] out of [n] one to one. *)
Theorem unranking_of_rank (l : list nat) (k n : nat) (Hfit : coefficients_fit n k) (Hl : is_combination n k l) :
  0 <= combination_rank l < binom n k /\ unranking (combination_rank l) k n = Ok l.
Proof.
  destruct Hl as (Hlen & Hs & Hf). apply ascending_reverse in Hs.
  assert (Hb : 0 <= combination_rank l < binom n k).
  { unfold combination_rank. rewrite Hlen. apply rank_desc_bound; [ done | by rewrite length_reverse | by apply Forall_reverse ]. }
  split; [ done | ].
  assert (Hk : (k <= n)%nat).
  { destruct (decide (k <= n)%nat); [ done | ]. rewrite binom_small in Hb by lia. lia. }
  destruct (unranking_combination _ k n Hfit Hk Hb) as (l' & E & (Hlen' & Hs' & _) & Hr). rewrite E. f_equal.
  apply (inj reverse). apply (rank_desc_inj k); rewrite ?length_reverse; [ by apply ascending_reverse | done.. | ].
  unfold combination_rank in Hr. by rewrite Hlen, Hlen' in Hr.
Qed.

Lemma unranking_of_rank_witness :
  0 <= combination_rank [1; 2; 4]%nat < binom 6 3 /\ unranking (combination_rank [1; 2; 4]%nat) 3 6 = Ok [1; 2; 4]%nat.
Proof.
  apply (unranking_of_rank [1; 2; 4]%nat 3 6); [ apply coefficients_fit_63; lia | ].
  split_and!; [ done | repeat constructor; lia | repeat constructor; lia ].
Defined.

(** [ranking] calls [cnr] with [n < r] on every combination whose first number
    is zero, so it is not defined on the result of [unranking 0]. *)
Example ranking_undefined : (l <- unranking 0 2 5 ;; ranking l) = Throw undefined_behaviour.
Proof. vm_compute. reflexivity. Qed.
