(* ===== verification/Records.v ===== *)
(** The records of the chain, the withdraw conditions and the operations
    (the [*_record.hpp], [withdraw_types.hpp] and [*_operations.hpp] headers of
    libraries/blockchain), with the functions of the records that read no
    database. A field [f] of the source's struct is the projection [p_f], with
    [p] an abbreviation of the struct's name. *)

From S2P Require Import Prelude Asset.

(** Hashes and keys are numbers; the null key and the null address are [0]. *)
Abbreviation address := Z (only parsing).
Abbreviation public_key := Z (only parsing).
Abbreviation transaction_id := Z (only parsing).
Abbreviation account_id := Z (only parsing).
Abbreviation time := Z (only parsing).

Definition null_key : public_key := 0.
Definition null_address : address := 0.

(** ** Withdraw conditions

    The packed [data] of a condition is the structure it packs; its [type]
    byte is the constructor. *)

Record titan_memo := { one_time_key : public_key; encrypted_memo_data : list Z }.

Inductive withdraw_data : Type :=
  | withdraw_null
  | withdraw_with_signature (owner : address) (memo : option titan_memo)
  | withdraw_vesting (owner : address) (start_time duration original_balance : Z)
  | withdraw_with_multisig (required : Z) (owners : gset address) (memo : option titan_memo)
  | withdraw_with_escrow (sender receiver escrow : address) (agreement_digest : Z)
      (memo : option titan_memo).

Record withdraw_condition := mk_condition {
  wc_asset_id : Z; wc_slate_id : Z; wc_data : withdraw_data }.

#[export] Instance titan_memo_eq_dec : EqDecision titan_memo.
Proof. solve_decision. Defined.
#[export] Instance withdraw_data_eq_dec : EqDecision withdraw_data.
Proof. solve_decision. Defined.
#[export] Instance withdraw_condition_eq_dec : EqDecision withdraw_condition.
Proof. solve_decision. Defined.

(** [withdraw_condition( withdraw_with_signature( owner ), asset_id, slate_id )]. *)
Definition signature_condition (owner : address) (asset_id slate_id : Z) : withdraw_condition :=
  mk_condition asset_id slate_id (withdraw_with_signature owner None).

(** [withdraw_condition::owners]. *)
Definition condition_owners (c : withdraw_condition) : gset address :=
  match wc_data c with
  | withdraw_with_signature owner _ => {[ owner ]}
  | withdraw_vesting owner _ _ _ => {[ owner ]}
  | withdraw_with_multisig _ owners _ => owners
  | withdraw_with_escrow sender receiver escrow _ _ => {[ sender; receiver; escrow ]}
  | withdraw_null => ∅
  end.

(** [withdraw_condition::owner]. *)
Definition condition_owner (c : withdraw_condition) : option address :=
  match wc_data c with
  | withdraw_with_signature owner _ => Some owner
  | withdraw_vesting owner _ _ _ => Some owner
  | _ => None
  end.

(** The hash and signature functions of fc, and the encodings they hash. *)
Class Crypto := {
  key_address : public_key -> address;
  pts_key_address : public_key -> bool -> Z -> address;
  condition_address : withdraw_condition -> address;
  slate_hash : gset Z -> Z;
  message_signer : string -> Z -> public_key;
  (** the first word of the hash of a packet's random id *)
  packet_rand : Z -> Z;
  packet_rand_range : forall id, 0 <= packet_rand id < two64
}.

(** ** Balances *)

Record balance_record := mk_balance {
  br_condition : withdraw_condition;
  br_balance : Z;
  br_restricted_owner : option address;
  br_deposit_date : time;
  br_last_update : time;
  br_meta_data : option transaction_id }.

(** [balance_record( const withdraw_condition& )]. *)
Definition balance_of_condition (c : withdraw_condition) : balance_record :=
  mk_balance c 0 None 0 0 None.

(** [balance_record( owner, balance, delegate_id )]. *)
Definition balance_of_owner (owner : address) (b : asset) (slate_id : Z) : balance_record :=
  mk_balance (signature_condition owner (asset_id b) slate_id) (amount b) None 0 0 None.

Definition balance_id `{Crypto} (r : balance_record) : address := condition_address (br_condition r).
Definition balance_asset_id (r : balance_record) : Z := wc_asset_id (br_condition r).
Definition balance_slate_id (r : balance_record) : Z := wc_slate_id (br_condition r).
Definition balance_owners (r : balance_record) : gset address := condition_owners (br_condition r).
Definition balance_owner (r : balance_record) : option address := condition_owner (br_condition r).
Definition balance_is_owner (r : balance_record) (a : address) : bool := bool_decide (a ∈ balance_owners r).

Definition set_br_balance (v : Z) (r : balance_record) : balance_record :=
  mk_balance (br_condition r) v (br_restricted_owner r) (br_deposit_date r) (br_last_update r) (br_meta_data r).
Definition set_br_condition (v : withdraw_condition) (r : balance_record) : balance_record :=
  mk_balance v (br_balance r) (br_restricted_owner r) (br_deposit_date r) (br_last_update r) (br_meta_data r).
Definition set_br_restricted_owner (v : option address) (r : balance_record) : balance_record :=
  mk_balance (br_condition r) (br_balance r) v (br_deposit_date r) (br_last_update r) (br_meta_data r).
Definition set_br_deposit_date (v : time) (r : balance_record) : balance_record :=
  mk_balance (br_condition r) (br_balance r) (br_restricted_owner r) v (br_last_update r) (br_meta_data r).
Definition set_br_last_update (v : time) (r : balance_record) : balance_record :=
  mk_balance (br_condition r) (br_balance r) (br_restricted_owner r) (br_deposit_date r) v (br_meta_data r).
Definition set_br_meta_data (v : option transaction_id) (r : balance_record) : balance_record :=
  mk_balance (br_condition r) (br_balance r) (br_restricted_owner r) (br_deposit_date r) (br_last_update r) v.

(** 128-bit unsigned arithmetic. *)
Definition u128 (z : Z) : Z := z mod (uint128_max + 1).

(** The amount of a vesting balance that could be claimed at a time with no
    prior withdrawals. *)
Definition vesting_max_claimable (start_time duration original at_time : Z) : result Z :=
  if uwrap32 (start_time + duration) <=? at_time then Ok original
  else if start_time <? at_time then
    let elapsed_time := uwrap32 (at_time - start_time) in
    _ <- fc_assert ((0 <? elapsed_time) && (elapsed_time <? duration)) ;;
    let numerator := u128 (u128 original * elapsed_time) in
    let max_claimable := wrap64 (uwrap64 (numerator / duration)) in
    _ <- fc_assert ((0 <=? max_claimable) && (max_claimable <=? original)) ;;
    Ok max_claimable
  else Ok 0.

(** [balance_record::get_spendable_balance]. *)
Definition get_spendable_balance (r : balance_record) (at_time : time) : result asset :=
  match wc_data (br_condition r) with
  | withdraw_with_signature _ _ | withdraw_with_escrow _ _ _ _ _ | withdraw_with_multisig _ _ _ =>
      Ok (mk_asset (br_balance r) (balance_asset_id r))
  | withdraw_vesting _ start_time duration original =>
      max_claimable <- vesting_max_claimable start_time duration original at_time ;;
      let claimed_so_far := original -! br_balance r in
      _ <- fc_assert ((0 <=? claimed_so_far) && (claimed_so_far <=? max_claimable)) ;;
      let spendable := max_claimable -! claimed_so_far in
      _ <- fc_assert ((0 <=? spendable) && (spendable <=? max_claimable)) ;;
      _ <- fc_assert (spendable +! claimed_so_far =? max_claimable) ;;
      Ok (mk_asset spendable (balance_asset_id r))
  | withdraw_null => Ok asset_default
  end.

Definition MIN_YIELD_PERIOD_SEC : Z := 60 * 60 * 24.
(** BLOCKS_PER_YEAR * BLOCK_INTERVAL_SEC *)
Definition MAX_YIELD_PERIOD_SEC : Z := 360 * 24 * 365 * 10.

(** [balance_record::calculate_yield] (balance_operations.cpp). *)
Definition calculate_yield (r : balance_record) (now amount yield_pool share_supply : Z) : asset :=
  let none := mk_asset 0 (balance_asset_id r) in
  if (amount <=? 0) || (share_supply <=? 0) || (yield_pool <=? 0) then none
  else
    let elapsed_time := now - br_deposit_date r in
    if elapsed_time <=? MIN_YIELD_PERIOD_SEC then none
    else
      let current_supply := u128 (share_supply -! yield_pool) in
      if current_supply <=? 0 then none
      else
        let amount_withdrawn := u128 (amount * 1000000) in
        let original_yield := u128 (amount_withdrawn * yield_pool) / current_supply in
        let yield :=
          if elapsed_time <? MAX_YIELD_PERIOD_SEC then
            let y80 := u128 (original_yield * 8) / 10 in
            let delta_yield := u128 (original_yield - y80) in
            let y80 := u128 (y80 * elapsed_time) / MAX_YIELD_PERIOD_SEC in
            let delta_yield := u128 (delta_yield * elapsed_time) / MAX_YIELD_PERIOD_SEC in
            let delta_yield := u128 (delta_yield * elapsed_time) / MAX_YIELD_PERIOD_SEC in
            u128 (y80 + delta_yield)
          else original_yield in
        let yield := yield / 1000000 in
        if (0 <? yield) && (yield <? u128 yield_pool) then mk_asset (wrap64 (uwrap64 yield)) (balance_asset_id r)
        else none.

(** ** Accounts *)

Record multisig_meta_info := { ms_required : Z; ms_owners : gset address }.

Inductive account_type := titan_account | public_account | multisig_account.

Record account_meta_info := { am_type : account_type; am_data : list Z }.

Record delegate_stats := mk_delegate_stats {
  ds_votes_for : Z;
  ds_pay_rate : Z;
  ds_signing_key_history : gmap Z public_key;
  ds_last_block_num_produced : Z;
  ds_next_secret_hash : option Z;
  ds_pay_balance : Z;
  ds_total_paid : Z;
  ds_total_burned : Z;
  ds_blocks_produced : Z;
  ds_blocks_missed : Z }.

Definition delegate_stats_default : delegate_stats := mk_delegate_stats 0 0 ∅ 0 None 0 0 0 0 0.

Record account_record := mk_account {
  ac_id : account_id;
  ac_name : string;
  ac_public_data : string;
  ac_owner_key : public_key;
  ac_active_key_history : gmap time public_key;
  ac_registration_date : time;
  ac_last_update : time;
  ac_rp : Z;
  ac_delegate_info : option delegate_stats;
  ac_meta_data : option account_meta_info }.

Definition set_ac_rp (v : Z) (r : account_record) : account_record :=
  mk_account (ac_id r) (ac_name r) (ac_public_data r) (ac_owner_key r) (ac_active_key_history r)
    (ac_registration_date r) (ac_last_update r) v (ac_delegate_info r) (ac_meta_data r).
Definition set_ac_delegate_info (v : option delegate_stats) (r : account_record) : account_record :=
  mk_account (ac_id r) (ac_name r) (ac_public_data r) (ac_owner_key r) (ac_active_key_history r)
    (ac_registration_date r) (ac_last_update r) (ac_rp r) v (ac_meta_data r).
Definition set_ac_active_key_history (v : gmap time public_key) (r : account_record) : account_record :=
  mk_account (ac_id r) (ac_name r) (ac_public_data r) (ac_owner_key r) v
    (ac_registration_date r) (ac_last_update r) (ac_rp r) (ac_delegate_info r) (ac_meta_data r).
Definition set_ac_public_data (v : string) (r : account_record) : account_record :=
  mk_account (ac_id r) (ac_name r) v (ac_owner_key r) (ac_active_key_history r)
    (ac_registration_date r) (ac_last_update r) (ac_rp r) (ac_delegate_info r) (ac_meta_data r).
Definition set_ac_last_update (v : time) (r : account_record) : account_record :=
  mk_account (ac_id r) (ac_name r) (ac_public_data r) (ac_owner_key r) (ac_active_key_history r)
    (ac_registration_date r) v (ac_rp r) (ac_delegate_info r) (ac_meta_data r).

Definition set_ds_pay_rate (v : Z) (d : delegate_stats) : delegate_stats :=
  mk_delegate_stats (ds_votes_for d) v (ds_signing_key_history d) (ds_last_block_num_produced d)
    (ds_next_secret_hash d) (ds_pay_balance d) (ds_total_paid d) (ds_total_burned d)
    (ds_blocks_produced d) (ds_blocks_missed d).
Definition set_ds_votes_for (v : Z) (d : delegate_stats) : delegate_stats :=
  mk_delegate_stats v (ds_pay_rate d) (ds_signing_key_history d) (ds_last_block_num_produced d)
    (ds_next_secret_hash d) (ds_pay_balance d) (ds_total_paid d) (ds_total_burned d)
    (ds_blocks_produced d) (ds_blocks_missed d).
Definition set_ds_signing_key_history (v : gmap Z public_key) (d : delegate_stats) : delegate_stats :=
  mk_delegate_stats (ds_votes_for d) (ds_pay_rate d) v (ds_last_block_num_produced d)
    (ds_next_secret_hash d) (ds_pay_balance d) (ds_total_paid d) (ds_total_burned d)
    (ds_blocks_produced d) (ds_blocks_missed d).
Definition set_ds_pay_balance (v : Z) (d : delegate_stats) : delegate_stats :=
  mk_delegate_stats (ds_votes_for d) (ds_pay_rate d) (ds_signing_key_history d)
    (ds_last_block_num_produced d) (ds_next_secret_hash d) v (ds_total_paid d) (ds_total_burned d)
    (ds_blocks_produced d) (ds_blocks_missed d).
Definition set_ds_total_paid (v : Z) (d : delegate_stats) : delegate_stats :=
  mk_delegate_stats (ds_votes_for d) (ds_pay_rate d) (ds_signing_key_history d)
    (ds_last_block_num_produced d) (ds_next_secret_hash d) (ds_pay_balance d) v (ds_total_burned d)
    (ds_blocks_produced d) (ds_blocks_missed d).
Definition set_ds_production (last secret produced : Z) (d : delegate_stats) : delegate_stats :=
  mk_delegate_stats (ds_votes_for d) (ds_pay_rate d) (ds_signing_key_history d) last
    (Some secret) (ds_pay_balance d) (ds_total_paid d) (ds_total_burned d) produced (ds_blocks_missed d).
Definition set_ds_blocks_missed (v : Z) (d : delegate_stats) : delegate_stats :=
  mk_delegate_stats (ds_votes_for d) (ds_pay_rate d) (ds_signing_key_history d)
    (ds_last_block_num_produced d) (ds_next_secret_hash d) (ds_pay_balance d) (ds_total_paid d)
    (ds_total_burned d) (ds_blocks_produced d) v.

(** The entry of a [std::map] with the greatest key ([rbegin]). *)
Definition max_entry {V} (m : gmap Z V) : option (Z * V) :=
  map_fold (fun k v acc =>
    match acc with
    | Some (k', v') => if k' <? k then Some (k, v) else acc
    | None => Some (k, v)
    end) None m.

Definition is_delegate (r : account_record) : bool :=
  match ac_delegate_info r with Some _ => true | None => false end.

Definition delegate_pay_balance (r : account_record) : result Z :=
  match ac_delegate_info r with Some d => Ok (ds_pay_balance d) | None => Throw assert_exception end.

Definition net_votes (r : account_record) : result Z :=
  match ac_delegate_info r with Some d => Ok (ds_votes_for d) | None => Throw assert_exception end.

Definition adjust_votes_for (delta : Z) (r : account_record) : result account_record :=
  match ac_delegate_info r with
  | Some d => Ok (set_ac_delegate_info (Some (set_ds_votes_for (ds_votes_for d +! delta) d)) r)
  | None => Throw assert_exception
  end.

Definition active_key (r : account_record) : result public_key :=
  match max_entry (ac_active_key_history r) with
  | Some (_, k) => Ok k
  | None => Throw assert_exception
  end.

Definition is_retracted (r : account_record) : result bool :=
  k <- active_key r ;; Ok (k =? null_key).

Definition active_address `{Crypto} (r : account_record) : result address :=
  k <- active_key r ;; Ok (key_address k).

Definition owner_address `{Crypto} (r : account_record) : address := key_address (ac_owner_key r).

Definition set_active_key (now : time) (new_key : public_key) (r : account_record) : result account_record :=
  _ <- fc_assert (negb (now =? 0)) ;;
  Ok (set_ac_active_key_history (<[now := new_key]> (ac_active_key_history r)) r).

(** [-1] as a [uint8_t] for an account that is not a delegate. *)
Definition delegate_pay_rate (r : account_record) : Z :=
  match ac_delegate_info r with Some d => ds_pay_rate d | None => 255 end.

Definition set_signing_key (block_num : Z) (k : public_key) (r : account_record) : result account_record :=
  match ac_delegate_info r with
  | Some d =>
      Ok (set_ac_delegate_info
            (Some (set_ds_signing_key_history (<[block_num := k]> (ds_signing_key_history d)) d)) r)
  | None => Throw assert_exception
  end.

Definition signing_key (r : account_record) : result public_key :=
  match ac_delegate_info r with
  | Some d =>
      match max_entry (ds_signing_key_history d) with
      | Some (_, k) => Ok k
      | None => Throw assert_exception
      end
  | None => Throw assert_exception
  end.

Definition signing_address `{Crypto} (r : account_record) : result address :=
  k <- signing_key r ;; Ok (key_address k).

(** ** Assets *)

Definition god_issuer_id : Z := 0.
Definition null_issuer_id : Z := 1.
Definition market_issuer_id : Z := 2.
Definition user_issuer_id : Z := 3.
Definition game_issuer_id : Z := 4.

(** [flag_enum]: the bit masks. *)
Definition dynamic_max_supply : Z := 1.
Definition dynamic_fees : Z := 2.
Definition halted_markets : Z := 4.
Definition halted_withdrawals : Z := 8.
Definition retractable_balances : Z := 16.
Definition restricted_deposits : Z := 32.

Record asset_record := mk_asset_record {
  as_id : Z;
  as_symbol : string;
  as_issuer_type : Z;
  as_issuer_id : Z;
  as_authority : multisig_meta_info;
  as_authority_flag_permissions : Z;
  as_active_flags : Z;
  as_whitelist : gset address;
  as_name : string;
  as_description : string;
  as_public_data : string;
  as_precision : Z;
  as_max_supply : Z;
  as_withdrawal_fee : Z;
  as_market_fee_rate : Z;
  as_collected_fees : Z;
  as_current_supply : Z;
  as_current_collateral : Z;
  as_registration_date : time;
  as_last_update : time }.

Definition asset_record_default : asset_record :=
  mk_asset_record 0 "" null_issuer_id 0 {| ms_required := 1; ms_owners := ∅ |} 4294967295 0 ∅ "" "" ""
    0 0 0 0 0 0 0 0 0.

(** Record update, one function per field group the operations assign. *)
Definition set_as_money (fees supply collateral : Z) (r : asset_record) : asset_record :=
  mk_asset_record (as_id r) (as_symbol r) (as_issuer_type r) (as_issuer_id r) (as_authority r)
    (as_authority_flag_permissions r) (as_active_flags r) (as_whitelist r) (as_name r)
    (as_description r) (as_public_data r) (as_precision r) (as_max_supply r) (as_withdrawal_fee r)
    (as_market_fee_rate r) fees supply collateral (as_registration_date r) (as_last_update r).
Definition set_as_collected_fees (v : Z) (r : asset_record) : asset_record :=
  set_as_money v (as_current_supply r) (as_current_collateral r) r.
Definition set_as_current_supply (v : Z) (r : asset_record) : asset_record :=
  set_as_money (as_collected_fees r) v (as_current_collateral r) r.
Definition set_as_current_collateral (v : Z) (r : asset_record) : asset_record :=
  set_as_money (as_collected_fees r) (as_current_supply r) v r.
Definition set_as_last_update (v : time) (r : asset_record) : asset_record :=
  mk_asset_record (as_id r) (as_symbol r) (as_issuer_type r) (as_issuer_id r) (as_authority r)
    (as_authority_flag_permissions r) (as_active_flags r) (as_whitelist r) (as_name r)
    (as_description r) (as_public_data r) (as_precision r) (as_max_supply r) (as_withdrawal_fee r)
    (as_market_fee_rate r) (as_collected_fees r) (as_current_supply r) (as_current_collateral r)
    (as_registration_date r) v.
Definition set_as_whitelist (v : gset address) (r : asset_record) : asset_record :=
  mk_asset_record (as_id r) (as_symbol r) (as_issuer_type r) (as_issuer_id r) (as_authority r)
    (as_authority_flag_permissions r) (as_active_flags r) v (as_name r)
    (as_description r) (as_public_data r) (as_precision r) (as_max_supply r) (as_withdrawal_fee r)
    (as_market_fee_rate r) (as_collected_fees r) (as_current_supply r) (as_current_collateral r)
    (as_registration_date r) (as_last_update r).
Definition set_as_authority (a : multisig_meta_info) (permissions flags : Z) (r : asset_record) : asset_record :=
  mk_asset_record (as_id r) (as_symbol r) (as_issuer_type r) (as_issuer_id r) a
    permissions flags (as_whitelist r) (as_name r)
    (as_description r) (as_public_data r) (as_precision r) (as_max_supply r) (as_withdrawal_fee r)
    (as_market_fee_rate r) (as_collected_fees r) (as_current_supply r) (as_current_collateral r)
    (as_registration_date r) (as_last_update r).
Definition set_as_properties (issuer : Z) (name description data : string)
    (precision max_supply withdrawal_fee market_fee_rate : Z) (r : asset_record) : asset_record :=
  mk_asset_record (as_id r) (as_symbol r) (as_issuer_type r) issuer (as_authority r)
    (as_authority_flag_permissions r) (as_active_flags r) (as_whitelist r) name
    description data precision max_supply withdrawal_fee
    market_fee_rate (as_collected_fees r) (as_current_supply r) (as_current_collateral r)
    (as_registration_date r) (as_last_update r).

Definition is_market_issued (r : asset_record) : bool := as_issuer_type r =? market_issuer_id.
Definition is_user_issued (r : asset_record) : bool := as_issuer_type r =? user_issuer_id.
Definition is_game_issued (r : asset_record) : bool := as_issuer_type r =? game_issuer_id.

Definition authority_has_flag_permission (r : asset_record) (permission : Z) : bool :=
  is_user_issued r && negb (Z.land (as_authority_flag_permissions r) permission =? 0).

Definition flag_is_active (r : asset_record) (flag : Z) : bool :=
  authority_has_flag_permission r flag && negb (Z.land (as_active_flags r) flag =? 0).

Definition address_is_whitelisted (r : asset_record) (addr : address) : bool :=
  if negb (flag_is_active r restricted_deposits) then true
  else if bool_decide (addr ∈ ms_owners (as_authority r)) then true
  else bool_decide (addr ∈ as_whitelist r).

(** The powers of ten up to 10^15 (asset_operations.cpp). *)
Definition powers_of_ten : list Z :=
  [1; 10; 100; 1000; 10000; 100000; 1000000; 10000000; 100000000; 1000000000; 10000000000;
   100000000000; 1000000000000; 10000000000000; 100000000000000; 1000000000000000].
Definition is_power_of_ten (n : Z) : bool := existsb (Z.eqb n) powers_of_ten.

(** ** Red packets *)

Record red_packet_status := mk_status {
  rs_amount : asset; rs_account_id : account_id; rs_transaction_id : transaction_id }.

(** [claim_condition]: the minimum reputation [packet_rp_condition::rp];
    conditions of another type are not checked. *)
Inductive packet_claim_condition := packet_rp_condition (rp : Z) | packet_group_condition.

Record packet_record := mk_packet {
  pk_id : Z;
  pk_amount : asset;
  pk_from_account_id : account_id;
  pk_claim_public_key : public_key;
  pk_message : string;
  pk_claim_statuses : list red_packet_status;
  pk_claim_condition : option packet_claim_condition }.

Definition unclaimed (s : red_packet_status) : bool := rs_account_id s =? -1.

(** The loop of [next_available_claim_index] returns at the first unclaimed
    status; [index] counts the claimed ones before it. *)
Fixpoint next_claim_index (l : list red_packet_status) (index : nat) : nat :=
  match l with
  | [] => index
  | s :: l => if unclaimed s then index else next_claim_index l (S index)
  end.
Definition next_available_claim_index (p : packet_record) : nat := next_claim_index (pk_claim_statuses p) 0.

Definition is_unclaimed_empty (p : packet_record) : bool :=
  (length (pk_claim_statuses p) <=? next_available_claim_index p)%nat.

Definition left_packet_amount (p : packet_record) : result asset :=
  foldM (fun s left => if unclaimed s then asset_add left (rs_amount s) else Ok left)
    (pk_claim_statuses p) (mk_asset 0 (asset_id (pk_amount p))).

Definition set_pk_claim_statuses (v : list red_packet_status) (p : packet_record) : packet_record :=
  mk_packet (pk_id p) (pk_amount p) (pk_from_account_id p) (pk_claim_public_key p) (pk_message p) v
    (pk_claim_condition p).

(** ** Slates, feeds, rewards, burns, ads, notes, slots, games *)

Definition slate_record := gset Z.
Definition slate_id `{Crypto} (s : slate_record) : Z := if bool_decide (s = ∅) then 0 else slate_hash s.

Record feed_record := { fr_quote_id : Z; fr_delegate_id : account_id; fr_value : price; fr_last_update : time }.

Record operation_reward_record := { rw_id : Z; rw_fees : gmap Z Z }.

Record burn_record := {
  bu_account_id : account_id; bu_transaction_id : transaction_id;
  bu_amount : asset; bu_message : string; bu_signer : option Z }.

Record ad_record := {
  ad_account_id : account_id; ad_transaction_id : transaction_id; ad_publisher_id : account_id;
  ad_amount : asset; ad_message : string; ad_signer : option Z }.

Inductive note_type := public_type | secret_type.
Record note_message := { nm_type : note_type; nm_data : string }.

Record note_record := {
  no_account_id : account_id; no_transaction_id : transaction_id;
  no_amount : asset; no_signer : option Z; no_message : option note_message }.

Definition ad_signer_key `{Crypto} (r : ad_record) : result public_key :=
  match ad_signer r with Some sig => Ok (message_signer (ad_message r) sig) | None => Throw assert_exception end.

Definition note_signer_key `{Crypto} (r : note_record) : result public_key :=
  match no_signer r, no_message r with
  | Some sig, Some m => Ok (message_signer (nm_data m) sig)
  | _, _ => Throw assert_exception
  end.

Record slot_record := { sl_delegate_id : account_id; sl_timestamp : time; sl_block_id : option Z }.

Record game_record := { gm_id : Z; gm_name : string; gm_owner_account_id : account_id; gm_script_code : string }.

(** [property_record::value] is a variant; these are the types stored in it. *)
Inductive property_value :=
  | property_int (v : Z) | property_ids (v : list Z) | property_bool (v : bool)
  | property_markets (v : list (Z * Z)).

(** ** Market orders *)

Record market_index_key := mk_index { mi_order_price : price; mi_owner : address }.

#[export] Instance market_index_key_eq_dec : EqDecision market_index_key.
Proof. solve_decision. Defined.
#[export] Instance market_index_key_countable : Countable market_index_key.
Proof.
  refine (inj_countable' (fun k => (ratio (mi_order_price k), base_asset_id (mi_order_price k),
      quote_asset_id (mi_order_price k), mi_owner k))
    (fun '(r, b, q, o) => mk_index (mk_price r b q) o) _). by intros [[] ?].
Defined.

Record order_record := mk_order { or_balance : Z; or_limit_price : option price; or_last_update : time }.
Definition order_record_default : order_record := mk_order 0 None 0.
Definition order_is_null (o : order_record) : bool := or_balance o =? 0.

Inductive order_type := null_order | bid_order | ask_order.

(** The fields of a [market_order] that bids and asks have; the others belong
    to shorts and covers. *)
Record market_order := mk_market_order { od_type : order_type; od_index : market_index_key; od_state : order_record }.

Record market_transaction := mk_market_transaction {
  mt_bid_owner : address; mt_ask_owner : address; mt_bid_price : price; mt_ask_price : price;
  mt_bid_paid : asset; mt_bid_received : asset; mt_ask_paid : asset; mt_ask_received : asset;
  mt_bid_type : order_type; mt_ask_type : order_type; mt_quote_fees : asset; mt_base_fees : asset }.

Record market_status := mk_market_status {
  st_quote_id : Z; st_base_id : Z;
  st_current_feed_price : option price; st_last_valid_feed_price : option price;
  st_last_error : option exception }.
Definition market_status_default : market_status := mk_market_status 0 0 None None None.
Definition market_status_is_null (s : market_status) : bool := st_quote_id s =? st_base_id s.

(** [market_status( quote, base )]. *)
Definition new_market_status (quote base : Z) : result market_status :=
  _ <- fc_assert (base <? quote) ;; Ok (mk_market_status quote base None None None).

Inductive time_granularity := each_block | each_hour | each_day.
#[export] Instance time_granularity_eq_dec : EqDecision time_granularity.
Proof. solve_decision. Defined.

Record market_history_key := mk_history_key {
  hk_quote_id : Z; hk_base_id : Z; hk_granularity : time_granularity; hk_timestamp : time }.
#[export] Instance market_history_key_eq_dec : EqDecision market_history_key.
Proof. solve_decision. Defined.
#[export] Instance market_history_key_countable : Countable market_history_key.
Proof.
  refine (inj_countable' (fun k => (hk_quote_id k, hk_base_id k,
      match hk_granularity k with each_block => 0 | each_hour => 1 | each_day => 2 end, hk_timestamp k))
    (fun '(q, b, g, t) => mk_history_key q b
       (if g =? 0 then each_block else if g =? 1 then each_hour else each_day) t) _).
  by intros [? ? [] ?].
Defined.

Record market_history_record := mk_history_record {
  mh_highest_bid : price; mh_lowest_ask : price; mh_opening_price : price; mh_closing_price : price;
  mh_volume : Z }.

(** ** Operations

    One record per operation with the fields its [evaluate] reads, and the
    tagged union the factory dispatches on. *)

Record withdraw_operation := { wd_balance_id : address; wd_amount : Z }.
Record deposit_operation := { dp_amount : Z; dp_condition : withdraw_condition }.
Record register_account_operation := {
  ra_name : string; ra_public_data : string; ra_owner_key : public_key; ra_active_key : public_key;
  ra_delegate_pay_rate : Z; ra_meta_data : option account_meta_info }.
Record update_account_operation := {
  ua_account_id : account_id; ua_public_data : option string; ua_active_key : option public_key;
  ua_delegate_pay_rate : Z }.
Record withdraw_pay_operation := { wp_amount : Z; wp_account_id : account_id }.
Record update_signing_key_operation := { us_account_id : account_id; us_signing_key : public_key }.
Record create_asset_operation := {
  ca_symbol : string; ca_name : string; ca_description : string; ca_public_data : string;
  ca_issuer_type : Z; ca_issuer_id : Z; ca_maximum_share_supply : Z; ca_precision : Z;
  ca_initial_supply : Z; ca_initial_collateral : Z }.
Record asset_update_properties_operation := {
  ap_asset_id : Z; ap_issuer_id : option account_id; ap_name : option string;
  ap_description : option string; ap_public_data : option string; ap_precision : option Z;
  ap_max_supply : option Z; ap_withdrawal_fee : option Z; ap_market_fee_rate : option Z }.
Record asset_update_permissions_operation := {
  am_asset_id : Z; am_authority : option multisig_meta_info;
  am_authority_flag_permissions : option Z; am_active_flags : option Z }.
Record asset_update_whitelist_operation := { aw_asset_id : Z; aw_owner : address }.
Record burn_operation := {
  bo_amount : asset; bo_account_id : account_id; bo_message : string; bo_message_signature : option Z }.
Record ad_operation := {
  ao_amount : asset; ao_owner_account_id : account_id; ao_publisher_account_id : account_id;
  ao_message : string; ao_message_signature : option Z }.
Record note_operation := {
  nt_amount : asset; nt_owner_account_id : account_id; nt_message : option note_message;
  nt_message_signature : option Z }.
Record red_packet_operation := {
  rp_random_id : Z; rp_amount : asset; rp_from_account_id : account_id; rp_message : string;
  rp_claim_public_key : public_key; rp_count : Z; rp_claim_condition : option packet_claim_condition }.
Record claim_packet_operation := { cp_random_id : Z; cp_to_account_id : account_id }.
Record release_escrow_operation := {
  re_escrow_id : address; re_released_by : address; re_amount_to_receiver : Z; re_amount_to_sender : Z }.
Record update_balance_vote_operation := {
  uv_balance_id : address; uv_new_restricted_owner : option address; uv_new_slate : Z }.
Record market_operation := { mo_amount : Z; mo_index : market_index_key }.
Record buy_chips_operation := { bc_amount : asset; bc_owner : address }.
Record update_feed_operation := {
  uf_quote_id : Z; uf_delegate_id : account_id; uf_value : option price }.

Inductive operation :=
  | op_withdraw (o : withdraw_operation)
  | op_deposit (o : deposit_operation)
  | op_register_account (o : register_account_operation)
  | op_update_account (o : update_account_operation)
  | op_withdraw_pay (o : withdraw_pay_operation)
  | op_create_asset (o : create_asset_operation)
  | op_issue_asset (amount : asset)
  | op_asset_update_properties (o : asset_update_properties_operation)
  | op_asset_update_permissions (o : asset_update_permissions_operation)
  | op_asset_update_whitelist (o : asset_update_whitelist_operation)
  | op_bid (o : market_operation)
  | op_ask (o : market_operation)
  | op_define_slate (slate : list Z)
  | op_update_feed (o : update_feed_operation)
  | op_burn (o : burn_operation)
  | op_ad (o : ad_operation)
  | op_note (o : note_operation)
  | op_red_packet (o : red_packet_operation)
  | op_claim_packet (o : claim_packet_operation)
  | op_buy_chips (o : buy_chips_operation)
  | op_release_escrow (o : release_escrow_operation)
  | op_update_signing_key (o : update_signing_key_operation)
  | op_update_balance_vote (o : update_balance_vote_operation)
  | op_limit_fee (max_fee : asset)
  | op_data (data : list Z).

Record signed_transaction := {
  tx_expiration : time; tx_operations : list operation; tx_signatures : list Z }.

(** [transaction_record]: the transaction, its place in the chain, and of what
    its evaluation found the yields, by asset. *)
Record transaction_record := { tr_trx : signed_transaction; tr_chain_location : Z * Z; tr_yield_claimed : gmap Z Z }.

(** Digests and ids of transactions, hashes of their encodings, and the key
    recovered from a signature, the digest and whether a canonical signature is
    required. *)
Class TxCrypto := {
  trx_id : signed_transaction -> transaction_id;
  trx_digest : signed_transaction -> Z -> Z;
  recover_key : Z -> Z -> bool -> result public_key
}.
