(* ===== verification/Keys.v ===== *)
(** Keys: pairs of a private and a public key, the shared secret of two pairs,
    and the derivation of child keys (extended_address.cpp); encryption with a
    secret (fc); and memos, the message of a deposit that only its receiver can
    read (withdraw_types.cpp).

    A private key is its secret, a number; the curve, the hashes and the cipher
    are parameters. A message has a constant length on the chain, 19 bytes or,
    extended, 51; a packed structure is the sequence of its fields. Strings and
    arrays are lists of bytes, arrays are zero when they are made. *)

From S2P Require Import Prelude Names Records.

Abbreviation private_key := Z (only parsing).
Abbreviation secret512 := Z (only parsing).

(** [uint32_t] and [sha256] indices of children. *)
Inductive child_index := index_of_number (n : Z) | index_of_hash (h : Z).

(** What is hashed for a child: the public key, or the private key after a byte
    of padding. *)
Inductive child_seed :=
  | public_seed (k : public_key) (i : child_index) (code : Z)
  | private_seed (k : private_key) (i : child_index) (code : Z).

Class KeyCrypto := {
  get_public_key : private_key -> public_key;
  get_shared_secret : private_key -> public_key -> secret512;
  (** [sha256::hash] of a shared secret and its first word *)
  hash_secret : secret512 -> Z;
  secret_word : secret512 -> Z;
  (** the halves of the [sha512] of a seed *)
  seed_hash : child_seed -> Z * Z;
  generate_from_seed : private_key -> Z -> private_key;
  add_point : public_key -> Z -> public_key;
  aes_encrypt : secret512 -> list Z -> list Z;
  aes_decrypt : secret512 -> list Z -> result (list Z) }.

(** What is documented of them: Diffie and Hellman's secret is shared, adding to
    the private key adds a point to the public key, and the cipher pads to
    blocks of 16 bytes and can be undone. *)
Class KeyLaws `{KeyCrypto} := {
  shared_secret_comm : forall a b, get_shared_secret a (get_public_key b) = get_shared_secret b (get_public_key a);
  child_public : forall a h, get_public_key (generate_from_seed a h) = add_point (get_public_key a) h;
  aes_inverse : forall s m, aes_decrypt s (aes_encrypt s m) = Ok m;
  aes_length : forall s m, Z.of_nat (length (aes_encrypt s m)) = 16 * (Z.of_nat (length m) / 16 + 1);
  secret_word_range : forall s, 0 <= secret_word s < two64;
  public_key_range : forall a, 0 <= get_public_key a < 256 ^ 33;
  public_key_valid : forall a, a <> 0 -> get_public_key a <> null_key }.

(** ** Extended keys *)

Record extended_public_key := { xp_pub_key : public_key; xp_chain_code : Z }.
Record extended_private_key := { xk_priv_key : private_key; xk_chain_code : Z }.
Inductive derivation_type := public_derivation | private_derivation.

Section keys.
Context `{Kc : KeyCrypto}.

Definition extended_public (k : public_key) : extended_public_key := {| xp_pub_key := k; xp_chain_code := 0 |}.
Definition extended_private (k : private_key) : extended_private_key := {| xk_priv_key := k; xk_chain_code := 0 |}.

Definition public_child (k : extended_public_key) (i : child_index) : extended_public_key :=
  let '(ikey_left, ikey_right) := seed_hash (public_seed (xp_pub_key k) i (xp_chain_code k)) in
  {| xp_pub_key := add_point (xp_pub_key k) ikey_left; xp_chain_code := ikey_right |}.

Definition private_child (k : extended_private_key) (i : child_index) (derivation : derivation_type) : extended_private_key :=
  let '(ikey_left, ikey_right) := seed_hash
    match derivation with
    | public_derivation => public_seed (get_public_key (xk_priv_key k)) i (xk_chain_code k)
    | private_derivation => private_seed (xk_priv_key k) i (xk_chain_code k)
    end in
  {| xk_priv_key := generate_from_seed (xk_priv_key k) ikey_left; xk_chain_code := ikey_right |}.

(** The extended public key of an extended private key. *)
Definition to_extended_public (k : extended_private_key) : extended_public_key :=
  {| xp_pub_key := get_public_key (xk_priv_key k); xp_chain_code := xk_chain_code k |}.

(** A child by public derivation is the same whoever derives it. *)
Lemma public_child_spec `{!KeyLaws} k i :
  to_extended_public (private_child k i public_derivation) = public_child (to_extended_public k) i.
Proof.
  unfold private_child, public_child, to_extended_public. cbn.
  destruct (seed_hash _) as [ikey_left ikey_right]. cbn. by rewrite child_public.
Qed.
End keys.

(** ** Bytes *)

(** The [n] bytes of a number, the lowest first. *)
Fixpoint le_bytes (n : nat) (z : Z) : list Z :=
  match n with O => [] | S n => z mod 256 :: le_bytes n (z / 256) end.
Fixpoint of_le (l : list Z) : Z := match l with [] => 0 | b :: l => b + 256 * of_le l end.

Definition string_bytes (s : string) : list Z := map code (chars s).
Definition byte_char (z : Z) : Ascii.ascii := Ascii.ascii_of_nat (Z.to_nat z).
(** [c_str] of an array: up to the first zero byte. *)
Fixpoint c_str (l : list Z) : list Ascii.ascii :=
  match l with [] => [] | b :: l => if b =? 0 then [] else byte_char b :: c_str l end.
Definition c_string (l : list Z) : string := unchars (c_str l).

(** [memcpy] to the beginning of an array. *)
Definition overwrite (src dst : list Z) : list Z := src ++ drop (length src) dst.

(** ** The data of a memo *)

Definition MAX_MEMO_SIZE : nat := 19.
Definition EXTENDED_MEMO_SIZE : nat := 32.
Definition MAX_EXTENDED_MEMO_SIZE : nat := MAX_MEMO_SIZE + EXTENDED_MEMO_SIZE.

Inductive memo_flags := from_memo | to_memo.

Record memo_data := mk_memo {
  md_from : public_key; md_from_signature : Z; md_message : list Z; md_memo_flags : memo_flags }.
Record extended_memo_data := mk_extended_memo {
  me_from : public_key; me_from_signature : Z; me_message : list Z; me_memo_flags : memo_flags; me_extra_message : list Z }.

Definition memo_data_default : memo_data := mk_memo null_key 0 (replicate MAX_MEMO_SIZE 0) from_memo.
Definition extended_memo_data_default : extended_memo_data :=
  mk_extended_memo null_key 0 (replicate MAX_MEMO_SIZE 0) from_memo (replicate EXTENDED_MEMO_SIZE 0).

Definition set_message (message : string) (d : memo_data) : result memo_data :=
  let bytes := string_bytes message in
  if bool_decide (bytes = []) then Ok d
  else
    _ <- fc_assert (length bytes <=? length (md_message d))%nat ;;
    Ok (mk_memo (md_from d) (md_from_signature d) (overwrite bytes (md_message d)) (md_memo_flags d)).
Definition set_extended_message (message : string) (d : extended_memo_data) : result extended_memo_data :=
  let bytes := string_bytes message in
  let size := length (me_message d) in
  if bool_decide (bytes = []) then Ok d
  else
    _ <- fc_assert (length bytes <=? size + length (me_extra_message d))%nat ;;
    Ok (if (length bytes <=? size)%nat then
          mk_extended_memo (me_from d) (me_from_signature d) (overwrite bytes (me_message d)) (me_memo_flags d) (me_extra_message d)
        else
          mk_extended_memo (me_from d) (me_from_signature d) (overwrite (take size bytes) (me_message d)) (me_memo_flags d)
            (overwrite (drop size bytes) (me_extra_message d))).

Definition get_message (d : memo_data) : string := c_string (md_message d).
Definition get_extended_message (d : extended_memo_data) : string := c_string (me_message d ++ me_extra_message d).

(** [fc::raw::pack] and [unpack]. *)
Definition pack_flags (f : memo_flags) : Z := match f with from_memo => 0 | to_memo => 1 end.
Definition unpack_flags (z : Z) : memo_flags := if z =? 0 then from_memo else to_memo.

Definition pack_memo (d : memo_data) : list Z :=
  le_bytes 33 (md_from d) ++ le_bytes 8 (md_from_signature d) ++ md_message d ++ [pack_flags (md_memo_flags d)].
Definition pack_extended_memo (d : extended_memo_data) : list Z :=
  le_bytes 33 (me_from d) ++ le_bytes 8 (me_from_signature d) ++ me_message d ++ [pack_flags (me_memo_flags d)]
  ++ me_extra_message d.

Definition memo_fields (l : list Z) : memo_data :=
  mk_memo (of_le (take 33 l)) (of_le (take 8 (drop 33 l))) (take MAX_MEMO_SIZE (drop 41 l))
    (unpack_flags (default 0 (l !! 60%nat))).
Definition unpack_memo (l : list Z) : result memo_data :=
  if (61 <=? length l)%nat then Ok (memo_fields l) else Throw out_of_range.
Definition unpack_extended_memo (l : list Z) : result extended_memo_data :=
  if (93 <=? length l)%nat then
    let d := memo_fields l in
    Ok (mk_extended_memo (md_from d) (md_from_signature d) (md_message d) (md_memo_flags d) (take EXTENDED_MEMO_SIZE (drop 61 l)))
  else Throw out_of_range.

(** [sizeof( memo_data )]: the array of the key, the signature at 40, the
    message and the flag, rounded up to 8. *)
Definition sizeof_memo_data : Z := 72.

(** ** Encryption *)

Record memo_status := {
  mo_memo : extended_memo_data; mo_has_valid_signature : bool; mo_owner_private_key : private_key }.

Section memo.
Context `{Cr : Crypto} `{Kc : KeyCrypto}.

(** The key of the receiver for this deposit, and its private key. *)
Definition stealth_public (to : public_key) (secret : secret512) : public_key :=
  xp_pub_key (public_child (extended_public to) (index_of_hash (hash_secret secret))).
Definition stealth_private (receiver : private_key) (secret : secret512) : private_key :=
  xk_priv_key (private_child (extended_private receiver) (index_of_hash (hash_secret secret)) public_derivation).

Definition memo_signature (from : private_key) (k : public_key) : Z :=
  if negb (from =? 0) then secret_word (get_shared_secret from k) else 0.

Definition encrypt_content (secret : secret512) (from : private_key) (signature : Z) (message : string) : result (list Z) :=
  if (length (string_bytes message) <=? MAX_MEMO_SIZE)%nat then
    d <- set_message message memo_data_default ;;
    Ok (aes_encrypt secret (pack_memo (mk_memo (get_public_key from) signature (md_message d) (md_memo_flags d))))
  else
    d <- set_extended_message message extended_memo_data_default ;;
    Ok (aes_encrypt secret (pack_extended_memo
      (mk_extended_memo (get_public_key from) signature (me_message d) (me_memo_flags d) (me_extra_message d)))).

(** [withdraw_with_signature::encrypt_memo_data]: the condition and the key
    that owns it. *)
Definition encrypt_memo_data (one_time : private_key) (to : public_key) (from : private_key) (message : string)
    (use_stealth_address : bool) : result (withdraw_data * public_key) :=
  let secret := get_shared_secret one_time to in
  let secret_public_key := if use_stealth_address then stealth_public to secret else to in
  data <- encrypt_content secret from (memo_signature from secret_public_key) message ;;
  Ok (withdraw_with_signature (key_address secret_public_key)
        (Some {| one_time_key := get_public_key one_time; encrypted_memo_data := data |}), secret_public_key).

(** [withdraw_with_escrow::encrypt_memo_data]: the message must be short; the
    arbiter and the agreement are filled in by the caller. *)
Definition encrypt_escrow_memo (one_time : private_key) (to : public_key) (from : private_key) (message : string)
    (escrow : address) (agreement : Z) : result (withdraw_data * public_key) :=
  let secret := get_shared_secret one_time to in
  let secret_public_key := stealth_public to secret in
  d <- set_message message memo_data_default ;;
  let content := mk_memo (get_public_key from) (memo_signature from secret_public_key) (md_message d) (md_memo_flags d) in
  Ok (withdraw_with_escrow (key_address (get_public_key one_time)) (key_address secret_public_key) escrow agreement
        (Some {| one_time_key := get_public_key one_time; encrypted_memo_data := aes_encrypt secret (pack_memo content) |}),
      secret_public_key).

(** [decrypt_memo_data( secret )]. *)
Definition decrypt_with_secret (secret : secret512) (m : titan_memo) : result extended_memo_data :=
  plain <- aes_decrypt secret (encrypted_memo_data m) ;;
  if sizeof_memo_data <? Z.of_nat (length (encrypted_memo_data m)) then unpack_extended_memo plain
  else
    d <- unpack_memo plain ;;
    Ok (mk_extended_memo (md_from d) (md_from_signature d) (md_message d) (md_memo_flags d) (replicate EXTENDED_MEMO_SIZE 0)).

(** The owners that a memo can be for. *)
Definition memo_of (w : withdraw_data) : option (list address * titan_memo) :=
  match w with
  | withdraw_with_signature owner (Some m) => Some ([owner], m)
  | withdraw_with_escrow sender receiver escrow _ (Some m) => Some ([sender; receiver; escrow], m)
  | _ => None
  end.

(** Whether the sender knew the secret of the key that is named. *)
Definition valid_signature (k : private_key) (memo : extended_memo_data) : bool :=
  match me_memo_flags memo with
  | from_memo =>
      if (me_from memo =? null_key) && (me_from_signature memo =? 0) then true
      else secret_word (get_shared_secret k (me_from memo)) =? me_from_signature memo
  | to_memo => true
  end.

Definition decrypt_memo_data (receiver : private_key) (ignore_owner : bool) (w : withdraw_data) : result (option memo_status) :=
  match memo_of w with
  | None => Throw assert_exception
  | Some (owners, m) =>
      let secret := get_shared_secret receiver (one_time_key m) in
      let k := stealth_private receiver secret in
      if negb ignore_owner && bool_decide (key_address (get_public_key k) ∉ owners) then Ok None
      else
        match decrypt_with_secret secret m with
        | Throw aes_exception => Ok None
        | Throw e => Throw e
        | Ok memo => Ok (Some {| mo_memo := memo; mo_has_valid_signature := valid_signature k memo; mo_owner_private_key := k |})
        end
  end.
End memo.
