(* ===== verification/Building.v ===== *)
(** Building transactions (transaction.cpp): the functions that append an
    operation, the slate the votes of the deposits get, and signing. *)

From S2P Require Import Prelude Asset Names Records Keys.

(** Signing a digest; what is documented of it is that the key is recovered. *)
Class Signing := { sign_compact : private_key -> Z -> Z }.
Class SigningLaw `{KeyCrypto} `{TxCrypto} `{Signing} :=
  recover_signed : forall k digest, recover_key (sign_compact k digest) digest false = Ok (get_public_key k).

Definition transaction_default : signed_transaction := {| tx_expiration := 0; tx_operations := []; tx_signatures := [] |}.

Definition set_operations (ops : list operation) (t : signed_transaction) : signed_transaction :=
  {| tx_expiration := tx_expiration t; tx_operations := ops; tx_signatures := tx_signatures t |}.
Definition set_expiration (e : time) (t : signed_transaction) : signed_transaction :=
  {| tx_expiration := e; tx_operations := tx_operations t; tx_signatures := tx_signatures t |}.

(** [operations.emplace_back]. *)
Definition emplace_back (op : operation) (t : signed_transaction) : signed_transaction :=
  set_operations (tx_operations t ++ [op]) t.

Section building.
Context `{Cr : Crypto} `{Kc : KeyCrypto} `{Tx : TxCrypto} `{Sg : Signing}.
Implicit Types t : signed_transaction.

Definition sign (signer : private_key) (chain_id : Z) t : signed_transaction :=
  {| tx_expiration := tx_expiration t; tx_operations := tx_operations t;
     tx_signatures := tx_signatures t ++ [sign_compact signer (trx_digest t chain_id)] |}.

Definition get_signing_key (sig_index : nat) (chain_id : Z) t : result public_key :=
  sig <- from_option_or out_of_range (tx_signatures t !! sig_index) ;;
  recover_key sig (trx_digest t chain_id) false.

(** A set is visited in the order of its members. *)
Definition define_slate (slate : gset Z) t : signed_transaction :=
  set_operations (op_define_slate (merge_sort Z.le (elements slate)) :: tx_operations t) t.

Definition burn (quantity : asset) (for_or_against : account_id) (message : string) (sig : option Z) t : result signed_transaction :=
  _ <- fc_assert (bool_decide (message = ""%string) || (asset_id quantity =? 0)) ;;
  Ok (emplace_back (op_burn {| bo_amount := quantity; bo_account_id := for_or_against; bo_message := message;
    bo_message_signature := sig |}) t).

Definition buy_ad (quantity : asset) (owner publisher : account_id) (message : string) (sig : option Z) t : result signed_transaction :=
  _ <- fc_assert (bool_decide (message = ""%string) || (asset_id quantity =? 0)) ;;
  Ok (emplace_back (op_ad {| ao_amount := quantity; ao_owner_account_id := owner; ao_publisher_account_id := publisher;
    ao_message := message; ao_message_signature := sig |}) t).

Definition note (quantity : asset) (owner : account_id) (message : option note_message) (sig : option Z) t : result signed_transaction :=
  _ <- fc_assert (asset_id quantity =? 0) ;;
  Ok (emplace_back (op_note {| nt_amount := quantity; nt_owner_account_id := owner; nt_message := message;
    nt_message_signature := sig |}) t).

Definition red_packet (random_id : Z) (asset_for_packet : asset) (from : account_id) (message : string) (pub_key : public_key)
    (count renpin : Z) t : signed_transaction :=
  emplace_back (op_red_packet {| rp_random_id := random_id; rp_amount := asset_for_packet; rp_from_account_id := from;
    rp_message := message; rp_claim_public_key := pub_key; rp_count := count;
    rp_claim_condition := if 0 <? renpin then Some (packet_rp_condition renpin) else None |}) t.

Definition claim_packet (id : Z) (to : account_id) t : signed_transaction :=
  emplace_back (op_claim_packet {| cp_random_id := id; cp_to_account_id := to |}) t.

Definition bid (quantity : asset) (price_per_unit : price) (owner : address) t : signed_transaction :=
  emplace_back (op_bid {| mo_amount := amount quantity; mo_index := mk_index price_per_unit owner |}) t.
Definition ask (quantity : asset) (price_per_unit : price) (owner : address) t : signed_transaction :=
  emplace_back (op_ask {| mo_amount := amount quantity; mo_index := mk_index price_per_unit owner |}) t.

Definition withdraw (account : address) (a : Z) t : result signed_transaction :=
  _ <- fc_assert (0 <? a) ;;
  Ok (emplace_back (op_withdraw {| wd_balance_id := account; wd_amount := a |}) t).

Definition withdraw_pay (account : account_id) (a : Z) t : result signed_transaction :=
  _ <- fc_assert (0 <? a) ;;
  Ok (emplace_back (op_withdraw_pay {| wp_amount := a; wp_account_id := account |}) t).

Definition deposit_multisig (info : multisig_meta_info) (a : asset) t : result signed_transaction :=
  _ <- fc_assert (0 <? amount a) ;;
  Ok (emplace_back (op_deposit {| dp_amount := amount a;
    dp_condition := mk_condition (asset_id a) 0 (withdraw_with_multisig (ms_required info) (ms_owners info) None) |}) t).

(** [deposit_operation( owner, amount, slate_id )]. *)
Definition new_deposit (owner : address) (a : asset) (slate : Z) : result deposit_operation :=
  _ <- fc_assert (0 <? amount a) ;;
  Ok {| dp_amount := amount a; dp_condition := signature_condition owner (asset_id a) slate |}.

Definition deposit_to_address (a : asset) (recipient : address) t : result signed_transaction :=
  op <- new_deposit recipient a 0 ;; Ok (emplace_back (op_deposit op) t).

Definition deposit_with_encrypted_memo (a : asset) (sender : private_key) (recipient : public_key) (one_time : private_key)
    (memo : string) (stealth_deposit : bool) t : result (public_key * signed_transaction) :=
  ck <- encrypt_memo_data one_time recipient sender memo stealth_deposit ;; let '(condition, k) := ck in
  Ok (k, emplace_back (op_deposit {| dp_amount := amount a; dp_condition := mk_condition (asset_id a) 0 condition |}) t).

Definition release_escrow (escrow_account released_by : address) (to_sender to_receiver : Z) t : signed_transaction :=
  emplace_back (op_release_escrow {| re_escrow_id := escrow_account; re_released_by := released_by;
    re_amount_to_receiver := to_receiver; re_amount_to_sender := to_sender |}) t.

(** The public key of the memo and its type are not used. *)
Definition deposit_to_escrow (receiver escrow : public_key) (agreement : Z) (a : asset) (from : private_key) (memo : string)
    (one_time : private_key) t : result (public_key * signed_transaction) :=
  ck <- encrypt_escrow_memo one_time receiver from memo (key_address escrow) agreement ;; let '(condition, k) := ck in
  Ok (k, emplace_back (op_deposit {| dp_amount := amount a; dp_condition := mk_condition (asset_id a) 0 condition |}) t).

Definition register_account (name public_data : string) (master active : public_key) (pay_rate : Z) (info : option account_meta_info) t
    : signed_transaction :=
  emplace_back (op_register_account {| ra_name := name; ra_public_data := public_data; ra_owner_key := master;
    ra_active_key := active; ra_delegate_pay_rate := pay_rate; ra_meta_data := info |}) t.

Definition update_account (account : account_id) (delegate_pay_rate : Z) (public_data : option string) (active : option public_key) t
    : signed_transaction :=
  emplace_back (op_update_account {| ua_account_id := account; ua_public_data := public_data; ua_active_key := active;
    ua_delegate_pay_rate := delegate_pay_rate |}) t.

(** The public data of the asset is left null. *)
Definition create_asset (symbol name description : string) (issuer_type : Z) (issuer_id : account_id)
    (max_supply precision initial_supply initial_collateral : Z) t : signed_transaction :=
  emplace_back (op_create_asset {| ca_symbol := symbol; ca_name := name; ca_description := description; ca_public_data := "";
    ca_issuer_type := issuer_type; ca_issuer_id := issuer_id; ca_maximum_share_supply := max_supply; ca_precision := precision;
    ca_initial_supply := initial_supply; ca_initial_collateral := initial_collateral |}) t.

Definition buy_chips (quantity : asset) (owner : address) t : result signed_transaction :=
  _ <- fc_assert (0 <? amount quantity) ;;
  Ok (emplace_back (op_buy_chips {| bc_amount := quantity; bc_owner := owner |}) t).

Definition publish_feed (feed_id : Z) (delegate_id : account_id) (value : option price) t : signed_transaction :=
  emplace_back (op_update_feed {| uf_quote_id := feed_id; uf_delegate_id := delegate_id; uf_value := value |}) t.

Definition update_signing_key (account : account_id) (signing_key : public_key) t : signed_transaction :=
  emplace_back (op_update_signing_key {| us_account_id := account; us_signing_key := signing_key |}) t.

Definition update_balance_vote (balance_id : address) (new_restricted_owner : option address) t : signed_transaction :=
  emplace_back (op_update_balance_vote {| uv_balance_id := balance_id; uv_new_restricted_owner := new_restricted_owner;
    uv_new_slate := 0 |}) t.

Definition limit_fee (max_fee : asset) t : signed_transaction := emplace_back (op_limit_fee max_fee) t.

(** The votes of the deposits of the base asset and of the updates. *)
Definition with_slate (slate : Z) (op : operation) : operation :=
  match op with
  | op_deposit o =>
      if wc_asset_id (dp_condition o) =? 0 then
        op_deposit {| dp_amount := dp_amount o; dp_condition := mk_condition (wc_asset_id (dp_condition o)) slate (wc_data (dp_condition o)) |}
      else op
  | op_update_balance_vote o =>
      op_update_balance_vote {| uv_balance_id := uv_balance_id o; uv_new_restricted_owner := uv_new_restricted_owner o; uv_new_slate := slate |}
  | _ => op
  end.
Definition set_slates (slate : Z) t : signed_transaction := set_operations (map (with_slate slate) (tx_operations t)) t.

Definition is_cancel t : bool :=
  existsb (fun op => match op with op_bid o | op_ask o => mo_amount o <? 0 | _ => false end) (tx_operations t).

Definition uia_issue (a : asset) t : signed_transaction := emplace_back (op_issue_asset a) t.
(** Collected fees are issued with the negated id. *)
Definition uia_withdraw_fees (a : asset) t : signed_transaction :=
  emplace_back (op_issue_asset (mk_asset (amount a) (- asset_id a))) t.
Definition uia_update_authority_flag_permissions (id permissions : Z) t : signed_transaction :=
  emplace_back (op_asset_update_permissions {| am_asset_id := id; am_authority := None;
    am_authority_flag_permissions := Some permissions; am_active_flags := None |}) t.
Definition uia_update_active_flags (id active_flags : Z) t : signed_transaction :=
  emplace_back (op_asset_update_permissions {| am_asset_id := id; am_authority := None;
    am_authority_flag_permissions := None; am_active_flags := Some active_flags |}) t.
Definition uia_add_to_whitelist (id : Z) (owner : address) t : signed_transaction :=
  emplace_back (op_asset_update_whitelist {| aw_asset_id := id; aw_owner := owner |}) t.
Definition uia_remove_from_whitelist (id : Z) (owner : address) t : signed_transaction :=
  emplace_back (op_asset_update_whitelist {| aw_asset_id := - id; aw_owner := owner |}) t.
End building.
