(* ===== verification/ChainInterface.v ===== *)
(** The abstract chain state: [chain_interface] and the database interfaces it
    inherits (chain_interface.hpp/.cpp, the [lookup]/[store]/[remove] functions
    of the [*_record.cpp] files).

    The virtual functions are the class [chain_interface]; what an
    implementation promises is the class [chain_spec]: every table behaves as
    one finite map, the [flat] view of the table. *)

From S2P Require Import Prelude Asset Records.

(** ** Tables and secondary indexes *)

Inductive table :=
  | property_t | account_t | asset_t | slate_t | balance_t | transaction_t | burn_t | ad_t
  | note_t | packet_t | operation_reward_t | feed_t | slot_t | game_t.

#[export] Instance table_eq_dec : EqDecision table.
Proof. solve_decision. Defined.

Definition key_of (t : table) : Type :=
  match t with burn_t | ad_t | note_t | feed_t | slot_t => Z * Z | _ => Z end.

#[export] Instance key_eq_dec t : EqDecision (key_of t) :=
  match t with
  | burn_t | ad_t | note_t | feed_t | slot_t => (_ : EqDecision (Z * Z))
  | _ => (_ : EqDecision Z)
  end.

#[export] Instance key_countable t : Countable (key_of t) :=
  match t with
  | burn_t | ad_t | note_t | feed_t | slot_t => (_ : Countable (Z * Z))
  | _ => (_ : Countable Z)
  end.

Definition val_of (t : table) : Type :=
  match t with
  | property_t => property_value
  | account_t => account_record
  | asset_t => asset_record
  | slate_t => slate_record
  | balance_t => balance_record
  | transaction_t => transaction_record
  | burn_t => burn_record
  | ad_t => ad_record
  | note_t => note_record
  | packet_t => packet_record
  | operation_reward_t => operation_reward_record
  | feed_t => feed_record
  | slot_t => slot_record
  | game_t => game_record
  end.

(** Maps from a name, an address, a symbol or a timestamp to an id. *)
Inductive index := account_name_i | account_address_i | asset_symbol_i | game_name_i | slot_timestamp_i.

#[export] Instance index_eq_dec : EqDecision index.
Proof. solve_decision. Defined.

Definition ikey_of (i : index) : Type :=
  match i with account_name_i | asset_symbol_i | game_name_i => string | _ => Z end.

#[export] Instance ikey_eq_dec i : EqDecision (ikey_of i) :=
  match i with
  | account_name_i | asset_symbol_i | game_name_i => (_ : EqDecision string)
  | _ => (_ : EqDecision Z)
  end.
#[export] Instance ikey_countable i : Countable (ikey_of i) :=
  match i with
  | account_name_i | asset_symbol_i | game_name_i => (_ : Countable string)
  | _ => (_ : Countable Z)
  end.

Definition indexed_table (i : index) : table :=
  match i with
  | account_name_i | account_address_i => account_t
  | asset_symbol_i => asset_t
  | game_name_i => game_t
  | slot_timestamp_i => slot_t
  end.

(** The primary key an index entry stands for. *)
Definition indexed_key (i : index) : ikey_of i -> Z -> key_of (indexed_table i) :=
  match i with
  | slot_timestamp_i => fun timestamp delegate => (delegate, timestamp)
  | account_name_i | account_address_i | asset_symbol_i | game_name_i => fun _ id => id
  end.

(** The id of a record, by which [lookup] by index checks for removal. *)
Definition record_key (i : index) : val_of (indexed_table i) -> key_of (indexed_table i) :=
  match i with
  | account_name_i | account_address_i => ac_id
  | asset_symbol_i => as_id
  | game_name_i => gm_id
  | slot_timestamp_i => fun r => (sl_delegate_id r, sl_timestamp r)
  end.

(** Ordered sets of (value, id): delegates by votes and accounts by reputation. *)
Inductive ranking := vote_set | rp_set.

(** The values of the function-local statics of [get_chain_id] and
    [get_statistics_enabled], set by their first calls. *)
Class Statics := { static_chain_id : Z; static_statistics : bool }.

(** ** The virtual functions *)

Class chain_interface (S : Type) := {
  record_lookup : forall t, S -> key_of t -> option (val_of t);
  record_insert : forall t, key_of t -> val_of t -> S -> S;
  record_erase : forall t, key_of t -> S -> S;
  index_lookup : forall i, S -> ikey_of i -> result (option (val_of (indexed_table i)));
  index_insert : forall i, ikey_of i -> Z -> S -> S;
  index_erase : forall i, ikey_of i -> S -> S;
  ranking_insert : ranking -> Z * Z -> S -> S;
  ranking_erase : ranking -> Z * Z -> S -> S;
  unique_insert : signed_transaction -> S -> S;
  unique_erase : signed_transaction -> S -> S;
  is_known_transaction : S -> signed_transaction -> bool;
  chain_now : S -> time;
  get_head_block_num : S -> Z;
  get_active_feed_price : S -> Z -> result (option price);
  set_market_dirty : Z -> Z -> S -> result S;
  get_bid_record : S -> market_index_key -> option order_record;
  get_ask_record : S -> market_index_key -> option order_record;
  store_bid_record : market_index_key -> order_record -> S -> S;
  store_ask_record : market_index_key -> order_record -> S -> S;
  get_market_status : S -> Z * Z -> option market_status;
  store_market_status : market_status -> S -> S;
  get_market_history_record : S -> market_history_key -> option market_history_record;
  store_market_history_record : market_history_key -> market_history_record -> S -> S;
  set_market_transactions : list market_transaction -> S -> S
}.

(** ** The specification

    [flat t s] is the content of table [t] that lookups observe. Inserting and
    erasing act on it as on a finite map, and nothing else changes it. *)

Class chain_spec (S : Type) `{chain_interface S} := {
  flat : forall t, S -> gmap (key_of t) (val_of t);
  flat_lookup : forall t s k, record_lookup t s k = flat t s !! k;
  flat_insert : forall t s k v, flat t (record_insert t k v s) = <[k := v]> (flat t s);
  flat_insert_ne : forall t t' s k v, t <> t' -> flat t' (record_insert t k v s) = flat t' s;
  flat_erase : forall t s k, flat t (record_erase t k s) = delete k (flat t s);
  flat_erase_ne : forall t t' s k, t <> t' -> flat t' (record_erase t k s) = flat t' s;
  flat_index_insert : forall t i k v s, flat t (index_insert i k v s) = flat t s;
  flat_index_erase : forall t i k s, flat t (index_erase i k s) = flat t s;
  flat_ranking_insert : forall t w v s, flat t (ranking_insert w v s) = flat t s;
  flat_ranking_erase : forall t w v s, flat t (ranking_erase w v s) = flat t s;
  flat_unique_insert : forall t x s, flat t (unique_insert x s) = flat t s;
  flat_unique_erase : forall t x s, flat t (unique_erase x s) = flat t s;
  flat_market_dirty : forall t q b s s', set_market_dirty q b s = Ok s' -> flat t s' = flat t s;
  flat_store_bid : forall t k o s, flat t (store_bid_record k o s) = flat t s;
  flat_store_ask : forall t k o s, flat t (store_ask_record k o s) = flat t s;
  flat_store_status : forall t x s, flat t (store_market_status x s) = flat t s;
  flat_store_history : forall t k x s, flat t (store_market_history_record k x s) = flat t s;
  flat_market_transactions : forall t l s, flat t (set_market_transactions l s) = flat t s;
  now_record_insert : forall t s k v, chain_now (record_insert t k v s) = chain_now s
}.

#[global] Arguments flat : simpl never.

Create Rewrite HintDb chain.
#[export] Hint Rewrite @flat_index_insert @flat_index_erase @flat_ranking_insert @flat_ranking_erase
  @flat_unique_insert @flat_unique_erase @flat_store_bid @flat_store_ask
  @flat_store_status @flat_store_history @flat_market_transactions : chain.

(** ** Records over the interface *)

Section interface.
Context {S : Type} `{CI : chain_interface S} `{Cr : Crypto} `{St : Statics}.

(** [balance_record::lookup], [store] and [remove]. *)
Definition balance_record_lookup (db : S) (id : Z) : option balance_record := record_lookup balance_t db id.
Definition balance_record_store (id : Z) (record : balance_record) (db : S) : S := record_insert balance_t id record db.
Definition balance_record_remove (id : Z) (db : S) : S :=
  match balance_record_lookup db id with
  | Some _ => record_erase balance_t id db
  | None => db
  end.

(** [slate_record::lookup], [store] and [remove]. *)
Definition slate_record_lookup (db : S) (id : Z) : option slate_record := record_lookup slate_t db id.
Definition slate_record_store (id : Z) (record : slate_record) (db : S) : S := record_insert slate_t id record db.
Definition slate_record_remove (id : Z) (db : S) : S :=
  match slate_record_lookup db id with
  | Some _ => record_erase slate_t id db
  | None => db
  end.

(** [burn_record::lookup], [store] and [remove]. *)
Definition burn_record_lookup (db : S) (id : Z * Z) : option burn_record := record_lookup burn_t db id.
Definition burn_record_store (id : Z * Z) (record : burn_record) (db : S) : S := record_insert burn_t id record db.
Definition burn_record_remove (id : Z * Z) (db : S) : S :=
  match burn_record_lookup db id with
  | Some _ => record_erase burn_t id db
  | None => db
  end.

(** [ad_record::lookup], [store] and [remove]. *)
Definition ad_record_lookup (db : S) (id : Z * Z) : option ad_record := record_lookup ad_t db id.
Definition ad_record_store (id : Z * Z) (record : ad_record) (db : S) : S := record_insert ad_t id record db.
Definition ad_record_remove (id : Z * Z) (db : S) : S :=
  match ad_record_lookup db id with
  | Some _ => record_erase ad_t id db
  | None => db
  end.

(** [note_record::lookup], [store] and [remove]. *)
Definition note_record_lookup (db : S) (id : Z * Z) : option note_record := record_lookup note_t db id.
Definition note_record_store (id : Z * Z) (record : note_record) (db : S) : S := record_insert note_t id record db.
Definition note_record_remove (id : Z * Z) (db : S) : S :=
  match note_record_lookup db id with
  | Some _ => record_erase note_t id db
  | None => db
  end.

(** [packet_record::lookup], [store] and [remove]. *)
Definition packet_record_lookup (db : S) (id : Z) : option packet_record := record_lookup packet_t db id.
Definition packet_record_store (id : Z) (record : packet_record) (db : S) : S := record_insert packet_t id record db.
Definition packet_record_remove (id : Z) (db : S) : S :=
  match packet_record_lookup db id with
  | Some _ => record_erase packet_t id db
  | None => db
  end.

(** [operation_reward_record::lookup], [store] and [remove]. *)
Definition operation_reward_record_lookup (db : S) (id : Z) : option operation_reward_record := record_lookup operation_reward_t db id.
Definition operation_reward_record_store (id : Z) (record : operation_reward_record) (db : S) : S := record_insert operation_reward_t id record db.
Definition operation_reward_record_remove (id : Z) (db : S) : S :=
  match operation_reward_record_lookup db id with
  | Some _ => record_erase operation_reward_t id db
  | None => db
  end.

(** [feed_record::lookup], [store] and [remove]. *)
Definition feed_record_lookup (db : S) (id : Z * Z) : option feed_record := record_lookup feed_t db id.
Definition feed_record_store (id : Z * Z) (record : feed_record) (db : S) : S := record_insert feed_t id record db.
Definition feed_record_remove (id : Z * Z) (db : S) : S :=
  match feed_record_lookup db id with
  | Some _ => record_erase feed_t id db
  | None => db
  end.

(** [property_record::lookup], [store] and [remove]. *)
Definition property_record_lookup (db : S) (id : Z) : option property_value := record_lookup property_t db id.
Definition property_record_store (id : Z) (record : property_value) (db : S) : S := record_insert property_t id record db.
Definition property_record_remove (id : Z) (db : S) : S :=
  match property_record_lookup db id with
  | Some _ => record_erase property_t id db
  | None => db
  end.

(** [asset_record]: the symbol index follows the record. *)
Definition asset_record_lookup (db : S) (id : Z) : option asset_record := record_lookup asset_t db id.
Definition asset_record_lookup_by_symbol (db : S) (symbol : string) : result (option asset_record) :=
  index_lookup asset_symbol_i db symbol.

Definition asset_record_store (id : Z) (record : asset_record) (db : S) : S :=
  let db :=
    match asset_record_lookup db id with
    | Some prev =>
        if bool_decide (as_symbol prev = as_symbol record) then db
        else index_erase asset_symbol_i (as_symbol prev) db
    | None => db
    end in
  index_insert asset_symbol_i (as_symbol record) id (record_insert asset_t id record db).

Definition asset_record_remove (id : Z) (db : S) : S :=
  match asset_record_lookup db id with
  | Some prev => index_erase asset_symbol_i (as_symbol prev) (record_erase asset_t id db)
  | None => db
  end.

(** [game_record]. *)
Definition game_record_lookup (db : S) (id : Z) : option game_record := record_lookup game_t db id.
Definition game_record_lookup_by_name (db : S) (name : string) : result (option game_record) :=
  index_lookup game_name_i db name.

Definition game_record_store (id : Z) (record : game_record) (db : S) : S :=
  let db :=
    match game_record_lookup db id with
    | Some prev =>
        if bool_decide (gm_name prev = gm_name record) then db
        else index_erase game_name_i (gm_name prev) db
    | None => db
    end in
  index_insert game_name_i (gm_name record) id (record_insert game_t id record db).

Definition game_record_remove (id : Z) (db : S) : S :=
  match game_record_lookup db id with
  | Some prev => index_erase game_name_i (gm_name prev) (record_erase game_t id db)
  | None => db
  end.

(** [slot_record], kept only when statistics are enabled. *)
Definition slot_record_lookup (db : S) (id : Z * Z) : option slot_record := record_lookup slot_t db id.
Definition slot_record_lookup_by_timestamp (db : S) (timestamp : time) : result (option slot_record) :=
  if static_statistics then index_lookup slot_timestamp_i db timestamp else Ok None.

Definition slot_record_store (id : Z * Z) (record : slot_record) (db : S) : S :=
  if negb static_statistics then db
  else
    let db :=
      match slot_record_lookup db id with
      | Some prev =>
          if sl_timestamp prev =? snd id then db else index_erase slot_timestamp_i (sl_timestamp prev) db
      | None => db
      end in
    index_insert slot_timestamp_i (snd id) (fst id) (record_insert slot_t id record db).

Definition slot_record_remove (id : Z * Z) (db : S) : S :=
  if negb static_statistics then db
  else
    match slot_record_lookup db id with
    | Some prev => index_erase slot_timestamp_i (sl_timestamp prev) (record_erase slot_t id db)
    | None => db
    end.

(** [transaction_record]. *)
Definition transaction_record_lookup (db : S) (id : transaction_id) : option transaction_record :=
  record_lookup transaction_t db id.
Definition transaction_record_store (id : transaction_id) (record : transaction_record) (db : S) : S :=
  unique_insert (tr_trx record) (record_insert transaction_t id record db).
Definition transaction_record_remove (id : transaction_id) (db : S) : S :=
  match transaction_record_lookup db id with
  | Some prev => unique_erase (tr_trx prev) (record_erase transaction_t id db)
  | None => db
  end.

(** [account_record]: the name, the owner, active and signing addresses, and
    the vote and reputation rankings follow the record. *)
Definition account_record_lookup (db : S) (id : account_id) : option account_record :=
  record_lookup account_t db id.
Definition account_record_lookup_by_name (db : S) (name : string) : result (option account_record) :=
  index_lookup account_name_i db name.
Definition account_record_lookup_by_address (db : S) (addr : address) : result (option account_record) :=
  index_lookup account_address_i db addr.

Definition erase_key_addresses (keys : list (Z * public_key)) (db : S) : S :=
  foldl (fun db item => index_erase account_address_i (key_address (snd item)) db) db keys.

Definition insert_key_addresses (keys : list (Z * public_key)) (id : account_id) (db : S) : S :=
  foldl (fun db item =>
    if snd item =? null_key then db else index_insert account_address_i (key_address (snd item)) id db) db keys.

(** The part of [account_record::store] that retracts the index entries of
    the previous record. *)
Definition account_store_retract (prev record : account_record) (db : S) : result S :=
  let db := if bool_decide (ac_name prev = ac_name record) then db
            else index_erase account_name_i (ac_name prev) db in
  let db := if owner_address prev =? owner_address record then db
            else index_erase account_address_i (owner_address prev) db in
  prev_key <- active_key prev ;;
  key <- active_key record ;;
  let db := if prev_key =? key then db
            else erase_key_addresses (map_to_list (ac_active_key_history prev)) db in
  prev_retracted <- is_retracted prev ;;
  retracted <- is_retracted record ;;
  db <- match ac_delegate_info prev with
       | Some prev_info =>
           db <- (if negb (is_delegate record)
                 then Ok (erase_key_addresses (map_to_list (ds_signing_key_history prev_info)) db)
                 else prev_signing <- signing_key prev ;; signing <- signing_key record ;;
                      Ok (if prev_signing =? signing then db
                          else erase_key_addresses (map_to_list (ds_signing_key_history prev_info)) db)) ;;
           Ok (if negb prev_retracted
                  && (retracted || negb (is_delegate record)
                      || negb (bool_decide (ds_votes_for <$> ac_delegate_info record
                                            = Some (ds_votes_for prev_info))))
               then ranking_erase vote_set (ds_votes_for prev_info, ac_id prev) db else db)
       | None => Ok db
       end ;;
  Ok (if negb prev_retracted && (retracted || negb (ac_rp prev =? ac_rp record))
      then ranking_erase rp_set (ac_rp prev, ac_id prev) db else db).

(** The part that enters the new record. *)
Definition account_store_enter (id : account_id) (record : account_record) (db : S) : result S :=
  let db := record_insert account_t id record db in
  let db := index_insert account_name_i (ac_name record) id db in
  let db := index_insert account_address_i (owner_address record) id db in
  let db := insert_key_addresses (map_to_list (ac_active_key_history record)) id db in
  match ac_delegate_info record with
  | Some info =>
      let db := insert_key_addresses (map_to_list (ds_signing_key_history info)) id db in
      retracted <- is_retracted record ;;
      Ok (if retracted then db else ranking_insert vote_set (ds_votes_for info, id) db)
  | None => Ok db
  end.

(** [account_record::store]. *)
Definition account_record_store (id : account_id) (record : account_record) (db : S) : result S :=
  db <- match account_record_lookup db id with
       | Some prev => account_store_retract prev record db
       | None => Ok db
       end ;;
  account_store_enter id record db.

(** [account_record::remove]. *)
Definition account_record_remove (id : account_id) (db : S) : result S :=
  match account_record_lookup db id with
  | Some prev =>
      let db := record_erase account_t id db in
      let db := index_erase account_name_i (ac_name prev) db in
      let db := index_erase account_address_i (owner_address prev) db in
      let db := erase_key_addresses (map_to_list (ac_active_key_history prev)) db in
      retracted <- is_retracted prev ;;
      let db := match ac_delegate_info prev with
                | Some info =>
                    let db := erase_key_addresses (map_to_list (ds_signing_key_history info)) db in
                    if retracted then db
                    else ranking_erase vote_set (ds_votes_for info, ac_id prev) db
                | None => db
                end in
      Ok (if retracted then db else ranking_erase rp_set (ac_rp prev, ac_id prev) db)
  | None => Ok db
  end.

(** ** Accessors of [chain_interface.cpp] *)

Definition get_slate_record (db : S) (id : Z) : option slate_record := slate_record_lookup db id.
Definition store_slate_record (record : slate_record) (db : S) : S :=
  slate_record_store (slate_id record) record db.

Definition get_balance_record (db : S) (id : address) : option balance_record := balance_record_lookup db id.
Definition store_balance_record (record : balance_record) (db : S) : S :=
  balance_record_store (balance_id record) record db.

Definition get_burn_record (db : S) (id : Z * Z) : option burn_record := burn_record_lookup db id.
Definition store_burn_record (record : burn_record) (db : S) : S :=
  burn_record_store (bu_account_id record, bu_transaction_id record) record db.

Definition get_ad_record (db : S) (id : Z * Z) : option ad_record := ad_record_lookup db id.
Definition store_ad_record (record : ad_record) (db : S) : S :=
  ad_record_store (ad_account_id record, ad_transaction_id record) record db.

Definition get_note_record (db : S) (id : Z * Z) : option note_record := note_record_lookup db id.
Definition store_note_record (record : note_record) (db : S) : S :=
  note_record_store (no_account_id record, no_transaction_id record) record db.

Definition get_packet_record (db : S) (id : Z) : option packet_record := packet_record_lookup db id.
Definition store_packet_record (record : packet_record) (db : S) : S :=
  packet_record_store (pk_id record) record db.

Definition get_operation_reward_record (db : S) (id : Z) : option operation_reward_record := operation_reward_record_lookup db id.
Definition store_operation_reward_record (record : operation_reward_record) (db : S) : S :=
  operation_reward_record_store (rw_id record) record db.

Definition get_feed_record (db : S) (id : Z * Z) : option feed_record := feed_record_lookup db id.
Definition store_feed_record (record : feed_record) (db : S) : S :=
  feed_record_store (fr_quote_id record, fr_delegate_id record) record db.

Definition get_property_record (db : S) (id : Z) : option property_value := property_record_lookup db id.
Definition store_property_record (id : Z) (v : property_value) (db : S) : S := property_record_store id v db.

Definition get_account_record (db : S) (id : account_id) : option account_record := account_record_lookup db id.
Definition get_account_record_by_name (db : S) (name : string) : result (option account_record) :=
  account_record_lookup_by_name db name.
Definition get_account_record_by_address (db : S) (addr : address) : result (option account_record) :=
  account_record_lookup_by_address db addr.
Definition store_account_record (record : account_record) (db : S) : result S :=
  account_record_store (ac_id record) record db.

Definition get_asset_record (db : S) (id : Z) : option asset_record := asset_record_lookup db id.
Definition get_asset_record_by_symbol (db : S) (symbol : string) : result (option asset_record) :=
  asset_record_lookup_by_symbol db symbol.
Definition store_asset_record (record : asset_record) (db : S) : S :=
  asset_record_store (as_id record) record db.

Definition get_game_record (db : S) (id : Z) : option game_record := game_record_lookup db id.
Definition get_game_record_by_name (db : S) (name : string) : result (option game_record) :=
  game_record_lookup_by_name db name.
Definition store_game_record (record : game_record) (db : S) : S := game_record_store (gm_id record) record db.

Definition store_transaction (id : transaction_id) (record : transaction_record) (db : S) : S :=
  transaction_record_store id record db.
Definition get_transaction (db : S) (id : transaction_id) : option transaction_record :=
  transaction_record_lookup db id.

(** *** Properties *)

Definition chain_id_property : Z := 1.
Definition last_asset_id_property : Z := 2.
Definition last_account_id_property : Z := 3.
Definition active_delegate_list_property : Z := 4.
Definition last_random_seed_property : Z := 5.
Definition last_game_id_property : Z := 8.

Definition property_as_int (v : option property_value) : result Z :=
  match v with Some (property_int v) => Ok v | _ => Throw assert_exception end.
Definition property_as_ids (v : option property_value) : result (list Z) :=
  match v with Some (property_ids v) => Ok v | _ => Throw assert_exception end.

Definition last_asset_id (db : S) : result Z := property_as_int (get_property_record db last_asset_id_property).
Definition new_asset_id (db : S) : result (Z * S) :=
  last <- last_asset_id db ;;
  Ok (last + 1, store_property_record last_asset_id_property (property_int (last + 1)) db).

Definition last_account_id (db : S) : result Z := property_as_int (get_property_record db last_account_id_property).
Definition new_account_id (db : S) : result (Z * S) :=
  last <- last_account_id db ;;
  Ok (last + 1, store_property_record last_account_id_property (property_int (last + 1)) db).

Definition last_game_id (db : S) : result Z := property_as_int (get_property_record db last_game_id_property).
Definition new_game_id (db : S) : result (Z * S) :=
  last <- last_game_id db ;;
  Ok (last + 1, store_property_record last_game_id_property (property_int (last + 1)) db).

Definition get_active_delegates (db : S) : result (list account_id) :=
  property_as_ids (get_property_record db active_delegate_list_property).
Definition set_active_delegates (l : list account_id) (db : S) : S :=
  store_property_record active_delegate_list_property (property_ids l) db.
Definition is_active_delegate (db : S) (id : account_id) : result bool :=
  l <- get_active_delegates db ;; Ok (existsb (Z.eqb id) l).

Definition statistics_enabled_property : Z := 6.
Definition dirty_markets_property : Z := 7.

(** [value] is the function's static: once set, it is returned for good. *)
Definition get_chain_id (value : option Z) (db : S) : result Z :=
  match value with
  | Some value => Ok value
  | None => property_as_int (get_property_record db chain_id_property)
  end.
Definition get_statistics_enabled (value : option bool) (db : S) : result bool :=
  match value with
  | Some value => Ok value
  | None => match get_property_record db statistics_enabled_property with
            | Some (property_bool v) => Ok v
            | _ => Throw assert_exception
            end
  end.

Definition set_dirty_markets (markets : list (Z * Z)) (db : S) : S :=
  store_property_record dirty_markets_property (property_markets markets) db.
Definition get_dirty_markets (db : S) : list (Z * Z) :=
  match get_property_record db dirty_markets_property with Some (property_markets v) => v | _ => [] end.

(** The null hash before the first block. *)
Definition get_current_random_seed (db : S) : Z :=
  match get_property_record db last_random_seed_property with Some (property_int v) => v | _ => 0 end.

(** *** Fees *)

Definition BLOCKS_PER_DAY : Z := 8640.
Definition NUM_DELEGATES : Z := 101.
Definition BLOCKCHAIN_PRECISION : Z := 100000.

Definition get_max_delegate_pay_issued_per_block (db : S) : result Z :=
  base <- from_option_or assert_exception (get_asset_record db 0) ;;
  Ok (div64 (as_collected_fees base) (BLOCKS_PER_DAY * 14)).

Definition get_delegate_registration_fee (db : S) (pay_rate : Z) : result Z :=
  if pay_rate =? 0 then Ok 0
  else
    let blocks_per_two_weeks := 14 * BLOCKS_PER_DAY in
    pay <- get_max_delegate_pay_issued_per_block db ;;
    let max_total_pay_per_two_weeks := blocks_per_two_weeks *! pay in
    let max_pay_per_two_weeks := div64 max_total_pay_per_two_weeks NUM_DELEGATES in
    Ok (div64 (max_pay_per_two_weeks *! pay_rate) 100).

Definition get_asset_registration_fee (symbol_length : Z) : Z :=
  let long_symbol_price := 5000 * BLOCKCHAIN_PRECISION in
  let short_symbol_price := 100 * long_symbol_price in
  if symbol_length <=? 5 then short_symbol_price else long_symbol_price.

Definition get_account_registration_fee (name_length : Z) : Z :=
  if 6 <? name_length then 1 * BLOCKCHAIN_PRECISION
  else if (4 <? name_length) && (name_length <=? 6) then 1000 * BLOCKCHAIN_PRECISION
  else if (1 <? name_length) && (name_length <=? 4) then 10000 * BLOCKCHAIN_PRECISION
  else 100000 * BLOCKCHAIN_PRECISION.

(** The loop multiplies by ten [7 - name_length] times. *)
Fixpoint times_ten (len : nat) (v : Z) : Z :=
  match len with O => v | Datatypes.S len => times_ten len (v *! 10) end.
Definition get_game_registration_fee (name_length : Z) : Z :=
  if 6 <? name_length then 1 * BLOCKCHAIN_PRECISION
  else times_ten (Z.to_nat (uwrap8 (7 - name_length))) (1 * BLOCKCHAIN_PRECISION).
End interface.

(** ** [store] and [remove] by table

    The templates [chain_interface::store] and [chain_interface::remove]. *)

Section by_table.
Context {S : Type} `{CI : chain_interface S} `{Cr : Crypto} `{St : Statics}.

Definition store (t : table) : key_of t -> val_of t -> S -> result S :=
  match t with
  | property_t => fun id r db => Ok (property_record_store id r db)
  | account_t => fun id r db => account_record_store id r db
  | asset_t => fun id r db => Ok (asset_record_store id r db)
  | slate_t => fun id r db => Ok (slate_record_store id r db)
  | balance_t => fun id r db => Ok (balance_record_store id r db)
  | transaction_t => fun id r db => Ok (transaction_record_store id r db)
  | burn_t => fun id r db => Ok (burn_record_store id r db)
  | ad_t => fun id r db => Ok (ad_record_store id r db)
  | note_t => fun id r db => Ok (note_record_store id r db)
  | packet_t => fun id r db => Ok (packet_record_store id r db)
  | operation_reward_t => fun id r db => Ok (operation_reward_record_store id r db)
  | feed_t => fun id r db => Ok (feed_record_store id r db)
  | slot_t => fun id r db => Ok (slot_record_store id r db)
  | game_t => fun id r db => Ok (game_record_store id r db)
  end.

Definition remove (t : table) : key_of t -> S -> result S :=
  match t with
  | property_t => fun id db => Ok (property_record_remove id db)
  | account_t => fun id db => account_record_remove id db
  | asset_t => fun id db => Ok (asset_record_remove id db)
  | slate_t => fun id db => Ok (slate_record_remove id db)
  | balance_t => fun id db => Ok (balance_record_remove id db)
  | transaction_t => fun id db => Ok (transaction_record_remove id db)
  | burn_t => fun id db => Ok (burn_record_remove id db)
  | ad_t => fun id db => Ok (ad_record_remove id db)
  | note_t => fun id db => Ok (note_record_remove id db)
  | packet_t => fun id db => Ok (packet_record_remove id db)
  | operation_reward_t => fun id db => Ok (operation_reward_record_remove id db)
  | feed_t => fun id db => Ok (feed_record_remove id db)
  | slot_t => fun id db => Ok (slot_record_remove id db)
  | game_t => fun id db => Ok (game_record_remove id db)
  end.

(** Slots are dropped when statistics are disabled. *)
Definition tracked (t : table) : bool := match t with slot_t => static_statistics | _ => true end.
End by_table.

(** ** Views of the tables

    A view [W] of the tables of a state follows insertion and erasure in a
    table and ignores everything else: the flat contents of the tables and the
    overlays of a pending state are two views. *)

Class table_view (S : Type) `{chain_interface S} (W : table -> Type) := {
  view : forall t, S -> W t;
  view_put : forall t, key_of t -> val_of t -> W t -> W t;
  view_del : forall t, key_of t -> W t -> W t;
  view_insert : forall t s k v, view t (record_insert t k v s) = view_put t k v (view t s);
  view_insert_ne : forall t t' s k v, t <> t' -> view t' (record_insert t k v s) = view t' s;
  view_erase : forall t s k, view t (record_erase t k s) = view_del t k (view t s);
  view_erase_ne : forall t t' s k, t <> t' -> view t' (record_erase t k s) = view t' s;
  view_index_insert : forall t i k v s, view t (index_insert i k v s) = view t s;
  view_index_erase : forall t i k s, view t (index_erase i k s) = view t s;
  view_ranking_insert : forall t w v s, view t (ranking_insert w v s) = view t s;
  view_ranking_erase : forall t w v s, view t (ranking_erase w v s) = view t s;
  view_unique_insert : forall t x s, view t (unique_insert x s) = view t s;
  view_unique_erase : forall t x s, view t (unique_erase x s) = view t s;
  view_store_bid : forall t k o s, view t (store_bid_record k o s) = view t s;
  view_store_ask : forall t k o s, view t (store_ask_record k o s) = view t s
}.

(** The contents of the tables, as a view. *)
#[export] Instance flat_view {S : Type} `{CI : chain_interface S} `{!chain_spec S} :
  table_view S (fun t => gmap (key_of t) (val_of t)).
Proof.
  refine {| view := flat; view_put := fun t k v m => <[k := v]> m; view_del := fun t k m => delete k m |};
    apply chain_spec0.
Defined.

Section views.
Context {S : Type} `{CI : chain_interface S} `{Cr : Crypto} `{St : Statics}.
Context {W : table -> Type} `{!table_view S W}.

Definition same_tables (db db' : S) : Prop := forall t, view t db' = view t db.

Lemma same_refl db : same_tables db db.
Proof. done. Qed.
Lemma same_if (b : bool) db x y : same_tables db x -> same_tables db y -> same_tables db (if b then x else y).
Proof. by destruct b. Qed.
Lemma same_index_insert i k v db x : same_tables db x -> same_tables db (index_insert i k v x).
Proof. intros H t. rewrite view_index_insert. apply H. Qed.
Lemma same_index_erase i k db x : same_tables db x -> same_tables db (index_erase i k x).
Proof. intros H t. rewrite view_index_erase. apply H. Qed.
Lemma same_ranking_insert w v db x : same_tables db x -> same_tables db (ranking_insert w v x).
Proof. intros H t. rewrite view_ranking_insert. apply H. Qed.
Lemma same_ranking_erase w v db x : same_tables db x -> same_tables db (ranking_erase w v x).
Proof. intros H t. rewrite view_ranking_erase. apply H. Qed.

Lemma same_erase_keys keys db x : same_tables db x -> same_tables db (erase_key_addresses keys x).
Proof.
  unfold erase_key_addresses. revert x. induction keys; simpl; intros x Hx; [ done | ].
  apply IHkeys, same_index_erase, Hx.
Qed.
Lemma same_insert_keys keys id db x : same_tables db x -> same_tables db (insert_key_addresses keys id x).
Proof.
  unfold insert_key_addresses. revert x. induction keys; simpl; intros x Hx; [ done | ].
  apply IHkeys, same_if; [ done | ]. apply same_index_insert, Hx.
Qed.
End views.

Ltac same_solve :=
  repeat first [ apply same_refl | apply same_if | apply same_index_insert | apply same_index_erase
               | apply same_ranking_insert | apply same_ranking_erase | apply same_erase_keys
               | apply same_insert_keys | assumption ].

Section store_views.
Context {S : Type} `{CI : chain_interface S} `{Cr : Crypto} `{St : Statics}.
Context {W : table -> Type} `{!table_view S W}.

Lemma account_store_retract_same prev record db db' :
  account_store_retract prev record db = Ok db' -> same_tables db db'.
Proof.
  unfold account_store_retract. intros H. inv_ok. apply same_if; [ apply same_ranking_erase | ];
    (destruct (ac_delegate_info prev); [ | inv_ok; same_solve ];
     destruct (negb (is_delegate record)); inv_ok; same_solve).
Qed.

Lemma account_store_enter_same id record db db' :
  account_store_enter id record db = Ok db' -> same_tables (record_insert account_t id record db) db'.
Proof.
  unfold account_store_enter. intros H. destruct (ac_delegate_info record); inv_ok; same_solve.
Qed.

Lemma account_store_view id record db db' :
  account_record_store id record db = Ok db' ->
  view account_t db' = view_put account_t id record (view account_t db)
  /\ forall t, t <> account_t -> view t db' = view t db.
Proof.
  unfold account_record_store. intros H. inv_ok.
  assert (Ha' : same_tables db a).
  { case_match; inv_ok; [ by eapply account_store_retract_same | apply same_refl ]. }
  apply account_store_enter_same in H. split.
  - rewrite H, view_insert, Ha'. done.
  - intros t Ht. rewrite H, view_insert_ne by done. apply Ha'.
Qed.

Lemma account_remove_view id db db' :
  account_record_remove id db = Ok db' ->
  view account_t db' = match record_lookup account_t db id with
                      | Some _ => view_del account_t id (view account_t db)
                      | None => view account_t db
                      end
  /\ forall t, t <> account_t -> view t db' = view t db.
Proof.
  unfold account_record_remove, account_record_lookup. intros H.
  destruct (record_lookup account_t db id) as [prev|]; inv_ok; [ | done ].
  match goal with |- view _ ?x = _ /\ _ => assert (Hs : same_tables (record_erase account_t id db) x) end.
  { apply same_if; destruct (ac_delegate_info prev); same_solve. }
  split.
  - by rewrite Hs, view_erase.
  - intros t Ht. by rewrite Hs, view_erase_ne.
Qed.

(** [store] puts the record in its table and changes no other. *)
Lemma store_view t k v db db' :
  store t k v db = Ok db' -> tracked t = true ->
  view t db' = view_put t k v (view t db) /\ forall t', t' <> t -> view t' db' = view t' db.
Proof.
  destruct t; simpl; intros H Ht; [ | by apply account_store_view | .. ]; inv_ok;
    unfold slot_record_store; try rewrite Ht; simpl;
    (split; [ | intros t' Hne ]);
    unfold property_record_store, asset_record_store, slate_record_store, balance_record_store,
      transaction_record_store, burn_record_store, ad_record_store, note_record_store,
      packet_record_store, operation_reward_record_store, feed_record_store, game_record_store;
    repeat case_match;
    rewrite ?view_index_insert, ?view_unique_insert;
    rewrite ?view_insert, ?view_insert_ne by congruence; rewrite ?view_index_erase; done.
Qed.

Lemma remove_view t k db db' :
  remove t k db = Ok db' -> tracked t = true ->
  view t db' = match record_lookup t db k with
                | Some _ => view_del t k (view t db)
                | None => view t db
                end
  /\ forall t', t' <> t -> view t' db' = view t' db.
Proof.
  destruct t; simpl; intros H Ht; [ | by apply account_remove_view | .. ]; inv_ok;
    unfold slot_record_remove; try rewrite Ht; simpl;
    (split; [ | intros t' Hne ]);
    unfold property_record_remove, asset_record_remove, slate_record_remove, balance_record_remove,
      transaction_record_remove, burn_record_remove, ad_record_remove, note_record_remove,
      packet_record_remove, operation_reward_record_remove, feed_record_remove, game_record_remove,
      property_record_lookup, asset_record_lookup, slate_record_lookup, balance_record_lookup,
      transaction_record_lookup, burn_record_lookup, ad_record_lookup, note_record_lookup,
      packet_record_lookup, operation_reward_record_lookup, feed_record_lookup, game_record_lookup,
      slot_record_lookup;
    repeat case_match; simplify_eq;
    rewrite ?view_index_erase, ?view_unique_erase;
    rewrite ?view_erase, ?view_erase_ne by congruence; done.
Qed.

(** Untracked tables are left alone. *)
Lemma store_untracked t k v db : tracked t = false -> store t k v db = Ok db.
Proof. destruct t; try done. simpl. unfold slot_record_store. intros ->. done. Qed.
Lemma remove_untracked t k db : tracked t = false -> remove t k db = Ok db.
Proof. destruct t; try done. simpl. unfold slot_record_remove. intros ->. done. Qed.
End store_views.

(** On the contents of the tables [store] is insertion and [remove] deletion. *)
Section store_flat.
Context {S : Type} `{CI : chain_interface S} `{!chain_spec S} `{Cr : Crypto} `{St : Statics}.

Lemma store_flat t k v db db' :
  store t k v db = Ok db' -> tracked t = true ->
  flat t db' = <[k := v]> (flat t db) /\ forall t', t' <> t -> flat t' db' = flat t' db.
Proof. exact (store_view (W := fun t => gmap (key_of t) (val_of t)) t k v db db'). Qed.

Lemma remove_flat t k db db' :
  remove t k db = Ok db' -> tracked t = true ->
  flat t db' = delete k (flat t db) /\ forall t', t' <> t -> flat t' db' = flat t' db.
Proof.
  intros H Ht. apply (remove_view (W := fun t => gmap (key_of t) (val_of t))) in H as [H1 H2]; [ | done ].
  split; [ | done ]. simpl in H1. rewrite H1, flat_lookup. destruct (flat t db !! k) eqn:E; [ done | ].
  by rewrite delete_id.
Qed.
End store_flat.
