(* ===== verification/AmountText.v ===== *)
(** Amounts and prices as text (asset.cpp, asset_record.cpp,
    chain_interface.cpp): decimal fractions in the units of an asset.

    A string is the list of its characters. [fc::to_pretty_string], which groups
    the digits of a number, is a parameter. *)

From Stdlib Require Import Ascii.
From S2P Require Import Prelude Asset Names Records ChainInterface.

Class PrettyNumber := { to_pretty_string : Z -> list ascii }.

(** ** Decimal numbers *)

Definition digit_value (c : ascii) : Z := code c - 48.
Definition digit_char (d : Z) : ascii := ascii_of_nat (Z.to_nat (d + 48)).
Definition zero_char : ascii := "0"%char.
Definition space : ascii := " "%char.
Definition slash : ascii := "/"%char.

Fixpoint decimal_loop (fuel : nat) (z : Z) (acc : list ascii) : list ascii :=
  match fuel with
  | O => acc
  | S fuel => let acc := digit_char (z mod 10) :: acc in if z / 10 =? 0 then acc else decimal_loop fuel (z / 10) acc
  end.
(** [std::to_string] of a number that is not negative; a number has fewer
    decimal digits than bits. *)
Definition decimal (z : Z) : list ascii := decimal_loop (S (Z.to_nat (Z.log2 z))) z [].
Definition signed_decimal (z : Z) : list ascii := if z <? 0 then hyphen :: decimal (- z) else decimal z.

(** The digits at the beginning, and what follows. *)
Fixpoint span_digits (l : list ascii) : list ascii * list ascii :=
  match l with
  | c :: l' => if isdigit c then let '(ds, rest) := span_digits l' in (c :: ds, rest) else ([], l)
  | [] => ([], [])
  end.
Definition value (ds : list ascii) : Z := foldl (fun v c => v * 10 + digit_value c) 0 ds.

Definition isspace (c : ascii) : bool := (code c =? 32) || ((9 <=? code c) && (code c <=? 13)).
Fixpoint skip_spaces (l : list ascii) : list ascii :=
  match l with c :: l' => if isspace c then skip_spaces l' else l | [] => [] end.
Definition plus_sign : ascii := "+"%char.

(** A number with an optional sign after spaces: its digits, whether it is
    negative, and what follows. *)
Definition signed_digits (l : list ascii) : bool * list ascii * list ascii :=
  let l := skip_spaces l in
  match l with
  | c :: l' =>
      if Ascii.eqb c hyphen then let '(ds, rest) := span_digits l' in (true, ds, rest)
      else if Ascii.eqb c plus_sign then let '(ds, rest) := span_digits l' in (false, ds, rest)
      else let '(ds, rest) := span_digits l in (false, ds, rest)
  | [] => (false, [], [])
  end.

(** [std::stoll]: what follows the number is not looked at. *)
Definition stoll (l : list ascii) : result Z :=
  let '(negative, ds, _) := signed_digits l in
  if bool_decide (ds = []) then Throw std_exception
  else
    let v := if negative : bool then - value ds else value ds in
    if (INT64_MIN <=? v) && (v <=? INT64_MAX) then Ok v else Throw std_exception.

(** [string::substr( pos, count )]. *)
Definition substr (pos : nat) (count : option nat) (l : list ascii) : result (list ascii) :=
  if (length l <? pos)%nat then Throw std_exception
  else Ok (match count with Some n => take n (drop pos l) | None => drop pos l end).

(** ** Amounts (asset_record.cpp) *)

(** [std::stoull] of a one and zeros. *)
Definition share_string_to_precision_unsafe (share_string : list ascii) : result Z :=
  match find_char dot share_string with
  | Some decimal_pos =>
      let v := 10 ^ Z.of_nat (length (drop (S decimal_pos) share_string)) in
      if v <? two64 then Ok v else Throw std_exception
  | None => Ok 1
  end.

(** Digits, one minus and one point, anywhere. *)
Fixpoint check_amount (negative_found decimal_found : bool) (l : list ascii) : option (bool * bool) :=
  match l with
  | [] => Some (negative_found, decimal_found)
  | c :: l =>
      if isdigit c then check_amount negative_found decimal_found l
      else if Ascii.eqb c hyphen && negb negative_found then check_amount true decimal_found l
      else if Ascii.eqb c dot && negb decimal_found then check_amount negative_found true l
      else None
  end.

Definition MAX_SATOSHIS : Z := 1000 * 1000 * 1000 * 1000 * 1000.

(** The digits after the point, filled up with zeros. *)
Definition fraction_digits (precision : Z) (rhs : list ascii) : result (list ascii) :=
  let max_rhs_size := (length (decimal precision) - 1)%nat in
  if (max_rhs_size <? length rhs)%nat then Throw invalid_asset_amount
  else Ok (rhs ++ replicate (max_rhs_size - length rhs) zero_char).

Definition share_string_to_satoshi (share_string : list ascii) (precision : Z) : result Z :=
  match check_amount false false share_string with
  | None => Throw invalid_asset_amount
  | Some (negative_found, decimal_found) =>
      _ <- throw_unless invalid_precision (is_power_of_ten precision) ;;
      let decimal_pos := find_char dot share_string in
      lhs <- substr (if negative_found : bool then 1 else 0)%nat decimal_pos share_string ;;
      satoshis <- (if bool_decide (lhs = []) then Ok 0 else v <- stoll lhs ;; Ok (wrap64 (uwrap64 (v * precision)))) ;;
      satoshis <- (match decimal_pos with
                   | Some pos =>
                       rhs <- substr (S pos) None share_string ;;
                       rhs <- fraction_digits precision rhs ;;
                       if bool_decide (rhs = []) then Ok satoshis else v <- stoll rhs ;; Ok (satoshis +! v)
                   | None => Ok satoshis
                   end) ;;
      _ <- throw_if amount_too_large (MAX_SATOSHIS <? satoshis) ;;
      Ok (if negative_found : bool then neg64 satoshis else satoshis)
  end.

Definition asset_from_string (amount : list ascii) (r : asset_record) : result asset :=
  a <- share_string_to_satoshi amount (as_precision r) ;; Ok (mk_asset a (as_id r)).

Section amounts.
Context `{Pn : PrettyNumber}.

(** The first digit of the sum becomes the point. *)
Definition amount_digits (shares precision : Z) : list ascii :=
  let decimal := decimal (uwrap64 (precision + shares mod precision)) in
  to_pretty_string (shares / precision) ++ dot :: drop 1 decimal.
Definition amount_to_string (amount : Z) (append_symbol : bool) (r : asset_record) : result (list ascii) :=
  if as_precision r =? 0 then Throw undefined_behaviour
  else
    let shares := uwrap64 (if 0 <=? amount then amount else neg64 amount) in
    let str := amount_digits shares (as_precision r) in
    let str := if append_symbol then str ++ space :: chars (as_symbol r) else str in
    Ok (if amount <? 0 then hyphen :: str else str).
End amounts.

(** ** Prices (asset.cpp) *)

Section prices.
Context `{FcI : Fc}.

(** The digits before the point, in 64 bits; and how many they are. *)
Fixpoint ratio_int (l : list ascii) (int_part : Z) : Z * list ascii :=
  match l with
  | c :: l' => if isdigit c then ratio_int l' (uwrap64 (int_part * 10 + digit_value c)) else (int_part, l)
  | [] => (int_part, [])
  end.
(** The digits after it; more than the magnitude can count are undefined. *)
Fixpoint ratio_frac (l : list ascii) (frac_part frac_magnitude : Z) : result (Z * Z * list ascii) :=
  match l with
  | c :: l' =>
      if isdigit c then
        let part := frac_part * 10 + digit_value c in
        let magnitude := frac_magnitude * 10 in
        if (INT64_MAX <? part) || (INT64_MAX <? magnitude) then Throw undefined_behaviour else ratio_frac l' part magnitude
      else Ok (frac_part, frac_magnitude, l)
  | [] => Ok (frac_part, frac_magnitude, [])
  end.

(** The ratio and what follows. A string that begins otherwise has the ratio 0. *)
Definition set_ratio_from_string (ratio_str : list ascii) : result (Z * list ascii) :=
  let '(ratio, l) :=
    match ratio_str with
    | c :: _ => if isdigit c then let '(int_part, rest) := ratio_int ratio_str 0 in (u128 (int_part * FC_REAL128_PRECISION), rest)
                else (0, ratio_str)
    | [] => (0, [])
    end in
  match l with
  | c :: l' =>
      if Ascii.eqb c dot then
        match l' with
        | d :: _ =>
            if isdigit d then
              f <- ratio_frac l' 0 1 ;; let '(frac_part, frac_magnitude, rest) := f in
              Ok (u128 (ratio + u128 (frac_part * (FC_REAL128_PRECISION / frac_magnitude))), rest)
            else Ok (ratio, l')
        | [] => Ok (ratio, l')
        end
      else Ok (ratio, l)
  | [] => Ok (ratio, l)
  end.

(** [number.back() == '0'] is removed while it is there. *)
Fixpoint strip_zeros_rev (l : list ascii) : list ascii :=
  match l with c :: l' => if Ascii.eqb c zero_char then strip_zeros_rev l' else l | [] => [] end.
Definition strip_zeros (l : list ascii) : list ascii := rev (strip_zeros_rev (rev l)).

Definition ratio_string (ratio : Z) : list ascii :=
  strip_zeros (decimal (ratio / FC_REAL128_PRECISION) ++ dot :: drop 1 (decimal (ratio mod FC_REAL128_PRECISION + FC_REAL128_PRECISION))).

Definition price_to_string (p : price) : list ascii :=
  ratio_string (ratio p) ++ space :: signed_decimal (quote_asset_id p) ++ slash :: signed_decimal (base_asset_id p).

(** [stream >> int32]: without digits it fails and the value is 0. *)
Definition read_int32 (l : list ascii) : Z * bool * list ascii :=
  let '(negative, ds, rest) := signed_digits l in
  if bool_decide (ds = []) then (0, false, rest)
  else
    let v := if negative : bool then - value ds else value ds in
    if v <? -2147483648 then (-2147483648, false, rest)
    else if 2147483647 <? v then (2147483647, false, rest) else (v, true, rest).
(** [ss >> quote_asset_id.value >> div >> base_asset_id.value]; what is not read
    after a failure stays 0. *)
Definition read_ids (l : list ascii) : Z * Z :=
  let '(quote, ok, rest) := read_int32 l in
  if negb ok then (quote, 0)
  else
    match skip_spaces rest with
    | [] => (quote, 0)
    | _ :: rest => let '(base, _, _) := read_int32 rest in (quote, base)
    end.

Definition price_of_string (s : list ascii) : result price :=
  r <- set_ratio_from_string s ;; let '(ratio, rest) := r in
  let '(quote, base) := read_ids rest in
  _ <- fc_assert (base <? quote) ;;
  Ok (mk_price ratio base quote).
End prices.

(** ** Over the chain (chain_interface.cpp) *)

Section chain.
Context {S : Type} `{CI : chain_interface S} `{FcI : Fc} `{Pn : PrettyNumber}.
Implicit Types db : S.

Definition to_pretty_price (p : price) (include_units : bool) db : result (list ascii) :=
  base_asset <- from_option_or unknown_asset_id (get_asset_record db (base_asset_id p)) ;;
  quote_asset <- from_option_or unknown_asset_id (get_asset_record db (quote_asset_id p)) ;;
  if as_precision quote_asset =? 0 then Throw undefined_behaviour
  else
    let pretty_price := ratio_string (u128 (ratio p * as_precision base_asset) / as_precision quote_asset) in
    Ok (if include_units then pretty_price ++ space :: chars (as_symbol quote_asset) ++ chars " / " ++ chars (as_symbol base_asset)
        else pretty_price).

Definition to_ugly_asset (amount : list ascii) (symbol : string) db : result asset :=
  record <- get_asset_record_by_symbol db symbol ;;
  record <- from_option_or unknown_asset_symbol record ;;
  asset_from_string amount record.

Definition to_ugly_price (price_string : list ascii) (base_symbol quote_symbol : string) (do_precision_dance : bool) db : result price :=
  base_record <- get_asset_record_by_symbol db base_symbol ;;
  quote_record <- get_asset_record_by_symbol db quote_symbol ;;
  base_record <- from_option_or unknown_asset_symbol base_record ;;
  quote_record <- from_option_or unknown_asset_symbol quote_record ;;
  p <- price_of_string (price_string ++ space :: signed_decimal (as_id quote_record) ++ chars " / " ++ signed_decimal (as_id base_record)) ;;
  if do_precision_dance then
    if as_precision base_record =? 0 then Throw undefined_behaviour
    else Ok (mk_price (u128 (ratio p * as_precision quote_record) / as_precision base_record) (base_asset_id p) (quote_asset_id p))
  else Ok p.

Definition to_pretty_asset (a : asset) db : result (list ascii) :=
  match get_asset_record db (asset_id a) with
  | Some r => amount_to_string (amount a) true r
  | None => Ok (to_pretty_string (amount a) ++ chars " ???")
  end.
End chain.
