(* ===== verification/EvalState.v ===== *)
(** [transaction_evaluation_state]: what is tracked while a transaction is
    evaluated, and the functions of transaction_evaluation_state.cpp except the
    dispatch of the operations.

    [S] is the type of [_pending_state]. The maps only used for scanning are
    kept; the stored [validation_error] is the exception itself. *)

From Stdlib Require Import String.
From S2P Require Import Prelude Asset Names Records ChainInterface.

Record eval_state (S : Type) := mk_eval {
  es_state : S;
  es_trx : signed_transaction;
  es_signed : gset address;
  es_min_fees : gmap Z Z;
  es_max_fees : gmap Z Z;
  es_fees_paid : gmap Z Z;
  es_total_base_fees : Z;
  es_vote_deltas : gmap Z Z;
  es_yield_claimed : gmap Z Z;
  es_op_deltas : gmap Z (gmap Z Z);
  es_rp_account : option account_id;
  es_skip_signature_check : bool;
  es_enforce_canonical : bool;
  es_skip_vote_adjustment : bool;
  es_op_index : Z }.
Arguments mk_eval {S}.
Arguments es_state {S}.
Arguments es_trx {S}.
Arguments es_signed {S}.
Arguments es_min_fees {S}.
Arguments es_max_fees {S}.
Arguments es_fees_paid {S}.
Arguments es_total_base_fees {S}.
Arguments es_vote_deltas {S}.
Arguments es_yield_claimed {S}.
Arguments es_op_deltas {S}.
Arguments es_rp_account {S}.
Arguments es_skip_signature_check {S}.
Arguments es_enforce_canonical {S}.
Arguments es_skip_vote_adjustment {S}.
Arguments es_op_index {S}.

Section setters.
Context {S : Type}.
Implicit Types e : eval_state S.

Definition set_state (s : S) e : eval_state S :=
  mk_eval s (es_trx e) (es_signed e) (es_min_fees e) (es_max_fees e) (es_fees_paid e)
    (es_total_base_fees e) (es_vote_deltas e) (es_yield_claimed e) (es_op_deltas e) (es_rp_account e)
    (es_skip_signature_check e) (es_enforce_canonical e) (es_skip_vote_adjustment e) (es_op_index e).
Definition set_trx (t : signed_transaction) e : eval_state S :=
  mk_eval (es_state e) t (es_signed e) (es_min_fees e) (es_max_fees e) (es_fees_paid e)
    (es_total_base_fees e) (es_vote_deltas e) (es_yield_claimed e) (es_op_deltas e) (es_rp_account e)
    (es_skip_signature_check e) (es_enforce_canonical e) (es_skip_vote_adjustment e) (es_op_index e).
Definition set_signed (a : gset address) e : eval_state S :=
  mk_eval (es_state e) (es_trx e) a (es_min_fees e) (es_max_fees e) (es_fees_paid e)
    (es_total_base_fees e) (es_vote_deltas e) (es_yield_claimed e) (es_op_deltas e) (es_rp_account e)
    (es_skip_signature_check e) (es_enforce_canonical e) (es_skip_vote_adjustment e) (es_op_index e).
Definition set_min_fees (m : gmap Z Z) e : eval_state S :=
  mk_eval (es_state e) (es_trx e) (es_signed e) m (es_max_fees e) (es_fees_paid e)
    (es_total_base_fees e) (es_vote_deltas e) (es_yield_claimed e) (es_op_deltas e) (es_rp_account e)
    (es_skip_signature_check e) (es_enforce_canonical e) (es_skip_vote_adjustment e) (es_op_index e).
Definition set_max_fees (m : gmap Z Z) e : eval_state S :=
  mk_eval (es_state e) (es_trx e) (es_signed e) (es_min_fees e) m (es_fees_paid e)
    (es_total_base_fees e) (es_vote_deltas e) (es_yield_claimed e) (es_op_deltas e) (es_rp_account e)
    (es_skip_signature_check e) (es_enforce_canonical e) (es_skip_vote_adjustment e) (es_op_index e).
Definition set_fees (paid : gmap Z Z) (total : Z) e : eval_state S :=
  mk_eval (es_state e) (es_trx e) (es_signed e) (es_min_fees e) (es_max_fees e) paid
    total (es_vote_deltas e) (es_yield_claimed e) (es_op_deltas e) (es_rp_account e)
    (es_skip_signature_check e) (es_enforce_canonical e) (es_skip_vote_adjustment e) (es_op_index e).
Definition set_vote_deltas (m : gmap Z Z) e : eval_state S :=
  mk_eval (es_state e) (es_trx e) (es_signed e) (es_min_fees e) (es_max_fees e) (es_fees_paid e)
    (es_total_base_fees e) m (es_yield_claimed e) (es_op_deltas e) (es_rp_account e)
    (es_skip_signature_check e) (es_enforce_canonical e) (es_skip_vote_adjustment e) (es_op_index e).
Definition set_yield_claimed (m : gmap Z Z) e : eval_state S :=
  mk_eval (es_state e) (es_trx e) (es_signed e) (es_min_fees e) (es_max_fees e) (es_fees_paid e)
    (es_total_base_fees e) (es_vote_deltas e) m (es_op_deltas e) (es_rp_account e)
    (es_skip_signature_check e) (es_enforce_canonical e) (es_skip_vote_adjustment e) (es_op_index e).
Definition set_op_deltas (m : gmap Z (gmap Z Z)) e : eval_state S :=
  mk_eval (es_state e) (es_trx e) (es_signed e) (es_min_fees e) (es_max_fees e) (es_fees_paid e)
    (es_total_base_fees e) (es_vote_deltas e) (es_yield_claimed e) m (es_rp_account e)
    (es_skip_signature_check e) (es_enforce_canonical e) (es_skip_vote_adjustment e) (es_op_index e).
Definition set_rp_account (id : option account_id) e : eval_state S :=
  mk_eval (es_state e) (es_trx e) (es_signed e) (es_min_fees e) (es_max_fees e) (es_fees_paid e)
    (es_total_base_fees e) (es_vote_deltas e) (es_yield_claimed e) (es_op_deltas e) id
    (es_skip_signature_check e) (es_enforce_canonical e) (es_skip_vote_adjustment e) (es_op_index e).
Definition set_op_index (i : Z) e : eval_state S :=
  mk_eval (es_state e) (es_trx e) (es_signed e) (es_min_fees e) (es_max_fees e) (es_fees_paid e)
    (es_total_base_fees e) (es_vote_deltas e) (es_yield_claimed e) (es_op_deltas e) (es_rp_account e)
    (es_skip_signature_check e) (es_enforce_canonical e) (es_skip_vote_adjustment e) i.
Definition set_skips (skip_signatures skip_votes canonical : bool) e : eval_state S :=
  mk_eval (es_state e) (es_trx e) (es_signed e) (es_min_fees e) (es_max_fees e) (es_fees_paid e)
    (es_total_base_fees e) (es_vote_deltas e) (es_yield_claimed e) (es_op_deltas e) (es_rp_account e)
    skip_signatures canonical skip_votes (es_op_index e).
End setters.

Definition trx_default : signed_transaction := {| tx_expiration := 0; tx_operations := []; tx_signatures := [] |}.

(** [transaction_evaluation_state( pending_state )]. *)
Definition eval_start {S} (s : S) : eval_state S :=
  mk_eval s trx_default ∅ ∅ ∅ ∅ 0 ∅ ∅ ∅ None false false false 0.

Section signatures.
Context {S : Type} `{CI : chain_interface S} `{Cr : Crypto}.
Implicit Types e : eval_state S.

Definition check_signature e (a : address) : bool :=
  es_skip_signature_check e || bool_decide (a ∈ es_signed e).

Definition count_signatures e (owners : gset address) : Z :=
  foldl (fun n a => if check_signature e a then n + 1 else n) 0 (elements owners).

Definition verify_authority e (siginfo : multisig_meta_info) : bool :=
  ms_required siginfo <=? count_signatures e (ms_owners siginfo).

Definition check_multisig e (required : Z) (owners : gset address) : bool :=
  required <=? count_signatures e owners.

Definition check_key e (k : public_key) : bool := check_signature e (key_address k).

(** The active key or the owner key of an account that is not retracted. *)
Definition account_has_signed e (r : account_record) : result bool :=
  retracted <- is_retracted r ;;
  if retracted then Ok false
  else k <- active_key r ;; Ok (check_key e k || check_key e (ac_owner_key r)).

(** The loop over the parents; the name gets shorter at every step, so its
    length bounds the steps. *)
Fixpoint parents_signed (fuel : nat) e (name : string) : result bool :=
  match fuel with
  | O => Ok false
  | Datatypes.S fuel =>
      match get_parent_account_name name with
      | None => Ok false
      | Some parent =>
          record <- get_account_record_by_name (es_state e) parent ;;
          signed <- match record with Some r => account_has_signed e r | None => Ok false end ;;
          if signed then Ok true else parents_signed fuel e parent
      end
  end.
Definition any_parent_has_signed e (name : string) : result bool :=
  parents_signed (Datatypes.S (String.length name)) e name.

Definition account_or_any_parent_has_signed e (r : account_record) : result bool :=
  signed <- account_has_signed e r ;;
  if signed then Ok true else any_parent_has_signed e (ac_name r).
End signatures.

Section balances.
Context {S : Type}.
Implicit Types e : eval_state S.

Definition map_add (k v : Z) (m : gmap Z Z) : gmap Z Z := <[k := at_or_0 m k +! v]> m.

Definition op_delta (asset_id v : Z) e : gmap Z (gmap Z Z) :=
  <[es_op_index e := map_add asset_id v (default ∅ (es_op_deltas e !! es_op_index e))]> (es_op_deltas e).

Definition sub_balance (a : asset) e : eval_state S :=
  set_op_deltas (op_delta (asset_id a) (amount a) e)
    (set_fees (<[asset_id a := at_or_0 (es_fees_paid e) (asset_id a) -! amount a]> (es_fees_paid e))
       (es_total_base_fees e) e).
Definition add_balance (a : asset) e : eval_state S :=
  set_op_deltas (<[es_op_index e := (let m := default ∅ (es_op_deltas e !! es_op_index e) in
                                     <[asset_id a := at_or_0 m (asset_id a) -! amount a]> m)]> (es_op_deltas e))
    (set_fees (map_add (asset_id a) (amount a) (es_fees_paid e)) (es_total_base_fees e) e).

(** [min_fees[ id ] += v]. *)
Definition add_min_fee (id v : Z) e : eval_state S := set_min_fees (map_add id v (es_min_fees e)) e.
End balances.

Section votes_and_fees.
Context {S : Type} `{FcI : Fc} `{CI : chain_interface S} `{Cr : Crypto}.
Implicit Types e : eval_state S.

Definition adjust_vote (slate_id amount : Z) e : result (eval_state S) :=
  if (slate_id =? 0) || es_skip_vote_adjustment e then Ok e
  else
    slate <- from_option_or unknown_delegate_slate (get_slate_record (es_state e) slate_id) ;;
    Ok (set_vote_deltas
          (foldl (fun m id => if 0 <=? id then map_add id amount m else m) (es_vote_deltas e) (elements slate)) e).

Definition update_delegate_votes e : result (eval_state S) :=
  foldM (fun item e =>
    let '(id, amount) := item in
    record <- from_option_or assert_exception (get_account_record (es_state e) id) ;;
    _ <- fc_assert (is_delegate record) ;;
    record <- adjust_votes_for amount record ;;
    s <- store_account_record record (es_state e) ;;
    Ok (set_state s e)) (map_items (es_vote_deltas e)) e.

Definition update_rp_values e : result (eval_state S) :=
  match es_rp_account e with
  | Some id =>
      record <- from_option_or assert_exception (get_account_record (es_state e) id) ;;
      s <- store_account_record (set_ac_rp (ac_rp record +! es_total_base_fees e) record) (es_state e) ;;
      Ok (set_state s e)
  | None => Ok e
  end.

(** One fee of [validate_fees]. *)
Definition validate_fee (item : Z * Z) e : result (eval_state S) :=
  let '(fee_asset, fee) := item in
  _ <- throw_if negative_fee (fee <? 0) ;;
  _ <- throw_if insufficient_fee
         match es_min_fees e !! fee_asset with Some m => fee <? m | None => false end ;;
  _ <- throw_if fee_greater_than_max
         match es_max_fees e !! fee_asset with Some m => m <? fee | None => false end ;;
  if fee =? 0 then Ok e
  else
    record <- from_option_or unknown_asset_id (get_asset_record (es_state e) fee_asset) ;;
    Ok (set_state (store_asset_record (set_as_collected_fees (as_collected_fees record +! fee) record) (es_state e)) e).

Definition validate_fees e : result (eval_state S) := foldM validate_fee (map_items (es_fees_paid e)) e.

(** The value of one fee in the base asset. *)
Definition base_equivalent (e : eval_state S) (item : Z * Z) : result Z :=
  let '(fee_asset, fee) := item in
  if fee_asset =? 0 then Ok fee
  else
    record <- from_option_or assert_exception (get_asset_record (es_state e) fee_asset) ;;
    if is_market_issued record then
      feed <- get_active_feed_price (es_state e) fee_asset ;;
      match feed with
      | Some p => v <- asset_mul_price (mk_asset (fee *! 2) fee_asset) p ;; Ok (div64 (amount v) 3)
      | None => Ok 0
      end
    else Ok 0.

Definition calculate_base_equivalent_fees e : result (eval_state S) :=
  total <- foldM (fun item total => v <- base_equivalent e item ;; Ok (total +! v)) (map_items (es_fees_paid e)) 0 ;;
  Ok (set_fees (es_fees_paid e) total e).
End votes_and_fees.
