(* ===== verification/BalanceOps.v ===== *)
(** The operations on balances (balance_operations.cpp): deposit, withdraw, burn,
    ad, note; red packets, whose shares are drawn from the random id, and their
    claims; releasing an escrow, changing the votes of a balance and the fee
    limit. *)

From Stdlib Require Import String.
From S2P Require Import Prelude Asset Names Combinatorics Records ChainInterface EvalState.

Definition MIN_BURN_FEE : Z := BLOCKCHAIN_PRECISION.
Definition MIN_NOTE_FEE : Z := BLOCKCHAIN_PRECISION * 5.
Definition MIN_AD_FEE : Z := BLOCKCHAIN_PRECISION.
Definition MIN_RED_PACKET_FEE : Z := BLOCKCHAIN_PRECISION.
Definition MIN_RED_PACKET_UNIT : Z := BLOCKCHAIN_PRECISION.
Definition VOTE_UPDATE_PERIOD_SEC : Z := 60 * 60.
Definition MAX_DEPOSIT : Z := 100000000000000.
Definition note_op_type : Z := 40.

Definition string_size (s : string) : Z := Z.of_nat (String.length s).

(** The deposit date of merged balances: the average weighted by amount, in
    128-bit arithmetic. *)
Definition average_date `{Fc} (old_date old_balance new_date new_amount : Z) : result time :=
  let total := u128 (old_balance +! new_amount) in
  _ <- throw_if undefined_behaviour (total =? 0) ;;
  let avg := u128 (u128 (old_date * u128 old_balance) + u128 (new_date * u128 new_amount)) in
  uint128_to_integer (avg / total).

Section balance_operations.
Context {S : Type} `{FcI : Fc} `{CI : chain_interface S} `{Cr : Crypto} `{Tx : TxCrypto}.
Implicit Types e : eval_state S.

Definition es_now e : time := chain_now (es_state e).
Definition es_trx_id e : transaction_id := trx_id (es_trx e).
Definition store_balance (r : balance_record) e : eval_state S :=
  set_state (store_balance_record r (es_state e)) e.
Definition store_asset (r : asset_record) e : eval_state S :=
  set_state (store_asset_record r (es_state e)) e.

(** [get_account_record] and the assertion that it is valid. *)
Definition require_account e (id : account_id) : result account_record :=
  from_option_or assert_exception (get_account_record (es_state e) (Z.abs id)).
Definition require_asset e (id : Z) : result asset_record :=
  from_option_or assert_exception (get_asset_record (es_state e) id).

(** ** Deposit *)

(** The record a deposit goes to: the one stored under the condition's
    address, or a new one. *)
Definition deposit_target (c : withdraw_condition) e : balance_record :=
  match get_balance_record (es_state e) (condition_address c) with
  | Some r => r
  | None =>
      match wc_data c with
      | withdraw_with_escrow _ _ _ _ _ => set_br_meta_data (Some (es_trx_id e)) (balance_of_condition c)
      | _ => balance_of_condition c
      end
  end.

Definition depositable (c : withdraw_condition) : bool :=
  match wc_data c with
  | withdraw_with_signature _ _ | withdraw_with_multisig _ _ _ | withdraw_with_escrow _ _ _ _ _ => true
  | _ => false
  end.

(** [deposit_operation::evaluate]. *)
Definition evaluate_deposit (o : deposit_operation) e : result (eval_state S) :=
  _ <- throw_if negative_deposit (dp_amount o <=? 0) ;;
  _ <- throw_if negative_deposit (MAX_DEPOSIT <? dp_amount o) ;;
  _ <- throw_unless invalid_withdraw_condition (depositable (dp_condition o)) ;;
  let cur := deposit_target (dp_condition o) e in
  date <- (if br_balance cur =? 0 then Ok (es_now e)
           else average_date (br_deposit_date cur) (br_balance cur) (es_now e) (dp_amount o)) ;;
  let cur := set_br_balance (br_balance cur +! dp_amount o) (set_br_deposit_date date cur) in
  let e := sub_balance (mk_asset (dp_amount o) (balance_asset_id cur)) e in
  e <- (if (balance_asset_id cur =? 0) && negb (balance_slate_id cur =? 0)
        then adjust_vote (balance_slate_id cur) (dp_amount o) e else Ok e) ;;
  let cur := set_br_last_update (es_now e) cur in
  asset_rec <- require_asset e (balance_asset_id cur) ;;
  _ <- (if is_market_issued asset_rec then fc_assert (balance_slate_id cur =? 0) else Ok tt) ;;
  _ <- fc_assert (forallb (address_is_whitelisted asset_rec) (elements (balance_owners cur))) ;;
  Ok (store_balance cur e).

(** ** Withdraw *)

(** The signatures a withdrawal needs, by the type of the condition. *)
Definition withdraw_signed (c : withdraw_condition) e : result unit :=
  match wc_data c with
  | withdraw_with_signature owner _ | withdraw_vesting owner _ _ _ =>
      throw_unless missing_signature (check_signature e owner)
  | withdraw_with_multisig required owners _ =>
      throw_unless missing_signature (check_multisig e required owners)
  | _ => Throw invalid_withdraw_condition
  end.

Definition authority_is_retracting (r : asset_record) e : bool :=
  flag_is_active r retractable_balances && verify_authority e (as_authority r).

(** The yield of a market-issued asset goes from the collected fees to the
    balance. *)
Definition claim_yield (asset_rec : asset_record) (r : balance_record) e : balance_record * eval_state S :=
  let yield := calculate_yield r (es_now e) (br_balance r) (as_collected_fees asset_rec) (as_current_supply asset_rec) in
  if is_market_issued asset_rec && (0 <? amount yield) then
    (set_br_deposit_date (es_now e) (set_br_balance (br_balance r +! amount yield) r),
     store_asset (set_as_collected_fees (as_collected_fees asset_rec -! amount yield) asset_rec)
       (set_yield_claimed (map_add (balance_asset_id r) (amount yield) (es_yield_claimed e)) e))
  else (r, e).

(** The withdrawal fee of the asset is a minimum fee, unless its authority
    signed. *)
Definition charge_withdrawal_fee (asset_rec : asset_record) e : eval_state S :=
  if negb (as_withdrawal_fee asset_rec =? 0) && negb (verify_authority e (as_authority asset_rec))
  then set_min_fees (<[as_id asset_rec := Z.max (as_withdrawal_fee asset_rec)
                                            (at_or_0 (es_min_fees e) (as_id asset_rec))]> (es_min_fees e)) e
  else e.

(** [withdraw_operation::evaluate]. *)
Definition evaluate_withdraw (o : withdraw_operation) e : result (eval_state S) :=
  _ <- throw_if negative_withdraw (wd_amount o <=? 0) ;;
  r <- from_option_or unknown_balance_record (get_balance_record (es_state e) (wd_balance_id o)) ;;
  spendable <- get_spendable_balance r (es_now e) ;;
  _ <- throw_if insufficient_funds (amount spendable <? wd_amount o) ;;
  asset_rec <- require_asset e (balance_asset_id r) ;;
  _ <- (if authority_is_retracting asset_rec e then Ok tt
        else _ <- fc_assert (negb (flag_is_active asset_rec halted_withdrawals)) ;;
             withdraw_signed (br_condition r) e) ;;
  e <- (if (balance_asset_id r =? 0) && negb (balance_slate_id r =? 0)
        then adjust_vote (balance_slate_id r) (neg64 (wd_amount o)) e else Ok e) ;;
  let '(r, e) := claim_yield asset_rec r e in
  let r := set_br_last_update (es_now e) (set_br_balance (br_balance r -! wd_amount o) r) in
  let e := store_balance r e in
  let e := charge_withdrawal_fee asset_rec e in
  Ok (add_balance (mk_asset (wd_amount o) (balance_asset_id r)) e).

(** ** Burn *)

(** [(size / unit) + 1] units of the fee. *)
Definition size_fee (size unit_size fee : Z) : Z := wrap64 (uwrap64 ((size / unit_size + 1) * fee)).

(** [burn_operation::evaluate]. *)
Definition evaluate_burn (o : burn_operation) e : result (eval_state S) :=
  let paid := bo_amount o in
  _ <- throw_if negative_deposit (amount paid <=? 0) ;;
  _ <- fc_assert (bool_decide (bo_message o = "") || (asset_id paid =? 0)) ;;
  _ <- (if asset_id paid =? 0
        then fc_assert (size_fee (string_size (bo_message o)) 1024 MIN_BURN_FEE <=? amount paid) else Ok tt) ;;
  asset_rec <- require_asset e (asset_id paid) ;;
  _ <- fc_assert (negb (is_market_issued asset_rec)) ;;
  let e := sub_balance paid e in
  let e := store_asset (set_as_current_supply (as_current_supply asset_rec -! amount paid) asset_rec) e in
  _ <- (if bo_account_id o =? 0 then Ok tt else _ <- require_account e (bo_account_id o) ;; Ok tt) ;;
  let record := {| bu_account_id := bo_account_id o; bu_transaction_id := es_trx_id e;
                   bu_amount := paid; bu_message := bo_message o; bu_signer := bo_message_signature o |} in
  _ <- fc_assert match get_burn_record (es_state e) (bu_account_id record, bu_transaction_id record) with
                 | Some _ => false | None => true end ;;
  Ok (set_state (store_burn_record record (es_state e)) e).

(** ** Payments to an address *)

(** Ads and packets pay into the balance of an address with no slate, made
    when it is not there. *)
Definition income_target (owner : address) (asset : Z) e : balance_record :=
  match get_balance_record (es_state e) (condition_address (signature_condition owner asset 0)) with
  | Some r => r
  | None => balance_of_owner owner (mk_asset 0 asset) 0
  end.
Definition pay_to (owner : address) (a : asset) e : eval_state S :=
  let r := income_target owner (asset_id a) e in
  store_balance (set_br_deposit_date (es_now e) (set_br_last_update (es_now e)
    (set_br_balance (br_balance r +! amount a) r))) e.

(** ** Ad *)

(** [ad_operation::evaluate]. *)
Definition evaluate_ad (o : ad_operation) e : result (eval_state S) :=
  let paid := ao_amount o in
  _ <- throw_if negative_deposit (amount paid <=? 0) ;;
  _ <- fc_assert (negb (bool_decide (ao_message o = ""))) ;;
  _ <- fc_assert (asset_id paid =? 0) ;;
  let required_fee := size_fee (string_size (ao_message o)) 400 MIN_AD_FEE in
  _ <- fc_assert (required_fee <=? amount paid) ;;
  let e := add_min_fee (asset_id paid) required_fee e in
  _ <- fc_assert (negb (ao_owner_account_id o =? 0)) ;;
  owner_rec <- require_account e (ao_owner_account_id o) ;;
  owner <- active_address owner_rec ;;
  let ad_pay := mk_asset (amount paid -! required_fee) 0 in
  let e := sub_balance ad_pay (pay_to owner ad_pay e) in
  _ <- fc_assert (negb (ao_publisher_account_id o =? 0)) ;;
  publisher <- require_account e (ao_publisher_account_id o) ;;
  let e := set_rp_account (Some (Z.abs (ao_publisher_account_id o))) e in
  let record := {| ad_account_id := ao_owner_account_id o; ad_transaction_id := es_trx_id e;
                   ad_publisher_id := ao_publisher_account_id o; ad_amount := paid;
                   ad_message := ao_message o; ad_signer := ao_message_signature o |} in
  key <- active_key publisher ;;
  signer <- ad_signer_key record ;;
  _ <- fc_assert (key =? signer) ;;
  _ <- fc_assert match get_ad_record (es_state e) (ad_account_id record, ad_transaction_id record) with
                 | Some _ => false | None => true end ;;
  Ok (set_state (store_ad_record record (es_state e)) e).

(** ** Note *)

(** Three tenths of the amount are fees, the rest goes to the reward pool. *)
Definition note_fee (v : Z) : Z := div64 (v *! 3) 10.

Definition add_reward (a : asset) (r : operation_reward_record) : operation_reward_record :=
  {| rw_id := rw_id r; rw_fees := map_add (asset_id a) (amount a) (rw_fees r) |}.

(** [note_operation::evaluate]. *)
Definition evaluate_note (o : note_operation) e : result (eval_state S) :=
  let paid := nt_amount o in
  _ <- throw_if negative_deposit (amount paid <=? 0) ;;
  message <- from_option_or undefined_behaviour (nt_message o) ;;
  _ <- fc_assert (negb (bool_decide (nm_data message = ""))) ;;
  _ <- fc_assert (asset_id paid =? 0) ;;
  _ <- fc_assert (size_fee (string_size (nm_data message)) 1024 MIN_NOTE_FEE <=? amount paid) ;;
  let e := add_min_fee (asset_id paid) (note_fee (amount paid)) e in
  reward <- from_option_or undefined_behaviour (get_operation_reward_record (es_state e) note_op_type) ;;
  let reward_fee := mk_asset (amount paid -! note_fee (amount paid)) (asset_id paid) in
  let e := sub_balance reward_fee e in
  let e := set_state (store_operation_reward_record (add_reward reward_fee reward) (es_state e)) e in
  owner <- require_account e (nt_owner_account_id o) ;;
  let e := set_rp_account (Some (Z.abs (nt_owner_account_id o))) e in
  let record := {| no_account_id := nt_owner_account_id o; no_transaction_id := es_trx_id e;
                   no_amount := paid; no_signer := nt_message_signature o; no_message := nt_message o |} in
  key <- active_key owner ;;
  signer <- note_signer_key record ;;
  _ <- fc_assert (key =? signer) ;;
  _ <- fc_assert match get_note_record (es_state e) (no_account_id record, no_transaction_id record) with
                 | Some _ => false | None => true end ;;
  Ok (set_state (store_note_record record (es_state e)) e).
End balance_operations.

(** The units are doubled until the packet has at most [2 * (count + 1)]. The
    number of units is below 2^32, so 32 halvings are enough. *)
Fixpoint shrink_units (fuel : nat) (count total_space packet_unit : Z) : Z * Z :=
  match fuel with
  | O => (total_space, packet_unit)
  | S fuel =>
      if uwrap32 (uwrap32 (count + 1) * 2) <? total_space
      then shrink_units fuel count (total_space / 2) (packet_unit *! 2)
      else (total_space, packet_unit)
  end.

(** The differences of consecutive lucky numbers. *)
Fixpoint differences (l : list nat) : list Z :=
  match l with
  | a :: ((b :: _) as l) => (Z.of_nat b - Z.of_nat a) :: differences l
  | _ => []
  end.

(** The shares in units: [count - 1] lucky numbers out of [total_space - 1]
    cut the packet. *)
Definition packet_shares (rand count total_space : Z) : result (list Z) :=
  if 1 <? count then
    let k := Z.to_nat (uwrap16 (count - 1)) in
    let n := Z.to_nat (uwrap16 (total_space - 1)) in
    c <- cnr n k ;;
    _ <- throw_if undefined_behaviour (c =? 0) ;;
    lucky <- unranking (rand mod c) k n ;;
    _ <- throw_unless undefined_behaviour (k <=? length lucky)%nat ;;
    let lucky := take k lucky in
    match lucky with
    | [] => Throw undefined_behaviour
    | l0 :: _ =>
        Ok ((Z.of_nat l0 + 1) :: differences lucky
              ++ [ uwrap32 (total_space - (Z.of_nat (List.last lucky 0%nat) + 1)) ])
    end
  else Ok [ total_space ].

Definition unclaimed_status (v asset : Z) : red_packet_status := mk_status (mk_asset v asset) (-1) 0.

Section packet_operations.
Context {S : Type} `{FcI : Fc} `{CI : chain_interface S} `{Cr : Crypto} `{Tx : TxCrypto}.
Implicit Types e : eval_state S.

(** [red_packet_operation::evaluate]. *)
Definition evaluate_red_packet (o : red_packet_operation) e : result (eval_state S) :=
  let paid := rp_amount o in
  let count := rp_count o in
  _ <- throw_if negative_deposit (amount paid <=? 0) ;;
  _ <- fc_assert (negb (bool_decide (rp_message o = ""))) ;;
  _ <- fc_assert (asset_id paid =? 0) ;;
  _ <- fc_assert (0 <? count) ;;
  _ <- fc_assert (count <=? 30) ;;
  _ <- fc_assert (string_size (rp_message o) <? 100) ;;
  _ <- fc_assert (MIN_RED_PACKET_FEE + uwrap32 (count * MIN_RED_PACKET_UNIT) <=? amount paid) ;;
  let e := add_min_fee (asset_id paid) MIN_RED_PACKET_FEE e in
  from_rec <- require_account e (rp_from_account_id o) ;;
  let e := set_rp_account (Some (Z.abs (rp_from_account_id o))) e in
  _ <- throw_unless missing_signature (check_key e (ac_owner_key from_rec)) ;;
  let '(total_space, packet_unit) :=
    shrink_units 32 count (uwrap32 (div64 (amount paid) MIN_RED_PACKET_UNIT)) MIN_RED_PACKET_UNIT in
  let used := mk_asset (total_space *! packet_unit) (asset_id paid) in
  let e := sub_balance used e in
  _ <- fc_assert (total_space <? 65535) ;;
  shares <- packet_shares (packet_rand (rp_random_id o)) count total_space ;;
  let record := mk_packet (rp_random_id o) paid (rp_from_account_id o) (rp_claim_public_key o) (rp_message o)
    (map (fun n => unclaimed_status (n *! packet_unit) (asset_id paid)) shares) (rp_claim_condition o) in
  left_amount <- left_packet_amount record ;;
  _ <- fc_assert (asset_eqb left_amount used) ;;
  _ <- fc_assert match get_packet_record (es_state e) (pk_id record) with Some _ => false | None => true end ;;
  Ok (set_state (store_packet_record record (es_state e)) e).

Definition claim_condition_met (c : option packet_claim_condition) (r : account_record) : bool :=
  match c with Some (packet_rp_condition rp) => rp <=? ac_rp r | _ => true end.

(** Marks a share as claimed. *)
Definition claim_status (account : account_id) (trx : transaction_id) (s : red_packet_status) : red_packet_status :=
  mk_status (rs_amount s) account trx.

(** [claim_packet_operation::evaluate]. *)
Definition evaluate_claim_packet (o : claim_packet_operation) e : result (eval_state S) :=
  account_rec <- require_account e (cp_to_account_id o) ;;
  packet <- from_option_or assert_exception (get_packet_record (es_state e) (cp_random_id o)) ;;
  _ <- throw_unless missing_signature (check_key e (ac_owner_key account_rec)) ;;
  _ <- throw_unless missing_signature (check_key e (pk_claim_public_key packet)) ;;
  _ <- fc_assert (claim_condition_met (pk_claim_condition packet) account_rec) ;;
  if is_unclaimed_empty packet then Ok e
  else
    let index := next_available_claim_index packet in
    _ <- fc_assert (forallb (fun s => negb (rs_account_id s =? cp_to_account_id o))
                      (take index (pk_claim_statuses packet))) ;;
    status <- from_option_or undefined_behaviour (pk_claim_statuses packet !! index) ;;
    let e := add_balance (rs_amount status) e in
    to_address <- active_address account_rec ;;
    let e := sub_balance (rs_amount status) (pay_to to_address (rs_amount status) e) in
    let packet := set_pk_claim_statuses
      (<[index := claim_status (cp_to_account_id o) (es_trx_id e) status]> (pk_claim_statuses packet)) packet in
    Ok (set_state (store_packet_record packet (es_state e)) e).
End packet_operations.

Section operations.
Context {S : Type} `{FcI : Fc} `{CI : chain_interface S} `{Cr : Crypto} `{Tx : TxCrypto}.
Implicit Types e : eval_state S.

(** ** Release escrow *)

(** Adds to the balance of an address with the slate of the escrow. *)
Definition escrow_pay (owner : address) (a : asset) (slate : Z) e : eval_state S :=
  let fresh := balance_of_owner owner a slate in
  let r := match get_balance_record (es_state e) (balance_id fresh) with
           | Some r => set_br_balance (br_balance r +! amount a) r
           | None => fresh
           end in
  store_balance r e.

Definition address_may_receive (asset_rec : option asset_record) (owner : address) : result unit :=
  r <- from_option_or undefined_behaviour asset_rec ;; fc_assert (address_is_whitelisted r owner).

(** The four ways an escrow is released, by the party that releases it: what
    each may pay and whose signature it needs. *)
Definition release_branch (sender receiver escrow : address) (retracting : bool) (o : release_escrow_operation)
    (r : balance_record) e : result (eval_state S) :=
  let signed a := throw_unless missing_signature (check_signature e a || retracting) in
  let id := balance_asset_id r in
  let slate := balance_slate_id r in
  let pay_receiver := escrow_pay receiver (mk_asset (re_amount_to_receiver o) id) slate in
  let pay_sender := escrow_pay sender (mk_asset (re_amount_to_sender o) id) slate in
  if sender =? re_released_by o then
    _ <- fc_assert (re_amount_to_sender o =? 0) ;;
    _ <- fc_assert (re_amount_to_receiver o <=? br_balance r) ;;
    _ <- signed sender ;;
    Ok (pay_receiver e)
  else if receiver =? re_released_by o then
    _ <- fc_assert (re_amount_to_receiver o =? 0) ;;
    _ <- fc_assert (re_amount_to_sender o <=? br_balance r) ;;
    _ <- signed receiver ;;
    Ok (pay_sender e)
  else if escrow =? re_released_by o then
    _ <- signed escrow ;;
    Ok (pay_sender (pay_receiver e))
  else if null_address =? re_released_by o then
    _ <- signed sender ;;
    _ <- signed receiver ;;
    Ok (pay_sender (pay_receiver e))
  else Throw assert_exception.

(** [release_escrow_operation::evaluate]. *)
Definition evaluate_release_escrow (o : release_escrow_operation) e : result (eval_state S) :=
  r <- from_option_or assert_exception (get_balance_record (es_state e) (re_escrow_id o)) ;;
  _ <- throw_if negative_withdraw (re_amount_to_receiver o <? 0) ;;
  _ <- throw_if negative_withdraw (re_amount_to_sender o <? 0) ;;
  _ <- fc_assert (check_signature e (re_released_by o)) ;;
  match wc_data (br_condition r) with
  | withdraw_with_escrow sender receiver escrow _ _ =>
      let total_released := uwrap64 (uwrap64 (re_amount_to_sender o) + uwrap64 (re_amount_to_receiver o)) in
      _ <- fc_assert (total_released <=? uwrap64 (br_balance r)) ;;
      _ <- fc_assert (uwrap64 (re_amount_to_sender o) <=? total_released) ;;
      _ <- fc_assert (uwrap64 (re_amount_to_receiver o) <=? total_released) ;;
      let r := set_br_balance (wrap64 (br_balance r - total_released)) r in
      let asset_opt := get_asset_record (es_state e) (balance_asset_id r) in
      _ <- (if 0 <? re_amount_to_sender o then address_may_receive asset_opt sender else Ok tt) ;;
      _ <- (if 0 <? re_amount_to_receiver o then address_may_receive asset_opt receiver else Ok tt) ;;
      asset_rec <- from_option_or undefined_behaviour asset_opt ;;
      e <- release_branch sender receiver escrow (authority_is_retracting asset_rec e) o r e ;;
      Ok (store_balance r e)
  | _ => Throw assert_exception
  end.

(** ** Update balance vote *)

(** Half a unit of the base asset. *)
Definition vote_fee : Z := div64 BLOCKCHAIN_PRECISION 2.

Definition owners_signed (r : balance_record) e : result unit :=
  throw_unless missing_signature (forallb (check_signature e) (elements (balance_owners r))).

(** Who may change the vote: a new restricted owner needs the owners; else
    the restricted owner, once per period, or the owners. The optional
    restricted owner is dereferenced when there is none. *)
Definition vote_restricted_owner (o : update_balance_vote_operation) (r : balance_record) (last_update : time) e
    : result (option address) :=
  if bool_decide (uv_new_restricted_owner o <> None)
     && negb (bool_decide (uv_new_restricted_owner o = br_restricted_owner r)) then
    _ <- owners_signed r e ;;
    Ok (uv_new_restricted_owner o)
  else
    _ <- fc_assert (VOTE_UPDATE_PERIOD_SEC <=? uwrap32 (es_now e - last_update)) ;;
    restricted <- from_option_or undefined_behaviour (br_restricted_owner r) ;;
    _ <- (if check_signature e restricted then Ok tt else owners_signed r e) ;;
    Ok (br_restricted_owner r).

(** The balance that gets the votes: the one under the new condition, or
    this one with the new condition. *)
Definition vote_target (c : withdraw_condition) (r : balance_record) e : balance_record :=
  set_br_condition c
    match get_balance_record (es_state e) (balance_id (balance_of_condition c)) with
    | Some t => t | None => r
    end.

(** [update_balance_vote_operation::evaluate]. *)
Definition evaluate_update_balance_vote (o : update_balance_vote_operation) e : result (eval_state S) :=
  r <- from_option_or assert_exception (get_balance_record (es_state e) (uv_balance_id o)) ;;
  _ <- fc_assert (balance_asset_id r =? 0) ;;
  _ <- fc_assert match wc_data (br_condition r) with withdraw_with_signature _ _ => true | _ => false end ;;
  let last_update := br_last_update r in
  let balance := br_balance r in
  _ <- fc_assert (vote_fee <? balance) ;;
  asset_rec <- from_option_or undefined_behaviour (get_asset_record (es_state e) (balance_asset_id r)) ;;
  _ <- (if is_market_issued asset_rec then fc_assert (balance_slate_id r =? 0) else Ok tt) ;;
  e <- (if negb (balance_slate_id r =? 0) then adjust_vote (balance_slate_id r) (neg64 balance) e else Ok e) ;;
  let r := set_br_last_update (es_now e) (set_br_balance (br_balance r -! balance) r) in
  let e := store_balance r e in
  restricted <- vote_restricted_owner o r last_update e ;;
  owner <- from_option_or assert_exception (balance_owner r) ;;
  let condition := signature_condition owner 0 (uv_new_slate o) in
  let target := vote_target condition r e in
  date <- (if br_balance target =? 0 then Ok (es_now e)
           else average_date (br_deposit_date r) (br_balance target) (es_now e) balance) ;;
  let target := set_br_last_update (es_now e) (set_br_deposit_date date target) in
  let target := set_br_restricted_owner restricted
                  (set_br_balance (br_balance target +! (balance -! vote_fee)) target) in
  let e := add_balance (mk_asset vote_fee 0) e in
  e <- (if negb (balance_slate_id target =? 0)
        then adjust_vote (balance_slate_id target) (balance -! vote_fee) e else Ok e) ;;
  Ok (store_balance target e).

(** ** Limit fee *)

(** [limit_fee_operation::evaluate]. *)
Definition evaluate_limit_fee (max_fee : asset) e : result (eval_state S) :=
  _ <- fc_assert match es_max_fees e !! asset_id max_fee with Some _ => false | None => true end ;;
  Ok (set_max_fees (<[asset_id max_fee := amount max_fee]> (es_max_fees e)) e).
End operations.
