(* ===== verification/AccountOps.v ===== *)
(** The operations on accounts: register, update, withdraw pay and update
    signing key (account_operations.cpp). *)

From Stdlib Require Import String.
From S2P Require Import Prelude Asset Names Records ChainInterface EvalState BalanceOps.

(** [is_delegate] of the operations: a pay rate is a percentage. *)
Definition is_delegate_rate (pay_rate : Z) : bool := pay_rate <=? 100.

Section operations.
Context {S : Type} `{FcI : Fc} `{CI : chain_interface S} `{Cr : Crypto} `{Tx : TxCrypto}.
Implicit Types e : eval_state S.

Definition store_account (r : account_record) e : result (eval_state S) :=
  s <- store_account_record r (es_state e) ;; Ok (set_state s e).

(** Fails when an account has the key already. *)
Definition key_not_in_use (k : public_key) e : result unit :=
  r <- get_account_record_by_address (es_state e) (key_address k) ;;
  throw_if account_key_in_use match r with Some _ => true | None => false end.

(** A new delegate: its pay rate, its first signing key and its fee. *)
Definition make_delegate (pay_rate : Z) (key : public_key) (r : account_record) e
    : result (account_record * eval_state S) :=
  let r := set_ac_delegate_info (Some (set_ds_pay_rate pay_rate delegate_stats_default)) r in
  r <- set_signing_key (get_head_block_num (es_state e)) key r ;;
  fee <- get_delegate_registration_fee (es_state e) pay_rate ;;
  Ok (r, add_min_fee 0 fee e).

(** [register_account_operation::evaluate]. *)
Definition evaluate_register_account (o : register_account_operation) e : result (eval_state S) :=
  _ <- throw_unless invalid_account_name (is_valid_account_name (ra_name o)) ;;
  current <- get_account_record_by_name (es_state e) (ra_name o) ;;
  _ <- throw_if account_already_registered match current with Some _ => true | None => false end ;;
  _ <- key_not_in_use (ra_owner_key o) e ;;
  _ <- key_not_in_use (ra_active_key o) e ;;
  _ <- match get_parent_account_name (ra_name o) with
       | Some _ => signed <- any_parent_has_signed e (ra_name o) ;;
                   throw_unless missing_parent_account_signature signed
       | None => Ok tt
       end ;;
  let now := es_now e in
  new_id <- new_account_id (es_state e) ;;
  let '(id, s) := new_id in
  let e := set_state s e in
  let meta := match ra_meta_data o with
              | Some m => m | None => {| am_type := titan_account; am_data := [] |} end in
  let r := mk_account id (ra_name o) (ra_public_data o) (ra_owner_key o) ∅ now now 0 None (Some meta) in
  r <- set_active_key now (ra_active_key o) r ;;
  let e := add_min_fee 0 (get_account_registration_fee (string_size (ra_name o))) e in
  made <- (if is_delegate_rate (ra_delegate_pay_rate o)
           then make_delegate (ra_delegate_pay_rate o) (ra_active_key o) r e else Ok (r, e)) ;;
  let '(r, e) := made in
  store_account r e.

(** The change of the active key, with the signatures it needs. *)
Definition update_active_key (o : update_account_operation) (r : account_record) e : result account_record :=
  current_key <- active_key r ;;
  match ua_active_key o with
  | Some k =>
      if negb (k =? current_key) then
        _ <- (if negb (k =? null_key) then key_not_in_use k e
              else match ac_delegate_info r with
                   | Some d => throw_if pay_balance_remaining (0 <? ds_pay_balance d)
                   | None => Ok tt
                   end) ;;
        signed <- (if check_key e (ac_owner_key r) then Ok true else any_parent_has_signed e (ac_name r)) ;;
        _ <- throw_unless missing_signature signed ;;
        set_active_key (es_now e) k r
      else
        signed <- account_or_any_parent_has_signed e r ;;
        _ <- throw_unless missing_signature signed ;; Ok r
  | None =>
      signed <- account_or_any_parent_has_signed e r ;;
      _ <- throw_unless missing_signature signed ;; Ok r
  end.

(** The change of the delegate status. *)
Definition update_delegate (o : update_account_operation) (r : account_record) e
    : result (account_record * eval_state S) :=
  _ <- (if is_delegate r then fc_assert (is_delegate_rate (ua_delegate_pay_rate o)) else Ok tt) ;;
  if is_delegate_rate (ua_delegate_pay_rate o) then
    match ac_delegate_info r with
    | Some d =>
        _ <- fc_assert (ua_delegate_pay_rate o <=? ds_pay_rate d) ;;
        Ok (set_ac_delegate_info (Some (set_ds_pay_rate (ua_delegate_pay_rate o) d)) r, e)
    | None => key <- active_key r ;; make_delegate (ua_delegate_pay_rate o) key r e
    end
  else Ok (r, e).

(** [update_account_operation::evaluate]. *)
Definition evaluate_update_account (o : update_account_operation) e : result (eval_state S) :=
  r <- from_option_or unknown_account_id (get_account_record (es_state e) (ua_account_id o)) ;;
  retracted <- is_retracted r ;;
  _ <- throw_if account_retracted retracted ;;
  r <- update_active_key o r e ;;
  let r := match ua_public_data o with Some d => set_ac_public_data d r | None => r end in
  updated <- update_delegate o r e ;;
  let '(r, e) := updated in
  store_account (set_ac_last_update (es_now e) r) e.

(** [withdraw_pay_operation::evaluate]. *)
Definition evaluate_withdraw_pay (o : withdraw_pay_operation) e : result (eval_state S) :=
  _ <- throw_if negative_withdraw (wp_amount o <=? 0) ;;
  let id := Z.abs (wp_account_id o) in
  r <- from_option_or unknown_account_id (get_account_record (es_state e) id) ;;
  d <- from_option_or not_a_delegate (ac_delegate_info r) ;;
  _ <- throw_if insufficient_funds (ds_pay_balance d <? wp_amount o) ;;
  signed <- account_or_any_parent_has_signed e r ;;
  _ <- throw_unless missing_signature signed ;;
  let r := set_ac_delegate_info (Some (set_ds_pay_balance (ds_pay_balance d -! wp_amount o) d)) r in
  let e := set_vote_deltas (<[id := at_or_0 (es_vote_deltas e) id -! wp_amount o]> (es_vote_deltas e)) e in
  store_account r (add_balance (mk_asset (wp_amount o) 0) e).

(** [update_signing_key_operation::evaluate]. *)
Definition evaluate_update_signing_key (o : update_signing_key_operation) e : result (eval_state S) :=
  r <- from_option_or unknown_account_id (get_account_record (es_state e) (us_account_id o)) ;;
  retracted <- is_retracted r ;;
  _ <- throw_if account_retracted retracted ;;
  _ <- throw_unless not_a_delegate (is_delegate r) ;;
  _ <- key_not_in_use (us_signing_key o) e ;;
  addr <- signing_address r ;;
  signed <- (if check_signature e addr then Ok true else account_or_any_parent_has_signed e r) ;;
  _ <- throw_unless missing_signature signed ;;
  r <- set_signing_key (get_head_block_num (es_state e)) (us_signing_key o) r ;;
  store_account (set_ac_last_update (es_now e) r) e.
End operations.
