(* ===== verification/AssetOps.v ===== *)
(** The operations on assets: create, issue and the three updates
    (asset_operations.cpp). *)

From Stdlib Require Import String.
From S2P Require Import Prelude Asset Names Records ChainInterface EvalState BalanceOps.

Definition MAX_SHARES : Z := 1000 * 1000 * (1000 * 1000) * 1000.
Definition MAX_UIA_MARKET_FEE_RATE : Z := 10000.

(** Some bit below 32 of the requested flags that the test rejects. *)
Definition some_flag (flags : Z) (reject : Z -> bool) : bool :=
  existsb (fun i => let flag := Z.shiftl 1 (Z.of_nat i) in
                    negb (Z.land flags flag =? 0) && reject flag) (seq 0 32).

Section operations.
Context {S : Type} `{FcI : Fc} `{CI : chain_interface S} `{Cr : Crypto} `{Tx : TxCrypto}.
Implicit Types e : eval_state S.

(** ** Create *)

(** A sub-symbol needs the authority of the parent asset. *)
Definition check_parent_symbol (symbol : string) e : result unit :=
  match find_char dot (chars symbol) with
  | Some dot_pos =>
      parent <- get_asset_record_by_symbol (es_state e) (unchars (take dot_pos (chars symbol))) ;;
      parent <- from_option_or assert_exception parent ;;
      _ <- fc_assert (is_user_issued parent) ;;
      throw_unless missing_signature (verify_authority e (as_authority parent))
  | None => Ok tt
  end.

(** The account whose active key becomes the authority, by type of issuer. *)
Definition issuer_account (issuer_type issuer_id : Z) e : result (option account_record * eval_state S) :=
  if issuer_type =? user_issuer_id then
    r <- from_option_or unknown_account_id (get_account_record (es_state e) issuer_id) ;;
    Ok (Some r, e)
  else if issuer_type =? game_issuer_id then
    game <- from_option_or unknown_game_id (get_game_record (es_state e) issuer_id) ;;
    let e := set_state (store_game_record game (es_state e)) e in
    r <- from_option_or unknown_account_id (get_account_record (es_state e) (gm_owner_account_id game)) ;;
    Ok (Some r, e)
  else Ok (None, e).

(** The authority of the new asset. *)
Definition new_authority (r : option account_record) : result multisig_meta_info :=
  match r with
  | Some r => key <- active_key r ;; Ok {| ms_required := 1; ms_owners := {[ key_address key ]} |}
  | None => Ok (as_authority asset_record_default)
  end.

(** [create_asset_operation::evaluate]. *)
Definition evaluate_create_asset (o : create_asset_operation) e : result (eval_state S) :=
  valid <- is_valid_symbol_name (ca_symbol o) ;;
  _ <- throw_unless invalid_asset_symbol valid ;;
  _ <- check_parent_symbol (ca_symbol o) e ;;
  current <- get_asset_record_by_symbol (es_state e) (ca_symbol o) ;;
  _ <- throw_if asset_symbol_in_use match current with Some _ => true | None => false end ;;
  _ <- throw_if invalid_asset_name (bool_decide (ca_name o = ""%string)) ;;
  last <- last_asset_id (es_state e) ;;
  _ <- throw_if asset_id_in_use match get_asset_record (es_state e) (last + 1) with Some _ => true | None => false end ;;
  issuer <- issuer_account (ca_issuer_type o) (ca_issuer_id o) e ;;
  let '(authority_account, e) := issuer in
  _ <- throw_if invalid_asset_amount
         ((ca_maximum_share_supply o <=? 0) || (MAX_SHARES <? ca_maximum_share_supply o)) ;;
  _ <- throw_unless invalid_precision (is_power_of_ten (ca_precision o)) ;;
  let e := add_min_fee 0 (get_asset_registration_fee (string_size (ca_symbol o))) e in
  new_id <- new_asset_id (es_state e) ;;
  let '(id, s) := new_id in
  let e := set_state s e in
  authority <- new_authority authority_account ;;
  let r := mk_asset_record id (ca_symbol o) (ca_issuer_type o) (ca_issuer_id o) authority
    (as_authority_flag_permissions asset_record_default) (as_active_flags asset_record_default) ∅
    (ca_name o) (ca_description o) (ca_public_data o) (ca_precision o) (ca_maximum_share_supply o)
    0 0 0 (ca_initial_supply o) (ca_initial_collateral o) (es_now e) (es_now e) in
  let e := store_asset r e in
  Ok (sub_balance (mk_asset (ca_initial_collateral o) 0)
        (add_balance (mk_asset (ca_initial_supply o) id) e)).

(** ** Issue *)

(** [issue_asset_operation::evaluate]: a positive id issues new shares, a
    negative one takes them from the collected fees. *)
Definition evaluate_issue_asset (a : asset) e : result (eval_state S) :=
  r <- from_option_or unknown_asset_id (get_asset_record (es_state e) (Z.abs (asset_id a))) ;;
  _ <- throw_unless not_user_issued (is_user_issued r) ;;
  _ <- throw_unless missing_signature (verify_authority e (as_authority r)) ;;
  _ <- throw_if negative_issue (amount a <=? 0) ;;
  r <- (if 0 <? asset_id a then
          _ <- throw_if over_issue (as_max_supply r -! as_current_supply r <? amount a) ;;
          Ok (set_as_current_supply (as_current_supply r +! amount a) r)
        else
          _ <- throw_if amount_too_large (as_collected_fees r <? amount a) ;;
          Ok (set_as_collected_fees (as_collected_fees r -! amount a) r)) ;;
  let e := add_balance (mk_asset (amount a) (Z.abs (asset_id a))) e in
  Ok (store_asset (set_as_last_update (es_now e) r) e).

(** ** Updates *)

(** The authority of a user-issued asset must have signed. *)
Definition updatable_asset (id : Z) e : result asset_record :=
  r <- from_option_or unknown_asset_id (get_asset_record (es_state e) id) ;;
  _ <- throw_unless not_user_issued (is_user_issued r) ;;
  _ <- throw_unless missing_signature (verify_authority e (as_authority r)) ;;
  Ok r.

(** An optional field with its checks, or the current value. *)
Definition updated {A} (o : option A) (current : A) (check : A -> result unit) : result A :=
  match o with Some v => _ <- check v ;; Ok v | None => Ok current end.

(** With shares outstanding the change needs the flag. *)
Definition frozen (flag : Z) (r : asset_record) : bool :=
  negb (as_current_supply r =? 0) && negb (flag_is_active r flag).

(** [asset_update_properties_operation::evaluate]. *)
Definition evaluate_asset_update_properties (o : asset_update_properties_operation) e : result (eval_state S) :=
  r <- updatable_asset (ap_asset_id o) e ;;
  _ <- fc_assert (bool_decide (ap_issuer_id o <> None) || bool_decide (ap_name o <> None)
                  || bool_decide (ap_description o <> None) || bool_decide (ap_public_data o <> None)
                  || bool_decide (ap_precision o <> None) || bool_decide (ap_max_supply o <> None)
                  || bool_decide (ap_withdrawal_fee o <> None) || bool_decide (ap_market_fee_rate o <> None)) ;;
  issuer <- updated (ap_issuer_id o) (as_issuer_id r) (fun id =>
      throw_if unknown_account_id match get_account_record (es_state e) id with Some _ => false | None => true end) ;;
  name <- updated (ap_name o) (as_name r) (fun n => throw_if invalid_asset_name (bool_decide (n = ""%string))) ;;
  description <- updated (ap_description o) (as_description r) (fun _ => Ok tt) ;;
  data <- updated (ap_public_data o) (as_public_data r) (fun _ => Ok tt) ;;
  precision <- updated (ap_precision o) (as_precision r) (fun p =>
      _ <- throw_if outstanding_shares_exist (negb (as_current_supply r =? 0)) ;;
      throw_unless invalid_precision (is_power_of_ten p)) ;;
  max_supply <- updated (ap_max_supply o) (as_max_supply r) (fun m =>
      _ <- throw_if outstanding_shares_exist (frozen dynamic_max_supply r) ;;
      throw_if invalid_asset_amount ((m <? as_current_supply r) || (MAX_SHARES <? m))) ;;
  withdrawal_fee <- updated (ap_withdrawal_fee o) (as_withdrawal_fee r) (fun f =>
      _ <- throw_if outstanding_shares_exist (frozen dynamic_fees r) ;;
      throw_if invalid_asset_amount ((f <? 0) || (max_supply <? f))) ;;
  market_fee_rate <- updated (ap_market_fee_rate o) (as_market_fee_rate r) (fun f =>
      _ <- throw_if outstanding_shares_exist (frozen dynamic_fees r) ;;
      throw_if invalid_fee_rate (MAX_UIA_MARKET_FEE_RATE <? f)) ;;
  let r := set_as_properties issuer name description data precision max_supply withdrawal_fee market_fee_rate r in
  Ok (store_asset (set_as_last_update (es_now e) r) e).

(** [asset_update_permissions_operation::evaluate]. *)
Definition evaluate_asset_update_permissions (o : asset_update_permissions_operation) e : result (eval_state S) :=
  r <- updatable_asset (am_asset_id o) e ;;
  _ <- fc_assert (bool_decide (am_authority o <> None) || bool_decide (am_authority_flag_permissions o <> None)
                  || bool_decide (am_active_flags o <> None)) ;;
  authority <- updated (am_authority o) (as_authority r) (fun a =>
      throw_if invalid_authority ((ms_required a <? 1) || bool_decide (ms_owners a = ∅))) ;;
  permissions <- updated (am_authority_flag_permissions o) (as_authority_flag_permissions r) (fun p =>
      throw_if outstanding_shares_exist
        (negb (as_current_supply r =? 0) && some_flag p (fun flag => negb (authority_has_flag_permission r flag)))) ;;
  let r := set_as_authority authority permissions (as_active_flags r) r in
  flags <- updated (am_active_flags o) (as_active_flags r) (fun f =>
      throw_if permission_not_available (some_flag f (fun flag => negb (authority_has_flag_permission r flag)))) ;;
  let r := set_as_authority (as_authority r) (as_authority_flag_permissions r) flags r in
  Ok (store_asset (set_as_last_update (es_now e) r) e).

(** [asset_update_whitelist_operation::evaluate]. *)
Definition evaluate_asset_update_whitelist (o : asset_update_whitelist_operation) e : result (eval_state S) :=
  r <- from_option_or unknown_asset_id (get_asset_record (es_state e) (Z.abs (aw_asset_id o))) ;;
  _ <- throw_unless not_user_issued (is_user_issued r) ;;
  r <- (if 0 <? aw_asset_id o then
          _ <- fc_assert (flag_is_active r restricted_deposits) ;;
          Ok (set_as_whitelist ({[ aw_owner o ]} ∪ as_whitelist r) r)
        else Ok (set_as_whitelist (as_whitelist r ∖ {[ aw_owner o ]}) r)) ;;
  Ok (store_asset r e).
End operations.
