(* ===== verification/MarketOps.v ===== *)
(** Defining a slate and publishing a feed (slate_operations.cpp,
    feed_operations.cpp); bids, asks and chips (market_operations.cpp). The price
    of chips is a [double]: IEEE binary64 as [SpecFloat] defines it. *)

From Stdlib Require Import SpecFloat.
From S2P Require Import Prelude Asset Records ChainInterface EvalState BalanceOps.

Definition MAX_SLATE_SIZE : Z := NUM_DELEGATES + NUM_DELEGATES / 10.

Section operations.
Context {S : Type} `{FcI : Fc} `{CI : chain_interface S} `{Cr : Crypto} `{Tx : TxCrypto}.
Implicit Types e : eval_state S.

Definition slate_member_ok e (id : account_id) : bool :=
  if 0 <=? id then
    match get_account_record (es_state e) id with Some r => is_delegate r | None => false end
  else true.

(** [define_slate_operation::evaluate]; the slate of the operation is a
    vector. *)
Definition evaluate_define_slate (slate : list Z) e : result (eval_state S) :=
  _ <- fc_assert (negb (bool_decide (slate = []))) ;;
  _ <- throw_if too_may_delegates_in_slate (MAX_SLATE_SIZE <? Z.of_nat (length slate)) ;;
  _ <- fc_assert (forallb (slate_member_ok e) slate) ;;
  let record : slate_record := list_to_set slate in
  match get_slate_record (es_state e) (slate_id record) with
  | Some current => _ <- fc_assert (bool_decide (current = record)) ;; Ok e
  | None => Ok (set_state (store_slate_record record (es_state e)) e)
  end.

(** [update_feed_operation::evaluate]; a value that is not a price is
    [None]. *)
Definition evaluate_update_feed (o : update_feed_operation) e : result (eval_state S) :=
  r <- from_option_or unknown_account_id (get_account_record (es_state e) (uf_delegate_id o)) ;;
  retracted <- is_retracted r ;;
  _ <- throw_if account_retracted retracted ;;
  _ <- throw_unless not_a_delegate (is_delegate r) ;;
  addr <- signing_address r ;;
  signed <- (if check_signature e addr then Ok true else account_or_any_parent_has_signed e r) ;;
  _ <- throw_unless missing_signature signed ;;
  value <- from_option_or invalid_feed_price (uf_value o) ;;
  _ <- throw_if invalid_feed_price (negb (quote_asset_id value =? uf_quote_id o) || negb (base_asset_id value =? 0)) ;;
  asset_rec <- from_option_or unknown_asset_id (get_asset_record (es_state e) (uf_quote_id o)) ;;
  _ <- throw_unless invalid_market (is_market_issued asset_rec) ;;
  let record := {| fr_quote_id := uf_quote_id o; fr_delegate_id := uf_delegate_id o;
                   fr_value := value; fr_last_update := es_now e |} in
  s <- set_market_dirty (quote_asset_id value) (base_asset_id value) (store_feed_record record (es_state e)) ;;
  Ok (set_state s e).
End operations.

(** ** binary64 *)

Definition to_double (z : Z) : spec_float := binary_normalize 53 1024 z 0 false.
Definition double_mul : spec_float -> spec_float -> spec_float := SFmul 53 1024.
Definition double_div : spec_float -> spec_float -> spec_float := SFdiv 53 1024.

(** Conversion to [int64_t]: truncation, undefined outside the range. *)
Definition double_to_int64 (f : spec_float) : result Z :=
  let in_range v := if bool_decide (in_int64 v) then Ok v else Throw undefined_behaviour in
  match f with
  | S754_zero _ => Ok 0
  | S754_finite s m e =>
      let magnitude := if 0 <=? e then Z.shiftl (Zpos m) e else Z.shiftr (Zpos m) (- e) in
      in_range (if s then - magnitude else magnitude)
  | S754_infinity _ | S754_nan => Throw undefined_behaviour
  end.

(** [amount * ((collateral * 1.0) / supply)]. *)
Definition chips_cost (amount collateral supply : Z) : result Z :=
  let price := double_div (double_mul (to_double collateral) (to_double 1)) (to_double supply) in
  double_to_int64 (double_mul (to_double amount) price).

Section operations.
Context {S : Type} `{FcI : Fc} `{CI : chain_interface S} `{Cr : Crypto} `{Tx : TxCrypto}.
Implicit Types e : eval_state S.

(** The part bids and asks share: the checks on the market and the owner. *)
Definition check_order (index : market_index_key) (authority_asset : Z) e : result unit :=
  let p := mi_order_price index in
  _ <- throw_if zero_price (price_eqb p price_default) ;;
  base <- require_asset e (base_asset_id p) ;;
  quote <- require_asset e (quote_asset_id p) ;;
  _ <- fc_assert (address_is_whitelisted base (mi_owner index)) ;;
  _ <- fc_assert (address_is_whitelisted quote (mi_owner index)) ;;
  let authority := if authority_asset =? quote_asset_id p then quote else base in
  throw_unless missing_signature (authority_is_retracting authority e || check_signature e (mi_owner index)).

(** The order with the amount added, and the evaluation state that paid it. *)
Definition change_order (o : market_operation) (delta_asset : Z) (current : option order_record) e
    : result (order_record * eval_state S) :=
  _ <- throw_if zero_amount (mo_amount o =? 0) ;;
  changed <- (if mo_amount o <? 0 then
         r <- from_option_or unknown_market_order current ;;
         _ <- throw_if undefined_behaviour (mo_amount o =? INT64_MIN) ;;
         _ <- throw_if insufficient_funds (or_balance r <? Z.abs (mo_amount o)) ;;
         Ok (r, add_balance (asset_neg (mk_asset (mo_amount o) delta_asset)) e)
       else Ok (default order_record_default current, sub_balance (mk_asset (mo_amount o) delta_asset) e)) ;;
  let '(r, e) := changed in
  Ok (mk_order (or_balance r +! mo_amount o) (or_limit_price r) (es_now e), e).

(** [bid_operation::evaluate]. *)
Definition evaluate_bid (o : market_operation) e : result (eval_state S) :=
  let quote := quote_asset_id (mi_order_price (mo_index o)) in
  _ <- check_order (mo_index o) quote e ;;
  changed <- change_order o quote (get_bid_record (es_state e) (mo_index o)) e ;;
  let '(r, e) := changed in
  Ok (set_state (store_bid_record (mo_index o) r (es_state e)) e).

(** [ask_operation::evaluate]. *)
Definition evaluate_ask (o : market_operation) e : result (eval_state S) :=
  let base := base_asset_id (mi_order_price (mo_index o)) in
  _ <- check_order (mo_index o) base e ;;
  changed <- change_order o base (get_ask_record (es_state e) (mo_index o)) e ;;
  let '(r, e) := changed in
  _ <- fc_assert (0 <=? or_balance r) ;;
  Ok (set_state (store_ask_record (mo_index o) r (es_state e)) e).

(** The balance chips go to; unlike other payments it keeps its deposit
    date. *)
Definition chips_target (owner : address) (asset : Z) e : balance_record :=
  match get_balance_record (es_state e) (condition_address (signature_condition owner asset 0)) with
  | Some r => r
  | None => balance_of_condition (signature_condition owner asset 0)
  end.

(** [buy_chips_operation::evaluate]. *)
Definition evaluate_buy_chips (o : buy_chips_operation) e : result (eval_state S) :=
  let bought := bc_amount o in
  _ <- throw_if zero_amount (amount bought =? 0) ;;
  _ <- throw_if negative_deposit (amount bought <? 0) ;;
  r <- require_asset e (asset_id bought) ;;
  cost <- chips_cost (amount bought) (as_current_collateral r) (as_current_supply r) ;;
  let e := sub_balance (mk_asset cost 0) e in
  let target := chips_target (bc_owner o) (asset_id bought) e in
  let target := set_br_balance (br_balance target +! amount bought) (set_br_last_update (es_now e) target) in
  let e := store_balance target e in
  let r := set_as_money (as_collected_fees r) (as_current_supply r +! amount bought)
             (as_current_collateral r +! cost) r in
  Ok (store_asset (set_as_last_update (es_now e) r) e).
End operations.
