(* ===== verification/Transaction.v ===== *)
(** Evaluating a transaction and applying the transactions of a block:
    [operation_factory::evaluate] with the registrations of operations.cpp,
    [transaction_evaluation_state::evaluate], and [apply_transactions] of
    chain_database.cpp. *)

From S2P Require Import Prelude Asset Names Records ChainInterface EvalState BalanceOps.
From S2P Require Import AccountOps AssetOps MarketOps.

Definition MAX_TRANSACTION_EXPIRATION_SEC : Z := 60 * 60 * 24 * 2.

Section transaction.
Context {S : Type} `{FcI : Fc} `{CI : chain_interface S} `{Cr : Crypto} `{Tx : TxCrypto} `{St : Statics}.
Implicit Types e : eval_state S.

(** [operation_factory::evaluate]: bids, asks, feeds, escrow releases and fee
    limits have no registered converter. *)
Definition evaluate_operation (op : operation) e : result (eval_state S) :=
  match op with
  | op_withdraw o => evaluate_withdraw o e
  | op_deposit o => evaluate_deposit o e
  | op_register_account o => evaluate_register_account o e
  | op_update_account o => evaluate_update_account o e
  | op_withdraw_pay o => evaluate_withdraw_pay o e
  | op_create_asset o => evaluate_create_asset o e
  | op_issue_asset a => evaluate_issue_asset a e
  | op_asset_update_properties o => evaluate_asset_update_properties o e
  | op_asset_update_permissions o => evaluate_asset_update_permissions o e
  | op_asset_update_whitelist o => evaluate_asset_update_whitelist o e
  | op_define_slate slate => evaluate_define_slate slate e
  | op_burn o => evaluate_burn o e
  | op_ad o => evaluate_ad o e
  | op_note o => evaluate_note o e
  | op_red_packet o => evaluate_red_packet o e
  | op_claim_packet o => evaluate_claim_packet o e
  | op_update_signing_key o => evaluate_update_signing_key o e
  | op_update_balance_vote o => evaluate_update_balance_vote o e
  | op_data _ => Ok e
  | op_buy_chips o => evaluate_buy_chips o e
  | op_bid _ | op_ask _ | op_update_feed _ | op_release_escrow _ | op_limit_fee _ =>
      Throw unsupported_chain_operation
  end.

(** The addresses of a key: its own and the four PTS encodings. *)
Definition key_addresses (k : public_key) : gset address :=
  {[ key_address k; pts_key_address k false 56; pts_key_address k true 56;
     pts_key_address k false 0; pts_key_address k true 0 ]}.

Definition recover_signatures (trx : signed_transaction) e : result (eval_state S) :=
  if es_skip_signature_check e then Ok e
  else
    let digest := trx_digest trx static_chain_id in
    signed <- foldM (fun sig signed =>
        k <- recover_key sig digest (es_enforce_canonical e) ;; Ok (key_addresses k ∪ signed))
      (tx_signatures trx) (es_signed e) ;;
    Ok (set_signed signed e).

(** The loop over the operations. *)
Definition evaluate_operations (ops : list operation) e : result (eval_state S) :=
  foldM (fun op e => e <- evaluate_operation op e ;; Ok (set_op_index (es_op_index e + 1) e))
    ops (set_op_index 0 e).

(** The steps of [evaluate] after the operations. *)
Definition settle e : result (eval_state S) :=
  e <- validate_fees e ;;
  e <- calculate_base_equivalent_fees e ;;
  e <- update_delegate_votes e ;;
  update_rp_values e.

(** [transaction_evaluation_state::evaluate]. *)
Definition evaluate (trx : signed_transaction) e : result (eval_state S) :=
  let e := set_trx trx e in
  let now := chain_now (es_state e) in
  _ <- throw_if expired_transaction (tx_expiration trx <=? now) ;;
  _ <- throw_if invalid_transaction_expiration (uwrap32 (now + MAX_TRANSACTION_EXPIRATION_SEC) <? tx_expiration trx) ;;
  _ <- throw_if duplicate_transaction (is_known_transaction (es_state e) trx) ;;
  e <- recover_signatures trx e ;;
  e <- evaluate_operations (tx_operations trx) e ;;
  e <- settle e ;;
  Ok (set_state (store_transaction (trx_id trx) {| tr_trx := trx; tr_chain_location := (0, 0); tr_yield_claimed := es_yield_claimed e |} (es_state e)) e).

(** One transaction of [apply_transactions]: evaluated on the pending state
    of the block, then stored with its location. *)
Definition apply_transaction (skip_signatures : bool) (block_num trx_num : Z) (trx : signed_transaction) (s : S)
    : result S :=
  e <- evaluate trx (set_skips skip_signatures false false (eval_start s)) ;;
  let s := es_state e in
  record <- from_option_or assert_exception (get_transaction s (trx_id trx)) ;;
  Ok (store_transaction (trx_id trx) {| tr_trx := tr_trx record; tr_chain_location := (block_num, trx_num); tr_yield_claimed := tr_yield_claimed record |} s).

Fixpoint apply_transactions (skip_signatures : bool) (block_num trx_num : Z) (trxs : list signed_transaction) (s : S)
    : result S :=
  match trxs with
  | [] => Ok s
  | trx :: trxs =>
      s <- apply_transaction skip_signatures block_num trx_num trx s ;;
      apply_transactions skip_signatures block_num (trx_num + 1) trxs s
  end.
End transaction.
