(* ===== verification/Tables.v ===== *)
(** Storage of the chain states: a family of tables with one component per
    table and a family of index maps, with their get and set functions, and the
    overlay that [pending_chain_state] keeps for each table. *)

From S2P Require Import Prelude Asset Records ChainInterface.

(** ** One component per table *)

Record tables (F : table -> Type) := mk_tables {
  tb_property : F property_t;
  tb_account : F account_t;
  tb_asset : F asset_t;
  tb_slate : F slate_t;
  tb_balance : F balance_t;
  tb_transaction : F transaction_t;
  tb_burn : F burn_t;
  tb_ad : F ad_t;
  tb_note : F note_t;
  tb_packet : F packet_t;
  tb_operation_reward : F operation_reward_t;
  tb_feed : F feed_t;
  tb_slot : F slot_t;
  tb_game : F game_t }.
Arguments tb_property {F} _.
Arguments tb_account {F} _.
Arguments tb_asset {F} _.
Arguments tb_slate {F} _.
Arguments tb_balance {F} _.
Arguments tb_transaction {F} _.
Arguments tb_burn {F} _.
Arguments tb_ad {F} _.
Arguments tb_note {F} _.
Arguments tb_packet {F} _.
Arguments tb_operation_reward {F} _.
Arguments tb_feed {F} _.
Arguments tb_slot {F} _.
Arguments tb_game {F} _.
Arguments mk_tables {F}.

Definition tget {F} (t : table) (x : tables F) : F t :=
  match t with
  | property_t => tb_property x
  | account_t => tb_account x
  | asset_t => tb_asset x
  | slate_t => tb_slate x
  | balance_t => tb_balance x
  | transaction_t => tb_transaction x
  | burn_t => tb_burn x
  | ad_t => tb_ad x
  | note_t => tb_note x
  | packet_t => tb_packet x
  | operation_reward_t => tb_operation_reward x
  | feed_t => tb_feed x
  | slot_t => tb_slot x
  | game_t => tb_game x
  end.

Definition tset {F} (t : table) : F t -> tables F -> tables F :=
  match t with
  | property_t => fun v x => mk_tables v (tb_account x) (tb_asset x) (tb_slate x) (tb_balance x) (tb_transaction x) (tb_burn x) (tb_ad x) (tb_note x) (tb_packet x) (tb_operation_reward x) (tb_feed x) (tb_slot x) (tb_game x)
  | account_t => fun v x => mk_tables (tb_property x) v (tb_asset x) (tb_slate x) (tb_balance x) (tb_transaction x) (tb_burn x) (tb_ad x) (tb_note x) (tb_packet x) (tb_operation_reward x) (tb_feed x) (tb_slot x) (tb_game x)
  | asset_t => fun v x => mk_tables (tb_property x) (tb_account x) v (tb_slate x) (tb_balance x) (tb_transaction x) (tb_burn x) (tb_ad x) (tb_note x) (tb_packet x) (tb_operation_reward x) (tb_feed x) (tb_slot x) (tb_game x)
  | slate_t => fun v x => mk_tables (tb_property x) (tb_account x) (tb_asset x) v (tb_balance x) (tb_transaction x) (tb_burn x) (tb_ad x) (tb_note x) (tb_packet x) (tb_operation_reward x) (tb_feed x) (tb_slot x) (tb_game x)
  | balance_t => fun v x => mk_tables (tb_property x) (tb_account x) (tb_asset x) (tb_slate x) v (tb_transaction x) (tb_burn x) (tb_ad x) (tb_note x) (tb_packet x) (tb_operation_reward x) (tb_feed x) (tb_slot x) (tb_game x)
  | transaction_t => fun v x => mk_tables (tb_property x) (tb_account x) (tb_asset x) (tb_slate x) (tb_balance x) v (tb_burn x) (tb_ad x) (tb_note x) (tb_packet x) (tb_operation_reward x) (tb_feed x) (tb_slot x) (tb_game x)
  | burn_t => fun v x => mk_tables (tb_property x) (tb_account x) (tb_asset x) (tb_slate x) (tb_balance x) (tb_transaction x) v (tb_ad x) (tb_note x) (tb_packet x) (tb_operation_reward x) (tb_feed x) (tb_slot x) (tb_game x)
  | ad_t => fun v x => mk_tables (tb_property x) (tb_account x) (tb_asset x) (tb_slate x) (tb_balance x) (tb_transaction x) (tb_burn x) v (tb_note x) (tb_packet x) (tb_operation_reward x) (tb_feed x) (tb_slot x) (tb_game x)
  | note_t => fun v x => mk_tables (tb_property x) (tb_account x) (tb_asset x) (tb_slate x) (tb_balance x) (tb_transaction x) (tb_burn x) (tb_ad x) v (tb_packet x) (tb_operation_reward x) (tb_feed x) (tb_slot x) (tb_game x)
  | packet_t => fun v x => mk_tables (tb_property x) (tb_account x) (tb_asset x) (tb_slate x) (tb_balance x) (tb_transaction x) (tb_burn x) (tb_ad x) (tb_note x) v (tb_operation_reward x) (tb_feed x) (tb_slot x) (tb_game x)
  | operation_reward_t => fun v x => mk_tables (tb_property x) (tb_account x) (tb_asset x) (tb_slate x) (tb_balance x) (tb_transaction x) (tb_burn x) (tb_ad x) (tb_note x) (tb_packet x) v (tb_feed x) (tb_slot x) (tb_game x)
  | feed_t => fun v x => mk_tables (tb_property x) (tb_account x) (tb_asset x) (tb_slate x) (tb_balance x) (tb_transaction x) (tb_burn x) (tb_ad x) (tb_note x) (tb_packet x) (tb_operation_reward x) v (tb_slot x) (tb_game x)
  | slot_t => fun v x => mk_tables (tb_property x) (tb_account x) (tb_asset x) (tb_slate x) (tb_balance x) (tb_transaction x) (tb_burn x) (tb_ad x) (tb_note x) (tb_packet x) (tb_operation_reward x) (tb_feed x) v (tb_game x)
  | game_t => fun v x => mk_tables (tb_property x) (tb_account x) (tb_asset x) (tb_slate x) (tb_balance x) (tb_transaction x) (tb_burn x) (tb_ad x) (tb_note x) (tb_packet x) (tb_operation_reward x) (tb_feed x) (tb_slot x) v
  end.

Definition tconst {F} (f : forall t, F t) : tables F :=
  mk_tables (f property_t) (f account_t) (f asset_t) (f slate_t) (f balance_t) (f transaction_t) (f burn_t) (f ad_t) (f note_t) (f packet_t) (f operation_reward_t) (f feed_t) (f slot_t) (f game_t).

Lemma tget_tset {F} t v (x : tables F) : tget t (tset t v x) = v.
Proof. by destruct t. Qed.

Lemma tget_tset_ne {F} t t' v (x : tables F) : t <> t' -> tget t' (tset t v x) = tget t' x.
Proof. by destruct t, t'. Qed.

Lemma tget_tconst {F} t (f : forall t, F t) : tget t (tconst f) = f t.
Proof. by destruct t. Qed.

(** ** The index maps *)

Record indexes := mk_indexes {
  ix_account_name : gmap (ikey_of account_name_i) Z;
  ix_account_address : gmap (ikey_of account_address_i) Z;
  ix_asset_symbol : gmap (ikey_of asset_symbol_i) Z;
  ix_game_name : gmap (ikey_of game_name_i) Z;
  ix_slot_timestamp : gmap (ikey_of slot_timestamp_i) Z }.

Definition iget (i : index) (x : indexes) : gmap (ikey_of i) Z :=
  match i with
  | account_name_i => ix_account_name x
  | account_address_i => ix_account_address x
  | asset_symbol_i => ix_asset_symbol x
  | game_name_i => ix_game_name x
  | slot_timestamp_i => ix_slot_timestamp x
  end.

Definition iset (i : index) : gmap (ikey_of i) Z -> indexes -> indexes :=
  match i with
  | account_name_i => fun v x => mk_indexes v (ix_account_address x) (ix_asset_symbol x) (ix_game_name x) (ix_slot_timestamp x)
  | account_address_i => fun v x => mk_indexes (ix_account_name x) v (ix_asset_symbol x) (ix_game_name x) (ix_slot_timestamp x)
  | asset_symbol_i => fun v x => mk_indexes (ix_account_name x) (ix_account_address x) v (ix_game_name x) (ix_slot_timestamp x)
  | game_name_i => fun v x => mk_indexes (ix_account_name x) (ix_account_address x) (ix_asset_symbol x) v (ix_slot_timestamp x)
  | slot_timestamp_i => fun v x => mk_indexes (ix_account_name x) (ix_account_address x) (ix_asset_symbol x) (ix_game_name x) v
  end.

Definition indexes_empty : indexes := mk_indexes ∅ ∅ ∅ ∅ ∅.

Lemma iget_iset i v x : iget i (iset i v x) = v.
Proof. by destruct i. Qed.

Lemma iget_iset_ne i i' v x : i <> i' -> iget i' (iset i v x) = iget i' x.
Proof. by destruct i, i'. Qed.

(** ** Overlays

    The pair [_x_id_to_record], [_x_id_remove] of a pending state. *)

Record overlay (K V : Type) `{Countable K} := mk_overlay { ov_records : gmap K V; ov_removed : gset K }.
Arguments mk_overlay {K V _ _}.
Arguments ov_records {K V _ _}.
Arguments ov_removed {K V _ _}.

Section overlay.
Context {K V : Type} `{Countable K}.
Implicit Types (o : overlay K V) (m : gmap K V).

Definition ov_empty : overlay K V := mk_overlay ∅ ∅.

(** [x_insert_into_id_map] and [x_erase_from_id_map]. *)
Definition ov_insert (k : K) (v : V) o : overlay K V :=
  mk_overlay (<[k := v]> (ov_records o)) (ov_removed o ∖ {[k]}).
Definition ov_erase (k : K) o : overlay K V :=
  mk_overlay (delete k (ov_records o)) ({[k]} ∪ ov_removed o).

(** [x_lookup_by_id], given the lookup in the previous state. *)
Definition ov_lookup (k : K) o (prev : option V) : option V :=
  match ov_records o !! k with
  | Some v => Some v
  | None => if bool_decide (k ∈ ov_removed o) then None else prev
  end.

(** What the overlay says of a key: nothing, a removal, or a record. *)
Definition ov_at o (k : K) : option (option V) :=
  match ov_records o !! k with
  | Some v => Some (Some v)
  | None => if bool_decide (k ∈ ov_removed o) then Some None else None
  end.

Lemma ov_lookup_at k o prev : ov_lookup k o prev = default prev (ov_at o k).
Proof. unfold ov_lookup, ov_at. repeat case_match; done. Qed.

Lemma ov_at_empty k : ov_at ov_empty k = None.
Proof. unfold ov_at, ov_empty. simpl. rewrite lookup_empty, bool_decide_eq_false_2; set_solver. Qed.

Lemma ov_at_insert k k' v o : ov_at (ov_insert k v o) k' = if decide (k = k') then Some (Some v) else ov_at o k'.
Proof.
  unfold ov_at, ov_insert. simpl. destruct (decide (k = k')) as [->|Hne].
  - by rewrite lookup_insert_eq.
  - rewrite lookup_insert_ne by done. destruct (ov_records o !! k'); [ done | ].
    repeat case_bool_decide; set_solver.
Qed.

Lemma ov_at_erase k k' o : ov_at (ov_erase k o) k' = if decide (k = k') then Some None else ov_at o k'.
Proof.
  unfold ov_at, ov_erase. simpl. destruct (decide (k = k')) as [->|Hne].
  - rewrite lookup_delete_eq, bool_decide_eq_true_2; set_solver.
  - rewrite lookup_delete_ne by done. destruct (ov_records o !! k'); [ done | ].
    repeat case_bool_decide; set_solver.
Qed.

(** The contents of a table seen through the overlay. *)
Definition ov_flat o m : gmap K V := ov_records o ∪ filter (fun kv => kv.1 ∉ ov_removed o) m.

Lemma ov_flat_lookup k o m : ov_flat o m !! k = ov_lookup k o (m !! k).
Proof.
  unfold ov_flat, ov_lookup. rewrite lookup_union.
  destruct (ov_records o !! k) as [v|] eqn:E.
  - destruct (filter _ m !! k); done.
  - rewrite left_id by apply _. rewrite map_lookup_filter.
    destruct (m !! k) as [v|]; simpl; case_bool_decide; try done;
      [ by rewrite option_guard_False by set_solver | by rewrite option_guard_True by set_solver ].
Qed.

Lemma ov_flat_insert k v o m : ov_flat (ov_insert k v o) m = <[k := v]> (ov_flat o m).
Proof.
  apply map_eq. intros k'. rewrite ov_flat_lookup, ov_lookup_at, ov_at_insert, lookup_insert.
  case_decide; [ done | ]. by rewrite ov_flat_lookup, ov_lookup_at.
Qed.

Lemma ov_flat_erase k o m : ov_flat (ov_erase k o) m = delete k (ov_flat o m).
Proof.
  apply map_eq. intros k'. rewrite ov_flat_lookup, ov_lookup_at, ov_at_erase, lookup_delete.
  case_decide; [ done | ]. by rewrite ov_flat_lookup, ov_lookup_at.
Qed.

Lemma ov_flat_empty m : ov_flat ov_empty m = m.
Proof. apply map_eq. intros k. by rewrite ov_flat_lookup, ov_lookup_at, ov_at_empty. Qed.

(** No key is both stored and removed; insertion and erasure keep it so. *)
Definition ov_wf o : Prop := dom (ov_records o) ## ov_removed o.

Lemma ov_wf_empty : ov_wf ov_empty.
Proof. unfold ov_wf. simpl. set_solver. Qed.
Lemma ov_wf_insert k v o : ov_wf o -> ov_wf (ov_insert k v o).
Proof. unfold ov_wf. simpl. rewrite dom_insert. set_solver. Qed.
Lemma ov_wf_erase k o : ov_wf o -> ov_wf (ov_erase k o).
Proof. unfold ov_wf. simpl. rewrite dom_delete. set_solver. Qed.
End overlay.
Arguments ov_empty {K V _ _}.
