(* ===== verification/PendingState.v ===== *)
(** [pending_chain_state]: changes on top of a previous state, applying them
    to it, and the undo state that takes them back
    (pending_chain_state.cpp and .hpp).

    The overlay of each table is a component of [ps_tables]. The previous
    state is any implementation of [chain_interface]; the weak pointer
    [_prev_state] is taken to be alive. Game data and the lists of game results
    and reward transactions kept for reports are not modelled. *)

From S2P Require Import Prelude Asset Records ChainInterface Tables.

Definition overlay_of (t : table) : Type := overlay (key_of t) (val_of t).

Record pending_chain_state (S : Type) := mk_pending {
  ps_prev : S;
  ps_tables : tables overlay_of;
  ps_indexes : indexes;
  ps_digests : gset Z;
  ps_asks : gmap market_index_key order_record;
  ps_bids : gmap market_index_key order_record;
  ps_dirty_markets : gset (Z * Z);
  ps_market_statuses : gmap (Z * Z) market_status;
  ps_market_history : gmap market_history_key market_history_record;
  ps_market_transactions : list market_transaction }.
Arguments mk_pending {S}.
Arguments ps_prev {S}.
Arguments ps_tables {S}.
Arguments ps_indexes {S}.
Arguments ps_digests {S}.
Arguments ps_asks {S}.
Arguments ps_bids {S}.
Arguments ps_dirty_markets {S}.
Arguments ps_market_statuses {S}.
Arguments ps_market_history {S}.
Arguments ps_market_transactions {S}.

(** [pending_chain_state( prev_state )]. *)
Definition pending_empty {S} (prev : S) : pending_chain_state S :=
  mk_pending prev (tconst (fun t => ov_empty : overlay_of t)) indexes_empty ∅ ∅ ∅ ∅ ∅ ∅ [].

(** [set_prev_state]. *)
Definition set_prev_state {S S'} (prev : S') (p : pending_chain_state S) : pending_chain_state S' :=
  mk_pending prev (ps_tables p) (ps_indexes p) (ps_digests p) (ps_asks p) (ps_bids p) (ps_dirty_markets p)
    (ps_market_statuses p) (ps_market_history p) (ps_market_transactions p).

Section operations.
Context {S : Type}.
Implicit Types p : pending_chain_state S.

Definition set_ps_table (t : table) (o : overlay_of t) p : pending_chain_state S :=
  mk_pending (ps_prev p) (tset t o (ps_tables p)) (ps_indexes p) (ps_digests p) (ps_asks p)
    (ps_bids p) (ps_dirty_markets p)
    (ps_market_statuses p) (ps_market_history p) (ps_market_transactions p).
Definition set_ps_index (i : index) (m : gmap (ikey_of i) Z) p : pending_chain_state S :=
  mk_pending (ps_prev p) (ps_tables p) (iset i m (ps_indexes p)) (ps_digests p) (ps_asks p)
    (ps_bids p) (ps_dirty_markets p)
    (ps_market_statuses p) (ps_market_history p) (ps_market_transactions p).
Definition set_ps_digests (d : gset Z) p : pending_chain_state S :=
  mk_pending (ps_prev p) (ps_tables p) (ps_indexes p) d (ps_asks p) (ps_bids p) (ps_dirty_markets p)
    (ps_market_statuses p) (ps_market_history p) (ps_market_transactions p).
Definition set_ps_orders (asks bids : gmap market_index_key order_record) (dirty : gset (Z * Z)) p
    : pending_chain_state S :=
  mk_pending (ps_prev p) (ps_tables p) (ps_indexes p) (ps_digests p) asks bids dirty
    (ps_market_statuses p) (ps_market_history p) (ps_market_transactions p).
Definition set_ps_markets (statuses : gmap (Z * Z) market_status)
    (history : gmap market_history_key market_history_record) (trxs : list market_transaction) p : pending_chain_state S :=
  mk_pending (ps_prev p) (ps_tables p) (ps_indexes p) (ps_digests p) (ps_asks p) (ps_bids p) (ps_dirty_markets p)
    statuses history trxs.

Context `{CI : chain_interface S} `{Tx : TxCrypto} `{St : Statics}.

Definition pending_lookup (t : table) p (k : key_of t) : option (val_of t) :=
  ov_lookup k (tget t (ps_tables p)) (record_lookup t (ps_prev p) k).
Definition pending_insert (t : table) (k : key_of t) (v : val_of t) p : pending_chain_state S :=
  set_ps_table t (ov_insert k v (tget t (ps_tables p))) p.
Definition pending_erase (t : table) (k : key_of t) p : pending_chain_state S :=
  set_ps_table t (ov_erase k (tget t (ps_tables p))) p.

(** Lookup by name, address, symbol or timestamp: an id of this state's map
    must be in its overlay ([at] throws); otherwise the previous state
    answers, unless the record it names was removed here. *)
Definition pending_index_lookup (i : index) p (k : ikey_of i) : result (option (val_of (indexed_table i))) :=
  let o := tget (indexed_table i) (ps_tables p) in
  match iget i (ps_indexes p) !! k with
  | Some id =>
      r <- from_option_or out_of_range (ov_records o !! indexed_key i k id) ;; Ok (Some r)
  | None =>
      record <- index_lookup i (ps_prev p) k ;;
      Ok match record with
         | Some r => if bool_decide (record_key i r ∈ ov_removed o) then None else Some r
         | None => None
         end
  end.
Definition pending_index_insert (i : index) (k : ikey_of i) (id : Z) p : pending_chain_state S :=
  set_ps_index i (<[k := id]> (iget i (ps_indexes p))) p.
Definition pending_index_erase (i : index) (k : ikey_of i) p : pending_chain_state S :=
  set_ps_index i (delete k (iget i (ps_indexes p))) p.

Definition transaction_insert_into_unique_set (trx : signed_transaction) p : pending_chain_state S :=
  set_ps_digests ({[ trx_digest trx static_chain_id ]} ∪ ps_digests p) p.
Definition transaction_erase_from_unique_set (trx : signed_transaction) p : pending_chain_state S :=
  set_ps_digests (ps_digests p ∖ {[ trx_digest trx static_chain_id ]}) p.
Definition pending_is_known_transaction p (trx : signed_transaction) : bool :=
  bool_decide (trx_digest trx static_chain_id ∈ ps_digests p) || is_known_transaction (ps_prev p) trx.

Definition pending_set_market_dirty (quote_id base_id : Z) p : pending_chain_state S :=
  set_ps_orders (ps_asks p) (ps_bids p) ({[ (quote_id, base_id) ]} ∪ ps_dirty_markets p) p.
Definition pending_get_bid p (k : market_index_key) : option order_record :=
  match ps_bids p !! k with Some o => Some o | None => get_bid_record (ps_prev p) k end.
Definition pending_get_ask p (k : market_index_key) : option order_record :=
  match ps_asks p !! k with Some o => Some o | None => get_ask_record (ps_prev p) k end.
Definition pending_store_bid (k : market_index_key) (o : order_record) p : pending_chain_state S :=
  set_ps_orders (ps_asks p) (<[k := o]> (ps_bids p)) ({[ asset_pair (mi_order_price k) ]} ∪ ps_dirty_markets p) p.
Definition pending_store_ask (k : market_index_key) (o : order_record) p : pending_chain_state S :=
  set_ps_orders (<[k := o]> (ps_asks p)) (ps_bids p) ({[ asset_pair (mi_order_price k) ]} ∪ ps_dirty_markets p) p.
Definition pending_get_market_status p (k : Z * Z) : option market_status :=
  match ps_market_statuses p !! k with Some s => Some s | None => get_market_status (ps_prev p) k end.
Definition pending_store_market_status (s : market_status) p : pending_chain_state S :=
  set_ps_markets (<[(st_quote_id s, st_base_id s) := s]> (ps_market_statuses p)) (ps_market_history p)
    (ps_market_transactions p) p.
Definition pending_store_market_history_record (k : market_history_key) (r : market_history_record) p
    : pending_chain_state S :=
  set_ps_markets (ps_market_statuses p) (<[k := r]> (ps_market_history p)) (ps_market_transactions p) p.
Definition pending_set_market_transactions (trxs : list market_transaction) p : pending_chain_state S :=
  set_ps_markets (ps_market_statuses p) (ps_market_history p) trxs p.

(** The vote and reputation rankings are kept by the database only; the
    history of a market is not looked up in the previous state. *)
#[export] Instance pending_interface : chain_interface (pending_chain_state S) := {|
  record_lookup := pending_lookup;
  record_insert := pending_insert;
  record_erase := pending_erase;
  index_lookup := pending_index_lookup;
  index_insert := pending_index_insert;
  index_erase := pending_index_erase;
  ranking_insert := fun _ _ p => p;
  ranking_erase := fun _ _ p => p;
  unique_insert := transaction_insert_into_unique_set;
  unique_erase := transaction_erase_from_unique_set;
  is_known_transaction := pending_is_known_transaction;
  chain_now := fun p => chain_now (ps_prev p);
  get_head_block_num := fun p => get_head_block_num (ps_prev p);
  get_active_feed_price := fun p => get_active_feed_price (ps_prev p);
  set_market_dirty := fun q b p => Ok (pending_set_market_dirty q b p);
  get_bid_record := pending_get_bid;
  get_ask_record := pending_get_ask;
  store_bid_record := pending_store_bid;
  store_ask_record := pending_store_ask;
  get_market_status := pending_get_market_status;
  store_market_status := pending_store_market_status;
  get_market_history_record := fun p k => ps_market_history p !! k;
  store_market_history_record := pending_store_market_history_record;
  set_market_transactions := pending_set_market_transactions |}.

#[export] Instance pending_spec `{!chain_spec S} : chain_spec (pending_chain_state S).
Proof.
  refine {| flat := fun t p => ov_flat (tget t (ps_tables p)) (flat t (ps_prev p)) |}; intros; simpl.
  - by rewrite ov_flat_lookup, <- flat_lookup.
  - by rewrite tget_tset, ov_flat_insert.
  - by rewrite tget_tset_ne.
  - by rewrite tget_tset, ov_flat_erase.
  - by rewrite tget_tset_ne.
  - done.
  - done.
  - done.
  - done.
  - done.
  - done.
  - by simplify_eq/=.
  - done.
  - done.
  - done.
  - done.
  - done.
  - done.
Defined.

(** The previous state is a view that nothing changes. *)
Definition pending_prev_view : table_view (pending_chain_state S) (fun _ => S).
Proof.
  refine {| view := fun t p => ps_prev p; view_put := fun t k v w => w; view_del := fun t k w => w |}; done.
Defined.
End operations.

(** ** [apply_changes] and [build_undo_state] *)

#[global] Arguments record_lookup : simpl never.
#[global] Arguments record_insert : simpl never.
#[global] Arguments record_erase : simpl never.
#[global] Arguments index_lookup : simpl never.
#[global] Arguments index_insert : simpl never.
#[global] Arguments index_erase : simpl never.
#[global] Arguments set_market_dirty : simpl never.
#[global] Arguments store_bid_record : simpl never.
#[global] Arguments store_ask_record : simpl never.
#[global] Arguments store_market_status : simpl never.
#[global] Arguments store_market_history_record : simpl never.
#[global] Arguments set_market_transactions : simpl never.

Lemma pending_flat {S : Type} `{chain_spec S} `{Tx : TxCrypto} `{St : Statics} t (p : pending_chain_state S) :
  flat t p = ov_flat (tget t (ps_tables p)) (flat t (ps_prev p)).
Proof. done. Qed.

Section apply.
Context {S : Type} `{CI : chain_interface S} `{Cr : Crypto} `{Tx : TxCrypto} `{St : Statics}.

(** The template [apply_records]: removals, then stores. *)
Definition apply_records (t : table) (o : overlay_of t) (prev_state : S) : result S :=
  prev_state <- foldM (fun key s => remove t key s) (elements (ov_removed o)) prev_state ;;
  foldM (fun item s => store t (fst item) (snd item) s) (map_to_list (ov_records o)) prev_state.

Definition apply_order : list table :=
  [ property_t; account_t; asset_t; slate_t; balance_t; transaction_t; burn_t; ad_t; note_t;
    packet_t; operation_reward_t; slot_t; game_t ].

Definition apply_changes (p : pending_chain_state S) : result S :=
  s <- foldM (fun t s => apply_records t (tget t (ps_tables p)) s) apply_order (ps_prev p) ;;
  let s := foldl (fun s item => store_market_status (snd item) s) s (map_to_list (ps_market_statuses p)) in
  let s := foldl (fun s item => store_bid_record (fst item) (snd item) s) s (map_to_list (ps_bids p)) in
  let s := foldl (fun s item => store_ask_record (fst item) (snd item) s) s (map_to_list (ps_asks p)) in
  let s := foldl (fun s item => store_market_history_record (fst item) (snd item) s) s
             (map_to_list (ps_market_history p)) in
  s <- apply_records feed_t (tget feed_t (ps_tables p)) s ;;
  let s := set_market_transactions (ps_market_transactions p) s in
  Ok (set_dirty_markets (elements (ps_dirty_markets p)) s).

(** The template [populate_undo_state]. *)
Definition populate_undo_state (t : table) (prev_state : S) (o : overlay_of t)
    (undo_state : pending_chain_state (pending_chain_state S)) : result (pending_chain_state (pending_chain_state S)) :=
  undo_state <- foldM (fun key u =>
      match record_lookup t prev_state key with Some prev_record => store t key prev_record u | None => Ok u end)
    (elements (ov_removed o)) undo_state ;;
  foldM (fun item u =>
      match record_lookup t prev_state (fst item) with
      | Some prev_record => store t (fst item) prev_record u
      | None => remove t (fst item) u
      end) (map_to_list (ov_records o)) undo_state.

Definition undo_order : list table :=
  [ property_t; account_t; asset_t; slate_t; balance_t; transaction_t; burn_t; note_t; packet_t;
    feed_t; slot_t; game_t ].

(** [save_undo_state] creates the undo state over the pending state itself. *)
Definition build_undo_state (p : pending_chain_state S) : result (pending_chain_state (pending_chain_state S)) :=
  u <- foldM (fun t u => populate_undo_state t (ps_prev p) (tget t (ps_tables p)) u) undo_order (pending_empty p) ;;
  let u := foldl (fun u item =>
      store_bid_record (fst item) (default order_record_default (get_bid_record (ps_prev p) (fst item))) u)
    u (map_to_list (ps_bids p)) in
  let u := foldl (fun u item =>
      store_ask_record (fst item) (default order_record_default (get_ask_record (ps_prev p) (fst item))) u)
    u (map_to_list (ps_asks p)) in
  let u := foldl (fun u item =>
      store_market_status (default market_status_default (get_market_status (ps_prev p) (fst item))) u)
    u (map_to_list (ps_market_statuses p)) in
  Ok (set_dirty_markets (get_dirty_markets (ps_prev p)) u).

(** [pop_block]: the undo state is put on the current state and applied. *)
Definition undo_changes (u : pending_chain_state (pending_chain_state S)) (db : S) : result S :=
  apply_changes (set_prev_state db u).
End apply.

(** ** Lemmas on the loops *)

Section loops.
Context {S : Type} `{CI : chain_interface S} `{!chain_spec S} `{Cr : Crypto} `{Tx : TxCrypto} `{St : Statics}.

Lemma remove_loop_flat t l db db' :
  foldM (fun key s => remove t key s) l db = Ok db' -> tracked t = true ->
  (forall k, flat t db' !! k = if decide (k ∈ l) then None else flat t db !! k)
  /\ forall t', t' <> t -> flat t' db' = flat t' db.
Proof.
  revert db. induction l as [|x l IH]; simpl; intros db H Ht; inv_ok; [ done | ].
  apply remove_flat in Ha as [H1 H2]; [ | done ]. apply IH in H as [H3 H4]; [ | done ]. split.
  - intros k. rewrite H3, H1, lookup_delete. repeat case_decide; set_solver.
  - intros t' Ht'. rewrite H4, H2 by done. done.
Qed.

Lemma store_loop_flat t l db db' :
  foldM (fun item s => store t (fst item) (snd item) s) l db = Ok db' -> tracked t = true -> NoDup (l.*1) ->
  flat t db' = (list_to_map l : gmap _ _) ∪ flat t db /\ forall t', t' <> t -> flat t' db' = flat t' db.
Proof.
  revert db. induction l as [|[k v] l IH]; simpl; intros db H Ht Hnd; inv_ok.
  - by rewrite map_empty_union.
  - apply NoDup_cons in Hnd as [Hk Hnd].
    apply store_flat in Ha as [H1 H2]; [ | done ]. apply IH in H as [H3 H4]; [ | done | done ]. split.
    + rewrite H3, H1. rewrite <- insert_union_r by (by apply not_elem_of_list_to_map_1).
      by rewrite insert_union_l.
    + intros t' Ht'. rewrite H4, H2 by done. done.
Qed.

Lemma apply_records_flat t o db db' :
  apply_records t o db = Ok db' -> tracked t = true ->
  flat t db' = ov_flat o (flat t db) /\ forall t', t' <> t -> flat t' db' = flat t' db.
Proof.
  unfold apply_records. intros H Ht. inv_ok.
  apply remove_loop_flat in Ha as [H1 H2]; [ | done ].
  apply store_loop_flat in H as [H3 H4]; [ | done | apply NoDup_fst_map_to_list ]. split.
  - rewrite H3, list_to_map_to_list. unfold ov_flat. f_equal. apply map_eq. intros k.
    rewrite H1, map_lookup_filter. case_decide as Hk; rewrite elem_of_elements in Hk.
    + destruct (flat t db !! k); simpl; [ by rewrite option_guard_False by tauto | done ].
    + destruct (flat t db !! k); simpl; [ by rewrite option_guard_True | done ].
  - intros t' Ht'. rewrite H4, H2 by done. done.
Qed.

Lemma foldM_id {A} (f : A -> S -> result S) l db : (forall a s, f a s = Ok s) -> foldM f l db = Ok db.
Proof. intros Hf. induction l as [|a l IH]; simpl; [ done | ]. rewrite Hf. apply IH. Qed.

Lemma apply_records_untracked t o db db' : apply_records t o db = Ok db' -> tracked t = false -> db' = db.
Proof.
  unfold apply_records. intros H Ht. rewrite foldM_id in H by (intros; by apply remove_untracked).
  simpl in H. rewrite foldM_id in H by (intros; by apply store_untracked). congruence.
Qed.

(** Applying a list of tables changes exactly those. *)
Lemma apply_list_flat (T : tables overlay_of) l db db' t :
  foldM (fun t s => apply_records t (tget t T) s) l db = Ok db' -> NoDup l -> tracked t = true ->
  flat t db' = if decide (t ∈ l) then ov_flat (tget t T) (flat t db) else flat t db.
Proof.
  revert db. induction l as [|x l IH]; simpl; intros db H Hnd Ht; inv_ok; [ done | ].
  apply NoDup_cons in Hnd as [Hx Hnd]. rewrite (IH _ H Hnd Ht).
  destruct (tracked x) eqn:Ex.
  - apply apply_records_flat in Ha as [H1 H2]; [ | done ]. destruct (decide (t = x)) as [->|Hne].
    + rewrite decide_False by done. rewrite decide_True by set_solver. done.
    + rewrite H2 by done. assert (t ∈ x :: l <-> t = x \/ t ∈ l) by apply elem_of_cons.
      repeat case_decide; naive_solver.
  - apply apply_records_untracked in Ha; [ subst a | done ].
    assert (t <> x) by congruence. assert (t ∈ x :: l <-> t = x \/ t ∈ l) by apply elem_of_cons.
      repeat case_decide; naive_solver.
Qed.

(** Loops whose body leaves a table as it is. *)
Lemma foldl_flat {A} (f : S -> A -> S) l s t :
  (forall s a, flat t (f s a) = flat t s) -> flat t (foldl f s l) = flat t s.
Proof. intros Hf. revert s. induction l; simpl; intros s; [ done | ]. by rewrite IHl, Hf. Qed.

Lemma apply_order_NoDup : NoDup apply_order.
Proof. apply (bool_decide_eq_true_1 (NoDup apply_order)). reflexivity. Qed.
Lemma apply_order_elem t : t ∈ apply_order <-> t <> feed_t.
Proof.
  rewrite <- (bool_decide_eq_true (t ∈ apply_order)), <- (bool_decide_eq_true (t <> feed_t)).
  destruct t; vm_compute; done.
Qed.

Definition applied_dirty (p : pending_chain_state S) : property_value :=
  property_markets (elements (ps_dirty_markets p)).

(** After [apply_changes] every table is what the pending state showed,
    except for the property of the dirty markets. *)
Lemma apply_changes_tables p db' t :
  apply_changes p = Ok db' -> tracked t = true ->
  flat t db' =
    match t with
    | property_t => <[dirty_markets_property := applied_dirty p]>
    | _ => fun m => m
    end (flat t p).
Proof.
  unfold apply_changes. intros H Ht. inv_ok.
  assert (Hl := fun t Ht => apply_list_flat (ps_tables p) apply_order _ _ t Ha apply_order_NoDup Ht). clear Ha.
  apply apply_records_flat in Ha0 as [H1 H2]; [ | done ].
  rewrite !foldl_flat in H1 by (intros; by autorewrite with chain).
  assert (H2' : forall t', t' <> feed_t -> flat t' a0 = flat t' a).
  { intros t' Ht'. rewrite H2, !foldl_flat by (done || intros; by autorewrite with chain). done. }
  unfold set_dirty_markets, store_property_record, property_record_store.
  destruct (decide (t = property_t)) as [->|Hp].
  - rewrite flat_insert, flat_market_transactions, H2', Hl by done. done.
  - rewrite flat_insert_ne, flat_market_transactions by congruence. destruct (decide (t = feed_t)) as [->|Hf].
    + rewrite H1, Hl by done. rewrite decide_False by (rewrite apply_order_elem; tauto). done.
    + rewrite H2', Hl by done. rewrite decide_True by (by rewrite apply_order_elem).
      destruct t; done.
Qed.
End loops.

(** ** Totality

    [account_record::store] asserts that the histories of keys it reads are
    not empty; every other [store] and [remove] succeeds. *)

Definition account_ok (r : account_record) : bool :=
  is_ok (active_key r) && (negb (is_delegate r) || is_ok (signing_key r)).

Definition rec_ok (t : table) : val_of t -> Prop :=
  match t with account_t => fun r => account_ok r = true | _ => fun _ => True end.

Lemma account_ok_keys r : account_ok r = true ->
  (exists k, active_key r = Ok k) /\ (is_delegate r = true -> exists k, signing_key r = Ok k).
Proof.
  unfold account_ok. intros H. b2p. destruct (active_key r); [ | done ].
  split; [ eauto | ]. intros Hd. rewrite Hd in *. destruct (signing_key r); [ eauto | done ].
Qed.

Lemma foldM_total {A S} (P : S -> Prop) (Q : A -> Prop) (f : A -> S -> result S) l s :
  (forall a s, Q a -> P s -> exists s', f a s = Ok s' /\ P s') -> P s -> Forall Q l ->
  exists s', foldM f l s = Ok s' /\ P s'.
Proof.
  intros Hf. revert s. induction l as [|a l IH]; simpl; intros s Hs Hl; [ eauto | ].
  inversion Hl; subst. destruct (Hf a s) as (s' & E & Hs'); [ done | done | ]. rewrite E. simpl. auto.
Qed.

Section totality.
Context {S : Type} `{CI : chain_interface S} `{!chain_spec S} `{Cr : Crypto} `{Tx : TxCrypto} `{St : Statics}.

Definition state_ok (db : S) : Prop := forall t k v, flat t db !! k = Some v -> rec_ok t v.

Lemma account_lookup_ok db id r : account_record_lookup db id = Some r -> state_ok db -> account_ok r = true.
Proof. intros H Hdb. apply (Hdb account_t id r). rewrite <- flat_lookup. exact H. Qed.

Lemma account_store_total id r db :
  account_ok r = true -> state_ok db -> exists db', account_record_store id r db = Ok db'.
Proof.
  intros Hr Hdb. destruct (account_ok_keys _ Hr) as [[k Hk] Hs].
  unfold account_record_store.
  assert (He : forall db, exists db', account_store_enter id r db = Ok db').
  { intros db'. unfold account_store_enter, is_retracted. rewrite Hk. simpl.
    destruct (ac_delegate_info r); simpl; eauto. }
  destruct (account_record_lookup db id) as [prev|] eqn:E; [ | apply He ].
  apply account_lookup_ok, account_ok_keys in E as [[k' Hk'] Hs']; [ | done ].
  unfold account_store_retract, is_retracted. rewrite Hk, Hk'. simpl.
  destruct (ac_delegate_info prev) as [i|] eqn:Ei; [ | simpl; apply He ].
  destruct Hs' as [s' Hs']; [ unfold is_delegate; by rewrite Ei | ].
  destruct (is_delegate r) eqn:Ed; simpl; [ | apply He ].
  destruct (Hs eq_refl) as [s'' Hs'']. rewrite Hs', Hs''. simpl. apply He.
Qed.

Lemma account_remove_total id db : state_ok db -> exists db', account_record_remove id db = Ok db'.
Proof.
  intros Hdb. unfold account_record_remove.
  destruct (account_record_lookup db id) as [prev|] eqn:E; [ | eauto ].
  apply account_lookup_ok, account_ok_keys in E as [[k' Hk'] Hs']; [ | done ].
  unfold is_retracted. rewrite Hk'. simpl. eauto.
Qed.

Lemma store_total t k v db : rec_ok t v -> state_ok db -> exists db', store t k v db = Ok db' /\ state_ok db'.
Proof.
  intros Hv Hdb.
  assert (exists db', store t k v db = Ok db') as [db' E].
  { destruct t; simpl; eauto. by apply account_store_total. }
  exists db'. split; [ done | ]. destruct (tracked t) eqn:Et.
  - apply store_flat in E as [H1 H2]; [ | done ]. intros t' k' v' Hk'.
    destruct (decide (t' = t)) as [->|Hne].
    + rewrite H1, lookup_insert in Hk'. case_decide; [ congruence | by eapply Hdb ].
    + rewrite H2 in Hk' by done. by eapply Hdb.
  - rewrite store_untracked in E by done. by simplify_eq.
Qed.

Lemma remove_total t k db : state_ok db -> exists db', remove t k db = Ok db' /\ state_ok db'.
Proof.
  intros Hdb.
  assert (exists db', remove t k db = Ok db') as [db' E].
  { destruct t; simpl; eauto. by apply account_remove_total. }
  exists db'. split; [ done | ]. destruct (tracked t) eqn:Et.
  - apply remove_flat in E as [H1 H2]; [ | done ]. intros t' k' v' Hk'.
    destruct (decide (t' = t)) as [->|Hne].
    + rewrite H1, lookup_delete in Hk'. case_decide; [ congruence | by eapply Hdb ].
    + rewrite H2 in Hk' by done. by eapply Hdb.
  - rewrite remove_untracked in E by done. by simplify_eq.
Qed.

Lemma state_ok_same db db' : (forall t, flat t db' = flat t db) -> state_ok db -> state_ok db'.
Proof. intros H Hdb t k v. rewrite H. apply Hdb. Qed.
End totality.

Section apply_total.
Context {S : Type} `{CI : chain_interface S} `{!chain_spec S} `{Cr : Crypto} `{Tx : TxCrypto} `{St : Statics}.

Lemma overlay_records_ok (p : pending_chain_state S) t :
  state_ok p -> Forall (fun kv => rec_ok t (snd kv)) (map_to_list (ov_records (tget t (ps_tables p)))).
Proof.
  intros Hp. apply Forall_forall. intros [k v] Hkv. apply elem_of_map_to_list in Hkv.
  apply (Hp t k). rewrite pending_flat, ov_flat_lookup. unfold ov_lookup. by rewrite Hkv.
Qed.

Lemma apply_records_total (p : pending_chain_state S) t db :
  state_ok p -> state_ok db ->
  exists db', apply_records t (tget t (ps_tables p)) db = Ok db' /\ state_ok db'.
Proof.
  intros Hp Hdb. unfold apply_records.
  destruct (foldM_total state_ok (fun _ => True) (fun key s => remove t key s)
              (elements (ov_removed (tget t (ps_tables p)))) db) as (db1 & E1 & H1);
    [ intros; by apply remove_total | done | by apply Forall_true | ].
  rewrite E1. simpl.
  apply (foldM_total state_ok (fun kv => rec_ok t (snd kv))); [ | done | by apply overlay_records_ok ].
  intros; by apply store_total.
Qed.

Lemma apply_changes_total (p : pending_chain_state S) :
  state_ok p -> state_ok (ps_prev p) -> exists db', apply_changes p = Ok db'.
Proof.
  intros Hp Hdb. unfold apply_changes.
  destruct (foldM_total state_ok (fun _ => True) (fun t s => apply_records t (tget t (ps_tables p)) s)
              apply_order (ps_prev p)) as (db1 & E1 & H1);
    [ intros; by apply apply_records_total | done | by apply Forall_true | ].
  rewrite E1. cbn [rbind].
  match goal with |- context [apply_records feed_t _ ?s] =>
    destruct (apply_records_total p feed_t s) as (db2 & E2 & _); [ done | | rewrite E2; simpl; eauto ]
  end.
  eapply state_ok_same; [ | exact H1 ]. intros t.
  by rewrite !foldl_flat by (intros; by autorewrite with chain).
Qed.
End apply_total.

(** ** The undo state *)

Section undo.
Context {S : Type} `{CI : chain_interface S} `{!chain_spec S} `{Cr : Crypto} `{Tx : TxCrypto} `{St : Statics}.

Abbreviation undo := (pending_chain_state (pending_chain_state S)).
Implicit Types (p : pending_chain_state S) (u : undo).

Lemma store_prev t k v u u' : store t k v u = Ok u' -> ps_prev u' = ps_prev u.
Proof.
  intros H. destruct (tracked t) eqn:Et.
  - apply (store_view (table_view0 := pending_prev_view)) in H as [H _]; done.
  - rewrite store_untracked in H by done. by simplify_eq.
Qed.
Lemma remove_prev t k u u' : remove t k u = Ok u' -> ps_prev u' = ps_prev u.
Proof.
  intros H. destruct (tracked t) eqn:Et.
  - apply (remove_view (table_view0 := pending_prev_view)) in H as [H _]; [ | done ].
    simpl in H. rewrite H. by case_match.
  - rewrite remove_untracked in H by done. by simplify_eq.
Qed.

(** The loop over the removed keys. *)
Lemma undo_removed_flat t (db : S) l u u' :
  foldM (fun key u => match record_lookup t db key with
                      | Some r => store t key r u | None => Ok u end) l u = Ok u' ->
  tracked t = true ->
  (forall k, flat t u' !! k = if decide (k ∈ l) then match flat t db !! k with Some r => Some r | None => flat t u !! k end
                              else flat t u !! k)
  /\ (forall t', t' <> t -> flat t' u' = flat t' u) /\ ps_prev u' = ps_prev u.
Proof.
  revert u. induction l as [|x l IH]; simpl; intros u H Ht; inv_ok; [ done | ].
  apply IH in H as (H1 & H2 & H3); [ | done ].
  assert (Hx : (forall k, flat t a !! k = if decide (x = k) then match flat t db !! k with Some r => Some r | None => flat t u !! k end
                                else flat t u !! k)
    /\ (forall t', t' <> t -> flat t' a = flat t' u) /\ ps_prev a = ps_prev u).
  { rewrite flat_lookup in Ha. destruct (flat t db !! x) as [r|] eqn:E.
    - pose proof (store_prev _ _ _ _ _ Ha). apply store_flat in Ha as [H4 H5]; [ | done ].
      split; [ | done ]. intros k. rewrite H4, lookup_insert. case_decide; subst; by rewrite ?E.
    - inv_ok. split; [ | done ]. intros k. case_decide; subst; by rewrite ?E. }
  destruct Hx as (H4 & H5 & H6). split_and!; [ | intros; rewrite H2, H5; done | congruence ].
  intros k. rewrite H1, H4. assert (k ∈ x :: l <-> k = x \/ k ∈ l) by apply elem_of_cons.
  destruct (flat t db !! k); repeat case_decide; subst; try done; exfalso; intuition congruence.
Qed.

(** The loop over the stored records. *)
Lemma undo_stored_flat t (db : S) (l : list (key_of t * val_of t)) u u' :
  foldM (fun item u => match record_lookup t db (fst item) with
                       | Some r => store t (fst item) r u | None => remove t (fst item) u end) l u = Ok u' ->
  tracked t = true ->
  (forall k, flat t u' !! k = if decide (k ∈ l.*1) then flat t db !! k else flat t u !! k)
  /\ (forall t', t' <> t -> flat t' u' = flat t' u) /\ ps_prev u' = ps_prev u.
Proof.
  revert u. induction l as [|[x v] l IH]; simpl; intros u H Ht; inv_ok; [ done | ].
  apply IH in H as (H1 & H2 & H3); [ | done ].
  assert (Hx : (forall k, flat t a !! k = if decide (x = k) then flat t db !! k else flat t u !! k)
    /\ (forall t', t' <> t -> flat t' a = flat t' u) /\ ps_prev a = ps_prev u).
  { rewrite flat_lookup in Ha. destruct (flat t db !! x) as [r|] eqn:E.
    - pose proof (store_prev _ _ _ _ _ Ha). apply store_flat in Ha as [H4 H5]; [ | done ].
      split; [ | done ]. intros k. rewrite H4, lookup_insert. case_decide; subst; by rewrite ?E.
    - pose proof (remove_prev _ _ _ _ Ha). apply remove_flat in Ha as [H4 H5]; [ | done ].
      split; [ | done ]. intros k. rewrite H4, lookup_delete. case_decide; subst; by rewrite ?E. }
  destruct Hx as (H4 & H5 & H6). split_and!; [ | intros; rewrite H2, H5; done | congruence ].
  intros k. rewrite H1, H4. simpl. assert (k ∈ x :: l.*1 <-> k = x \/ k ∈ l.*1) by apply elem_of_cons.
  repeat case_decide; subst; try done; exfalso; intuition congruence.
Qed.

(** Populating a table of an undo state that still shows the pending
    contents makes it show the previous contents. *)
Lemma populate_flat t p u u' :
  populate_undo_state t (ps_prev p) (tget t (ps_tables p)) u = Ok u' -> tracked t = true ->
  flat t u = flat t p ->
  flat t u' = flat t (ps_prev p) /\ (forall t', t' <> t -> flat t' u' = flat t' u) /\ ps_prev u' = ps_prev u.
Proof.
  unfold populate_undo_state. intros H Ht Hu. inv_ok.
  apply undo_removed_flat in Ha as (H1 & H2 & H3); [ | done ].
  apply undo_stored_flat in H as (H4 & H5 & H6); [ | done ].
  split_and!; [ | intros; rewrite H5, H2; done | congruence ].
  apply map_eq. intros k. rewrite H4, H1, Hu, pending_flat, ov_flat_lookup. unfold ov_lookup.
  assert (Hk : k ∈ (map_to_list (ov_records (tget t (ps_tables p)))).*1 <-> k ∈ dom (ov_records (tget t (ps_tables p)))).
  { rewrite dom_alt, elem_of_list_to_set. done. }
  rewrite elem_of_dom in Hk. case_decide as Hd; [ done | ].
  destruct (ov_records (tget t (ps_tables p)) !! k) eqn:E; [ naive_solver | ].
  case_decide as Hr; rewrite elem_of_elements in Hr;
    [ rewrite bool_decide_eq_true_2 by done | rewrite bool_decide_eq_false_2 by done ].
  - by destruct (flat t (ps_prev p) !! k).
  - done.
Qed.

Lemma populate_prev t p (o : overlay_of t) u u' :
  populate_undo_state t (ps_prev p) o u = Ok u' -> tracked t = false -> u' = u.
Proof.
  unfold populate_undo_state. intros H Ht.
  rewrite foldM_id in H.
  - simpl in H. rewrite foldM_id in H; [ congruence | ].
    intros item s. destruct (record_lookup t (ps_prev p) (fst item)); [ by apply store_untracked | by apply remove_untracked ].
  - intros k s. destruct (record_lookup t (ps_prev p) k); [ by apply store_untracked | done ].
Qed.

Lemma populate_list_flat p l u u' t :
  foldM (fun t u => populate_undo_state t (ps_prev p) (tget t (ps_tables p)) u) l u = Ok u' ->
  NoDup l -> tracked t = true -> (forall t, t ∈ l -> flat t u = flat t p) ->
  flat t u' = (if decide (t ∈ l) then flat t (ps_prev p) else flat t u) /\ ps_prev u' = ps_prev u.
Proof.
  revert u. induction l as [|x l IH]; simpl; intros u H Hnd Ht Hu; inv_ok; [ done | ].
  apply NoDup_cons in Hnd as [Hx Hnd].
  assert (Hc : forall t, t ∈ x :: l <-> t = x \/ t ∈ l) by (intros; apply elem_of_cons).
  destruct (tracked x) eqn:Ex.
  - apply populate_flat in Ha as (H1 & H2 & H3); [ | done | apply Hu, Hc; by left ].
    assert (Hu' : forall t, t ∈ l -> flat t a = flat t p).
    { intros t' Ht'. rewrite H2 by naive_solver. apply Hu, Hc. by right. }
    destruct (IH _ H Hnd Ht Hu') as [H4 H5]. split; [ | congruence ].
    rewrite H4. specialize (Hc t). destruct (decide (t = x)) as [->|Hne].
    + rewrite decide_False by done. rewrite H1. by rewrite decide_True by naive_solver.
    + rewrite H2 by done. repeat case_decide; naive_solver.
  - apply populate_prev in Ha; [ subst a | done ].
    destruct (IH _ H Hnd Ht) as [H4 H5]; [ intros; apply Hu, Hc; by right | ]. split; [ | done ].
    rewrite H4. specialize (Hc t). assert (t <> x) by congruence. repeat case_decide; naive_solver.
Qed.

Lemma undo_order_NoDup : NoDup undo_order.
Proof. apply (bool_decide_eq_true_1 (NoDup undo_order)). reflexivity. Qed.

Lemma foldl_prev {A} (f : undo -> A -> undo) l u :
  (forall u a, ps_prev (f u a) = ps_prev u) -> ps_prev (foldl f u l) = ps_prev u.
Proof. intros Hf. revert u. induction l; simpl; intros u; [ done | ]. by rewrite IHl, Hf. Qed.

(** The undo state shows the previous contents of the tables it covers, up
    to the property of the dirty markets. *)
Lemma build_undo_tables p u t :
  build_undo_state p = Ok u -> tracked t = true ->
  ps_prev u = p
  /\ flat t u = match t with
                | property_t => <[dirty_markets_property := property_markets (get_dirty_markets (ps_prev p))]>
                | _ => fun m => m
                end (if decide (t ∈ undo_order) then flat t (ps_prev p) else flat t p).
Proof.
  unfold build_undo_state. intros H Ht. inv_ok.
  assert (He : forall t, flat t (pending_empty p) = flat t p).
  { intros t'. rewrite pending_flat. unfold pending_empty. simpl. by rewrite tget_tconst, ov_flat_empty. }
  assert (Hl := populate_list_flat p undo_order _ _ t Ha undo_order_NoDup Ht (fun t _ => He t)).
  destruct Hl as [H1 H2]. rewrite He in H1.
  unfold set_dirty_markets, store_property_record, property_record_store. split.
  - match goal with |- ps_prev (record_insert _ _ _ ?u) = _ => change (ps_prev u = p) end.
    rewrite !foldl_prev by done. exact H2.
  - destruct (decide (t = property_t)) as [->|Hp].
    + rewrite (flat_insert (S := undo)), !(foldl_flat (S := undo)), H1 by done. done.
    + rewrite (flat_insert_ne (S := undo)) by congruence. rewrite !(foldl_flat (S := undo)), H1 by done. by destruct t.
Qed.
End undo.
