(* ===== verification/ChainDatabase.v ===== *)
(** [chain_database]: the tables of the database and the chain interface on
    them (chain_database.cpp, the table functions, [now], the feed price, the
    order books and the rankings; time.cpp, the slots).

    A level-db map is a finite map. The indexes kept for queries only (address
    to transactions, recent operations) are not modelled. *)

From stdpp Require Import sorting.
From S2P Require Import Prelude Asset Records ChainInterface Tables PendingState.

(** ** Slots (time.cpp) *)

Definition BLOCK_INTERVAL_SEC : Z := 10.

Definition get_slot_number (timestamp : time) : Z := timestamp / BLOCK_INTERVAL_SEC.
Definition get_slot_start_time (slot_number : Z) : time := uwrap32 (slot_number * BLOCK_INTERVAL_SEC).
Definition slot_start_of (timestamp : time) : time := get_slot_start_time (get_slot_number timestamp).

(** ** The state *)

Definition db_table (t : table) : Type := gmap (key_of t) (val_of t).

(** The tables kept for reports on markets. *)
Record market_data := mk_market_data {
  md_statuses : gmap (Z * Z) market_status;
  md_history : gmap market_history_key market_history_record;
  md_transactions : gmap Z (list market_transaction) }.

Record chain_database := mk_database {
  db_tables : tables db_table;
  db_indexes : indexes;
  db_delegate_votes : gset (Z * Z);
  db_account_rps : gset (Z * Z);
  db_unique_transactions : gset (Z * Z);
  db_asks : gmap market_index_key order_record;
  db_bids : gmap market_index_key order_record;
  db_markets : market_data;
  db_head_num : Z;
  db_head_timestamp : time;
  (** the reading of [blockchain::now()] *)
  db_clock : time }.

Definition database_empty (clock : time) : chain_database :=
  mk_database (tconst (fun t => ∅ : db_table t)) indexes_empty ∅ ∅ ∅ ∅ ∅ (mk_market_data ∅ ∅ ∅) 0 0 clock.

Definition set_db_table (t : table) (m : db_table t) (d : chain_database) : chain_database :=
  mk_database (tset t m (db_tables d)) (db_indexes d) (db_delegate_votes d) (db_account_rps d)
    (db_unique_transactions d) (db_asks d) (db_bids d) (db_markets d) (db_head_num d) (db_head_timestamp d) (db_clock d).
Definition set_db_index (i : index) (m : gmap (ikey_of i) Z) (d : chain_database) : chain_database :=
  mk_database (db_tables d) (iset i m (db_indexes d)) (db_delegate_votes d) (db_account_rps d)
    (db_unique_transactions d) (db_asks d) (db_bids d) (db_markets d) (db_head_num d) (db_head_timestamp d) (db_clock d).
Definition set_db_rankings (votes rps : gset (Z * Z)) (d : chain_database) : chain_database :=
  mk_database (db_tables d) (db_indexes d) votes rps
    (db_unique_transactions d) (db_asks d) (db_bids d) (db_markets d) (db_head_num d) (db_head_timestamp d) (db_clock d).
Definition set_db_unique (u : gset (Z * Z)) (d : chain_database) : chain_database :=
  mk_database (db_tables d) (db_indexes d) (db_delegate_votes d) (db_account_rps d)
    u (db_asks d) (db_bids d) (db_markets d) (db_head_num d) (db_head_timestamp d) (db_clock d).
Definition set_db_orders (asks bids : gmap market_index_key order_record) (d : chain_database) : chain_database :=
  mk_database (db_tables d) (db_indexes d) (db_delegate_votes d) (db_account_rps d)
    (db_unique_transactions d) asks bids (db_markets d) (db_head_num d) (db_head_timestamp d) (db_clock d).
Definition set_db_markets (statuses : gmap (Z * Z) market_status)
    (history : gmap market_history_key market_history_record) (trxs : gmap Z (list market_transaction)) (d : chain_database)
    : chain_database :=
  mk_database (db_tables d) (db_indexes d) (db_delegate_votes d) (db_account_rps d) (db_unique_transactions d)
    (db_asks d) (db_bids d) (mk_market_data statuses history trxs) (db_head_num d) (db_head_timestamp d) (db_clock d).

(** ** The feed price *)

Definition MIN_FEEDS : nat := 51.

Section feed_price.
(** The prices of the delegates whose feed is younger than a day. *)
Definition fresh_prices (feeds : gmap (Z * Z) feed_record) (delegates : list account_id)
    (quote_id now : Z) : list price :=
  omap (fun delegate_id =>
    match feeds !! (quote_id, delegate_id) with
    | Some r =>
        if (86400 <=? now - fr_last_update r) || negb (quote_asset_id (fr_value r) =? quote_id)
           || negb (base_asset_id (fr_value r) =? 0)
        then None else Some (fr_value r)
    | None => None
    end) delegates.

Definition price_le_rel (a b : price) : Prop := price_lt b a = false.
#[export] Instance price_le_rel_dec : RelDecision price_le_rel.
Proof. intros a b. unfold price_le_rel. apply _. Defined.

(** [nth_element] at the middle of the prices. *)
Definition median_price (prices : list price) : option price :=
  merge_sort price_le_rel prices !! Nat.div2 (length prices).

Definition feed_price (feeds : gmap (Z * Z) feed_record) (delegates : list account_id)
    (quote_id now : Z) : option price :=
  let prices := fresh_prices feeds delegates quote_id now in
  if (MIN_FEEDS <=? length prices)%nat then median_price prices else None.
End feed_price.

(** ** The interface *)

Section interface.
Context `{Tx : TxCrypto} `{St : Statics}.
Implicit Types d : chain_database.

Definition db_now d : time :=
  if db_head_num d <=? 0 then get_slot_start_time (get_slot_number (db_clock d) - 1)
  else db_head_timestamp d.

Definition db_index_lookup (i : index) d (k : ikey_of i) : result (option (val_of (indexed_table i))) :=
  Ok match iget i (db_indexes d) !! k with
     | Some id => tget (indexed_table i) (db_tables d) !! indexed_key i k id
     | None => None
     end.

Definition db_ranking_insert (w : ranking) (v : Z * Z) d : chain_database :=
  match w with
  | vote_set => set_db_rankings ({[ v ]} ∪ db_delegate_votes d) (db_account_rps d) d
  | rp_set => set_db_rankings (db_delegate_votes d) ({[ v ]} ∪ db_account_rps d) d
  end.
Definition db_ranking_erase (w : ranking) (v : Z * Z) d : chain_database :=
  match w with
  | vote_set => set_db_rankings (db_delegate_votes d ∖ {[ v ]}) (db_account_rps d) d
  | rp_set => set_db_rankings (db_delegate_votes d) (db_account_rps d ∖ {[ v ]}) d
  end.

(** [unique_transaction_key]. *)
Definition unique_key (trx : signed_transaction) : Z * Z := (tx_expiration trx, trx_digest trx static_chain_id).

(** The feeds of a quote asset are looked up first; the delegates are read
    only when the asset has an entry. *)
Definition db_active_feed_price d (quote_id : Z) : result (option price) :=
  let feeds := tb_feed (db_tables d) in
  if bool_decide (Exists (fun k => fst k = quote_id) (map_to_list feeds).*1) then
    match tb_property (db_tables d) !! active_delegate_list_property with
    | Some (property_ids delegates) => Ok (feed_price feeds delegates quote_id (db_now d))
    | _ => Throw assert_exception
    end
  else Ok None.

Definition db_store_bid (k : market_index_key) (o : order_record) d : chain_database :=
  set_db_orders (db_asks d) (if order_is_null o then delete k (db_bids d) else <[k := o]> (db_bids d)) d.
Definition db_store_ask (k : market_index_key) (o : order_record) d : chain_database :=
  set_db_orders (if order_is_null o then delete k (db_asks d) else <[k := o]> (db_asks d)) (db_bids d) d.

Definition db_store_market_status (s : market_status) d : chain_database :=
  let k := (st_quote_id s, st_base_id s) in
  let m := md_statuses (db_markets d) in
  set_db_markets (if market_status_is_null s then delete k m else <[k := s]> m)
    (md_history (db_markets d)) (md_transactions (db_markets d)) d.
Definition db_store_market_history_record (k : market_history_key) (r : market_history_record) d : chain_database :=
  let m := md_history (db_markets d) in
  set_db_markets (md_statuses (db_markets d)) (if mh_volume r =? 0 then delete k m else <[k := r]> m)
    (md_transactions (db_markets d)) d.
Definition db_set_market_transactions (trxs : list market_transaction) d : chain_database :=
  let k := uwrap32 (db_head_num d + 1) in
  let m := md_transactions (db_markets d) in
  set_db_markets (md_statuses (db_markets d)) (md_history (db_markets d))
    (match trxs with [] => delete k m | _ => <[k := trxs]> m end) d.

#[export] Instance database_interface : chain_interface chain_database := {|
  record_lookup := fun t d k => tget t (db_tables d) !! k;
  record_insert := fun t k v d => set_db_table t (<[k := v]> (tget t (db_tables d))) d;
  record_erase := fun t k d => set_db_table t (delete k (tget t (db_tables d))) d;
  index_lookup := db_index_lookup;
  index_insert := fun i k id d => set_db_index i (<[k := id]> (iget i (db_indexes d))) d;
  index_erase := fun i k d => set_db_index i (delete k (iget i (db_indexes d))) d;
  ranking_insert := db_ranking_insert;
  ranking_erase := db_ranking_erase;
  unique_insert := fun trx d => set_db_unique ({[ unique_key trx ]} ∪ db_unique_transactions d) d;
  unique_erase := fun trx d => set_db_unique (db_unique_transactions d ∖ {[ unique_key trx ]}) d;
  is_known_transaction := fun d trx => bool_decide (unique_key trx ∈ db_unique_transactions d);
  chain_now := db_now;
  get_head_block_num := db_head_num;
  get_active_feed_price := db_active_feed_price;
  set_market_dirty := fun _ _ _ => Throw assert_exception;
  get_bid_record := fun d k => db_bids d !! k;
  get_ask_record := fun d k => db_asks d !! k;
  store_bid_record := db_store_bid;
  store_ask_record := db_store_ask;
  get_market_status := fun d k => md_statuses (db_markets d) !! k;
  store_market_status := db_store_market_status;
  get_market_history_record := fun d k => md_history (db_markets d) !! k;
  store_market_history_record := db_store_market_history_record;
  set_market_transactions := db_set_market_transactions |}.

#[export] Instance database_spec : chain_spec chain_database.
Proof.
  refine {| flat := fun t d => tget t (db_tables d) |}; intros;
    unfold record_lookup, record_insert, record_erase, index_insert, index_erase, set_market_dirty,
      store_bid_record, store_ask_record, store_market_status,
      store_market_history_record, set_market_transactions, database_interface; simpl; try done;
    try (by rewrite tget_tset); try (by rewrite tget_tset_ne); by destruct w.
Defined.
End interface.

(** ** The rankings

    [vote_del] and [rp_index] sort by value, greatest first, the lowest id
    first among equals. *)

Definition rank_before (a b : Z * Z) : Prop :=
  if fst a =? fst b then snd a <= snd b else fst b < fst a.

#[export] Instance rank_before_dec : RelDecision rank_before.
Proof. intros a b. unfold rank_before. destruct (fst a =? fst b); apply _. Defined.

#[export] Instance rank_before_total : Total rank_before.
Proof.
  intros a b. unfold rank_before. rewrite (Z.eqb_sym (fst b)).
  destruct (Z.eqb_spec (fst a) (fst b)); lia.
Qed.

#[export] Instance rank_before_trans : Transitive rank_before.
Proof.
  intros a b c. unfold rank_before.
  destruct (Z.eqb_spec (fst a) (fst b)), (Z.eqb_spec (fst b) (fst c)), (Z.eqb_spec (fst a) (fst c)); lia.
Qed.

#[export] Instance rank_before_antisymm : AntiSymm (=) rank_before.
Proof.
  intros [a1 a2] [b1 b2]. unfold rank_before. simpl. rewrite (Z.eqb_sym b1).
  destruct (Z.eqb_spec a1 b1); intros; [ f_equal; lia | lia ].
Qed.

(** The ranking in order. *)
Definition in_rank_order (s : gset (Z * Z)) : list (Z * Z) := merge_sort rank_before (elements s).

(** [get_delegates_by_vote] and [get_accounts_by_rp]: [count] entries from
    position [first]. *)
Definition ranked_page (s : gset (Z * Z)) (first count : nat) : list account_id :=
  take count (drop first (in_rank_order s)).*2.

Definition get_delegates_by_vote (d : chain_database) (first count : nat) : list account_id :=
  ranked_page (db_delegate_votes d) first count.
Definition get_accounts_by_rp (d : chain_database) (first count : nat) : list account_id :=
  ranked_page (db_account_rps d) first count.
Definition next_round_active_delegates (d : chain_database) : list account_id :=
  get_delegates_by_vote d 0 101.
