(* ===== verification/Market.v ===== *)
(** The market engine: matching the bids and asks of a market, and
    [execute_markets], which runs it over the markets the previous block
    touched (market_records.cpp, market_engine.cpp, chain_database.cpp; the
    ordered maps of db/cached_level_map.hpp).

    The engine reads the order books of the database ([_db_impl]) and works on
    a pending state over the pending state of the block. Orders of type short
    and cover, and the logging, are left out. *)

From stdpp Require Import sorting.
From S2P Require Import Prelude Asset Records ChainInterface EvalState BalanceOps Tables PendingState ChainDatabase.

(** ** Ordered maps

    An iterator of [cached_level_map] is the key it stands on, or [None] at
    the end. Stepping back from the first key gives the end, stepping back
    from the end gives the last key. *)

Section ordered.
Context `{Countable K} {V : Type} (lt : K -> K -> bool).
Implicit Types (m : gmap K V) (it : option K).

Definition key_le (a b : K) : Prop := lt b a = false.
#[export] Instance key_le_dec : RelDecision key_le.
Proof. intros a b. unfold key_le. apply _. Defined.

Definition keys_in_order m : list K := merge_sort key_le (map_to_list m).*1.

Definition it_begin m : option K := head (keys_in_order m).
Definition it_last m : option K := list.last (keys_in_order m).
Definition it_lower_bound m (k : K) : option K := List.find (fun x => negb (lt x k)) (keys_in_order m).
Definition it_prev m it : option K :=
  match it with
  | None => it_last m
  | Some k => list.last (List.filter (fun x => lt x k) (keys_in_order m))
  end.
Definition it_next m it : option K :=
  match it with None => None | Some k => List.find (lt k) (keys_in_order m) end.
End ordered.

(** [operator <] of [market_index_key] and of [market_history_key]. *)
Definition index_key_lt (a b : market_index_key) : bool :=
  price_lt (mi_order_price a) (mi_order_price b)
  || (negb (price_lt (mi_order_price b) (mi_order_price a)) && (mi_owner a <? mi_owner b)).

Definition granularity_rank (g : time_granularity) : Z :=
  match g with each_block => 0 | each_hour => 1 | each_day => 2 end.
Definition history_key_lt (a b : market_history_key) : bool :=
  if negb (hk_quote_id a =? hk_quote_id b) then hk_quote_id a <? hk_quote_id b
  else if negb (hk_base_id a =? hk_base_id b) then hk_base_id a <? hk_base_id b
  else if negb (granularity_rank (hk_granularity a) =? granularity_rank (hk_granularity b))
       then granularity_rank (hk_granularity a) <? granularity_rank (hk_granularity b)
  else hk_timestamp a <? hk_timestamp b.

(** ** Orders (market_records.cpp) *)

Section orders.
Context `{FcI : Fc}.
Implicit Types o : market_order.

Definition order_get_balance o : result asset :=
  match od_type o with
  | bid_order => Ok (mk_asset (or_balance (od_state o)) (quote_asset_id (mi_order_price (od_index o))))
  | ask_order => Ok (mk_asset (or_balance (od_state o)) (base_asset_id (mi_order_price (od_index o))))
  | null_order => Throw assert_exception
  end.

(** [market_order::get_price]: the cases of the switch fall through to the
    failing assertion; the handlers catch the errors of a product. *)
Definition order_get_price o (relative : price) : result price :=
  let body : result price :=
    match od_type o with
    | bid_order | ask_order | null_order => Throw assert_exception
    end in
  match body with
  | Throw price_multiplication_undefined | Throw price_multiplication_overflow
  | Throw price_multiplication_underflow => Ok price_default
  | r => r
  end.

Definition order_get_quantity o (relative : price) : result asset :=
  match od_type o with
  | bid_order => b <- order_get_balance o ;; p <- order_get_price o relative ;; asset_mul_price b p
  | ask_order => order_get_balance o
  | null_order => Throw assert_exception
  end.

Definition order_get_quote_quantity o (relative : price) : result asset :=
  match od_type o with
  | bid_order => order_get_balance o
  | ask_order => b <- order_get_balance o ;; p <- order_get_price o relative ;; asset_mul_price b p
  | null_order => Throw assert_exception
  end.

Definition set_od_balance (b : Z) o : market_order :=
  mk_market_order (od_type o) (od_index o)
    (mk_order b (or_limit_price (od_state o)) (or_last_update (od_state o))).
End orders.

Definition order_type_eqb (a b : order_type) : bool :=
  match a, b with
  | null_order, null_order | bid_order, bid_order | ask_order, ask_order => true
  | _, _ => false
  end.

(** [std::min] on amounts. *)
Definition asset_min (a b : asset) : result asset :=
  less <- asset_lt b a ;; Ok (if less : bool then b else a).

(** ** The engine *)

Definition MAX_UIA_MARKET_FEE_RATE : Z := 10000.

(** The pending state of the block, and the one the engine works on. *)
Abbreviation prior_state := (pending_chain_state chain_database).
Abbreviation engine_state := (pending_chain_state prior_state).

Record market_engine := mk_engine {
  me_pending : engine_state;
  me_current_bid : option market_order;
  me_current_ask : option market_order;
  me_bid_itr : option market_index_key;
  me_ask_itr : option market_index_key;
  me_orders_filled : Z;
  me_transactions : list market_transaction }.

(** What is fixed during [execute]. *)
Record market_params := mk_params {
  mp_db : chain_database; mp_quote_id : Z; mp_base_id : Z; mp_feed_price : option price; mp_pass : nat }.

Definition set_me_bid (bid : option market_order) (itr : option market_index_key) (e : market_engine) : market_engine :=
  mk_engine (me_pending e) bid (me_current_ask e) itr (me_ask_itr e) (me_orders_filled e) (me_transactions e).
Definition set_me_ask (ask : option market_order) (itr : option market_index_key) (e : market_engine) : market_engine :=
  mk_engine (me_pending e) (me_current_bid e) ask (me_bid_itr e) itr (me_orders_filled e) (me_transactions e).
Definition set_me_filled (n : Z) (e : market_engine) : market_engine :=
  mk_engine (me_pending e) (me_current_bid e) (me_current_ask e) (me_bid_itr e) (me_ask_itr e) n (me_transactions e).
Definition set_me_pending (p : engine_state) (e : market_engine) : market_engine :=
  mk_engine p (me_current_bid e) (me_current_ask e) (me_bid_itr e) (me_ask_itr e) (me_orders_filled e) (me_transactions e).
Definition set_me_transactions (l : list market_transaction) (e : market_engine) : market_engine :=
  mk_engine (me_pending e) (me_current_bid e) (me_current_ask e) (me_bid_itr e) (me_ask_itr e) (me_orders_filled e) l.

(** [market_transaction] with other amounts. *)
Definition set_mt_amounts (bid_paid bid_received ask_paid ask_received quote_fees base_fees : asset)
    (t : market_transaction) : market_transaction :=
  mk_market_transaction (mt_bid_owner t) (mt_ask_owner t) (mt_bid_price t) (mt_ask_price t)
    bid_paid bid_received ask_paid ask_received (mt_bid_type t) (mt_ask_type t) quote_fees base_fees.

Section engine.
Context `{FcI : Fc} `{Cr : Crypto} `{Tx : TxCrypto} `{St : Statics}.
Implicit Types (pm : market_params) (e : market_engine) (p : pending_chain_state chain_database).

(** *** The next orders *)

(** The order under an iterator, if it belongs to the market. *)
Definition order_at (type : order_type) (book : gmap market_index_key order_record) pm (k : market_index_key)
    : result (option market_order) :=
  state <- from_option_or undefined_behaviour (book !! k) ;;
  let order := mk_market_order type k state in
  p <- order_get_price order price_default ;;
  Ok (if (quote_asset_id p =? mp_quote_id pm) && (base_asset_id p =? mp_base_id pm) then Some order else None).

Definition get_next_bid pm e : result market_engine :=
  enough <- match me_current_bid e with
            | Some b => q <- order_get_quantity b price_default ;; Ok (0 <? amount q)
            | None => Ok false
            end ;;
  if enough : bool then Ok e
  else
    let bids := db_bids (mp_db pm) in
    let e := set_me_bid None (me_bid_itr e) (set_me_filled (me_orders_filled e + 1) e) in
    bid <- match me_bid_itr e with
           | Some k => order_at bid_order bids pm k
           | None => Ok None
           end ;;
    match mp_feed_price pm, bid with
    | None, _ | Some _, Some _ => Ok (set_me_bid bid (it_prev index_key_lt bids (me_bid_itr e)) e)
    | Some _, None => Ok e
    end.

Definition get_next_ask_order pm e : result market_engine :=
  match me_ask_itr e with
  | None => Ok e
  | Some k =>
      ask <- order_at ask_order (db_asks (mp_db pm)) pm k ;;
      match ask with
      | Some _ => Ok (set_me_ask ask (it_next index_key_lt (db_asks (mp_db pm)) (me_ask_itr e)) e)
      | None => Ok e
      end
  end.

(** Only the last pass has orders to process. *)
Definition get_next_ask pm e : result market_engine :=
  if match me_current_ask e with Some a => 0 <? or_balance (od_state a) | None => false end then Ok e
  else
    let e := set_me_ask None (me_ask_itr e) (set_me_filled (me_orders_filled e + 1) e) in
    match mp_pass pm with
    | 2%nat => get_next_ask_order pm e
    | _ => Throw assert_exception
    end.

(** *** Paying the owners *)

Definition issuer_fee (r : asset_record) (received : Z) : result Z :=
  if 0 <? as_market_fee_rate r then
    _ <- fc_assert (as_market_fee_rate r <=? MAX_UIA_MARKET_FEE_RATE) ;;
    Ok (div64 (received *! as_market_fee_rate r) MAX_UIA_MARKET_FEE_RATE)
  else Ok 0.

(** Adds to the balance of the owner of an order. *)
Definition pay_owner (owner : address) (asset_id v : Z) (p : engine_state) : engine_state :=
  let r := match get_balance_record p (condition_address (signature_condition owner asset_id 0)) with
           | Some r => r
           | None => balance_of_owner owner (mk_asset 0 asset_id) 0
           end in
  store_balance_record (set_br_deposit_date (chain_now p) (set_br_last_update (chain_now p)
    (set_br_balance (br_balance r +! v) r))) p.

Definition add_amount (a : asset) (v : Z) : asset := mk_asset (amount a +! v) (asset_id a).
Definition sub_amount (a : asset) (v : Z) : asset := mk_asset (amount a -! v) (asset_id a).

Definition pay_current_bid pm (base_asset : asset_record) (t : market_transaction) e
    : result (market_transaction * market_engine) :=
  bid <- from_option_or undefined_behaviour (me_current_bid e) ;;
  _ <- fc_assert (order_type_eqb (od_type bid) bid_order) ;;
  _ <- fc_assert (order_type_eqb (mt_bid_type t) bid_order) ;;
  let bid := set_od_balance (or_balance (od_state bid) -! amount (mt_bid_paid t)) bid in
  _ <- fc_assert (0 <=? or_balance (od_state bid)) ;;
  _ <- fc_assert (address_is_whitelisted base_asset (mt_bid_owner t)) ;;
  fee <- issuer_fee base_asset (amount (mt_bid_received t)) ;;
  let received := sub_amount (mt_bid_received t) fee in
  let p := pay_owner (mt_bid_owner t) (mp_base_id pm) (amount received) (me_pending e) in
  left_quote <- order_get_quote_quantity bid price_default ;;
  left_base <- asset_mul_price left_quote (mt_bid_price t) ;;
  let dust := if amount left_base =? 0 then or_balance (od_state bid) else 0 in
  let bid := if amount left_base =? 0 then set_od_balance 0 bid else bid in
  let t := set_mt_amounts (mt_bid_paid t) received (mt_ask_paid t) (mt_ask_received t)
             (add_amount (mt_quote_fees t) dust) (add_amount (mt_base_fees t) fee) t in
  Ok (t, set_me_pending (store_bid_record (od_index bid) (od_state bid) p) (set_me_bid (Some bid) (me_bid_itr e) e)).

Definition pay_current_ask pm (quote_asset : asset_record) (t : market_transaction) e
    : result (market_transaction * market_engine) :=
  ask <- from_option_or undefined_behaviour (me_current_ask e) ;;
  _ <- fc_assert (order_type_eqb (od_type ask) ask_order) ;;
  _ <- fc_assert (order_type_eqb (mt_ask_type t) ask_order) ;;
  let ask := set_od_balance (or_balance (od_state ask) -! amount (mt_ask_paid t)) ask in
  _ <- fc_assert (0 <=? or_balance (od_state ask)) ;;
  _ <- fc_assert (address_is_whitelisted quote_asset (mt_ask_owner t)) ;;
  fee <- issuer_fee quote_asset (amount (mt_ask_received t)) ;;
  let received := sub_amount (mt_ask_received t) fee in
  let p := pay_owner (mt_ask_owner t) (mp_quote_id pm) (amount received) (me_pending e) in
  left_base <- order_get_quantity ask price_default ;;
  left_quote <- asset_mul_price left_base (mt_ask_price t) ;;
  let dust := if amount left_quote =? 0 then or_balance (od_state ask) else 0 in
  let ask := if amount left_quote =? 0 then set_od_balance 0 ask else ask in
  let t := set_mt_amounts (mt_bid_paid t) (mt_bid_received t) (mt_ask_paid t) received
             (add_amount (mt_quote_fees t) fee) (add_amount (mt_base_fees t) dust) t in
  Ok (t, set_me_pending (store_ask_record (od_index ask) (od_state ask) p) (set_me_ask (Some ask) (me_ask_itr e) e)).

Definition push_market_transaction (t : market_transaction) e : result market_engine :=
  _ <- (if negb (amount (mt_ask_paid t) =? 0) || negb (amount (mt_ask_received t) =? 0)
           || negb (asset_id (mt_bid_received t) =? 0) || negb (amount (mt_bid_paid t) =? 0)
        then
          _ <- fc_assert (0 <=? amount (mt_bid_paid t)) ;;
          _ <- fc_assert (0 <=? amount (mt_ask_paid t)) ;;
          _ <- fc_assert (0 <=? amount (mt_bid_received t)) ;;
          _ <- fc_assert (0 <=? amount (mt_ask_received t)) ;;
          covers_ask <- asset_ge (mt_bid_paid t) (mt_ask_received t) ;;
          _ <- fc_assert covers_ask ;;
          covers_bid <- asset_ge (mt_ask_paid t) (mt_bid_received t) ;;
          _ <- fc_assert covers_bid ;;
          _ <- fc_assert (0 <=? amount (mt_quote_fees t)) ;;
          fc_assert (0 <=? amount (mt_base_fees t))
        else Ok tt) ;;
  Ok (set_me_transactions (me_transactions e ++ [t]) e).

(** The amounts of a match of a bid and an ask: everyone gets the price they
    asked for, what lies between is a fee. *)
Definition match_orders pm (bid ask : market_order) (t : market_transaction) : result market_transaction :=
  let relative := default price_default (mp_feed_price pm) in
  bid_quantity <- order_get_quantity bid relative ;;
  ask_quantity <- order_get_quantity ask relative ;;
  quantity <- asset_min bid_quantity ask_quantity ;;
  ask_received <- asset_mul_price quantity (mt_ask_price t) ;;
  bid_paid <- asset_mul_price quantity (mt_bid_price t) ;;
  bid_paid <- (if asset_eqb quantity bid_quantity then order_get_balance bid else Ok bid_paid) ;;
  ask_paid <- (if asset_eqb quantity ask_quantity then order_get_balance ask else Ok quantity) ;;
  quote_fees <- asset_sub bid_paid ask_received ;;
  Ok (set_mt_amounts bid_paid quantity ask_paid ask_received quote_fees (mt_base_fees t) t).

(** *** The loop *)

(** The local variables of [execute]. *)
Record match_state := mk_match {
  ml_engine : market_engine;
  ml_last_filled : Z;
  ml_quote : asset_record;
  ml_base : asset_record;
  ml_volume : asset;
  ml_opening : price; ml_closing : price; ml_highest : price; ml_lowest : price }.

Definition set_ml_engine (e : market_engine) (filled : Z) (l : match_state) : match_state :=
  mk_match e filled (ml_quote l) (ml_base l) (ml_volume l) (ml_opening l) (ml_closing l) (ml_highest l) (ml_lowest l).

(** There is no order, or nothing left of it. *)
Definition exhausted (o : option market_order) : result bool :=
  match o with
  | None => Ok true
  | Some o => b <- order_get_balance o ;; Ok (amount b <=? 0)
  end.

(** The totals kept of a match. *)
Definition record_match (t : market_transaction) (l : match_state) : result match_state :=
  volume <- (if asset_id (mt_ask_received t) =? 0 then asset_add (ml_volume l) (mt_ask_received t)
             else if asset_id (mt_bid_received t) =? 0 then asset_add (ml_volume l) (mt_bid_received t)
             else Ok (ml_volume l)) ;;
  Ok (mk_match (ml_engine l) (ml_last_filled l)
        (set_as_collected_fees (as_collected_fees (ml_quote l) +! amount (mt_quote_fees t)) (ml_quote l))
        (set_as_collected_fees (as_collected_fees (ml_base l) +! amount (mt_base_fees t)) (ml_base l))
        volume
        (if price_eqb (ml_opening l) price_default then mt_bid_price t else ml_opening l)
        (mt_bid_price t)
        (if price_eqb (ml_highest l) price_default || price_lt (ml_highest l) (mt_bid_price t)
         then mt_bid_price t else ml_highest l)
        (if price_eqb (ml_lowest l) price_default || price_gt (ml_lowest l) (mt_ask_price t)
         then mt_ask_price t else ml_lowest l)).

(** One round of the loop; the flag says whether there is another. *)
Definition match_step pm (l : match_state) : result (bool * match_state) :=
  need_bid <- exhausted (me_current_bid (ml_engine l)) ;;
  e <- (if need_bid : bool then get_next_bid pm (ml_engine l) else Ok (ml_engine l)) ;;
  match me_current_bid e with
  | None => Ok (false, set_ml_engine e (ml_last_filled l) l)
  | Some bid =>
      need_ask <- exhausted (me_current_ask e) ;;
      e <- (if need_ask : bool then get_next_ask pm e else Ok e) ;;
      match me_current_ask e with
      | None => Ok (false, set_ml_engine e (ml_last_filled l) l)
      | Some ask =>
          _ <- fc_assert (negb (me_orders_filled e =? ml_last_filled l)) ;;
          let l := set_ml_engine e (me_orders_filled e) l in
          let relative := default price_default (mp_feed_price pm) in
          bid_price <- order_get_price bid relative ;;
          ask_price <- order_get_price ask relative ;;
          let t := mk_market_transaction (mi_owner (od_index bid)) (mi_owner (od_index ask)) bid_price ask_price
                     asset_default asset_default asset_default asset_default (od_type bid) (od_type ask)
                     asset_default asset_default in
          if price_lt bid_price ask_price then Ok (false, l)
          else
            paid <- (if order_type_eqb (od_type ask) ask_order && order_type_eqb (od_type bid) bid_order then
                       t <- match_orders pm bid ask t ;;
                       paid <- pay_current_bid pm (ml_base l) t e ;;
                       let '(t, e) := paid in
                       pay_current_ask pm (ml_quote l) t e
                     else Ok (t, e)) ;;
            let '(t, e) := paid in
            e <- push_market_transaction t e ;;
            l <- record_match t (set_ml_engine e (ml_last_filled l) l) ;;
            Ok (true, l)
      end
  end.

(** Every round after the first takes an order from a book. *)
Definition match_fuel (db : chain_database) : nat := (2 + size (db_bids db) + size (db_asks db))%nat.

Fixpoint match_loop (fuel : nat) pm (l : match_state) : result match_state :=
  match fuel with
  | O => Throw undefined_behaviour
  | S fuel =>
      r <- match_step pm l ;;
      let '(more, l) := r in
      if more : bool then match_loop fuel pm l else Ok l
  end.

(** A pass starts without an ask. *)
Definition run_pass db quote_id base_id (feed : option price) (pass : nat) (l : match_state) : result match_state :=
  let e := ml_engine l in
  match_loop (match_fuel db) (mk_params db quote_id base_id feed pass)
    (set_ml_engine (set_me_ask None (me_ask_itr e) e) (ml_last_filled l) l).

(** *** The history of a market *)

(** The hour or day with a new record. *)
Definition merge_history (n o : market_history_record) : market_history_record :=
  let wider := price_gt (mh_highest_bid n) (mh_highest_bid o) || price_lt (mh_lowest_ask n) (mh_lowest_ask o) in
  mk_history_record
    (if wider then (if price_lt (mh_highest_bid n) (mh_highest_bid o) then mh_highest_bid o else mh_highest_bid n)
     else mh_highest_bid o)
    (if wider then (if price_lt (mh_lowest_ask o) (mh_lowest_ask n) then mh_lowest_ask o else mh_lowest_ask n)
     else mh_lowest_ask o)
    (mh_opening_price o) (mh_closing_price n) (mh_volume o +! mh_volume n).

Definition update_period db (k : market_history_key) (n : market_history_record) (p : engine_state) : engine_state :=
  store_market_history_record k
    match get_market_history_record db k with Some o => merge_history n o | None => n end p.

Definition update_market_history db quote_id base_id (timestamp : time) (l : match_state) (p : engine_state) : engine_state :=
  if 0 <? amount (ml_volume l) then
    let n := mk_history_record (ml_highest l) (ml_lowest l) (ml_opening l) (ml_closing l) (amount (ml_volume l)) in
    let history := md_history (db_markets db) in
    let head_key := mk_history_key quote_id base_id each_block (db_head_timestamp db) in
    let last_key :=
      match it_lower_bound history_key_lt history head_key with
      | None => it_last history_key_lt history
      | Some k => it_prev history_key_lt history (Some k)
      end in
    let key := mk_history_key quote_id base_id each_block timestamp in
    let p := if bool_decide (last_key = Some key) then p else store_market_history_record key n p in
    let p := update_period db (mk_history_key quote_id base_id each_hour (timestamp - timestamp mod 3600)) n p in
    update_period db (mk_history_key quote_id base_id each_day (timestamp - timestamp mod 86400)) n p
  else p.

(** *** [market_engine::execute] *)

(** The iterators before the first pass: the highest bid of the market is the
    one before the first bid of the next market. *)
Definition first_bid db quote_id base_id : option market_index_key :=
  let next_pair := if base_id + 1 =? quote_id then mk_price 0 0 (quote_id + 1) else mk_price 0 (base_id + 1) quote_id in
  match it_lower_bound index_key_lt (db_bids db) (mk_index next_pair 0) with
  | Some k => it_prev index_key_lt (db_bids db) (Some k)
  | None => it_last index_key_lt (db_bids db)
  end.
Definition first_ask db quote_id base_id : option market_index_key :=
  match it_lower_bound index_key_lt (db_asks db) (mk_index (mk_price 0 base_id quote_id) 0) with
  | Some k => Some k
  | None => it_begin index_key_lt (db_asks db)
  end.

(** Market-issued assets have a feed price, or had one. *)
Definition market_feed_price db quote_id base_id (quote base : asset_record) (p : engine_state) : result (option price) :=
  if is_market_issued quote && (as_id base =? 0) then
    feed <- get_active_feed_price db quote_id ;;
    let known := match get_market_status p (quote_id, base_id) with
                 | Some s => bool_decide (is_Some (st_last_valid_feed_price s))
                 | None => false
                 end in
    _ <- throw_if insufficient_feeds (negb known && bool_decide (feed = None)) ;;
    Ok feed
  else Ok None.

(** The body of the [try] block, on the pending state [p] over the state of
    the block. *)
Definition match_market db quote_id base_id (timestamp : time) (p : engine_state)
    : result (prior_state * list market_transaction) :=
  quote <- from_option_or assert_exception (get_asset_record p quote_id) ;;
  base <- from_option_or assert_exception (get_asset_record p base_id) ;;
  _ <- fc_assert (negb (flag_is_active quote halted_markets)) ;;
  _ <- fc_assert (negb (flag_is_active base halted_markets)) ;;
  feed <- market_feed_price db quote_id base_id quote base p ;;
  let e := mk_engine p None None (first_bid db quote_id base_id) (first_ask db quote_id base_id) 0 [] in
  let l := mk_match e (-1) quote base (mk_asset 0 base_id) price_default price_default price_default price_default in
  l <- foldM (run_pass db quote_id base_id feed) [0%nat; 1%nat; 2%nat] l ;;
  let p := store_asset_record (ml_base l) (store_asset_record (ml_quote l) (me_pending (ml_engine l))) in
  status <- match get_market_status p (quote_id, base_id) with
            | Some s => Ok s
            | None => new_market_status quote_id base_id
            end ;;
  let p := store_market_status (mk_market_status (st_quote_id status) (st_base_id status)
             (st_current_feed_price status) (st_last_valid_feed_price status) None) p in
  prior <- apply_changes (update_market_history db quote_id base_id timestamp l p) ;;
  Ok (prior, me_transactions (ml_engine l)).

(** [execute]: an exception ends up in the status of the market. *)
Definition market_execute db quote_id base_id (timestamp : time) (prior : prior_state)
    : result (bool * prior_state * list market_transaction) :=
  match match_market db quote_id base_id timestamp (pending_empty prior) with
  | Ok (prior, trxs) => Ok (true, prior, trxs)
  | Throw undefined_behaviour => Throw undefined_behaviour
  | Throw e =>
      status <- match get_market_status prior (quote_id, base_id) with
                | Some s => Ok s
                | None => new_market_status quote_id base_id
                end ;;
      Ok (false, store_market_status (mk_market_status (st_quote_id status) (st_base_id status)
            (st_current_feed_price status) (st_last_valid_feed_price status) (Some e)) prior, [])
  end.

(** *** [execute_markets] *)

(** A [std::set] of pairs is walked in order. *)
Definition pair_le (a b : Z * Z) : Prop := a.1 < b.1 \/ (a.1 = b.1 /\ a.2 <= b.2).
#[export] Instance pair_le_dec : RelDecision pair_le.
Proof. intros a b. unfold pair_le. apply _. Defined.

Definition execute_market db (timestamp : time) (market : Z * Z) (acc : prior_state * list market_transaction)
    : result (prior_state * list market_transaction) :=
  let '(p, trxs) := acc in
  _ <- fc_assert (market.2 <? market.1) ;;
  r <- market_execute db market.1 market.2 timestamp p ;;
  let '(executed, p, new_trxs) := r in
  Ok (p, if executed : bool then trxs ++ new_trxs else trxs).

Definition execute_markets db (timestamp : time) (p : prior_state) : result prior_state :=
  r <- foldM (execute_market db timestamp) (merge_sort pair_le (get_dirty_markets db)) (p, []) ;;
  let '(p, trxs) := r in
  Ok (set_market_transactions trxs p).
End engine.
