(* ===== verification/Concrete.v ===== *)
(** A concrete chain for the witnesses: instances of the hash and signature
    functions and a small database; and concrete keys: a group of numbers in
    place of the curve, and a cipher that pads and marks the last byte with its
    key. *)

From S2P Require Import Prelude Asset Records Keys ChainInterface Tables PendingState ChainDatabase.

(** Stand-ins for the hashes: numbers built from their arguments; the address
    of a condition determines its asset. The key [k] signs as [k]. *)
Definition demo_crypto : Crypto.
Proof.
  refine {|
  key_address := fun k => 2 * k;
  pts_key_address := fun k c v => 2 * k + 10000 * v + (if c then 5000 else 0);
  condition_address := fun c => Z.pos (encode (wc_asset_id c,
    match wc_data c with
    | withdraw_null => 0
    | withdraw_with_signature owner _ => 1 + 8 * (owner + 1000 * (wc_asset_id c + 1000 * wc_slate_id c))
    | withdraw_vesting owner s d b => 2 + 8 * (owner + 1000 * (wc_asset_id c + 1000 * (s + 1000 * (d + 1000 * b))))
    | withdraw_with_multisig r owners _ => 3 + 8 * (r + 1000 * wc_asset_id c)
    | withdraw_with_escrow s r e _ _ => 4 + 8 * (s + 1000 * (r + 1000 * (e + 1000 * wc_asset_id c)))
    end));
  slate_hash := fun s => 1 + foldl (fun acc i => 1000 * acc + i) 0 (elements s);
  message_signer := fun _ sig => sig;
  packet_rand := fun id => uwrap64 (6364136223846793005 * id + 1442695040888963407);
  packet_rand_range := _ |}.
  intros id. apply uwrap64_range.
Defined.

Definition demo_tx : TxCrypto := {|
  trx_id := fun t => tx_expiration t * 1000 + Z.of_nat (length (tx_operations t));
  trx_digest := fun t chain => tx_expiration t * 1000 + Z.of_nat (length (tx_operations t)) + 1000000000 * chain;
  recover_key := fun sig digest canonical => Ok sig |}.

Definition demo_statics : Statics := {| static_chain_id := 77; static_statistics := true |}.

#[local] Existing Instance demo_crypto.
#[local] Existing Instance demo_tx.
#[local] Existing Instance demo_statics.

(** Keys 11 and 12 for the first account, a delegate; 21 and 22 for the second. *)
Definition alice : account_record :=
  mk_account 1 "alice" "" 11 {[ 100 := 12 ]} 100 100 0
    (Some (mk_delegate_stats 0 3 {[ 0 := 13 ]} 0 None 500 0 0 0 0)) None.
Definition bob : account_record := mk_account 2 "bob" "" 21 {[ 100 := 22 ]} 100 100 25 None None.

Definition base_asset : asset_record :=
  mk_asset_record 0 "BTS" god_issuer_id 0 {| ms_required := 1; ms_owners := ∅ |} 0 0 ∅ "base" "" ""
    100000 1000000000000000 0 0 700 1000000000 0 100 100.
(** A user-issued asset of the first account. *)
Definition user_asset : asset_record :=
  mk_asset_record 1 "GOLD" user_issuer_id 1 {| ms_required := 1; ms_owners := {[ 24 ]} |} 4294967295 0 ∅ "gold" "" ""
    100 1000000 0 0 0 5000 0 100 100.

Definition alice_balance : balance_record :=
  mk_balance (signature_condition 24 0 0) 900000000 None 100 100 None.
Definition bob_gold : balance_record :=
  mk_balance (signature_condition 44 1 0) 5000 None 100 100 None.

Definition demo_records (db : chain_database) : result chain_database :=
  let db := store_property_record chain_id_property (property_int 77) db in
  let db := store_property_record last_asset_id_property (property_int 1) db in
  let db := store_property_record last_account_id_property (property_int 2) db in
  let db := store_property_record last_game_id_property (property_int 0) db in
  let db := store_property_record active_delegate_list_property (property_ids [1]) db in
  let db := store_property_record statistics_enabled_property (property_bool true) db in
  let db := store_asset_record base_asset db in
  let db := store_asset_record user_asset db in
  let db := store_balance_record alice_balance db in
  let db := store_balance_record bob_gold db in
  db <- store_account_record alice db ;;
  store_account_record bob db.

Definition ok_or {A} (d : A) (r : result A) : A := match r with Ok a => a | Throw _ => d end.

Definition demo_start : chain_database :=
  mk_database (tconst (fun t => ∅ : db_table t)) indexes_empty ∅ ∅ ∅ ∅ ∅ (mk_market_data ∅ ∅ ∅) 500 100000 100005.

Definition demo_db : chain_database := ok_or demo_start (demo_records demo_start).

(** A pending state on it that renames nothing, moves an amount and creates an
    ad and a slate. *)
Definition demo_pending : pending_chain_state chain_database :=
  let p := pending_empty demo_db in
  let p := store_balance_record (set_br_balance 899999000 alice_balance) p in
  let p := store_balance_record (mk_balance (signature_condition 44 0 0) 1000 None 100 100 None) p in
  let p := store_slate_record {[ 1 ]} p in
  let p := store_ad_record {| ad_account_id := 1; ad_transaction_id := 9; ad_publisher_id := 2;
                              ad_amount := mk_asset 5 0; ad_message := "ad"; ad_signer := None |} p in
  ok_or p (store_account_record (set_ac_public_data "new" alice) p).

Example demo_db_built : is_ok (demo_records demo_start) = true.
Proof. vm_compute. reflexivity. Qed.

Example demo_lookup : br_balance <$> get_balance_record demo_pending (balance_id alice_balance) = Some 899999000
  /\ ac_id <$> account_record_lookup demo_pending 1 = Some 1
  /\ (r <- get_account_record_by_name demo_pending "bob" ;; Ok (ac_id <$> r)) = Ok (Some 2).
Proof. vm_compute. done. Qed.

Definition group_order : Z := 2 ^ 256.

Definition demo_pad (m : list Z) : nat := (16 - length m mod 16)%nat.

Definition demo_keys : KeyCrypto := {|
  get_public_key := fun a => a mod group_order + 1;
  get_shared_secret := fun a k => ((a mod group_order) * (k - 1)) mod group_order;
  hash_secret := fun s => s + 7;
  secret_word := fun s => s mod two64;
  seed_hash := fun s =>
    match s with
    | public_seed k (index_of_hash h) c | public_seed k (index_of_number h) c => (k + 3 * h, c + 1)
    | private_seed k (index_of_hash h) c => (5 * k + 3 * h + 1, c + 2)
    | private_seed k (index_of_number h) c => (7 * k + 3 * h + 2, c + 2)
    end;
  generate_from_seed := fun a h => (a + h) mod group_order;
  add_point := fun k h => (k - 1 + h) mod group_order + 1;
  aes_encrypt := fun s m => m ++ replicate (demo_pad m) (16 * s + (Z.of_nat (demo_pad m) - 1));
  aes_decrypt := fun s l =>
    match list.last l with
    | Some b => if b / 16 =? s then Ok (take (length l - Z.to_nat (b mod 16 + 1)) l) else Throw aes_exception
    | None => Throw aes_exception
    end |}.

#[export] Instance demo_key_laws : @KeyLaws demo_keys.
Proof.
  assert (Hpos : 0 < group_order) by done.
  assert (Hpad : forall m, (1 <= demo_pad m <= 16)%nat).
  { intros m. unfold demo_pad. pose proof (Nat.mod_upper_bound (length m) 16 ltac:(done)). lia. }
  split; cbn -[group_order replicate demo_pad Z.of_nat Z.mul Z.add Z.sub Z.modulo Z.div].
  - intros a b. rewrite !Z.add_simpl_r. by rewrite Z.mul_comm.
  - intros a h. rewrite Z.add_simpl_r, Zplus_mod_idemp_l, Zmod_mod. done.
  - intros s m. specialize (Hpad m). destruct (demo_pad m) as [|n]; [ lia | ].
    assert (E : replicate (S n) (16 * s + (Z.of_nat (S n) - 1)) = replicate n (16 * s + Z.of_nat n) ++ [16 * s + Z.of_nat n]).
    { replace (Z.of_nat (S n) - 1) with (Z.of_nat n) by lia. by rewrite replicate_S_end. }
    assert (E1 : (16 * s + Z.of_nat n) / 16 = s) by (rewrite Z.mul_comm, Z.div_add_l, Z.div_small; lia).
    assert (E2 : (16 * s + Z.of_nat n) mod 16 = Z.of_nat n) by (rewrite Z.mul_comm, Z.add_comm, Z.mod_add, Z.mod_small; lia).
    rewrite E, app_assoc, last_snoc, E1, E2, Z.eqb_refl. f_equal. rewrite !length_app, length_replicate. cbn [length].
    rewrite <- app_assoc. apply take_app_length'. lia.
  - intros s m. rewrite length_app, length_replicate. unfold demo_pad. pose proof (Nat.mod_upper_bound (length m) 16 ltac:(done)).
    pose proof (Nat.div_mod (length m) 16 ltac:(done)) as E. change 16 with (Z.of_nat 16) at 2. rewrite <- Nat2Z.inj_div. lia.
  - intros s. apply Z.mod_pos_bound. done.
  - intros a. pose proof (Z.mod_pos_bound a group_order Hpos). assert (group_order < 256 ^ 33) by done. lia.
  - intros a _. pose proof (Z.mod_pos_bound a group_order Hpos). unfold null_key. lia.
Qed.
