(* ===== verification/BlockOps.v ===== *)
(** The steps of applying a block, apart from its transactions: the checks of
    the header, the signing delegate of a slot, production statistics, the pay
    of the delegate, the shuffle of the active delegates, the random seed and
    the rewards of note operations (chain_database.cpp; block.hpp, block.cpp).

    [db] is the database before the block ([self]), [p] the pending state the
    block is evaluated on. The optional block record only collects statistics:
    what would be written to it is the second component of a result. *)

From stdpp Require Import sorting.
From S2P Require Import Prelude Asset Names Combinatorics Records ChainInterface EvalState BalanceOps Tables.
From S2P Require Import PendingState ChainDatabase.

(** ** Blocks *)

Record block_header := {
  bh_previous : Z;
  bh_block_num : Z;
  bh_timestamp : time;
  bh_transaction_digest : Z;
  bh_next_secret_hash : Z;
  bh_previous_secret : Z }.

Record full_block := {
  fb_header : block_header;
  fb_delegate_signature : Z;
  fb_user_transactions : list signed_transaction }.

(** The hashes of blocks, and the words of the hashes that serve as random
    numbers: 64-bit words of a SHA-256, 32-bit words of a RIPEMD-160. *)
Class BlockCrypto := {
  block_id : block_header -> Z -> Z;
  block_signee : block_header -> Z -> result public_key;
  transactions_digest : list transaction_id -> Z;
  secret_hash : Z -> Z;
  next_seed : Z -> Z -> Z;
  sha256_seed : Z -> Z;
  sha256_again : Z -> Z;
  sha256_word : Z -> nat -> Z;
  ripemd_word : Z -> nat -> Z;
  sha256_word_range : forall h i, 0 <= sha256_word h i < two64;
  ripemd_word_range : forall h i, 0 <= ripemd_word h i < two32 }.

(** [digest_block::validate_unique]: every id is inserted in a set. *)
Fixpoint unique_from (seen : gset Z) (ids : list transaction_id) : bool :=
  match ids with
  | [] => true
  | id :: ids => if bool_decide (id ∈ seen) then false else unique_from ({[ id ]} ∪ seen) ids
  end.
Definition validate_unique (ids : list transaction_id) : bool := unique_from ∅ ids.

(** ** Shuffling the delegates *)

Definition swap_at (i j : nat) (l : list account_id) : list account_id :=
  match l !! i, l !! j with
  | Some a, Some b => <[i := b]> (<[j := a]> l)
  | _, _ => l
  end.

(** The loop of [update_active_delegate_list] from index [i]: [x] is the next
    word of [seed] to use, [n] the number of indexes left. *)
Fixpoint shuffle_from `{BlockCrypto} (n i x : nat) (seed : Z) (l : list account_id) : list account_id :=
  match n with
  | O => l
  | S n =>
      let r := sha256_word seed x in
      let choices := Z.of_nat (length l) - Z.of_nat i in
      let j := Z.to_nat (uwrap32 (r mod choices) + Z.of_nat i) in
      let l := swap_at i j l in
      let x := Nat.modulo (x + 1) 4 in
      shuffle_from n (i + 1) x (if Nat.eqb x 0 then sha256_again seed else seed) l
  end.
Definition shuffle `{BlockCrypto} (random_seed : Z) (l : list account_id) : list account_id :=
  shuffle_from (length l) 0 0 (sha256_seed random_seed) l.

Section block.
Context `{FcI : Fc} `{Cr : Crypto} `{Tx : TxCrypto} `{St : Statics} `{BC : BlockCrypto}.
Implicit Types (db : chain_database) (p : pending_chain_state chain_database).

(** ** Signees *)

Definition get_delegate_record_for_signee db (signee : public_key) : result account_record :=
  r <- get_account_record_by_address db (key_address signee) ;;
  r <- from_option_or assert_exception r ;;
  _ <- fc_assert (is_delegate r) ;;
  Ok r.

Definition get_slot_signee db (timestamp : time) (ordered_delegates : list account_id) : result account_record :=
  let delegate_pos := Z.to_nat (get_slot_number timestamp mod NUM_DELEGATES) in
  delegate_id <- from_option_or assert_exception (ordered_delegates !! delegate_pos) ;;
  r <- from_option_or assert_exception (get_account_record db delegate_id) ;;
  _ <- fc_assert (is_delegate r) ;;
  Ok r.

(** The loop of [get_next_producible_block_timestamp] over the slots of one
    round. *)
Fixpoint producible_from (n : nat) (next_block_time : time) (active delegate_ids : list account_id)
    : result (option time) :=
  match n with
  | O => Ok None
  | S n =>
      id <- from_option_or assert_exception (active !! Z.to_nat (get_slot_number next_block_time mod NUM_DELEGATES)) ;;
      if existsb (Z.eqb id) delegate_ids then Ok (Some next_block_time)
      else producible_from n (uwrap32 (next_block_time + BLOCK_INTERVAL_SEC)) active delegate_ids
  end.
Definition get_next_producible_block_timestamp db (delegate_ids : list account_id) : result (option time) :=
  let next_block_time := slot_start_of (db_clock db) in
  let next_block_time :=
    if next_block_time <=? db_now db then uwrap32 (next_block_time + BLOCK_INTERVAL_SEC) else next_block_time in
  active <- get_active_delegates db ;;
  producible_from (Z.to_nat NUM_DELEGATES) next_block_time active delegate_ids.

(** ** The header *)

(** [verify_header], with [head] the id of the head block. *)
Definition verify_header db (head : Z) (b : full_block) (signee : public_key) : result unit :=
  let h := fb_header b in
  let ids := map trx_id (fb_user_transactions b) in
  _ <- throw_if block_numbers_not_sequential
         ((1 <? bh_block_num h) && negb (bh_block_num h =? uwrap32 (db_head_num db + 1))) ;;
  _ <- throw_if invalid_previous_block_id (negb (bh_previous h =? head)) ;;
  _ <- throw_if invalid_block_time (negb (bh_timestamp h mod BLOCK_INTERVAL_SEC =? 0)) ;;
  _ <- throw_if time_in_past ((1 <? bh_block_num h) && (bh_timestamp h <=? db_head_timestamp db)) ;;
  _ <- throw_if time_in_future (uwrap32 (db_clock db + BLOCK_INTERVAL_SEC * 2) <? bh_timestamp h) ;;
  _ <- throw_unless invalid_block_digest (transactions_digest ids =? bh_transaction_digest h) ;;
  _ <- fc_assert (validate_unique ids) ;;
  active <- get_active_delegates db ;;
  expected <- get_slot_signee db (bh_timestamp h) active ;;
  key <- signing_key expected ;;
  throw_if invalid_delegate_signee (negb (signee =? key)).

(** ** Production statistics *)

Definition store_slot db (r : slot_record) p : pending_chain_state chain_database :=
  slot_record_store (sl_delegate_id r, sl_timestamp r) r p.

Definition produced_info (h : block_header) (d : delegate_stats) : result delegate_stats :=
  _ <- match ds_next_secret_hash d with
       | Some expected => fc_assert (secret_hash (bh_previous_secret h) =? expected)
       | None => Ok tt
       end ;;
  Ok (set_ds_production (bh_block_num h) (bh_next_secret_hash h) (uwrap32 (ds_blocks_produced d + 1)) d).

(** The loop over the slots without a block, from [t] up to [until]; [fuel]
    bounds their number. *)
Fixpoint missed_from (fuel : nat) db (active : list account_id) (t until : time) p
    : result (pending_chain_state chain_database) :=
  if t <? until then
    match fuel with
    | O => Throw undefined_behaviour
    | S fuel =>
        signee <- get_slot_signee db t active ;;
        r <- from_option_or assert_exception (get_account_record p (ac_id signee)) ;;
        d <- from_option_or assert_exception (ac_delegate_info r) ;;
        let r := set_ac_delegate_info (Some (set_ds_blocks_missed (uwrap32 (ds_blocks_missed d + 1)) d)) r in
        p <- store_account_record r p ;;
        statistics <- get_statistics_enabled (Some static_statistics) db ;;
        let p := if statistics
                 then store_slot db {| sl_delegate_id := ac_id signee; sl_timestamp := t; sl_block_id := None |} p
                 else p in
        missed_from fuel db active (uwrap32 (t + BLOCK_INTERVAL_SEC)) until p
    end
  else Ok p.

Definition update_delegate_production_info db (h : block_header) (id : Z) (signee : public_key) p
    : result (pending_chain_state chain_database) :=
  delegate <- get_delegate_record_for_signee db signee ;;
  r <- from_option_or assert_exception (get_account_record p (ac_id delegate)) ;;
  d <- from_option_or assert_exception (ac_delegate_info r) ;;
  d <- produced_info h d ;;
  p <- store_account_record (set_ac_delegate_info (Some d) r) p ;;
  statistics <- get_statistics_enabled (Some static_statistics) db ;;
  let p := if statistics
           then store_slot db {| sl_delegate_id := ac_id delegate; sl_timestamp := bh_timestamp h; sl_block_id := Some id |} p
           else p in
  let t := if 0 <? db_head_num db then uwrap32 (db_head_timestamp db + BLOCK_INTERVAL_SEC) else bh_timestamp h in
  active <- get_active_delegates db ;;
  missed_from (Z.to_nat ((bh_timestamp h - t + (BLOCK_INTERVAL_SEC - 1)) / BLOCK_INTERVAL_SEC)) db active
    t (bh_timestamp h) p.

(** ** The pay of the delegate *)

Record paycheck := { issued_shares : Z; collected_shares : Z; destroyed_shares : Z }.

(** The amounts, from the pay issued per block, the collected fees and the
    pay rate. *)
Definition delegate_paycheck (max_new_shares collected_fees pay_rate : Z) : result paycheck :=
  let accepted_new_shares := div64 (max_new_shares *! pay_rate) 100 in
  _ <- fc_assert ((0 <=? max_new_shares) && (0 <=? accepted_new_shares)) ;;
  let max_collected_fees := div64 collected_fees (14 * BLOCKS_PER_DAY) in
  let accepted_collected_fees := div64 (max_collected_fees *! pay_rate) 100 in
  let destroyed_collected_fees := max_collected_fees -! accepted_collected_fees in
  _ <- fc_assert ((0 <=? max_collected_fees) && (0 <=? accepted_collected_fees) && (0 <=? destroyed_collected_fees)) ;;
  Ok {| issued_shares := accepted_new_shares; collected_shares := accepted_collected_fees;
        destroyed_shares := destroyed_collected_fees |}.

Definition pay_delegate db (signee : public_key) p : result (pending_chain_state chain_database * paycheck) :=
  base <- from_option_or assert_exception (get_asset_record p 0) ;;
  delegate <- get_account_record_by_address db (key_address signee) ;;
  delegate <- from_option_or assert_exception delegate ;;
  r <- from_option_or assert_exception (get_account_record p (ac_id delegate)) ;;
  d <- from_option_or assert_exception (ac_delegate_info r) ;;
  _ <- fc_assert (ds_pay_rate d <=? 100) ;;
  max_new_shares <- get_max_delegate_pay_issued_per_block db ;;
  pay <- delegate_paycheck max_new_shares (as_collected_fees base) (ds_pay_rate d) ;;
  let max_collected_fees := div64 (as_collected_fees base) (14 * BLOCKS_PER_DAY) in
  let base := set_as_money (as_collected_fees base -! max_collected_fees)
                (as_current_supply base +! issued_shares pay -! destroyed_shares pay) (as_current_collateral base) base in
  let accepted_paycheck := issued_shares pay +! collected_shares pay in
  _ <- fc_assert (0 <=? accepted_paycheck) ;;
  let d := set_ds_votes_for (ds_votes_for d +! accepted_paycheck) d in
  let d := set_ds_pay_balance (ds_pay_balance d +! accepted_paycheck) d in
  let d := set_ds_total_paid (ds_total_paid d +! accepted_paycheck) d in
  p <- store_account_record (set_ac_delegate_info (Some d) r) p ;;
  Ok (store_asset_record base p, pay).

(** ** The next round *)

Definition update_active_delegate_list db (block_num : Z) p : pending_chain_state chain_database :=
  if negb (block_num mod NUM_DELEGATES =? 0) then p
  else set_active_delegates (shuffle (get_current_random_seed p) (next_round_active_delegates db)) p.

Definition update_random_seed (new_secret : Z) p : pending_chain_state chain_database :=
  store_property_record last_random_seed_property (property_int (next_seed new_secret (get_current_random_seed p))) p.

(** ** Rewards for notes *)

Record reward_transaction := { rt_owner : address; rt_reward : asset }.

(** Adds to the balance of an address with no slate. *)
Definition pay_income (owner : address) (a : asset) p : pending_chain_state chain_database :=
  let r := match get_balance_record p (condition_address (signature_condition owner (asset_id a) 0)) with
           | Some r => r
           | None => balance_of_owner owner (mk_asset 0 (asset_id a)) 0
           end in
  store_balance_record (set_br_deposit_date (chain_now p) (set_br_last_update (chain_now p)
    (set_br_balance (br_balance r +! amount a) r))) p.

(** The notes of a block, by owner and transaction. *)
Definition notes_of_transaction (trx : signed_transaction) : list (Z * Z) :=
  omap (fun op => match op with op_note o => Some (nt_owner_account_id o, trx_id trx) | _ => None end)
    (tx_operations trx).

(** The blocks [begin, ..., begin + n - 1]; [get_block] reads a block of the
    database. *)
Fixpoint notes_from (get_block : Z -> result (list signed_transaction)) (n : nat) (i : Z) : result (list (Z * Z)) :=
  match n with
  | O => Ok []
  | S n =>
      trxs <- get_block i ;;
      rest <- notes_from get_block n (i + 1) ;;
      Ok (concat (map notes_of_transaction trxs) ++ rest)
  end.

(** Pays [reward] to the signer of a note; the sum of the rewards and their
    list are kept. *)
Definition reward_note (reward : Z) (idx : Z * Z) (acc : Z * list reward_transaction * pending_chain_state chain_database)
    : result (Z * list reward_transaction * pending_chain_state chain_database) :=
  let '(paid, log, p) := acc in
  note <- from_option_or undefined_behaviour (get_note_record p idx) ;;
  key <- note_signer_key note ;;
  let t := {| rt_owner := key_address key; rt_reward := mk_asset reward 0 |} in
  Ok (paid +! reward, log ++ [t], pay_income (rt_owner t) (rt_reward t) p).

(** Removes the chosen positions, the greatest first. *)
Definition erase_positions (chosen : list nat) (l : list (Z * Z)) : list (Z * Z) :=
  foldr (fun i l => delete i l) l chosen.

(** All of the notes if there are at most [k], else [k] of them drawn with
    [word]; and the others. *)
Definition draw_notes (k : nat) (word : Z) (l : list (Z * Z)) : result (list (Z * Z) * list (Z * Z)) :=
  if (length l <=? k)%nat then Ok (l, [])
  else
    let n := Z.to_nat (uwrap16 (Z.of_nat (length l))) in
    c <- cnr n k ;;
    _ <- throw_if undefined_behaviour (c =? 0) ;;
    lucky <- unranking (word mod c) k n ;;
    _ <- throw_unless undefined_behaviour (forallb (fun i => i <? length l)%nat lucky) ;;
    Ok (omap (fun i => l !! i) lucky, erase_positions lucky l).

(** The rewards of one day: two fifths for one note, three twentieths for
    each of two, six hundredths for each of five. *)
Definition reward_levels (collected seed : Z) (notes : list (Z * Z)) p
    : result (Z * list reward_transaction * pending_chain_state chain_database) :=
  let level_1 := Z.to_nat (ripemd_word seed 0 mod Z.of_nat (length notes)) in
  first <- match notes !! level_1 with
           | Some idx => reward_note (div64 (collected *! 40) 100) idx (0, [], p)
           | None => Ok (0, [], p)
           end ;;
  let notes := delete level_1 notes in
  drawn <- draw_notes 2 (ripemd_word seed 1) notes ;;
  let '(second_notes, notes) := drawn in
  second <- foldM (reward_note (div64 (collected *! 15) 100)) second_notes first ;;
  drawn <- draw_notes 5 (ripemd_word seed 2) notes ;;
  let '(third_notes, _) := drawn in
  foldM (reward_note (div64 (collected *! 6) 100)) third_notes second.

Definition pay_operation_rewards db (get_block : Z -> result (list signed_transaction)) (block_num : Z) p
    : result (pending_chain_state chain_database * list reward_transaction) :=
  match get_operation_reward_record p note_op_type with
  | None => Ok (p, [])
  | Some r =>
      let collected := div64 (at_or_0 (rw_fees r) 0 *! BLOCKS_PER_DAY) (14 * BLOCKS_PER_DAY) in
      rewards <- (if block_num mod BLOCKS_PER_DAY =? 0 then
          let begin := uwrap32 (block_num - BLOCKS_PER_DAY) in
          let begin := if 1 <=? begin then begin else 1 in
          notes <- notes_from get_block (Z.to_nat (block_num - begin)) begin ;;
          reward_levels collected (get_current_random_seed db) notes p
        else Ok (0, [], p)) ;;
      let '(paid, log, p) := rewards in
      let r := {| rw_id := rw_id r; rw_fees := <[0 := at_or_0 (rw_fees r) 0 -! paid]> (rw_fees r) |} in
      Ok (store_operation_reward_record r p, log)
  end.
End block.
