(* ===== verification/Node.v ===== *)
(** The state of a node: the database with its head, the blocks it knows, the
    tree they form and the transactions that wait (chain_database_impl.hpp,
    chain_database.hpp), and the reading functions of chain_database.cpp.

    A function of the node runs on its state and ends with a value or an
    exception; what was written before the exception stays. The model is the
    release build: a C [assert] has no effect. *)

From S2P Require Import Prelude StateMonad Asset Records ChainInterface Tables PendingState ChainDatabase BlockOps.

(** ** The tree of blocks *)

Record block_fork_data := mk_fork_data {
  fd_next_blocks : gset Z;
  fd_is_linked : bool;
  fd_is_valid : option bool;
  fd_invalid_reason : option exception;
  fd_is_included : bool;
  fd_is_known : bool }.

Definition fork_data_default : block_fork_data := mk_fork_data ∅ false None None false false.

Definition fork_invalid (d : block_fork_data) : bool :=
  match fd_is_valid d with Some v => negb v | None => false end.
Definition fork_valid (d : block_fork_data) : bool :=
  match fd_is_valid d with Some v => v | None => false end.
Definition can_link (d : block_fork_data) : bool := fd_is_linked d && negb (fork_invalid d).

Definition set_fd_next (s : gset Z) (d : block_fork_data) : block_fork_data :=
  mk_fork_data s (fd_is_linked d) (fd_is_valid d) (fd_invalid_reason d) (fd_is_included d) (fd_is_known d).
Definition set_fd_linked (v : bool) (d : block_fork_data) : block_fork_data :=
  mk_fork_data (fd_next_blocks d) v (fd_is_valid d) (fd_invalid_reason d) (fd_is_included d) (fd_is_known d).
Definition set_fd_valid (v : option bool) (reason : option exception) (d : block_fork_data) : block_fork_data :=
  mk_fork_data (fd_next_blocks d) (fd_is_linked d) v reason (fd_is_included d) (fd_is_known d).
Definition set_fd_included (v : bool) (d : block_fork_data) : block_fork_data :=
  mk_fork_data (fd_next_blocks d) (fd_is_linked d) (fd_is_valid d) (fd_invalid_reason d) v (fd_is_known d).
Definition set_fd_known (v : bool) (d : block_fork_data) : block_fork_data :=
  mk_fork_data (fd_next_blocks d) (fd_is_linked d) (fd_is_valid d) (fd_invalid_reason d) (fd_is_included d) v.

(** ** The node *)

(** The undo state of a block, over the pending state it was made from. *)
Definition undo_state : Type := pending_chain_state (pending_chain_state chain_database).

Record node := mk_node {
  nd_db : chain_database;
  nd_head_id : Z;
  nd_head_header : block_header;
  nd_blocks : gmap Z full_block;
  nd_fork : gmap Z block_fork_data;
  nd_fork_number : gmap Z (list Z);
  nd_num_to_id : gmap Z Z;
  nd_undo : gmap Z undo_state;
  nd_min_undo : Z;
  (** ids of blocks to look at again, [_revalidatable_future_blocks_db] *)
  nd_future : gset Z;
  nd_pending_trxs : gmap Z signed_transaction;
  (** by fee and transaction id *)
  nd_fee_index : gmap (Z * Z) signed_transaction;
  nd_pending_state : pending_chain_state chain_database;
  nd_relay_fee : Z;
  nd_verify_signatures : bool }.

Definition set_nd_db (v : chain_database) (n : node) : node :=
  mk_node v (nd_head_id n) (nd_head_header n) (nd_blocks n) (nd_fork n) (nd_fork_number n) (nd_num_to_id n)
    (nd_undo n) (nd_min_undo n) (nd_future n) (nd_pending_trxs n) (nd_fee_index n) (nd_pending_state n)
    (nd_relay_fee n) (nd_verify_signatures n).
Definition set_nd_head (id : Z) (h : block_header) (n : node) : node :=
  mk_node (nd_db n) id h (nd_blocks n) (nd_fork n) (nd_fork_number n) (nd_num_to_id n)
    (nd_undo n) (nd_min_undo n) (nd_future n) (nd_pending_trxs n) (nd_fee_index n) (nd_pending_state n)
    (nd_relay_fee n) (nd_verify_signatures n).
Definition set_nd_blocks (v : gmap Z full_block) (n : node) : node :=
  mk_node (nd_db n) (nd_head_id n) (nd_head_header n) v (nd_fork n) (nd_fork_number n) (nd_num_to_id n)
    (nd_undo n) (nd_min_undo n) (nd_future n) (nd_pending_trxs n) (nd_fee_index n) (nd_pending_state n)
    (nd_relay_fee n) (nd_verify_signatures n).
Definition set_nd_fork (v : gmap Z block_fork_data) (n : node) : node :=
  mk_node (nd_db n) (nd_head_id n) (nd_head_header n) (nd_blocks n) v (nd_fork_number n) (nd_num_to_id n)
    (nd_undo n) (nd_min_undo n) (nd_future n) (nd_pending_trxs n) (nd_fee_index n) (nd_pending_state n)
    (nd_relay_fee n) (nd_verify_signatures n).
Definition set_nd_fork_number (v : gmap Z (list Z)) (n : node) : node :=
  mk_node (nd_db n) (nd_head_id n) (nd_head_header n) (nd_blocks n) (nd_fork n) v (nd_num_to_id n)
    (nd_undo n) (nd_min_undo n) (nd_future n) (nd_pending_trxs n) (nd_fee_index n) (nd_pending_state n)
    (nd_relay_fee n) (nd_verify_signatures n).
Definition set_nd_num_to_id (v : gmap Z Z) (n : node) : node :=
  mk_node (nd_db n) (nd_head_id n) (nd_head_header n) (nd_blocks n) (nd_fork n) (nd_fork_number n) v
    (nd_undo n) (nd_min_undo n) (nd_future n) (nd_pending_trxs n) (nd_fee_index n) (nd_pending_state n)
    (nd_relay_fee n) (nd_verify_signatures n).
Definition set_nd_undo (v : gmap Z undo_state) (n : node) : node :=
  mk_node (nd_db n) (nd_head_id n) (nd_head_header n) (nd_blocks n) (nd_fork n) (nd_fork_number n) (nd_num_to_id n)
    v (nd_min_undo n) (nd_future n) (nd_pending_trxs n) (nd_fee_index n) (nd_pending_state n)
    (nd_relay_fee n) (nd_verify_signatures n).
Definition set_nd_future (v : gset Z) (n : node) : node :=
  mk_node (nd_db n) (nd_head_id n) (nd_head_header n) (nd_blocks n) (nd_fork n) (nd_fork_number n) (nd_num_to_id n)
    (nd_undo n) (nd_min_undo n) v (nd_pending_trxs n) (nd_fee_index n) (nd_pending_state n)
    (nd_relay_fee n) (nd_verify_signatures n).
Definition set_nd_pool (trxs : gmap Z signed_transaction) (fees : gmap (Z * Z) signed_transaction)
    (p : pending_chain_state chain_database) (n : node) : node :=
  mk_node (nd_db n) (nd_head_id n) (nd_head_header n) (nd_blocks n) (nd_fork n) (nd_fork_number n) (nd_num_to_id n)
    (nd_undo n) (nd_min_undo n) (nd_future n) trxs fees p (nd_relay_fee n) (nd_verify_signatures n).

(** A computation on a node. *)
Notation node_m := (state_m node).

(** ** Reading *)

Definition get_block (id : Z) (n : node) : result full_block :=
  from_option_or key_not_found_exception (nd_blocks n !! id).
Definition get_block_header (id : Z) (n : node) : result block_header :=
  b <- get_block id n ;; Ok (fb_header b).
Definition get_block_id (block_num : Z) (n : node) : result Z :=
  from_option_or key_not_found_exception (nd_num_to_id n !! block_num).
Definition get_block_at (block_num : Z) (n : node) : result full_block :=
  id <- get_block_id block_num n ;; get_block id n.
Definition get_block_fork_data (id : Z) (n : node) : option block_fork_data := nd_fork n !! id.
Definition is_known_block (id : Z) (n : node) : bool :=
  match get_block_fork_data id n with Some d => fd_is_known d | None => false end.
Definition is_included_block (id : Z) (n : node) : bool :=
  match get_block_fork_data id n with Some d => fd_is_included d | None => false end.
Definition fetch_blocks_at_number (block_num : Z) (n : node) : list Z :=
  default [] (nd_fork_number n !! block_num).

(** [_fork_db.fetch] and [store]. *)
Definition fork_fetch (id : Z) (n : node) : result block_fork_data :=
  from_option_or key_not_found_exception (nd_fork n !! id).
Definition fork_store (id : Z) (d : block_fork_data) : node_m unit :=
  nwrite (fun n => set_nd_fork (<[id := d]> (nd_fork n)) n).

(** The id of a block. *)
Definition full_block_id `{BlockCrypto} (b : full_block) : Z := block_id (fb_header b) (fb_delegate_signature b).

(** The header of a node without a block. *)
Definition header_default : block_header :=
  {| bh_previous := 0; bh_block_num := 0; bh_timestamp := 0; bh_transaction_digest := 0;
     bh_next_secret_hash := 0; bh_previous_secret := 0 |}.
