(* ===== verification/ForkDb.v ===== *)
(** The fork database and the switching of forks: storing a block in the tree
    of blocks, extending the chain with a block, popping it, and [push_block],
    which moves the head to the longest fork it can apply
    (chain_database.cpp).

    A set of ids is walked in the order of its elements; the order of the
    code's unordered sets is not specified. Notifying observers, statistics of
    blocks and the timing of a block are left out. *)

From S2P Require Import Prelude StateMonad Asset Records ChainInterface Transaction Tables PendingState ChainDatabase Market.
From S2P Require Import BlockOps Node.

(** [3 * BTS_BLOCKCHAIN_BLOCKS_PER_HOUR]. *)
Definition MAX_UNDO_HISTORY : Z := 3600 / BLOCK_INTERVAL_SEC * 3.

(** ** Marking *)

(** The loop over one generation of blocks: each record is changed and
    stored, then visited; the next generation is collected. *)
Definition mark_one {A} (change : block_fork_data -> block_fork_data)
    (visit : Z -> block_fork_data -> A -> node_m A) (next_id : Z) (acc : gset Z * A) : node_m (gset Z * A) :=
  let '(pending, a) := acc in
  record <~ nread (fork_fetch next_id) ;;
  let record := change record in
  _ <~ fork_store next_id record ;;
  a <~ visit next_id record a ;;
  nret (pending ∪ fd_next_blocks record, a).

Fixpoint mark_generations {A} (change : block_fork_data -> block_fork_data)
    (visit : Z -> block_fork_data -> A -> node_m A) (fuel : nat) (next_ids : gset Z) (a : A) : node_m A :=
  if bool_decide (next_ids = ∅) then nret a
  else
    match fuel with
    | O => nthrow undefined_behaviour
    | S fuel =>
        r <~ nfold (mark_one change visit) (elements next_ids) (∅, a) ;;
        mark_generations change visit fuel (fst r) (snd r)
    end.

(** Generations of a tree: no more than it has blocks. *)
Definition mark_descendants {A} (change : block_fork_data -> block_fork_data)
    (visit : Z -> block_fork_data -> A -> node_m A) (ids : gset Z) (a : A) : node_m A :=
  fun n => mark_generations change visit (S (size (nd_fork n))) ids a n.

(** Keeps the highest block seen: its number, its id and its record. *)
Definition keep_highest (id : Z) (record : block_fork_data) (best : Z * (Z * block_fork_data))
    : node_m (Z * (Z * block_fork_data)) :=
  b <~ nread (get_block id) ;;
  nret (if fst best <? bh_block_num (fb_header b) then (bh_block_num (fb_header b), (id, record)) else best).

Definition recursive_mark_as_linked (ids : gset Z) : node_m (Z * block_fork_data) :=
  r <~ mark_descendants (set_fd_linked true) keep_highest ids (0, (0, fork_data_default)) ;;
  nret (snd r).

Definition recursive_mark_as_invalid (ids : gset Z) (reason : exception) : node_m unit :=
  mark_descendants (set_fd_valid (Some false) (Some reason)) (fun _ _ a => nret a) ids tt.

Definition mark_invalid (id : Z) (reason : exception) : node_m unit :=
  d <~ nread (fork_fetch id) ;;
  _ <~ fork_store id (set_fd_valid (Some false) (Some reason) d) ;;
  recursive_mark_as_invalid (fd_next_blocks d) reason.

Definition mark_as_unchecked (id : Z) : node_m unit :=
  d <~ nread (fork_fetch id) ;;
  _ <~ fork_store id (set_fd_valid None None d) ;;
  mark_descendants (set_fd_valid None None) (fun _ _ a => nret a) (fd_next_blocks d) tt.

(** Run when the database is opened. *)
Definition clear_invalidation_of_future_blocks : node_m unit :=
  fun n => nfold (fun id _ => mark_as_unchecked id) (elements (nd_future n)) tt n.

Definition mark_included (id : Z) (included : bool) : node_m unit :=
  d <~ nread (fork_fetch id) ;;
  let d := set_fd_included included d in
  fork_store id (if included then set_fd_valid (Some true) (fd_invalid_reason d) d else d).

(** ** Storing a block *)

(** The record of the new block is made from the placeholder, if its children
    came before it, and inherits from its parent. *)
Definition inherit_fork (prev_fork current : block_fork_data) : block_fork_data :=
  if fork_invalid prev_fork then set_fd_valid (Some false) (fd_invalid_reason prev_fork) current else current.

Definition store_and_index (id : Z) (b : full_block) : node_m (Z * block_fork_data) :=
  _ <~ nwrite (fun n => set_nd_blocks (<[id := b]> (nd_blocks n)) n) ;;
  let num := bh_block_num (fb_header b) in
  _ <~ nwrite (fun n => set_nd_fork_number (<[num := fetch_blocks_at_number num n ++ [id]]> (nd_fork_number n)) n) ;;
  let previous := bh_previous (fb_header b) in
  known_prev <~ nread (fun n => Ok (nd_fork n !! previous)) ;;
  let prev_fork := match known_prev with Some d => d | None => set_fd_linked false fork_data_default end in
  let prev_fork := set_fd_next ({[ id ]} ∪ fd_next_blocks prev_fork) prev_fork in
  _ <~ fork_store previous prev_fork ;;
  placeholder <~ nread (fun n => Ok (nd_fork n !! id)) ;;
  match placeholder with
  | Some current =>
      let current := set_fd_known true current in
      if fd_is_linked prev_fork then
        let current := inherit_fork prev_fork (set_fd_linked true current) in
        _ <~ fork_store id current ;;
        if fork_invalid prev_fork then
          reason <~ nread (fun _ => from_option_or undefined_behaviour (fd_invalid_reason prev_fork)) ;;
          _ <~ recursive_mark_as_invalid (fd_next_blocks current) reason ;;
          nret (id, current)
        else recursive_mark_as_linked (fd_next_blocks current)
      else
        _ <~ fork_store id current ;;
        nret (id, current)
  | None =>
      let current := set_fd_linked (fd_is_linked prev_fork) (set_fd_known true fork_data_default) in
      let current := inherit_fork prev_fork current in
      _ <~ fork_store id current ;;
      nret (id, current)
  end.

(** ** Extending the chain *)

(** The checkpoints loaded from the file, and the games plugged in. *)
Class Checkpoints := { checkpoint_blocks : gmap Z Z }.
Class Games := {
  game_execute : option (chain_database -> Z -> pending_chain_state chain_database
                         -> result (pending_chain_state chain_database)) }.

Section chain.
Context `{FcI : Fc} `{Cr : Crypto} `{Tx : TxCrypto} `{St : Statics} `{BC : BlockCrypto} `{Cp : Checkpoints} `{Gm : Games}.

Definition last_checkpoint_block_num : Z := foldr Z.max 0 (map_to_list checkpoint_blocks).*1.

(** The key that signed the block; up to the last checkpoint the signature is
    not looked at, the signee is the delegate of the slot. *)
Definition block_signee_of (db : chain_database) (id : Z) (b : full_block) : result public_key :=
  let h := fb_header b in
  if last_checkpoint_block_num <? bh_block_num h then block_signee h (fb_delegate_signature b)
  else
    _ <- throw_if failed_checkpoint_verification
           match checkpoint_blocks !! bh_block_num h with Some cp => negb (cp =? id) | None => false end ;;
    active <- get_active_delegates db ;;
    r <- get_slot_signee db (bh_timestamp h) active ;;
    signing_key r.

(** The steps of [extend_chain] on the pending state of the block. *)
Definition evaluate_block (b : full_block) (n : node) : result (pending_chain_state chain_database) :=
  let db := nd_db n in
  let id := full_block_id b in
  let h := fb_header b in
  signee <- block_signee_of db id b ;;
  _ <- verify_header db (nd_head_id n) b signee ;;
  p <- update_delegate_production_info db h id signee (pending_empty db) ;;
  paid <- pay_delegate db signee p ;;
  let '(p, _) := paid in
  p <- execute_markets db (bh_timestamp h) p ;;
  p <- apply_transactions (negb (nd_verify_signatures n)) (bh_block_num h) 0 (fb_user_transactions b) p ;;
  let p := update_active_delegate_list db (bh_block_num h) p in
  let p := update_random_seed (bh_previous_secret h) p in
  rewarded <- pay_operation_rewards db (fun i => b <- get_block_at i n ;; Ok (fb_user_transactions b)) (bh_block_num h) p ;;
  let '(p, _) := rewarded in
  match game_execute with Some execute => execute db (bh_block_num h) p | None => Ok p end.

Definition save_undo_state (block_num id : Z) (p : pending_chain_state chain_database) : node_m unit :=
  fun n =>
    if block_num <? nd_min_undo n then (n, Ok tt)
    else
      (u <~ nread (fun _ => build_undo_state p) ;;
       _ <~ (if MAX_UNDO_HISTORY <? block_num then
               old_id <~ nread (get_block_id (block_num - MAX_UNDO_HISTORY)) ;;
               nwrite (fun n => set_nd_undo (delete old_id (nd_undo n)) n)
             else nret tt) ;;
       nwrite (fun n => set_nd_undo (<[id := u]> (nd_undo n)) n)) n.

(** The head of the node and the fields of it that the database reads. *)
Definition with_head (h : block_header) (d : chain_database) : chain_database :=
  mk_database (db_tables d) (db_indexes d) (db_delegate_votes d) (db_account_rps d) (db_unique_transactions d)
    (db_asks d) (db_bids d) (db_markets d) (bh_block_num h) (bh_timestamp h) (db_clock d).
Definition update_head_block (id : Z) (h : block_header) : node_m unit :=
  nwrite (fun n => set_nd_db (with_head h (nd_db n)) (set_nd_head id h n)).

(** The transactions of the block no longer wait; the others are looked at
    again later ([revalidate_pending]). *)
Definition clear_pending (b : full_block) : node_m unit :=
  nwrite (fun n => set_nd_pool (foldl (fun m trx => delete (trx_id trx) m) (nd_pending_trxs n) (fb_user_transactions b))
    ∅ (pending_empty (nd_db n)) n).

(** Drops the transactions that expired from the set of known ones. *)
Definition purge_unique : node_m unit :=
  nwrite (fun n => set_nd_db (set_db_unique
    (filter (fun k => db_now (nd_db n) < k.1) (db_unique_transactions (nd_db n))) (nd_db n)) n).

(** What [extend_chain] does inside its [try]. *)
Definition apply_block (id : Z) (b : full_block) : node_m unit :=
  p <~ nread (evaluate_block b) ;;
  _ <~ save_undo_state (bh_block_num (fb_header b)) id p ;;
  db <~ nread (fun _ => apply_changes p) ;;
  _ <~ nwrite (set_nd_db db) ;;
  _ <~ mark_included id true ;;
  _ <~ update_head_block id (fb_header b) ;;
  _ <~ clear_pending b ;;
  nwrite (fun n => set_nd_num_to_id (<[bh_block_num (fb_header b) := id]> (nd_num_to_id n)) n).

Definition extend_chain (b : full_block) : node_m unit :=
  let id := full_block_id b in
  _ <~ ncatch (apply_block id b) (fun e => _ <~ mark_invalid id e ;; nthrow e) ;;
  purge_unique.

(** ** Popping a block *)

(** With the head at block 0 the code returns without popping. *)
Definition pop_block : node_m unit :=
  fun n =>
    if bh_block_num (nd_head_header n) =? 0 then (n, Ok tt)
    else
      let head := nd_head_id n in
      let header := nd_head_header n in
      (_ <~ mark_included head false ;;
       _ <~ nwrite (fun n => set_nd_num_to_id (delete (bh_block_num header) (nd_num_to_id n)) n) ;;
       u <~ nread (fun n => from_option_or assert_exception (nd_undo n !! head)) ;;
       db <~ nread (fun n => undo_changes u (nd_db n)) ;;
       let previous := bh_previous header in
       _ <~ nwrite (fun n => set_nd_db db (set_nd_head previous header n)) ;;
       h <~ nread (fun n => if previous =? 0 then Ok header_default else get_block_header previous n) ;;
       update_head_block previous h) n.

(** ** Switching forks *)

(** The ids from a block back to the first included one; the parents of
    distinct blocks. *)
Fixpoint fork_history_from (fuel : nat) (next_id : Z) (n : node) : result (list Z) :=
  match fuel with
  | O => Throw undefined_behaviour
  | S fuel =>
      h <- get_block_header next_id n ;;
      if bh_previous h =? 0 then Ok [0]
      else
        prev_fork <- fork_fetch (bh_previous h) n ;;
        _ <- fc_assert (fd_is_linked prev_fork) ;;
        if fd_is_included prev_fork then Ok [bh_previous h]
        else rest <- fork_history_from fuel (bh_previous h) n ;; Ok (bh_previous h :: rest)
  end.
Definition get_fork_history (id : Z) (n : node) : result (list Z) :=
  rest <- fork_history_from (S (size (nd_blocks n))) id n ;; Ok (id :: rest).

(** Pops until the head is [target]; each pop goes to the parent of the
    head. *)
Fixpoint pop_until (fuel : nat) (target : Z) : node_m unit :=
  fun n =>
    if nd_head_id n =? target then (n, Ok tt)
    else
      match fuel with
      | O => (n, Throw undefined_behaviour)
      | S fuel => (_ <~ pop_block ;; pop_until fuel target) n
      end.

Definition switch_to_fork (id : Z) : node_m unit :=
  fun n =>
    if id =? nd_head_id n then (n, Ok tt)
    else
      (history <~ nread (get_fork_history id) ;;
       target <~ nread (fun _ => from_option_or undefined_behaviour (list.last history)) ;;
       _ <~ pop_until (S (size (nd_blocks n))) target ;;
       nfold (fun id _ => b <~ nread (get_block id) ;; extend_chain b) (tail (rev history)) tt) n.

(** ** [push_block] *)

(** Tries the blocks of one height; whether one became the head. [pushed] is
    the block that is pushed. *)
Fixpoint try_forks (pushed : Z) (ids : list Z) : node_m bool :=
  match ids with
  | [] => nret false
  | id :: ids =>
      d <~ nread (fork_fetch id) ;;
      if can_link d then
        switched <~ ncatch (_ <~ switch_to_fork id ;; nret true)
          (fun e => match e with
                    | time_in_future => _ <~ nwrite (fun n => set_nd_future ({[ pushed ]} ∪ nd_future n) n) ;; nret false
                    | _ => nret false
                    end) ;;
        if switched : bool then nret true else try_forks pushed ids
      else try_forks pushed ids
  end.

(** From the height [k] down. *)
Fixpoint try_heights (pushed : Z) (k : nat) : node_m unit :=
  match k with
  | O => nret tt
  | S k' =>
      fun n =>
        (done <~ try_forks pushed (fetch_blocks_at_number (Z.of_nat k) n) ;;
         if done : bool then nret tt else try_heights pushed k') n
  end.

(** The record of the pushed block. *)
Definition fork_data_of (id : Z) : node_m block_fork_data :=
  nread (fun n => from_option_or undefined_behaviour (get_block_fork_data id n)).

(** The second half of [push_block]: switches to the longest fork, or to
    the next one that applies. *)
Definition choose_fork (id head_num : Z) (longest : Z * block_fork_data) : node_m block_fork_data :=
  _ <~ (if can_link (snd longest) then
          longest_block <~ nread (get_block (fst longest)) ;;
          let highest := bh_block_num (fb_header longest_block) in
          if head_num <? highest then try_heights id (Z.to_nat highest) else nret tt
        else nret tt) ;;
  fork_data_of id.

Definition push_block (b : full_block) : node_m block_fork_data :=
  fun n =>
    let head_num := db_head_num (nd_db n) in
    let num := bh_block_num (fb_header b) in
    let id := full_block_id b in
    if (MAX_UNDO_HISTORY <? head_num) && (num <=? head_num - MAX_UNDO_HISTORY)
    then (n, Throw block_older_than_undo_history)
    else if is_known_block id n then fork_data_of id n
    else (longest <~ store_and_index id b ;; choose_fork id head_num longest) n.
End chain.
