(* ===== verification/Undo.v ===== *)
(** Applying a block's changes and popping the block: what [apply_changes]
    writes and what the undo state of [save_undo_state] restores in
    [pop_block]. *)

From stdpp Require Import sorting.
From S2P Require Import Prelude Asset Records ChainInterface Tables PendingState ChainDatabase Concrete.

(** The property that [apply_changes] overwrites with the set of dirty markets. *)
Definition dirty_key (t : table) : key_of t -> bool :=
  match t with property_t => fun k => k =? dirty_markets_property | _ => fun _ => false end.

(** The tables whose previous records [build_undo_state] keeps. *)
Definition undoable (t : table) : bool := bool_decide (t ∈ undo_order).

Section undo.
Context {S : Type} `{CI : chain_interface S} `{!chain_spec S} `{Cr : Crypto} `{Tx : TxCrypto} `{St : Statics}.
Implicit Types (p : pending_chain_state S).

Lemma state_ok_accounts {S'} `{CI' : chain_interface S'} `{!chain_spec S'} (db : S') :
  (forall k (v : account_record), flat account_t db !! k = Some v -> account_ok v = true) -> state_ok db.
Proof. intros H t k v Hk. destruct t; try done. by eapply H. Qed.

Lemma rebase_flat t (db : S) (u : pending_chain_state (pending_chain_state S)) k :
  flat t db !! k = flat t (ps_prev u) !! k -> flat t (set_prev_state db u) !! k = flat t u !! k.
Proof.
  intros H. rewrite (pending_flat t (set_prev_state db u)), (pending_flat t u), !ov_flat_lookup.
  simpl. by rewrite H.
Qed.

Lemma apply_changes_lookup p db' t k :
  apply_changes p = Ok db' -> tracked t = true -> dirty_key t k = false ->
  flat t db' !! k = flat t p !! k.
Proof.
  intros H Ht Hk. rewrite (apply_changes_tables p db' t H Ht). destruct t; try done.
  simpl in Hk. b2p. rewrite lookup_insert_ne; congruence.
Qed.

Lemma build_undo_lookup p u t k :
  build_undo_state p = Ok u -> tracked t = true -> dirty_key t k = false ->
  flat t u !! k = if undoable t then flat t (ps_prev p) !! k else flat t p !! k.
Proof.
  intros H Ht Hk. destruct (build_undo_tables p u t H Ht) as [_ E]. rewrite E. unfold undoable.
  destruct (decide (t ∈ undo_order)) as [Hd|Hd];
    [ rewrite (bool_decide_eq_true_2 _ Hd) | rewrite (bool_decide_eq_false_2 _ Hd) ];
    destruct t; try done; simpl in Hk; b2p; rewrite lookup_insert_ne; congruence.
Qed.

Lemma populate_total t p (u : pending_chain_state (pending_chain_state S)) :
  state_ok (ps_prev p) -> state_ok u ->
  exists u', populate_undo_state t (ps_prev p) (tget t (ps_tables p)) u = Ok u' /\ state_ok u'.
Proof.
  intros Hp Hu. unfold populate_undo_state.
  assert (Hr : forall k r, record_lookup t (ps_prev p) k = Some r -> rec_ok t r).
  { intros k r. rewrite flat_lookup. apply Hp. }
  match goal with |- context [foldM ?f ?l ?s] =>
    destruct (foldM_total state_ok (fun _ => True) f l s) as (u1 & E1 & H1);
    [ | exact Hu | by apply Forall_true | rewrite E1; cbn [rbind] ]
  end.
  { intros k s _ Hs. simpl. destruct (record_lookup t (ps_prev p) k) eqn:E; [ | eauto ].
    apply store_total; eauto. }
  apply (foldM_total state_ok (fun _ => True)); [ | exact H1 | by apply Forall_true ].
  intros item s _ Hs. simpl. destruct (record_lookup t (ps_prev p) (fst item)) eqn:E;
    [ apply store_total; eauto | by apply remove_total ].
Qed.

Lemma build_undo_total p : state_ok p -> state_ok (ps_prev p) -> exists u, build_undo_state p = Ok u.
Proof.
  intros Hp Hdb. unfold build_undo_state.
  match goal with |- context [foldM ?f ?l ?s] =>
    destruct (foldM_total state_ok (fun _ => True) f l s) as (u1 & E1 & H1);
    [ | | by apply Forall_true | rewrite E1; cbn [rbind]; eauto ]
  end.
  - intros t s _ Hs. by apply populate_total.
  - eapply (state_ok_accounts (S' := pending_chain_state (pending_chain_state S))). intros k v.
    rewrite pending_flat. unfold pending_empty. simpl. rewrite ov_flat_empty. apply (Hp account_t).
Qed.

(** C17: [apply_changes] on a state whose accounts have their keys never
    throws, and afterwards the previous state answers every lookup the way
    the pending state answered it (the dirty-markets property apart, which is
    overwritten by the markets this state touched). *)
Theorem apply_changes_refines (p : pending_chain_state S) (Hp : state_ok p) (Hdb : state_ok (ps_prev p)) :
  exists db', apply_changes p = Ok db'
    /\ (forall t k, tracked t = true -> dirty_key t k = false -> record_lookup t db' k = record_lookup t p k)
    /\ get_dirty_markets db' = elements (ps_dirty_markets p).
Proof.
  destruct (apply_changes_total p Hp Hdb) as [db' H]. exists db'. split_and!; [ done | | ].
  - intros t k Ht Hk. rewrite !flat_lookup. by apply apply_changes_lookup.
  - unfold get_dirty_markets, get_property_record, property_record_lookup.
    rewrite flat_lookup, (apply_changes_tables p db' property_t H eq_refl), lookup_insert_eq. done.
Qed.

(** C18: popping a block takes it back: saving the undo state, applying the
    block and applying the undo state on the result all succeed, and leave
    every record of the tables the undo state covers as it was before the
    block (the dirty-markets property apart). *)
Theorem pop_block_restores (p : pending_chain_state S) (Hp : state_ok p) (Hdb : state_ok (ps_prev p)) :
  exists u db' db'', build_undo_state p = Ok u /\ apply_changes p = Ok db' /\ undo_changes u db' = Ok db''
    /\ forall t k, undoable t = true -> tracked t = true -> dirty_key t k = false ->
       record_lookup t db'' k = record_lookup t (ps_prev p) k.
Proof.
  destruct (build_undo_total p Hp Hdb) as [u Hu]. destruct (apply_changes_total p Hp Hdb) as [db' Hdb'].
  assert (Hr : forall t k, tracked t = true -> dirty_key t k = false ->
            flat t (set_prev_state db' u) !! k = if undoable t then flat t (ps_prev p) !! k else flat t p !! k).
  { intros t k Ht Hk. destruct (build_undo_tables p u t Hu Ht) as [Hprev _].
    rewrite rebase_flat by (rewrite Hprev; by apply apply_changes_lookup). by apply build_undo_lookup. }
  destruct (apply_changes_total (set_prev_state db' u)) as [db'' Hdb''].
  - apply state_ok_accounts. intros k v. rewrite Hr by done. apply (Hdb account_t).
  - apply state_ok_accounts. intros k v. change (ps_prev (set_prev_state db' u)) with db'.
    rewrite (apply_changes_lookup p db' account_t) by done. apply (Hp account_t).
  - exists u, db', db''. split_and!; [ done | done | done | ]. intros t k Htu Ht Hk.
    rewrite !flat_lookup, (apply_changes_lookup _ _ t k Hdb'' Ht Hk), Hr by done. by rewrite Htu.
Qed.

(** the records of ads and of operation rewards are not in the undo
    state: after the block is applied and popped they still are what the
    popped block made them. *)
Theorem pop_block_keeps_ads_and_rewards (p : pending_chain_state S) u db' db'' t k
    (Hu : build_undo_state p = Ok u) (Ha : apply_changes p = Ok db') (Hb : undo_changes u db' = Ok db'')
    (Ht : t = ad_t \/ t = operation_reward_t) :
  record_lookup t db'' k = record_lookup t p k.
Proof.
  assert (undoable t = false /\ tracked t = true /\ dirty_key t k = false) as (Hn & Htr & Hk)
    by (destruct Ht; by subst t).
  rewrite !flat_lookup. unfold undo_changes in Hb.
  rewrite (apply_changes_lookup _ _ t k Hb Htr Hk).
  destruct (build_undo_tables p u t Hu Htr) as [Hprev _].
  rewrite rebase_flat by (rewrite Hprev; by apply apply_changes_lookup).
  rewrite (build_undo_lookup p) by done. by rewrite Hn.
Qed.
End undo.

(** ** A concrete block *)

#[local] Existing Instance demo_crypto.
#[local] Existing Instance demo_tx.
#[local] Existing Instance demo_statics.

Lemma state_ok_check {S : Type} `{CI : chain_interface S} `{!chain_spec S} (db : S) :
  bool_decide (map_Forall (fun _ r => account_ok r = true) (flat account_t db : gmap Z account_record)) = true ->
  state_ok db.
Proof. intros H. b2p. apply state_ok_accounts. exact H. Qed.

Lemma apply_changes_refines_witness :
  exists db', apply_changes demo_pending = Ok db'
    /\ (forall t k, tracked t = true -> dirty_key t k = false -> record_lookup t db' k = record_lookup t demo_pending k)
    /\ get_dirty_markets db' = elements (ps_dirty_markets demo_pending).
Proof. apply (apply_changes_refines demo_pending); apply state_ok_check; vm_compute; reflexivity. Defined.

Lemma pop_block_restores_witness :
  exists u db' db'', build_undo_state demo_pending = Ok u /\ apply_changes demo_pending = Ok db'
    /\ undo_changes u db' = Ok db''
    /\ forall t k, undoable t = true -> tracked t = true -> dirty_key t k = false ->
       record_lookup t db'' k = record_lookup t (ps_prev demo_pending) k.
Proof. apply (pop_block_restores demo_pending); apply state_ok_check; vm_compute; reflexivity. Defined.

Definition demo_undo : pending_chain_state (pending_chain_state chain_database) :=
  ok_or (pending_empty demo_pending) (build_undo_state demo_pending).
Definition demo_applied : chain_database := ok_or demo_db (apply_changes demo_pending).
Definition demo_popped : chain_database := ok_or demo_db (undo_changes demo_undo demo_applied).

Lemma ok_or_is_ok {A} (d : A) (r : result A) : is_ok r = true -> r = Ok (ok_or d r).
Proof. by destruct r. Qed.

(** The ad of the popped block stays; it was not there before. *)
Lemma pop_block_keeps_ads_and_rewards_witness :
  record_lookup ad_t demo_popped (1, 9) = record_lookup ad_t demo_pending (1, 9)
  /\ is_Some (record_lookup ad_t demo_popped (1, 9)) /\ record_lookup ad_t demo_db (1, 9) = None.
Proof.
  assert (E : record_lookup ad_t demo_popped (1, 9) = record_lookup ad_t demo_pending (1, 9)).
  { apply (pop_block_keeps_ads_and_rewards demo_pending demo_undo demo_applied demo_popped ad_t (1, 9));
      [ apply ok_or_is_ok; vm_compute; reflexivity .. | by left ]. }
  split; [ exact E | ]. rewrite E. split; [ by eexists | reflexivity ].
Defined.
