(* ===== verification/Supply.v ===== *)
(** Conservation of the supply of every asset.

    Each record holds some amount of each asset; an asset record also
    accounts for its current supply, which is owed. The balance of an
    evaluation state is the sum over all records plus the fees paid so far, and
    the 64-bit arithmetic of every operation keeps it, modulo 2^64. *)

From S2P Require Import Prelude Asset Names Combinatorics Records ChainInterface EvalState BalanceOps.
From S2P Require Import AccountOps AssetOps MarketOps Transaction.

(** ** What a record holds *)

Definition on_asset (a id v : Z) : Z := if id =? a then v else 0.

(** The unclaimed shares of a packet. *)
Definition unclaimed_amount (a : Z) (l : list red_packet_status) : Z :=
  foldr (fun s acc => (if unclaimed s then on_asset a (asset_id (rs_amount s)) (amount (rs_amount s)) else 0) + acc) 0 l.

Definition pay_balance_of (r : account_record) : Z :=
  match ac_delegate_info r with Some d => ds_pay_balance d | None => 0 end.

(** The amount of asset [a] a record of a table holds; for an asset record its
    collected fees and collateral, less its supply. *)
Definition held (t : table) (a : Z) : val_of t -> Z :=
  match t with
  | balance_t => fun r => on_asset a (balance_asset_id r) (br_balance r)
  | account_t => fun r => on_asset a 0 (pay_balance_of r)
  | asset_t => fun r => on_asset a (as_id r) (as_collected_fees r - as_current_supply r)
                        + on_asset a 0 (as_current_collateral r)
  | packet_t => fun r => unclaimed_amount a (pk_claim_statuses r)
  | operation_reward_t => fun r => at_or_0 (rw_fees r) a
  | _ => fun _ => 0
  end.

Definition table_sum (g : table -> Z) : Z :=
  g property_t + g account_t + g asset_t + g slate_t + g balance_t + g transaction_t + g burn_t
  + g ad_t + g note_t + g packet_t + g operation_reward_t + g feed_t + g slot_t + g game_t.

Lemma table_sum_update g g' t :
  (forall t', t' <> t -> g' t' = g t') -> table_sum g' = table_sum g - g t + g' t.
Proof.
  intros H. unfold table_sum.
  assert (forall t', g' t' = g t' \/ t' = t) as E by (intros t'; destruct (decide (t' = t)); auto).
  destruct t; rewrite ?(H property_t), ?(H account_t), ?(H asset_t), ?(H slate_t), ?(H balance_t),
    ?(H transaction_t), ?(H burn_t), ?(H ad_t), ?(H note_t), ?(H packet_t), ?(H operation_reward_t),
    ?(H feed_t), ?(H slot_t), ?(H game_t) by done; lia.
Qed.

(** The ids under which records are stored. *)
Definition key_ok `{Crypto} (t : table) : key_of t -> val_of t -> Prop :=
  match t with
  | balance_t => fun k r => balance_id r = k
  | account_t => fun k r => ac_id r = k
  | asset_t => fun k r => as_id r = k
  | packet_t => fun k r => pk_id r = k
  | operation_reward_t => fun k r => rw_id r = k
  | _ => fun _ _ => True
  end.

(** Conditions with the same address name the same asset. *)
Class CollisionFree `{Crypto} := {
  address_asset : forall c c', condition_address c = condition_address c' -> wc_asset_id c = wc_asset_id c'
}.

Section supply.
Context {S : Type} `{CI : chain_interface S} `{CS : !chain_spec S} `{Cr : Crypto} `{St : Statics}.
Implicit Types s : S.

Definition total (a : Z) s : Z := table_sum (fun t => map_sum (fun _ v => held t a v) (flat t s)).

(** The total an evaluation state accounts for. *)
Definition accounted (a : Z) s (fees : gmap Z Z) : Z := total a s + at_or_0 fees a.

Record wf s : Prop := {
  wf_keys : forall t k v, flat t s !! k = Some v -> key_ok t k v;
  wf_accounts : forall n id r, last_account_id s = Ok n -> flat account_t s !! id = Some r -> id <= n }.

Lemma map_sum_put t a s k v (m : gmap (key_of t) (val_of t)) :
  m = <[k := v]> (flat t s) ->
  map_sum (fun _ v => held t a v) m
  = map_sum (fun _ v => held t a v) (flat t s) - contrib (fun _ v => held t a v) k (flat t s !! k) + held t a v.
Proof. intros ->. exact (map_sum_insert (fun _ v => held t a v) (flat t s) k v). Qed.

Lemma total_store t k v a s s' :
  store t k v s = Ok s' -> tracked t = true ->
  total a s' = total a s - contrib (fun _ v => held t a v) k (flat t s !! k) + held t a v.
Proof.
  intros H Ht. apply store_flat in H as [H1 H2]; [ | done ]. unfold total.
  rewrite (table_sum_update (fun t => map_sum (fun _ v => held t a v) (flat t s)) _ t)
    by (intros t' Ht'; by rewrite H2).
  rewrite (map_sum_put t a s k v _ H1). lia.
Qed.

(** A store of a record that holds what the previous one did. *)
Lemma total_store_same t k v a s s' :
  store t k v s = Ok s' -> held t a v = contrib (fun _ v => held t a v) k (flat t s !! k) -> total a s' = total a s.
Proof.
  intros H E. destruct (tracked t) eqn:Ht.
  - rewrite (total_store t k v a s s' H Ht). lia.
  - rewrite store_untracked in H by done. by simplify_eq.
Qed.

Lemma last_account_id_flat s :
  last_account_id s = property_as_int (flat property_t s !! last_account_id_property).
Proof. unfold last_account_id, get_property_record, property_record_lookup. by rewrite flat_lookup. Qed.

Definition store_guard s (t : table) : key_of t -> Prop :=
  match t with
  | account_t => fun k => is_Some (flat account_t s !! k)
  | property_t => fun k => k <> last_account_id_property
  | _ => fun _ => True
  end.

(** A store keeps well-formedness when the key is the record's, an account
    was there already, and the last account id is not touched. *)
Lemma wf_store t k v s s' :
  store t k v s = Ok s' -> wf s -> key_ok t k v ->
  store_guard s t k ->
  wf s'.
Proof.
  intros H [Hk Ha] Hkv Hc. destruct (tracked t) eqn:Ht;
    [ | rewrite store_untracked in H by done; by simplify_eq ].
  apply store_flat in H as [H1 H2]; [ | done ]. split.
  - intros t' k' v' Hv. destruct (decide (t' = t)) as [->|Hne]; [ | rewrite H2 in Hv by done; by apply Hk ].
    rewrite H1, lookup_insert in Hv. case_decide; [ congruence | by apply Hk ].
  - intros n id r. rewrite !last_account_id_flat.
    destruct (decide (t = property_t)) as [->|Hp].
    + rewrite H1, lookup_insert_ne, H2 by done. rewrite <- last_account_id_flat. apply Ha.
    + rewrite (H2 property_t), <- last_account_id_flat by congruence.
      destruct (decide (t = account_t)) as [->|Hacc].
      * rewrite H1. intros Hn. rewrite lookup_insert. case_decide as Hid; [ | by apply Ha ].
        intros _. subst. destruct Hc as [r' Hr']. by eapply Ha.
      * rewrite (H2 account_t) by congruence. apply Ha.
Qed.
End supply.

(** ** Steps *)

Section steps.
Context {S : Type} `{CI : chain_interface S} `{CS : !chain_spec S} `{Cr : Crypto} `{St : Statics}.
Implicit Types (s : S) (f : gmap Z Z).

(** What table [t] holds of [a] under [k]. *)
Definition held_at (t : table) (a : Z) (k : key_of t) s : Z :=
  contrib (fun _ v => held t a v) k (flat t s !! k).

Lemma held_at_some t a k s v : flat t s !! k = Some v -> held_at t a k s = held t a v.
Proof. unfold held_at. by intros ->. Qed.
Lemma held_at_none t a k s : flat t s !! k = None -> held_at t a k s = 0.
Proof. unfold held_at. by intros ->. Qed.

Lemma step_store t k v s s' f :
  store t k v s = Ok s' -> wf s -> tracked t = true -> key_ok t k v -> store_guard s t k ->
  wf s' /\ forall a, accounted a s' f = accounted a s f - held_at t a k s + held t a v.
Proof.
  intros H Hwf Ht Hk Hg. split; [ by eapply wf_store | ].
  intros a. unfold accounted, held_at. rewrite (total_store t k v a s s' H Ht). lia.
Qed.

Lemma step_balance r s f :
  wf s ->
  wf (store_balance_record r s)
  /\ forall a, accounted a (store_balance_record r s) f
       = accounted a s f - held_at balance_t a (balance_id r) s + on_asset a (balance_asset_id r) (br_balance r).
Proof. intros Hwf. by apply (step_store balance_t (balance_id r) r). Qed.

Lemma step_asset r s f :
  wf s ->
  wf (store_asset_record r s)
  /\ forall a, accounted a (store_asset_record r s) f
       = accounted a s f - held_at asset_t a (as_id r) s + held asset_t a r.
Proof. intros Hwf. by apply (step_store asset_t (as_id r) r). Qed.

Lemma step_packet r s f :
  wf s ->
  wf (store_packet_record r s)
  /\ forall a, accounted a (store_packet_record r s) f
       = accounted a s f - held_at packet_t a (pk_id r) s + unclaimed_amount a (pk_claim_statuses r).
Proof. intros Hwf. by apply (step_store packet_t (pk_id r) r). Qed.

Lemma step_reward r s f :
  wf s ->
  wf (store_operation_reward_record r s)
  /\ forall a, accounted a (store_operation_reward_record r s) f
       = accounted a s f - held_at operation_reward_t a (rw_id r) s + at_or_0 (rw_fees r) a.
Proof. intros Hwf. by apply (step_store operation_reward_t (rw_id r) r). Qed.

Lemma step_account r s s' f :
  store_account_record r s = Ok s' -> wf s -> is_Some (flat account_t s !! ac_id r) ->
  wf s' /\ forall a, accounted a s' f
     = accounted a s f - held_at account_t a (ac_id r) s + on_asset a 0 (pay_balance_of r).
Proof. intros H Hwf Hr. by apply (step_store account_t (ac_id r) r). Qed.

(** Tables that hold nothing. *)
Lemma step_plain t k v s s' f :
  store t k v s = Ok s' -> wf s -> (forall a v, held t a v = 0) ->
  (forall k v, key_ok t k v) -> store_guard s t k ->
  wf s' /\ forall a, accounted a s' f = accounted a s f.
Proof.
  intros H Hwf Hh Hk Hg. split; [ by eapply wf_store | ]. intros a. unfold accounted.
  rewrite (total_store_same t k v a s s' H); [ done | ]. rewrite Hh.
  destruct (flat t s !! k); simpl; by rewrite ?Hh.
Qed.

(** *** Reading *)

Lemma read_balance s k r :
  wf s -> get_balance_record s k = Some r ->
  balance_id r = k /\ forall a, held_at balance_t a (balance_id r) s = on_asset a (balance_asset_id r) (br_balance r).
Proof.
  unfold get_balance_record, balance_record_lookup. rewrite flat_lookup. intros Hwf H.
  pose proof (wf_keys s Hwf balance_t k r H) as Hk. simpl in Hk. split; [ done | ].
  intros a. rewrite Hk. exact (held_at_some balance_t a k s r H).
Qed.

Lemma read_asset s k r :
  wf s -> get_asset_record s k = Some r ->
  as_id r = k /\ forall a, held_at asset_t a (as_id r) s = held asset_t a r.
Proof.
  unfold get_asset_record, asset_record_lookup. rewrite flat_lookup. intros Hwf H.
  pose proof (wf_keys s Hwf asset_t k r H) as Hk. simpl in Hk. split; [ done | ].
  intros a. rewrite Hk. exact (held_at_some asset_t a k s r H).
Qed.

Lemma read_packet s k r :
  wf s -> get_packet_record s k = Some r ->
  pk_id r = k /\ forall a, held_at packet_t a (pk_id r) s = unclaimed_amount a (pk_claim_statuses r).
Proof.
  unfold get_packet_record, packet_record_lookup. rewrite flat_lookup. intros Hwf H.
  pose proof (wf_keys s Hwf packet_t k r H) as Hk. simpl in Hk. split; [ done | ].
  intros a. rewrite Hk. exact (held_at_some packet_t a k s r H).
Qed.

Lemma read_reward s k r :
  wf s -> get_operation_reward_record s k = Some r ->
  rw_id r = k /\ forall a, held_at operation_reward_t a (rw_id r) s = at_or_0 (rw_fees r) a.
Proof.
  unfold get_operation_reward_record, operation_reward_record_lookup. rewrite flat_lookup. intros Hwf H.
  pose proof (wf_keys s Hwf operation_reward_t k r H) as Hk. simpl in Hk. split; [ done | ].
  intros a. rewrite Hk. exact (held_at_some operation_reward_t a k s r H).
Qed.

Lemma read_account s k r :
  wf s -> get_account_record s k = Some r ->
  ac_id r = k /\ is_Some (flat account_t s !! ac_id r)
  /\ forall a, held_at account_t a (ac_id r) s = on_asset a 0 (pay_balance_of r).
Proof.
  unfold get_account_record, account_record_lookup. rewrite flat_lookup. intros Hwf H.
  pose proof (wf_keys s Hwf account_t k r H) as Hk. simpl in Hk. subst k. split; [ done | ].
  split; [ by eexists | ]. intros a. exact (held_at_some account_t a (ac_id r) s r H).
Qed.

(** *** Lookups after a store in another table *)

Lemma flat_other t k v s s' t' : store t k v s = Ok s' -> t' <> t -> flat t' s' = flat t' s.
Proof.
  intros H Hne. destruct (tracked t) eqn:Ht; [ by apply store_flat in H as [_ H]; [ apply H | ] | ].
  rewrite store_untracked in H by done. by simplify_eq.
Qed.

Lemma held_at_other t k v s s' t' a k' :
  store t k v s = Ok s' -> t' <> t -> held_at t' a k' s' = held_at t' a k' s.
Proof. intros H Hne. unfold held_at. by rewrite (flat_other t k v s s' t' H Hne). Qed.

(** *** Fees *)

Lemma fees_added f id v a : at_or_0 (map_add id v f) a ≡64 at_or_0 f a + on_asset a id v.
Proof.
  unfold map_add, on_asset. rewrite at_or_0_insert. destruct (Z.eqb_spec id a) as [->|Hne].
  - rewrite decide_True by done. eqm_solve.
  - rewrite decide_False by done. eqm_solve.
Qed.

Lemma fees_subtracted f id v a : at_or_0 (<[id := at_or_0 f id -! v]> f) a ≡64 at_or_0 f a - on_asset a id v.
Proof.
  unfold on_asset. rewrite at_or_0_insert. destruct (Z.eqb_spec id a) as [->|Hne].
  - rewrite decide_True by done. eqm_solve.
  - rewrite decide_False by done. eqm_solve.
Qed.

Lemma accounted_fees a s f f' : accounted a s f' = accounted a s f - at_or_0 f a + at_or_0 f' a.
Proof. unfold accounted. lia. Qed.

Lemma on_asset_add a id x y : on_asset a id (x +! y) ≡64 on_asset a id x + on_asset a id y.
Proof. unfold on_asset. destruct (id =? a); [ apply eqm_add64 | done ]. Qed.
Lemma on_asset_sub a id x y : on_asset a id (x -! y) ≡64 on_asset a id x - on_asset a id y.
Proof. unfold on_asset. destruct (id =? a); [ apply eqm_sub64 | done ]. Qed.
End steps.

(** The setters of a balance keep its condition. *)
Create Rewrite HintDb setters.
Lemma balance_asset_id_balance v r : balance_asset_id (set_br_balance v r) = balance_asset_id r.
Proof. done. Qed.
Lemma balance_id_balance `{Crypto} v r : balance_id (set_br_balance v r) = balance_id r.
Proof. done. Qed.
Lemma balance_asset_id_restricted_owner v r : balance_asset_id (set_br_restricted_owner v r) = balance_asset_id r.
Proof. done. Qed.
Lemma balance_id_restricted_owner `{Crypto} v r : balance_id (set_br_restricted_owner v r) = balance_id r.
Proof. done. Qed.
Lemma balance_asset_id_deposit_date v r : balance_asset_id (set_br_deposit_date v r) = balance_asset_id r.
Proof. done. Qed.
Lemma balance_id_deposit_date `{Crypto} v r : balance_id (set_br_deposit_date v r) = balance_id r.
Proof. done. Qed.
Lemma balance_asset_id_last_update v r : balance_asset_id (set_br_last_update v r) = balance_asset_id r.
Proof. done. Qed.
Lemma balance_id_last_update `{Crypto} v r : balance_id (set_br_last_update v r) = balance_id r.
Proof. done. Qed.
Lemma balance_asset_id_meta_data v r : balance_asset_id (set_br_meta_data v r) = balance_asset_id r.
Proof. done. Qed.
Lemma balance_id_meta_data `{Crypto} v r : balance_id (set_br_meta_data v r) = balance_id r.
Proof. done. Qed.
#[export] Hint Rewrite balance_asset_id_balance @balance_id_balance balance_asset_id_restricted_owner @balance_id_restricted_owner balance_asset_id_deposit_date @balance_id_deposit_date balance_asset_id_last_update @balance_id_last_update balance_asset_id_meta_data @balance_id_meta_data : setters.

(** ** Operations *)

(** ** Packets *)

Lemma left_packet_amount_held p l i :
  left_packet_amount p = Ok l ->
  asset_id l = asset_id (pk_amount p)
  /\ unclaimed_amount i (pk_claim_statuses p) = on_asset i (asset_id (pk_amount p)) (amount l).
Proof.
  unfold left_packet_amount. intros H.
  assert (G : forall sts acc, foldM (fun s left => if unclaimed s then asset_add left (rs_amount s) else Ok left) sts acc = Ok l ->
    asset_id l = asset_id acc
    /\ unclaimed_amount i sts + on_asset i (asset_id acc) (amount acc) = on_asset i (asset_id acc) (amount l)).
  { induction sts as [|s sts IH]; simpl; intros acc Hf; inv_ok; [ done | ].
    destruct (unclaimed s); inv_ok.
    - apply asset_add_Ok in Ha as [Hid ->]. apply IH in Hf as [H1 H2]. simpl in *. split; [ done | ].
      rewrite <- H2. unfold on_asset. rewrite <- Hid. destruct (asset_id acc =? i); lia.
    - apply IH in Hf as [H1 H2]. split; [ done | lia ]. }
  apply G in H as [H1 H2]. simpl in *. split; [ done | ]. unfold on_asset in *.
  destruct (asset_id (pk_amount p) =? i); lia.
Qed.

(** Replacing an unclaimed share. *)
Lemma unclaimed_amount_claim i l n s s' :
  l !! n = Some s -> unclaimed s = true ->
  unclaimed_amount i (<[n := s']> l) = unclaimed_amount i l - on_asset i (asset_id (rs_amount s)) (amount (rs_amount s))
    + if unclaimed s' then on_asset i (asset_id (rs_amount s')) (amount (rs_amount s')) else 0.
Proof.
  revert n. induction l as [|x l IH]; intros [|n] Hn Hs; simplify_eq/=.
  - rewrite Hs. lia.
  - rewrite (IH n Hn Hs). lia.
Qed.

Lemma next_claim_index_ge l n : (n <= next_claim_index l n)%nat.
Proof.
  revert n. induction l as [|x l IH]; simpl; intros n; [ done | ]. destruct (unclaimed x); [ done | ].
  specialize (IH (S n)). lia.
Qed.

Lemma next_claim_index_unclaimed l n s :
  l !! (next_claim_index l n - n)%nat = Some s -> unclaimed s = true.
Proof.
  revert n. induction l as [|x l IH]; simpl; intros n; [ done | ].
  destruct (unclaimed x) eqn:E.
  - rewrite Nat.sub_diag. simpl. congruence.
  - pose proof (next_claim_index_ge l (S n)). replace (next_claim_index l (S n) - n)%nat with (S (next_claim_index l (S n) - S n)) by lia.
    simpl. apply IH.
Qed.

Section frames.
Context {S : Type} `{CI : chain_interface S} `{Cr : Crypto}.
Implicit Types e : eval_state S.

Lemma adjust_vote_frame slate v e e' :
  adjust_vote slate v e = Ok e' -> es_state e' = es_state e /\ es_fees_paid e' = es_fees_paid e.
Proof. unfold adjust_vote. intros H. case_match; inv_ok; done. Qed.

Lemma maybe_adjust_frame (b : bool) slate v e e' :
  (if b then adjust_vote slate v e else Ok e) = Ok e' ->
  es_state e' = es_state e /\ es_fees_paid e' = es_fees_paid e.
Proof. destruct b; intros H; [ by eapply adjust_vote_frame | by inv_ok ]. Qed.

End frames.

(** Inversion of the successful run of an operation. *)
Ltac inv_op :=
  inv_ok;
  repeat match goal with
  | H : require_asset _ _ = Ok _ |- _ => apply from_option_or_Ok in H
  | H : require_account _ _ = Ok _ |- _ => apply from_option_or_Ok in H
  end.

Ltac adjust_frames :=
  match goal with
  | H : (if _ then adjust_vote _ _ _ else Ok _) = Ok _ |- _ =>
      apply maybe_adjust_frame in H as [Hs Hp]; simpl in Hs, Hp
  end.

Section conserve.
Context {S : Type} `{FcI : Fc} `{CI : chain_interface S} `{CS : !chain_spec S} `{Cr : Crypto} `{CF : !CollisionFree}
  `{Tx : TxCrypto} `{St : Statics}.
Implicit Types e : eval_state S.

Definition conserves e e' : Prop :=
  wf (es_state e') /\ forall a, accounted a (es_state e') (es_fees_paid e') ≡64 accounted a (es_state e) (es_fees_paid e).

Lemma deposit_target_spec c e :
  wf (es_state e) ->
  balance_id (deposit_target c e) = condition_address c
  /\ forall a, held_at balance_t a (balance_id (deposit_target c e)) (es_state e)
       = on_asset a (balance_asset_id (deposit_target c e)) (br_balance (deposit_target c e)).
Proof.
  intros Hwf. unfold deposit_target. destruct (get_balance_record _ _) as [r|] eqn:E.
  - by apply read_balance.
  - unfold get_balance_record, balance_record_lookup in E. rewrite flat_lookup in E.
    assert (Hh : forall a, held_at balance_t a (condition_address c) (es_state e) = 0)
      by (intros a; exact (held_at_none balance_t a _ _ E)).
    destruct (wc_data c); (split; [ done | intros a; etrans; [ apply Hh | ] ]);
      unfold on_asset; simpl; by case_match.
Qed.

Lemma deposit_conserves o e e' : evaluate_deposit o e = Ok e' -> wf (es_state e) -> conserves e e'.
Proof.
  unfold evaluate_deposit. intros H Hwf. inv_ok.
  destruct (deposit_target_spec (dp_condition o) e Hwf) as [Hid Hold].
  set (cur := deposit_target (dp_condition o) e) in *.
  adjust_frames.
  destruct (step_balance (set_br_last_update (es_now a3)
    (set_br_balance (br_balance cur +! dp_amount o) (set_br_deposit_date a2 cur))) (es_state a3)
    (es_fees_paid a3)) as [W A]; [ by rewrite Hs | ].
  split; [ exact W | ]. intros i. etrans; [ apply eqm_of_eq, A | ].
  rewrite Hs, Hp, (accounted_fees i (es_state e) (es_fees_paid e)). simpl.
  autorewrite with setters. rewrite (Hold i), on_asset_add, fees_subtracted. eqm_solve.
Qed.

(** The yield a withdrawal claims leaves the fees of the asset. *)
Lemma claim_yield_spec ar r e r' e' :
  claim_yield ar r e = (r', e') -> wf (es_state e) ->
  get_asset_record (es_state e) (balance_asset_id r) = Some ar ->
  wf (es_state e') /\ br_condition r' = br_condition r /\ es_fees_paid e' = es_fees_paid e
  /\ (forall a k, held_at balance_t a k (es_state e') = held_at balance_t a k (es_state e))
  /\ forall a f, accounted a (es_state e') f
       ≡64 accounted a (es_state e) f - on_asset a (balance_asset_id r) (br_balance r' - br_balance r).
Proof.
  unfold claim_yield. intros H Hwf Har. destruct (read_asset _ _ _ Hwf Har) as [Hid Hold].
  destruct (is_market_issued ar && _); simplify_eq; simpl.
  - set (y := amount (calculate_yield _ _ _ _ _)).
    set (ar' := set_as_collected_fees _ ar).
    destruct (step_asset ar' (es_state e) ∅ Hwf) as [W _]. split_and!; try done.
    + intros a k. by apply (held_at_other asset_t (as_id ar') ar').
    + intros a f. destruct (step_asset ar' (es_state e) f Hwf) as [_ A].
      etrans; [ apply eqm_of_eq, A | ]. change (as_id ar') with (as_id ar). rewrite Hold. simpl.
      rewrite Hid. unfold on_asset. destruct (balance_asset_id r =? a); eqm_solve.
  - split_and!; try done. intros a f. rewrite Z.sub_diag. unfold on_asset. destruct (_ =? a); eqm_solve.
Qed.

Lemma charge_withdrawal_frame ar e :
  es_state (charge_withdrawal_fee ar e) = es_state e
  /\ es_fees_paid (charge_withdrawal_fee ar e) = es_fees_paid e.
Proof. unfold charge_withdrawal_fee. by case_match. Qed.

Lemma withdraw_conserves o e e' : evaluate_withdraw o e = Ok e' -> wf (es_state e) -> conserves e e'.
Proof.
  unfold evaluate_withdraw. intros H Hwf. inv_op.
  match goal with H : get_balance_record _ _ = Some _ |- _ => destruct (read_balance _ _ _ Hwf H) as [Hid Hold] end.
  adjust_frames.
  match goal with H : context [claim_yield ?ar ?r ?x] |- _ => destruct (claim_yield ar r x) as [r' e2] eqn:Ey end.
  inv_ok. apply claim_yield_spec in Ey as (W1 & Hc & Hf & Hb & A1); [ | by rewrite Hs | by rewrite Hs ].
  set (r2 := set_br_last_update _ _).
  assert (Hr2 : balance_id r2 = balance_id a0 /\ balance_asset_id r2 = balance_asset_id a0)
    by (unfold balance_id, balance_asset_id; simpl; by rewrite Hc).
  destruct Hr2 as [Hr2 Hr2a].
  destruct (charge_withdrawal_frame a3 (store_balance r2 e2)) as [Hcs Hcf].
  destruct (step_balance r2 (es_state e2) (es_fees_paid e2) W1) as [W2 A2].
  split; [ simpl; by rewrite Hcs | ]. intros i. simpl. rewrite Hcs, Hcf. simpl.
  rewrite (accounted_fees i _ (es_fees_paid e2)), fees_added, A2, A1, Hr2, Hb, Hs, Hold, Hf, Hp, Hr2a.
  simpl. rewrite on_asset_sub. unfold on_asset. destruct (balance_asset_id a0 =? i); eqm_solve.
Qed.

(** A record of a table that holds nothing. *)
Lemma plain_conserves t k v e s' :
  store t k v (es_state e) = Ok s' -> (forall a v, held t a v = 0) -> (forall k v, key_ok t k v) ->
  store_guard (es_state e) t k -> wf (es_state e) ->
  wf s' /\ forall a f, accounted a s' f = accounted a (es_state e) f.
Proof.
  intros H Hh Hk Hg Hwf. split; [ by eapply wf_store | ].
  intros a f. by apply (step_plain t k v (es_state e) s' f).
Qed.

Lemma burn_conserves o e e' : evaluate_burn o e = Ok e' -> wf (es_state e) -> conserves e e'.
Proof.
  unfold evaluate_burn. intros H Hwf. inv_op.
  match goal with H : get_asset_record _ _ = Some ?r |- _ => rename r into ar; rename H into Hr end.
  destruct (read_asset _ _ _ Hwf Hr) as [Hid Hold].
  match goal with |- conserves e (set_state (store_burn_record ?r (es_state ?x)) _) => set (rec := r); set (e1 := x) end.
  set (ar' := set_as_current_supply (as_current_supply ar -! amount (bo_amount o)) ar).
  assert (W1 : wf (es_state e1)) by (by apply (step_asset ar' (es_state e) ∅)).
  assert (P := plain_conserves burn_t (bu_account_id rec, bu_transaction_id rec) rec e1 _ eq_refl
                 ltac:(done) ltac:(done) I W1).
  destruct P as [W2 A2]. split; [ exact W2 | ]. intros i. cbn [es_state es_fees_paid set_state].
  etrans; [ apply eqm_of_eq, A2 | ].
  destruct (step_asset ar' (es_state e) (es_fees_paid e1) Hwf) as [_ A1].
  etrans; [ apply eqm_of_eq, A1 | ].
  rewrite (accounted_fees i (es_state e) (es_fees_paid e)). unfold e1. simpl.
  rewrite fees_subtracted, Hold. simpl. rewrite Hid. unfold on_asset.
  destruct (asset_id (bo_amount o) =? i); eqm_solve.
Qed.

(** Paying an address adds the amount to what the records hold. *)
Lemma pay_to_spec owner p e :
  wf (es_state e) ->
  wf (es_state (pay_to owner p e))
  /\ forall a f, accounted a (es_state (pay_to owner p e)) f
       ≡64 accounted a (es_state e) f + on_asset a (asset_id p) (amount p).
Proof.
  intros Hwf. unfold pay_to, income_target. set (c := signature_condition owner (asset_id p) 0).
  destruct (get_balance_record _ _) as [r|] eqn:E.
  - destruct (read_balance _ _ _ Hwf E) as [Hid Hold].
    assert (Ha : balance_asset_id r = asset_id p) by (by apply address_asset in Hid).
    match goal with |- context [store_balance ?x e] => set (r' := x) end.
    split; [ by apply (step_balance r' (es_state e) ∅) | ]. intros a f.
    destruct (step_balance r' (es_state e) f Hwf) as [_ A]. etrans; [ apply eqm_of_eq, A | ].
    unfold r'. autorewrite with setters. rewrite Hold. simpl. rewrite on_asset_add, Ha. eqm_solve.
  - unfold get_balance_record, balance_record_lookup in E. rewrite flat_lookup in E.
    match goal with |- context [store_balance ?x e] => set (r' := x) end.
    split; [ by apply (step_balance r' (es_state e) ∅) | ]. intros a f.
    destruct (step_balance r' (es_state e) f Hwf) as [_ A]. etrans; [ apply eqm_of_eq, A | ].
    change (balance_id r') with (condition_address c).
    rewrite (held_at_none balance_t a (condition_address c) _ E). simpl.
    change (balance_asset_id r') with (asset_id p). unfold on_asset. destruct (asset_id p =? a); eqm_solve.
Qed.

Lemma ad_conserves o e e' : evaluate_ad o e = Ok e' -> wf (es_state e) -> conserves e e'.
Proof.
  unfold evaluate_ad. intros H Hwf. inv_op.
  match goal with |- conserves e (set_state (store_ad_record ?r (es_state ?x)) _) => set (rec := r); set (e1 := x) end.
  match goal with H : active_address _ = Ok ?x |- _ => rename x into owner end.
  set (pay := mk_asset (amount (ao_amount o) -! size_fee (string_size (ao_message o)) 400 MIN_AD_FEE) 0) in *.
  set (e0 := add_min_fee (asset_id (ao_amount o)) (size_fee (string_size (ao_message o)) 400 MIN_AD_FEE) e) in *.
  destruct (pay_to_spec owner pay e0 Hwf) as [W1 A1].
  assert (P := plain_conserves ad_t (ad_account_id rec, ad_transaction_id rec) rec e1 _ eq_refl
                 ltac:(done) ltac:(done) I W1).
  destruct P as [W2 A2]. split; [ exact W2 | ]. intros i. cbn [es_state es_fees_paid set_state].
  etrans; [ apply eqm_of_eq, A2 | ]. etrans; [ apply (A1 i (es_fees_paid e1)) | ].
  rewrite (accounted_fees i (es_state e0) (es_fees_paid e)). unfold e1, e0. simpl.
  rewrite fees_subtracted. eqm_solve.
Qed.

Lemma note_conserves o e e' : evaluate_note o e = Ok e' -> wf (es_state e) -> conserves e e'.
Proof.
  unfold evaluate_note. intros H Hwf. inv_op.
  match goal with |- conserves e (set_state (store_note_record ?r (es_state ?x)) _) => set (rec := r); set (e1 := x) end.
  match goal with H : get_operation_reward_record _ _ = Some ?x |- _ => rename x into rw; rename H into Hr end.
  set (fee := mk_asset (amount (nt_amount o) -! note_fee (amount (nt_amount o))) (asset_id (nt_amount o))) in *.
  destruct (read_reward _ _ _ Hwf Hr) as [Hid Hold].
  destruct (step_reward (add_reward fee rw) (es_state e) (es_fees_paid e1) Hwf) as [W1 A1].
  assert (P := plain_conserves note_t (no_account_id rec, no_transaction_id rec) rec e1 _ eq_refl
                 ltac:(done) ltac:(done) I W1).
  destruct P as [W2 A2]. split; [ exact W2 | ]. intros i. cbn [es_state es_fees_paid set_state].
  etrans; [ apply eqm_of_eq, A2 | ]. etrans; [ apply eqm_of_eq, (A1 i) | ].
  rewrite (accounted_fees i (es_state e) (es_fees_paid e)).
  change (rw_id (add_reward fee rw)) with (rw_id rw). rewrite Hold. unfold e1. simpl.
  rewrite fees_added, fees_subtracted. eqm_solve.
Qed.

Lemma red_packet_conserves o e e' : evaluate_red_packet o e = Ok e' -> wf (es_state e) -> conserves e e'.
Proof.
  unfold evaluate_red_packet. intros H Hwf. inv_op.
  destruct (shrink_units _ _ _ _) as [total_space packet_unit]. inv_ok.
  match goal with |- conserves e (set_state (store_packet_record ?r (es_state ?x)) _) => set (rec := r) in *; set (e1 := x) in * end.
  match goal with H : asset_eqb ?l ?u = true |- _ => set (used := u) in *; rename l into left; rename H into Hu end.
  match goal with H : left_packet_amount _ = _ |- _ => rename H into Hl end.
  match goal with H : match get_packet_record _ _ with Some _ => false | None => true end = true |- _ => rename H into Hn end.
  unfold asset_eqb in Hu. b2p.
  assert (En : get_packet_record (es_state e1) (pk_id rec) = None) by (by destruct (get_packet_record _ _)).
  unfold get_packet_record, packet_record_lookup in En. rewrite flat_lookup in En.
  destruct (step_packet rec (es_state e1) (es_fees_paid e1) Hwf) as [W A].
  split; [ exact W | ]. intros i. cbn [es_state es_fees_paid set_state].
  etrans; [ apply eqm_of_eq, (A i) | ].
  rewrite (held_at_none packet_t i (pk_id rec) _ En).
  destruct (left_packet_amount_held rec left i Hl) as [_ ->].
  rewrite (accounted_fees i (es_state e1) (es_fees_paid e)). unfold e1. simpl.
  rewrite fees_subtracted. simpl. rewrite H. simpl. eqm_solve.
Qed.

(** What a claim pays out, and the packet it leaves. *)
Lemma claim_packet_spec o e e' pk :
  evaluate_claim_packet o e = Ok e' -> wf (es_state e) ->
  get_packet_record (es_state e) (cp_random_id o) = Some pk -> is_unclaimed_empty pk = false ->
  exists st, pk_claim_statuses pk !! next_available_claim_index pk = Some st /\ unclaimed st = true
    /\ wf (es_state e')
    /\ (forall a, accounted a (es_state e') (es_fees_paid e')
          ≡64 accounted a (es_state e) (es_fees_paid e)
              + if cp_to_account_id o =? -1 then on_asset a (asset_id (rs_amount st)) (amount (rs_amount st)) else 0)
    /\ flat packet_t (es_state e') !! pk_id pk = Some (set_pk_claim_statuses
         (<[next_available_claim_index pk := claim_status (cp_to_account_id o) (es_trx_id e) st]>
            (pk_claim_statuses pk)) pk).
Proof.
  unfold evaluate_claim_packet. intros H Hwf Hp He. inv_op.
  match goal with H : get_packet_record _ _ = Some ?x |- _ => assert (x = pk) by congruence; subst x end.
  rewrite He in H. inv_op.
  match goal with H : pk_claim_statuses _ !! ?n = Some ?x |- _ => set (n0 := n) in *; rename x into st; rename H into Hst end.
  match goal with H : active_address _ = Ok ?x |- _ => rename x into owner end.
  assert (Hun : unclaimed st = true)
    by (apply (next_claim_index_unclaimed (pk_claim_statuses pk) 0); by rewrite Nat.sub_0_r).
  destruct (read_packet _ _ _ Hwf Hp) as [Hid Hold].
  destruct (pay_to_spec owner (rs_amount st) (add_balance (rs_amount st) e) Hwf) as [W1 A1].
  set (e1 := sub_balance (rs_amount st) (pay_to owner (rs_amount st) (add_balance (rs_amount st) e))).
  set (pk' := set_pk_claim_statuses _ pk).
  destruct (step_packet pk' (es_state e1) (es_fees_paid e1) W1) as [W2 A2].
  exists st. split_and!; [ exact Hst | exact Hun | exact W2 | | ].
  2:{ destruct (store_flat packet_t (pk_id pk) pk' (es_state e1) (store_packet_record pk' (es_state e1)) eq_refl eq_refl)
        as [G _]. cbn [es_state set_state]. rewrite G, lookup_insert_eq. done. }
  intros i. cbn [es_state es_fees_paid set_state].
  etrans; [ apply eqm_of_eq, (A2 i) | ].
  change (pk_id pk') with (pk_id pk).
  assert (Hh : held_at packet_t i (pk_id pk) (es_state e1) = unclaimed_amount i (pk_claim_statuses pk)).
  { rewrite <- Hold. eapply (held_at_other balance_t); [ exact eq_refl | done ]. }
  rewrite Hh. unfold pk' at 1. simpl pk_claim_statuses. rewrite (unclaimed_amount_claim i _ n0 st) by done.
  change (es_state e1) with (es_state (pay_to owner (rs_amount st) (add_balance (rs_amount st) e))).
  rewrite (A1 i (es_fees_paid e1)), (accounted_fees i _ (es_fees_paid e)). unfold e1. simpl.
  rewrite fees_subtracted, fees_added. unfold claim_status, unclaimed. simpl.
  destruct (cp_to_account_id o =? -1); eqm_solve.
Qed.

Lemma claim_packet_conserves o e e' :
  evaluate_claim_packet o e = Ok e' -> cp_to_account_id o <> -1 -> wf (es_state e) -> conserves e e'.
Proof.
  intros H Hne Hwf. pose proof H as H0. unfold evaluate_claim_packet in H0. inv_op.
  match goal with H : get_packet_record _ _ = Some ?x |- _ => rename x into pk; rename H into Hp end.
  destruct (is_unclaimed_empty pk) eqn:He; [ inv_ok; by split | ].
  destruct (claim_packet_spec o e e' pk H Hwf Hp He) as (st & _ & _ & W & A & _).
  split; [ exact W | ]. intros i. rewrite A, (proj2 (Z.eqb_neq _ _) Hne). apply eqm_of_eq. lia.
Qed.

Lemma vote_target_spec c r e i :
  wf (es_state e) -> br_balance r = 0 -> wc_asset_id c = 0 ->
  held_at balance_t i (condition_address c) (es_state e) = on_asset i 0 (br_balance (vote_target c r e)).
Proof.
  intros Hwf Hr Hc. unfold vote_target. simpl.
  change (balance_id (balance_of_condition c)) with (condition_address c).
  destruct (get_balance_record _ _) as [t|] eqn:E.
  - destruct (read_balance _ _ _ Hwf E) as [Hid Hold]. rewrite <- Hid, Hold. apply address_asset in Hid.
    unfold balance_asset_id. by rewrite Hid, Hc.
  - unfold get_balance_record, balance_record_lookup in E. rewrite flat_lookup in E.
    etrans; [ exact (held_at_none balance_t i _ _ E) | ]. rewrite Hr. unfold on_asset. by case_match.
Qed.

Lemma update_balance_vote_conserves o e e' :
  evaluate_update_balance_vote o e = Ok e' -> wf (es_state e) -> conserves e e'.
Proof.
  unfold evaluate_update_balance_vote. intros H Hwf. inv_op.
  repeat match goal with
  | H : (if _ then adjust_vote _ _ _ else Ok _) = Ok _ |- _ =>
      apply maybe_adjust_frame in H as [? ?]
  end.
  match goal with H : get_balance_record _ _ = Some ?x |- _ => rename x into r; rename H into Hr end.
  match goal with |- context [vote_target ?c ?r ?x] => set (t := vote_target c r x) in *; set (e1 := x) in *;
    set (r0 := r) in *; set (cond := c) in * end.
  match goal with H : es_state a5 = es_state e |- _ => rename H into Hs5 end.
  match goal with H : es_fees_paid a5 = es_fees_paid e |- _ => rename H into Hf5 end.
  match goal with H : es_state ?x = es_state (add_balance _ e1) |- _ => rename H into Hs9; rename x into e9 end.
  match goal with H : es_fees_paid e9 = _ |- _ => rename H into Hf9 end.
  destruct (read_balance _ _ _ Hwf Hr) as [Hid Hold]. b2p.
  assert (Hz : br_balance r0 = 0) by (unfold r0, sub64; simpl; by rewrite Z.sub_diag).
  destruct (step_balance r0 (es_state a5) (es_fees_paid e9)) as [W1 A1]; [ by rewrite Hs5 | ].
  assert (Ht := fun i => vote_target_spec cond r0 e1 i W1 Hz eq_refl).
  match goal with |- conserves e (store_balance ?x e9) => set (r' := x) end.
  assert (W9 : wf (es_state e9)) by (by rewrite Hs9).
  destruct (step_balance r' (es_state e9) (es_fees_paid e9) W9) as [W2 A2].
  split; [ exact W2 | ]. intros i. cbn [es_state es_fees_paid set_state store_balance].
  etrans; [ apply eqm_of_eq, (A2 i) | ].
  change (balance_id r') with (condition_address cond). change (balance_asset_id r') with 0.
  rewrite Hs9. change (es_state (add_balance _ e1)) with (es_state e1). rewrite Ht. fold t.
  change (es_state e1) with (store_balance_record r0 (es_state a5)). rewrite A1.
  change (balance_id r0) with (balance_id r). change (balance_asset_id r0) with (balance_asset_id r).
  rewrite Hs5, Hold, Hz, (accounted_fees i (es_state e) (es_fees_paid e)).
  assert (Hf : at_or_0 (es_fees_paid e9) i ≡64 at_or_0 (es_fees_paid e) i + on_asset i 0 vote_fee).
  { rewrite Hf9. change (es_fees_paid (add_balance _ e1)) with (map_add 0 vote_fee (es_fees_paid a5)).
    rewrite Hf5. apply fees_added. }
  rewrite Hf. unfold r'. simpl br_balance. rewrite on_asset_add, on_asset_sub.
  match goal with H : balance_asset_id r = 0 |- _ => rewrite H end.
  unfold on_asset. destruct (0 =? i); eqm_solve.
Qed.

(** *** Accounts *)

Lemma store_account_conserves r e0 e e' :
  store_account r e = Ok e' -> wf (es_state e) -> es_state e = es_state e0 ->
  is_Some (flat account_t (es_state e0) !! ac_id r) ->
  (forall a, held_at account_t a (ac_id r) (es_state e0) - on_asset a 0 (pay_balance_of r)
     + at_or_0 (es_fees_paid e0) a ≡64 at_or_0 (es_fees_paid e) a) ->
  conserves e0 e'.
Proof.
  unfold store_account. intros H Hwf Hs Hr Hh. inv_ok.
  destruct (step_account r (es_state e) a (es_fees_paid e) Ha Hwf) as [W A]; [ by rewrite Hs | ].
  split; [ exact W | ]. intros i. cbn [es_state es_fees_paid set_state].
  rewrite A, Hs, (accounted_fees i (es_state e0) (es_fees_paid e0)), <- (Hh i). eqm_solve.
Qed.

Lemma make_delegate_keeps rate key r e r' e' :
  make_delegate rate key r e = Ok (r', e') ->
  ac_id r' = ac_id r /\ pay_balance_of r' = 0 /\ es_state e' = es_state e /\ es_fees_paid e' = es_fees_paid e.
Proof.
  unfold make_delegate. intros H. inv_ok. injection H as <- <-. unfold set_signing_key in Ha. simpl in Ha.
  inv_ok. done.
Qed.

Lemma update_delegate_keeps o r e r' e' :
  update_delegate o r e = Ok (r', e') ->
  ac_id r' = ac_id r /\ pay_balance_of r' = pay_balance_of r
  /\ es_state e' = es_state e /\ es_fees_paid e' = es_fees_paid e.
Proof.
  unfold update_delegate, pay_balance_of. intros H. inv_ok. destruct (is_delegate_rate _); [ | by inv_ok; simplify_eq ].
  destruct (ac_delegate_info r) as [d|] eqn:Ed; inv_ok; simplify_eq; [ done | ].
  apply make_delegate_keeps in H as (H1 & H2 & H3 & H4). done.
Qed.

Lemma update_active_key_keeps o r e r' :
  update_active_key o r e = Ok r' -> ac_id r' = ac_id r /\ pay_balance_of r' = pay_balance_of r.
Proof.
  unfold update_active_key. intros H. inv_ok. destruct (ua_active_key o); [ destruct (negb _) | ]; inv_ok; try done.
  unfold set_active_key in H. by inv_ok.
Qed.

Lemma update_account_conserves o e e' : evaluate_update_account o e = Ok e' -> wf (es_state e) -> conserves e e'.
Proof.
  unfold evaluate_update_account. intros H Hwf. inv_op.
  match goal with H : get_account_record _ _ = Some ?x |- _ => rename x into r; destruct (read_account _ _ _ Hwf H) as (Hid & Hsome & Hold) end.
  match goal with H : update_active_key _ _ _ = Ok ?x |- _ => rename x into r1; apply update_active_key_keeps in H as [Hi1 Hp1] end.
  match goal with H : update_delegate _ ?x _ = Ok ?y |- _ => set (r2 := x) in *; destruct y as [r3 e3]; apply update_delegate_keeps in H as (Hi3 & Hp3 & Hs3 & Hf3) end.
  assert (Hr2 : ac_id r2 = ac_id r1 /\ pay_balance_of r2 = pay_balance_of r1) by (unfold r2; by case_match).
  destruct Hr2 as [Hi2 Hp2].
  eapply store_account_conserves; [ exact H | by rewrite Hs3 | done | .. ]; simpl ac_id; rewrite Hi3, Hi2, Hi1; [ done | ].
  intros a'. rewrite Hold, Hf3. change (pay_balance_of (set_ac_last_update _ r3)) with (pay_balance_of r3).
  rewrite Hp3, Hp2, Hp1. eqm_solve.
Qed.

Lemma withdraw_pay_conserves o e e' : evaluate_withdraw_pay o e = Ok e' -> wf (es_state e) -> conserves e e'.
Proof.
  unfold evaluate_withdraw_pay. intros H Hwf. inv_op.
  match goal with H : get_account_record _ _ = Some ?x |- _ => rename x into r; destruct (read_account _ _ _ Hwf H) as (Hid & Hsome & Hold) end.
  match goal with H : ac_delegate_info r = Some ?x |- _ => rename x into d; rename H into Hd end.
  eapply store_account_conserves; [ exact H | done | done | done | ].
  intros i. simpl ac_id. rewrite Hold. unfold pay_balance_of. rewrite Hd. simpl.
  rewrite fees_added, on_asset_sub. eqm_solve.
Qed.

Lemma update_signing_key_conserves o e e' :
  evaluate_update_signing_key o e = Ok e' -> wf (es_state e) -> conserves e e'.
Proof.
  unfold evaluate_update_signing_key. intros H Hwf. inv_op.
  match goal with H : get_account_record _ _ = Some ?x |- _ => rename x into r; destruct (read_account _ _ _ Hwf H) as (Hid & Hsome & Hold) end.
  match goal with H : set_signing_key _ _ r = Ok ?x |- _ => rename x into r1; rename H into Hk end.
  assert (Hr1 : ac_id r1 = ac_id r /\ pay_balance_of r1 = pay_balance_of r).
  { unfold set_signing_key, pay_balance_of in *. destruct (ac_delegate_info r); by inv_ok. }
  destruct Hr1 as [Hi1 Hp1].
  eapply store_account_conserves; [ exact H | done | done | .. ]; simpl ac_id; rewrite Hi1; [ done | ].
  intros i. rewrite Hold. change (pay_balance_of (set_ac_last_update _ r1)) with (pay_balance_of r1).
  rewrite Hp1. eqm_solve.
Qed.

(** A new account gets an id above all others. *)
Lemma new_account_spec s id s1 r s2 f :
  wf s -> new_account_id s = Ok (id, s1) -> ac_id r = id -> store_account_record r s1 = Ok s2 ->
  wf s2 /\ forall a, accounted a s2 f = accounted a s f + on_asset a 0 (pay_balance_of r).
Proof.
  intros Hwf Hn. unfold new_account_id in Hn. inv_ok. injection Hn as <- <-. rename a into n. intros Hr Hs.
  set (s1 := store_property_record _ _ s) in *.
  assert (E1 : store property_t last_account_id_property (property_int (n + 1)) s = Ok s1) by done.
  assert (E2 : store account_t (ac_id r) r s1 = Ok s2) by done.
  pose proof (store_flat _ _ _ _ _ E1 eq_refl) as [F1 F2].
  pose proof (store_flat _ _ _ _ _ E2 eq_refl) as [G1 G2].
  assert (Hfresh : flat account_t s !! ac_id r = None).
  { rewrite Hr. destruct (flat account_t s !! (n + 1)) as [r0|] eqn:E; [ | done ].
    pose proof (wf_accounts s Hwf n (n + 1) r0 Ha E). lia. }
  split.
  - split.
    + intros t k v Hv. destruct (decide (t = account_t)) as [->|Ht].
      * rewrite G1, lookup_insert in Hv. case_decide; [ congruence | ].
        rewrite F2 in Hv by done. by apply (wf_keys s Hwf account_t).
      * rewrite G2 in Hv by done. destruct (decide (t = property_t)) as [->|Hp]; [ done | ].
        rewrite F2 in Hv by done. by apply (wf_keys s Hwf t).
    + intros m id0 r0. rewrite last_account_id_flat, G2, F1, lookup_insert_eq by done. intros [= <-].
      rewrite G1, lookup_insert. case_decide as Hd; [ intros _; rewrite <- Hd, Hr; lia | ].
      rewrite F2 by done. intros Hv. pose proof (wf_accounts s Hwf n id0 r0 Ha Hv). lia.
  - intros i.
    assert (Hh : held_at account_t i (ac_id r) s1 = 0).
    { apply held_at_none. rewrite F2 by done. exact Hfresh. }
    unfold held_at in Hh. unfold accounted. rewrite (total_store _ _ _ i _ _ E2 eq_refl), Hh. simpl.
    rewrite (total_store_same _ _ _ i _ _ E1); [ lia | ].
    by destruct (flat property_t s !! (last_account_id_property : key_of property_t)).
Qed.

Lemma register_account_conserves o e e' :
  evaluate_register_account o e = Ok e' -> wf (es_state e) -> conserves e e'.
Proof.
  unfold evaluate_register_account. intros H Hwf. inv_op.
  match goal with H : new_account_id _ = Ok ?x |- _ => destruct x as [id s1]; rename H into Hn end. inv_op.
  match goal with H : set_active_key _ _ ?x = Ok ?y |- _ => set (r0 := x) in *; rename y into r1; rename H into Hk end.
  match goal with H : (if _ then make_delegate _ _ _ ?x else _) = Ok ?y |- _ =>
    set (e1 := x) in *; destruct y as [r2 e2]; rename H into Hm end.
  assert (H1 : ac_id r1 = id /\ pay_balance_of r1 = 0) by (unfold set_active_key in Hk; by inv_ok).
  assert (H2 : ac_id r2 = id /\ pay_balance_of r2 = 0 /\ es_state e2 = s1 /\ es_fees_paid e2 = es_fees_paid e).
  { destruct (is_delegate_rate _); [ | inv_ok; simplify_eq; naive_solver ].
    apply make_delegate_keeps in Hm as (Hi & Hp & Hs & Hf). naive_solver. }
  destruct H2 as (Hi & Hp & Hs & Hf). unfold store_account in H. inv_ok.
  match goal with H : store_account_record r2 _ = Ok _ |- _ => rewrite Hs in H;
    destruct (new_account_spec _ _ _ r2 _ (es_fees_paid e2) Hwf Hn Hi H) as [W A] end.
  split; [ exact W | ]. intros i. cbn [es_state es_fees_paid set_state].
  rewrite A, Hp, Hf. unfold on_asset. destruct (0 =? i); eqm_solve.
Qed.

(** *** Assets *)

Lemma issuer_account_spec ty id e r e1 :
  issuer_account ty id e = Ok (r, e1) -> wf (es_state e) ->
  wf (es_state e1) /\ es_fees_paid e1 = es_fees_paid e
  /\ (forall t, t <> game_t -> flat t (es_state e1) = flat t (es_state e))
  /\ forall a f, accounted a (es_state e1) f = accounted a (es_state e) f.
Proof.
  unfold issuer_account. intros H Hwf. destruct (_ =? user_issuer_id); [ by inv_ok; simplify_eq | ].
  destruct (_ =? game_issuer_id); [ | by inv_ok; simplify_eq ]. inv_op.
  match goal with H : get_game_record _ _ = Some ?x |- _ => rename x into g end. simplify_eq.
  assert (E : store game_t (gm_id g) g (es_state e) = Ok (store_game_record g (es_state e))) by done.
  destruct (plain_conserves game_t (gm_id g) g e _ E ltac:(done) ltac:(done) I Hwf) as [W A].
  split_and!; try done. intros t Ht. by eapply (flat_other game_t).
Qed.

Lemma last_asset_id_flat (s : S) : last_asset_id s = property_as_int (flat property_t s !! last_asset_id_property).
Proof. unfold last_asset_id, get_property_record, property_record_lookup. by rewrite flat_lookup. Qed.

Lemma create_asset_conserves o e e' : evaluate_create_asset o e = Ok e' -> wf (es_state e) -> conserves e e'.
Proof.
  unfold evaluate_create_asset. intros H Hwf. inv_op.
  match goal with H : issuer_account _ _ _ = Ok ?x |- _ => destruct x as [acc e1]; apply issuer_account_spec in H as (W1 & Hf1 & Ho1 & A1); [ | done ] end.
  inv_op.
  match goal with H : new_asset_id _ = Ok ?x |- _ => destruct x as [id s1]; rename H into Hn end. inv_op.
  match goal with |- conserves e (sub_balance _ (add_balance _ (store_asset ?x ?y))) => set (r := x); set (e2 := y) end.
  match goal with H : last_asset_id (es_state e) = Ok ?x |- _ => rename x into last; rename H into Hlast end.
  match goal with H : match get_asset_record _ _ with Some _ => true | None => false end = false |- _ => rename H into Hnone end.
  unfold new_asset_id in Hn. simpl es_state in Hn. rewrite last_asset_id_flat in Hlast, Hn.
  rewrite Ho1, Hlast in Hn by done. simpl in Hn. injection Hn as <- <-.
  set (s1 := store_property_record _ _ _) in *.
  assert (E1 : store property_t last_asset_id_property (property_int (last + 1)) (es_state e1) = Ok s1) by done.
  destruct (plain_conserves property_t last_asset_id_property _ e1 s1 E1 ltac:(done) ltac:(done) ltac:(done) W1) as [W2 A2].
  assert (Hfresh : forall i, held_at asset_t i (as_id r) s1 = 0).
  { intros i. etrans; [ apply (held_at_other property_t _ _ _ s1 asset_t i (as_id r) E1); done | ].
    apply held_at_none. rewrite Ho1 by done. simpl as_id.
    unfold get_asset_record, asset_record_lookup in Hnone. rewrite flat_lookup in Hnone.
    by destruct (flat asset_t (es_state e) !! _). }
  destruct (step_asset r s1 (es_fees_paid e) W2) as [W3 A3].
  split; [ exact W3 | ]. intros i. cbn [es_state es_fees_paid set_state].
  match goal with |- accounted i _ ?f ≡64 _ => rewrite (accounted_fees i _ (es_fees_paid e) f) end.
  change (es_state (sub_balance _ _)) with (store_asset_record r s1). rewrite (A3 i), Hfresh, A2, A1. simpl.
  rewrite fees_subtracted, fees_added. unfold e2. simpl. rewrite Hf1. unfold on_asset. destruct (last + 1 =? i), (0 =? i); eqm_solve.
Qed.

Lemma asset_update_conserves r r' k e :
  get_asset_record (es_state e) k = Some r -> as_id r' = as_id r -> (forall a, held asset_t a r' = held asset_t a r) ->
  wf (es_state e) -> conserves e (store_asset r' e).
Proof.
  intros Hr Hi Hh Hwf. destruct (read_asset _ _ _ Hwf Hr) as [Hid Hold].
  destruct (step_asset r' (es_state e) (es_fees_paid e) Hwf) as [W A]. split; [ exact W | ].
  intros i. cbn [es_state es_fees_paid set_state store_asset]. rewrite A, Hi, Hold, Hh. eqm_solve.
Qed.

Lemma updatable_asset_Ok id e r :
  updatable_asset id e = Ok r -> get_asset_record (es_state e) id = Some r.
Proof. unfold updatable_asset. intros H. by inv_op. Qed.

Lemma update_properties_conserves o e e' :
  evaluate_asset_update_properties o e = Ok e' -> wf (es_state e) -> conserves e e'.
Proof.
  unfold evaluate_asset_update_properties. intros H Hwf. inv_op.
  match goal with H : updatable_asset _ _ = Ok _ |- _ => apply updatable_asset_Ok in H end.
  by eapply asset_update_conserves.
Qed.

Lemma update_permissions_conserves o e e' :
  evaluate_asset_update_permissions o e = Ok e' -> wf (es_state e) -> conserves e e'.
Proof.
  unfold evaluate_asset_update_permissions. intros H Hwf. inv_op.
  match goal with H : updatable_asset _ _ = Ok _ |- _ => apply updatable_asset_Ok in H end.
  by eapply asset_update_conserves.
Qed.

Lemma update_whitelist_conserves o e e' :
  evaluate_asset_update_whitelist o e = Ok e' -> wf (es_state e) -> conserves e e'.
Proof.
  unfold evaluate_asset_update_whitelist. intros H Hwf. inv_op. destruct (0 <? aw_asset_id o); inv_ok;
    by eapply asset_update_conserves.
Qed.

Lemma issue_asset_conserves p e e' : evaluate_issue_asset p e = Ok e' -> wf (es_state e) -> conserves e e'.
Proof.
  unfold evaluate_issue_asset. intros H Hwf. inv_op.
  match goal with H : get_asset_record _ _ = Some ?x |- _ => rename x into r; destruct (read_asset _ _ _ Hwf H) as [Hid Hold] end.
  match goal with |- conserves e (store_asset ?x ?y) => set (r' := x); set (e1 := y) end.
  assert (Hr' : as_id r' = as_id r /\ forall i, held asset_t i r' ≡64 held asset_t i r - on_asset i (as_id r) (amount p)).
  { unfold r'. destruct (0 <? asset_id p); inv_ok; (split; [ done | ]); intros i; simpl;
      unfold on_asset; destruct (as_id r =? i); eqm_solve. }
  destruct Hr' as [Hi' Hh'].
  destruct (step_asset r' (es_state e) (es_fees_paid e) Hwf) as [W A]. split; [ exact W | ].
  intros i. cbn [es_state es_fees_paid set_state store_asset].
  rewrite (accounted_fees i _ (es_fees_paid e)). change (es_state e1) with (es_state e).
  rewrite A, Hi', Hold, Hh'. unfold e1. simpl. rewrite fees_added. simpl. rewrite Hid. eqm_solve.
Qed.

Lemma define_slate_conserves l e e' : evaluate_define_slate l e = Ok e' -> wf (es_state e) -> conserves e e'.
Proof.
  unfold evaluate_define_slate. intros H Hwf. inv_op. set (r := list_to_set l) in *.
  destruct (get_slate_record _ _); inv_ok; [ by split | ].
  destruct (plain_conserves slate_t (slate_id r) r e _ eq_refl ltac:(done) ltac:(done) I Hwf) as [W A].
  split; [ exact W | ]. intros i. by apply eqm_of_eq, A.
Qed.

Lemma chips_target_spec owner id e :
  wf (es_state e) ->
  balance_asset_id (chips_target owner id e) = id
  /\ forall a, held_at balance_t a (balance_id (chips_target owner id e)) (es_state e)
       = on_asset a id (br_balance (chips_target owner id e)).
Proof.
  intros Hwf. unfold chips_target. set (c := signature_condition owner id 0).
  destruct (get_balance_record _ _) as [r|] eqn:E.
  - destruct (read_balance _ _ _ Hwf E) as [Hid Hold].
    assert (Ha : balance_asset_id r = id) by (by apply address_asset in Hid).
    split; [ done | ]. intros a. by rewrite Hold, Ha.
  - unfold get_balance_record, balance_record_lookup in E. rewrite flat_lookup in E. split; [ done | ].
    intros a. etrans; [ exact (held_at_none balance_t a _ _ E) | ]. unfold on_asset. simpl. by case_match.
Qed.

Lemma buy_chips_conserves o e e' : evaluate_buy_chips o e = Ok e' -> wf (es_state e) -> conserves e e'.
Proof.
  unfold evaluate_buy_chips. intros H Hwf. inv_op.
  match goal with H : get_asset_record _ _ = Some ?x |- _ => rename x into r; destruct (read_asset _ _ _ Hwf H) as [Hid Hold] end.
  match goal with H : chips_cost _ _ _ = Ok ?x |- _ => rename x into cost end.
  set (e1 := sub_balance (mk_asset cost 0) e).
  destruct (chips_target_spec (bc_owner o) (asset_id (bc_amount o)) e1 Hwf) as [Ht Hht].
  set (t := chips_target (bc_owner o) (asset_id (bc_amount o)) e1) in *.
  match goal with |- conserves e (store_asset ?x (store_balance ?y e1)) => set (r' := x); set (t' := y) end.
  destruct (step_balance t' (es_state e1) (es_fees_paid e1) Hwf) as [W1 A1].
  destruct (step_asset r' (store_balance_record t' (es_state e1)) (es_fees_paid e1) W1) as [W2 A2].
  split; [ exact W2 | ]. intros i. cbn [es_state es_fees_paid set_state store_asset store_balance].
  etrans; [ apply eqm_of_eq, A2 | ]. rewrite A1.
  change (as_id r') with (as_id r).
  rewrite (held_at_other balance_t (balance_id t') t' (es_state e1) (store_balance_record t' (es_state e1))
    asset_t i (as_id r) eq_refl) by done.
  change (es_state e1) with (es_state e). rewrite Hold.
  change (balance_id t') with (balance_id t). change (balance_asset_id t') with (balance_asset_id t).
  change (es_state e1) with (es_state e) in Hht. rewrite Hht, Ht.
  rewrite (accounted_fees i (es_state e) (es_fees_paid e)). unfold e1. simpl.
  rewrite fees_subtracted, on_asset_add, Hid. simpl. unfold on_asset.
  destruct (asset_id (bc_amount o) =? i), (0 =? i); eqm_solve.
Qed.
End conserve.
