(* ===== verification/Conservation.v ===== *)
(** Conservation over whole transactions and blocks: every operation keeps the
    balance of Supply.v, [validate_fees] turns the fees into collected fees of
    their assets, and the rest of the evaluation moves no amounts. *)

From S2P Require Import Prelude Asset Names Records ChainInterface EvalState BalanceOps AccountOps.
From S2P Require Import Transaction Tables PendingState ChainDatabase Concrete Undo Supply.

(** A claim to the account -1 leaves the share it pays out unclaimed. *)
Definition proper_claim (op : operation) : bool :=
  match op with op_claim_packet o => negb (cp_to_account_id o =? -1) | _ => true end.

Definition proper_claims (trx : signed_transaction) : bool := forallb proper_claim (tx_operations trx).

(** ** The fees as a list *)

Definition fee_sum (a : Z) (l : list (Z * Z)) : Z := foldr (fun item acc => on_asset a (fst item) (snd item) + acc) 0 l.

Lemma fee_sum_perm a l l' : l ≡ₚ l' -> fee_sum a l = fee_sum a l'.
Proof. induction 1; simpl; lia. Qed.

Lemma fee_sum_items a (m : gmap Z Z) : fee_sum a (map_items m) = at_or_0 m a.
Proof.
  rewrite (fee_sum_perm a _ _ (map_items_perm m)).
  induction m as [|k v m Hk IH] using map_ind; [ done | ].
  rewrite (fee_sum_perm a _ _ (map_to_list_insert m k v Hk)). simpl. rewrite IH, at_or_0_insert.
  unfold on_asset. destruct (Z.eqb_spec k a) as [->|Hne].
  - rewrite decide_True by done. unfold at_or_0. rewrite Hk. simpl. lia.
  - rewrite decide_False by done. lia.
Qed.

Section conservation.
Context {S : Type} `{FcI : Fc} `{CI : chain_interface S} `{CS : !chain_spec S} `{Cr : Crypto} `{CF : !CollisionFree}
  `{Tx : TxCrypto} `{St : Statics}.
Implicit Types (e : eval_state S) (s : S).

Lemma accounted_no_fees a s : accounted a s ∅ = total a s.
Proof.
  assert (E : at_or_0 (∅ : gmap Z Z) a = 0) by (unfold at_or_0; by rewrite lookup_empty).
  unfold accounted. rewrite E. apply Z.add_0_r.
Qed.

Lemma conserves_refl e : wf (es_state e) -> conserves e e.
Proof. by split. Qed.

Lemma operation_step op e e' :
  evaluate_operation op e = Ok e' -> proper_claim op = true -> wf (es_state e) -> conserves e e'.
Proof.
  intros H Hp Hwf. destruct op; simpl in H; try discriminate H.
  all: first [ by eapply withdraw_conserves | by eapply deposit_conserves | by eapply register_account_conserves
    | by eapply update_account_conserves | by eapply withdraw_pay_conserves | by eapply create_asset_conserves
    | by eapply issue_asset_conserves | by eapply update_properties_conserves | by eapply update_permissions_conserves
    | by eapply update_whitelist_conserves | by eapply define_slate_conserves | by eapply burn_conserves
    | by eapply ad_conserves | by eapply note_conserves | by eapply red_packet_conserves
    | by eapply update_signing_key_conserves | by eapply update_balance_vote_conserves
    | by eapply buy_chips_conserves | inv_ok; by apply conserves_refl | idtac ].
  eapply claim_packet_conserves; [ exact H | | done ]. simpl in Hp. b2p. done.
Qed.

Lemma operations_conserve ops e e' :
  evaluate_operations ops e = Ok e' -> forallb proper_claim ops = true -> wf (es_state e) -> conserves e e'.
Proof.
  unfold evaluate_operations. intros H Hp Hwf.
  assert (G : forall l e0, foldM (fun op e => e <- evaluate_operation op e ;; Ok (set_op_index (es_op_index e + 1) e)) l e0
      = Ok e' -> forallb proper_claim l = true -> conserves e e0 -> conserves e e').
  { induction l as [|op l IH]; intros e0 Hf Hl Hc; simpl in Hf; inv_ok; [ done | ].
    simpl in Hl. b2p. apply (IH _ Hf); [ done | ]. destruct Hc as [W A].
    match goal with H : evaluate_operation _ _ = Ok ?x |- _ => destruct (operation_step _ _ _ H) as [W' A']; [ done.. | ] end.
    split; [ done | ]. intros i. etrans; [ exact (A' i) | apply A ]. }
  apply (G ops _ H Hp). by split.
Qed.

(** ** After the operations *)

Lemma asset_total k r r' s :
  get_asset_record s k = Some r -> as_id r' = as_id r -> wf s ->
  wf (store_asset_record r' s)
  /\ forall a, total a (store_asset_record r' s) = total a s - held asset_t a r + held asset_t a r'.
Proof.
  intros Hr Hi Hwf. destruct (read_asset _ _ _ Hwf Hr) as [_ Hold].
  split; [ apply (step_asset r' s ∅ Hwf) | ]. intros i.
  rewrite <- (Hold i), <- Hi. exact (total_store asset_t (as_id r') r' i s _ eq_refl eq_refl).
Qed.

Lemma collected_fees_held a v r :
  held asset_t a (set_as_collected_fees (as_collected_fees r +! v) r) ≡64 held asset_t a r + on_asset a (as_id r) v.
Proof. simpl. unfold on_asset. destruct (as_id r =? a); eqm_solve. Qed.

Lemma validate_fee_step item e e' :
  validate_fee item e = Ok e' -> wf (es_state e) ->
  wf (es_state e') /\ es_fees_paid e' = es_fees_paid e
  /\ forall a, total a (es_state e') ≡64 total a (es_state e) + on_asset a (fst item) (snd item).
Proof.
  destruct item as [id fee]. unfold validate_fee. intros H Hwf. inv_ok. simpl.
  destruct (Z.eqb_spec fee 0) as [->|Hne]; inv_ok.
  { split_and!; [ done.. | ]. intros a'. apply eqm_of_eq. unfold on_asset. destruct (id =? a'); simpl; lia. }
  match goal with H : get_asset_record _ _ = Some ?x |- _ => rename x into r; rename H into Hr end.
  destruct (asset_total _ _ (set_as_collected_fees (as_collected_fees r +! fee) r) _ Hr eq_refl Hwf) as [W A].
  destruct (read_asset _ _ _ Hwf Hr) as [Hid _].
  split_and!; [ exact W | done | ]. intros i. etrans; [ exact (eqm_of_eq _ _ (A i)) | ].
  rewrite collected_fees_held, Hid. apply eqm_of_eq. lia.
Qed.

Lemma validate_fees_step e e' :
  validate_fees e = Ok e' -> wf (es_state e) ->
  wf (es_state e') /\ es_fees_paid e' = es_fees_paid e
  /\ forall a, total a (es_state e') ≡64 accounted a (es_state e) (es_fees_paid e).
Proof.
  unfold validate_fees. intros H Hwf.
  assert (G : forall l e0, foldM validate_fee l e0 = Ok e' -> wf (es_state e0) ->
     wf (es_state e') /\ es_fees_paid e' = es_fees_paid e0
     /\ forall a, total a (es_state e') ≡64 total a (es_state e0) + fee_sum a l).
  { induction l as [|item l IH]; intros e0 Hf Hw; simpl in Hf; inv_ok.
    - split_and!; [ done.. | ]. intros a. apply eqm_of_eq. simpl. lia.
    - match goal with H : validate_fee _ _ = Ok _ |- _ => apply validate_fee_step in H as (W & F & A); [ | done ] end.
      apply IH in Hf as (W' & F' & A'); [ | done ]. split_and!; [ done | congruence | ].
      intros i. rewrite A', A. simpl. eqm_solve. }
  destruct (G _ _ H Hwf) as (W & F & A). split_and!; [ done.. | ]. intros a.
  rewrite A, fee_sum_items. unfold accounted. reflexivity.
Qed.

(** Storing an account with the pay balance it had. *)
Lemma account_total r r' s s' k :
  get_account_record s k = Some r -> store_account_record r' s = Ok s' -> wf s ->
  ac_id r' = ac_id r -> pay_balance_of r' = pay_balance_of r ->
  wf s' /\ forall a, total a s' = total a s.
Proof.
  intros Hr Hs Hwf Hi Hp. destruct (read_account _ _ _ Hwf Hr) as (_ & Hsome & Hold).
  rewrite <- Hi in Hsome, Hold. split; [ apply (step_account r' s s' ∅ Hs Hwf Hsome) | ]. intros i.
  apply (total_store_same account_t (ac_id r') r' i s s' Hs).
  etrans; [ | symmetry; apply Hold ]. simpl. by rewrite Hp.
Qed.

Lemma delegate_votes_total e e' :
  update_delegate_votes e = Ok e' -> wf (es_state e) ->
  wf (es_state e') /\ forall a, total a (es_state e') = total a (es_state e).
Proof.
  unfold update_delegate_votes. generalize (map_items (es_vote_deltas e)). intros l. revert e.
  induction l as [|[id v] l IH]; intros e H Hwf; simpl in H; inv_ok; [ done | ].
  match goal with H : get_account_record _ _ = Some ?x |- _ => rename x into r; rename H into Hr end.
  match goal with H : adjust_votes_for _ _ = Ok ?x |- _ => rename x into r'; rename H into Hv end.
  match goal with H : store_account_record _ _ = Ok ?x |- _ => rename x into s'; rename H into Hs end.
  assert (Hk : ac_id r' = ac_id r /\ pay_balance_of r' = pay_balance_of r).
  { unfold adjust_votes_for, pay_balance_of in *. destruct (ac_delegate_info r) eqn:Ed; inv_ok; simpl; try done. }
  destruct Hk as [Hi Hp]. destruct (account_total _ _ _ _ _ Hr Hs Hwf Hi Hp) as [W A].
  match goal with Hf : foldM _ l _ = Ok _ |- _ => apply IH in Hf as [W' A']; [ | done ] end.
  split; [ done | ]. intros a'. rewrite A'. apply A.
Qed.

Lemma rp_values_total e e' :
  update_rp_values e = Ok e' -> wf (es_state e) ->
  wf (es_state e') /\ forall a, total a (es_state e') = total a (es_state e).
Proof.
  unfold update_rp_values. intros H Hwf. destruct (es_rp_account e) as [id|]; inv_ok; [ | done ].
  match goal with H : get_account_record _ _ = Some _ |- _ => rename H into Hr end.
  by eapply account_total.
Qed.

Lemma base_fees_frame e e' : calculate_base_equivalent_fees e = Ok e' -> es_state e' = es_state e.
Proof. unfold calculate_base_equivalent_fees. intros H. by inv_ok. Qed.

Lemma settle_total e e' :
  settle e = Ok e' -> wf (es_state e) ->
  wf (es_state e') /\ forall a, total a (es_state e') ≡64 accounted a (es_state e) (es_fees_paid e).
Proof.
  unfold settle. intros H Hwf. inv_ok.
  match goal with H : validate_fees _ = Ok _ |- _ => apply validate_fees_step in H as (W1 & _ & A1); [ | done ] end.
  match goal with H : calculate_base_equivalent_fees _ = Ok _ |- _ => apply base_fees_frame in H as E end.
  match goal with H : update_delegate_votes _ = Ok _ |- _ => apply delegate_votes_total in H as (W2 & A2); [ | by rewrite E ] end.
  apply rp_values_total in H as (W3 & A3); [ | done ].
  split; [ done | ]. intros i. by rewrite A3, A2, E.
Qed.

Lemma store_transaction_total id r s : wf s -> wf (store_transaction id r s) /\ forall a, total a (store_transaction id r s) = total a s.
Proof.
  intros Hwf. destruct (step_plain transaction_t id r s (store_transaction id r s) ∅) as [W _]; [ done.. | ].
  split; [ done | ]. intros a. apply (total_store_same transaction_t id r a s _ eq_refl).
  generalize (flat transaction_t s !! (id : key_of transaction_t)). by intros [|].
Qed.

Lemma recover_signatures_frame trx e e' :
  recover_signatures trx e = Ok e' -> es_state e' = es_state e /\ es_fees_paid e' = es_fees_paid e.
Proof. unfold recover_signatures. intros H. destruct (es_skip_signature_check e); by inv_ok. Qed.

Lemma evaluate_total trx e e' :
  evaluate trx e = Ok e' -> proper_claims trx = true -> wf (es_state e) ->
  wf (es_state e') /\ forall a, total a (es_state e') ≡64 accounted a (es_state e) (es_fees_paid e).
Proof.
  unfold evaluate. intros H Hp Hwf. inv_ok.
  match goal with H : recover_signatures _ _ = Ok _ |- _ => apply recover_signatures_frame in H as [E1 E2] end.
  simpl in E1, E2.
  match goal with H : evaluate_operations _ _ = Ok _ |- _ => apply operations_conserve in H as [W A]; [ | done | by rewrite E1 ] end.
  match goal with H : settle _ = Ok _ |- _ => apply settle_total in H as [W' A']; [ | done ] end.
  cbn [es_state set_state]. match goal with |- wf (store_transaction ?id ?r _) /\ _ => destruct (store_transaction_total id r _ W') as [W3 A3] end.
  split; [ done | ]. intros i. by rewrite A3, A', A, E1, E2.
Qed.

Lemma apply_transaction_total skip n i trx s s' :
  apply_transaction skip n i trx s = Ok s' -> proper_claims trx = true -> wf s ->
  wf s' /\ forall a, total a s' ≡64 total a s.
Proof.
  unfold apply_transaction. intros H Hp Hwf. inv_ok.
  match goal with H : evaluate _ _ = Ok _ |- _ => apply evaluate_total in H as [W A]; [ | done | done ] end.
  match goal with |- wf (store_transaction ?id ?r _) /\ _ => destruct (store_transaction_total id r _ W) as [W3 A3] end.
  split; [ done | ]. intros k. rewrite A3, A. apply eqm_of_eq, accounted_no_fees.
Qed.

Lemma apply_transactions_total skip n i trxs s s' :
  apply_transactions skip n i trxs s = Ok s' -> forallb proper_claims trxs = true -> wf s ->
  wf s' /\ forall a, total a s' ≡64 total a s.
Proof.
  revert i s. induction trxs as [|trx trxs IH]; intros i s H Hp Hwf; simpl in H; inv_ok; [ done | ].
  simpl in Hp. b2p.
  match goal with H : apply_transaction _ _ _ _ _ = Ok _ |- _ => apply apply_transaction_total in H as [W A]; [ | done | done ] end.
  apply IH in H as [W' A']; [ | done | done ]. split; [ done | ]. intros k. by rewrite A'.
Qed.

(** The transactions of a block conserve every asset: what the records
    hold and what the asset records owe as supply change by the same amount
    modulo 2^64, so the balance is the same when it is in the range of
    [share_type]; the claims must not name the account -1. *)
Theorem block_conserves_supply skip n i trxs s s'
    (H : apply_transactions skip n i trxs s = Ok s') (Hp : forallb proper_claims trxs = true) (Hwf : wf s) :
  wf s' /\ (forall a, total a s' ≡64 total a s)
  /\ forall a, in_int64 (total a s) -> in_int64 (total a s') -> total a s' = total a s.
Proof.
  apply apply_transactions_total in H as [W A]; [ | done | done ]. split_and!; [ done | done | ].
  intros a Ha Ha'. by apply eqm_eq.
Qed.

(** A claim on behalf of the account -1 mints: it pays the next share
    out, the share stays unclaimed, so the balance of the asset grows by it
    and the same claim can be made again. *)
Theorem claim_to_minus_one_mints o e e' pk
    (H : evaluate_claim_packet o e = Ok e') (Hwf : wf (es_state e)) (Ho : cp_to_account_id o = -1)
    (Hp : get_packet_record (es_state e) (cp_random_id o) = Some pk) (He : is_unclaimed_empty pk = false) :
  exists share pk', pk_claim_statuses pk !! next_available_claim_index pk = Some share
    /\ (forall a, accounted a (es_state e') (es_fees_paid e')
          ≡64 accounted a (es_state e) (es_fees_paid e) + on_asset a (asset_id (rs_amount share)) (amount (rs_amount share)))
    /\ get_packet_record (es_state e') (cp_random_id o) = Some pk'
    /\ pk_claim_statuses pk' !! next_available_claim_index pk' = Some (claim_status (-1) (es_trx_id e) share)
    /\ next_available_claim_index pk' = next_available_claim_index pk.
Proof.
  destruct (claim_packet_spec o e e' pk H Hwf Hp He) as (st & Hst & Hun & W & A & G).
  rewrite Ho in A, G. destruct (read_packet _ _ _ Hwf Hp) as [Hid _]. rewrite Hid in G.
  set (st' := claim_status _ _ st) in *.
  assert (Hn : forall l n m, next_claim_index l n = m -> l !! (m - n)%nat = Some st ->
    next_claim_index (<[(m - n)%nat := st']> l) n = m).
  { clear -Hun. induction l as [|x l IH]; intros n m; simpl; [ done | ]. destruct (unclaimed x) eqn:Ex.
    - intros <-. rewrite Nat.sub_diag. done.
    - intros Hm. assert (Datatypes.S n <= m)%nat by (rewrite <- Hm; apply next_claim_index_ge).
      replace (m - n)%nat with (Datatypes.S (m - Datatypes.S n)) by lia. simpl. rewrite Ex. by apply IH. }
  specialize (Hn (pk_claim_statuses pk) 0%nat _ eq_refl). rewrite Nat.sub_0_r in Hn. specialize (Hn Hst).
  exists st, (set_pk_claim_statuses (<[next_available_claim_index pk := st']> (pk_claim_statuses pk)) pk).
  split_and!; [ exact Hst | exact A | | | exact Hn ].
  - unfold get_packet_record, packet_record_lookup. rewrite flat_lookup. exact G.
  - unfold next_available_claim_index. simpl pk_claim_statuses. rewrite Hn.
    apply list_lookup_insert_eq. by eapply lookup_lt_Some.
Qed.
End conservation.

(** ** A concrete block *)

#[local] Existing Instance demo_crypto.
#[local] Existing Instance demo_tx.
#[local] Existing Instance demo_statics.

#[export] Instance demo_collision_free : CollisionFree.
Proof.
  split. intros c c' H. injection H as H. apply (inj encode) in H. congruence.
Qed.

(** Well-formedness as a test. *)
Definition wf_check {S : Type} `{CI : chain_interface S} `{!chain_spec S} (s : S) : bool :=
  bool_decide (map_Forall (fun (k : Z) r => balance_id r = k) (flat balance_t s : gmap Z balance_record))
  && bool_decide (map_Forall (fun (k : Z) r => ac_id r = k) (flat account_t s : gmap Z account_record))
  && bool_decide (map_Forall (fun (k : Z) r => as_id r = k) (flat asset_t s : gmap Z asset_record))
  && bool_decide (map_Forall (fun (k : Z) r => pk_id r = k) (flat packet_t s : gmap Z packet_record))
  && bool_decide (map_Forall (fun (k : Z) r => rw_id r = k) (flat operation_reward_t s : gmap Z operation_reward_record))
  && match last_account_id s with
     | Ok n => bool_decide (map_Forall (fun (k : Z) (_ : account_record) => k <= n) (flat account_t s : gmap Z account_record))
     | Throw _ => true
     end.

Lemma wf_check_wf {S : Type} `{CI : chain_interface S} `{!chain_spec S} (s : S) : wf_check s = true -> wf s.
Proof.
  unfold wf_check. intros H. b2p. split.
  - intros t. destruct t; try done; assumption.
  - intros n id r Hn Hr. match goal with H : match last_account_id s with _ => _ end = true |- _ => rewrite Hn in H; b2p;
      exact (H id r Hr) end.
Qed.

(** A withdrawal that pays a deposit, a red packet and the fees; then a claim
    of the packet. *)
Definition demo_payment : signed_transaction := {|
  tx_expiration := 110000;
  tx_operations := [
    op_withdraw {| wd_balance_id := balance_id alice_balance; wd_amount := 800000 |};
    op_deposit {| dp_amount := 100000; dp_condition := signature_condition 44 0 0 |};
    op_red_packet {| rp_random_id := 12345; rp_amount := mk_asset 500000 0; rp_from_account_id := 2;
                     rp_message := "hello"; rp_claim_public_key := 31; rp_count := 3; rp_claim_condition := None |} ];
  tx_signatures := [12; 21] |}.
Definition demo_claim (account : Z) : signed_transaction := {|
  tx_expiration := 110001;
  tx_operations := [ op_claim_packet {| cp_random_id := 12345; cp_to_account_id := account |} ];
  tx_signatures := [11; 31] |}.

Definition demo_block : list signed_transaction := [ demo_payment; demo_claim 1 ].

Definition demo_after_block : pending_chain_state chain_database :=
  ok_or demo_pending (apply_transactions false 501 0 demo_block (pending_empty demo_db)).
Lemma block_conserves_supply_witness :
  apply_transactions false 501 0 demo_block (pending_empty demo_db) = Ok demo_after_block
  /\ total 0 demo_after_block = total 0 (pending_empty demo_db).
Proof.
  assert (E : apply_transactions false 501 0 demo_block (pending_empty demo_db) = Ok demo_after_block)
    by (apply ok_or_is_ok; vm_compute; reflexivity).
  split; [ exact E | ]. apply (block_conserves_supply false 501 0 demo_block _ _ E);
    [ vm_compute; reflexivity | apply wf_check_wf; vm_compute; reflexivity | .. ]; vm_compute; split; discriminate.
Defined.

(** After the payment the claims by account 1, under the id -1, repeat. *)
Definition demo_after_payment : pending_chain_state chain_database :=
  ok_or demo_pending (apply_transactions false 501 0 [demo_payment] (pending_empty demo_db)).
Definition demo_claimant : eval_state (pending_chain_state chain_database) :=
  set_signed {[ key_address 11; key_address 31 ]} (eval_start demo_after_payment).
Definition demo_mint : claim_packet_operation := {| cp_random_id := 12345; cp_to_account_id := -1 |}.
Definition demo_minted : eval_state (pending_chain_state chain_database) :=
  ok_or demo_claimant (evaluate_claim_packet demo_mint demo_claimant).
Definition demo_packet : packet_record :=
  default (mk_packet 0 (mk_asset 0 0) 0 0 "" [] None) (get_packet_record demo_after_payment 12345).

Lemma claim_to_minus_one_mints_witness :
  exists share pk', pk_claim_statuses demo_packet !! next_available_claim_index demo_packet = Some share
    /\ (forall a, accounted a (es_state demo_minted) (es_fees_paid demo_minted)
          ≡64 accounted a (es_state demo_claimant) (es_fees_paid demo_claimant)
              + on_asset a (asset_id (rs_amount share)) (amount (rs_amount share)))
    /\ get_packet_record (es_state demo_minted) 12345 = Some pk'
    /\ pk_claim_statuses pk' !! next_available_claim_index pk' = Some (claim_status (-1) (es_trx_id demo_claimant) share)
    /\ next_available_claim_index pk' = next_available_claim_index demo_packet.
Proof.
  apply (claim_to_minus_one_mints demo_mint demo_claimant demo_minted demo_packet);
    [ apply ok_or_is_ok; vm_compute; reflexivity | apply wf_check_wf; vm_compute; reflexivity
    | reflexivity | vm_compute; reflexivity | vm_compute; reflexivity ].
Defined.
