(* ===== verification/BlockProps.v ===== *)
(** Properties of the steps of a block: pay and rewards move amounts without
    creating any, the shuffle is a permutation, every active delegate has one
    slot in a round, and what an accepted header guarantees. *)

From stdpp Require Import sorting.
From S2P Require Import Prelude Asset Names Combinatorics Records ChainInterface EvalState BalanceOps Tables.
From S2P Require Import PendingState ChainDatabase BlockOps Concrete Undo Supply Conservation.

(** ** The shuffle *)

Lemma swap_at_perm i j l : swap_at i j l ≡ₚ l.
Proof.
  unfold swap_at. destruct (l !! i) as [a|] eqn:Ei; [ | done ]. destruct (l !! j) as [b|] eqn:Ej; [ | done ].
  destruct (decide (i = j)) as [->|Hne].
  - simplify_eq. by rewrite list_insert_insert_eq, list_insert_id.
  - apply Permutation_inj. split; [ by rewrite !length_insert | ].
    exists (fun k => if decide (k = i) then j else if decide (k = j) then i else k). split.
    + intros x y. repeat case_decide; congruence.
    + intros k. pose proof (lookup_lt_Some _ _ _ Ei). pose proof (lookup_lt_Some _ _ _ Ej).
      destruct (decide (k = i)) as [->|Hi]; [ | destruct (decide (k = j)) as [->|Hj] ].
      * rewrite list_lookup_insert_eq by (by rewrite length_insert). done.
      * rewrite list_lookup_insert_ne, list_lookup_insert_eq by done. done.
      * by rewrite !list_lookup_insert_ne by done.
Qed.

Lemma shuffle_from_perm `{BlockCrypto} n i x seed l : shuffle_from n i x seed l ≡ₚ l.
Proof.
  revert i x seed l. induction n as [|n IH]; intros i x seed l; simpl; [ done | ].
  by rewrite IH, swap_at_perm.
Qed.

(** The swaps stay inside the list: [j] is from [i] to the end. *)
Lemma shuffle_index r (i n : nat) :
  (i < n)%nat -> 0 <= r ->
  let j := Z.to_nat (uwrap32 (r mod (Z.of_nat n - Z.of_nat i)) + Z.of_nat i) in
  Z.of_nat n < two32 -> (i <= j < n)%nat.
Proof.
  intros Hi Hr j Hn. pose proof (Z.mod_pos_bound r (Z.of_nat n - Z.of_nat i) ltac:(lia)) as Hm.
  unfold j, uwrap32. rewrite Z.mod_small by lia. lia.
Qed.

Section rounds.
Context `{FcI : Fc} `{Cr : Crypto} `{Tx : TxCrypto} `{St : Statics} `{BC : BlockCrypto}.
Implicit Types (db : chain_database) (p : pending_chain_state chain_database).

(** at the end of a round the active delegates become a permutation of
    the first 101 delegates of the ranking by votes; on other blocks they
    stay. *)
Theorem new_round_is_permutation db n p :
  if n mod NUM_DELEGATES =? 0
  then exists l, get_active_delegates (update_active_delegate_list db n p) = Ok l
         /\ l ≡ₚ take 101 ((in_rank_order (db_delegate_votes db)).*2)
  else update_active_delegate_list db n p = p.
Proof.
  unfold update_active_delegate_list. destruct (n mod NUM_DELEGATES =? 0); simpl; [ | done ].
  eexists. split.
  - unfold get_active_delegates, set_active_delegates, get_property_record, property_record_lookup.
    rewrite flat_lookup. unfold store_property_record.
    destruct (store_flat property_t active_delegate_list_property
      (property_ids (shuffle (get_current_random_seed p) (next_round_active_delegates db))) p _ eq_refl eq_refl) as [E _].
    simpl in E. rewrite E, lookup_insert_eq. reflexivity.
  - unfold shuffle. rewrite shuffle_from_perm. done.
Qed.

(** ** Slots *)

(** The delegate of the slot that starts at [t]. *)
Definition slot_delegate (active : list account_id) (t : time) : option account_id :=
  active !! Z.to_nat (get_slot_number t mod NUM_DELEGATES).

Definition mine (active ids : list account_id) (t : time) : Prop :=
  exists id, slot_delegate active t = Some id /\ id ∈ ids.

Lemma slot_delegate_some active t : (101 <= length active)%nat -> is_Some (slot_delegate active t).
Proof.
  intros H. unfold slot_delegate. apply lookup_lt_is_Some.
  pose proof (Z.mod_pos_bound (get_slot_number t) NUM_DELEGATES ltac:(done)). unfold NUM_DELEGATES in *. lia.
Qed.

Lemma existsb_elem (id : Z) ids : existsb (Z.eqb id) ids = true <-> id ∈ ids.
Proof.
  rewrite existsb_exists. split.
  - intros (x & Hx & E). apply Z.eqb_eq in E as ->. by apply list_elem_of_In.
  - intros H. exists id. split; [ by apply list_elem_of_In | apply Z.eqb_refl ].
Qed.

Lemma producible_from_spec n t active ids :
  (101 <= length active)%nat -> 0 <= t -> t + 10 * Z.of_nat n < two32 ->
  exists r, producible_from n t active ids = Ok r
    /\ match r with
       | Some t' => exists i, (i < n)%nat /\ t' = t + 10 * Z.of_nat i /\ mine active ids t'
                    /\ forall j, (j < i)%nat -> ~ mine active ids (t + 10 * Z.of_nat j)
       | None => forall j, (j < n)%nat -> ~ mine active ids (t + 10 * Z.of_nat j)
       end.
Proof.
  intros Hl. revert t. induction n as [|n IH]; intros t Ht Hn.
  { exists None. split; [ done | ]. intros j Hj. lia. }
  destruct (slot_delegate_some active t Hl) as [id Hid]. cbn [producible_from].
  unfold slot_delegate in Hid. rewrite Hid. cbn [rbind from_option_or].
  destruct (existsb (Z.eqb id) ids) eqn:E.
  - apply existsb_elem in E. exists (Some t). split; [ done | ]. exists 0%nat. split_and!; [ lia | lia | | lia ].
    exists id. by split.
  - assert (Hnot : ~ mine active ids (t + 10 * Z.of_nat 0)).
    { rewrite Z.add_0_r. intros (id' & Hid' & Hin). unfold slot_delegate in Hid'. rewrite Hid in Hid'. simplify_eq.
      apply existsb_elem in Hin. congruence. }
    unfold uwrap32. rewrite Z.mod_small by (unfold BLOCK_INTERVAL_SEC, two32 in *; lia).
    destruct (IH (t + BLOCK_INTERVAL_SEC)) as (r & -> & Hr); [ unfold BLOCK_INTERVAL_SEC; lia.. | ].
    exists r. split; [ done | ].
    assert (Hs : forall j : nat, t + BLOCK_INTERVAL_SEC + 10 * Z.of_nat j = t + 10 * Z.of_nat (S j))
      by (intros j; unfold BLOCK_INTERVAL_SEC; lia).
    destruct r as [t'|].
    + destruct Hr as (i & Hi & -> & Hm & Hb). exists (S i). split_and!; [ lia | apply Hs | done | ].
      intros [|j] Hj; [ done | ]. rewrite <- Hs. apply Hb. lia.
    + intros [|j] Hj; [ done | ]. rewrite <- Hs. apply Hr. lia.
Qed.

Definition first_candidate db : time :=
  let t := slot_start_of (db_clock db) in if t <=? db_now db then uwrap32 (t + BLOCK_INTERVAL_SEC) else t.

Lemma first_candidate_range db :
  0 <= db_clock db -> db_clock db + 1020 < two32 ->
  0 <= first_candidate db <= db_clock db + 10 /\ first_candidate db mod 10 = 0.
Proof.
  intros H0 H1. unfold first_candidate, slot_start_of, get_slot_start_time, get_slot_number, uwrap32, BLOCK_INTERVAL_SEC.
  pose proof (Z.mul_div_le (db_clock db) 10 ltac:(lia)). pose proof (Z.div_pos (db_clock db) 10 H0 ltac:(lia)).
  rewrite (Z.mod_small (db_clock db / 10 * 10)) by (unfold two32 in *; lia).
  destruct (_ <=? _); [ rewrite (Z.mod_small (_ + 10)) by (unfold two32 in *; lia) | ]; (split; [ lia | ]).
  - replace (db_clock db / 10 * 10 + 10) with ((db_clock db / 10 + 1) * 10) by lia. apply Z_mod_mult.
  - apply Z_mod_mult.
Qed.

(** The slots of one round reach every position. *)
Lemma round_covers t k : 0 <= k < 101 -> exists j, (j < 101)%nat /\ get_slot_number (t + 10 * Z.of_nat j) mod 101 = k.
Proof.
  intros Hk. exists (Z.to_nat ((k - get_slot_number t) mod 101)).
  pose proof (Z.mod_pos_bound (k - get_slot_number t) 101 ltac:(lia)). split; [ lia | ].
  rewrite Z2Nat.id by lia. unfold get_slot_number, BLOCK_INTERVAL_SEC.
  replace (t + 10 * ((k - t / 10) mod 101)) with (t + (k - t / 10) mod 101 * 10) by lia.
  rewrite Z.div_add by lia. rewrite Zplus_mod_idemp_r. replace (t / 10 + (k - t / 10)) with k by lia.
  by apply Z.mod_small.
Qed.

(** With a full list of active delegates the next producible time is
    found: it is the first slot of the coming round whose delegate is one of
    those asked for; and none is found only if none of them is active. *)
Theorem next_producible_found db ids active
    (Ha : get_active_delegates db = Ok active) (Hl : length active = 101%nat)
    (H0 : 0 <= db_clock db) (H1 : db_clock db + 1020 < two32) :
  exists r, get_next_producible_block_timestamp db ids = Ok r
    /\ match r with
       | Some t => mine active ids t /\ t mod 10 = 0 /\ first_candidate db <= t < first_candidate db + 1010
           /\ forall t', first_candidate db <= t' < t -> t' mod 10 = 0 -> ~ mine active ids t'
       | None => forall id, id ∈ ids -> id ∉ active
       end.
Proof.
  destruct (first_candidate_range db H0 H1) as [Hr Hm].
  destruct (producible_from_spec 101 (first_candidate db) active ids) as (r & E & Hs); [ lia | lia | lia | ].
  exists r. split.
  { unfold get_next_producible_block_timestamp. rewrite Ha. exact E. }
  destruct r as [t|].
  - destruct Hs as (i & Hi & -> & Hmine & Hb). split_and!; [ done | | lia | lia | ].
    + rewrite <- Zplus_mod_idemp_l, Hm, Z.mul_comm, Z.add_0_l. apply Z_mod_mult.
    + intros t' Ht' Hm'. pose proof (Z.div_mod t' 10 ltac:(lia)). pose proof (Z.div_mod (first_candidate db) 10 ltac:(lia)).
      specialize (Hb (Z.to_nat (t' / 10 - first_candidate db / 10)) ltac:(lia)).
      replace (first_candidate db + 10 * Z.of_nat (Z.to_nat (t' / 10 - first_candidate db / 10))) with t' in Hb by lia.
      done.
  - intros id Hid Hin. apply list_elem_of_lookup in Hin as [k Hk].
    pose proof (lookup_lt_Some _ _ _ Hk) as Hlt.
    destruct (round_covers (first_candidate db) (Z.of_nat k) ltac:(lia)) as (j & Hj & Ej).
    apply (Hs j Hj). exists id. split; [ | done ]. unfold slot_delegate, NUM_DELEGATES. by rewrite Ej, Nat2Z.id.
Qed.
End rounds.

(** ** Headers *)

Lemma unique_from_spec seen ids :
  unique_from seen ids = true <-> NoDup ids /\ forall id, id ∈ ids -> id ∉ seen.
Proof.
  revert seen. induction ids as [|id ids IH]; intros seen; simpl.
  - split; [ | done ]. intros _. split; [ constructor | ]. intros id H. by apply elem_of_nil in H.
  - case_bool_decide as Hin.
    + split; [ done | ]. intros [_ H]. exfalso. by apply (H id); [ left | ].
    + rewrite IH, NoDup_cons. split.
      * intros [Hn Hs]. split_and!; [ | done | ].
        { intros Hid. apply (Hs id Hid). set_solver. }
        intros id' [->|Hid']%elem_of_cons; [ done | ]. specialize (Hs id' Hid'). set_solver.
      * intros [[Hid Hn] Hs]. split; [ done | ]. intros id' Hid'. assert (id' ∉ seen) by (apply Hs; by right).
        intros [->%elem_of_singleton|]%elem_of_union; done.
Qed.

Section headers.
Context `{FcI : Fc} `{Cr : Crypto} `{Tx : TxCrypto} `{St : Statics} `{BC : BlockCrypto}.
Implicit Types (db : chain_database) (p : pending_chain_state chain_database).

Lemma verify_header_iff db head b signee :
  verify_header db head b signee = Ok tt <->
    (1 < bh_block_num (fb_header b) -> bh_block_num (fb_header b) = uwrap32 (db_head_num db + 1)
                                       /\ db_head_timestamp db < bh_timestamp (fb_header b))
    /\ bh_previous (fb_header b) = head
    /\ bh_timestamp (fb_header b) mod 10 = 0
    /\ bh_timestamp (fb_header b) <= uwrap32 (db_clock db + 20)
    /\ transactions_digest (map trx_id (fb_user_transactions b)) = bh_transaction_digest (fb_header b)
    /\ NoDup (map trx_id (fb_user_transactions b))
    /\ exists active id r, get_active_delegates db = Ok active
         /\ slot_delegate active (bh_timestamp (fb_header b)) = Some id
         /\ get_account_record db id = Some r /\ is_delegate r = true /\ signing_key r = Ok signee.
Proof.
  unfold verify_header, get_slot_signee, slot_delegate. split.
  - intros H. inv_ok. b2p. unfold validate_unique in *.
    match goal with H : unique_from _ _ = true |- _ => apply unique_from_spec in H as [Hn _] end.
    split_and!; try done.
    + intros Hn1. rewrite (proj2 (Z.ltb_lt _ _) Hn1) in *. simpl in *. b2p. split; [ done | lia ].
    + subst signee. eauto 10.
  - intros (Hseq & Hprev & Hslot & Hfut & Hdig & Huniq & active & id & r & Ha & Hd & Hr & Hdel & Hk).
    assert (E : (1 <? bh_block_num (fb_header b)) && negb (bh_block_num (fb_header b) =? uwrap32 (db_head_num db + 1)) = false
             /\ (1 <? bh_block_num (fb_header b)) && (bh_timestamp (fb_header b) <=? db_head_timestamp db) = false).
    { destruct (Z.ltb_spec 1 (bh_block_num (fb_header b))) as [Hlt|]; [ | done ].
      destruct (Hseq Hlt) as [-> Hts]. rewrite Z.eqb_refl. split; [ done | ]. simpl. by apply Z.leb_gt. }
    destruct E as [-> ->]. rewrite Hprev, Z.eqb_refl. cbn [negb throw_if rbind].
    unfold BLOCK_INTERVAL_SEC in *. rewrite Hslot, Z.eqb_refl. cbn [negb throw_if rbind].
    change (10 * 2) with 20. rewrite (proj2 (Z.ltb_ge _ _) Hfut). cbn [throw_if rbind]. rewrite Hdig, Z.eqb_refl. cbn [throw_unless rbind].
    unfold validate_unique. rewrite (proj2 (unique_from_spec ∅ _)) by (split; [ done | set_solver ]). cbn [rbind from_option_or fc_assert].
    rewrite Ha. cbn [rbind from_option_or fc_assert]. rewrite Hd. cbn [rbind from_option_or fc_assert]. rewrite Hr. cbn [rbind from_option_or fc_assert]. rewrite Hdel. cbn [rbind from_option_or fc_assert]. rewrite Hk. cbn [rbind from_option_or fc_assert].
    by rewrite Z.eqb_refl.
Qed.

(** C37: a header is accepted exactly when it extends the head block in number
    (except the first block), hash and time, lies on a slot boundary at most
    two slots in the future, commits to its transactions, which are distinct,
    and is signed with the signing key of the delegate of its slot. *)
Theorem verify_header_spec db head b signee :
  verify_header db head b signee = Ok tt <->
    (1 < bh_block_num (fb_header b) -> bh_block_num (fb_header b) = uwrap32 (db_head_num db + 1)
                                       /\ db_head_timestamp db < bh_timestamp (fb_header b))
    /\ bh_previous (fb_header b) = head
    /\ bh_timestamp (fb_header b) mod 10 = 0
    /\ bh_timestamp (fb_header b) <= uwrap32 (db_clock db + 20)
    /\ transactions_digest (map trx_id (fb_user_transactions b)) = bh_transaction_digest (fb_header b)
    /\ NoDup (map trx_id (fb_user_transactions b))
    /\ exists active id r, get_active_delegates db = Ok active
         /\ slot_delegate active (bh_timestamp (fb_header b)) = Some id
         /\ get_account_record db id = Some r /\ is_delegate r = true /\ signing_key r = Ok signee.
Proof. apply verify_header_iff. Qed.
End headers.

(** ** Pay *)

Section pay.
Context `{FcI : Fc} `{Cr : Crypto} `{CF : !CollisionFree} `{Tx : TxCrypto} `{St : Statics} `{BC : BlockCrypto}.
Implicit Types (db : chain_database) (p : pending_chain_state chain_database).

Lemma div64_bounds a b : 0 <= a -> 0 < b -> 0 <= div64 a b <= a.
Proof.
  intros Ha Hb. unfold div64. split; [ by apply Z.quot_pos; lia | ]. apply Z.quot_le_upper_bound; nia.
Qed.

(** for a pay rate up to 100 and amounts that do not overflow, a delegate
    is issued at most the pay of a block, and the share of the fees of the
    block (one part in 120960 of the collected fees) is split into what the
    delegate gets at its rate and what is destroyed, with nothing lost. *)
Theorem delegate_paycheck_bounds max_new fees rate pay
    (H : delegate_paycheck max_new fees rate = Ok pay) (Hr : 0 <= rate <= 100) (Hn : in_int64 (max_new * rate))
    (Hi : in_int64 fees) (Hf : in_int64 (fees * rate)) :
  0 <= issued_shares pay <= max_new
  /\ 0 <= collected_shares pay /\ 0 <= destroyed_shares pay
  /\ collected_shares pay + destroyed_shares pay = div64 fees (14 * BLOCKS_PER_DAY)
  /\ issued_shares pay = div64 (max_new * rate) 100
  /\ collected_shares pay = div64 (div64 fees (14 * BLOCKS_PER_DAY) * rate) 100.
Proof.
  unfold delegate_paycheck in H. inv_ok. b2p. simpl.
  set (m := div64 fees (14 * BLOCKS_PER_DAY)) in *.
  assert (Hm : 0 <= m <= Z.max 0 fees).
  { split; [ done | ]. destruct (Z_le_gt_dec 0 fees).
    - pose proof (div64_bounds fees (14 * BLOCKS_PER_DAY) ltac:(lia) ltac:(reflexivity)) as Hb. fold m in Hb. lia.
    - pose proof (Z.quot_opp_l fees (14 * BLOCKS_PER_DAY) ltac:(done)) as Ho.
      pose proof (Z.quot_pos (- fees) (14 * BLOCKS_PER_DAY) ltac:(lia) ltac:(done)). unfold m, div64. lia. }
  assert (Hmr : m *! rate = m * rate) by (apply mul64_id; unfold_width; nia).
  rewrite Hmr in *. rewrite mul64_id in * by done.
  assert (Hb : 0 <= div64 (m * rate) 100 <= m).
  { split; [ done | ]. unfold div64. apply Z.quot_le_upper_bound; [ lia | nia ]. }
  rewrite sub64_id by (unfold_width; nia).
  split_and!; try done; try lia.
  unfold div64. apply Z.quot_le_upper_bound; [ lia | nia ].
Qed.

(** Paying a delegate creates nothing beyond the shares it issues: the
    pay balance gains what the supply and the collected fees give up, so the
    balance of every asset is unchanged modulo 2^64. *)
Theorem pay_delegate_conserves db signee p p' pay
    (H : pay_delegate db signee p = Ok (p', pay)) (Hwf : wf p) :
  wf p' /\ (forall a, total a p' ≡64 total a p)
  /\ exists d r r', get_account_record_by_address db (key_address signee) = Ok (Some d)
      /\ get_account_record p (ac_id d) = Some r /\ get_account_record p' (ac_id d) = Some r'
      /\ pay_balance_of r' = pay_balance_of r +! (issued_shares pay +! collected_shares pay).
Proof.
  unfold pay_delegate in H. inv_ok. injection H as <- <-.
  match goal with H : get_asset_record p 0 = Some ?x |- _ => rename x into base; rename H into Hb end.
  match goal with H : get_account_record p _ = Some ?x |- _ => rename x into r; rename H into Hr end.
  match goal with H : ac_delegate_info r = Some ?x |- _ => rename x into d; rename H into Hd end.
  match goal with H : delegate_paycheck _ _ _ = Ok ?x |- _ => rename x into pay; rename H into Hp end.
  match goal with H : store_account_record ?x p = Ok ?y |- _ => rename y into p1; set (r' := x) in *; rename H into Hs end.
  destruct (read_account _ _ _ Hwf Hr) as (Hid & Hsome & Hold).
  destruct (step_account r' p p1 ∅ Hs Hwf Hsome) as [W1 _].
  assert (Hb1 : get_asset_record p1 0 = Some base).
  { unfold get_asset_record, asset_record_lookup in *. rewrite flat_lookup in *.
    by rewrite (flat_other account_t (ac_id r') r' p p1 asset_t Hs). }
  match goal with |- context [store_asset_record ?x p1] => set (base' := x) end.
  destruct (asset_total 0 base base' p1 Hb1 eq_refl W1) as [W2 A2].
  assert (Hid0 : as_id base = 0) by (destruct (read_asset p 0 base Hwf Hb) as [G _]; exact G).
  split_and!; [ exact W2 | | ].
  - intros i. etrans; [ apply eqm_of_eq, (A2 i) | ].
    rewrite (total_store account_t (ac_id r') r' i p p1 Hs eq_refl).
    replace (contrib _ _ _) with (held_at account_t i (ac_id r) p) by done. rewrite Hold.
    simpl held. unfold pay_balance_of. rewrite Hd. simpl ds_pay_balance. rewrite Hid0. unfold on_asset.
    unfold delegate_paycheck in Hp. inv_ok. destruct (0 =? i); simpl; eqm_solve.
  - match goal with H : ?o = Some _, H' : get_account_record_by_address _ _ = Ok ?o |- _ => subst o end.
    eexists _, r, r'. split_and!; [ eassumption | exact Hr | | ].
    + unfold get_account_record, account_record_lookup.
      destruct (store_flat account_t (ac_id r') r' p p1 Hs eq_refl) as [G _].
      pose proof (flat_other asset_t (as_id base') base' p1 (store_asset_record base' p1) account_t eq_refl ltac:(done)) as F.
      rewrite flat_lookup, F, G, <- Hid. by rewrite lookup_insert_eq.
    + unfold pay_balance_of. simpl. by rewrite Hd.
Qed.

(** *** Rewards *)

(** What a payment changes: the balances, by the amount. *)
Definition paid_out p0 (paid : Z) p : Prop :=
  wf p /\ flat operation_reward_t p = flat operation_reward_t p0
  /\ forall a, total a p ≡64 total a p0 + on_asset a 0 paid.

Lemma pay_income_spec owner a p :
  wf p ->
  wf (pay_income owner a p)
  /\ (forall i, total i (pay_income owner a p) ≡64 total i p + on_asset i (asset_id a) (amount a))
  /\ flat operation_reward_t (pay_income owner a p) = flat operation_reward_t p.
Proof.
  intros Hwf. destruct (pay_to_spec owner a (eval_start p) Hwf) as [W A]. split_and!.
  - exact W.
  - intros i. specialize (A i ∅). rewrite !accounted_no_fees in A. exact A.
  - unfold pay_income. match goal with |- flat _ (store_balance_record ?x _) = _ =>
      exact (flat_other balance_t (balance_id x) x p _ operation_reward_t eq_refl ltac:(done)) end.
Qed.

Definition log_sum (log : list reward_transaction) : Z :=
  foldr (fun t acc => amount (rt_reward t) + acc) 0 log.

Lemma log_sum_app l l' : log_sum (l ++ l') = log_sum l + log_sum l'.
Proof. induction l; simpl; lia. Qed.

(** The state of the reward loops: what was paid is what the log says. *)
Definition rewards_paid p0 (acc : Z * list reward_transaction * pending_chain_state chain_database) : Prop :=
  paid_out p0 acc.1.1 acc.2 /\ acc.1.1 ≡64 log_sum acc.1.2.

Lemma reward_note_spec p0 reward idx acc acc' :
  reward_note reward idx acc = Ok acc' -> rewards_paid p0 acc ->
  rewards_paid p0 acc' /\ log_sum acc'.1.2 = log_sum acc.1.2 + reward /\ length acc'.1.2 = S (length acc.1.2).
Proof.
  destruct acc as [[paid log] p]. unfold reward_note. intros H [(W & F & A) S]. simpl in W, F, A, S. inv_ok.
  match goal with |- context [pay_income ?o ?a p] => destruct (pay_income_spec o a p W) as (W' & A' & F') end.
  split_and!; [ split; [ split_and! | ] | .. ]; simpl.
  - exact W'.
  - exact (eq_trans F' F).
  - intros i. etrans; [ exact (A' i) | ]. rewrite A. simpl. unfold on_asset. destruct (0 =? i); eqm_solve.
  - rewrite log_sum_app, eqm_add64, S. apply eqm_of_eq. simpl. lia.
  - rewrite log_sum_app. simpl. lia.
  - rewrite length_app. simpl. lia.
Qed.

Lemma reward_notes_spec p0 reward l acc acc' :
  foldM (reward_note reward) l acc = Ok acc' -> rewards_paid p0 acc ->
  rewards_paid p0 acc' /\ log_sum acc'.1.2 = log_sum acc.1.2 + reward * Z.of_nat (length l)
  /\ length acc'.1.2 = (length acc.1.2 + length l)%nat.
Proof.
  revert acc. induction l as [|idx l IH]; intros acc H Hp; simpl in H; inv_ok.
  - split_and!; [ done | simpl; lia | simpl; lia ].
  - match goal with H : reward_note _ _ _ = Ok _ |- _ => apply (reward_note_spec p0) in H as (Hp1 & E1 & L1); [ | done ] end.
    apply IH in H as (Hp2 & E2 & L2); [ | done ]. split_and!; [ done | | simpl; lia ].
    rewrite E2, E1. simpl length. lia.
Qed.

Lemma length_omap_le {A B} (f : A -> option B) l : (length (omap f l) <= length l)%nat.
Proof. induction l as [|x l IH]; [ done | ]. csimpl. destruct (f x); csimpl; lia. Qed.

Lemma draw_notes_length k word l drawn rest :
  draw_notes k word l = Ok (drawn, rest) -> (length drawn <= k)%nat.
Proof.
  unfold draw_notes. destruct (Nat.leb_spec (length l) k) as [Hk|Hk]; intros H; inv_ok; simplify_eq; [ done | ].
  match goal with H : unranking _ _ _ = Ok _ |- _ => apply unranking_length in H end.
  by etrans; [ apply length_omap_le | ].
Qed.

Lemma reward_levels_spec collected seed notes p acc :
  reward_levels collected seed notes p = Ok acc -> wf p ->
  rewards_paid p acc /\ (length acc.1.2 <= 8)%nat
  /\ (0 <= collected -> in_int64 (collected * 40) -> 0 <= log_sum acc.1.2 <= collected).
Proof.
  unfold reward_levels. intros H Hwf. inv_ok.
  assert (H0 : rewards_paid p (0, [], p)).
  { split; [ split_and!; try done | done ]. intros i. simpl. unfold on_asset. destruct (0 =? i); eqm_solve. }
  match goal with H : match notes !! ?i with _ => _ end = Ok ?x |- _ => rename x into first; rename H into H1 end.
  assert (H1' : rewards_paid p first /\ (length first.1.2 <= 1)%nat
    /\ exists n, 0 <= n <= 1 /\ log_sum first.1.2 = div64 (collected *! 40) 100 * n).
  { destruct (notes !! _); inv_ok.
    - apply (reward_note_spec p) in H1 as (? & E & L); [ | done ]. split_and!; [ done | simpl in L; lia | ].
      exists 1. simpl in E. lia.
    - split_and!; [ done | simpl; lia | ]. exists 0. simpl. lia. }
  destruct H1' as (P1 & L1 & n1 & Hn1 & E1).
  match goal with H : draw_notes 2 _ _ = Ok ?x |- _ => destruct x as [l2 rest2]; apply draw_notes_length in H as D2 end.
  inv_ok.
  match goal with H : foldM _ l2 _ = Ok _ |- _ => apply (reward_notes_spec p) in H as (P2 & E2 & L2); [ | done ] end.
  match goal with H : draw_notes 5 _ _ = Ok ?x |- _ => destruct x as [l3 rest3]; apply draw_notes_length in H as D3 end.
  apply (reward_notes_spec p) in H as (P3 & E3 & L3); [ | done ].
  split_and!; [ done | lia | ]. intros Hc Hi. rewrite E3, E2, E1. unfold_width.
  rewrite !mul64_id by (unfold_width; lia). unfold div64. rewrite !Z.quot_div_nonneg by lia.
  pose proof (Z.mul_div_le (collected * 40) 100). pose proof (Z.mul_div_le (collected * 15) 100).
  pose proof (Z.mul_div_le (collected * 6) 100).
  pose proof (Z.div_pos (collected * 40) 100). pose proof (Z.div_pos (collected * 15) 100). pose proof (Z.div_pos (collected * 6) 100).
  nia.
Qed.

(** The rewards for notes conserve every asset: what is paid to the
    signers leaves the pool. At most eight are paid, and together no more
    than a fourteenth of the pool when that product does not overflow. *)
Theorem rewards_conserve db get_block n p p' log
    (H : pay_operation_rewards db get_block n p = Ok (p', log)) (Hwf : wf p) :
  wf p' /\ (forall a, total a p' ≡64 total a p) /\ (length log <= 8)%nat
  /\ forall r, get_operation_reward_record p note_op_type = Some r ->
       0 <= at_or_0 (rw_fees r) 0 -> in_int64 (at_or_0 (rw_fees r) 0 * BLOCKS_PER_DAY) ->
       0 <= log_sum log <= at_or_0 (rw_fees r) 0 / 14.
Proof.
  unfold pay_operation_rewards in H. destruct (get_operation_reward_record p note_op_type) as [r|] eqn:Er;
    [ | inv_ok; simplify_eq; split_and!; [ done | done | simpl; lia | done ] ].
  inv_ok. match goal with H : (if _ then _ else _) = Ok ?x |- _ => destruct x as [[paid log'] p1]; rename H into Hr end.
  inv_ok. injection H as <- <-. set (c := div64 _ (14 * BLOCKS_PER_DAY)) in *.
  assert (Hs : rewards_paid p (paid, log', p1) /\ (length log' <= 8)%nat
    /\ (0 <= c -> in_int64 (c * 40) -> 0 <= log_sum log' <= c)).
  { destruct (n mod BLOCKS_PER_DAY =? 0); inv_ok.
    - by apply reward_levels_spec in Hr.
    - simplify_eq. split_and!; [ split; [ split_and!; try done | done ] | simpl; lia | simpl; lia ].
      intros i. simpl. unfold on_asset. destruct (0 =? i); eqm_solve. }
  destruct Hs as (((W & F & A) & Sum) & L & B). simpl in W, F, A, Sum.
  match goal with |- context [store_operation_reward_record ?x p1] => set (r' := x) end.
  destruct (read_reward _ _ _ Hwf Er) as [Hid Hold].
  split_and!; [ apply (step_reward r' p1 ∅ W) | | done | ].
  - intros i. pose proof (total_store operation_reward_t (rw_id r') r' i p1 _ eq_refl eq_refl) as T.
    etrans; [ apply eqm_of_eq, T | ]. rewrite F.
    replace (contrib _ _ _) with (held_at operation_reward_t i (rw_id r) p) by done. rewrite Hold, A.
    simpl held. rewrite fees_subtracted. eqm_solve.
  - intros r0 [= <-] H0 Hi. unfold c, div64 in B. rewrite mul64_id in B by done.
    rewrite Z.quot_div_nonneg in B by (unfold BLOCKS_PER_DAY; lia).
    rewrite (Z.mul_comm 14), (Z.mul_comm (at_or_0 _ _)), Z.div_mul_cancel_l in B by done.
    unfold_width. unfold BLOCKS_PER_DAY in *. pose proof (Z.mul_div_le (at_or_0 (rw_fees r) 0) 14).
    pose proof (Z.div_pos (at_or_0 (rw_fees r) 0) 14). apply B; [ lia | nia ].
Qed.
End pay.

(** ** A concrete chain *)

#[local] Existing Instance demo_crypto.
#[local] Existing Instance demo_tx.
#[local] Existing Instance demo_statics.

(** Stand-ins for the hashes; a block is signed by the key that is its
    signature. *)
Definition demo_block_crypto : BlockCrypto.
Proof.
  refine {|
    block_id := fun h sig => bh_block_num h * 1000 + sig;
    block_signee := fun h sig => Ok sig;
    transactions_digest := fun ids => foldr Z.add 0 ids;
    secret_hash := fun s => s + 1;
    next_seed := fun s seed => s + 2 * seed;
    sha256_seed := fun s => s + 17;
    sha256_again := fun h => 3 * h + 1;
    sha256_word := fun h i => uwrap64 (h * (Z.of_nat i + 7));
    ripemd_word := fun h i => uwrap32 (h + Z.of_nat i) |}.
  - intros. apply uwrap64_range.
  - intros. apply uwrap32_range.
Defined.
#[local] Existing Instance demo_block_crypto.

Definition round_db : chain_database := set_active_delegates (seqZ 1 101) demo_db.

Lemma next_producible_found_witness :
  exists r, get_next_producible_block_timestamp round_db [7; 40] = Ok r
    /\ match r with
       | Some t => mine (seqZ 1 101) [7; 40] t /\ t mod 10 = 0
           /\ first_candidate round_db <= t < first_candidate round_db + 1010
           /\ forall t', first_candidate round_db <= t' < t -> t' mod 10 = 0 -> ~ mine (seqZ 1 101) [7; 40] t'
       | None => forall id, id ∈ [7; 40] -> id ∉ seqZ 1 101
       end.
Proof.
  apply (next_producible_found round_db [7; 40] (seqZ 1 101)); [ vm_compute; reflexivity | reflexivity | | ];
    vm_compute; [ discriminate | reflexivity ].
Defined.

Example next_producible_7 : get_next_producible_block_timestamp round_db [7; 40] = Ok (Some 100050).
Proof. vm_compute. reflexivity. Qed.

(** The slot that starts at 100020 is the fourth of its round; the first
    account, in that place, signs with key 13. *)
Definition demo_header : block_header := {|
  bh_previous := 500013; bh_block_num := 501; bh_timestamp := 100020;
  bh_transaction_digest := 0; bh_next_secret_hash := 5; bh_previous_secret := 4 |}.

Example header_accepted :
  verify_header (set_active_delegates [2; 2; 2; 1] demo_db) 500013
    {| fb_header := demo_header; fb_delegate_signature := 13; fb_user_transactions := [] |} 13 = Ok tt
  /\ verify_header (set_active_delegates [2; 2; 1; 1] demo_db) 500013
    {| fb_header := demo_header; fb_delegate_signature := 23; fb_user_transactions := [] |} 23
    = Throw invalid_delegate_signee.
Proof. vm_compute. done. Qed.

Lemma delegate_paycheck_bounds_witness :
  delegate_paycheck 5000000 800000000000 3 = Ok {| issued_shares := 150000; collected_shares := 198412; destroyed_shares := 6415344 |}
  /\ 198412 + 6415344 = div64 800000000000 (14 * BLOCKS_PER_DAY).
Proof.
  assert (E : delegate_paycheck 5000000 800000000000 3
    = Ok {| issued_shares := 150000; collected_shares := 198412; destroyed_shares := 6415344 |}) by (vm_compute; reflexivity).
  split; [ exact E | ].
  apply (delegate_paycheck_bounds 5000000 800000000000 3 _ E); unfold_width; lia.
Defined.

(** Collected fees that pay something; the first account signs with key 13. *)
Definition pay_db : chain_database := store_asset_record (set_as_collected_fees 800000000000 base_asset) demo_db.
Definition demo_paid : pending_chain_state chain_database * paycheck :=
  ok_or (pending_empty pay_db, {| issued_shares := 0; collected_shares := 0; destroyed_shares := 0 |})
    (pay_delegate pay_db 13 (pending_empty pay_db)).
Definition paid_state : pending_chain_state chain_database := fst demo_paid.
Definition paid_check : paycheck := snd demo_paid.

Lemma pay_delegate_conserves_witness :
  wf paid_state /\ (forall a, total a paid_state ≡64 total a (pending_empty pay_db))
  /\ issued_shares paid_check + collected_shares paid_check = 396824
  /\ exists d r r', get_account_record_by_address pay_db (key_address 13) = Ok (Some d)
      /\ get_account_record (pending_empty pay_db) (ac_id d) = Some r /\ get_account_record paid_state (ac_id d) = Some r'
      /\ pay_balance_of r' = pay_balance_of r +! (issued_shares paid_check +! collected_shares paid_check).
Proof.
  destruct (pay_delegate_conserves pay_db 13 (pending_empty pay_db) paid_state paid_check) as (W & A & D).
  - vm_compute. reflexivity.
  - apply wf_check_wf. vm_compute. reflexivity.
  - split_and!; [ exact W | exact A | vm_compute; reflexivity | exact D ].
Defined.

(** Two notes in block 7, paid at the end of the first day. *)
Definition demo_note (owner sig : Z) : note_operation := {|
  nt_amount := mk_asset 500000 0; nt_owner_account_id := owner;
  nt_message := Some {| nm_type := public_type; nm_data := "note" |}; nt_message_signature := Some sig |}.
Definition demo_note_trx : signed_transaction :=
  {| tx_expiration := 5; tx_operations := [ op_note (demo_note 1 12); op_note (demo_note 2 22) ]; tx_signatures := [] |}.
Definition demo_get_block (n : Z) : result (list signed_transaction) :=
  Ok (if n =? 7 then [ demo_note_trx ] else []).
Definition demo_note_record (owner sig : Z) : note_record := {|
  no_account_id := owner; no_transaction_id := trx_id demo_note_trx; no_amount := mk_asset 500000 0;
  no_signer := Some sig; no_message := Some {| nm_type := public_type; nm_data := "note" |} |}.
Definition reward_state : pending_chain_state chain_database :=
  let p := store_operation_reward_record {| rw_id := note_op_type; rw_fees := {[ 0 := 14000 ]} |} (pending_empty demo_db) in
  store_note_record (demo_note_record 2 22) (store_note_record (demo_note_record 1 12) p).
Definition demo_rewards : pending_chain_state chain_database * list reward_transaction :=
  ok_or (reward_state, []) (pay_operation_rewards demo_db demo_get_block 8640 reward_state).
Definition rewarded_state : pending_chain_state chain_database := fst demo_rewards.
Definition reward_log : list reward_transaction := snd demo_rewards.

Lemma rewards_conserve_witness :
  wf rewarded_state /\ (forall a, total a rewarded_state ≡64 total a reward_state) /\ log_sum reward_log = 550.
Proof.
  destruct (rewards_conserve demo_db demo_get_block 8640 reward_state rewarded_state reward_log) as (W & A & _).
  - vm_compute. reflexivity.
  - apply wf_check_wf. vm_compute. reflexivity.
  - split_and!; [ exact W | exact A | vm_compute; reflexivity ].
Defined.
