(* ===== verification/Frames.v ===== *)
(** Evaluation changes the state through [store] alone: a predicate that every
    store preserves is preserved by operations, transactions and blocks. It
    follows that a transaction is applied once only. *)

From S2P Require Import Prelude Asset Names Combinatorics Records ChainInterface EvalState BalanceOps.
From S2P Require Import AccountOps AssetOps MarketOps Transaction Tables.
From S2P Require Import PendingState ChainDatabase Concrete Undo Supply Conservation.

Create HintDb stable.

(** The tables an operation may store into. *)
Definition op_tables (op : operation) : list table :=
  match op with
  | op_withdraw _ => [balance_t; asset_t]
  | op_deposit _ | op_update_balance_vote _ => [balance_t]
  | op_register_account _ => [account_t; property_t]
  | op_update_account _ | op_withdraw_pay _ | op_update_signing_key _ => [account_t]
  | op_create_asset _ => [asset_t; property_t; game_t]
  | op_issue_asset _ | op_asset_update_properties _ | op_asset_update_permissions _
  | op_asset_update_whitelist _ => [asset_t]
  | op_define_slate _ => [slate_t]
  | op_burn _ => [asset_t; burn_t]
  | op_ad _ => [balance_t; ad_t]
  | op_note _ => [operation_reward_t; note_t]
  | op_red_packet _ => [packet_t]
  | op_claim_packet _ => [balance_t; packet_t]
  | op_buy_chips _ => [balance_t; asset_t]
  | op_bid _ | op_ask _ | op_update_feed _ | op_release_escrow _ | op_limit_fee _ | op_data _ => []
  end.

Section frames.
Context {S : Type} `{FcI : Fc} `{CI : chain_interface S} `{Cr : Crypto} `{Tx : TxCrypto} `{St : Statics}.
Implicit Types (e : eval_state S) (s : S).

(** Every store into a table of [T] preserves [P]. *)
Definition stable (T : table -> Prop) (P : S -> Prop) : Prop :=
  forall t k v s s', T t -> store t k v s = Ok s' -> P s -> P s'.

Variable T : table -> Prop.
Variable P : S -> Prop.
Hypothesis P_stable : stable T P.

Lemma stable_balance r s : T balance_t -> P s -> P (store_balance_record r s).
Proof. intros Ht. exact (P_stable balance_t (balance_id r) r s _ Ht eq_refl). Qed.
Lemma stable_asset r s : T asset_t -> P s -> P (store_asset_record r s).
Proof. intros Ht. exact (P_stable asset_t (as_id r) r s _ Ht eq_refl). Qed.
Lemma stable_packet r s : T packet_t -> P s -> P (store_packet_record r s).
Proof. intros Ht. exact (P_stable packet_t (pk_id r) r s _ Ht eq_refl). Qed.
Lemma stable_reward r s : T operation_reward_t -> P s -> P (store_operation_reward_record r s).
Proof. intros Ht. exact (P_stable operation_reward_t (rw_id r) r s _ Ht eq_refl). Qed.
Lemma stable_burn r s : T burn_t -> P s -> P (store_burn_record r s).
Proof. intros Ht. exact (P_stable burn_t _ r s _ Ht eq_refl). Qed.
Lemma stable_ad r s : T ad_t -> P s -> P (store_ad_record r s).
Proof. intros Ht. exact (P_stable ad_t _ r s _ Ht eq_refl). Qed.
Lemma stable_note r s : T note_t -> P s -> P (store_note_record r s).
Proof. intros Ht. exact (P_stable note_t _ r s _ Ht eq_refl). Qed.
Lemma stable_slate r s : T slate_t -> P s -> P (store_slate_record r s).
Proof. intros Ht. exact (P_stable slate_t _ r s _ Ht eq_refl). Qed.
Lemma stable_game r s : T game_t -> P s -> P (store_game_record r s).
Proof. intros Ht. exact (P_stable game_t _ r s _ Ht eq_refl). Qed.
Lemma stable_property id v s : T property_t -> P s -> P (store_property_record id v s).
Proof. intros Ht. exact (P_stable property_t id v s _ Ht eq_refl). Qed.
Lemma stable_transaction id r s : T transaction_t -> P s -> P (store_transaction id r s).
Proof. intros Ht. exact (P_stable transaction_t id r s _ Ht eq_refl). Qed.
Lemma stable_account r s s' : store_account_record r s = Ok s' -> T account_t -> P s -> P s'.
Proof. intros H Ht. exact (P_stable account_t (ac_id r) r s s' Ht H). Qed.
Lemma stable_account_op r e e' : store_account r e = Ok e' -> T account_t -> P (es_state e) -> P (es_state e').
Proof. unfold store_account. intros H Ht Hp. inv_ok. by eapply stable_account. Qed.
#[local] Hint Resolve stable_balance stable_asset stable_packet stable_reward stable_burn stable_ad stable_note stable_slate
  stable_game stable_property stable_transaction stable_account stable_account_op : stable.

Lemma stable_pay_to owner a e : T balance_t -> P (es_state e) -> P (es_state (pay_to owner a e)).
Proof. intros. by apply stable_balance. Qed.
#[local] Hint Resolve stable_pay_to : stable.

(** Splits every branch of a successful run and closes the state by the
    lemmas on stores. *)
Ltac stable_op :=
  intros H ? Hp;
  repeat (inv_op; simplify_eq;
    match goal with
    | H : match ?x with _ => _ end = Ok _ |- _ => destruct x eqn:?
    end);
  inv_op; simplify_eq; simpl in *; eauto 8 with stable.

Lemma withdraw_stable o e e' : evaluate_withdraw o e = Ok e' ->
  T balance_t -> T asset_t -> P (es_state e) -> P (es_state e').
Proof.
  unfold evaluate_withdraw, claim_yield, charge_withdrawal_fee. intros H ? ? Hp. inv_op.
  match goal with H : (if _ then adjust_vote _ _ _ else _) = Ok _ |- _ => apply maybe_adjust_frame in H as [E _] end.
  simpl in E. rewrite <- E in Hp. destruct (_ && (0 <? _)); inv_op; simplify_eq; simpl;
    repeat case_match; simpl; auto with stable.
Qed.

Lemma deposit_stable o e e' : evaluate_deposit o e = Ok e' -> T balance_t -> P (es_state e) -> P (es_state e').
Proof.
  unfold evaluate_deposit. intros H ? Hp. inv_op.
  match goal with H : (if _ then adjust_vote _ _ _ else _) = Ok _ |- _ => apply maybe_adjust_frame in H as [E _] end.
  simpl in E. rewrite <- E in Hp. simpl. by apply stable_balance.
Qed.

Lemma update_balance_vote_stable o e e' :
  evaluate_update_balance_vote o e = Ok e' -> T balance_t -> P (es_state e) -> P (es_state e').
Proof.
  unfold evaluate_update_balance_vote. intros H ? Hp. inv_op.
  repeat match goal with H : (if _ then adjust_vote _ _ _ else _) = Ok _ |- _ =>
    apply maybe_adjust_frame in H as [? _]; simpl in * end.
  apply stable_balance; [ done | ]. repeat match goal with E : es_state _ = _ |- _ => rewrite E; clear E end.
  by apply stable_balance.
Qed.

Lemma make_delegate_state pay key r e r' e' :
  make_delegate pay key r e = Ok (r', e') -> es_state e' = es_state e.
Proof. unfold make_delegate. intros H. inv_ok. by injection H as <- <-. Qed.

Lemma new_account_id_stable s id s' : new_account_id s = Ok (id, s') -> T property_t -> P s -> P s'.
Proof. unfold new_account_id. stable_op. Qed.
Lemma new_asset_id_stable s id s' : new_asset_id s = Ok (id, s') -> T property_t -> P s -> P s'.
Proof. unfold new_asset_id. stable_op. Qed.

Lemma register_account_stable o e e' : evaluate_register_account o e = Ok e' ->
  T account_t -> T property_t -> P (es_state e) -> P (es_state e').
Proof.
  unfold evaluate_register_account. intros H ? ? Hp. inv_op.
  match goal with H : new_account_id _ = Ok ?x |- _ => destruct x as [id s1]; apply new_account_id_stable in H; [ | done.. ] end.
  inv_op.
  match goal with H : (if is_delegate_rate _ then _ else _) = Ok ?x |- _ =>
    destruct x as [r1 e1]; assert (E : es_state e1 = s1) end.
  { destruct (is_delegate_rate _); [ | inv_ok; by simplify_eq ].
    match goal with H : make_delegate _ _ _ _ = Ok _ |- _ => by apply make_delegate_state in H end. }
  eapply stable_account_op; [ exact H | done | by rewrite E ].
Qed.

Lemma update_account_stable o e e' : evaluate_update_account o e = Ok e' ->
  T account_t -> P (es_state e) -> P (es_state e').
Proof.
  unfold evaluate_update_account. intros H ? Hp. inv_op.
  match goal with H : update_delegate _ _ _ = Ok ?x |- _ => destruct x as [r1 e1]; rename H into Hd end.
  eapply stable_account_op; [ exact H | done | ]. clear H. unfold update_delegate in Hd.
  assert (E : es_state e1 = es_state e); [ | by rewrite E ].
  destruct (is_delegate _), (is_delegate_rate _); inv_ok; simplify_eq; try done;
    destruct (ac_delegate_info _); inv_ok; simplify_eq; try done; by apply make_delegate_state in Hd.
Qed.

Lemma create_asset_stable o e e' : evaluate_create_asset o e = Ok e' ->
  T asset_t -> T property_t -> T game_t -> P (es_state e) -> P (es_state e').
Proof.
  unfold evaluate_create_asset. intros H ? ? ? Hp. inv_op.
  match goal with H : issuer_account _ _ _ = Ok ?x |- _ => destruct x as [r1 e1]; rename H into Hi end.
  assert (Hp1 : P (es_state e1)).
  { unfold issuer_account in Hi. destruct (_ =? user_issuer_id); [ by inv_op; simplify_eq | ].
    destruct (_ =? game_issuer_id); inv_op; simplify_eq; [ by apply stable_game | done ]. }
  inv_op. match goal with H : new_asset_id _ = Ok ?x |- _ => destruct x as [id s1]; apply new_asset_id_stable in H; [ | done.. ] end.
  inv_op. simpl. auto with stable.
Qed.

Lemma red_packet_stable o e e' : evaluate_red_packet o e = Ok e' -> T packet_t -> P (es_state e) -> P (es_state e').
Proof.
  unfold evaluate_red_packet. intros H ? Hp. inv_op. destruct (shrink_units _ _ _ _). inv_op. simpl. auto with stable.
Qed.

Lemma operation_stable op e e' :
  evaluate_operation op e = Ok e' -> Forall T (op_tables op) -> P (es_state e) -> P (es_state e').
Proof.
  destruct op; simpl; rewrite ?Forall_cons; intros H HT; try done; intros Hp; destruct_and?.
  - by eapply withdraw_stable.
  - by eapply deposit_stable.
  - by eapply register_account_stable.
  - by eapply update_account_stable.
  - unfold evaluate_withdraw_pay in H. inv_op. by eapply stable_account_op.
  - by eapply create_asset_stable.
  - unfold evaluate_issue_asset in H. inv_op. simpl. auto with stable.
  - unfold evaluate_asset_update_properties in H. inv_op. simpl. auto with stable.
  - unfold evaluate_asset_update_permissions in H. inv_op. simpl. auto with stable.
  - unfold evaluate_asset_update_whitelist in H. inv_op. simpl. auto with stable.
  - unfold evaluate_define_slate in H. inv_op. destruct (get_slate_record _ _); inv_op; simpl; auto with stable.
  - unfold evaluate_burn in H. inv_op. simpl. auto with stable.
  - unfold evaluate_ad in H. inv_op. simpl. auto with stable.
  - unfold evaluate_note in H. inv_op. simpl. auto with stable.
  - by eapply red_packet_stable.
  - unfold evaluate_claim_packet in H. inv_op. destruct (is_unclaimed_empty _); inv_op; simpl; auto with stable.
  - unfold evaluate_buy_chips in H. inv_op. simpl. auto with stable.
  - unfold evaluate_update_signing_key in H. inv_op. by eapply stable_account_op.
  - by eapply update_balance_vote_stable.
  - by inv_ok.
Qed.

End frames.

Lemma stable_weaken {S : Type} `{CI : chain_interface S} `{Cr : Crypto} `{St : Statics} (T T' : table -> Prop) (P : S -> Prop) :
  (forall t, T' t -> T t) -> stable T P -> stable T' P.
Proof. intros HT HP t k v s s' Ht. apply HP. by apply HT. Qed.

(** When every store preserves [P], so do transactions and blocks; of the
    records of transactions only those are stored that lie under their ids. *)
Section transactions.
Context {S : Type} `{FcI : Fc} `{CI : chain_interface S} `{Cr : Crypto} `{Tx : TxCrypto} `{St : Statics}.
Implicit Types (e : eval_state S) (s : S).
Variable P : S -> Prop.
Hypothesis P_stable : stable (fun t => t <> transaction_t) P.
Hypothesis P_own : forall trx location yields s, P s ->
  P (store_transaction (trx_id trx) {| tr_trx := trx; tr_chain_location := location; tr_yield_claimed := yields |} s).
Hypothesis P_again : forall id r location s, get_transaction s id = Some r -> P s ->
  P (store_transaction id {| tr_trx := tr_trx r; tr_chain_location := location; tr_yield_claimed := tr_yield_claimed r |} s).

Lemma op_tables_other op : Forall (fun t => t <> transaction_t) (op_tables op).
Proof. destruct op; repeat constructor; done. Qed.

Lemma operations_keep ops e e' : evaluate_operations ops e = Ok e' -> P (es_state e) -> P (es_state e').
Proof.
  unfold evaluate_operations. intros H Hp. change (P (es_state (set_op_index 0 e))) in Hp. revert H Hp.
  generalize (set_op_index 0 e). induction ops as [|op ops IH]; simpl; intros e0 H Hp; inv_ok; [ done | ].
  apply (IH _ H). simpl. by eapply (operation_stable _ _ P_stable); [ | apply op_tables_other | ].
Qed.

Lemma validate_fees_keep e e' : validate_fees e = Ok e' -> P (es_state e) -> P (es_state e').
Proof.
  unfold validate_fees. generalize (map_items (es_fees_paid e)). intros l. revert e.
  induction l as [|[i fee] l IH]; simpl; intros e Hf Hp; inv_ok; [ done | ]. apply (IH _ Hf).
  destruct (fee =? 0); inv_ok; [ done | ]. by apply (stable_asset _ _ P_stable).
Qed.

Lemma delegate_votes_keep e e' : update_delegate_votes e = Ok e' -> P (es_state e) -> P (es_state e').
Proof.
  unfold update_delegate_votes. generalize (map_items (es_vote_deltas e)). intros l. revert e.
  induction l as [|[i v] l IH]; simpl; intros e Hf Hp; inv_ok; [ done | ]. apply (IH _ Hf).
  eapply (stable_account _ _ P_stable); [ eassumption | done.. ].
Qed.

Lemma settle_keep e e' : settle e = Ok e' -> P (es_state e) -> P (es_state e').
Proof.
  unfold settle. intros H Hp. inv_ok.
  match goal with H : validate_fees _ = Ok _ |- _ => apply validate_fees_keep in H; [ | done ] end.
  match goal with H : calculate_base_equivalent_fees _ = Ok _ |- _ => apply base_fees_frame in H as E end.
  match goal with H : update_delegate_votes _ = Ok _ |- _ => apply delegate_votes_keep in H; [ | by rewrite E ] end.
  unfold update_rp_values in H. destruct (es_rp_account _); inv_ok; [ | done ].
  eapply (stable_account _ _ P_stable); [ eassumption | done.. ].
Qed.

Lemma evaluate_keep trx e e' : evaluate trx e = Ok e' -> P (es_state e) -> P (es_state e').
Proof.
  unfold evaluate. intros H Hp. inv_ok. apply P_own. eapply settle_keep; [ eassumption | ].
  eapply operations_keep; [ eassumption | ].
  match goal with H : recover_signatures _ _ = Ok _ |- _ => apply recover_signatures_frame in H as [E _] end.
  simpl in E. by rewrite E.
Qed.

Lemma apply_transaction_keep skip n i trx s s' : apply_transaction skip n i trx s = Ok s' -> P s -> P s'.
Proof. unfold apply_transaction. intros H Hp. inv_ok. apply P_again; [ done | ]. by eapply evaluate_keep. Qed.

Lemma apply_transactions_keep skip n i trxs s s' : apply_transactions skip n i trxs s = Ok s' -> P s -> P s'.
Proof.
  revert i s. induction trxs; simpl; intros i s H Hp; inv_ok; [ done | ]. eapply IHtrxs; [ exact H | ].
  by eapply apply_transaction_keep.
Qed.
End transactions.

Section stable_transactions.
Context {S : Type} `{FcI : Fc} `{CI : chain_interface S} `{Cr : Crypto} `{Tx : TxCrypto} `{St : Statics}.
Variable P : S -> Prop.
Hypothesis P_stable : stable (fun _ => True) P.

Lemma apply_transactions_stable skip n i trxs s s' : apply_transactions skip n i trxs s = Ok s' -> P s -> P s'.
Proof.
  apply apply_transactions_keep; [ by apply (stable_weaken (fun _ => True)) | | ];
    intros; by apply (stable_transaction _ _ P_stable).
Qed.
Lemma apply_transaction_stable skip n i trx s s' : apply_transaction skip n i trx s = Ok s' -> P s -> P s'.
Proof. intros H. apply (apply_transactions_stable skip n i [trx]). simpl. by rewrite H. Qed.
End stable_transactions.

(** A predicate every insertion and erasure preserves is stable, also for some
    of the tables. *)
Section primitives.
Context {S : Type} `{CI : chain_interface S} `{Cr : Crypto} `{St : Statics}.
Variable P : S -> Prop.
Variable T : table -> Prop.
Hypothesis P_record_insert : forall t k v s, T t -> P s -> P (record_insert t k v s).
Hypothesis P_index_insert : forall i k id s, P s -> P (index_insert i k id s).
Hypothesis P_index_erase : forall i k s, P s -> P (index_erase i k s).
Hypothesis P_ranking_insert : forall v s, P s -> P (ranking_insert vote_set v s).
Hypothesis P_ranking_erase : forall w v s, P s -> P (ranking_erase w v s).
Hypothesis P_unique_insert : forall trx s, T transaction_t -> P s -> P (unique_insert trx s).

Lemma erase_addresses_stable l s : P s -> P (erase_key_addresses l s).
Proof. unfold erase_key_addresses. revert s. induction l; simpl; auto. Qed.
Lemma insert_addresses_stable l id s : P s -> P (insert_key_addresses l id s).
Proof. unfold insert_key_addresses. revert s. induction l; simpl; intros; [ done | ]. case_match; auto. Qed.

#[local] Hint Resolve erase_addresses_stable insert_addresses_stable : stable.

Lemma account_retract_stable prev r s s' : account_store_retract prev r s = Ok s' -> P s -> P s'.
Proof.
  unfold account_store_retract. intros H Hp. inv_ok.
  match goal with H : match ac_delegate_info _ with _ => _ end = Ok ?x |- _ => assert (P x) end.
  { destruct (ac_delegate_info prev); inv_ok; [ destruct (negb (is_delegate r)); inv_ok | ];
      repeat case_match; auto 7 with stable. }
  destruct (negb _ && _); auto.
Qed.

Lemma account_enter_stable id r s s' : T account_t -> account_store_enter id r s = Ok s' -> P s -> P s'.
Proof.
  unfold account_store_enter. intros Ht H Hp. destruct (ac_delegate_info r); inv_ok; repeat case_match; auto 8 with stable.
Qed.

Lemma stable_on_primitives : stable T P.
Proof.
  intros t k v s s' Ht H Hp. destruct t; simpl in H; inv_ok.
  2: { unfold account_record_store in H. inv_ok. eapply account_enter_stable; [ done | exact H | ].
       destruct (account_record_lookup s k); inv_ok; [ by eapply account_retract_stable | done ]. }
  all: unfold asset_record_store, game_record_store, slot_record_store, transaction_record_store,
    property_record_store, slate_record_store, balance_record_store, burn_record_store, ad_record_store,
    note_record_store, packet_record_store, operation_reward_record_store, feed_record_store;
    repeat case_match; auto.
Qed.
End primitives.

Lemma stable_of_primitives {S : Type} `{CI : chain_interface S} `{Cr : Crypto} `{St : Statics} (P : S -> Prop) :
  (forall t k v s, P s -> P (record_insert t k v s)) -> (forall i k id s, P s -> P (index_insert i k id s)) ->
  (forall i k s, P s -> P (index_erase i k s)) -> (forall v s, P s -> P (ranking_insert vote_set v s)) ->
  (forall w v s, P s -> P (ranking_erase w v s)) -> (forall trx s, P s -> P (unique_insert trx s)) ->
  forall T, stable T P.
Proof. intros H1 H2 H3 H4 H5 H6 T. apply stable_on_primitives; auto. Qed.

(** ** The set of known transactions of a pending state *)

Section replay.
Context {S : Type} `{FcI : Fc} `{CI : chain_interface S} `{Cr : Crypto} `{Tx : TxCrypto} `{St : Statics}.
Implicit Types p : pending_chain_state S.

(** What stores never change: the state below, and the digests seen so far. *)
Definition grown p p' : Prop := ps_prev p' = ps_prev p /\ ps_digests p ⊆ ps_digests p'.


Lemma grown_stable p : stable (fun _ => True) (grown p).
Proof.
  apply stable_of_primitives; unfold grown; simpl.
  all: intros; try done.
  - destruct H as [H1 H2]. split; [ done | ]. set_solver.
Qed.

Lemma grown_refl p : grown p p.
Proof. done. Qed.

Lemma grown_known p p' trx : grown p p' -> is_known_transaction p trx = true -> is_known_transaction p' trx = true.
Proof.
  intros [Hp Hd]. change (pending_is_known_transaction p trx = true -> pending_is_known_transaction p' trx = true).
  unfold pending_is_known_transaction. rewrite Hp, !orb_true_iff, !bool_decide_eq_true. set_solver.
Qed.

Definition digest (trx : signed_transaction) : Z := trx_digest trx static_chain_id.

Lemma known_digest p trx trx' :
  digest trx' = digest trx -> digest trx ∈ ps_digests p -> is_known_transaction p trx' = true.
Proof.
  intros E Hd. change (pending_is_known_transaction p trx' = true). unfold pending_is_known_transaction.
  fold (digest trx'). rewrite E, bool_decide_eq_true_2; done.
Qed.

(** An applied transaction was not known, was in time, and its digest is in
    the set afterwards. *)
Lemma apply_transaction_digest skip n i trx p p' :
  apply_transaction skip n i trx p = Ok p' ->
  grown p p' /\ digest trx ∈ ps_digests p' /\ is_known_transaction p trx = false
  /\ (tx_expiration trx <=? chain_now p) = false
  /\ (uwrap32 (chain_now p + MAX_TRANSACTION_EXPIRATION_SEC) <? tx_expiration trx) = false.
Proof.
  intros H. split; [ by eapply (apply_transaction_stable _ (grown_stable p)); [ exact H | ] | ].
  unfold apply_transaction, evaluate in H. inv_ok. simpl.
  match goal with H : settle _ = Ok ?e |- _ => generalize e end. intros e.
  match goal with H : get_transaction _ _ = Some ?r |- _ => generalize dependent r end.
  cbn [es_state set_state]. intros r Hr.
  split_and!; try done. set_solver.
Qed.

Lemma apply_transactions_digests skip n i trxs p p' :
  apply_transactions skip n i trxs p = Ok p' ->
  grown p p'
  /\ Forall (fun trx => digest trx ∈ ps_digests p' /\ is_known_transaction p trx = false
       /\ (tx_expiration trx <=? chain_now p) = false
       /\ (uwrap32 (chain_now p + MAX_TRANSACTION_EXPIRATION_SEC) <? tx_expiration trx) = false) trxs
  /\ NoDup (map digest trxs).
Proof.
  revert i p. induction trxs as [|trx trxs IH]; simpl; intros i p H; inv_ok.
  { split_and!; [ apply grown_refl | done | constructor ]. }
  match goal with H : apply_transaction _ _ _ _ _ = Ok ?x |- _ => rename x into q; rename H into Ht end.
  apply apply_transaction_digest in Ht as (G & Hd & Hk & T1 & T2). apply IH in H as (G' & F & N).
  assert (G2 : grown p p') by (destruct G, G'; split; [ congruence | set_solver ]).
  assert (En : chain_now q = chain_now p)
    by (change (chain_now (ps_prev q) = chain_now (ps_prev p)); by rewrite (proj1 G)).
  split_and!; [ done | | ].
  - constructor; [ split_and!; try done; by apply G' | ]. eapply Forall_impl; [ exact F | ]. cbv beta.
    intros t (Ht & Hq & U). rewrite En in U. split_and!; [ done | | apply U | apply U ].
    destruct (is_known_transaction p t) eqn:E; [ | done ]. apply (grown_known _ _ _ G) in E. by rewrite E in Hq.
  - constructor; [ | done ]. intros Hin. apply list_elem_of_fmap in Hin as (t & E & Hin).
    rewrite Forall_forall in F. destruct (F _ Hin) as (_ & Hq & _).
    by rewrite (known_digest q trx t) in Hq by done.
Qed.
End replay.

(** ** Replay protection *)

Section replay_property.
Context {S : Type} `{FcI : Fc} `{CI : chain_interface S} `{Cr : Crypto} `{Tx : TxCrypto} `{St : Statics}.

(** C33: a transaction is applied once. The transactions of a block that is
    applied have pairwise different digests, none of them was known to the
    state the block is applied on, and after the block every transaction with
    the digest and the expiration of one of them, whatever its signatures, is
    refused as a duplicate. *)
Theorem applied_once skip n i trxs (p p' : pending_chain_state S) :
  apply_transactions skip n i trxs p = Ok p' ->
  NoDup (map digest trxs)
  /\ (forall trx, trx ∈ trxs -> is_known_transaction p trx = false)
  /\ forall trx again skip' n' j, trx ∈ trxs -> digest again = digest trx -> tx_expiration again = tx_expiration trx ->
     apply_transaction skip' n' j again p' = Throw duplicate_transaction.
Proof.
  intros H. apply apply_transactions_digests in H as ([Hp Hd] & F & N). rewrite Forall_forall in F.
  split_and!; [ done | by apply F | ]. intros trx again skip' n' j Hin E1 E2.
  destruct (F _ Hin) as (Hdig & _ & T1 & T2).
  unfold apply_transaction, evaluate. cbn [es_state set_skips set_trx eval_start].
  assert (Hn : chain_now p' = chain_now p) by (change (chain_now (ps_prev p') = chain_now (ps_prev p)); by rewrite Hp).
  rewrite Hn, E2, T1, T2. cbn [throw_if rbind].
  rewrite (known_digest p' trx again E1) by done. done.
Qed.
End replay_property.

#[local] Existing Instance demo_crypto.
#[local] Existing Instance demo_tx.
#[local] Existing Instance demo_statics.

(** The payment of the demo block, sent again with other signatures. *)
Definition demo_replayed : signed_transaction :=
  {| tx_expiration := 110000; tx_operations := tx_operations demo_payment; tx_signatures := [12; 21; 99] |}.

Lemma applied_once_witness :
  is_known_transaction (pending_empty demo_db) demo_payment = false
  /\ apply_transaction false 502 7 demo_replayed demo_after_block = Throw duplicate_transaction.
Proof.
  assert (E : apply_transactions false 501 0 demo_block (pending_empty demo_db) = Ok demo_after_block)
    by (apply ok_or_is_ok; vm_compute; reflexivity).
  assert (Hin : demo_payment ∈ demo_block) by by left.
  destruct (applied_once false 501 0 demo_block _ _ E) as (_ & Hk & Hr).
  split; [ exact (Hk _ Hin) | exact (Hr demo_payment demo_replayed false 502 7 Hin eq_refl eq_refl) ].
Defined.
