(* ===== verification/AccountKeys.v ===== *)
(** Every account keeps an active key, every delegate a signing key: the
    operations and transactions lead from a state whose accounts have their
    keys to another, which is what lets [apply_changes] succeed. *)

From S2P Require Import Prelude Asset Names Records ChainInterface EvalState BalanceOps AccountOps Transaction.
From S2P Require Import Tables PendingState ChainDatabase Undo Supply Conservation Frames.

Lemma max_entry_some {V} (m : gmap Z V) : m <> ∅ -> is_Some (max_entry m).
Proof.
  intros Hm. unfold max_entry.
  assert (H : m = ∅ \/ is_Some (map_fold (fun k v acc => match acc with
    | Some (k', v') => if k' <? k then Some (k, v) else acc | None => Some (k, v) end) None m)); [ | tauto ].
  clear Hm. apply (map_fold_weak_ind (fun acc m => m = ∅ \/ is_Some acc)); [ by left | ].
  intros k v m' [[k' v']|] _ _; right; [ destruct (k' <? k) | ]; eauto.
Qed.

(** The keys of an account are there. *)
Definition has_keys (r : account_record) : Prop :=
  ac_active_key_history r <> ∅ /\ forall d, ac_delegate_info r = Some d -> ds_signing_key_history d <> ∅.

Lemma max_entry_none {V} : max_entry (∅ : gmap Z V) = None.
Proof. done. Qed.

Lemma account_ok_has_keys r : account_ok r = true <-> has_keys r.
Proof.
  unfold account_ok, has_keys, active_key, signing_key, is_delegate. split.
  - intros H. apply andb_true_iff in H as [H1 H2]. split.
    + intros E. rewrite E in H1. by rewrite max_entry_none in H1.
    + intros d Ed. rewrite Ed in H2. intros E. rewrite E in H2. by rewrite max_entry_none in H2.
  - intros [H1 H2]. destruct (max_entry_some _ H1) as [[? ?] ->]. destruct (ac_delegate_info r) as [d|]; [ | done ].
    by destruct (max_entry_some _ (H2 d eq_refl)) as [[? ?] ->].
Qed.

Lemma delegate_info_keys r d d' : ac_delegate_info r = Some d -> ds_signing_key_history d' = ds_signing_key_history d ->
  has_keys r -> has_keys (set_ac_delegate_info (Some d') r).
Proof. intros Hd E [H1 H2]. split; [ done | ]. intros d2 [= <-]. rewrite E. by apply H2. Qed.

Lemma set_active_key_keys now k r r' : set_active_key now k r = Ok r' ->
  (forall d, ac_delegate_info r = Some d -> ds_signing_key_history d <> ∅) -> has_keys r'.
Proof. unfold set_active_key. intros H Hd. inv_ok. split; [ apply insert_non_empty | done ]. Qed.

Lemma set_signing_key_keys n k r r' : set_signing_key n k r = Ok r' -> ac_active_key_history r <> ∅ -> has_keys r'.
Proof.
  unfold set_signing_key. intros H Hd. destruct (ac_delegate_info r); [ | done ]. inv_ok.
  split; [ done | ]. intros d2 [= <-]. apply insert_non_empty.
Qed.

Section keys.
Context {S : Type} `{FcI : Fc} `{CI : chain_interface S} `{CS : !chain_spec S} `{Cr : Crypto} `{Tx : TxCrypto} `{St : Statics}.
Implicit Types (e : eval_state S) (s : S).

Lemma state_ok_store_other t k v s s' : store t k v s = Ok s' -> t <> account_t -> state_ok s -> state_ok s'.
Proof.
  intros H Hne Hp. apply state_ok_accounts. intros k' r. rewrite (flat_other t k v s s' account_t H) by congruence. apply (Hp account_t).
Qed.

Lemma state_ok_store_account r s s' : store_account_record r s = Ok s' -> has_keys r -> state_ok s -> state_ok s'.
Proof.
  intros H Hr%account_ok_has_keys Hp. apply state_ok_accounts. intros k' r'.
  destruct (store_flat account_t (ac_id r) r s s' H eq_refl) as [E _].
  rewrite E, lookup_insert. case_decide; [ intros; by simplify_eq | apply (Hp account_t) ].
Qed.

Lemma state_ok_keys s k r : state_ok s -> get_account_record s k = Some r -> has_keys r.
Proof. intros Hs Hr. apply account_ok_has_keys. by apply (account_lookup_ok s k). Qed.

Lemma other_tables_stable : stable (fun t => t <> account_t) (fun s : S => state_ok s).
Proof. intros t k v s s' Ht H Hs. by eapply state_ok_store_other. Qed.

Lemma store_account_ok r e e' : store_account r e = Ok e' -> has_keys r -> state_ok (es_state e) -> state_ok (es_state e').
Proof. unfold store_account. intros H Hr Hs. inv_ok. by eapply state_ok_store_account. Qed.

(** ** The operations that store accounts *)

Lemma make_delegate_keys rate key r e r' e' : make_delegate rate key r e = Ok (r', e') -> ac_active_key_history r <> ∅ -> has_keys r'.
Proof.
  unfold make_delegate. intros H Hr. inv_ok. simplify_eq.
  match goal with H : set_signing_key _ _ _ = Ok _ |- _ => by eapply set_signing_key_keys in H end.
Qed.

Lemma register_account_ok o e e' : evaluate_register_account o e = Ok e' -> state_ok (es_state e) -> state_ok (es_state e').
Proof.
  unfold evaluate_register_account. intros H Hs. inv_ok.
  match goal with H : new_account_id _ = Ok ?x |- _ => destruct x as [id s1]; rename H into Hn end. inv_ok.
  match goal with H : set_active_key _ _ _ = Ok ?x |- _ => rename x into r; apply set_active_key_keys in H as Hr; [ | done ] end.
  match goal with H : (if _ then make_delegate _ _ _ _ else _) = Ok ?x |- _ => destruct x as [r' e1]; rename H into Hm end.
  assert (Hst : es_state e1 = s1 /\ has_keys r').
  { destruct (is_delegate_rate _); [ | inv_ok; by simplify_eq ]. split; [ | by eapply make_delegate_keys, Hr ].
    apply make_delegate_keeps in Hm as (_ & _ & -> & _). done. }
  destruct Hst as [E Hr']. eapply store_account_ok; [ eassumption | done | ]. rewrite E.
  eapply (new_account_id_stable _ _ other_tables_stable); [ exact Hn | done.. ].
Qed.

Lemma update_active_key_keys o r e r' : update_active_key o r e = Ok r' -> has_keys r -> has_keys r'.
Proof.
  unfold update_active_key. intros H Hr. inv_ok. destruct (ua_active_key o); [ destruct (negb _) | ]; inv_ok; try done.
  eapply set_active_key_keys; [ eassumption | ]. by destruct Hr.
Qed.

Lemma update_delegate_keys o r e r' e' : update_delegate o r e = Ok (r', e') -> has_keys r -> has_keys r'.
Proof.
  unfold update_delegate. intros H Hr. inv_ok. destruct (is_delegate_rate _); [ | by inv_ok; simplify_eq ].
  destruct (ac_delegate_info r) as [d|] eqn:Ed; inv_ok; simplify_eq.
  - by apply (delegate_info_keys r d).
  - eapply make_delegate_keys; [ eassumption | by destruct Hr ].
Qed.

Lemma operation_ok op e e' : evaluate_operation op e = Ok e' -> state_ok (es_state e) -> state_ok (es_state e').
Proof.
  intros H Hs. destruct (decide (Forall (fun t => t <> account_t) (op_tables op))) as [HT|HT];
    [ by eapply (operation_stable _ _ other_tables_stable) | ].
  destruct op; try (exfalso; apply HT; repeat constructor; discriminate); simpl in H; clear HT.
  - by eapply register_account_ok.
  - unfold evaluate_update_account in H. inv_ok. match goal with H : update_delegate _ _ _ = Ok ?x |- _ => destruct x as [r3 e3] end.
    match goal with H : update_active_key _ _ _ = Ok _ |- _ => apply update_active_key_keys in H as Hk; [ | by eapply state_ok_keys ] end.
    match goal with H : update_delegate _ _ _ = Ok _ |- _ => pose proof H as Hd; apply update_delegate_keeps in H as (_ & _ & E & _) end.
    eapply store_account_ok; [ eassumption | | by rewrite E ].
    eapply update_delegate_keys in Hd; [ exact Hd | ]. destruct (ua_public_data _); exact Hk.
  - unfold evaluate_withdraw_pay in H. inv_ok. eapply store_account_ok; [ eassumption | | done ].
    eapply delegate_info_keys; [ eassumption | done | by eapply state_ok_keys ].
  - unfold evaluate_update_signing_key in H. inv_ok. eapply store_account_ok; [ eassumption | | done ].
    match goal with H : set_signing_key _ _ _ = Ok ?x |- _ => assert (has_keys x) as [K1 K2]; [ | by split ] end.
    eapply set_signing_key_keys; [ eassumption | ]. match goal with H : get_account_record _ _ = Some _ |- _ => by apply (state_ok_keys _ _ _ Hs) in H as [? _] end.
Qed.

(** ** Transactions *)

Lemma operations_ok ops e e' : evaluate_operations ops e = Ok e' -> state_ok (es_state e) -> state_ok (es_state e').
Proof.
  unfold evaluate_operations. intros H Hp. change (state_ok (es_state (set_op_index 0 e))) in Hp. revert H Hp.
  generalize (set_op_index 0 e). induction ops as [|op ops IH]; simpl; intros e0 H Hp; inv_ok; [ done | ].
  apply (IH _ H). simpl. by eapply operation_ok.
Qed.

Lemma adjust_votes_keys v r r' : adjust_votes_for v r = Ok r' -> has_keys r -> has_keys r'.
Proof.
  unfold adjust_votes_for. destruct (ac_delegate_info r) as [d|] eqn:Ed; [ | done ]. intros H Hr. inv_ok. by eapply delegate_info_keys.
Qed.

Lemma delegate_votes_ok e e' : update_delegate_votes e = Ok e' -> state_ok (es_state e) -> state_ok (es_state e').
Proof.
  unfold update_delegate_votes. generalize (map_items (es_vote_deltas e)). intros l. revert e.
  induction l as [|[i v] l IH]; simpl; intros e Hf Hp; inv_ok; [ done | ]. apply (IH _ Hf).
  eapply state_ok_store_account; [ eassumption | | done ]. eapply adjust_votes_keys; [ eassumption | by eapply state_ok_keys ].
Qed.

Lemma validate_fees_ok e e' : validate_fees e = Ok e' -> state_ok (es_state e) -> state_ok (es_state e').
Proof.
  unfold validate_fees. generalize (map_items (es_fees_paid e)). intros l. revert e.
  induction l as [|[i fee] l IH]; simpl; intros e Hf Hp; inv_ok; [ done | ]. apply (IH _ Hf).
  destruct (fee =? 0); inv_ok; [ done | ]. by apply (stable_asset _ _ other_tables_stable).
Qed.

Lemma settle_ok e e' : settle e = Ok e' -> state_ok (es_state e) -> state_ok (es_state e').
Proof.
  unfold settle. intros H Hp. inv_ok.
  match goal with H : validate_fees _ = Ok _ |- _ => apply validate_fees_ok in H; [ | done ] end.
  match goal with H : calculate_base_equivalent_fees _ = Ok _ |- _ => apply base_fees_frame in H as E end.
  match goal with H : update_delegate_votes _ = Ok _ |- _ => apply delegate_votes_ok in H; [ rename H into Hv | by rewrite E ] end.
  unfold update_rp_values in H. destruct (es_rp_account _); inv_ok; [ | done ].
  eapply state_ok_store_account; [ eassumption | | done ].
  match goal with H : get_account_record _ _ = Some _ |- _ => exact (state_ok_keys _ _ _ Hv H) end.
Qed.

Lemma evaluate_ok trx e e' : evaluate trx e = Ok e' -> state_ok (es_state e) -> state_ok (es_state e').
Proof.
  unfold evaluate. intros H Hp. inv_ok. apply (stable_transaction _ _ other_tables_stable); [ done | ]. eapply settle_ok; [ eassumption | ].
  eapply operations_ok; [ eassumption | ].
  match goal with H : recover_signatures _ _ = Ok _ |- _ => apply recover_signatures_frame in H as [E _] end.
  simpl in E. by rewrite E.
Qed.

Lemma apply_transactions_ok skip n i trxs s s' : apply_transactions skip n i trxs s = Ok s' -> state_ok s -> state_ok s'.
Proof.
  revert i s. induction trxs as [|trx trxs IH]; intros i s H Hs; simpl in H; inv_ok; [ done | ].
  eapply IH; [ exact H | ]. match goal with H : apply_transaction _ _ _ _ _ = Ok _ |- _ => unfold apply_transaction in H end.
  inv_ok. apply (stable_transaction _ _ other_tables_stable); [ done | ]. by eapply evaluate_ok.
Qed.
End keys.
