(* ===== verification/MarketProps.v ===== *)
(** The market engine never matches: the price of an order cannot be read, so
    a market either has no order to look at or ends in an exception, and
    nothing but the status of the market changes. *)

From stdpp Require Import sorting.
From S2P Require Import Prelude Asset Records ChainInterface Tables PendingState ChainDatabase Market Concrete Undo Supply.
From S2P Require Import Conservation Frames.

(** ** Iterators stand on keys of the map *)

Section ordered.
Context `{Countable K} {V : Type} (lt : K -> K -> bool).
Implicit Types (m : gmap K V) (it : option K).

Definition it_ok m it : Prop := forall k, it = Some k -> is_Some (m !! k).

Lemma keys_in_order_elem m k : k ∈ keys_in_order lt m <-> is_Some (m !! k).
Proof.
  unfold keys_in_order. rewrite merge_sort_Permutation, list_elem_of_fmap. split.
  - intros ([k' v] & -> & Hkv). apply elem_of_map_to_list in Hkv. eauto.
  - intros [v Hv]. exists (k, v). by rewrite elem_of_map_to_list.
Qed.

Lemma find_in_order m f : it_ok m (List.find f (keys_in_order lt m)).
Proof.
  intros k Hk. apply List.find_some in Hk as [Hk _]. by apply keys_in_order_elem, list_elem_of_In.
Qed.

Lemma last_in_order m l : (forall k, k ∈ l -> k ∈ keys_in_order lt m) -> it_ok m (list.last l).
Proof. intros Hl k Hk. by eapply keys_in_order_elem, Hl, last_Some_elem_of. Qed.

Lemma it_last_ok m : it_ok m (it_last lt m).
Proof. by apply last_in_order. Qed.
Lemma it_begin_ok m : it_ok m (it_begin lt m).
Proof. intros k Hk. by apply keys_in_order_elem, head_Some_elem_of. Qed.
Lemma it_lower_bound_ok m k : it_ok m (it_lower_bound lt m k).
Proof. apply find_in_order. Qed.
Lemma it_next_ok m it : it_ok m (it_next lt m it).
Proof. destruct it; [ apply find_in_order | done ]. Qed.
Lemma it_prev_ok m it : it_ok m (it_prev lt m it).
Proof.
  destruct it; [ | apply it_last_ok ]. apply last_in_order. intros x Hx.
  by apply list_elem_of_In, List.filter_In in Hx as [?%list_elem_of_In _].
Qed.
End ordered.

Create HintDb market.
#[export] Hint Resolve it_last_ok it_begin_ok it_lower_bound_ok it_next_ok it_prev_ok : market.

Section engine.
Context `{FcI : Fc} `{Cr : Crypto} `{Tx : TxCrypto} `{St : Statics}.
Implicit Types (db : chain_database) (p : engine_state) (e : market_engine).

(** ** A round ends the loop *)

(** An engine that has taken no order yet. *)
Definition idle db p e : Prop :=
  me_pending e = p /\ me_transactions e = [] /\ me_current_bid e = None /\ it_ok (db_bids db) (me_bid_itr e).

(** An exception, which [execute] catches. *)
Definition throws {A} (r : result A) : Prop := exists x, r = Throw x /\ x <> undefined_behaviour.

Lemma order_at_throws type book pm k : is_Some (book !! k) -> throws (order_at type book pm k).
Proof. intros [o Ho]. exists assert_exception. unfold order_at. rewrite Ho. by destruct type. Qed.

Lemma throws_bind {A B} (r : result A) (f : A -> result B) : throws r -> throws (rbind r f).
Proof. intros (e & -> & He). by exists e. Qed.

Lemma get_next_bid_idle pm p e :
  idle (mp_db pm) p e ->
  throws (get_next_bid pm e) \/ exists e', get_next_bid pm e = Ok e' /\ idle (mp_db pm) p e'.
Proof.
  intros (Hp & Ht & Hb & Hi). unfold get_next_bid. rewrite Hb.
  cbn [rbind me_bid_itr set_me_bid set_me_filled]. cbv beta iota.
  destruct (me_bid_itr e) as [k|] eqn:Ei; [ left | right ].
  - apply throws_bind, order_at_throws, (Hi k eq_refl).
  - cbn [rbind]. destruct (mp_feed_price pm); (eexists; split; [ done | ]);
      (split_and!; [ exact Hp | exact Ht | done | ]); [ done | apply it_prev_ok ].
Qed.

Definition idle_match db p q b (l : match_state) : Prop :=
  idle db p (ml_engine l) /\ ml_quote l = q /\ ml_base l = b /\ amount (ml_volume l) = 0.

Lemma match_loop_idle pm p q b n l :
  idle_match (mp_db pm) p q b l ->
  throws (match_loop (S n) pm l) \/ exists l', match_loop (S n) pm l = Ok l' /\ idle_match (mp_db pm) p q b l'.
Proof.
  intros (Hl & Hq & Hb & Hv). simpl. unfold match_step.
  assert (me_current_bid (ml_engine l) = None) as -> by apply Hl. cbn [exhausted rbind]. cbv iota.
  destruct (get_next_bid_idle pm p _ Hl) as [H|(e & -> & He)]; [ left; by do 2 apply throws_bind | right ].
  cbn [rbind]. assert (me_current_bid e = None) as -> by apply He. cbn [rbind].
  eexists. split; [ done | ]. by split_and!.
Qed.

Lemma run_passes_idle db quote base feed p q b passes l :
  idle_match db p q b l ->
  throws (foldM (run_pass db quote base feed) passes l)
  \/ exists l', foldM (run_pass db quote base feed) passes l = Ok l' /\ idle_match db p q b l'.
Proof.
  revert l. induction passes as [|pass passes IH]; intros l Hl; [ right; eauto | ]. cbn [foldM].
  destruct (match_loop_idle (mk_params db quote base feed pass) p q b (1 + size (db_bids db) + size (db_asks db))
    (set_ml_engine (set_me_ask None (me_ask_itr (ml_engine l)) (ml_engine l)) (ml_last_filled l) l))
    as [H|(l' & E & Hl')]; [ exact Hl | left; by apply throws_bind | ].
  unfold run_pass at 1 3. unfold match_fuel. cbn [plus] in *. rewrite E. cbn [rbind]. by apply IH.
Qed.

(** ** What a market changes *)

Lemma apply_records_keeps (P : prior_state -> Prop) t o s s' :
  stable (fun _ => True) P -> ov_removed o = ∅ -> apply_records t o s = Ok s' -> P s -> P s'.
Proof.
  intros HP Ho. unfold apply_records. rewrite Ho, elements_empty. cbn [foldM rbind]. clear Ho. revert s.
  induction (map_to_list (ov_records o)) as [|[k v] l IH]; simpl; intros s H Hs; inv_ok; [ done | ].
  eapply IH; [ exact H | ]. by eapply HP.
Qed.

(** Nothing is removed; storing removes nothing. *)
Definition no_removals {S} `{CI : chain_interface S} (p : pending_chain_state S) : Prop :=
  forall t, ov_removed (tget t (ps_tables p)) = ∅.

Lemma no_removals_insert {S} `{CI : chain_interface S} t k v (p : pending_chain_state S) :
  no_removals p -> no_removals (record_insert t k v p).
Proof.
  intros Hr t'. change (ov_removed (tget t' (ps_tables (pending_insert t k v p))) = ∅).
  unfold pending_insert, set_ps_table. cbn [ps_tables]. destruct (decide (t = t')) as [->|Hne].
  - rewrite tget_tset. unfold ov_insert. cbn [ov_removed]. rewrite Hr. set_solver.
  - rewrite tget_tset_ne by done. apply Hr.
Qed.

(** No removal and no order: what every other store keeps, applying keeps. *)
Definition stores_only (prior : prior_state) p : Prop :=
  ps_prev p = prior /\ ps_bids p = ∅ /\ ps_asks p = ∅ /\ no_removals p.

Lemma stores_only_stable prior : stable (fun _ => True) (stores_only prior).
Proof.
  apply stable_of_primitives; unfold stores_only; try done.
  intros t k v p (Hp & Hb & Ha & Hr). split_and!; [ exact Hp | exact Hb | exact Ha | ]. by apply no_removals_insert.
Qed.

Lemma foldl_keeps {S A} (P : S -> Prop) (f : S -> A -> S) l s : (forall s a, P s -> P (f s a)) -> P s -> P (foldl f s l).
Proof. intros Hf. revert s. induction l; simpl; auto. Qed.

Lemma apply_changes_keeps (P : prior_state -> Prop) p s' :
  stable (fun _ => True) P ->
  (forall x s, P s -> P (store_market_status x s)) ->
  (forall k x s, P s -> P (store_market_history_record k x s)) ->
  (forall l s, P s -> P (set_market_transactions l s)) ->
  forall prior, stores_only prior p -> apply_changes p = Ok s' -> P prior -> P s'.
Proof.
  intros HP H1 H2 H3 prior (Hp & Hb & Ha & Hr) H Hs. unfold apply_changes in H. rewrite Hp, Hb, Ha in H. inv_ok.
  match goal with H : foldM _ apply_order _ = Ok ?x |- _ => assert (P x) as Hx; [ clear - HP Hr Ha0 Hs | ] end.
  { revert Ha0 Hs. generalize prior, apply_order. intros s l. revert s.
    induction l as [|t l IH]; simpl; intros s H Hs; inv_ok; [ done | ].
    eapply IH; [ exact H | ]. by eapply apply_records_keeps. }
  refine (HP property_t dirty_markets_property _ _ _ I eq_refl _). apply H3.
  eapply apply_records_keeps; [ exact HP | apply Hr | eassumption | ].
  rewrite map_to_list_empty. simpl. apply foldl_keeps; [ auto | ]. by apply foldl_keeps; auto.
Qed.
End engine.

Section undisturbed.
Context `{FcI : Fc} `{Cr : Crypto} `{Tx : TxCrypto} `{St : Statics}.
Implicit Types (db : chain_database) (p : prior_state).

(** Every record and order is as before; the property of the dirty markets
    may differ. *)
Definition undisturbed p p' : Prop :=
  (forall t k, tracked t = true -> dirty_key t k = false -> flat t p' !! k = flat t p !! k)
  /\ (forall k, get_bid_record p' k = get_bid_record p k) /\ (forall k, get_ask_record p' k = get_ask_record p k)
  /\ ps_prev p' = ps_prev p /\ (no_removals p -> no_removals p').

Lemma undisturbed_refl p : undisturbed p p.
Proof. done. Qed.

Lemma undisturbed_trans p p' p'' : undisturbed p p' -> undisturbed p' p'' -> undisturbed p p''.
Proof.
  intros (H1 & H2 & H3 & H4 & H5) (G1 & G2 & G3 & G4 & G5).
  split_and!; [ | intros; by rewrite G2 | intros; by rewrite G3 | congruence | auto ].
  intros t k Ht Hk. by rewrite G1, H1.
Qed.

Lemma undisturbed_ok p p' : undisturbed p p' -> state_ok p -> state_ok p'.
Proof.
  intros (H & _) Hp. apply state_ok_accounts. intros k v. rewrite H by done. apply (Hp account_t).
Qed.

Lemma undisturbed_wf p p' : undisturbed p p' -> wf p -> wf p'.
Proof.
  intros (H & _) [W1 W2]. split.
  - intros t k v Hv. destruct (decide (t = property_t \/ t = slot_t)) as [[->| ->]|Hne]; [ done | done | ].
    apply W1. rewrite <- H; [ done | destruct t; naive_solver | destruct t; naive_solver ].
  - intros n id r. rewrite !last_account_id_flat, (H property_t), (H account_t), <- last_account_id_flat by done. apply W2.
Qed.

(** The engine's own changes: the two assets again, and the status. *)
Lemma rewrite_asset_flat (p : engine_state) k r t :
  get_asset_record p k = Some r -> as_id r = k -> flat t (store_asset_record r p) = flat t p.
Proof.
  unfold get_asset_record, asset_record_lookup. rewrite flat_lookup. intros Hr Hk.
  destruct (decide (t = asset_t)) as [->|Hne]; [ | by apply (flat_other asset_t (as_id r) r p) ].
  destruct (store_flat asset_t (as_id r) r p _ eq_refl eq_refl) as [E _]. etrans; [ exact E | ].
  rewrite Hk. by apply insert_id.
Qed.

Lemma engine_empty_flat t (p : prior_state) : flat t (pending_empty p) = flat t p.
Proof. rewrite pending_flat. unfold pending_empty. simpl. by rewrite tget_tconst, ov_flat_empty. Qed.

(** What the engine applies: the two assets as they were, and the status. *)
Definition quiet_engine (p : prior_state) (quote base : asset_record) (status : market_status) : engine_state :=
  store_market_status status (store_asset_record base (store_asset_record quote (pending_empty p))).

Lemma quiet_stores_only p quote base status : stores_only p (quiet_engine p quote base status).
Proof.
  assert (forall x e, stores_only p e -> stores_only p (store_market_status x e)) as Hs by done.
  unfold quiet_engine. apply Hs, (stable_asset _ _ (stores_only_stable p)); [ done | ].
  apply (stable_asset _ _ (stores_only_stable p)); [ done | ]. split_and!; [ done .. | ]. intros t. by destruct t.
Qed.

Lemma quiet_flat p q b quote base status t :
  wf p -> get_asset_record (pending_empty p) q = Some quote -> get_asset_record (pending_empty p) b = Some base ->
  flat t (quiet_engine p quote base status) = flat t p.
Proof.
  intros Hwf Hq Hb.
  assert (Hid : forall k r, get_asset_record (pending_empty p) k = Some r -> as_id r = k).
  { unfold get_asset_record, asset_record_lookup. intros k r. rewrite flat_lookup, engine_empty_flat.
    exact (wf_keys p Hwf asset_t k r). }
  assert (F1 : forall t, flat t (store_asset_record quote (pending_empty p)) = flat t p).
  { intros t'. rewrite (rewrite_asset_flat _ q) by auto. apply engine_empty_flat. }
  unfold quiet_engine. rewrite flat_store_status, (rewrite_asset_flat _ b); [ apply F1 | | auto ].
  unfold get_asset_record, asset_record_lookup in *. rewrite flat_lookup in *.
  by rewrite F1, <- (engine_empty_flat asset_t p).
Qed.

Lemma engine_changes (p : prior_state) q b quote base status :
  wf p -> state_ok p ->
  get_asset_record (pending_empty p) q = Some quote -> get_asset_record (pending_empty p) b = Some base ->
  exists p', apply_changes (quiet_engine p quote base status) = Ok p' /\ undisturbed p p'.
Proof.
  intros Hwf Hp Hq Hb. pose proof (quiet_stores_only p quote base status) as S2.
  assert (F : forall t, flat t (quiet_engine p quote base status) = flat t p) by (intros; by eapply quiet_flat).
  revert S2 F. generalize (quiet_engine p quote base status) as e. intros e S2 F.
  destruct (apply_changes_total e) as [p' H].
  { apply state_ok_accounts. intros k v. rewrite F. apply (Hp account_t). }
  { by rewrite (proj1 S2). }
  exists p'. split; [ exact H | ].
  assert (K : forall P : prior_state -> Prop,
    (forall t k v s, P s -> P (record_insert t k v s)) -> (forall i k id s, P s -> P (index_insert i k id s)) ->
    (forall i k s, P s -> P (index_erase i k s)) -> (forall v s, P s -> P (ranking_insert vote_set v s)) ->
    (forall w v s, P s -> P (ranking_erase w v s)) -> (forall trx s, P s -> P (unique_insert trx s)) ->
    (forall x s, P s -> P (store_market_status x s)) ->
    (forall k x s, P s -> P (store_market_history_record k x s)) ->
    (forall l s, P s -> P (set_market_transactions l s)) -> P p -> P p').
  { intros P **. eapply (apply_changes_keeps P); [ | done .. | exact S2 | exact H | done ].
    by apply stable_of_primitives. }
  split_and!.
  - intros t k Ht Hk. by rewrite (apply_changes_lookup _ _ t k H Ht Hk), F.
  - intros k. by apply (K (fun s => get_bid_record s k = get_bid_record p k)).
  - intros k. by apply (K (fun s => get_ask_record s k = get_ask_record p k)).
  - by apply (K (fun s => ps_prev s = ps_prev p)).
  - intros Hr. apply (K (fun s => no_removals s)); try done. intros *. apply no_removals_insert.
Qed.

Lemma feed_price_throws db q b quote base (p : engine_state) :
  throws (market_feed_price db q b quote base p) \/ exists feed, market_feed_price db q b quote base p = Ok feed.
Proof.
  unfold market_feed_price. destruct (is_market_issued quote && _); [ | right; eauto ].
  destruct (get_active_feed_price db q) as [feed|e] eqn:Ef; cbn [rbind].
  - destruct (negb _ && _); [ left; by exists insufficient_feeds | right; eauto ].
  - left. exists e. split; [ done | ]. intros ->.
    change (db_active_feed_price db q = Throw undefined_behaviour) in Ef. unfold db_active_feed_price in Ef.
    repeat case_match; done.
Qed.

Lemma market_idle db q b (p : prior_state) :
  idle db (pending_empty p) (mk_engine (pending_empty p) None None (first_bid db q b) (first_ask db q b) 0 []).
Proof.
  split_and!; [ done .. | ]. cbn. unfold first_bid. destruct (it_lower_bound _ _ _); auto with market.
Qed.

Lemma status_exists (s : option market_status) q b :
  b < q -> exists x, match s with Some x => Ok x | None => new_market_status q b end = Ok x.
Proof.
  intros Hlt. destruct s; [ eauto | ]. unfold new_market_status. rewrite (proj2 (Z.ltb_lt b q) Hlt). simpl. eauto.
Qed.

Lemma match_market_quiet db q b ts p :
  state_ok p -> wf p -> b < q ->
  throws (match_market db q b ts (pending_empty p))
  \/ exists p', match_market db q b ts (pending_empty p) = Ok (p', []) /\ undisturbed p p'.
Proof.
  intros Hp Hwf Hlt. unfold match_market.
  destruct (get_asset_record (pending_empty p) q) as [quote|] eqn:Eq; [ cbn [rbind from_option_or] | left; by eexists ].
  destruct (get_asset_record (pending_empty p) b) as [base|] eqn:Eb; [ cbn [rbind from_option_or] | left; by eexists ].
  destruct (flag_is_active quote halted_markets); [ left; by eexists | cbn [rbind fc_assert negb] ].
  destruct (flag_is_active base halted_markets); [ left; by eexists | cbn [rbind fc_assert negb] ].
  destruct (feed_price_throws db q b quote base (pending_empty p)) as [Hf|[feed ->]]; [ left; by apply throws_bind | ].
  cbn [rbind].
  match goal with |- context [foldM _ _ ?l] =>
    destruct (run_passes_idle db q b feed (pending_empty p) quote base [0%nat; 1%nat; 2%nat] l)
      as [Hr|(l' & -> & (Hi1 & Hi2 & _) & Hq & Hb & Hv)] end.
  { split_and!; try done. apply market_idle. }
  { left. by apply throws_bind. }
  right. cbn [rbind]. rewrite Hi1, Hi2, Hq, Hb. unfold update_market_history. rewrite Hv.
  match goal with |- context [match ?s with Some _ => Ok _ | None => _ end] =>
    destruct (status_exists s q b Hlt) as [x ->] end.
  cbn [rbind]. change (0 <? 0) with false. cbv iota.
  match goal with |- context [store_market_status ?x _] =>
    destruct (engine_changes p q b quote base x Hwf Hp Eq Eb) as (p' & Hp' & U) end.
  unfold quiet_engine in Hp'. rewrite Hp'. cbn [rbind]. by exists p'.
Qed.

(** One market: no exception leaves [execute], and no match is reported. *)
Lemma market_execute_quiet db q b ts p :
  state_ok p -> wf p -> b < q ->
  exists ok p', market_execute db q b ts p = Ok (ok, p', []) /\ undisturbed p p'.
Proof.
  intros Hp Hwf Hlt. unfold market_execute.
  destruct (match_market_quiet db q b ts p Hp Hwf Hlt) as [(e & -> & He)|(p' & -> & Hp')]; [ | by exists true, p' ].
  destruct (status_exists (get_market_status p (q, b)) q b Hlt) as [x ->].
  destruct e; try done; cbn [rbind]; eexists false, _; by split.
Qed.

(** The markets one after the other. *)
Lemma execute_market_list_quiet db ts l p :
  Forall (fun m : Z * Z => m.2 < m.1) l -> state_ok p -> wf p ->
  exists p', foldM (execute_market db ts) l (p, []) = Ok (p', []) /\ undisturbed p p'.
Proof.
  revert p. induction l as [|m l IH]; intros p Hl Hp Hwf; cbn [foldM]; [ by exists p | ].
  apply Forall_cons in Hl as [Hm Hl]. unfold execute_market at 1. rewrite (proj2 (Z.ltb_lt _ _) Hm). cbn [rbind fc_assert].
  destruct (market_execute_quiet db m.1 m.2 ts p Hp Hwf Hm) as (ok & p1 & -> & U1). cbn [rbind].
  destruct (IH p1) as (p2 & E & U2); [ done | by eapply undisturbed_ok | by eapply undisturbed_wf | ].
  exists p2. split; [ | by eapply undisturbed_trans ]. by destruct ok.
Qed.

(** One market whose ids are in the wrong order ends the loop. *)
Lemma execute_market_list_throws db ts l p : Exists (fun m : Z * Z => ~ m.2 < m.1) l -> state_ok p -> wf p ->
  foldM (execute_market db ts) l (p, []) = Throw assert_exception.
Proof.
  intros Hl. revert p. induction l as [|m l IH]; intros p Hp Hwf; [ by apply Exists_nil in Hl | ]. cbn [foldM]. unfold execute_market at 1.
  destruct (Z.ltb_spec m.2 m.1) as [Hm|Hm]; [ | done ]. cbn [rbind fc_assert].
  destruct (market_execute_quiet db m.1 m.2 ts p Hp Hwf Hm) as (ok & p1 & -> & U1). cbn [rbind].
  apply Exists_cons in Hl as [?|Hl]; [ done | ].
  replace (if ok then [] ++ [] else []) with (@nil market_transaction) by (by destruct ok).
  apply IH; [ done | by eapply undisturbed_ok | by eapply undisturbed_wf ].
Qed.

(** The same, from the success of the loop: it asserts the order of the ids
    of each market. *)
Lemma execute_market_list_inv db ts l p r :
  foldM (execute_market db ts) l (p, []) = Ok r -> state_ok p -> wf p -> exists p', r = (p', []) /\ undisturbed p p'.
Proof.
  revert p. induction l as [|m l IH]; intros p H Hp Hwf; cbn [foldM] in H; [ inv_ok; simplify_eq; by exists p | ].
  unfold execute_market at 1 in H. destruct (Z.ltb_spec m.2 m.1) as [Hm|Hm]; [ | done ]. cbn [rbind fc_assert] in H.
  destruct (market_execute_quiet db m.1 m.2 ts p Hp Hwf Hm) as (ok & p1 & E1 & U1). rewrite E1 in H. cbn [rbind] in H.
  assert (H' : foldM (execute_market db ts) l (p1, []) = Ok r) by (by destruct ok).
  destruct (IH p1 H') as (p2 & -> & U2); [ by eapply undisturbed_ok | by eapply undisturbed_wf | ].
  exists p2. split; [ done | by eapply undisturbed_trans ].
Qed.

(** C16: the market engine never matches an order: executing the markets of a
    block whose dirty markets all have a quote id above the base id ends
    without an exception, whatever is in the order books, and every record and
    order of the block's state is as before; no market transaction is reported.
    Only the status of a market and the property of the dirty markets are
    written. With a dirty market of another order it throws. *)
Theorem markets_never_match db ts p (Hp : state_ok p) (Hwf : wf p) :
  if forallb (fun m => m.2 <? m.1) (get_dirty_markets db) then
    exists p', execute_markets db ts p = Ok p' /\ ps_market_transactions p' = []
      /\ (forall t k, tracked t = true -> dirty_key t k = false -> record_lookup t p' k = record_lookup t p k)
      /\ (forall k, get_bid_record p' k = get_bid_record p k)
      /\ (forall k, get_ask_record p' k = get_ask_record p k)
  else execute_markets db ts p = Throw assert_exception.
Proof.
  unfold execute_markets. destruct (forallb _ _) eqn:Hd.
  - destruct (execute_market_list_quiet db ts (merge_sort pair_le (get_dirty_markets db)) p) as (p' & -> & U); [ | done | done | ].
    { rewrite merge_sort_Permutation. apply Forall_forall. intros m Hm.
      apply list_elem_of_In in Hm. apply Z.ltb_lt. by apply (proj1 (forallb_forall _ _) Hd). }
    cbn [rbind]. eexists. split; [ done | ]. destruct U as (U1 & U2 & U3 & _ & _). split_and!; [ done | | done | done ].
    intros t k Ht Hk. rewrite !flat_lookup, flat_market_transactions. by apply U1.
  - rewrite execute_market_list_throws; [ done | | done | done ]. rewrite merge_sort_Permutation.
    apply not_Forall_Exists; [ apply _ | ]. intros Hall. apply not_true_iff_false in Hd. apply Hd, forallb_forall.
    intros m Hm%list_elem_of_In. apply Z.ltb_lt. by apply (proj1 (Forall_forall _ _) Hall).
Qed.
End undisturbed.

(** ** A concrete market *)

#[local] Existing Instance demo_crypto.
#[local] Existing Instance demo_tx.
#[local] Existing Instance demo_statics.

(** A bid above an ask of the market of GOLD in BTS, which would match. *)
Definition market_db : chain_database :=
  set_dirty_markets [(1, 0)]
    (store_ask_record (mk_index (mk_price 1000000000000000000 0 1) 44) (mk_order 300 None 100)
      (store_bid_record (mk_index (mk_price 2000000000000000000 0 1) 24) (mk_order 500 None 100) demo_db)).

Lemma markets_never_match_witness :
  if forallb (fun m => m.2 <? m.1) (get_dirty_markets market_db) then
    exists p', execute_markets market_db 100020 (pending_empty market_db) = Ok p' /\ ps_market_transactions p' = []
      /\ (forall t k, tracked t = true -> dirty_key t k = false ->
            record_lookup t p' k = record_lookup t (pending_empty market_db) k)
      /\ (forall k, get_bid_record p' k = get_bid_record (pending_empty market_db) k)
      /\ (forall k, get_ask_record p' k = get_ask_record (pending_empty market_db) k)
  else execute_markets market_db 100020 (pending_empty market_db) = Throw assert_exception.
Proof.
  apply (markets_never_match market_db 100020 (pending_empty market_db));
    [ apply state_ok_check; vm_compute; reflexivity | apply wf_check_wf; vm_compute; reflexivity ].
Defined.

(** The market ends in an exception, which its status keeps. *)
Example market_status_of_match :
  (p <- execute_markets market_db 100020 (pending_empty market_db) ;;
   Ok (option_map st_last_error (get_market_status p (1, 0)))) = Ok (Some (Some assert_exception)).
Proof. vm_compute. reflexivity. Qed.
