(* ===== verification/ForkTree.v ===== *)
(** Marking the descendants of blocks: under the hypothesis that no block is
    its own ancestor the loop ends within its fuel, changes the records of the
    blocks it reaches and no others, and visits exactly those. The tree of
    blocks of the fork database: which records a node may hold for the blocks it
    knows, and that storing a block and marking a fork as linked or invalid lead
    from one such tree to another. *)

From stdpp Require Import relations.
From S2P Require Import Prelude StateMonad Records PendingState ChainDatabase BlockOps Node ForkDb.

Lemma set_nd_fork_same n : set_nd_fork (nd_fork n) n = n.
Proof. by destruct n. Qed.

(** ** Generations *)

Definition child (F : gmap Z block_fork_data) (x y : Z) : Prop := exists d, F !! x = Some d /\ y ∈ fd_next_blocks d.
Definition reach (F : gmap Z block_fork_data) (S : gset Z) (y : Z) : Prop := exists x, x ∈ S /\ rtc (child F) x y.

(** [F] with the records of [V] changed. *)
Definition marked (change : block_fork_data -> block_fork_data) (V : gset Z) (F F' : gmap Z block_fork_data) : Prop :=
  forall id, F' !! id = if bool_decide (id ∈ V) then change <$> F !! id else F !! id.

Lemma least_rank (rank : Z -> nat) (X : gset Z) :
  X <> ∅ -> exists x, x ∈ X /\ forall y, y ∈ X -> (rank x <= rank y)%nat.
Proof.
  induction X as [|x X Hx IH] using set_ind_L; [ done | ]. intros _. destruct (decide (X = ∅)) as [->|Hne].
  { exists x. split; set_solver. }
  destruct (IH Hne) as (y & Hy & Hmin). destruct (decide (rank x <= rank y)%nat).
  - exists x. split; [ set_solver | ]. intros z [->%elem_of_singleton|Hz]%elem_of_union; [ done | ].
    specialize (Hmin z Hz). lia.
  - exists y. split; [ set_solver | ]. intros z [->%elem_of_singleton|Hz]%elem_of_union; [ lia | auto ].
Qed.

Section marking.
Context {A : Type} (change : block_fork_data -> block_fork_data) (visit : Z -> block_fork_data -> A -> node_m A).
Hypothesis change_next : forall d, fd_next_blocks (change d) = fd_next_blocks d.
Hypothesis change_idem : forall d, change (change d) = change d.

(** The tree before marking, and what is known of the result of the visits. *)
Context (F : gmap Z block_fork_data) (B : gmap Z full_block) (rank : Z -> nat).
Hypothesis next_known : forall id d c, F !! id = Some d -> c ∈ fd_next_blocks d -> is_Some (B !! c).
Hypothesis next_rank : forall id d c, F !! id = Some d -> c ∈ fd_next_blocks d -> (rank id < rank c)%nat.
Hypothesis block_fork : forall id, is_Some (B !! id) -> is_Some (F !! id).
Context (seen : gset Z -> A -> Prop).
Hypothesis visit_spec : forall id b d a V n,
  nd_blocks n = B -> B !! id = Some b -> F !! id = Some d -> seen V a ->
  exists a', visit id (change d) a n = (n, Ok a') /\ seen ({[ id ]} ∪ V) a'.

Lemma marked_insert V F' id d :
  marked change V F F' -> F !! id = Some d -> marked change ({[ id ]} ∪ V) F (<[id := change d]> F').
Proof.
  intros H Hd x. destruct (decide (x = id)) as [->|Hne].
  - rewrite lookup_insert_eq, bool_decide_eq_true_2 by set_solver. by rewrite Hd.
  - rewrite lookup_insert_ne by done. rewrite H. repeat case_bool_decide; set_solver.
Qed.

Lemma marked_lookup V F' id d : marked change V F F' -> F !! id = Some d -> exists d', F' !! id = Some d' /\ change d' = change d.
Proof.
  intros H Hd. rewrite H, Hd. case_bool_decide; simpl; eexists; (split; [ reflexivity | ]); [ apply change_idem | done ].
Qed.

Lemma generation_spec l V n pend a :
  nd_blocks n = B -> marked change V F (nd_fork n) -> seen V a -> Forall (fun id => is_Some (B !! id)) l ->
  exists F' a' pend', nfold (mark_one change visit) l (pend, a) n = (set_nd_fork F' n, Ok (pend', a'))
    /\ marked change (list_to_set l ∪ V) F F' /\ seen (list_to_set l ∪ V) a'
    /\ forall c, c ∈ pend' <-> c ∈ pend \/ exists id, id ∈ l /\ child F id c.
Proof.
  revert V n pend a. induction l as [|id l IH]; intros V n pend a HB HF Ha Hl; cbn [nfold].
  - exists (nd_fork n), a, pend. rewrite set_nd_fork_same. split_and!; [ done | .. ].
    + by replace (list_to_set [] ∪ V) with V by set_solver.
    + by replace (list_to_set [] ∪ V) with V by set_solver.
    + set_solver.
  - apply Forall_cons in Hl as [[b Hb] Hl]. destruct (block_fork id ltac:(eauto)) as [d Hd].
    destruct (marked_lookup V _ id d HF Hd) as (d' & Hd' & Ec).
    set (n1 := set_nd_fork (<[id := change d]> (nd_fork n)) n).
    destruct (visit_spec id b d a V n1 HB Hb Hd Ha) as (a1 & E1 & Ha1).
    destruct (IH ({[ id ]} ∪ V) n1 (pend ∪ fd_next_blocks (change d)) a1 HB) as (F' & a' & pend' & E & HF' & Ha' & Hp);
      [ by apply marked_insert | done | done | ].
    exists F', a', pend'. split_and!.
    + unfold nbind at 1. unfold mark_one at 1. unfold nbind at 1, nread, fork_fetch. rewrite Hd'.
      cbn [from_option_or]. rewrite Ec. unfold nbind at 1, fork_store, nwrite. fold n1.
      rewrite (nbind_ok _ _ _ _ _ E1). exact E.
    + by replace (list_to_set (id :: l) ∪ V) with (list_to_set l ∪ ({[ id ]} ∪ V)) by set_solver.
    + by replace (list_to_set (id :: l) ∪ V) with (list_to_set l ∪ ({[ id ]} ∪ V)) by set_solver.
    + intros c. rewrite Hp, change_next, elem_of_union. unfold child. split.
      * intros [[?|?]|(x & Hx & ?)]; [ by left | right; exists id | right; exists x ];
          (split; [ by set_solver | eauto ]).
      * intros [?|(x & Hx & d0 & Hd0 & Hc)]; [ by left; left | ].
        apply elem_of_cons in Hx as [->|Hx]; [ left; right; by simplify_eq | right; eauto ].
Qed.

(** Ranks grow from one generation to the next, so the records of at least
    some rank become fewer. *)
Definition above (m : nat) : gset Z := filter (fun id => m <= rank id)%nat (dom F).

Lemma above_anti m m' : (m <= m')%nat -> above m' ⊆ above m.
Proof. intros H x. unfold above. rewrite !elem_of_filter. intros [? ?]. split; [ lia | done ]. Qed.

Lemma generations_spec fuel level V n a :
  nd_blocks n = B -> marked change V F (nd_fork n) -> seen V a -> (forall id, id ∈ level -> is_Some (B !! id)) ->
  forall m, (forall id, id ∈ level -> m <= rank id)%nat -> (size (above m) < fuel)%nat ->
  exists F' a' V', mark_generations change visit fuel level a n = (set_nd_fork F' n, Ok a')
    /\ marked change V' F F' /\ seen V' a' /\ forall id, id ∈ V' <-> id ∈ V \/ reach F level id.
Proof.
  revert level V n a. induction fuel as [|fuel IH]; intros level V n a HB HF Ha Hl m Hm Hf; [ lia | ].
  cbn [mark_generations]. case_bool_decide as He.
  { exists (nd_fork n), a, V. rewrite set_nd_fork_same. split_and!; try done. intros id. split; [ by left | ].
    intros [?|(x & Hx & _)]; [ done | set_solver ]. }
  destruct (generation_spec (elements level) V n ∅ a HB HF Ha) as (F1 & a1 & pend & E1 & HF1 & Ha1 & Hp).
  { apply Forall_forall. intros x Hx. apply Hl. by apply elem_of_elements. }
  destruct (least_rank rank level He) as (x & Hx & Hmin).
  assert (Hxd : x ∈ dom F) by (apply elem_of_dom, block_fork, Hl, Hx).
  destruct (IH pend (level ∪ V) (set_nd_fork F1 n) a1 HB) with (m := S (rank x)) as (F' & a' & V' & E' & HF' & Ha' & HV').
  - simpl. by rewrite list_to_set_elements_L in HF1.
  - by rewrite list_to_set_elements_L in Ha1.
  - intros c Hc. apply Hp in Hc as [?|(y & _ & d & Hd & Hc)]; [ set_solver | ]. by eapply next_known.
  - intros c Hc. apply Hp in Hc as [?|(y & Hy & d & Hd & Hc)]; [ set_solver | ].
    apply elem_of_elements in Hy. specialize (Hmin y Hy). specialize (next_rank _ _ _ Hd Hc). lia.
  - assert (size (above (S (rank x))) < size (above (rank x)))%nat.
    { apply subset_size. split; [ apply above_anti; lia | ]. intros Hs.
      assert (Hxx : x ∈ above (S (rank x))) by (apply Hs, elem_of_filter; done). apply elem_of_filter in Hxx. lia. }
    pose proof (subseteq_size _ _ (above_anti m (rank x) (Hm x Hx))). lia.
  - exists F', a', V'. split_and!; [ | done | done | ].
    + rewrite (nbind_ok _ _ _ _ _ E1). cbn [fst snd]. by destruct n.
    + intros id. rewrite HV', elem_of_union. split.
      * intros [[Hid|?]|(y & Hy & Hr)]; [ right; exists id; split; [ done | reflexivity ] | by left | right ].
        apply Hp in Hy as [?|(z & Hz & Hc)]; [ set_solver | ]. exists z. split; [ by apply elem_of_elements | ].
        by eapply rtc_l.
      * intros [?|(y & Hy & Hr)]; [ by left; right | ]. inversion Hr as [z E|z w u Hc Hr' E1' E2']; subst;
          [ by left; left | right ]. exists w. split; [ | done ]. apply Hp. right. exists y.
        split; [ by apply elem_of_elements | done ].
Qed.

(** The whole loop, with its fuel. *)
Lemma mark_descendants_spec ids n a :
  nd_blocks n = B -> nd_fork n = F -> seen ∅ a -> (forall id, id ∈ ids -> is_Some (B !! id)) ->
  exists F' a' V, mark_descendants change visit ids a n = (set_nd_fork F' n, Ok a')
    /\ marked change V F F' /\ seen V a' /\ forall id, id ∈ V <-> reach F ids id.
Proof.
  intros HB HF Ha Hids. unfold mark_descendants.
  destruct (generations_spec (S (size (nd_fork n))) ids ∅ n a HB) with (m := 0%nat) as (F' & a' & V & E & HF' & Ha' & HV).
  - intros x. rewrite bool_decide_eq_false_2 by set_solver. by rewrite HF.
  - done.
  - done.
  - intros. lia.
  - rewrite HF. assert (above 0 ⊆ dom F) as Hs by (intros x; unfold above; rewrite elem_of_filter; tauto).
    apply subseteq_size in Hs. rewrite size_dom in Hs. lia.
  - exists F', a', V. split_and!; try done. intros id. rewrite HV. set_solver.
Qed.
End marking.

Definition prev_of (b : full_block) : Z := bh_previous (fb_header b).
Definition num_of (b : full_block) : Z := bh_block_num (fb_header b).

(** [x] is the parent of the known block [y]. *)
Definition parent (B : gmap Z full_block) (y x : Z) : Prop := exists b, B !! y = Some b /\ prev_of b = x.

(** No known block is its own ancestor: [rank] grows from parent to child. *)
Definition ranked (rank : Z -> nat) (B : gmap Z full_block) : Prop :=
  forall id b, B !! id = Some b -> (rank (prev_of b) < rank id)%nat.

(** What the record of a block [d] says, given the record [dp] of its parent:
    a linked block has a linked parent, a child of a block that can be linked
    is linked, invalidity is inherited in the linked part, a valid block has
    a valid parent, and an unlinked block is invalid only if its parent is. *)
Definition link_ok (dp d : block_fork_data) : bool :=
  implb (fd_is_linked d) (fd_is_linked dp)
  && implb (can_link dp) (fd_is_linked d)
  && implb (fd_is_linked dp && fork_invalid dp) (fork_invalid d)
  && implb (fork_valid d) (fork_valid dp && fd_is_linked d)
  && implb (negb (fd_is_linked d) && fork_invalid d) (fork_invalid dp).

(** The record of a block that is not known, only named by its children. *)
Definition placeholder (d : block_fork_data) : Prop :=
  fd_is_linked d = false /\ fd_is_valid d = None /\ fd_is_included d = false /\ fd_is_known d = false
  /\ fd_next_blocks d <> ∅.

(** The records [F] fit the blocks [B]; the children of [ex] may not yet fit
    its record. *)
Record fork_tree_but (ex : option Z) (B : gmap Z full_block) (F : gmap Z block_fork_data) : Prop := {
  ft_root : B !! 0 = None /\ exists d, F !! 0 = Some d /\ fd_is_linked d = true /\ fd_is_valid d = Some true;
  ft_known : forall id b, B !! id = Some b -> exists d dp, F !! id = Some d /\ F !! prev_of b = Some dp
    /\ id ∈ fd_next_blocks dp /\ fd_is_known d = true /\ (ex <> Some (prev_of b) -> link_ok dp d = true);
  ft_next : forall x d c, F !! x = Some d -> c ∈ fd_next_blocks d -> parent B c x;
  ft_placeholder : forall id d, F !! id = Some d -> B !! id = None -> id <> 0 -> placeholder d;
  ft_reason : forall id d, F !! id = Some d -> fork_invalid d = true -> is_Some (fd_invalid_reason d) }.

Abbreviation fork_tree := (fork_tree_but None).

(** The cases of the two flags of a record. *)
Tactic Notation "status" ident(d) := destruct d as [? [] [[]|] ? ? ?].

Ltac fork_cases :=
  repeat match goal with
  | d : block_fork_data |- _ => status d
  end; simpl in *; try done; try congruence.

Lemma link_ok_invalid dp d r : link_ok dp d = true -> link_ok (set_fd_valid (Some false) r dp) (set_fd_valid (Some false) r d) = true.
Proof. fork_cases. Qed.

Lemma link_ok_can_link dp d : link_ok dp d = true -> can_link d = true -> can_link dp = true.
Proof. fork_cases. Qed.

Lemma link_ok_valid dp d : link_ok dp d = true -> fd_is_valid d = Some true -> fd_is_valid dp = Some true.
Proof. fork_cases. Qed.

Section tree.
Context (B : gmap Z full_block) (rank : Z -> nat) (Hrank : ranked rank B).

Lemma parent_rank y x : parent B y x -> (rank x < rank y)%nat.
Proof. intros (b & Hb & <-). by apply Hrank. Qed.

Lemma ancestor_rank y x : rtc (parent B) y x -> (rank x <= rank y)%nat.
Proof. induction 1 as [|y z x H _ IH]; [ lia | ]. pose proof (parent_rank _ _ H). lia. Qed.

Lemma parent_fun y x z : parent B y x -> parent B y z -> x = z.
Proof. intros (b & Hb & <-) (b' & Hb' & <-). congruence. Qed.

(** Children in the records are children of known blocks. *)
Lemma child_parent ex F x y : fork_tree_but ex B F -> child F x y -> parent B y x.
Proof. intros T (d & Hd & Hy). by eapply ft_next. Qed.

Lemma parent_child ex F x y : fork_tree_but ex B F -> parent B y x -> child F x y.
Proof.
  intros T (b & Hb & <-). destruct (ft_known _ _ _ T _ _ Hb) as (d & dp & _ & Hp & Hn & _). by exists dp.
Qed.

Lemma reach_ancestor ex F x y : fork_tree_but ex B F -> rtc (child F) x y -> rtc (parent B) y x.
Proof.
  intros T. induction 1 as [|x z y H _ IH]; [ done | ]. eapply rtc_r; [ exact IH | ]. by eapply child_parent.
Qed.

(** A block and its descendants. *)
Lemma reach_rank ex F i d x : fork_tree_but ex B F -> F !! i = Some d -> reach F (fd_next_blocks d) x -> (rank i < rank x)%nat.
Proof.
  intros T Hd (c & Hc & Hr). pose proof (ancestor_rank _ _ (reach_ancestor _ _ _ _ T Hr)).
  pose proof (parent_rank _ _ (ft_next _ _ _ T _ _ _ Hd Hc)). lia.
Qed.

Lemma reach_known ex F i d x : fork_tree_but ex B F -> F !! i = Some d -> reach F (fd_next_blocks d) x -> is_Some (B !! x).
Proof.
  intros T Hd (c & Hc & Hr). apply rtc_inv_r in Hr as [->|(z & _ & Hz)].
  - destruct (ft_next _ _ _ T _ _ _ Hd Hc) as (b & Hb & _). eauto.
  - destruct (child_parent _ _ _ _ T Hz) as (b & Hb & _). eauto.
Qed.

Lemma reach_parent ex F i d x p :
  fork_tree_but ex B F -> F !! i = Some d -> reach F (fd_next_blocks d) x -> parent B x p ->
  p = i \/ reach F (fd_next_blocks d) p.
Proof.
  intros T Hd (c & Hc & Hr) Hp. apply rtc_inv_r in Hr as [->|(z & Hz & Hzx)].
  - left. eapply parent_fun; [ done | by eapply ft_next ].
  - right. rewrite (parent_fun _ _ _ Hp (child_parent _ _ _ _ T Hzx)). by exists c.
Qed.

Lemma parent_reach ex F i d x p :
  fork_tree_but ex B F -> F !! i = Some d -> parent B x p -> p = i \/ reach F (fd_next_blocks d) p ->
  reach F (fd_next_blocks d) x.
Proof.
  intros T Hd Hp Hi. destruct (parent_child _ _ _ _ T Hp) as (dp & Hdp & Hx). destruct Hi as [->|(c & Hc & Hr)].
  - exists x. split; [ by simplify_eq | done ].
  - exists c. split; [ done | ]. eapply rtc_r; [ done | by exists dp ].
Qed.

(** Another record for a known block, whose children may not fit it yet. *)
Lemma fork_tree_record F i b d dp d1 :
  fork_tree B F -> B !! i = Some b -> F !! i = Some d -> F !! prev_of b = Some dp ->
  fd_next_blocks d1 = fd_next_blocks d -> fd_is_known d1 = fd_is_known d -> link_ok dp d1 = true ->
  (fork_invalid d1 = true -> is_Some (fd_invalid_reason d1)) ->
  fork_tree_but (Some i) B (<[i := d1]> F).
Proof.
  intros T Hb Hd Hdp En Ek Hl Hr.
  assert (Hne : prev_of b <> i) by (intros E; pose proof (Hrank _ _ Hb) as HR; rewrite E in HR; lia).
  split.
  - destruct (ft_root _ _ _ T) as (H0 & H). split; [ done | ]. rewrite lookup_insert_ne by congruence. done.
  - intros x bx Hbx. destruct (ft_known _ _ _ T _ _ Hbx) as (dx & dpx & Hdx & Hdpx & Hn & Hk & Hlx).
    destruct (decide (x = i)) as [->|Hx].
    + simplify_eq. exists d1, dp. rewrite lookup_insert_eq, lookup_insert_ne by done. rewrite Ek. by split_and!.
    + destruct (decide (prev_of bx = i)) as [Ep|Ep].
      * exists dx, d1. rewrite Ep, lookup_insert_eq, lookup_insert_ne by done. rewrite Ep in Hdpx. simplify_eq.
        rewrite En. by split_and!.
      * exists dx, dpx. rewrite !lookup_insert_ne by done. split_and!; try done. intros _. by apply Hlx.
  - intros x dx c Hx Hc. destruct (decide (x = i)) as [->|Hxi]; [ | rewrite lookup_insert_ne in Hx by done; by eapply ft_next ].
    rewrite lookup_insert_eq in Hx. simplify_eq. rewrite En in Hc. by eapply ft_next.
  - intros x dx Hx Hbx H0. rewrite lookup_insert_ne in Hx by congruence. by eapply ft_placeholder.
  - intros x dx Hx Hix. destruct (decide (x = i)) as [->|Hxi]; [ rewrite lookup_insert_eq in Hx; simplify_eq; auto | ].
    rewrite lookup_insert_ne in Hx by done. by eapply ft_reason.
Qed.

(** What holds of the children of [i] and goes from parent to child holds of
    its descendants. *)
Lemma descendants_P F i di (P : block_fork_data -> Prop) x d :
  fork_tree_but (Some i) B F -> F !! i = Some di ->
  (forall c dc, c ∈ fd_next_blocks di -> F !! c = Some dc -> P dc) ->
  (forall dp dc, P dp -> link_ok dp dc = true -> P dc) ->
  reach F (fd_next_blocks di) x -> F !! x = Some d -> P d.
Proof.
  intros T Hi first next (c & Hc & Hr). revert d. pattern x. refine (rtc_ind_r _ _ _ _ _ Hr); clear x Hr.
  - intros d Hd. by apply (first c).
  - intros y x Hr Hyx IH d Hd. destruct (child_parent _ _ _ _ T Hyx) as (b & Hb & <-).
    destruct (ft_known _ _ _ T _ _ Hb) as (d' & dp & Hd' & Hdp & _ & _ & Hl). simplify_eq.
    refine (next dp d (IH dp Hdp) (Hl _)). intros [= E].
    assert (reach F (fd_next_blocks di) (prev_of b)) as Hre by (by exists c).
    pose proof (reach_rank _ _ _ _ _ T Hi Hre). rewrite E in *. lia.
Qed.

(** ** Marking the descendants of a block makes the tree fit again *)
Section descendants.
Context (F F' : gmap Z block_fork_data) (i : Z) (di : block_fork_data) (V : gset Z).
Context (change : block_fork_data -> block_fork_data) (P : block_fork_data -> Prop).
Hypothesis T : fork_tree_but (Some i) B F.
Hypothesis Hi : F !! i = Some di.
Hypothesis HV : forall x, x ∈ V <-> reach F (fd_next_blocks di) x.
Hypothesis HF' : marked change V F F'.
Hypothesis change_shape : forall d, fd_next_blocks (change d) = fd_next_blocks d /\ fd_is_known (change d) = fd_is_known d.
Hypothesis change_reason : forall d, (fork_invalid d = true -> is_Some (fd_invalid_reason d)) ->
  fork_invalid (change d) = true -> is_Some (fd_invalid_reason (change d)).
Hypothesis first : forall c dc, c ∈ fd_next_blocks di -> F !! c = Some dc -> link_ok di (change dc) = true /\ P dc.
Hypothesis next : forall dp dc, P dp -> link_ok dp dc = true -> link_ok (change dp) (change dc) = true /\ P dc.

Lemma marked_lookup_inv x d' : F' !! x = Some d' -> exists d, F !! x = Some d /\ (d' = change d /\ x ∈ V \/ d' = d /\ x ∉ V).
Proof.
  rewrite HF'. case_bool_decide; intros H'.
  - apply fmap_Some in H' as (d & Hd & ->). eauto.
  - exists d'. auto.
Qed.

Lemma marked_lookup_in x d : F !! x = Some d -> x ∈ V -> F' !! x = Some (change d).
Proof. intros Hd Hx. by rewrite HF', bool_decide_eq_true_2, Hd. Qed.

Lemma marked_lookup_out x : x ∉ V -> F' !! x = F !! x.
Proof. intros Hx. by rewrite HF', bool_decide_eq_false_2. Qed.

Lemma fork_tree_marked : fork_tree B F'.
Proof.
  assert (Vk : forall x, x ∈ V -> is_Some (B !! x)) by (intros x Hx%HV; by eapply reach_known).
  split.
  - destruct (ft_root _ _ _ T) as (H0 & H). split; [ done | ]. rewrite marked_lookup_out; [ done | ].
    intros [b Hb]%Vk. congruence.
  - intros id b Hb. destruct (ft_known _ _ _ T _ _ Hb) as (d & dp & Hd & Hdp & Hn & Hk & Hl).
    assert (Hpar : parent B id (prev_of b)) by (by exists b).
    destruct (decide (id ∈ V)) as [Hid|Hid]; destruct (decide (prev_of b ∈ V)) as [Hp|Hp].
    + exists (change d), (change dp). rewrite (marked_lookup_in _ _ Hd Hid), (marked_lookup_in _ _ Hdp Hp).
      destruct (change_shape d) as [_ ->], (change_shape dp) as [-> _]. split_and!; try done. intros _.
      refine (proj1 (next dp d _ (Hl _))).
      { apply (descendants_P F i di P (prev_of b)); [ done | done | | | by apply HV | done ].
        - intros. by eapply first.
        - intros. by eapply next. } intros [= E].
      pose proof (reach_rank _ _ _ _ _ T Hi (proj1 (HV _) Hp)). rewrite E in *. lia.
    + exists (change d), dp. rewrite (marked_lookup_in _ _ Hd Hid), marked_lookup_out by done.
      destruct (change_shape d) as [_ ->]. split_and!; try done. intros _.
      destruct (reach_parent _ _ _ _ _ _ T Hi (proj1 (HV _) Hid) Hpar) as [E|Hr]; [ | by apply HV in Hr ].
      rewrite E in *. simplify_eq. by apply (first id).
    + exfalso. apply Hid, HV. apply (parent_reach _ _ _ _ _ _ T Hi Hpar). right. by apply HV.
    + exists d, dp. rewrite !marked_lookup_out by done. split_and!; try done. intros _. apply Hl.
      intros [= E]. apply Hid, HV. apply (parent_reach _ _ _ _ _ _ T Hi Hpar). by left.
  - intros x d' c Hd' Hc. apply marked_lookup_inv in Hd' as (d & Hd & [[-> _]|[-> _]]);
      [ rewrite (proj1 (change_shape d)) in Hc | ]; by eapply ft_next.
  - intros id d' Hd' HB Hne. apply marked_lookup_inv in Hd' as (d & Hd & [[-> Hx]|[-> _]]);
      [ apply Vk in Hx as [b Hb]; congruence | ]. by eapply ft_placeholder.
  - intros id d' Hd' Hi'. apply marked_lookup_inv in Hd' as (d & Hd & [[-> _]|[-> _]]);
      [ apply change_reason; [ by eapply ft_reason | done ] | by eapply ft_reason ].
Qed.
End descendants.
End tree.
