(* ===== verification/ForkStore.v ===== *)
(** Storing a block in the tree: the records made by [store_and_index] fit the
    blocks, nothing is included by it, and the highest of the blocks that
    become linked is what it returns. *)

From stdpp Require Import relations.
From S2P Require Import Prelude StateMonad Records PendingState ChainDatabase BlockOps Node ForkDb ForkTree.

(** What no step changes of a record, and what it only adds. *)
Definition evolve (d d' : block_fork_data) : Prop :=
  fd_next_blocks d' = fd_next_blocks d /\ fd_is_linked d' = fd_is_linked d /\ fd_is_known d' = fd_is_known d
  /\ (fork_invalid d = true -> fork_invalid d' = true).
Definition evolved (F F' : gmap Z block_fork_data) : Prop :=
  forall x d, F !! x = Some d -> exists d', F' !! x = Some d' /\ evolve d d'.

#[export] Instance evolved_refl : Reflexive evolved.
Proof. intros F x d Hd. by exists d. Qed.

#[export] Instance evolved_trans : Transitive evolved.
Proof.
  intros F1 F2 F3 H H' x d Hd. destruct (H x d Hd) as (d2 & H2 & A1 & A2 & A3 & A4).
  destruct (H' x d2 H2) as (d3 & H3 & ? & ? & ? & ?). exists d3. split; [ done | ]. split_and!; [ congruence.. | auto ].
Qed.

Lemma evolved_insert F i d d' : F !! i = Some d -> evolve d d' -> evolved F (<[i := d']> F).
Proof.
  intros Hd He x dx Hx. destruct (decide (x = i)) as [->|Hne].
  - rewrite lookup_insert_eq. exists d'. split; [ done | ]. by simplify_eq.
  - rewrite lookup_insert_ne by done. by exists dx.
Qed.

Lemma evolved_marked F F' V change : marked change V F F' -> (forall d, evolve d (change d)) -> evolved F F'.
Proof. intros H He x d Hd. rewrite H, Hd. case_bool_decide; simpl; eexists; split; done. Qed.

(** A block that is not known and its record. *)
Definition unchecked (d : block_fork_data) : Prop := fd_is_linked d = false /\ fd_is_valid d = None.

Lemma unchecked_child dp d : unchecked dp -> link_ok dp d = true -> unchecked d.
Proof. unfold unchecked. status dp; status d; simpl; naive_solver. Qed.

Lemma fork_tree_close i di B F :
  fork_tree_but (Some i) B F -> F !! i = Some di ->
  (forall c dc, c ∈ fd_next_blocks di -> F !! c = Some dc -> link_ok di dc = true) -> fork_tree B F.
Proof.
  intros [H1 H2 H3 H4 H5] Hi Hc. split; try done. intros id b Hb.
  destruct (H2 id b Hb) as (d & dp & Hd & Hdp & Hn & Hk & Hl). exists d, dp. split_and!; try done. intros _.
  destruct (decide (i = prev_of b)) as [->|Hne]; [ | apply Hl; congruence ]. simplify_eq. by apply (Hc id).
Qed.

(** ** The record of the new block and of its parent *)
Section store.
Context (B : gmap Z full_block) (F : gmap Z block_fork_data) (id : Z) (b : full_block) (rank : Z -> nat).
Hypothesis T : fork_tree B F.
Hypothesis Hrank : ranked rank (<[id := b]> B).
Hypothesis Hnew : B !! id = None.
Hypothesis Hid : id <> 0.

Definition parent_record : block_fork_data := default fork_data_default (F !! prev_of b).
Definition own_record : block_fork_data := default fork_data_default (F !! id).
Definition with_records (cur : block_fork_data) : gmap Z block_fork_data :=
  <[id := cur]> (<[prev_of b := set_fd_next ({[ id ]} ∪ fd_next_blocks parent_record) parent_record]> F).

Lemma new_rank : (rank (prev_of b) < rank id)%nat.
Proof. apply Hrank. by rewrite lookup_insert_eq. Qed.

Lemma parent_neq : id <> prev_of b.
Proof. intros E. pose proof new_rank as H. rewrite <- E in H. lia. Qed.

Lemma old_known x b' : B !! x = Some b' -> <[id := b]> B !! x = Some b'.
Proof. intros H. rewrite lookup_insert_ne; congruence. Qed.

Lemma old_parent x y : parent B x y -> parent (<[id := b]> B) x y.
Proof. intros (b' & Hb & <-). exists b'. split; [ by apply old_known | done ]. Qed.

Lemma own_unchecked : unchecked own_record.
Proof.
  unfold own_record. destruct (F !! id) as [d|] eqn:E; [ | done ]. destruct (ft_placeholder _ _ _ T _ _ E Hnew Hid) as (? & ? & _).
  done.
Qed.

Lemma parent_record_cases :
  F !! prev_of b = Some parent_record \/ F !! prev_of b = None /\ parent_record = fork_data_default.
Proof. unfold parent_record. destruct (F !! prev_of b); auto. Qed.

Lemma with_records_other cur x : x <> id -> x <> prev_of b -> with_records cur !! x = F !! x.
Proof. intros. unfold with_records. by rewrite !lookup_insert_ne. Qed.

Lemma with_records_own cur : with_records cur !! id = Some cur.
Proof. apply lookup_insert_eq. Qed.

Lemma with_records_parent cur :
  with_records cur !! prev_of b = Some (set_fd_next ({[ id ]} ∪ fd_next_blocks parent_record) parent_record).
Proof. unfold with_records. rewrite lookup_insert_ne by apply parent_neq. apply lookup_insert_eq. Qed.

(** A block seen before keeps its record, up to the set of its children. *)
Lemma with_records_old cur x d :
  x <> id -> F !! x = Some d -> exists s, with_records cur !! x = Some (set_fd_next s d) /\ fd_next_blocks d ⊆ s
    /\ (forall c, c ∈ s -> c ∈ fd_next_blocks d \/ c = id /\ x = prev_of b).
Proof.
  intros Hne Hd. destruct (decide (x = prev_of b)) as [->|Hp].
  - assert (parent_record = d) as E by (unfold parent_record; by rewrite Hd). rewrite with_records_parent, E.
    eexists. split_and!; [ done | set_solver | ]. intros c. rewrite elem_of_union, elem_of_singleton. intros [->|?]; auto.
  - exists (fd_next_blocks d). rewrite with_records_other by done. split_and!; [ | done | auto ]. rewrite Hd. by destruct d.
Qed.

Section records.
Context (cur : block_fork_data).
Hypothesis cur_next : fd_next_blocks cur = fd_next_blocks own_record.
Hypothesis cur_known : fd_is_known cur = true.
Hypothesis cur_link : link_ok parent_record cur = true.
Hypothesis cur_reason : fork_invalid cur = true -> is_Some (fd_invalid_reason cur).

(** A record of the new tree. *)
Lemma with_records_inv x d :
  with_records cur !! x = Some d ->
  x = id /\ d = cur \/ x = prev_of b /\ x <> id /\ d = set_fd_next ({[ id ]} ∪ fd_next_blocks parent_record) parent_record
  \/ x <> id /\ x <> prev_of b /\ F !! x = Some d.
Proof.
  destruct (decide (x = id)) as [->|Hne]; [ rewrite with_records_own; intros; simplify_eq; auto | ].
  destruct (decide (x = prev_of b)) as [->|Hp]; [ rewrite with_records_parent; intros; simplify_eq; auto | ].
  rewrite with_records_other by done. auto.
Qed.

Lemma children_of_own c : c ∈ fd_next_blocks cur -> exists b' dc, B !! c = Some b' /\ prev_of b' = id /\ F !! c = Some dc
  /\ c <> id /\ c <> prev_of b /\ unchecked dc.
Proof.
  rewrite cur_next. unfold own_record. destruct (F !! id) as [d|] eqn:E; simpl; [ | set_solver ]. intros Hc.
  destruct (ft_next _ _ _ T _ _ _ E Hc) as (b' & Hb' & Hp'). destruct (ft_known _ _ _ T _ _ Hb') as (dc & dp & Hdc & Hdp & _ & _ & Hl).
  exists b', dc. rewrite Hp' in Hdp. simplify_eq. split_and!; try done.
  - congruence.
  - intros ->. pose proof (Hrank _ _ (old_known _ _ Hb')) as R. pose proof new_rank. rewrite Hp' in R. lia.
  - apply (unchecked_child d); [ pose proof own_unchecked as Ho; unfold own_record in Ho; by rewrite E in Ho | by apply Hl ].
Qed.

Lemma fork_tree_stored : fork_tree_but (Some id) (<[id := b]> B) (with_records cur).
Proof.
  split.
  - destruct (ft_root _ _ _ T) as (H0 & d & Hd & ? & ?). rewrite lookup_insert_ne by done. split; [ done | ].
    destruct (with_records_old cur 0 d) as (s & -> & _); [ congruence | done | ]. by exists (set_fd_next s d).
  - intros x b' Hb'. destruct (decide (x = id)) as [->|Hne].
    + rewrite lookup_insert_eq in Hb'. simplify_eq. exists cur, (set_fd_next ({[ id ]} ∪ fd_next_blocks parent_record) parent_record).
      rewrite with_records_own, with_records_parent. split_and!; try done. set_solver.
    + rewrite lookup_insert_ne in Hb' by done. destruct (ft_known _ _ _ T _ _ Hb') as (d & dp & Hd & Hdp & Hn & Hk & Hl).
      destruct (with_records_old cur x d Hne Hd) as (s & Hs & _). exists (set_fd_next s d).
      destruct (decide (prev_of b' = id)) as [Ep|Ep].
      * exists cur. rewrite Ep, with_records_own. split_and!; try done.
        rewrite cur_next. unfold own_record. rewrite <- Ep, Hdp. done.
      * destruct (with_records_old cur _ dp Ep Hdp) as (s' & Hs' & Hsub & _). exists (set_fd_next s' dp).
        split_and!; try done; [ set_solver | ]. intros _. by apply Hl.
  - intros x d c Hd Hc. apply with_records_inv in Hd as [[-> ->]|[(-> & _ & ->)|(Hne & _ & Hd)]].
    + apply children_of_own in Hc as (b' & _ & Hb' & Hp' & _). exists b'. split; [ by apply old_known | done ].
    + simpl in Hc. apply elem_of_union in Hc as [->%elem_of_singleton|Hc]; [ exists b; by rewrite lookup_insert_eq | ].
      destruct parent_record_cases as [Hp|[_ E]]; [ | rewrite E in Hc; set_solver ].
      apply old_parent. by eapply ft_next.
    + apply old_parent. by eapply ft_next.
  - intros x d Hd Hx H0. apply with_records_inv in Hd as [[-> ->]|[(-> & Hne & ->)|(Hne & _ & Hd)]].
    + by rewrite lookup_insert_eq in Hx.
    + rewrite lookup_insert_ne in Hx by done. destruct parent_record_cases as [Hp|[_ ->]].
      * destruct (ft_placeholder _ _ _ T _ _ Hp Hx H0) as (? & ? & ? & ? & ?). split_and!; try done. simpl. set_solver.
      * split_and!; try done. simpl. set_solver.
    + rewrite lookup_insert_ne in Hx by done. by eapply ft_placeholder.
  - intros x d Hd Hx. apply with_records_inv in Hd as [[-> ->]|[(-> & _ & ->)|(_ & _ & Hd)]]; [ auto | | by eapply ft_reason ].
    destruct parent_record_cases as [Hp|[_ E]]; [ exact (ft_reason _ _ _ T _ _ Hp Hx) | by rewrite E in Hx ].
Qed.
End records.
End store.

(** ** Marking with [recursive_mark_as_linked] and [recursive_mark_as_invalid] *)

(** The highest of the blocks [V]. *)
Definition highest_of (B : gmap Z full_block) (F : gmap Z block_fork_data) (V : gset Z)
    (best : Z * (Z * block_fork_data)) : Prop :=
  0 <= best.1 /\ (forall x bx, x ∈ V -> B !! x = Some bx -> num_of bx <= best.1)
  /\ (best = (0, (0, fork_data_default))
      \/ exists x bx d, x ∈ V /\ B !! x = Some bx /\ F !! x = Some d /\ best = (num_of bx, (x, set_fd_linked true d))).

Section marks.
Context (B : gmap Z full_block) (rank : Z -> nat) (ex : option Z) (n : node) (i : Z) (di : block_fork_data).
Hypothesis Hrank : ranked rank B.
Hypothesis HB : nd_blocks n = B.
Hypothesis T : fork_tree_but ex B (nd_fork n).
Hypothesis Hi : nd_fork n !! i = Some di.

Lemma tree_next_known id d c : nd_fork n !! id = Some d -> c ∈ fd_next_blocks d -> is_Some (B !! c).
Proof. intros Hd Hc. destruct (ft_next _ _ _ T _ _ _ Hd Hc) as (b & Hb & _). eauto. Qed.

Lemma tree_next_rank id d c : nd_fork n !! id = Some d -> c ∈ fd_next_blocks d -> (rank id < rank c)%nat.
Proof. intros Hd Hc. by eapply parent_rank, ft_next. Qed.

Lemma tree_block_fork id : is_Some (B !! id) -> is_Some (nd_fork n !! id).
Proof. intros [b Hb]. destruct (ft_known _ _ _ T _ _ Hb) as (d & _ & Hd & _). eauto. Qed.

Lemma keep_highest_seen id b d best V n' :
  nd_blocks n' = B -> B !! id = Some b -> nd_fork n !! id = Some d -> highest_of B (nd_fork n) V best ->
  exists best', keep_highest id (set_fd_linked true d) best n' = (n', Ok best') /\ highest_of B (nd_fork n) ({[ id ]} ∪ V) best'.
Proof.
  intros HB' Hb Hd (H0 & Hmax & Hin). unfold keep_highest, nbind, nread, get_block. rewrite HB', Hb. cbn [from_option_or].
  eexists. split; [ reflexivity | ]. fold (num_of b). destruct (Z.ltb_spec best.1 (num_of b)) as [Hlt|Hge]; split_and!; simpl.
  - lia.
  - intros x bx [->%elem_of_singleton|Hx]%elem_of_union Hbx; [ simplify_eq; lia | ]. specialize (Hmax x bx Hx Hbx). lia.
  - right. exists id, b, d. split_and!; try done. set_solver.
  - done.
  - intros x bx [->%elem_of_singleton|Hx]%elem_of_union Hbx; [ simplify_eq; lia | by apply (Hmax x bx) ].
  - destruct Hin as [?|(x & bx & dx & ? & ?)]; [ by left | right ]. exists x, bx, dx. split; [ set_solver | done ].
Qed.

Lemma recursive_mark_as_linked_spec :
  exists F' best V, recursive_mark_as_linked (fd_next_blocks di) n = (set_nd_fork F' n, Ok best.2)
    /\ marked (set_fd_linked true) V (nd_fork n) F' /\ (forall x, x ∈ V <-> reach (nd_fork n) (fd_next_blocks di) x)
    /\ highest_of B (nd_fork n) V best.
Proof.
  destruct (mark_descendants_spec (set_fd_linked true) keep_highest (fun _ => eq_refl) (fun _ => eq_refl)
    (nd_fork n) B rank tree_next_known tree_next_rank tree_block_fork (highest_of B (nd_fork n)) keep_highest_seen
    (fd_next_blocks di) n (0, (0, fork_data_default))) as (F' & best & V & E & HF' & Hh & HV); [ done | done | | | ].
  - split_and!; [ done | set_solver | by left ].
  - intros c Hc. by eapply tree_next_known.
  - exists F', best, V. split_and!; try done. unfold recursive_mark_as_linked. by rewrite (nbind_ok _ _ _ _ _ E).
Qed.

Lemma recursive_mark_as_invalid_spec reason :
  exists F' V, recursive_mark_as_invalid (fd_next_blocks di) reason n = (set_nd_fork F' n, Ok tt)
    /\ marked (set_fd_valid (Some false) (Some reason)) V (nd_fork n) F'
    /\ (forall x, x ∈ V <-> reach (nd_fork n) (fd_next_blocks di) x).
Proof.
  destruct (mark_descendants_spec (set_fd_valid (Some false) (Some reason)) (fun _ _ (a : unit) => nret a) (fun _ => eq_refl)
    (fun _ => eq_refl) (nd_fork n) B rank tree_next_known tree_next_rank tree_block_fork (fun _ _ => True))
    with (ids := fd_next_blocks di) (n := n) (a := tt) as (F' & [] & V & E & HF' & _ & HV); try done.
  - intros. eexists. split; done.
  - intros c Hc. by eapply tree_next_known.
  - by exists F', V.
Qed.
End marks.

(** ** [store_and_index] *)

(** Known blocks have positive numbers, greater than that of their parent. *)
Definition numbered (B : gmap Z full_block) : Prop :=
  forall id b, B !! id = Some b -> 0 < num_of b /\ forall p, B !! prev_of b = Some p -> num_of p < num_of b.

(** What storing [b] makes of the records [F]; [longest] is returned. *)
Record stored (B : gmap Z full_block) (F : gmap Z block_fork_data) (id : Z) (b : full_block)
    (F' : gmap Z block_fork_data) (longest : Z * block_fork_data) : Prop := {
  st_tree : fork_tree (<[id := b]> B) F';
  st_old : forall x d, F !! x = Some d -> exists d', F' !! x = Some d' /\ fd_is_included d' = fd_is_included d
    /\ (fd_is_valid d = Some true -> fd_is_valid d' = Some true) /\ (fd_is_linked d = true -> fd_is_linked d' = true);
  st_included : forall x d', F' !! x = Some d' -> fd_is_included d' = true ->
    exists d, F !! x = Some d /\ fd_is_included d = true;
  st_longest : numbered (<[id := b]> B) -> forall x bx d', <[id := b]> B !! x = Some bx -> F' !! x = Some d' ->
    can_link d' = true -> (exists d, F !! x = Some d /\ B !! x = Some bx /\ can_link d = true)
      \/ can_link longest.2 = true /\ exists bl, <[id := b]> B !! longest.1 = Some bl /\ num_of bx <= num_of bl }.

Section storing.
Context (B : gmap Z full_block) (F : gmap Z block_fork_data) (id : Z) (b : full_block) (rank : Z -> nat).
Hypothesis T : fork_tree B F.
Hypothesis Hrank : ranked rank (<[id := b]> B).
Hypothesis Hnew : B !! id = None.
Hypothesis Hid : id <> 0.
Context (cur : block_fork_data).
Hypothesis cur_next : fd_next_blocks cur = fd_next_blocks (own_record F id).
Hypothesis cur_known : fd_is_known cur = true.
Hypothesis cur_included : fd_is_included cur = false.
Hypothesis cur_link : link_ok (parent_record F b) cur = true.
Hypothesis cur_reason : fork_invalid cur = true -> is_Some (fd_invalid_reason cur).

Let F2 := with_records F id b cur.

Lemma stored_tree : fork_tree_but (Some id) (<[id := b]> B) F2.
Proof. by eapply fork_tree_stored. Qed.

Context (F' : gmap Z block_fork_data) (V : gset Z) (change : block_fork_data -> block_fork_data).
Hypothesis HF' : marked change V F2 F'.
Hypothesis HV : forall x, x ∈ V -> reach F2 (fd_next_blocks cur) x.
Hypothesis change_included : forall d, fd_is_included (change d) = fd_is_included d.
Hypothesis change_linked : forall d, fd_is_linked d = true -> fd_is_linked (change d) = true.

Lemma first_unchecked c dc : c ∈ fd_next_blocks cur -> F2 !! c = Some dc -> unchecked dc.
Proof.
  intros Hc Hdc. destruct (children_of_own B F id b rank T Hrank Hnew Hid cur cur_next c Hc) as (b' & d & _ & _ & Hd & ? & ? & Hu).
  unfold F2 in Hdc. rewrite with_records_other in Hdc by done. by simplify_eq.
Qed.

Lemma stored_visited x : x ∈ V -> x <> id /\ exists bx d, B !! x = Some bx /\ F2 !! x = Some d /\ unchecked d.
Proof.
  intros Hx%HV. assert (Hown : F2 !! id = Some cur) by apply with_records_own.
  pose proof (reach_rank _ _ Hrank _ _ _ _ _ stored_tree Hown Hx) as Hr.
  assert (Hne : x <> id) by (intros ->; lia). split; [ done | ].
  destruct (reach_known _ _ _ _ _ _ stored_tree Hown Hx) as [bx Hbx].
  destruct (ft_known _ _ _ stored_tree x bx Hbx) as (d & _ & Hd & _).
  rewrite lookup_insert_ne in Hbx by done. exists bx, d. split_and!; try done.
  apply (descendants_P _ _ Hrank F2 id cur unchecked x d stored_tree Hown first_unchecked unchecked_child Hx Hd).
Qed.

(** A block seen before: its record has more children, or is marked. *)
Lemma stored_lookup x d : x <> id -> F !! x = Some d ->
  exists s, F2 !! x = Some (set_fd_next s d)
    /\ F' !! x = Some (if bool_decide (x ∈ V) then change (set_fd_next s d) else set_fd_next s d).
Proof.
  intros Hne Hd. destruct (with_records_old B F id b rank T Hrank Hnew Hid cur x d Hne Hd) as (s & Hs & _). exists s.
  split; [ done | ]. rewrite HF'. unfold F2. rewrite Hs. by case_bool_decide.
Qed.

Lemma stored_own : F' !! id = Some cur.
Proof.
  rewrite HF', bool_decide_eq_false_2; [ apply with_records_own | ]. intros Hx%stored_visited. tauto.
Qed.

Lemma stored_keeps x d : F !! x = Some d -> exists d', F' !! x = Some d' /\ fd_is_included d' = fd_is_included d
    /\ (fd_is_valid d = Some true -> fd_is_valid d' = Some true) /\ (fd_is_linked d = true -> fd_is_linked d' = true).
Proof.
  intros Hd. destruct (decide (x = id)) as [->|Hne].
  - exists cur. rewrite stored_own. destruct (ft_placeholder _ _ _ T _ _ Hd Hnew Hid) as (E1 & E2 & E3 & _).
    rewrite E1, E2, E3. split_and!; done.
  - destruct (stored_lookup x d Hne Hd) as (s & Hs & ->). eexists. split; [ reflexivity | ].
    case_bool_decide as Hx; [ | done ]. rewrite change_included. split_and!; try done.
    + destruct (stored_visited x Hx) as (_ & _ & d2 & _ & Hd2 & _ & Hu). rewrite Hs in Hd2. simplify_eq. simpl in Hu. congruence.
    + intros ?. by apply change_linked.
Qed.

Lemma stored_includes x d' : F' !! x = Some d' -> fd_is_included d' = true -> exists d, F !! x = Some d /\ fd_is_included d = true.
Proof.
  intros Hd' Hi'. destruct (decide (x = id)) as [->|Hne]; [ rewrite stored_own in Hd'; simplify_eq; congruence | ].
  assert (exists d2, F2 !! x = Some d2 /\ fd_is_included d2 = true) as (d2 & Hd2 & Hi2).
  { rewrite HF' in Hd'. case_bool_decide; [ | eauto ]. apply fmap_Some in Hd' as (d2 & ? & ->).
    rewrite change_included in Hi'. eauto. }
  apply (with_records_inv B F id b rank) in Hd2 as [[-> _]|[(-> & _ & ->)|(_ & _ & ?)]]; try done; [ | eauto ].
  destruct (parent_record_cases F b) as [Hp|[_ E]]; [ eauto | by rewrite E in Hi2 ].
Qed.

(** What is left to know for the result: the record of the new block and
    those that are marked. *)
Lemma stored_of longest :
  fork_tree (<[id := b]> B) F' ->
  (numbered (<[id := b]> B) -> can_link cur = true -> can_link longest.2 = true
    /\ exists bl, <[id := b]> B !! longest.1 = Some bl /\ num_of b <= num_of bl) ->
  (numbered (<[id := b]> B) -> forall x bx d, x ∈ V -> B !! x = Some bx -> F2 !! x = Some d -> can_link (change d) = true ->
    can_link longest.2 = true /\ exists bl, <[id := b]> B !! longest.1 = Some bl /\ num_of bx <= num_of bl) ->
  stored B F id b F' longest.
Proof.
  intros HT Hcur HVl. split; [ done | apply stored_keeps | apply stored_includes | ].
  intros Hnum x bx d' Hbx Hd' Hc. destruct (decide (x = id)) as [->|Hne].
  - rewrite stored_own in Hd'. rewrite lookup_insert_eq in Hbx. simplify_eq. right. by apply Hcur.
  - rewrite lookup_insert_ne in Hbx by done. destruct (ft_known _ _ _ T _ _ Hbx) as (d & _ & Hd & _).
    destruct (stored_lookup x d Hne Hd) as (s & Hs & E). rewrite E in Hd'. simplify_eq. case_bool_decide as Hx.
    + right. by eapply (HVl Hnum x).
    + left. by exists d.
Qed.
End storing.

(** The node with the new block among its blocks. *)
Definition stored_node (id : Z) (b : full_block) (n : node) : node :=
  set_nd_fork_number (<[num_of b := fetch_blocks_at_number (num_of b) n ++ [id]]> (nd_fork_number n))
    (set_nd_blocks (<[id := b]> (nd_blocks n)) n).

Definition store_result (id : Z) (b : full_block) (n : node) (F' : gmap Z block_fork_data) (longest : Z * block_fork_data)
    : Prop :=
  store_and_index id b n = (set_nd_fork F' (stored_node id b n), Ok longest)
  /\ stored (nd_blocks n) (nd_fork n) id b F' longest.

Section storing_node.
Context (id : Z) (b : full_block) (n : node) (rank : Z -> nat).
Hypothesis T : fork_tree (nd_blocks n) (nd_fork n).
Hypothesis Hrank : ranked rank (<[id := b]> (nd_blocks n)).
Hypothesis Hnew : nd_blocks n !! id = None.
Hypothesis Hid : id <> 0.

Abbreviation pf := (parent_record (nd_fork n) b).
Abbreviation own := (own_record (nd_fork n) id).
Abbreviation rebuilt cur := (set_nd_fork (with_records (nd_fork n) id b cur) (stored_node id b n)).

(** The record of the new block. *)
Definition new_record : block_fork_data :=
  match nd_fork n !! id with
  | Some current => if fd_is_linked pf then inherit_fork pf (set_fd_linked true (set_fd_known true current))
                    else set_fd_known true current
  | None => inherit_fork pf (set_fd_linked (fd_is_linked pf) (set_fd_known true fork_data_default))
  end.

Lemma new_record_facts :
  fd_next_blocks new_record = fd_next_blocks own /\ fd_is_known new_record = true /\ fd_is_included new_record = false
  /\ link_ok pf new_record = true /\ (fork_invalid new_record = true -> is_Some (fd_invalid_reason new_record)).
Proof.
  assert (Hr : fork_invalid pf = true -> is_Some (fd_invalid_reason pf)).
  { destruct (parent_record_cases (nd_fork n) b) as [E|[_ ->]]; [ by apply (ft_reason _ _ _ T _ _ E) | done ]. }
  unfold new_record, own_record. revert Hr. generalize pf. intros p Hr.
  destruct (nd_fork n !! id) as [o|] eqn:E; simpl.
  - destruct (ft_placeholder _ _ _ T _ _ E Hnew Hid) as (Hl & Hv & Hi & _). clear E. revert Hr Hl Hv Hi.
    status p; status o; simpl; intros; try done; split_and!; auto.
  - revert Hr. status p; simpl; intros; try done; split_and!; auto.
Qed.

(** The steps up to the record of the new block. *)
Lemma store_and_index_run :
  store_and_index id b n =
    match nd_fork n !! id with
    | Some _ =>
        if fd_is_linked pf then
          if fork_invalid pf then
            (reason <~ nread (fun _ => from_option_or undefined_behaviour (fd_invalid_reason pf)) ;;
             _ <~ recursive_mark_as_invalid (fd_next_blocks new_record) reason ;;
             nret (id, new_record)) (rebuilt new_record)
          else recursive_mark_as_linked (fd_next_blocks new_record) (rebuilt new_record)
        else (rebuilt new_record, Ok (id, new_record))
    | None => (rebuilt new_record, Ok (id, new_record))
    end.
Proof.
  assert (Hne : id <> prev_of b) by by eapply parent_neq.
  unfold store_and_index, fork_store, nbind, nwrite, nread, nret, new_record, with_records.
  cbn [nd_fork set_nd_fork_number set_nd_blocks].
  change (match nd_fork n !! bh_previous (fb_header b) with Some d => d | None => set_fd_linked false fork_data_default end)
    with (match nd_fork n !! prev_of b with Some d => d | None => fork_data_default end).
  replace (match nd_fork n !! prev_of b with Some d => d | None => fork_data_default end) with pf
    by (unfold parent_record; by destruct (nd_fork n !! prev_of b)).
  fold (prev_of b). cbn [nd_fork set_nd_fork set_nd_fork_number set_nd_blocks].
  rewrite lookup_insert_ne by done. destruct (nd_fork n !! id) as [o|]; [ | done ].
  cbn [fd_is_linked set_fd_next]. destruct (fd_is_linked pf); [ | done ].
  change (fork_invalid (set_fd_next ({[ id ]} ∪ fd_next_blocks pf) pf)) with (fork_invalid pf).
  destruct (fork_invalid pf); [ | done ]. change (fd_invalid_reason (set_fd_next ({[ id ]} ∪ fd_next_blocks pf) pf)) with (fd_invalid_reason pf).
  by destruct (from_option_or undefined_behaviour (fd_invalid_reason pf)).
Qed.

Lemma rebuilt_tree : fork_tree_but (Some id) (nd_blocks (rebuilt new_record)) (nd_fork (rebuilt new_record)).
Proof. destruct new_record_facts as (H1 & H2 & H3 & H4 & H5). by eapply stored_tree. Qed.

(** No block becomes linked but perhaps the new one, which has no children
    or stays unlinked. *)
Lemma store_alone :
  store_and_index id b n = (rebuilt new_record, Ok (id, new_record)) ->
  (fd_next_blocks new_record = ∅ \/ unchecked new_record) ->
  store_result id b n (with_records (nd_fork n) id b new_record) (id, new_record).
Proof.
  intros E Hc. destruct new_record_facts as (H1 & H2 & H3 & H4 & H5). split; [ exact E | ].
  assert (HF : forall c dc, c ∈ fd_next_blocks new_record -> with_records (nd_fork n) id b new_record !! c = Some dc -> unchecked dc)
    by (intros; by eapply first_unchecked).
  apply (stored_of (nd_blocks n) (nd_fork n) id b rank T Hrank Hnew Hid new_record H1 H2 H3 H4 H5 _ ∅ (fun d => d));
    try done.
  - eapply fork_tree_close; [ apply rebuilt_tree | apply with_records_own | ]. intros c dc Hc' Hdc.
    destruct Hc as [Hn|Hu]; [ rewrite Hn in Hc'; set_solver | ]. specialize (HF c dc Hc' Hdc). revert Hu HF.
    generalize new_record. intros d. status d; status dc; unfold unchecked; simpl; naive_solver.
  - intros _ Hl. split; [ done | ]. exists b. simpl. rewrite lookup_insert_eq. split; [ done | lia ].
Qed.

Lemma store_under_invalid d : nd_fork n !! id = Some d -> fd_is_linked pf = true -> fork_invalid pf = true ->
  exists F', store_result id b n F' (id, new_record).
Proof.
  intros Hd Hl Hi. destruct new_record_facts as (H1 & H2 & H3 & H4 & H5).
  assert (Hni : fd_is_linked new_record = true /\ fork_invalid new_record = true).
  { unfold new_record. rewrite Hd, Hl. unfold inherit_fork. by rewrite Hi. }
  destruct (recursive_mark_as_invalid_spec (<[id := b]> (nd_blocks n)) rank (Some id) (rebuilt new_record) id new_record
    Hrank eq_refl rebuilt_tree (with_records_own _ _ _ _) (default undefined_behaviour (fd_invalid_reason pf)))
    as (F' & V & E & HF' & HV).
  assert (HV' : forall x, x ∈ V -> reach (with_records (nd_fork n) id b new_record) (fd_next_blocks new_record) x)
    by (intros x; apply HV).
  exists F'. split.
  - rewrite store_and_index_run, Hd, Hl, Hi.
    destruct (parent_record_cases (nd_fork n) b) as [Ep|[_ Ep]]; [ | by rewrite Ep in Hl ].
    destruct (ft_reason _ _ _ T _ _ Ep Hi) as [r Er]. rewrite Er in *. cbn [from_option_or default] in *.
    unfold nbind at 1, nread. by rewrite (nbind_ok _ _ _ _ _ E).
  - apply (stored_of (nd_blocks n) (nd_fork n) id b rank T Hrank Hnew Hid new_record H1 H2 H3 H4 H5 F' V _ HF' HV'); try done.
    + eapply (fork_tree_marked _ _ Hrank _ F' id new_record V _ unchecked rebuilt_tree (with_records_own _ _ _ _) HV HF'); try done.
      * intros c dc Hc Hdc. split; [ | by eapply first_unchecked ]. revert Hni. generalize new_record. intros r [Hr1 Hr2].
        assert (Hu : unchecked dc) by by eapply first_unchecked. revert Hr1 Hr2 Hu.
        status r; status dc; unfold unchecked; simpl; naive_solver.
      * intros dp dc Hu Hk. split; [ by apply link_ok_invalid | by eapply unchecked_child ].
    + intros _ Hc. unfold can_link in Hc. rewrite (proj2 Hni), andb_false_r in Hc. done.
    + intros _ x bx dx _ _ _ Hc. unfold can_link in Hc. by rewrite andb_false_r in Hc.
Qed.

Lemma store_linking d : nd_fork n !! id = Some d -> fd_is_linked pf = true -> fork_invalid pf = false ->
  exists F' longest, store_result id b n F' longest.
Proof.
  intros Hd Hl Hi. destruct new_record_facts as (H1 & H2 & H3 & H4 & H5).
  destruct (ft_placeholder _ _ _ T _ _ Hd Hnew Hid) as (Hul & Huv & _ & _ & Hne).
  assert (Hni : fd_is_linked new_record = true /\ fd_is_valid new_record = None /\ fd_next_blocks new_record = fd_next_blocks d).
  { unfold new_record. rewrite Hd, Hl. unfold inherit_fork. by rewrite Hi. }
  destruct (recursive_mark_as_linked_spec (<[id := b]> (nd_blocks n)) rank (Some id) (rebuilt new_record) id new_record
    Hrank eq_refl rebuilt_tree (with_records_own _ _ _ _)) as (F' & best & V & E & HF' & HV & H0 & Hmax & Hin).
  assert (HV' : forall x, x ∈ V -> reach (with_records (nd_fork n) id b new_record) (fd_next_blocks new_record) x)
    by (intros x; apply HV).
  pose proof (stored_visited (nd_blocks n) (nd_fork n) id b rank T Hrank Hnew Hid new_record H1 H2 H4 H5 V HV') as Hvis.
  assert (Hbest : numbered (<[id := b]> (nd_blocks n)) -> forall x bx, x ∈ V -> nd_blocks n !! x = Some bx ->
    can_link best.2.2 = true /\ exists bl, <[id := b]> (nd_blocks n) !! best.2.1 = Some bl /\ num_of bx <= num_of bl).
  { intros Hnum x bx Hx Hbx. specialize (Hmax x bx Hx (old_known _ _ _ Hnew _ _ Hbx)).
    destruct (Hnum x bx (old_known _ _ _ Hnew _ _ Hbx)) as [Hpos _].
    destruct Hin as [->|(y & bl & dl & Hy & Hbl & Hdl & ->)]; [ simpl in Hmax; lia | ]. simpl in *.
    destruct (Hvis y Hy) as (_ & _ & d2 & _ & Hd2 & _ & Hu). rewrite Hd2 in Hdl. simplify_eq.
    split; [ unfold can_link, fork_invalid; simpl; by rewrite Hu | eauto ]. }
  exists F', best.2. split; [ by rewrite store_and_index_run, Hd, Hl, Hi | ].
  apply (stored_of (nd_blocks n) (nd_fork n) id b rank T Hrank Hnew Hid new_record H1 H2 H3 H4 H5 F' V _ HF' HV'); try done.
  - eapply (fork_tree_marked _ _ Hrank _ F' id new_record V _ unchecked rebuilt_tree (with_records_own _ _ _ _) HV HF'); try done.
    + intros c dc Hc Hdc. assert (Hu : unchecked dc) by by eapply first_unchecked. split; [ | done ].
      revert Hni Hu. generalize new_record. intros r (Hr1 & Hr2 & _). revert Hr1 Hr2.
      status r; status dc; unfold unchecked; simpl; naive_solver.
    + intros dp dc Hu Hk. assert (Hu' : unchecked dc) by by eapply unchecked_child. split; [ | done ].
      revert Hu Hu'. status dp; status dc; unfold unchecked; simpl; naive_solver.
  - intros Hnum _. apply set_choose_L in Hne as [c Hc].
    destruct (children_of_own (nd_blocks n) (nd_fork n) id b rank T Hrank Hnew Hid new_record H1 c) as (bc & _ & Hbc & Hp & _).
    { by rewrite (proj2 (proj2 Hni)). }
    assert (c ∈ V) as HcV by (apply HV; exists c; split; [ by rewrite (proj2 (proj2 Hni)) | done ]).
    destruct (Hbest Hnum c bc HcV Hbc) as (? & bl & Hbl & ?). split; [ done | ]. exists bl. split; [ done | ].
    destruct (Hnum c bc (old_known _ _ _ Hnew _ _ Hbc)) as [_ Hpn]. rewrite Hp in Hpn.
    specialize (Hpn b (lookup_insert_eq _ _ _)). lia.
  - intros Hnum x bx dx Hx Hbx _ _. by apply Hbest with (x := x).
Qed.

Lemma store_and_index_spec : exists F' longest, store_result id b n F' longest.
Proof.
  destruct (nd_fork n !! id) as [d|] eqn:Hd.
  - destruct (fd_is_linked pf) eqn:Hl; [ destruct (fork_invalid pf) eqn:Hi | ].
    + destruct (store_under_invalid d Hd Hl Hi) as [F' H]. by exists F', (id, new_record).
    + by eapply store_linking.
    + eexists _, _. apply store_alone; [ by rewrite store_and_index_run, Hd, Hl | right ].
      unfold new_record. rewrite Hd, Hl. destruct (ft_placeholder _ _ _ T _ _ Hd Hnew Hid) as (? & ? & _). by split.
  - eexists _, _. apply store_alone; [ by rewrite store_and_index_run, Hd | left ].
    destruct new_record_facts as [-> _]. unfold own_record. by rewrite Hd.
Qed.
End storing_node.
