(* ===== verification/NodeTree.v ===== *)
(** A node whose records fit its blocks and whose head is on the tree, and
    that the steps of switching forks keep it so: extending the chain with a
    block, popping one, and walking to the block that two forks share. *)

From stdpp Require Import relations.
From S2P Require Import Prelude StateMonad Asset Records ChainInterface Transaction PendingState ChainDatabase BlockOps Node ForkDb ForkTree.
From S2P Require Import ForkStore.

(** Numbers that [pop_block] can pop. *)
Definition positive (B : gmap Z full_block) : Prop := forall id b, B !! id = Some b -> num_of b <> 0.

(** The part of a node that the tree is about. *)
Record same_tree (n n' : node) : Prop := {
  same_blocks : nd_blocks n' = nd_blocks n;
  same_fork : nd_fork n' = nd_fork n;
  same_numbers : nd_fork_number n' = nd_fork_number n;
  same_head : nd_head_id n' = nd_head_id n;
  same_header : nd_head_header n' = nd_head_header n;
  same_head_num : db_head_num (nd_db n') = db_head_num (nd_db n) }.

#[export] Instance same_tree_refl : Reflexive same_tree.
Proof. by split. Qed.

(** The blocks of [n'] are those of [n], its records have evolved. *)
Record grown (n n' : node) : Prop := {
  gr_blocks : nd_blocks n' = nd_blocks n;
  gr_numbers : nd_fork_number n' = nd_fork_number n;
  gr_fork : evolved (nd_fork n) (nd_fork n') }.

#[export] Instance grown_refl : Reflexive grown.
Proof. by split. Qed.

#[export] Instance grown_trans : Transitive grown.
Proof. intros n1 n2 n3 [E1 E2 E3] [E4 E5 E6]. split; [ congruence.. | by etrans ]. Qed.

Lemma same_tree_grown n n' : same_tree n n' -> grown n n'.
Proof. intros [E1 E2 E3 _ _ _]. split; [ done.. | by rewrite E2 ]. Qed.

(** Blocks that can be linked still can. *)
Definition kept (n n' : node) : Prop :=
  forall x d, nd_fork n !! x = Some d -> can_link d = true -> exists d', nd_fork n' !! x = Some d' /\ can_link d' = true.

Lemma kept_refl n : kept n n.
Proof. intros x d Hd Hc. by exists d. Qed.

Lemma kept_trans n1 n2 n3 : kept n1 n2 -> kept n2 n3 -> kept n1 n3.
Proof. intros H H' x d Hd Hc. destruct (H x d Hd Hc) as (d2 & H2 & Hc2). by apply (H' x d2). Qed.

Definition invalid_in (n : node) (id : Z) : Prop := exists d, nd_fork n !! id = Some d /\ fork_invalid d = true.

Lemma invalid_grown n n' id : grown n n' -> invalid_in n id -> invalid_in n' id.
Proof.
  intros [_ _ G] (d & Hd & Hi). destruct (G id d Hd) as (d' & Hd' & _ & _ & _ & H). exists d'. auto.
Qed.

Section node_tree.
Context `{FcI : Fc} `{Cr : Crypto} `{Tx : TxCrypto} `{St : Statics} `{BC : BlockCrypto} `{Cp : Checkpoints} `{Gm : Games}.

(** The head cannot be popped although it is not counted as included: what a
    failed [pop_block] leaves behind. *)
Definition stuck (n : node) : Prop :=
  nd_head_id n <> 0 /\ bh_block_num (nd_head_header n) <> 0
  /\ (exists d, nd_fork n !! nd_head_id n = Some d /\ fd_is_included d = false)
  /\ exists e, (u <- from_option_or assert_exception (nd_undo n !! nd_head_id n) ;; undo_changes u (nd_db n)) = Throw e.

Record node_tree (n : node) : Prop := {
  nt_fork : fork_tree (nd_blocks n) (nd_fork n);
  nt_ids : forall id b, nd_blocks n !! id = Some b -> full_block_id b = id;
  nt_numbers : forall id b, nd_blocks n !! id = Some b -> id ∈ fetch_blocks_at_number (num_of b) n;
  nt_at_number : forall k id, id ∈ fetch_blocks_at_number k n -> exists b, nd_blocks n !! id = Some b /\ num_of b = k;
  nt_head : nd_head_id n = 0 /\ nd_head_header n = header_default
    \/ exists b, nd_blocks n !! nd_head_id n = Some b /\ nd_head_header n = fb_header b;
  nt_head_valid : exists d, nd_fork n !! nd_head_id n = Some d /\ fd_is_valid d = Some true;
  nt_head_num : db_head_num (nd_db n) = bh_block_num (nd_head_header n);
  nt_included : forall id d, nd_fork n !! id = Some d -> fd_is_included d = true -> rtc (parent (nd_blocks n)) (nd_head_id n) id }.

Lemma node_tree_same n n' : same_tree n n' -> node_tree n -> node_tree n'.
Proof.
  intros [E1 E2 E3 E4 E5 E6] [H1 H2 H3 H4 H5 H6 H7 H8].
  unfold fetch_blocks_at_number in *. split; unfold fetch_blocks_at_number; rewrite ?E1, ?E2, ?E3, ?E4, ?E5, ?E6; done.
Qed.

(** A new table of records. *)
Lemma node_tree_fork n F' :
  node_tree n -> fork_tree (nd_blocks n) F' ->
  (exists d, F' !! nd_head_id n = Some d /\ fd_is_valid d = Some true) ->
  (forall id d, F' !! id = Some d -> fd_is_included d = true -> exists d0, nd_fork n !! id = Some d0 /\ fd_is_included d0 = true) ->
  node_tree (set_nd_fork F' n).
Proof.
  intros [H1 H2 H3 H4 H5 H6 H7 H8] HF Hv Hi. split; try done. intros id d Hd Hinc. destruct (Hi id d Hd Hinc) as (d0 & ? & ?). by apply (H8 id d0).
Qed.

Context (rank : Z -> nat).

Lemma linked_known n id d : node_tree n -> nd_fork n !! id = Some d -> fd_is_linked d = true -> id <> 0 ->
  exists b, nd_blocks n !! id = Some b.
Proof.
  intros T Hd Hl Hne. destruct (nd_blocks n !! id) as [b|] eqn:E; [ eauto | ].
  destruct (ft_placeholder _ _ _ (nt_fork _ T) _ _ Hd E Hne) as (? & _). congruence.
Qed.

(** The record of the parent of a known block. *)
Lemma parent_facts n id b d : node_tree n -> nd_blocks n !! id = Some b -> nd_fork n !! id = Some d ->
  exists dp, nd_fork n !! prev_of b = Some dp /\ link_ok dp d = true.
Proof.
  intros T Hb Hd. destruct (ft_known _ _ _ (nt_fork _ T) _ _ Hb) as (d' & dp & Hd' & Hdp & _ & _ & Hl). simplify_eq. eauto.
Qed.

(** A valid block descends from the genesis. *)
Lemma valid_to_root n id d : node_tree n -> ranked rank (nd_blocks n) -> nd_fork n !! id = Some d ->
  fd_is_valid d = Some true -> rtc (parent (nd_blocks n)) id 0.
Proof.
  intros T R. remember (rank id) as k eqn:Ek. revert id d Ek. induction (lt_wf k) as [k _ IH]. intros id d -> Hd Hv.
  destruct (decide (id = 0)) as [->|Hne]; [ done | ].
  destruct (nd_blocks n !! id) as [b|] eqn:Hb.
  - destruct (parent_facts _ _ _ _ T Hb Hd) as (dp & Hdp & Hl). apply rtc_l with (prev_of b); [ by exists b | ].
    apply (IH (rank (prev_of b)) (R _ _ Hb) _ dp eq_refl Hdp). by apply (link_ok_valid dp d).
  - destruct (ft_placeholder _ _ _ (nt_fork _ T) _ _ Hd Hb Hne) as (_ & ? & _). congruence.
Qed.

(** ** Marking a block invalid *)

Lemma mark_invalid_tree n id b d reason :
  node_tree n -> ranked rank (nd_blocks n) -> nd_blocks n !! id = Some b -> prev_of b = nd_head_id n ->
  nd_fork n !! id = Some d -> fd_is_linked d = true ->
  exists n', mark_invalid id reason n = (n', Ok tt) /\ node_tree n' /\ grown n n' /\ nd_head_id n' = nd_head_id n /\ invalid_in n' id.
Proof.
  intros T R Hb Hp Hd Hl. pose proof (nt_fork _ T) as TF. destruct (parent_facts _ _ _ _ T Hb Hd) as (dp & Hdp & Hk).
  set (d1 := set_fd_valid (Some false) (Some reason) d). set (n1 := set_nd_fork (<[id := d1]> (nd_fork n)) n).
  assert (Hne : prev_of b <> id) by (intros E; pose proof (R _ _ Hb) as HR; rewrite E in HR; lia).
  assert (Hn1 : nd_fork n1 !! id = Some d1) by apply lookup_insert_eq.
  assert (T1 : fork_tree_but (Some id) (nd_blocks n1) (nd_fork n1)) by (apply (fork_tree_record _ _ R _ _ b d dp); try done;
    subst d1; revert Hl Hk; clear; status d; status dp; simpl; intros; done || eauto).
  destruct (recursive_mark_as_invalid_spec _ rank (Some id) n1 id d1 R eq_refl T1 Hn1 reason) as (F' & V & E & HF' & HV).
  assert (HFin : fork_tree (nd_blocks n) F').
  { eapply (fork_tree_marked _ _ R _ F' id d1 V _ (fun _ => True) T1 Hn1 HV HF'); try done.
    - intros c dc Hc Hdc. split; [ | done ]. subst d1. revert Hl. clear. status d; status dc; done.
    - intros dp' dc _ Hlk. split; [ by apply link_ok_invalid | done ]. }
  exists (set_nd_fork F' n). split.
  { unfold mark_invalid, nbind, nread, fork_fetch, fork_store, nwrite. rewrite Hd. cbn [from_option_or]. fold d1 n1.
    change (fd_next_blocks d) with (fd_next_blocks d1). rewrite E. by destruct n. }
  assert (Hlow : forall x, (rank x <= rank id)%nat -> F' !! x = <[id := d1]> (nd_fork n) !! x).
  { intros x Hx. rewrite HF', bool_decide_eq_false_2; [ done | ]. intros Hv%HV. pose proof (reach_rank _ _ R _ _ _ _ _ T1 Hn1 Hv). lia. }
  split_and!; [ | | done | ].
  - apply node_tree_fork; [ done | done | | ].
    + pose proof (R _ _ Hb) as HR. rewrite Hp in HR, Hne. rewrite Hlow, lookup_insert_ne by (done || lia). apply (nt_head_valid _ T).
    + intros x dx Hx Hinc. rewrite HF' in Hx.
      assert (exists d2, <[id := d1]> (nd_fork n) !! x = Some d2 /\ fd_is_included d2 = true) as (d2 & H2 & Hi2).
      { case_bool_decide; [ apply fmap_Some in Hx as (d2 & ? & ->); eauto | eauto ]. }
      destruct (decide (x = id)) as [->|Hx2]; [ rewrite lookup_insert_eq in H2; simplify_eq; eauto | ].
      rewrite lookup_insert_ne in H2 by done. eauto.
  - split; try done. simpl. trans (<[id := d1]> (nd_fork n)); [ apply (evolved_insert _ _ d) | eapply evolved_marked ]; try done.
  - exists d1. simpl. rewrite Hlow by lia. by rewrite lookup_insert_eq.
Qed.
End node_tree.
