(* ===== verification/ForkSwitch.v ===== *)
(** Moving the head: what [extend_chain], [pop_block], [get_fork_history] and
    [switch_to_fork] do to a node whose records fit its blocks, errors
    included. *)

From stdpp Require Import relations.
From S2P Require Import Prelude StateMonad Asset Records ChainInterface Transaction PendingState ChainDatabase BlockOps Node ForkDb ForkTree.
From S2P Require Import ForkStore NodeTree.

Section switch.
Context `{FcI : Fc} `{Cr : Crypto} `{Tx : TxCrypto} `{St : Statics} `{BC : BlockCrypto} `{Cp : Checkpoints} `{Gm : Games}.
Context (rank : Z -> nat).

(** ** Extending *)

Definition included_record (d : block_fork_data) : block_fork_data :=
  set_fd_valid (Some true) (fd_invalid_reason d) (set_fd_included true d).

Lemma save_undo_state_same num id p n n' r : save_undo_state num id p n = (n', r) -> same_tree n n'.
Proof.
  unfold save_undo_state. destruct (num <? nd_min_undo n); [ by intros [= <- <-] | ].
  intros [(n1 & u & E1 & H)|(e & E1 & ->)]%nbind_inv; cbv [nread] in E1; simplify_eq; [ | done ].
  apply nbind_inv in H as [(n2 & [] & E2 & [= <- <-])|(e & E2 & ->)].
  - destruct (_ <? num); [ | unfold nret in E2; by simplify_eq ]. unfold nbind, nread, nwrite in E2. by (case_match; simplify_eq).
  - destruct (_ <? num); [ | done ]. unfold nbind, nread, nwrite in E2. by (case_match; simplify_eq).
Qed.

Lemma mark_included_run id v d n : nd_fork n !! id = Some d ->
  mark_included id v n =
    (set_nd_fork (<[id := if v then included_record d else set_fd_included false d]> (nd_fork n)) n, Ok tt).
Proof. intros Hd. unfold mark_included, nbind, nread, fork_fetch. rewrite Hd. by destruct v. Qed.

(** The block becomes the head, or an exception ends the attempt before the
    tree has changed. *)
Lemma apply_block_run id b d n n' r :
  nd_fork n !! id = Some d -> apply_block id b n = (n', r) ->
  r = Ok tt /\ nd_blocks n' = nd_blocks n /\ nd_fork n' = <[id := included_record d]> (nd_fork n)
    /\ nd_fork_number n' = nd_fork_number n /\ nd_head_id n' = id /\ nd_head_header n' = fb_header b
    /\ db_head_num (nd_db n') = num_of b
  \/ (exists e, r = Throw e) /\ same_tree n n'.
Proof.
  intros Hd [(n1 & p & E1 & H)|(e & E1 & ->)]%nbind_inv; cbv [nread] in E1; simplify_eq; [ | right; split; [ eauto | done ] ].
  apply nbind_inv in H as [(n2 & [] & E2 & H)|(e & E2 & ->)];
    [ | apply save_undo_state_same in E2; right; split; [ eauto | done ] ].
  apply save_undo_state_same in E2. destruct E2 as [Q1 Q2 Q3 Q4 Q5 Q6]. rewrite <- Q2 in Hd.
  apply nbind_inv in H as [(n3 & db & E3 & H)|(e & E3 & ->)]; cbv [nread] in E3; simplify_eq;
    [ left | right; split; [ eauto | by split ] ].
  unfold nbind at 1, nwrite in H.
  erewrite nbind_ok in H by (apply mark_included_run; exact Hd).
  unfold nbind, update_head_block, clear_pending, nwrite in H. simplify_eq.
  cbn. rewrite <- Q1, <- Q2, <- Q3. split_and!; done.
Qed.

(** The block as the new head. *)
Lemma extended_tree id b d dp n n' :
  node_tree n -> ranked rank (nd_blocks n) -> nd_blocks n !! id = Some b -> prev_of b = nd_head_id n ->
  nd_fork n !! id = Some d -> can_link d = true -> nd_fork n !! nd_head_id n = Some dp ->
  nd_blocks n' = nd_blocks n -> nd_fork n' = <[id := included_record d]> (nd_fork n) ->
  nd_fork_number n' = nd_fork_number n -> nd_head_id n' = id -> nd_head_header n' = fb_header b ->
  db_head_num (nd_db n') = num_of b -> node_tree n'.
Proof.
  intros T R Hb Hp Hd Hc Hdp Q1 Q2 Q3 Q4 Q5 Q6. pose proof (nt_fork _ T) as TF.
  destruct (ft_known _ _ _ TF _ _ Hb) as (d0 & dp0 & Hd0 & Hdp0 & _ & _ & Hk). rewrite Hp in Hdp0. simplify_eq.
  destruct (nt_head_valid _ T) as (dh & Hdh & Hv). simplify_eq. specialize (Hk ltac:(done)).
  assert (T' : fork_tree (nd_blocks n) (<[nd_head_id n' := included_record d]> (nd_fork n))).
  { eapply (fork_tree_close (nd_head_id n') (included_record d)); [ | apply lookup_insert_eq | ].
    - apply (fork_tree_record _ _ R _ _ b d dp); try done; [ by rewrite Hp | ].
      revert Hc Hk Hv. clear. status d; status dp; done.
    - intros c dc Hcn Hdc. destruct (ft_next _ _ _ TF _ _ _ Hd Hcn) as (bc & Hbc & Hpc).
      assert (c <> nd_head_id n') by (intros ->; pose proof (R _ _ Hbc) as HR; rewrite Hpc in HR; lia).
      rewrite lookup_insert_ne in Hdc by done. destruct (parent_facts _ _ _ _ T Hbc Hdc) as (dx & Hdx & Hkc).
      rewrite Hpc in Hdx. simplify_eq. revert Hc Hkc. clear.
      status d; status dc; done. }
  pose proof T as [_ H2 H3 H4 _ _ _ H8].
  split; unfold fetch_blocks_at_number in *; rewrite ?Q1, ?Q2, ?Q3, ?Q5, ?Q6; try done.
  - right. by exists b.
  - exists (included_record d). by rewrite lookup_insert_eq.
  - intros x dx Hx Hi. destruct (decide (x = nd_head_id n')) as [->|Hne]; [ done | ]. rewrite lookup_insert_ne in Hx by done.
    apply rtc_l with (nd_head_id n); [ by exists b | by apply (H8 x dx) ].
Qed.

(** A block above the head: it becomes the head, or it and its descendants
    are marked invalid. *)
Lemma extend_chain_spec id b d n n' r :
  node_tree n -> ranked rank (nd_blocks n) -> nd_blocks n !! id = Some b -> prev_of b = nd_head_id n ->
  nd_fork n !! id = Some d -> can_link d = true -> extend_chain b n = (n', r) ->
  node_tree n' /\ grown n n' /\ match r with
    | Ok _ => nd_head_id n' = id /\ kept n n'
    | Throw e => e = undefined_behaviour \/ invalid_in n' id
    end.
Proof.
  intros T R Hb Hp Hd Hc H. unfold extend_chain in H. rewrite (nt_ids _ T _ _ Hb) in H. unfold ncatch, nbind at 1 in H.
  destruct (apply_block id b n) as [n1 r1] eqn:E1. destruct (nt_head_valid _ T) as (dh & Hdh & _).
  destruct (apply_block_run _ _ _ _ _ _ Hd E1) as [(-> & Q1 & Q2 & Q3 & Q4 & Q5 & Q6)|[[e ->] Q]].
  - unfold purge_unique, nwrite in H. simplify_eq. split_and!; [ | | done | ].
    + by apply (extended_tree (nd_head_id n1) b d dh n).
    + split; try done. simpl. rewrite Q2. apply (evolved_insert _ _ d); [ done | ]. revert Hc. clear.
      status d; done.
    + intros x dx Hx Hcx. simpl. rewrite Q2. destruct (decide (x = nd_head_id n1)) as [->|Hne].
      * rewrite lookup_insert_eq. simplify_eq. eexists. split; [ reflexivity | ]. revert Hc. clear. by status d.
      * rewrite lookup_insert_ne by done. eauto.
  - assert (T1 : node_tree n1) by by eapply node_tree_same. pose proof Q as [Q1 Q2 _ Q4 _ _].
    destruct (decide (e = undefined_behaviour)) as [->|Hne].
    { simplify_eq. split_and!; [ done | by apply same_tree_grown | by left ]. }
    destruct (mark_invalid_tree rank n1 id b d e) as (n2 & E2 & T2 & G2 & _ & I2); [ done | by rewrite Q1.. | congruence | by rewrite Q2 | | ].
    { unfold can_link in Hc. by apply andb_true_iff in Hc as [? _]. }
    assert (H' : (n2, Throw e) = (n', r)).
    { rewrite <- H. destruct e; try done; unfold nbind; by rewrite E2. }
    simplify_eq. split_and!; [ done | | by right ]. etrans; [ by apply same_tree_grown | done ].
Qed.

Lemma extend_chain_ok b d n n' : nd_fork n !! full_block_id b = Some d -> extend_chain b n = (n', Ok tt) ->
  nd_head_id n' = full_block_id b /\ nd_fork n' !! full_block_id b = Some (included_record d).
Proof.
  intros Hd H. unfold extend_chain, ncatch, nbind at 1 in H. destruct (apply_block (full_block_id b) b n) as [n1 r1] eqn:E1.
  destruct (apply_block_run _ _ _ _ _ _ Hd E1) as [(-> & _ & Q & _ & Eh & _)|[[e ->] _]].
  - unfold purge_unique, nwrite in H. simplify_eq. split; [ exact Eh | ]. simpl. rewrite Q. apply lookup_insert_eq.
  - exfalso. unfold nbind, nthrow in H. destruct e; try done; by destruct (mark_invalid _ _ n1) as [? [[]|?]].
Qed.

(** ** Popping *)

(** The undo state of the head, applied. *)
Definition undone (n : node) : result chain_database :=
  u <- from_option_or assert_exception (nd_undo n !! nd_head_id n) ;; undo_changes u (nd_db n).

(** The head no longer counted as included. *)
Definition unincluded (d : block_fork_data) (n : node) : node :=
  set_nd_num_to_id (delete (bh_block_num (nd_head_header n)) (nd_num_to_id n))
    (set_nd_fork (<[nd_head_id n := set_fd_included false d]> (nd_fork n)) n).

(** The head back at its parent, of header [h]. *)
Definition popped (d : block_fork_data) (db : chain_database) (h : block_header) (n : node) : node :=
  set_nd_db (with_head h db) (set_nd_head (bh_previous (nd_head_header n)) h (unincluded d n)).

Lemma pop_block_run n d h : nd_fork n !! nd_head_id n = Some d -> bh_block_num (nd_head_header n) <> 0 ->
  (if bh_previous (nd_head_header n) =? 0 then Ok header_default else get_block_header (bh_previous (nd_head_header n)) n) = Ok h ->
  pop_block n = match undone n with Ok db => (popped d db h n, Ok tt) | Throw e => (unincluded d n, Throw e) end.
Proof.
  intros Hd Hnum Hh. unfold pop_block. rewrite (proj2 (Z.eqb_neq _ _) Hnum).
  erewrite nbind_ok by (apply mark_included_run; exact Hd).
  unfold undone. unfold nbind at 1, nwrite. unfold nbind at 1, nread. cbn [nd_undo nd_head_id set_nd_num_to_id set_nd_fork].
  destruct (from_option_or assert_exception (nd_undo n !! nd_head_id n)) as [u|e]; [ | done ].
  unfold nbind at 1. cbn [rbind nd_db set_nd_num_to_id set_nd_fork]. destruct (undo_changes u (nd_db n)) as [db|e]; [ | done ].
  cbn [rbind]. unfold nbind, update_head_block, nwrite.
  unfold get_block_header, get_block in *. cbn [nd_blocks set_nd_db set_nd_head set_nd_num_to_id set_nd_fork]. rewrite Hh.
  unfold popped, unincluded. by destruct n.
Qed.

Lemma head_header n b : node_tree n -> nd_blocks n !! nd_head_id n = Some b -> nd_head_header n = fb_header b.
Proof.
  intros T Hb. destruct (nt_head _ T) as [[E _]|(b' & Hb' & E)]; [ | congruence ].
  destruct (ft_root _ _ _ (nt_fork _ T)) as [H0 _]. rewrite E in Hb. congruence.
Qed.

Lemma head_known n : node_tree n -> nd_head_id n <> 0 -> exists b, nd_blocks n !! nd_head_id n = Some b /\ nd_head_header n = fb_header b.
Proof. intros T Hne. destruct (nt_head _ T) as [[E _]|?]; [ done | done ]. Qed.

(** The record of the head with its flag cleared. *)
Lemma unincluded_tree n b d : node_tree n -> ranked rank (nd_blocks n) -> nd_blocks n !! nd_head_id n = Some b ->
  nd_fork n !! nd_head_id n = Some d -> fork_tree (nd_blocks n) (<[nd_head_id n := set_fd_included false d]> (nd_fork n)).
Proof.
  intros T R Hb Hd. pose proof (nt_fork _ T) as TF. destruct (parent_facts _ _ _ _ T Hb Hd) as (dp & Hdp & Hk).
  eapply (fork_tree_close (nd_head_id n) (set_fd_included false d)); [ | apply lookup_insert_eq | ].
  - apply (fork_tree_record _ _ R _ _ b d dp); try done. intros Hi. by apply (ft_reason _ _ _ TF _ _ Hd).
  - intros c dc Hcn Hdc. destruct (ft_next _ _ _ TF _ _ _ Hd Hcn) as (bc & Hbc & Hpc).
    assert (c <> nd_head_id n) by (intros ->; pose proof (R _ _ Hbc) as HR; rewrite Hpc in HR; lia).
    rewrite lookup_insert_ne in Hdc by done. destruct (parent_facts _ _ _ _ T Hbc Hdc) as (dx & Hdx & Hkc).
    rewrite Hpc in Hdx. simplify_eq. exact Hkc.
Qed.

Lemma unincluded_evolves n d : nd_fork n !! nd_head_id n = Some d ->
  evolved (nd_fork n) (<[nd_head_id n := set_fd_included false d]> (nd_fork n)).
Proof. intros Hd. by apply (evolved_insert _ _ d). Qed.

Lemma unincluded_kept n n' d : nd_fork n !! nd_head_id n = Some d ->
  nd_fork n' = <[nd_head_id n := set_fd_included false d]> (nd_fork n) -> kept n n'.
Proof.
  intros Hd E x dx Hx Hc. rewrite E. destruct (decide (x = nd_head_id n)) as [->|Hne].
  - rewrite lookup_insert_eq. simplify_eq. by eexists.
  - rewrite lookup_insert_ne by done. by exists dx.
Qed.

Lemma unincluded_node n b d : node_tree n -> ranked rank (nd_blocks n) -> nd_blocks n !! nd_head_id n = Some b ->
  nd_fork n !! nd_head_id n = Some d -> node_tree (unincluded d n).
Proof.
  intros T R Hb Hd. apply (node_tree_same (set_nd_fork (<[nd_head_id n := set_fd_included false d]> (nd_fork n)) n)); [ done | ].
  apply node_tree_fork; [ done | by eapply unincluded_tree | | ].
  - rewrite lookup_insert_eq. destruct (nt_head_valid _ T) as (d' & Hd' & Hv). simplify_eq. by eexists.
  - intros x dx Hx Hi. destruct (decide (x = nd_head_id n)) as [->|Hne].
    + rewrite lookup_insert_eq in Hx. by simplify_eq.
    + rewrite lookup_insert_ne in Hx by done. eauto.
Qed.

Lemma popped_node n b d db h : node_tree n -> ranked rank (nd_blocks n) -> nd_blocks n !! nd_head_id n = Some b ->
  nd_fork n !! nd_head_id n = Some d ->
  (prev_of b = 0 /\ h = header_default \/ exists bp, nd_blocks n !! prev_of b = Some bp /\ h = fb_header bp) ->
  node_tree (popped d db h n).
Proof.
  intros T R Hb Hd Hh. pose proof (head_header _ _ T Hb) as Eh. destruct (unincluded_node n b d T R Hb Hd) as [H1 H2 H3 H4 _ H6 _ H8].
  pose proof (R _ _ Hb) as Hr.
  assert (Hne : prev_of b <> nd_head_id n) by (intros E; rewrite E in Hr; lia).
  split; try done; unfold popped; cbn [nd_head_id nd_head_header set_nd_db set_nd_head];
    rewrite Eh; change (bh_previous (fb_header b)) with (prev_of b).
  - destruct Hh as [[-> ->]|(bp & Hbp & ->)]; [ by left | right; eauto ].
  - destruct (nt_head_valid _ T) as (d' & Hd' & Hv). destruct (parent_facts _ _ _ _ T Hb Hd') as (dp & Hdp & Hk).
    exists dp. cbn [nd_fork set_nd_fork set_nd_num_to_id unincluded set_nd_db set_nd_head]. rewrite lookup_insert_ne by done.
    split; [ exact Hdp | by apply (link_ok_valid dp d') ].
  - intros x dx Hx Hi. specialize (H8 x dx Hx Hi). change (rtc (parent (nd_blocks n)) (nd_head_id n) x) in H8.
    inversion H8 as [y E|y z w Hyz Hzw E1 E2]; subst.
    + exfalso. cbn in Hx. rewrite lookup_insert_eq in Hx. by simplify_eq.
    + destruct Hyz as (b' & Hb' & <-). simplify_eq. exact Hzw.
Qed.

(** One pop: the head goes to its parent, or cannot be popped at all. *)
Lemma pop_block_spec n b : node_tree n -> ranked rank (nd_blocks n) -> nd_blocks n !! nd_head_id n = Some b -> num_of b <> 0 ->
  exists n' r, pop_block n = (n', r) /\ node_tree n' /\ grown n n' /\ match r with
    | Ok _ => nd_head_id n' = prev_of b /\ kept n n' /\ is_ok (undone n) = true
    | Throw e => stuck n' /\ nd_head_id n' = nd_head_id n
    end.
Proof.
  intros T R Hb Hnum. pose proof (head_header _ _ T Hb) as Eh. destruct (nt_head_valid _ T) as (d & Hd & Hv).
  assert (exists h, (if bh_previous (nd_head_header n) =? 0 then Ok header_default
      else get_block_header (bh_previous (nd_head_header n)) n) = Ok h
    /\ (prev_of b = 0 /\ h = header_default \/ exists bp, nd_blocks n !! prev_of b = Some bp /\ h = fb_header bp)) as (h & Hh & Hcase).
  { rewrite Eh. fold (prev_of b). destruct (Z.eqb_spec (prev_of b) 0) as [E|Hne]; [ eauto | ].
    destruct (parent_facts _ _ _ _ T Hb Hd) as (dp & Hdp & Hk). pose proof (link_ok_valid _ _ Hk Hv) as Hvp.
    destruct (nd_blocks n !! prev_of b) as [bp|] eqn:Ep.
    - exists (fb_header bp). unfold get_block_header, get_block. rewrite Ep. split; [ done | right; eauto ].
    - destruct (ft_placeholder _ _ _ (nt_fork _ T) _ _ Hdp Ep Hne) as (_ & ? & _). congruence. }
  rewrite (pop_block_run n d h); [ | done | by rewrite Eh | done ]. destruct (undone n) as [db|e] eqn:Eu.
  - eexists _, _. split; [ done | ]. split_and!; [ by eapply popped_node | | | | done ].
    + split; [ done.. | by apply unincluded_evolves ].
    + cbn. by rewrite Eh.
    + by eapply unincluded_kept.
  - eexists _, _. split; [ done | ]. split_and!; [ by eapply unincluded_node | | | done ].
    + split; [ done.. | by apply unincluded_evolves ].
    + split_and!.
      * intros E. change (nd_head_id n = 0) in E. destruct (ft_root _ _ _ (nt_fork _ T)) as [H0 _]. congruence.
      * cbn. by rewrite Eh.
      * exists (set_fd_included false d). cbn. by rewrite lookup_insert_eq.
      * by exists e.
Qed.

(** The blocks of rank up to that of a block. *)
Definition upto (B : gmap Z full_block) (x : Z) : gset Z := filter (fun y => rank y <= rank x)%nat (dom B).

Lemma upto_parent B x y : ranked rank B -> parent B y x -> (size (upto B x) < size (upto B y))%nat.
Proof.
  intros R Hp. pose proof (parent_rank _ _ R _ _ Hp) as Hr. apply subset_size. split.
  - intros z. unfold upto. rewrite !elem_of_filter. intros [? ?]. split; [ lia | done ].
  - intros Hs. assert (y ∈ upto B x) as Hy.
    { apply Hs, elem_of_filter. split; [ done | ]. destruct Hp as (b & Hb & _). apply elem_of_dom. eauto. }
    apply elem_of_filter in Hy as [? _]. lia.
Qed.

Lemma upto_size B x : (size (upto B x) <= size B)%nat.
Proof.
  rewrite <- (size_dom (D := gset Z)). apply subseteq_size. intros z. unfold upto. rewrite elem_of_filter. tauto.
Qed.

Lemma pop_until_spec fuel target n n' r :
  node_tree n -> ranked rank (nd_blocks n) -> rtc (parent (nd_blocks n)) (nd_head_id n) target ->
  pop_until fuel target n = (n', r) ->
  node_tree n' /\ grown n n' /\ match r with
    | Ok _ => nd_head_id n' = target /\ kept n n'
    | Throw e => positive (nd_blocks n) -> (size (upto (nd_blocks n) (nd_head_id n)) < fuel)%nat -> stuck n'
    end.
Proof.
  revert n. induction fuel as [|fuel IH]; intros n T R Ha H; cbn [pop_until] in H;
    destruct (Z.eqb_spec (nd_head_id n) target) as [E|Hne]; simplify_eq;
    [ by split_and!; [ | reflexivity | | apply kept_refl ] | | by split_and!; [ | reflexivity | | apply kept_refl ] | ].
  { split_and!; [ done | reflexivity | lia ]. }
  inversion Ha as [x E1 E2|x p y (b & Hb & Ep) Hpa E1 E2]; subst; [ done | ].
  destruct (decide (num_of b = 0)) as [E0|Hnum].
  - assert (Epop : pop_block n = (n, Ok tt)).
    { unfold pop_block. rewrite (head_header _ _ T Hb). change (bh_block_num (fb_header b)) with (num_of b). by rewrite E0. }
    rewrite (nbind_ok _ _ _ _ _ Epop) in H. destruct (IH n T R Ha H) as (T' & G & Hr). split_and!; try done.
    destruct r; [ done | ]. intros P. by destruct (P _ _ Hb).
  - destruct (pop_block_spec n b T R Hb Hnum) as (n1 & r1 & Epop & T1 & G1 & Hr1). destruct r1 as [[]|e].
    + rewrite (nbind_ok _ _ _ _ _ Epop) in H. destruct Hr1 as (Eh & K1 & _). rewrite <- Eh in Hpa.
      pose proof (gr_blocks _ _ G1) as EB. rewrite <- EB in Hpa, R. destruct (IH n1 T1 R Hpa H) as (T' & G & Hr).
      rewrite EB in R, Hr. split_and!; [ done | by etrans | ]. destruct r.
      * destruct Hr as [? K]. split; [ done | by eapply kept_trans ].
      * intros P Hf. apply Hr; [ done | ]. rewrite Eh. pose proof (upto_parent _ _ _ R (ex_intro _ b (conj Hb eq_refl))). lia.
    + rewrite (nbind_throw _ _ _ _ _ Epop) in H. simplify_eq. split_and!; try done. by intros; apply Hr1.
Qed.

Lemma pop_until_stuck fuel target n : node_tree n -> ranked rank (nd_blocks n) -> stuck n -> nd_head_id n <> target ->
  exists n' e, pop_until (Datatypes.S fuel) target n = (n', Throw e) /\ stuck n' /\ nd_head_id n' = nd_head_id n.
Proof.
  intros T R (H0 & Hnum & _ & e & Hu) Hne. destruct (head_known n T H0) as (b & Hb & Eh).
  rewrite Eh in Hnum. destruct (pop_block_spec n b T R Hb Hnum) as (n1 & r1 & Epop & _ & _ & Hr1).
  cbn [pop_until]. rewrite (proj2 (Z.eqb_neq _ _) Hne). destruct r1 as [[]|e1].
  - destruct Hr1 as (_ & _ & Hok). unfold undone in Hok. by rewrite Hu in Hok.
  - rewrite (nbind_throw _ _ _ _ _ Epop). eauto.
Qed.

(** ** The history of a fork *)

(** The blocks [l] lead from [id] to [target], the first block below [id]
    that is included, or none. *)
Inductive fork_path (n : node) : Z -> list Z -> Z -> Prop :=
| path_last id b d : nd_blocks n !! id = Some b -> nd_fork n !! prev_of b = Some d ->
    (prev_of b = 0 \/ fd_is_included d = true) -> fork_path n id [] (prev_of b)
| path_step id b l target : nd_blocks n !! id = Some b -> prev_of b <> 0 ->
    fork_path n (prev_of b) l target -> fork_path n id (prev_of b :: l) target.

Lemma fork_history_spec fuel id b d n : node_tree n -> ranked rank (nd_blocks n) -> nd_blocks n !! id = Some b ->
  nd_fork n !! id = Some d -> fd_is_linked d = true -> (size (upto (nd_blocks n) id) < fuel)%nat ->
  exists l target, fork_history_from fuel id n = Ok (l ++ [target]) /\ fork_path n id l target.
Proof.
  intros T R. revert id b d. induction fuel as [|fuel IH]; intros id b d Hb Hd Hl Hf; [ lia | ].
  cbn [fork_history_from]. unfold get_block_header, get_block. rewrite Hb. cbn [from_option_or rbind].
  change (bh_previous (fb_header b)) with (prev_of b).
  destruct (parent_facts _ _ _ _ T Hb Hd) as (dp & Hdp & Hk). destruct (Z.eqb_spec (prev_of b) 0) as [E|Hne].
  { exists [], (prev_of b). rewrite E at 1. split; [ done | ]. econstructor; eauto. }
  unfold fork_fetch. rewrite Hdp. cbn [from_option_or rbind].
  assert (Hlp : fd_is_linked dp = true) by (revert Hk Hl; clear; status d; status dp; done).
  rewrite Hlp. cbn [fc_assert rbind]. destruct (fd_is_included dp) eqn:Hi.
  { exists [], (prev_of b). split; [ done | ]. econstructor; eauto. }
  destruct (linked_known _ _ _ T Hdp Hlp Hne) as [bp Hbp].
  destruct (IH (prev_of b) bp dp Hbp Hdp Hlp) as (l & t & E & P).
  { pose proof (upto_parent _ _ _ R (ex_intro _ b (conj Hb eq_refl))). lia. }
  exists (prev_of b :: l), t. rewrite E. split; [ done | ]. by econstructor.
Qed.

Lemma path_parent n id l target : fork_path n id l target -> rtc (parent (nd_blocks n)) id target.
Proof. induction 1; (eapply rtc_l; [ by eexists | ]); done. Qed.

Lemma path_target n id l target : fork_path n id l target ->
  target = 0 \/ exists d, nd_fork n !! target = Some d /\ fd_is_included d = true.
Proof. induction 1 as [id b d Hb Hd [?|?]|]; eauto. Qed.

(** ** Switching *)

Lemma nfold_app {A C} (f : A -> C -> node_m C) l1 l2 c n :
  nfold f (l1 ++ l2) c n = nbind (nfold f l1 c) (nfold f l2) n.
Proof.
  revert c n. induction l1 as [|a l1 IH]; intros c n; [ done | ]. cbn [app nfold]. unfold nbind.
  destruct (f a c n) as [n1 [c1|e]]; [ | done ]. rewrite IH. done.
Qed.

Definition extend_id (id : Z) (_ : unit) : node_m unit := b <~ nread (get_block id) ;; extend_chain b.

Lemma extend_id_run id b c n : nd_blocks n !! id = Some b -> extend_id id c n = extend_chain b n.
Proof. intros Hb. unfold extend_id, nbind, nread, get_block. by rewrite Hb. Qed.

(** A child of an invalid block is invalid. *)
Lemma invalid_child n n' id b d dp : node_tree n' -> grown n n' -> nd_blocks n !! id = Some b -> nd_fork n !! id = Some d ->
  nd_fork n !! prev_of b = Some dp -> fd_is_linked dp = true -> invalid_in n' (prev_of b) -> invalid_in n' id.
Proof.
  intros T' [GB _ GF] Hb Hd Hdp Hl (dp' & Hdp' & Hi). rewrite <- GB in Hb.
  destruct (GF _ _ Hd) as (d' & Hd' & _). exists d'. split; [ done | ].
  destruct (parent_facts _ _ _ _ T' Hb Hd') as (dp2 & Hdp2 & Hk). destruct (GF _ _ Hdp) as (dp3 & Hdp3 & _ & El & _).
  simplify_eq. rewrite Hl in El. revert Hk Hi El. clear. fork_cases.
Qed.

Lemma extend_path n id l target : fork_path n id l target -> node_tree n -> ranked rank (nd_blocks n) ->
  forall m d m' r, node_tree m -> grown n m -> kept n m -> nd_head_id m = target ->
  nd_fork n !! id = Some d -> can_link d = true -> nfold extend_id (rev (id :: l)) tt m = (m', r) ->
  node_tree m' /\ grown m m' /\ match r with
    | Ok _ => nd_head_id m' = id /\ kept m m'
    | Throw e => e = undefined_behaviour \/ invalid_in m' id
    end.
Proof.
  intros P T R. induction P as [id b dp Hb Hdp _|id b l target Hb Hne P IH]; intros m d m' r Tm G K Hh Hd Hc H;
    destruct (K _ _ Hd Hc) as (dm & Hdm & Hcm); pose proof (gr_blocks _ _ G) as EB.
  - cbn [rev app nfold] in H. assert (H' : extend_chain b m = (m', r)).
    { rewrite <- H. unfold nbind. rewrite (extend_id_run id b) by (by rewrite EB). by destruct (extend_chain b m) as [? [[]|?]]. }
    apply (extend_chain_spec id b dm); rewrite ?EB; done.
  - destruct (parent_facts _ _ _ _ T Hb Hd) as (dp & Hdp & Hk). pose proof (link_ok_can_link _ _ Hk Hc) as Hcp.
    change (rev (id :: prev_of b :: l)) with (rev (prev_of b :: l) ++ [id]) in H. rewrite nfold_app in H.
    apply nbind_inv in H as [(m1 & [] & E1 & H)|(e & E1 & ->)];
      destruct (IH m dp _ _ Tm G K Hh Hdp Hcp E1) as (T1 & G1 & Hr1).
    + destruct Hr1 as [Hh1 K1]. destruct (K1 _ _ Hdm Hcm) as (dm1 & Hdm1 & Hcm1). pose proof (gr_blocks _ _ G1) as EB1.
      assert (H' : extend_chain b m1 = (m', r)).
      { rewrite <- H. cbn [nfold]. unfold nbind. rewrite (extend_id_run id b) by (by rewrite EB1, EB).
        by destruct (extend_chain b m1) as [? [[]|?]]. }
      destruct (extend_chain_spec id b dm1 m1 m' r) as (T2 & G2 & Hr2); rewrite ?EB1, ?EB; try done.
      split_and!; [ done | by etrans | ]. destruct r; [ | done ]. destruct Hr2 as [? K2]. split; [ done | by eapply kept_trans ].
    + split_and!; [ done | done | ]. destruct Hr1 as [?|Hi]; [ by left | right ].
      apply (invalid_child n m' id b d dp); try done; [ by etrans | ]. unfold can_link in Hcp. by apply andb_true_iff in Hcp as [? _].
Qed.

(** The history of a block that can be linked ends at the head or below it. *)
Lemma get_fork_history_spec n id d : node_tree n -> ranked rank (nd_blocks n) -> nd_fork n !! id = Some d ->
  can_link d = true -> id <> 0 ->
  exists l target, get_fork_history id n = Ok (id :: l ++ [target]) /\ fork_path n id l target
    /\ rtc (parent (nd_blocks n)) (nd_head_id n) target.
Proof.
  intros T R Hd Hc Hne. apply andb_true_iff in Hc as [Hl _]. destruct (linked_known _ _ _ T Hd Hl Hne) as [b Hb].
  destruct (fork_history_spec (Datatypes.S (size (nd_blocks n))) id b d n T R Hb Hd Hl) as (l & t & E & P).
  { pose proof (upto_size (nd_blocks n) id). lia. }
  exists l, t. unfold get_fork_history. rewrite E. split_and!; [ done | done | ].
  destruct (path_target _ _ _ _ P) as [->|(dt & Hdt & Hi)]; [ | by apply (nt_included _ T _ dt) ].
  destruct (nt_head_valid _ T) as (dh & Hdh & Hv). by apply (valid_to_root rank n _ dh).
Qed.

(** A switch to a block that can be linked: the block becomes the head, or is
    invalid; unless the node is stuck. *)
Lemma switch_to_fork_spec n id d n' r : node_tree n -> ranked rank (nd_blocks n) -> nd_fork n !! id = Some d ->
  can_link d = true -> id <> 0 -> switch_to_fork id n = (n', r) ->
  node_tree n' /\ grown n n' /\ match r with
    | Ok _ => nd_head_id n' = id
    | Throw e => e = undefined_behaviour \/ (positive (nd_blocks n) -> stuck n' \/ invalid_in n' id)
    end.
Proof.
  intros T R Hd Hc H0 H. unfold switch_to_fork in H. destruct (Z.eqb_spec id (nd_head_id n)) as [->|Hne].
  { simplify_eq. by split_and!. }
  destruct (get_fork_history_spec n id d T R Hd Hc H0) as (l & t & E & P & Ha).
  unfold nbind at 1, nread in H. rewrite E in H. unfold nbind at 1 in H.
  rewrite app_comm_cons, last_snoc in H. cbn [from_option_or] in H.
  rewrite rev_app_distr in H. cbn [rev app tail] in H. apply nbind_inv in H as [(n1 & [] & E1 & H)|(e & E1 & ->)];
    destruct (pop_until_spec _ _ _ _ _ T R Ha E1) as (T1 & G1 & Hr1).
  - destruct Hr1 as [Hh1 K1]. destruct (extend_path n id l t P T R n1 d n' r T1 G1 K1 Hh1 Hd Hc H) as (T2 & G2 & Hr2).
    split_and!; [ done | by etrans | ]. destruct r; [ tauto | ]. destruct Hr2 as [?|?]; [ by left | right; by right ].
  - split_and!; [ done | done | ]. right. intros Pos. left. apply Hr1; [ done | ].
    pose proof (upto_size (nd_blocks n) (nd_head_id n)). lia.
Qed.

(** A stuck node stays stuck. *)
Lemma switch_to_fork_stuck n id d n' r : node_tree n -> ranked rank (nd_blocks n) -> nd_fork n !! id = Some d ->
  can_link d = true -> id <> 0 -> stuck n -> switch_to_fork id n = (n', r) -> stuck n' /\ nd_head_id n' = nd_head_id n.
Proof.
  intros T R Hd Hc H0 Hs H. unfold switch_to_fork in H. destruct (Z.eqb_spec id (nd_head_id n)) as [->|Hne]; [ by simplify_eq | ].
  destruct (get_fork_history_spec n id d T R Hd Hc H0) as (l & t & E & P & Ha).
  assert (Ht : nd_head_id n <> t).
  { intros <-. destruct Hs as (Hz & _ & (dh & Hdh & Hi) & _). destruct (path_target _ _ _ _ P) as [?|(dt & Hdt & Hi')]; congruence. }
  destruct (pop_until_stuck (size (nd_blocks n)) t n T R Hs Ht) as (n1 & e & E1 & Hs1 & Eh).
  unfold nbind at 1, nread in H. rewrite E in H. unfold nbind at 1 in H.
  rewrite app_comm_cons, last_snoc in H. cbn [from_option_or] in H. rewrite (nbind_throw _ _ _ _ _ E1) in H. by simplify_eq.
Qed.
End switch.
