(* ===== verification/ForkDemo.v ===== *)
(** A concrete node for the witnesses: blocks without transactions on a chain
    of one delegate. *)

From S2P Require Import Prelude StateMonad Asset Records ChainInterface Tables PendingState ChainDatabase Concrete BlockOps Node ForkDb.

#[local] Existing Instance demo_crypto.
#[local] Existing Instance demo_tx.
#[local] Existing Instance demo_statics.

(** The id of a block is made of its number and its time; a block is signed
    by the key that is its signature. *)
Definition fork_crypto : BlockCrypto.
Proof.
  refine {|
    block_id := fun h sig => bh_block_num h * 1000000 + bh_timestamp h;
    block_signee := fun h sig => Ok sig;
    transactions_digest := fun ids => foldr Z.add 0 ids;
    secret_hash := fun s => s + 1;
    next_seed := fun s seed => s + 2 * seed;
    sha256_seed := fun s => s + 17;
    sha256_again := fun h => 3 * h + 1;
    sha256_word := fun h i => uwrap64 (h * (Z.of_nat i + 7));
    ripemd_word := fun h i => uwrap32 (h + Z.of_nat i) |}.
  - intros. apply uwrap64_range.
  - intros. apply uwrap32_range.
Defined.
#[local] Existing Instance fork_crypto.

Definition no_checkpoints : Checkpoints := {| checkpoint_blocks := ∅ |}.
Definition no_games : Games := {| game_execute := None |}.
#[local] Existing Instance no_checkpoints.
#[local] Existing Instance no_games.

(** A database before its first block. *)
Definition genesis_db : chain_database := with_head header_default (set_active_delegates (replicate 101 1) demo_db).

Definition genesis_record : block_fork_data := mk_fork_data ∅ true (Some true) None true true.

Definition fresh_node : node :=
  mk_node genesis_db 0 header_default ∅ {[ 0 := genesis_record ]} ∅ ∅ ∅ 0 ∅ ∅ ∅ (pending_empty genesis_db) 0 true.

(** An empty block of the delegate, which signs with key 13. *)
Definition demo_block_at (previous num timestamp : Z) : full_block := {|
  fb_header := {| bh_previous := previous; bh_block_num := num; bh_timestamp := timestamp;
                  bh_transaction_digest := 0; bh_next_secret_hash := 1; bh_previous_secret := 0 |};
  fb_delegate_signature := 13; fb_user_transactions := [] |}.

Definition pushed (b : full_block) (n : node) : node := fst (push_block b n).
