(* ===== verification/ForkProps.v ===== *)
(** [push_block]: the records of a node fit its blocks after every block that
    is pushed, whatever its outcome; the node then has the highest fork it
    could apply as its chain; and the two ways in which a node stops making
    progress. *)

From stdpp Require Import relations.
From S2P Require Import Prelude StateMonad Asset Records ChainInterface Transaction PendingState ChainDatabase Concrete BlockOps Node ForkDb.
From S2P Require Import ForkTree ForkStore NodeTree ForkSwitch ForkDemo.

Section push.
Context `{FcI : Fc} `{Cr : Crypto} `{Tx : TxCrypto} `{St : Statics} `{BC : BlockCrypto} `{Cp : Checkpoints} `{Gm : Games}.
Context (rank : Z -> nat).

(** The blocks of [ids] are known. *)
Definition all_known (n : node) (ids : list Z) : Prop := forall id, id ∈ ids -> is_Some (nd_blocks n !! id).

(** None of [ids] can be linked. *)
Definition none_left (n : node) (ids : list Z) : Prop :=
  forall id d, id ∈ ids -> nd_fork n !! id = Some d -> can_link d = false.

Lemma known_nonzero n id : node_tree n -> is_Some (nd_blocks n !! id) -> id <> 0.
Proof. intros T [b Hb] ->. destruct (ft_root _ _ _ (nt_fork _ T)) as [H0 _]. congruence. Qed.

Lemma invalid_cannot_link n n' id d : grown n n' -> invalid_in n id -> nd_fork n' !! id = Some d -> can_link d = false.
Proof.
  intros G Hi Hd. destruct (invalid_grown _ _ _ G Hi) as (d' & Hd' & Hv). simplify_eq. unfold can_link. by rewrite Hv, andb_false_r.
Qed.

Lemma cannot_link_grown n n' id d d' : grown n n' -> nd_fork n !! id = Some d -> can_link d = false ->
  nd_fork n' !! id = Some d' -> can_link d' = false.
Proof.
  intros [_ _ G] Hd Hc Hd'. destruct (G _ _ Hd) as (d2 & Hd2 & _ & El & _ & Ei). simplify_eq. unfold can_link in *.
  rewrite El. destruct (fd_is_linked d); [ simpl in *; by rewrite Ei by (by destruct (fork_invalid d)) | done ].
Qed.

(** A switch tried: [push_block] goes on after an exception. *)
Definition tried (pushed id : Z) : node_m bool :=
  ncatch (_ <~ switch_to_fork id ;; nret true)
    (fun e => match e with
              | time_in_future => _ <~ nwrite (fun n => set_nd_future ({[ pushed ]} ∪ nd_future n) n) ;; nret false
              | _ => nret false
              end).

Lemma tried_run pushed id n n' r : tried pushed id n = (n', r) ->
  exists n1 r1, switch_to_fork id n = (n1, r1) /\ match r1 with
    | Ok _ => n' = n1 /\ r = Ok true
    | Throw undefined_behaviour => n' = n1 /\ r = Throw undefined_behaviour
    | Throw _ => same_tree n1 n' /\ nd_undo n' = nd_undo n1 /\ nd_db n' = nd_db n1 /\ r = Ok false
    end.
Proof.
  unfold tried, ncatch, nbind at 1. destruct (switch_to_fork id n) as [n1 [[]|e]]; intros H; exists n1; eexists; (split; [ reflexivity | ]).
  - unfold nret in H. by simplify_eq.
  - unfold nbind, nwrite, nret in H. destruct e; simplify_eq; done.
Qed.

Lemma stuck_same n n' : same_tree n n' -> nd_undo n' = nd_undo n -> nd_db n' = nd_db n -> stuck n -> stuck n'.
Proof. intros [E1 E2 E3 E4 E5 E6] E7 E8. unfold stuck. by rewrite E2, E4, E5, E7, E8. Qed.

(** A stuck node stays where it is. *)
Definition stays (n n' : node) : Prop := stuck n -> stuck n' /\ nd_head_id n' = nd_head_id n.

Lemma stays_refl n : stays n n.
Proof. by intros ?. Qed.

Lemma stays_trans n1 n2 n3 : stays n1 n2 -> stays n2 n3 -> stays n1 n3.
Proof. intros H H' Hs. destruct (H Hs) as [Hs2 E]. destruct (H' Hs2). split; [ done | congruence ]. Qed.

Lemma tried_spec pushed id d n n' r :
  node_tree n -> ranked rank (nd_blocks n) -> nd_fork n !! id = Some d -> can_link d = true -> id <> 0 ->
  tried pushed id n = (n', r) ->
  node_tree n' /\ grown n n' /\ stays n n' /\ match r with
    | Ok true => nd_head_id n' = id
    | Ok false => positive (nd_blocks n) -> stuck n' \/ invalid_in n' id
    | Throw _ => True
    end.
Proof.
  intros T R Hd Hc H0 H. destruct (tried_run _ _ _ _ _ H) as (n1 & r1 & E & Hr).
  destruct (switch_to_fork_spec rank n id d n1 r1 T R Hd Hc H0 E) as (T1 & G1 & H1).
  assert (S1 : stays n n1) by (intros Hs; by eapply switch_to_fork_stuck).
  destruct r1 as [[]|e]; [ destruct Hr as [-> ->]; done | ].
  destruct (decide (e = undefined_behaviour)) as [->|Hne]; [ destruct Hr as [-> ->]; done | ].
  assert (Hr' : same_tree n1 n' /\ nd_undo n' = nd_undo n1 /\ nd_db n' = nd_db n1 /\ r = Ok false) by (destruct e; done).
  destruct Hr' as (Q & Qu & Qd & ->). split_and!; [ by eapply node_tree_same | | | ].
  - etrans; [ done | by apply same_tree_grown ].
  - eapply stays_trans; [ done | ]. intros Hs. split; [ by eapply stuck_same | by destruct Q ].
  - intros P. destruct H1 as [?|H1]; [ done | ]. destruct (H1 P) as [Hs|Hi]; [ left; by eapply stuck_same | right ].
    by apply (invalid_grown n1); [ apply same_tree_grown | ].
Qed.

Lemma try_forks_spec pushed ids n n' r :
  node_tree n -> ranked rank (nd_blocks n) -> all_known n ids -> try_forks pushed ids n = (n', r) ->
  node_tree n' /\ grown n n' /\ stays n n' /\ match r with
    | Ok true => nd_head_id n' ∈ ids
    | Ok false => positive (nd_blocks n) -> stuck n' \/ none_left n' ids
    | Throw _ => True
    end.
Proof.
  revert n. induction ids as [|id ids IH]; intros n T R Hk H.
  { unfold try_forks, nret in H. simplify_eq. split_and!; [ done | done | apply stays_refl | ]. intros _. right. intros id d Hid. by apply elem_of_nil in Hid. }
  cbn [try_forks] in H. fold (tried pushed id) in H.
  destruct (Hk id ltac:(by left)) as [b Hb]. destruct (ft_known _ _ _ (nt_fork _ T) _ _ Hb) as (d & _ & Hd & _).
  assert (H0 : id <> 0) by (apply (known_nonzero n); eauto).
  assert (Hk' : all_known n ids) by (intros x Hx; apply Hk; by right).
  unfold nbind at 1, nread, fork_fetch in H. rewrite Hd in H. cbn [from_option_or] in H.
  assert (Hstep : forall n1, node_tree n1 -> grown n n1 -> stays n n1 -> try_forks pushed ids n1 = (n', r) ->
    (positive (nd_blocks n) -> stuck n1 \/ forall d1, nd_fork n1 !! id = Some d1 -> can_link d1 = false) ->
    node_tree n' /\ grown n n' /\ stays n n' /\ match r with
      | Ok true => nd_head_id n' ∈ id :: ids
      | Ok false => positive (nd_blocks n) -> stuck n' \/ none_left n' (id :: ids)
      | Throw _ => True end).
  { intros n1 T1 G1 S1 E1 H1. pose proof (gr_blocks _ _ G1) as EB.
    destruct (IH n1 T1) as (T' & G & S' & Hr); [ by rewrite EB | by intros x Hx; rewrite EB; apply Hk' | done | ].
    split_and!; [ done | by etrans | by eapply stays_trans | ]. destruct r as [[]|]; [ by right | | done ].
    intros P. rewrite EB in Hr. destruct (H1 P) as [Hs|Hn1]; [ left; by apply S' | ].
    destruct (Hr P) as [?|Hn]; [ by left | right ].
    destruct (gr_fork _ _ G1 _ _ Hd) as (d1 & Hd1 & _). intros x dx [->|Hx]%elem_of_cons Hdx; [ | by eapply Hn ].
    exact (cannot_link_grown n1 n' id d1 dx G Hd1 (Hn1 _ Hd1) Hdx). }
  destruct (can_link d) eqn:Hc.
  - apply nbind_inv in H as [(n1 & switched & E & H)|(e & E & ->)];
      destruct (tried_spec pushed id d n _ _ T R Hd Hc H0 E) as (T1 & G1 & S1 & H1); [ | done ].
    destruct switched; [ unfold nret in H; simplify_eq; split_and!; try done; by left | ].
    apply (Hstep n1); try done. intros P. destruct (H1 P) as [?|Hi]; [ by left | right ]. intros d1 Hd1.
    by eapply (invalid_cannot_link n1 n1).
  - apply (Hstep n); try done. intros _. right. intros d1 Hd1. by simplify_eq.
Qed.

(** No block of number [k] or below that can be linked is above the head. *)
Definition highest_upto (n : node) (k : Z) : Prop :=
  forall x bx d, nd_blocks n !! x = Some bx -> nd_fork n !! x = Some d -> can_link d = true -> num_of bx <= k ->
    num_of bx <= bh_block_num (nd_head_header n).

Lemma try_heights_spec pushed k n n' r :
  node_tree n -> ranked rank (nd_blocks n) -> try_heights pushed k n = (n', r) ->
  node_tree n' /\ grown n n' /\ stays n n'
  /\ (r = Ok tt -> (forall x b, nd_blocks n !! x = Some b -> 0 < num_of b) -> stuck n' \/ highest_upto n' (Z.of_nat k)).
Proof.
  revert n. induction k as [|k IH]; intros n T R H; cbn [try_heights] in H.
  { unfold nret in H. simplify_eq. split_and!; [ done | done | apply stays_refl | ]. intros _ P. right. intros x bx d Hb _ _ Hle.
    specialize (P _ _ Hb). lia. }
  set (ids := fetch_blocks_at_number (Z.of_nat (Datatypes.S k)) n) in H.
  assert (Hk : all_known n ids) by (intros x Hx; apply (nt_at_number _ T) in Hx as (b & Hb & _); eauto).
  apply nbind_inv in H as [(n1 & [] & E & H)|(e & E & ->)];
    destruct (try_forks_spec pushed ids n _ _ T R Hk E) as (T1 & G1 & S1 & H1); [ | | done ].
  - unfold nret in H. simplify_eq. split_and!; try done. intros _ _. right. intros x bx d Hb _ _ Hle.
    apply (nt_at_number _ T) in H1 as (b & Hbh & En). rewrite <- (gr_blocks _ _ G1) in Hbh.
    rewrite (head_header _ _ T1 Hbh). change (bh_block_num (fb_header b)) with (num_of b). lia.
  - pose proof (gr_blocks _ _ G1) as EB. destruct (IH n1 T1) as (T2 & G2 & S2 & H2); [ by rewrite EB | done | ].
    split_and!; [ done | by etrans | by eapply stays_trans | ]. intros -> P. rewrite EB in H2.
    assert (Pos : positive (nd_blocks n)) by (intros x b Hb; specialize (P _ _ Hb); lia).
    destruct (H1 Pos) as [Hs|Hn]; [ left; by apply S2 | ]. destruct (H2 eq_refl P) as [?|Hh]; [ by left | right ].
    intros x bx d Hb Hd Hc Hle. destruct (decide (num_of bx <= Z.of_nat k)) as [|Hgt]; [ by apply (Hh x bx d) | exfalso ].
    rewrite (gr_blocks _ _ G2), EB in Hb. assert (Hin : x ∈ ids).
    { subst ids. replace (Z.of_nat (Datatypes.S k)) with (num_of bx) by lia. by apply (nt_numbers _ T). }
    destruct (ft_known _ _ _ (nt_fork _ T1) x bx ltac:(by rewrite EB)) as (d1 & _ & Hd1 & _).
    pose proof (cannot_link_grown _ _ _ _ _ G2 Hd1 (Hn _ _ Hin Hd1) Hd). congruence.
Qed.

(** ** Storing the pushed block *)

Lemma rtc_parent_mono (B B' : gmap Z full_block) x y :
  (forall z b, B !! z = Some b -> B' !! z = Some b) -> rtc (parent B) x y -> rtc (parent B') x y.
Proof.
  intros H. induction 1 as [|x z y (b & Hb & <-) _ IH]; [ done | ]. apply rtc_l with (prev_of b); [ | done ]. exists b. auto.
Qed.

Lemma stored_node_tree n b F' longest :
  node_tree n -> nd_blocks n !! full_block_id b = None -> full_block_id b <> 0 ->
  stored (nd_blocks n) (nd_fork n) (full_block_id b) b F' longest ->
  node_tree (set_nd_fork F' (stored_node (full_block_id b) b n)).
Proof.
  intros T Hnew H0 [HT Hold Hinc _]. set (id := full_block_id b) in *.
  assert (Hmono : forall z bz, nd_blocks n !! z = Some bz -> <[id := b]> (nd_blocks n) !! z = Some bz)
    by (intros; by apply old_known).
  unfold stored_node, fetch_blocks_at_number. split; unfold fetch_blocks_at_number;
    cbn [nd_blocks nd_fork nd_fork_number nd_head_id nd_head_header nd_db set_nd_fork set_nd_fork_number set_nd_blocks].
  - done.
  - intros x bx Hx. destruct (decide (x = id)) as [->|Hne]; [ rewrite lookup_insert_eq in Hx; by simplify_eq | ].
    rewrite lookup_insert_ne in Hx by done. by apply (nt_ids _ T).
  - intros x bx Hx. destruct (decide (num_of bx = num_of b)) as [En|Hn];
      [ rewrite En, lookup_insert_eq | rewrite lookup_insert_ne by done ]; cbn [default].
    + apply elem_of_app. destruct (decide (x = id)) as [->|Hne]; [ right; set_solver | left ].
      rewrite lookup_insert_ne in Hx by done. rewrite <- En. by apply (nt_numbers _ T).
    + rewrite lookup_insert_ne in Hx by (intros <-; rewrite lookup_insert_eq in Hx; congruence). by apply (nt_numbers _ T).
  - intros k x Hx. destruct (decide (k = num_of b)) as [->|Hk].
    + rewrite lookup_insert_eq in Hx. cbn [default] in Hx. apply elem_of_app in Hx as [Hx| ->%list_elem_of_singleton].
      * apply (nt_at_number _ T) in Hx as (bx & Hx & E). eauto.
      * exists b. by rewrite lookup_insert_eq.
    + rewrite lookup_insert_ne in Hx by done. apply (nt_at_number _ T) in Hx as (bx & Hx & E). eauto.
  - destruct (nt_head _ T) as [?|(bh & Hbh & E)]; [ by left | right; eauto ].
  - destruct (nt_head_valid _ T) as (d & Hd & Hv). destruct (Hold _ _ Hd) as (d' & Hd' & _ & Hv' & _). eauto.
  - apply (nt_head_num _ T).
  - intros x d Hd Hi. destruct (Hinc _ _ Hd Hi) as (d0 & Hd0 & Hi0). apply (rtc_parent_mono (nd_blocks n)); [ done | ].
    by apply (nt_included _ T _ d0).
Qed.

Lemma stored_stays n id b F' longest : stored (nd_blocks n) (nd_fork n) id b F' longest ->
  stays n (set_nd_fork F' (stored_node id b n)).
Proof.
  intros [_ Hold _ _] (H0 & Hnum & (d & Hd & Hi) & Hu). split; [ | done ]. destruct (Hold _ _ Hd) as (d' & Hd' & Ei & _).
  split_and!; try done. exists d'. split; [ exact Hd' | congruence ].
Qed.

(** No block that can be linked is above the head. *)
Definition highest (n : node) : Prop :=
  forall x bx d, nd_blocks n !! x = Some bx -> nd_fork n !! x = Some d -> can_link d = true ->
    num_of bx <= bh_block_num (nd_head_header n).

Lemma choose_fork_spec id head_num longest n n' r :
  node_tree n -> ranked rank (nd_blocks n) -> choose_fork id head_num longest n = (n', r) ->
  node_tree n' /\ grown n n' /\ stays n n' /\
  (is_ok r = true -> (forall x b, nd_blocks n !! x = Some b -> 0 < num_of b) -> stuck n'
    \/ n' = n /\ (can_link longest.2 = true -> exists bl, nd_blocks n !! longest.1 = Some bl /\ num_of bl <= head_num)
    \/ exists bl, can_link longest.2 = true /\ nd_blocks n !! longest.1 = Some bl /\ head_num < num_of bl
        /\ highest_upto n' (num_of bl)).
Proof.
  intros T R H. unfold choose_fork in H.
  set (m := if can_link longest.2 then _ else _) in H.
  assert (exists r1, m n = (n', r1) /\ (is_ok r = true -> r1 = Ok tt)) as (r1 & Hm & Hok).
  { apply nbind_inv in H as [(n1 & [] & E & H)|(e & E & ->)]; [ | by exists (Throw e) ].
    assert (n1 = n') as -> by (unfold fork_data_of, nread in H; congruence). by exists (Ok tt). }
  clear H. subst m. destruct (can_link longest.2).
  - unfold nbind, nread, get_block in Hm. destruct (nd_blocks n !! longest.1) as [bl|]; cbn [from_option_or] in Hm.
    + fold (num_of bl) in Hm. destruct (Z.ltb_spec head_num (num_of bl)) as [Hlt|Hge].
      * destruct (try_heights_spec _ _ _ _ _ T R Hm) as (T' & G & S' & Hh). split_and!; try done.
        intros Hr P. destruct (Hh (Hok Hr) P) as [?|Hup]; [ by left | right; right ]. exists bl. split_and!; try done.
        intros x bx d Hb Hd Hc Hle. apply (Hup x bx d Hb Hd Hc). lia.
      * unfold nret in Hm. simplify_eq. split_and!; [ done | done | apply stays_refl | ]. intros _ _. right. left. eauto.
    + simplify_eq. split_and!; [ done | done | apply stays_refl | ]. intros Hr. by specialize (Hok Hr).
  - unfold nret in Hm. simplify_eq. split_and!; [ done | done | apply stays_refl | ]. intros _ _. right. left. by split.
Qed.

(** What [push_block] does with a block that is not too old and not known. *)
Lemma push_block_run b n n' r : node_tree n -> ranked rank (<[full_block_id b := b]> (nd_blocks n)) -> full_block_id b <> 0 ->
  push_block b n = (n', r) ->
  n' = n \/ nd_blocks n !! full_block_id b = None /\ exists F' longest,
    stored (nd_blocks n) (nd_fork n) (full_block_id b) b F' longest
    /\ choose_fork (full_block_id b) (db_head_num (nd_db n)) longest (set_nd_fork F' (stored_node (full_block_id b) b n)) = (n', r).
Proof.
  intros T R H0 H. unfold push_block in H. destruct (_ && _); [ left; congruence | ].
  destruct (is_known_block (full_block_id b) n) eqn:Ek; [ left; unfold fork_data_of, nread in H; congruence | right ].
  assert (Hnew : nd_blocks n !! full_block_id b = None).
  { destruct (nd_blocks n !! full_block_id b) as [b'|] eqn:Eb; [ | done ].
    destruct (ft_known _ _ _ (nt_fork _ T) _ _ Eb) as (d & _ & Hd & _ & _ & Hk & _).
    unfold is_known_block, get_block_fork_data in Ek. rewrite Hd in Ek. congruence. }
  split; [ done | ]. destruct (store_and_index_spec (full_block_id b) b n rank (nt_fork _ T) R Hnew H0) as (F' & longest & E & Hs).
  exists F', longest. split; [ done | ]. by rewrite (nbind_ok _ _ _ _ _ E) in H.
Qed.

Lemma push_block_tree b n n' r : node_tree n -> ranked rank (<[full_block_id b := b]> (nd_blocks n)) -> full_block_id b <> 0 ->
  push_block b n = (n', r) ->
  node_tree n' /\ (nd_blocks n' = nd_blocks n \/ nd_blocks n' = <[full_block_id b := b]> (nd_blocks n)).
Proof.
  intros T R H0 H. destruct (push_block_run _ _ _ _ T R H0 H) as [->|(Hnew & F' & longest & Hs & E)]; [ by split; [ | left ] | ].
  pose proof (stored_node_tree _ _ _ _ T Hnew H0 Hs) as T1. apply (choose_fork_spec _ _ _ _ _ _ T1 R) in E as (T2 & G & _).
  split; [ done | right ]. by rewrite (gr_blocks _ _ G).
Qed.

(** ** The properties *)

(** The node after blocks are pushed one after the other, whatever the
    outcome of each. *)
Inductive reaches : node -> list full_block -> node -> Prop :=
| reaches_nil n : reaches n [] n
| reaches_push n b n1 r bs n2 : push_block b n = (n1, r) -> reaches n1 bs n2 -> reaches n (b :: bs) n2.

(** C2: Whatever blocks are pushed and whatever comes of them, the records of
    the fork database fit the blocks the node knows and its head: linked
    blocks are those that lead to the genesis, what descends in the linked
    part from an invalid block is invalid, what is below a valid block is
    valid, the included blocks lie between the genesis and the head, the
    blocks of each number are listed. The blocks are not their own ancestors:
    [rank] grows from parent to child. *)
Theorem pushed_blocks_keep_tree (n n' : node) (bs : list full_block) :
  node_tree n -> ranked rank (nd_blocks n) ->
  Forall (fun b => full_block_id b <> 0 /\ (rank (prev_of b) < rank (full_block_id b))%nat) bs ->
  reaches n bs n' -> node_tree n'.
Proof.
  intros T R Hbs H. induction H as [n|n b n1 r bs n2 E _ IH]; [ done | ]. apply Forall_cons in Hbs as [[H0 Hr] Hbs].
  assert (R1 : ranked rank (<[full_block_id b := b]> (nd_blocks n))).
  { intros x bx Hx. destruct (decide (x = full_block_id b)) as [->|Hne].
    - rewrite lookup_insert_eq in Hx. by simplify_eq.
    - rewrite lookup_insert_ne in Hx by done. by apply R. }
  destruct (push_block_tree _ _ _ _ T R1 H0 E) as [T1 [EB|EB]]; apply IH; rewrite ?EB; done.
Qed.

(** A node stays where it is for ever once its head is not included and
    cannot be popped, for want of its undo state for example: no block that is
    pushed moves the head any more. *)
Theorem stuck_for_ever (b : full_block) (n n' : node) (r : result block_fork_data) :
  node_tree n -> ranked rank (<[full_block_id b := b]> (nd_blocks n)) -> full_block_id b <> 0 -> stuck n ->
  push_block b n = (n', r) -> stuck n' /\ nd_head_id n' = nd_head_id n.
Proof.
  intros T R H0 Hs H. destruct (push_block_run _ _ _ _ T R H0 H) as [->|(Hnew & F' & longest & Hst & E)]; [ done | ].
  pose proof (stored_node_tree _ _ _ _ T Hnew H0 Hst) as T1. apply (choose_fork_spec _ _ _ _ _ _ T1 R) in E as (_ & _ & S1 & _).
  exact (stays_trans _ _ _ (stored_stays _ _ _ _ _ Hst) S1 Hs).
Qed.

End push.

(** With numbers that grow from parent to child no block is its own
    ancestor. *)
Definition number_rank (B : gmap Z full_block) (x : Z) : nat := match B !! x with Some b => Z.to_nat (num_of b) | None => 0%nat end.

Lemma numbered_ranked B : numbered B -> ranked (number_rank B) B.
Proof.
  intros N id b Hb. destruct (N id b Hb) as [Hp Hlt]. unfold number_rank. rewrite Hb.
  destruct (B !! prev_of b) as [bp|] eqn:E; [ specialize (Hlt bp eq_refl) | ]; lia.
Qed.

Section longest.
Context `{FcI : Fc} `{Cr : Crypto} `{Tx : TxCrypto} `{St : Statics} `{BC : BlockCrypto} `{Cp : Checkpoints} `{Gm : Games}.

(** C1: The longest chain: when [push_block] returns, no block that leads to
    the genesis and is not known to be invalid has a greater number than the
    head, provided it was so before and block numbers grow from parent to
    child; unless a block of the old chain could not be popped. *)
Theorem push_block_longest (b : full_block) (n n' : node) (d : block_fork_data) :
  node_tree n -> numbered (<[full_block_id b := b]> (nd_blocks n)) -> full_block_id b <> 0 ->
  highest n -> push_block b n = (n', Ok d) -> highest n' \/ stuck n'.
Proof.
  intros T N H0 Hh H. pose proof (numbered_ranked _ N) as R.
  destruct (push_block_run _ _ _ _ _ T R H0 H) as [->|(Hnew & F' & longest & Hs & E)]; [ by left | ].
  pose proof (stored_node_tree (number_rank ∅) _ _ _ _ T Hnew H0 Hs) as T1.
  destruct (choose_fork_spec _ _ _ _ _ _ _ T1 R E) as (T2 & G & _ & Hc).
  assert (Pos : forall x bx, <[full_block_id b := b]> (nd_blocks n) !! x = Some bx -> 0 < num_of bx) by (intros x bx Hx; by apply (N x)).
  destruct (Hc eq_refl Pos) as [?|[[-> Hlow]|(bl & Hcl & Hbl & Hgt & Hup)]]; [ by right | left | left ]; intros x bx dx Hb Hd Hl.
  - destruct (st_longest _ _ _ _ _ _ Hs N x bx dx Hb Hd Hl) as [(d0 & Hd0 & Hb0 & Hc0)|(Hcl & bl & Hbl & Hle)].
    + by apply (Hh x bx d0).
    + destruct (Hlow Hcl) as (bl' & Hbl' & Hle'). change (<[full_block_id b := b]> (nd_blocks n) !! longest.1 = Some bl') in Hbl'.
      simplify_eq. change (num_of bx <= bh_block_num (nd_head_header n)). rewrite <- (nt_head_num _ T). lia.
  - apply (Hup x bx dx Hb Hd Hl). rewrite (gr_blocks _ _ G) in Hb.
    destruct (ft_known _ _ _ (nt_fork _ T1) x bx Hb) as (d1 & _ & Hd1 & _).
    assert (Hl1 : can_link d1 = true) by (destruct (can_link d1) eqn:Ec; [ done | ];
      by rewrite (cannot_link_grown _ _ _ _ _ G Hd1 Ec Hd) in Hl).
    destruct (st_longest _ _ _ _ _ _ Hs N x bx d1 Hb Hd1 Hl1) as [(d0 & Hd0 & Hb0 & Hc0)|(_ & bl' & Hbl' & Hle)].
    + specialize (Hh x bx d0 Hb0 Hd0 Hc0). rewrite (nt_head_num _ T) in Hgt. lia.
    + change (<[full_block_id b := b]> (nd_blocks n) !! longest.1 = Some bl) in Hbl. by simplify_eq.
Qed.

(** From a head of number 0 no fork can be reached: the loop of
    [switch_to_fork] does not end, whatever bound is put on it, and leaves the
    node as it is. *)
Theorem block_zero_hangs (n : node) (target : Z) :
  bh_block_num (nd_head_header n) = 0 -> nd_head_id n <> target ->
  forall fuel, pop_until fuel target n = (n, Throw undefined_behaviour).
Proof.
  intros E Hne fuel. induction fuel as [|fuel IH]; cbn [pop_until]; rewrite (proj2 (Z.eqb_neq _ _) Hne); [ done | ].
  rewrite (nbind_ok pop_block (fun _ => pop_until fuel target) n n tt); [ exact IH | ]. unfold pop_block. by rewrite E.
Qed.

(** ** A block on top of the head *)
Section on_head.
Context (rank : Z -> nat) (b : full_block) (n : node).
Hypothesis T : node_tree n.
Hypothesis R : ranked rank (<[full_block_id b := b]> (nd_blocks n)).
Hypothesis Hprev : prev_of b = nd_head_id n.
Hypothesis Hunseen : nd_fork n !! full_block_id b = None.
Hypothesis Hid : full_block_id b <> 0.

Abbreviation id := (full_block_id b).

Lemma on_head_new : nd_blocks n !! id = None.
Proof.
  destruct (nd_blocks n !! id) as [b'|] eqn:E; [ | done ]. destruct (ft_known _ _ _ (nt_fork _ T) _ _ E) as (d & _ & Hd & _). congruence.
Qed.

Lemma head_linked d : nd_fork n !! nd_head_id n = Some d -> can_link d = true.
Proof.
  intros Hd. destruct (nt_head_valid _ T) as (d' & Hd' & Hv). simplify_eq.
  assert (Hl : fd_is_linked d = true).
  { destruct (decide (nd_head_id n = 0)) as [E|Hne].
    - destruct (ft_root _ _ _ (nt_fork _ T)) as (_ & d0 & Hd0 & Hl & _). rewrite E in Hd. congruence.
    - destruct (head_known n T Hne) as (bh & Hbh & _). destruct (parent_facts _ _ _ _ T Hbh Hd) as (dp & _ & Hk).
      revert Hk Hv. clear. fork_cases. }
  unfold can_link, fork_invalid. by rewrite Hl, Hv.
Qed.

(** The node with the block stored, and the record of the block. *)
Definition on_head_node : node := set_nd_fork (with_records (nd_fork n) id b (new_record id b n)) (stored_node id b n).

Lemma on_head_stored : store_and_index id b n = (on_head_node, Ok (id, new_record id b n)) /\ can_link (new_record id b n) = true.
Proof.
  destruct (nt_head_valid _ T) as (d & Hd & _). pose proof (head_linked d Hd) as Hc. split.
  - rewrite (store_and_index_run id b n rank) by (done || apply (nt_fork _ T) || apply on_head_new). by rewrite Hunseen.
  - unfold new_record, parent_record. rewrite Hunseen, Hprev, Hd. cbn [default]. revert Hc. clear. by status d.
Qed.

Hypothesis Hincluded : exists d, nd_fork n !! nd_head_id n = Some d /\ fd_is_included d = true.

Lemma on_head_history : get_fork_history id on_head_node = Ok [id; nd_head_id n].
Proof.
  assert (Hne : id <> prev_of b) by (eapply (parent_neq (nd_blocks n)); exact R).
  unfold get_fork_history. cbn [fork_history_from]. unfold get_block_header, get_block, on_head_node, stored_node.
  cbn [nd_blocks set_nd_fork set_nd_fork_number set_nd_blocks]. rewrite lookup_insert_eq. cbn [from_option_or rbind].
  change (bh_previous (fb_header b)) with (prev_of b). rewrite Hprev.
  destruct (Z.eqb_spec (nd_head_id n) 0) as [->|Hz]; [ done | ].
  destruct Hincluded as (d & Hd & Hi). pose proof (head_linked d Hd) as Hc. apply andb_true_iff in Hc as [Hl _].
  unfold fork_fetch, with_records. cbn [nd_fork set_nd_fork]. rewrite Hprev, lookup_insert_ne, lookup_insert_eq by congruence.
  unfold parent_record. rewrite Hprev, Hd. cbn. by rewrite Hl, Hi.
Qed.

Lemma on_head_switch : switch_to_fork id on_head_node = extend_chain b on_head_node.
Proof.
  assert (Hne : id <> nd_head_id n) by (rewrite <- Hprev; eapply (parent_neq (nd_blocks n)); exact R).
  unfold switch_to_fork. change (nd_head_id on_head_node) with (nd_head_id n). rewrite (proj2 (Z.eqb_neq _ _) Hne).
  unfold nbind at 1, nread. rewrite on_head_history. unfold nbind at 1. cbn [list.last from_option_or].
  unfold nbind at 1. cbn [pop_until]. change (nd_head_id on_head_node) with (nd_head_id n). rewrite Z.eqb_refl.
  cbn [rev app tail nfold]. unfold nbind at 1 2, nread, get_block, on_head_node, stored_node.
  cbn [nd_blocks set_nd_fork set_nd_fork_number set_nd_blocks]. rewrite lookup_insert_eq. cbn [from_option_or].
  unfold nret. by destruct (extend_chain b _) as [? [[]|?]].
Qed.
End on_head.

End longest.

(** ** A concrete node *)

#[local] Existing Instance demo_crypto.
#[local] Existing Instance demo_tx.
#[local] Existing Instance demo_statics.
#[local] Existing Instance fork_crypto.
#[local] Existing Instance no_checkpoints.
#[local] Existing Instance no_games.

Lemma fresh_record x d : nd_fork fresh_node !! x = Some d -> x = 0 /\ d = genesis_record.
Proof. intros Hd. change (({[ 0 := genesis_record ]} : gmap Z block_fork_data) !! x = Some d) in Hd. apply lookup_singleton_Some in Hd as [<- <-]. done. Qed.

Lemma fresh_node_tree : node_tree fresh_node.
Proof.
  split; try done.
  - split; try done.
    + split; [ done | ]. exists genesis_record. done.
    + intros x d c Hd Hc. apply fresh_record in Hd as [-> ->]. cbn in Hc. set_solver.
    + intros x d Hd _ Hne. by apply fresh_record in Hd as [-> _].
    + intros x d Hd Hi. by apply fresh_record in Hd as [-> ->].
  - intros k x Hx. unfold fetch_blocks_at_number in Hx. cbn in Hx. set_solver.
  - by left.
  - exists genesis_record. done.
  - intros x d Hd _. by apply fresh_record in Hd as [-> _].
Qed.

(** The number of a block of the example is in its id. *)
Definition id_rank (id : Z) : nat := Z.to_nat (id / 1000000).

Lemma ranked_check B : bool_decide (map_Forall (fun id b => (id_rank (prev_of b) < id_rank id)%nat) B) = true -> ranked id_rank B.
Proof. intros H%bool_decide_eq_true id b Hb. by apply (H id b). Qed.

Definition first_block : full_block := demo_block_at 0 1 100000.
Definition second_block : full_block := demo_block_at (full_block_id first_block) 2 100010.
(** Another fork, higher. *)
Definition other_first : full_block := demo_block_at 0 1 99980.
Definition other_second : full_block := demo_block_at (full_block_id other_first) 2 99990.
Definition other_third : full_block := demo_block_at (full_block_id other_second) 3 100000.

Definition after (bs : list full_block) : node := foldl (fun n b => pushed b n) fresh_node bs.

Lemma after_reaches bs n : reaches n bs (foldl (fun n b => pushed b n) n bs).
Proof.
  revert n. induction bs as [|b bs IH]; intros n; [ constructor | ]. cbn [foldl].
  eapply reaches_push; [ | apply IH ]. unfold pushed. apply surjective_pairing.
Qed.

(** The blocks of the higher fork arrive from the last to the first; the node
    changes its chain when they are linked. *)
Example fork_switched :
  nd_head_id (after [first_block; second_block]) = full_block_id second_block
  /\ nd_head_id (after [first_block; second_block; other_third; other_second]) = full_block_id second_block
  /\ nd_head_id (after [first_block; second_block; other_third; other_second; other_first]) = full_block_id other_third.
Proof. vm_compute. done. Qed.

Lemma pushed_blocks_keep_tree_witness :
  node_tree (after [first_block; second_block; other_third; other_second; other_first]).
Proof.
  apply (pushed_blocks_keep_tree id_rank fresh_node _ [first_block; second_block; other_third; other_second; other_first]).
  - exact fresh_node_tree.
  - intros id b Hb. done.
  - repeat constructor; vm_compute; done || lia.
  - apply after_reaches.
Defined.

Lemma pushed_tree b n : node_tree n ->
  bool_decide (map_Forall (fun id b => (id_rank (prev_of b) < id_rank id)%nat) (<[full_block_id b := b]> (nd_blocks n))) = true ->
  full_block_id b <> 0 -> node_tree (pushed b n).
Proof.
  intros T R%ranked_check H0. unfold pushed. destruct (push_block b n) as [n' r] eqn:E. by apply (push_block_tree id_rank b n n' r).
Qed.

Ltac pushed_tree :=
  repeat (apply pushed_tree; [ | vm_compute; reflexivity | vm_compute; discriminate ]); exact fresh_node_tree.

Lemma numbered_check B :
  bool_decide (map_Forall (fun id b => 0 < num_of b /\ num_of (default first_block (B !! prev_of b)) < num_of b
    \/ 0 < num_of b /\ B !! prev_of b = None) B) = true -> numbered B.
Proof.
  intros H%bool_decide_eq_true id b Hb. destruct (H id b Hb) as [[? Hp]|[? Hp]]; (split; [ done | ]); intros p Ep; rewrite Ep in Hp; done.
Qed.

Lemma positive_check B : bool_decide (map_Forall (fun _ b => num_of b <> 0) B) = true -> positive B.
Proof. intros H%bool_decide_eq_true id b Hb. by apply (H id b). Qed.

Lemma highest_check n :
  bool_decide (map_Forall (fun id b => implb (can_link (default fork_data_default (nd_fork n !! id)))
    (num_of b <=? bh_block_num (nd_head_header n)) = true) (nd_blocks n)) = true -> highest n.
Proof.
  intros H%bool_decide_eq_true x bx d Hb Hd Hc. specialize (H x bx Hb). cbv beta in H. rewrite Hd in H.
  change (default fork_data_default (Some d)) with d in H. rewrite Hc in H. cbn [implb] in H. lia.
Qed.

(** A fork that becomes linked and is higher. *)
Definition waiting : node := after [first_block; other_second].

Lemma push_block_longest_witness :
  highest (pushed other_first waiting) /\ nd_head_id (pushed other_first waiting) = full_block_id other_second.
Proof.
  split; [ | vm_compute; reflexivity ].
  destruct (push_block_longest other_first waiting (pushed other_first waiting)
    (ok_or fork_data_default (snd (push_block other_first waiting)))) as [H|(_ & _ & (d & Hd & Hi) & _)].
  - unfold waiting, after. cbn [foldl]. pushed_tree.
  - apply numbered_check. vm_compute. reflexivity.
  - vm_compute. discriminate.
  - apply highest_check. vm_compute. reflexivity.
  - vm_compute. reflexivity.
  - exact H.
  - exfalso. revert Hi. vm_compute in Hd. injection Hd as <-. discriminate.
Defined.


(** The undo states are lost; the other fork makes the node pop its head. *)
Definition no_undo : node := set_nd_undo ∅ (after [first_block]).
Definition wedged : node := pushed other_second (pushed other_first no_undo).

Lemma set_undo_same u n : same_tree n (set_nd_undo u n).
Proof. by split. Qed.

Lemma no_undo_tree : node_tree no_undo.
Proof.
  apply (node_tree_same (after [first_block])); [ apply set_undo_same | ]. unfold after. cbn [foldl]. pushed_tree.
Qed.

Lemma wedged_tree : node_tree wedged.
Proof. repeat (apply pushed_tree; [ | vm_compute; reflexivity | vm_compute; discriminate ]). exact no_undo_tree. Qed.

Lemma wedged_stuck : stuck wedged.
Proof.
  unfold stuck. split_and!; [ vm_compute; discriminate.. | | ].
  - exists (default fork_data_default (nd_fork wedged !! nd_head_id wedged)). split; vm_compute; reflexivity.
  - exists assert_exception. vm_compute. reflexivity.
Qed.

Lemma stuck_for_ever_witness :
  stuck (pushed other_third wedged) /\ nd_head_id (pushed other_third wedged) = full_block_id first_block.
Proof.
  destruct (stuck_for_ever id_rank other_third wedged (pushed other_third wedged) (snd (push_block other_third wedged))) as [H E].
  - exact wedged_tree.
  - apply ranked_check. vm_compute. reflexivity.
  - vm_compute. discriminate.
  - exact wedged_stuck.
  - unfold pushed. apply surjective_pairing.
  - split; [ exact H | ]. rewrite E. vm_compute. reflexivity.
Defined.

(** The block of the other fork that can be linked. *)
Definition first_known : node := pushed other_first no_undo.


(** A block of number 0 is accepted, unsigned, under a block of number 1; the
    node then waits for ever in its next switch. *)
Definition block_zero : full_block := demo_block_at 0 0 99970.
Definition on_block_zero : full_block := demo_block_at (full_block_id block_zero) 1 99980.
Definition at_zero : node := after [block_zero; on_block_zero].

Example block_zero_is_head : nd_head_id at_zero = full_block_id block_zero
  /\ snd (push_block first_block at_zero) = Throw undefined_behaviour.
Proof. vm_compute. done. Qed.

Lemma block_zero_hangs_witness : pop_until 500 0 at_zero = (at_zero, Throw undefined_behaviour).
Proof. refine (block_zero_hangs at_zero 0 _ _ 500); vm_compute; [ reflexivity | discriminate ]. Defined.
