(* ===== verification/ChainSupply.v ===== *)
(** The steps of a block: each conserves the supply of every asset, keeps the
    state well formed and the accounts' keys, and the database below. The whole
    block: every step of [extend_chain], from the header to the database with
    the new head, conserves the supply of every asset, and a block that was
    evaluated can be committed. *)

From stdpp Require Import sorting.
From S2P Require Import Prelude StateMonad Asset Records ChainInterface EvalState BalanceOps Transaction Tables PendingState ChainDatabase Market Concrete BlockOps.
From S2P Require Import Node ForkDb Undo Supply Conservation BlockProps Frames AccountKeys MarketProps ForkTree ForkSwitch ForkDemo.

(** A state made from another: well formed, with its accounts' keys, and
    with the same total of every asset. *)
Definition balanced {S S' : Type} `{CI : chain_interface S} `{!chain_spec S} `{CI' : chain_interface S'} `{!chain_spec S'}
    `{Cr : Crypto} `{St : Statics} (s : S) (s' : S') : Prop :=
  wf s' /\ state_ok s' /\ forall a, total a s' ≡64 total a s.

Section balanced.
Context `{Cr : Crypto} `{St : Statics}.

Lemma balanced_refl {S} `{CI : chain_interface S} `{!chain_spec S} (s : S) : wf s -> state_ok s -> balanced s s.
Proof. intros. by split_and!. Qed.

Lemma balanced_trans {S1 S2 S3} `{CI1 : chain_interface S1} `{!chain_spec S1} `{CI2 : chain_interface S2} `{!chain_spec S2}
    `{CI3 : chain_interface S3} `{!chain_spec S3} (s1 : S1) (s2 : S2) (s3 : S3) :
  balanced s1 s2 -> balanced s2 s3 -> balanced s1 s3.
Proof. intros (_ & _ & A) (W & O & A'). split_and!; [ done | done | ]. intros a. by rewrite A', A. Qed.
(** Records of tables that hold nothing. *)
Lemma store_plain_balanced {S} `{CI : chain_interface S} `{!chain_spec S} t k v (p p' : S) :
  store t k v p = Ok p' -> t <> account_t -> (forall a v, held t a v = 0) -> (forall k v, key_ok t k v) -> store_guard p t k ->
  wf p -> state_ok p -> balanced p p'.
Proof.
  intros H Hne Hh Hk Hg Hwf Hok. destruct (step_plain t k v p p' ∅ H Hwf Hh Hk Hg) as [W A]. split_and!; [ done | by eapply state_ok_store_other | ].
  intros a. specialize (A a). rewrite !accounted_no_fees in A. by rewrite A.
Qed.
End balanced.

Section chain_supply.
Context `{FcI : Fc} `{Cr : Crypto} `{CF : !CollisionFree} `{Tx : TxCrypto} `{St : Statics} `{BC : BlockCrypto}.
Context `{Cp : Checkpoints} `{Gm : Games}.
Implicit Types (db : chain_database) (p : pending_chain_state chain_database).


Lemma balanced_then p p' p'' : balanced p p' -> balanced p' p'' -> balanced p p''.
Proof. apply balanced_trans. Qed.

(** *** Stores *)

Lemma store_slot_balanced db r p : wf p -> state_ok p -> balanced p (store_slot db r p).
Proof. intros. by apply (store_plain_balanced slot_t (sl_delegate_id r, sl_timestamp r) r). Qed.

Lemma store_property_balanced k v p : k <> last_account_id_property -> wf p -> state_ok p -> balanced p (store_property_record k v p).
Proof. intros. by apply (store_plain_balanced property_t k v). Qed.

(** An account with other delegate figures. *)
Lemma store_delegate_balanced p p' k r d d' :
  get_account_record p k = Some r -> ac_delegate_info r = Some d -> ds_signing_key_history d' = ds_signing_key_history d ->
  ds_pay_balance d' = ds_pay_balance d -> store_account_record (set_ac_delegate_info (Some d') r) p = Ok p' ->
  wf p -> state_ok p -> balanced p p'.
Proof.
  intros Hr Hd Hs Hb H Hwf Hok.
  assert (Hpay : pay_balance_of (set_ac_delegate_info (Some d') r) = pay_balance_of r) by (unfold pay_balance_of; simpl; by rewrite Hd).
  destruct (account_total r _ p p' k Hr H Hwf eq_refl Hpay) as [W A].
  split_and!; [ done | | intros a; by rewrite A ].
  eapply state_ok_store_account; [ exact H | | done ]. apply (delegate_info_keys r d d'); try done. by apply (state_ok_keys p k).
Qed.

(** *** Production statistics *)

Lemma missed_balanced fuel db active t until p p' :
  missed_from fuel db active t until p = Ok p' -> wf p -> state_ok p -> balanced p p'.
Proof.
  revert t p. induction fuel as [|fuel IH]; intros t p H Hwf Hok; cbn [missed_from] in H;
    (destruct (t <? until); [ | inv_ok; simplify_eq; by apply balanced_refl ]); [ done | ].
  inv_ok.
  match goal with H : store_account_record _ p = Ok ?x |- _ => rename x into p1; rename H into Hs end.
  match goal with H : get_account_record p _ = Some ?x |- _ => rename x into r; rename H into Hr end.
  match goal with H : ac_delegate_info r = Some ?x |- _ => rename x into d; rename H into Hd end.
  match goal with H : missed_from _ _ _ _ _ _ = Ok _ |- _ => rename H into Hm end.
  assert (B1 : balanced p p1) by (eapply store_delegate_balanced; [ exact Hr | exact Hd | | | exact Hs | .. ]; done).
  pose proof B1 as (W1 & O1 & A1).
  eapply balanced_then; [ exact B1 | ].
  match type of Hm with context [if ?b then _ else _] => destruct b end; [ | by eapply IH ].
  match type of Hm with missed_from _ _ _ _ _ ?q = _ => assert (B2 : balanced p1 q) by (by apply store_slot_balanced) end.
  pose proof B2 as (W2 & O2 & A2). eapply balanced_then; [ exact B2 | by eapply IH ].
Qed.

Lemma produced_info_frame h d d' : produced_info h d = Ok d' ->
  ds_signing_key_history d' = ds_signing_key_history d /\ ds_pay_balance d' = ds_pay_balance d.
Proof. unfold produced_info. intros H. inv_ok. by simplify_eq. Qed.

Lemma production_balanced db h id signee p p' :
  update_delegate_production_info db h id signee p = Ok p' -> wf p -> state_ok p -> balanced p p'.
Proof.
  unfold update_delegate_production_info. intros H Hwf Hok. inv_ok.
  match goal with H : produced_info _ _ = Ok _ |- _ => apply produced_info_frame in H as [F1 F2] end.
  match goal with H : store_account_record _ p = Ok ?x |- _ => rename x into p1; rename H into Hs end.
  match goal with H : get_account_record p _ = Some ?x |- _ => rename x into r; rename H into Hr end.
  match goal with H : ac_delegate_info r = Some ?x |- _ => rename x into d; rename H into Hd end.
  assert (B1 : balanced p p1) by (eapply store_delegate_balanced; [ exact Hr | exact Hd | | | exact Hs | .. ]; done).
  pose proof B1 as (W1 & O1 & A1). eapply balanced_then; [ exact B1 | ].
  match goal with H : missed_from _ _ _ _ _ ?q = Ok _ |- _ => rename H into Hm; assert (B2 : balanced p1 q) end.
  { match goal with |- context [if ?b then _ else _] => destruct b end; [ by apply store_slot_balanced | by apply balanced_refl ]. }
  pose proof B2 as (W2 & O2 & A2). eapply balanced_then; [ exact B2 | by eapply missed_balanced ].
Qed.

(** *** The other steps *)

Lemma pay_delegate_balanced db signee p p' pay :
  pay_delegate db signee p = Ok (p', pay) -> wf p -> state_ok p -> balanced p p'.
Proof.
  intros H Hwf Hok. destruct (pay_delegate_conserves db signee p p' pay H Hwf) as (W & A & _). split_and!; [ done | | done ].
  unfold pay_delegate in H. inv_ok. injection H as <- _.
  match goal with |- state_ok (store_asset_record ?x ?q) => refine (state_ok_store_other asset_t (as_id x) x q _ eq_refl _ _); [ done | ] end.
  eapply state_ok_store_account; [ eassumption | | done ].
  eapply delegate_info_keys; [ eassumption | done | eapply (state_ok_keys p); eassumption ].
Qed.

Lemma map_sum_zero {K V} `{Countable K} (f : K -> V -> Z) (m : gmap K V) : (forall k v, f k v = 0) -> map_sum f m = 0.
Proof.
  intros Hf. unfold map_sum. apply (map_fold_weak_ind (fun acc _ => acc = 0)); [ done | ]. intros k v m' r _ ->. by rewrite Hf.
Qed.

(** The same records, the property of the dirty markets apart. *)
Definition same_flat {S1 S2} `{CI1 : chain_interface S1} `{!chain_spec S1} `{CI2 : chain_interface S2} `{!chain_spec S2}
    (s : S1) (s' : S2) : Prop :=
  forall t k, tracked t = true -> dirty_key t k = false -> flat t s' !! k = flat t s !! k.

(** They determine the total, well-formedness and the accounts' keys. *)
Lemma same_flat_balanced {S1 S2} `{CI1 : chain_interface S1} `{!chain_spec S1} `{CI2 : chain_interface S2} `{!chain_spec S2}
    (s : S1) (s' : S2) : same_flat s s' -> wf s -> state_ok s -> balanced s s'.
Proof.
  intros H [W1 W2] Hok. split_and!.
  - split.
    + intros t k v Hv. destruct (decide (t = property_t \/ t = slot_t)) as [[->| ->]|Hne]; [ done | done | ].
      apply W1. rewrite <- H; [ done | destruct t; naive_solver.. ].
    + intros n id r. rewrite !last_account_id_flat, (H property_t), (H account_t), <- last_account_id_flat by done. apply W2.
  - apply state_ok_accounts. intros k v. rewrite H by done. apply (Hok account_t).
  - intros a. apply eqm_of_eq. unfold total.
    assert (E : forall t, map_sum (fun _ v => held t a v) (flat t s') = map_sum (fun _ v => held t a v) (flat t s)).
    { intros t. destruct (decide (t = property_t)) as [->|Hp]; [ by rewrite !map_sum_zero | ].
      destruct (decide (t = slot_t)) as [->|Hs]; [ by rewrite !map_sum_zero | ].
      f_equal. apply map_eq. intros k. apply H; destruct t; done. }
    unfold table_sum. by rewrite !E.
Qed.

Lemma markets_balanced db ts p p' : execute_markets db ts p = Ok p' -> wf p -> state_ok p -> balanced p p'.
Proof.
  unfold execute_markets. intros H Hwf Hok. destruct (foldM (execute_market db ts) _ (p, [])) as [r|] eqn:E; [ | done ].
  destruct (execute_market_list_inv _ _ _ _ _ E Hok Hwf) as (p1 & -> & U & _). cbn [rbind] in H. inv_ok.
  apply same_flat_balanced; [ | done | done ]. intros t k Ht Hk. rewrite <- (U t k Ht Hk). by rewrite flat_market_transactions.
Qed.

Lemma transactions_balanced skip n i trxs p p' :
  apply_transactions skip n i trxs p = Ok p' -> forallb proper_claims trxs = true -> wf p -> state_ok p -> balanced p p'.
Proof.
  intros H Hc Hwf Hok. destruct (apply_transactions_total _ _ _ _ _ _ H Hc Hwf) as [W A].
  split_and!; [ done | by eapply apply_transactions_ok | done ].
Qed.

Lemma delegates_balanced db n p : wf p -> state_ok p -> balanced p (update_active_delegate_list db n p).
Proof.
  intros. unfold update_active_delegate_list. destruct (negb _); [ by apply balanced_refl | by apply store_property_balanced ].
Qed.

Lemma seed_balanced secret p : wf p -> state_ok p -> balanced p (update_random_seed secret p).
Proof. intros. by apply store_property_balanced. Qed.

(** Rewards are stored as balances and in the reward pool. *)
Lemma reward_notes_keep (P : pending_chain_state chain_database -> Prop) reward l acc acc' :
  stable (fun t => t = balance_t \/ t = operation_reward_t) P -> foldM (reward_note reward) l acc = Ok acc' -> P acc.2 -> P acc'.2.
Proof.
  intros HP. revert acc. induction l as [|idx l IH]; intros [[paid log] p] H Hp; cbn [foldM] in H; inv_ok; [ done | ].
  eapply IH; [ exact H | ]. match goal with H : reward_note _ _ _ = Ok _ |- _ => unfold reward_note in H end. inv_ok.
  unfold pay_income. apply (stable_balance _ _ HP); [ by left | done ].
Qed.

Lemma reward_levels_keep (P : pending_chain_state chain_database -> Prop) c seed notes p r :
  stable (fun t => t = balance_t \/ t = operation_reward_t) P -> reward_levels c seed notes p = Ok r -> P p -> P r.2.
Proof.
  intros HP. unfold reward_levels. intros H Hp. inv_ok.
  repeat (match goal with H : (let '(_, _) := ?x in _) = Ok _ |- _ => destruct x end; inv_ok).
  eapply reward_notes_keep; [ exact HP | exact H | ]. eapply reward_notes_keep; [ exact HP | eassumption | ].
  match goal with H : match ?o with Some _ => _ | None => _ end = Ok ?x |- P ?x.2 => rename H into Hf; destruct o as [idx|] end;
    [ | inv_ok; by simplify_eq ].
  eapply (reward_notes_keep P _ [idx] (0, [], p)); [ exact HP | cbn [foldM]; by rewrite Hf | exact Hp ].
Qed.

Lemma rewards_keep (P : pending_chain_state chain_database -> Prop) db get_block n p p' log :
  stable (fun t => t = balance_t \/ t = operation_reward_t) P -> pay_operation_rewards db get_block n p = Ok (p', log) -> P p -> P p'.
Proof.
  intros HP H Hp. unfold pay_operation_rewards in H. destruct (get_operation_reward_record p note_op_type) as [r|]; [ | inv_ok; by simplify_eq ].
  inv_ok. match goal with H : (if _ then _ else _) = Ok ?x |- _ => destruct x as [[paid log'] p1]; rename H into Hr end.
  inv_ok. injection H as <- _. apply (stable_reward _ _ HP); [ by right | ].
  destruct (n mod BLOCKS_PER_DAY =? 0); [ | by simplify_eq ]. inv_ok. by apply (reward_levels_keep P _ _ _ _ _ HP Hr).
Qed.

Lemma rewards_balanced db get_block n p p' log :
  pay_operation_rewards db get_block n p = Ok (p', log) -> wf p -> state_ok p -> balanced p p'.
Proof.
  intros H Hwf Hok. destruct (rewards_conserve db get_block n p p' log H Hwf) as (W & A & _).
  split_and!; [ done | | done ].
  refine (rewards_keep _ _ _ _ _ _ _ _ H Hok). apply (stable_weaken (fun t => t <> account_t)); [ by intros ? [-> | ->] | ].
  apply other_tables_stable.
Qed.

End chain_supply.

(** *** What all stores keep

    The steps of a block other than the markets and the games store records;
    what every store outside the transactions keeps, the steps but the
    transactions keep. *)
Section steps_keep.
Context `{FcI : Fc} `{Cr : Crypto} `{Tx : TxCrypto} `{St : Statics} `{BC : BlockCrypto}.
Implicit Types (db : chain_database) (p : pending_chain_state chain_database).
Variable P : pending_chain_state chain_database -> Prop.
Hypothesis P_stable : stable (fun t => t <> transaction_t) P.

Lemma keep_slot (b : bool) db0 r p : P p -> P (if b then store_slot db0 r p else p).
Proof. intros Hp. destruct b; [ | done ]. by apply (P_stable slot_t (sl_delegate_id r, sl_timestamp r) r p). Qed.

Lemma missed_keep fuel db active t until p p' : missed_from fuel db active t until p = Ok p' -> P p -> P p'.
Proof.
  revert t p. induction fuel as [|fuel IH]; intros t p H Hp; cbn [missed_from] in H;
    (destruct (t <? until); [ | inv_ok; by simplify_eq ]); [ done | ].
  inv_ok. match goal with H : store_account_record _ _ = Ok _ |- _ => apply (stable_account _ _ P_stable) in H; [ | done.. ] end.
  eapply IH; [ eassumption | ]. by apply keep_slot.
Qed.

Lemma production_keep db h id signee p p' : update_delegate_production_info db h id signee p = Ok p' -> P p -> P p'.
Proof.
  unfold update_delegate_production_info. intros H Hp. inv_ok.
  match goal with H : store_account_record _ _ = Ok _ |- _ => apply (stable_account _ _ P_stable) in H; [ | done.. ] end.
  eapply missed_keep; [ eassumption | ]. by apply keep_slot.
Qed.

Lemma pay_delegate_keep db signee p p' pay : pay_delegate db signee p = Ok (p', pay) -> P p -> P p'.
Proof.
  unfold pay_delegate. intros H Hp. inv_ok. injection H as <- _. apply (stable_asset _ _ P_stable); [ done | ].
  by eapply (stable_account _ _ P_stable).
Qed.

Lemma delegates_keep db n p : P p -> P (update_active_delegate_list db n p).
Proof. intros Hp. unfold update_active_delegate_list. destruct (negb _); [ done | by apply (stable_property _ _ P_stable) ]. Qed.

Lemma seed_keep secret p : P p -> P (update_random_seed secret p).
Proof. intros Hp. by apply (stable_property _ _ P_stable). Qed.

Lemma operation_rewards_keep db get_block n p p' log : pay_operation_rewards db get_block n p = Ok (p', log) -> P p -> P p'.
Proof. apply rewards_keep. apply (stable_weaken (fun t => t <> transaction_t)); [ by intros ? [-> | ->] | done ]. Qed.
End steps_keep.

Section chain_supply.
Context `{FcI : Fc} `{Cr : Crypto} `{CF : !CollisionFree} `{Tx : TxCrypto} `{St : Statics} `{BC : BlockCrypto}.
Context `{Cp : Checkpoints} `{Gm : Games}.
Implicit Types (db : chain_database) (p : pending_chain_state chain_database).

(** ** The block *)

(** What the plugged-in games are trusted with: they change the pending state
    of the block only, and mint nothing. *)
Definition games_conserve : Prop :=
  forall execute db n p p', game_execute = Some execute -> execute db n p = Ok p' -> wf p -> state_ok p ->
  balanced p p' /\ ps_prev p' = ps_prev p.

(** What every step of a block keeps: the stores outside the transactions,
    the records of transactions under their ids, the markets and the games. *)
Record kept_by_steps (P : pending_chain_state chain_database -> Prop) : Prop := {
  ks_stable : stable (fun t => t <> transaction_t) P;
  ks_own : forall trx location yields p, P p ->
    P (store_transaction (trx_id trx) {| tr_trx := trx; tr_chain_location := location; tr_yield_claimed := yields |} p);
  ks_again : forall id r location p, get_transaction p id = Some r -> P p ->
    P (store_transaction id {| tr_trx := tr_trx r; tr_chain_location := location; tr_yield_claimed := tr_yield_claimed r |} p);
  ks_markets : forall p p', undisturbed p p' -> P p -> P p';
  ks_reports : forall trxs p, P p -> P (set_market_transactions trxs p);
  ks_games : forall execute db n p p', game_execute = Some execute -> execute db n p = Ok p' -> wf p -> state_ok p -> P p -> P p' }.

Lemma stable_kept_by_steps (P : pending_chain_state chain_database -> Prop) :
  stable (fun _ => True) P -> (forall p p', undisturbed p p' -> P p -> P p') ->
  (forall trxs p, P p -> P (set_market_transactions trxs p)) ->
  (forall execute db n p p', game_execute = Some execute -> execute db n p = Ok p' -> wf p -> state_ok p -> P p -> P p') ->
  kept_by_steps P.
Proof.
  intros HP Hm Hr Hg. split; [ by apply (stable_weaken (fun _ => True)) | | | done.. ]; intros; by apply (stable_transaction _ _ HP).
Qed.

(** What a state of a block is, after any number of steps. *)
Definition block_state (P : pending_chain_state chain_database -> Prop) db p : Prop := balanced db p /\ P p.

Lemma next_state P db p p' :
  block_state P db p -> (wf p -> state_ok p -> balanced p p') -> (wf p -> state_ok p -> P p -> P p') -> block_state P db p'.
Proof.
  intros [B V] H HV. pose proof B as (W & O & _). split; [ apply (balanced_trans db p p'); [ exact B | by apply H ] | by apply HV ].
Qed.

Lemma markets_keep P db ts p p' : kept_by_steps P -> execute_markets db ts p = Ok p' -> wf p -> state_ok p -> P p -> P p'.
Proof.
  unfold execute_markets. intros HP H Hwf Hok Hp. destruct (foldM (execute_market db ts) _ (p, [])) as [r|] eqn:E; [ | done ].
  destruct (execute_market_list_inv _ _ _ _ _ E Hok Hwf) as (p1 & -> & U). cbn [rbind] in H. inv_ok.
  apply (ks_reports _ HP). by eapply (ks_markets _ HP).
Qed.

Lemma evaluate_block_state P b n p : kept_by_steps P -> P (pending_empty (nd_db n)) ->
  games_conserve -> evaluate_block b n = Ok p -> forallb proper_claims (fb_user_transactions b) = true ->
  wf (nd_db n) -> state_ok (nd_db n) -> block_state P (nd_db n) p.
Proof.
  unfold evaluate_block. intros HP HE HG H Hc W0 O0. inv_ok. pose proof (ks_stable _ HP) as HS.
  assert (B : block_state P (nd_db n) (pending_empty (nd_db n))).
  { split; [ apply same_flat_balanced; [ | done | done ] | done ]. intros t k _ _.
    rewrite pending_flat. unfold pending_empty. simpl. by rewrite tget_tconst, ov_flat_empty. }
  match goal with H : update_delegate_production_info _ _ _ _ _ = Ok _ |- _ =>
    eapply next_state in B; [ | intros; eapply production_balanced; eassumption | intros _ _; eapply (production_keep _ HS); eassumption ] end.
  match goal with H : pay_delegate _ _ _ = Ok ?x |- _ => destruct x as [p1 pay]; rename H into Hpay end. inv_ok.
  eapply next_state in B; [ | intros; by eapply pay_delegate_balanced | intros _ _; by eapply (pay_delegate_keep _ HS) ].
  match goal with H : execute_markets _ _ _ = Ok _ |- _ =>
    eapply next_state in B; [ | intros; eapply markets_balanced; eassumption | intros ? ?; eapply markets_keep; eassumption ] end.
  match goal with H : apply_transactions _ _ _ _ _ = Ok _ |- _ =>
    eapply next_state in B; [ | intros; eapply transactions_balanced; eassumption
      | intros _ _; eapply (apply_transactions_keep _ HS (ks_own _ HP) (ks_again _ HP)); eassumption ] end.
  eapply next_state in B; [ | intros; by apply (delegates_balanced (nd_db n) (bh_block_num (fb_header b)))
                            | intros _ _; by apply (delegates_keep _ HS) ].
  eapply next_state in B; [ | intros; by apply (seed_balanced (bh_previous_secret (fb_header b))) | intros _ _; by apply (seed_keep _ HS) ].
  match goal with H : pay_operation_rewards _ _ _ _ = Ok ?x |- _ => destruct x as [p2 log]; rename H into Hrew end. inv_ok.
  eapply next_state in B; [ | intros; by eapply rewards_balanced | intros _ _; by eapply (operation_rewards_keep _ HS) ].
  destruct game_execute as [execute|] eqn:Eg; [ | by simplify_eq ].
  eapply next_state; [ exact B | intros; by eapply HG | ]. intros W O. by eapply (ks_games _ HP).
Qed.

(** Nothing a block does replaces the database its state is over. *)
Definition over db p : Prop := ps_prev p = db.

Lemma over_kept db : games_conserve -> kept_by_steps (over db).
Proof.
  intros HG. apply stable_kept_by_steps; [ by apply stable_of_primitives | | done | ]; unfold over.
  - intros p p' (_ & _ & _ & E & _) Hp. by rewrite E.
  - intros execute db' k p p' He H W O Hp. destruct (HG _ _ _ _ _ He H W O) as [_ E]. congruence.
Qed.

Lemma evaluate_block_balanced b n p :
  games_conserve -> evaluate_block b n = Ok p -> forallb proper_claims (fb_user_transactions b) = true ->
  wf (nd_db n) -> state_ok (nd_db n) -> balanced (nd_db n) p.
Proof. intros HG H Hc W O. by destruct (evaluate_block_state _ b n p (over_kept _ HG) eq_refl HG H Hc W O). Qed.

Lemma apply_changes_balanced p db' : apply_changes p = Ok db' -> wf p -> state_ok p -> balanced p db'.
Proof. intros H. apply same_flat_balanced. intros t k. by apply apply_changes_lookup. Qed.

Lemma mark_included_db id v n n' r : mark_included id v n = (n', r) -> nd_db n' = nd_db n.
Proof.
  unfold mark_included, nbind, nread, fork_store, nwrite. destruct (fork_fetch id n); intros [= <- <-]; done.
Qed.

Lemma save_undo_state_db num id p n n' r : save_undo_state num id p n = (n', r) -> nd_db n' = nd_db n.
Proof.
  unfold save_undo_state, nbind, nread, nwrite, nret. intros H.
  repeat (case_match; simplify_eq; try done).
Qed.

Lemma apply_block_balanced id b n n' r :
  games_conserve -> apply_block id b n = (n', r) -> forallb proper_claims (fb_user_transactions b) = true ->
  wf (nd_db n) -> state_ok (nd_db n) -> balanced (nd_db n) (nd_db n').
Proof.
  intros HG H Hc W O. assert (B0 : balanced (nd_db n) (nd_db n)) by by apply balanced_refl.
  apply nbind_inv in H as [(n1 & p & E1 & H)|(e & E1 & ->)]; cbv [nread] in E1; simplify_eq; [ | done ].
  match goal with H : evaluate_block _ _ = Ok _ |- _ => apply evaluate_block_balanced in H as B; [ | done.. ] end.
  apply nbind_inv in H as [(n2 & [] & E2 & H)|(e & E2 & ->)]; apply save_undo_state_db in E2; [ | by rewrite E2 ].
  apply nbind_inv in H as [(n3 & db & E3 & H)|(e & E3 & ->)]; cbv [nread] in E3; simplify_eq; [ | by rewrite E2 ].
  pose proof B as (Wp & Op & _).
  match goal with H : apply_changes _ = Ok _ |- _ => apply apply_changes_balanced in H as Bd; [ | done.. ] end.
  assert (B' : balanced (nd_db n1) db) by (by apply (balanced_trans _ p)).
  unfold nbind at 1, nwrite in H.
  apply nbind_inv in H as [(n4 & [] & E4 & H)|(e & E4 & ->)]; apply mark_included_db in E4; simpl in E4; [ | by rewrite E4 ].
  unfold nbind, update_head_block, clear_pending, nwrite in H. pose proof B' as (Wd & Od & _). rewrite <- E4 in *.
  injection H as <- <-. apply (balanced_trans _ (nd_db n4)); [ done | by apply same_flat_balanced ].
Qed.

(** Marking writes fork records only. *)
Definition on_db (db : chain_database) (n : node) : Prop := nd_db n = db.

Lemma fork_store_db db id d : keeps (on_db db) (fork_store id d).
Proof. by apply keeps_write. Qed.
#[local] Hint Resolve fork_store_db : keeps.

Lemma mark_one_keeps {A} P change visit (x : Z) (acc : gset Z * A) :
  (forall id d, keeps P (fork_store id d)) -> (forall id d a, keeps P (visit id d a)) -> keeps P (mark_one change visit x acc).
Proof. intros Hs Hv. destruct acc as [s a]. unfold mark_one. auto 8 with keeps. Qed.

Lemma mark_descendants_keeps {A} P change visit (ids : gset Z) (a : A) :
  (forall id d, keeps P (fork_store id d)) -> (forall id d a, keeps P (visit id d a)) -> keeps P (mark_descendants change visit ids a).
Proof.
  intros Hs Hv. assert (F : forall fuel ids a, keeps P (mark_generations change visit fuel ids a)); [ | intros n n' r; apply F ].
  clear ids a. induction fuel as [|fuel IH]; intros ids a; cbn [mark_generations]; (destruct (bool_decide (ids = ∅)); [ auto with keeps | ]).
  - auto with keeps.
  - apply keeps_bind; [ | auto ]. apply keeps_fold. intros. by apply mark_one_keeps.
Qed.

Lemma mark_invalid_keeps P id reason : (forall id d, keeps P (fork_store id d)) -> keeps P (mark_invalid id reason).
Proof. intros Hs. unfold mark_invalid, recursive_mark_as_invalid. auto 8 using mark_descendants_keeps with keeps. Qed.

Lemma store_and_index_keeps P id b : (forall id d, keeps P (fork_store id d)) ->
  (forall n m, P n -> P (set_nd_blocks m n)) -> (forall n m, P n -> P (set_nd_fork_number m n)) -> keeps P (store_and_index id b).
Proof.
  intros Hs Hb Hn.
  assert (L : forall ids, keeps P (recursive_mark_as_linked ids)).
  { intros ids. unfold recursive_mark_as_linked, keep_highest. auto 8 using mark_descendants_keeps with keeps. }
  assert (I : forall ids e, keeps P (recursive_mark_as_invalid ids e)) by (intros; apply mark_descendants_keeps; auto with keeps).
  unfold store_and_index. repeat (apply keeps_bind; [ auto with keeps | intros ? ]). case_match; auto with keeps.
  match goal with |- keeps P (if ?b then _ else _) => destruct b end; auto with keeps. apply keeps_bind; [ auto with keeps | intros ? ].
  match goal with |- keeps P (if ?b then _ else _) => destruct b end; auto with keeps.
Qed.

Lemma mark_invalid_db id reason n n' r : mark_invalid id reason n = (n', r) -> nd_db n' = nd_db n.
Proof. intros H. by apply (mark_invalid_keeps (on_db (nd_db n)) id reason (fork_store_db _) n n' r). Qed.

Lemma store_and_index_db id b n n' r : store_and_index id b n = (n', r) -> nd_db n' = nd_db n.
Proof. intros H. refine (store_and_index_keeps (on_db (nd_db n)) id b (fork_store_db _) _ _ n n' r H eq_refl); done. Qed.

Lemma extend_chain_balanced b n n' r :
  games_conserve -> extend_chain b n = (n', r) -> forallb proper_claims (fb_user_transactions b) = true ->
  wf (nd_db n) -> state_ok (nd_db n) -> balanced (nd_db n) (nd_db n').
Proof.
  intros HG H Hc W O. unfold extend_chain, ncatch, nbind at 1 in H.
  destruct (apply_block (full_block_id b) b n) as [n1 [[]|e]] eqn:E1; apply apply_block_balanced in E1; try done.
  - unfold purge_unique, nwrite in H. simplify_eq. pose proof E1 as (W1 & O1 & _).
    apply (balanced_trans _ (nd_db n1)); [ done | by apply same_flat_balanced ].
  - assert (D : nd_db n' = nd_db n1); [ | by rewrite D ].
    unfold nbind, nthrow in H. destruct (mark_invalid (full_block_id b) e n1) as [n2 r2] eqn:E2.
    apply mark_invalid_db in E2.
    destruct e, r2; by simplify_eq.
Qed.

(** A block is stored and the chain extended with it, whether it applies or
    not; and blocks one after the other. *)
Definition extended_by (b : full_block) (n : node) : node := fst (extend_chain b (fst (store_and_index (full_block_id b) b n))).
Definition extended (bs : list full_block) (n : node) : node := foldl (fun n b => extended_by b n) n bs.

Lemma extended_balanced bs n : games_conserve ->
  forallb (fun b => forallb proper_claims (fb_user_transactions b)) bs = true -> wf (nd_db n) -> state_ok (nd_db n) ->
  balanced (nd_db n) (nd_db (extended bs n)).
Proof.
  intros HG. revert n. induction bs as [|b bs IH]; intros n Hc Hwf Hok; [ by apply balanced_refl | ].
  cbn [forallb] in Hc. b2p. cbn [extended foldl]. unfold extended_by.
  destruct (store_and_index (full_block_id b) b n) as [n0 r0] eqn:E0.
  apply store_and_index_db in E0. cbn [fst].
  destruct (extend_chain b n0) as [n1 r] eqn:E. rewrite <- E0 in Hwf, Hok |- *.
  apply extend_chain_balanced in E; [ | done.. ]. pose proof E as (W & O & _). cbn [fst].
  apply (balanced_trans _ (nd_db n1)); [ done | by apply IH ].
Qed.

(** blocks, one after the other, conserve every asset: whatever a block
    does - production statistics, the pay of its delegate, the markets, the
    transactions, the rewards - and whether it is applied or rejected, the
    database stays well formed, every account keeps its keys, and what the
    records hold and what the asset records owe as supply change by the same
    amount modulo 2^64. *)
Theorem blocks_conserve_supply bs n (HG : games_conserve)
    (Hc : forallb (fun b => forallb proper_claims (fb_user_transactions b)) bs = true)
    (Hwf : wf (nd_db n)) (Hok : state_ok (nd_db n)) :
  let db := nd_db (extended bs n) in
  wf db /\ state_ok db /\ (forall a, total a db ≡64 total a (nd_db n))
  /\ forall a, in_int64 (total a (nd_db n)) -> in_int64 (total a db) -> total a db = total a (nd_db n).
Proof.
  destruct (extended_balanced bs n HG Hc Hwf Hok) as (W & O & A). split_and!; [ done | done | done | ]. intros a Ha Ha'. by apply eqm_eq.
Qed.

(** A block that evaluates commits: on a well-formed database whose
    accounts have their keys the steps of the block lead to a state with the
    same properties over that database, so that saving its undo state and
    applying its changes never throw, and the database they lead to has the
    properties again. *)
Theorem evaluated_block_commits b n p (HG : games_conserve) (H : evaluate_block b n = Ok p)
    (Hc : forallb proper_claims (fb_user_transactions b) = true) (Hwf : wf (nd_db n)) (Hok : state_ok (nd_db n)) :
  wf p /\ state_ok p /\ ps_prev p = nd_db n
  /\ exists u db, build_undo_state p = Ok u /\ apply_changes p = Ok db /\ wf db /\ state_ok db.
Proof.
  destruct (evaluate_block_state _ b n p (over_kept _ HG) eq_refl HG H Hc Hwf Hok) as [(W & O & _) V]. split_and!; [ done | done | done | ].
  assert (Hdb : state_ok (ps_prev p)) by (by rewrite V).
  destruct (build_undo_total p O Hdb) as [u Hu]. destruct (apply_changes_total p O Hdb) as [db Hd]. exists u, db.
  destruct (apply_changes_balanced p db Hd W O) as (Wd & Od & _). done.
Qed.
End chain_supply.

(** ** Two blocks on the concrete node *)

#[local] Existing Instance demo_crypto.
#[local] Existing Instance demo_tx.
#[local] Existing Instance demo_statics.
#[local] Existing Instance fork_crypto.
#[local] Existing Instance no_checkpoints.
#[local] Existing Instance no_games.

(** The payment and the claim, and an empty block after them. *)
Definition paying_block : full_block := {|
  fb_header := {| bh_previous := 0; bh_block_num := 1; bh_timestamp := 100000;
                  bh_transaction_digest := foldr Z.add 0 (map trx_id demo_block);
                  bh_next_secret_hash := 1; bh_previous_secret := 0 |};
  fb_delegate_signature := 13; fb_user_transactions := demo_block |}.
Definition next_block : full_block := demo_block_at (full_block_id paying_block) 2 100010.

Lemma blocks_conserve_supply_witness :
  nd_head_id (extended [paying_block; next_block] fresh_node) = full_block_id next_block
  /\ total 0 (nd_db (extended [paying_block; next_block] fresh_node)) = total 0 (nd_db fresh_node).
Proof.
  split; [ vm_compute; reflexivity | ].
  destruct (blocks_conserve_supply [paying_block; next_block] fresh_node) as (_ & _ & _ & E).
  - unfold games_conserve. discriminate.
  - vm_compute. reflexivity.
  - apply wf_check_wf. vm_compute. reflexivity.
  - apply state_ok_check. vm_compute. reflexivity.
  - apply E; vm_compute; split; discriminate.
Defined.

Definition paying_state : pending_chain_state chain_database := ok_or (pending_empty genesis_db) (evaluate_block paying_block fresh_node).

Lemma evaluated_block_commits_witness :
  evaluate_block paying_block fresh_node = Ok paying_state /\ is_ok (apply_changes paying_state) = true.
Proof.
  assert (E : evaluate_block paying_block fresh_node = Ok paying_state) by (apply ok_or_is_ok; vm_compute; reflexivity).
  split; [ exact E | ].
  destruct (evaluated_block_commits paying_block fresh_node paying_state) as (_ & _ & _ & u & db & _ & Hd & _).
  - unfold games_conserve. discriminate.
  - exact E.
  - vm_compute. reflexivity.
  - apply wf_check_wf. vm_compute. reflexivity.
  - apply state_ok_check. vm_compute. reflexivity.
  - by rewrite Hd.
Defined.
