(* ===== verification/Authority.v ===== *)
(** Who may change what: the tables each operation writes, and the signatures
    without which balances, accounts and the policies of assets stay as they
    are. *)

From S2P Require Import Prelude Asset Names Combinatorics Records ChainInterface EvalState BalanceOps.
From S2P Require Import AccountOps AssetOps MarketOps Transaction Tables.
From S2P Require Import PendingState ChainDatabase Concrete Undo Supply Conservation Frames.

(** A table is not among those of an operation. *)
Ltac not_written := simpl; apply (bool_decide_eq_true_1 _); reflexivity.

Section authority.
Context {S : Type} `{FcI : Fc} `{CI : chain_interface S} `{CS : !chain_spec S} `{Cr : Crypto} `{Tx : TxCrypto}
  `{St : Statics}.
Implicit Types (e : eval_state S) (s : S).

(** ** The tables an operation leaves alone *)

Lemma flat_stable t s0 : stable (fun t' => t' <> t) (fun s => flat t s = flat t s0).
Proof. intros t' k v s s' Hne H <-. by apply (flat_other t' k v). Qed.

Lemma untouched op e e' t :
  evaluate_operation op e = Ok e' -> t ∉ op_tables op -> flat t (es_state e') = flat t (es_state e).
Proof.
  intros H Ht. apply (operation_stable _ _ (flat_stable t (es_state e)) op e e' H); [ | done ].
  apply Forall_forall. intros t' Hin ->. done.
Qed.

(** an operation writes only the tables listed for it: what it leaves in
    every other table is what was there. *)
Theorem operation_frame op e e' t (H : evaluate_operation op e = Ok e') (Ht : t ∉ op_tables op) :
  flat t (es_state e') = flat t (es_state e).
Proof. by apply (untouched op). Qed.

(** ** Balances *)

Lemma balance_read s k : get_balance_record s k = flat balance_t s !! k.
Proof. unfold get_balance_record, balance_record_lookup. by rewrite flat_lookup. Qed.
Lemma account_read s k : get_account_record s k = flat account_t s !! k.
Proof. unfold get_account_record, account_record_lookup. by rewrite flat_lookup. Qed.
Lemma asset_read s k : get_asset_record s k = flat asset_t s !! k.
Proof. unfold get_asset_record, asset_record_lookup. by rewrite flat_lookup. Qed.

Lemma balance_stored r s k :
  get_balance_record (store_balance_record r s) k
  = if decide (balance_id r = k) then Some r else get_balance_record s k.
Proof.
  rewrite !balance_read.
  destruct (store_flat balance_t (balance_id r) r s (store_balance_record r s) eq_refl eq_refl) as [E _].
  etrans; [ exact (f_equal (fun m => m !! k) E) | ]. apply lookup_insert.
Qed.

Lemma balance_after t k v s s' b : store t k v s = Ok s' -> t <> balance_t -> get_balance_record s' b = get_balance_record s b.
Proof. intros H Hne. rewrite !balance_read. by rewrite (flat_other t k v s s' balance_t H) by congruence. Qed.

(** The balance stays or an amount that is not negative is added. *)
Definition credited (r r' : balance_record) : Prop :=
  br_balance r' = br_balance r \/ exists v, 0 <= v /\ br_balance r' = br_balance r +! v.

(** The record under [k], if there is one, is only credited. *)
Definition only_credited (k : Z) s s' : Prop :=
  forall r, get_balance_record s k = Some r -> exists r', get_balance_record s' k = Some r' /\ credited r r'.

Lemma only_credited_same k s s' : get_balance_record s' k = get_balance_record s k -> only_credited k s s'.
Proof. intros E r Hr. exists r. split; [ by rewrite E | by left ]. Qed.

(** Storing a record that credits the one under its id. *)
Lemma only_credited_store k r0 s :
  (forall r, get_balance_record s (balance_id r0) = Some r -> credited r r0) ->
  only_credited k s (store_balance_record r0 s).
Proof.
  intros H r Hr. rewrite balance_stored. destruct (decide (balance_id r0 = k)) as [E|].
  - exists r0. split; [ done | ]. apply H. by rewrite E.
  - exists r. split; [ done | by left ].
Qed.

(** The record a payment to a condition finds, or a fresh one of that id. *)
Lemma target_credited c (fresh r0 : balance_record) s v :
  wf s -> 0 <= v -> balance_id fresh = condition_address c ->
  let target := match get_balance_record s (condition_address c) with Some r => r | None => fresh end in
  balance_id r0 = balance_id target -> br_balance r0 = br_balance target +! v ->
  forall r, get_balance_record s (balance_id r0) = Some r -> credited r r0.
Proof.
  intros Hwf Hv Hf target Hi Hb r. subst target. destruct (get_balance_record s (condition_address c)) as [t|] eqn:E.
  - destruct (read_balance _ _ _ Hwf E) as [Ht _]. rewrite Hi, Ht, E. intros [= <-]. right. by exists v.
  - by rewrite Hi, Hf, E.
Qed.

Lemma pay_to_credits owner p e k :
  wf (es_state e) -> 0 <= amount p -> only_credited k (es_state e) (es_state (pay_to owner p e)).
Proof.
  intros Hwf Hp. apply only_credited_store. unfold income_target.
  eapply (target_credited (signature_condition owner (asset_id p) 0)
            (balance_of_owner owner (mk_asset 0 (asset_id p)) 0) _ _ (amount p)); done.
Qed.

Lemma credited_trans r r' r'' : br_balance r' = br_balance r -> credited r' r'' -> credited r r''.
Proof. intros E. unfold credited. by rewrite E. Qed.

(** *** The operations that pay *)

Lemma deposit_credits o e e' k :
  evaluate_deposit o e = Ok e' -> wf (es_state e) -> only_credited k (es_state e) (es_state e').
Proof.
  unfold evaluate_deposit. intros H Hwf. inv_ok. b2p. adjust_frames.
  destruct (deposit_target_spec (dp_condition o) e Hwf) as [Hid _].
  set (cur := deposit_target (dp_condition o) e) in *. cbn [es_state set_state store_balance]. rewrite Hs.
  apply only_credited_store. intros r.
  change (get_balance_record (es_state e) (balance_id cur) = Some r ->
    credited r (set_br_last_update (es_now a3) (set_br_balance (br_balance cur +! dp_amount o) (set_br_deposit_date a2 cur)))).
  rewrite Hid. unfold cur, deposit_target. intros ->. right. exists (dp_amount o). split; [ lia | done ].
Qed.

Lemma buy_chips_credits o e e' k :
  evaluate_buy_chips o e = Ok e' -> wf (es_state e) -> only_credited k (es_state e) (es_state e').
Proof.
  unfold evaluate_buy_chips. intros H Hwf. inv_op. b2p.
  match goal with |- context [store_balance ?t ?x] => set (target := t); set (e1 := x) end.
  assert (G : only_credited k (es_state e) (store_balance_record target (es_state e))).
  { apply only_credited_store.
    eapply (target_credited (signature_condition (bc_owner o) (asset_id (bc_amount o)) 0)
              (balance_of_condition (signature_condition (bc_owner o) (asset_id (bc_amount o)) 0)) _ _ (amount (bc_amount o)));
      [ done | lia | done.. ]. }
  intros r Hr. destruct (G r Hr) as (r' & Hr' & Hc). exists r'. split; [ | done ]. rewrite <- Hr'.
  by eapply (balance_after asset_t).
Qed.

(** A size fee of a message that fits in memory is positive. *)
Lemma size_fee_bounds size unit fee :
  0 <= size < 2 ^ 40 -> 0 < unit -> 0 < fee <= 2 ^ 20 -> 0 < size_fee size unit fee <= 2 ^ 62.
Proof.
  intros Hs Hu Hf. assert (0 <= size / unit <= size) as [H1 H2]
    by (split; [ apply Z.div_pos; lia | apply Z.div_le_upper_bound; nia ]).
  unfold size_fee, uwrap64. assert (0 < (size / unit + 1) * fee <= 2 ^ 62) by nia.
  rewrite Z.mod_small by (unfold two64; lia). rewrite wrap64_id; [ done | unfold in_int64, INT64_MIN, INT64_MAX; lia ].
Qed.

Lemma ad_credits o e e' k :
  evaluate_ad o e = Ok e' -> wf (es_state e) -> in_int64 (amount (ao_amount o)) -> string_size (ao_message o) < 2 ^ 40 ->
  only_credited k (es_state e) (es_state e').
Proof.
  unfold evaluate_ad. intros H Hwf Ha Hm. inv_op. b2p.
  match goal with H : active_address _ = Ok ?x |- _ => rename x into owner end.
  set (fee := size_fee _ _ _) in *.
  assert (0 < fee) by (apply size_fee_bounds; unfold string_size in *; unfold MIN_AD_FEE, BLOCKCHAIN_PRECISION; lia).
  set (pay := mk_asset (amount (ao_amount o) -! fee) 0) in *.
  set (e0 := add_min_fee (asset_id (ao_amount o)) fee e) in *.
  assert (G : only_credited k (es_state e0) (es_state (pay_to owner pay e0))).
  { apply pay_to_credits; [ done | ]. simpl. rewrite sub64_id; [ lia | ].
    unfold in_int64, INT64_MIN, INT64_MAX in *. lia. }
  intros r Hr. destruct (G r Hr) as (r' & Hr' & Hc). exists r'. split; [ | done ]. rewrite <- Hr'.
  by eapply (balance_after ad_t).
Qed.

Lemma claim_credits o e e' k :
  evaluate_claim_packet o e = Ok e' -> wf (es_state e) ->
  (forall pk, get_packet_record (es_state e) (cp_random_id o) = Some pk ->
     Forall (fun st => 0 <= amount (rs_amount st)) (pk_claim_statuses pk)) ->
  only_credited k (es_state e) (es_state e').
Proof.
  unfold evaluate_claim_packet. intros H Hwf Hsh. inv_op.
  destruct (is_unclaimed_empty _); inv_op; [ by apply only_credited_same | ].
  match goal with H : get_packet_record _ _ = Some ?x |- _ => specialize (Hsh _ H) end.
  match goal with H : pk_claim_statuses _ !! _ = Some ?x |- _ => rename x into st; rename H into Hst end.
  match goal with H : active_address _ = Ok ?x |- _ => rename x into owner end.
  rewrite Forall_lookup in Hsh.
  pose proof (pay_to_credits owner (rs_amount st) (add_balance (rs_amount st) e) k Hwf (Hsh _ _ Hst)) as G.
  intros r Hr. destruct (G r Hr) as (r' & Hr' & Hc). exists r'. split; [ | done ]. rewrite <- Hr'.
  by eapply (balance_after packet_t).
Qed.

(** *** The operations that take *)

(** The signatures of the condition, or those of the authority of an asset
    whose balances are retractable. *)
Definition may_withdraw e (r : balance_record) : Prop :=
  withdraw_signed (br_condition r) e = Ok tt
  \/ exists a, get_asset_record (es_state e) (balance_asset_id r) = Some a /\ authority_is_retracting a e = true.

(** The signatures of all owners, or that of the restricted owner. *)
Definition may_move_vote e (r : balance_record) : Prop :=
  owners_signed r e = Ok tt \/ exists a, br_restricted_owner r = Some a /\ check_signature e a = true.

Lemma claim_yield_frame ar r e r' e' :
  claim_yield ar r e = (r', e') ->
  br_condition r' = br_condition r /\ forall k, get_balance_record (es_state e') k = get_balance_record (es_state e) k.
Proof.
  unfold claim_yield. intros H. case_match; simplify_eq; [ | done ]. split; [ done | ]. intros k.
  by eapply (balance_after asset_t).
Qed.

Lemma withdraw_takes o e e' :
  evaluate_withdraw o e = Ok e' -> wf (es_state e) ->
  exists r sp, get_balance_record (es_state e) (wd_balance_id o) = Some r
    /\ 0 < wd_amount o /\ get_spendable_balance r (es_now e) = Ok sp /\ wd_amount o <= amount sp
    /\ may_withdraw e r
    /\ forall k, k <> wd_balance_id o -> get_balance_record (es_state e') k = get_balance_record (es_state e) k.
Proof.
  unfold evaluate_withdraw. intros H Hwf. inv_op. b2p.
  match goal with H : get_balance_record _ _ = Some ?x |- _ => rename x into r; rename H into Hr end.
  match goal with H : get_spendable_balance r _ = Ok ?x |- _ => rename x into sp end.
  match goal with H : get_asset_record _ _ = Some ?x |- _ => rename x into ar; rename H into Har end.
  match goal with H : (if _ then adjust_vote _ _ _ else _) = Ok ?x |- _ =>
    apply maybe_adjust_frame in H as [Hs _]; rename x into e1 end.
  destruct (claim_yield ar r e1) as [r' e2] eqn:Ey. inv_ok. apply claim_yield_frame in Ey as [Hc Hb].
  exists r, sp. split_and!; try done.
  - match goal with H : (if authority_is_retracting ar e then _ else _) = _ |- _ =>
      destruct (authority_is_retracting ar e) eqn:Ea; inv_ok end; [ right; eauto | left ].
    match goal with H : withdraw_signed _ _ = Ok ?u |- _ => destruct u; exact H end.
  - intros k Hk. destruct (charge_withdrawal_frame ar (store_balance
      (set_br_last_update (es_now e2) (set_br_balance (br_balance r' -! wd_amount o) r')) e2)) as [E _].
    simpl. rewrite E. simpl. rewrite balance_stored, decide_False; [ by rewrite Hb, Hs | ].
    destruct (read_balance _ _ _ Hwf Hr) as [Hid _]. intros Ek. apply Hk. rewrite <- Ek, <- Hid.
    unfold balance_id. simpl. by rewrite Hc.
Qed.

Lemma vote_restricted_owner_signed o r t e x :
  vote_restricted_owner o r t e = Ok x -> may_move_vote e r.
Proof.
  unfold vote_restricted_owner. intros H. destruct (_ && _); inv_ok.
  - left. by destruct a.
  - destruct (check_signature e a0) eqn:Es; inv_ok.
    + right. eauto.
    + left. by destruct a1.
Qed.

Lemma maybe_adjust_signed (b : bool) slate v e e' :
  (if b then adjust_vote slate v e else Ok e) = Ok e' -> forall a, check_signature e' a = check_signature e a.
Proof. unfold adjust_vote. intros H a. repeat case_match; inv_ok; done. Qed.

Lemma may_move_vote_ext e e' r r' :
  (forall a, check_signature e' a = check_signature e a) -> br_condition r' = br_condition r ->
  br_restricted_owner r' = br_restricted_owner r -> may_move_vote e' r' -> may_move_vote e r.
Proof.
  intros Hs Hc Hr. unfold may_move_vote, owners_signed, balance_owners. rewrite Hc, Hr.
  intros [H | (a & Ha & H)]; [ left | right; exists a; split; [ done | by rewrite <- Hs ] ].
  inv_ok. rewrite forallb_forall in H. apply throw_unless_Ok, forallb_forall. intros x Hx. rewrite <- Hs. by apply H.
Qed.

Lemma update_balance_vote_takes o e e' :
  evaluate_update_balance_vote o e = Ok e' -> wf (es_state e) ->
  (forall r, get_balance_record (es_state e) (uv_balance_id o) = Some r -> in_int64 (br_balance r)) ->
  exists r, get_balance_record (es_state e) (uv_balance_id o) = Some r /\ may_move_vote e r
    /\ forall k, k <> uv_balance_id o -> only_credited k (es_state e) (es_state e').
Proof.
  unfold evaluate_update_balance_vote. intros H Hwf Hin. inv_op. b2p.
  match goal with H : get_balance_record _ _ = Some ?x |- _ => rename x into r; rename H into Hr end.
  specialize (Hin r Hr).
  repeat match goal with
  | H : (if _ then adjust_vote _ _ _ else Ok _) = Ok _ |- _ =>
      pose proof (maybe_adjust_signed _ _ _ _ _ H); apply maybe_adjust_frame in H as [? _]
  end.
  match goal with H : vote_restricted_owner _ ?x _ _ = Ok _ |- _ =>
    set (r0 := x) in *; apply vote_restricted_owner_signed in H as Hm end.
  match goal with H : es_state ?x = es_state e |- _ => rename H into Hs5; rename x into e5 end.
  set (e1 := store_balance r0 e5) in *.
  exists r. split_and!; [ done | by eapply (may_move_vote_ext e e1 r r0) | ].
  match goal with |- context [vote_target ?c ?r ?x] => set (cond := c) in * end.
  match goal with H : es_state ?x = es_state (add_balance _ e1) |- _ => rename H into Hs9; rename x into e9 end.
  destruct (read_balance _ _ _ Hwf Hr) as [Hid _].
  assert (Hid0 : balance_id r0 = uv_balance_id o) by (by rewrite <- Hid).
  assert (W1 : wf (es_state e1)).
  { assert (W5 : wf (es_state e5)) by by rewrite Hs5. by destruct (step_balance r0 (es_state e5) ∅ W5). }
  assert (H9 : forall k, get_balance_record (es_state e9) k
    = if decide (balance_id r0 = k) then Some r0 else get_balance_record (es_state e) k).
  { intros k. rewrite Hs9. change (es_state (add_balance _ e1)) with (store_balance_record r0 (es_state e5)).
    by rewrite balance_stored, Hs5. }
  intros k Hk rk Hrk.
  assert (Hv : 0 <= br_balance r -! vote_fee).
  { assert (vote_fee = 50000) as Hvf by reflexivity. rewrite Hvf in *. unfold in_int64, INT64_MIN, INT64_MAX in *.
    rewrite sub64_id; unfold in_int64, INT64_MIN, INT64_MAX; lia. }
  match goal with |- context [store_balance ?x e9] => set (t := x) end.
  change (es_state (store_balance t e9)) with (store_balance_record t (es_state e9)).
  rewrite balance_stored. destruct (decide (balance_id t = k)) as [Et|].
  - exists t. split; [ done | ]. right. exists (br_balance r -! vote_fee). split; [ done | ].
    assert (E1 : get_balance_record (es_state e1) k = Some rk).
    { change (es_state e1) with (store_balance_record r0 (es_state e5)).
      by rewrite balance_stored, decide_False, Hs5 by congruence. }
    change (condition_address cond = k) in Et.
    change (br_balance t) with (br_balance (vote_target cond r0 e1) +! (br_balance r -! vote_fee)).
    unfold vote_target. change (balance_id (balance_of_condition cond)) with (condition_address cond). by rewrite Et, E1.
  - exists rk. split; [ | by left ]. rewrite H9, decide_False by congruence. done.
Qed.

(** The amounts and sizes are those of the C++ types, and the shares of the
    packet are not negative. *)
Definition op_in_range (op : operation) e : Prop :=
  match op with
  | op_ad o => in_int64 (amount (ao_amount o)) /\ string_size (ao_message o) < 2 ^ 40
  | op_claim_packet o => forall pk, get_packet_record (es_state e) (cp_random_id o) = Some pk ->
      Forall (fun st => 0 <= amount (rs_amount st)) (pk_claim_statuses pk)
  | op_update_balance_vote o =>
      forall r, get_balance_record (es_state e) (uv_balance_id o) = Some r -> in_int64 (br_balance r)
  | _ => True
  end.

(** The operation takes from the balance [r] under [k], and may. *)
Definition may_take (op : operation) (k : Z) (r : balance_record) e : Prop :=
  match op with
  | op_withdraw o => wd_balance_id o = k /\ 0 < wd_amount o /\ may_withdraw e r
      /\ exists sp, get_spendable_balance r (es_now e) = Ok sp /\ wd_amount o <= amount sp
  | op_update_balance_vote o => uv_balance_id o = k /\ may_move_vote e r
  | _ => False
  end.

(** C4: no operation takes from a balance without its signatures: unless the
    operation is a withdrawal from that balance of at most what is spendable,
    signed as its condition demands or by the authority of an asset whose
    balances are retractable, or a vote change of that balance signed by its
    owners or its restricted owner, the balance stays or a nonnegative amount
    is added to it. *)
Theorem balances_taken_with_authority op e e' k r
    (H : evaluate_operation op e = Ok e') (Hwf : wf (es_state e)) (Hop : op_in_range op e)
    (Hr : get_balance_record (es_state e) k = Some r) :
  may_take op k r e \/ exists r', get_balance_record (es_state e') k = Some r' /\ credited r r'.
Proof.
  assert (G : may_take op k r e \/ only_credited k (es_state e) (es_state e')).
  { destruct op; try (right; apply only_credited_same; rewrite !balance_read;
      rewrite (untouched _ _ _ balance_t H) by not_written; done).
    all: simpl in H, Hop |- *.
    - apply withdraw_takes in H as (r1 & sp & Hr1 & Ha & Hsp & Hle & Hm & Hk); [ | done ].
      destruct (decide (k = wd_balance_id o)) as [->|Hne]; [ left | right; by apply only_credited_same, Hk ].
      assert (r1 = r) as -> by congruence. eauto 7.
    - right. by eapply deposit_credits.
    - right. destruct Hop. by eapply ad_credits.
    - right. by eapply claim_credits.
    - right. by eapply buy_chips_credits.
    - apply update_balance_vote_takes in H as (r1 & Hr1 & Hm & Hk); [ | done.. ].
      destruct (decide (k = uv_balance_id o)) as [->|Hne]; [ left | right; by apply Hk ].
      assert (r1 = r) as -> by congruence. done. }
  destruct G as [G|G]; [ by left | right; by apply G ].
Qed.

(** ** Accounts *)

Definition account_signed (r : account_record) e : Prop := account_or_any_parent_has_signed e r = Ok true.
Definition owner_signed (r : account_record) e : Prop :=
  check_key e (ac_owner_key r) = true \/ any_parent_has_signed e (ac_name r) = Ok true.
Definition signer_signed (r : account_record) e : Prop :=
  exists a, signing_address r = Ok a /\ check_signature e a = true.

(** The operation is about the account [r] under [k], and has what it needs. *)
Definition may_change_account (op : operation) (k : account_id) (r : account_record) e : Prop :=
  match op with
  | op_update_account o =>
      ua_account_id o = k /\ is_retracted r = Ok false /\ (account_signed r e \/ owner_signed r e)
  | op_withdraw_pay o =>
      Z.abs (wp_account_id o) = k /\ account_signed r e
      /\ exists d, ac_delegate_info r = Some d /\ 0 < wp_amount o <= ds_pay_balance d
  | op_update_signing_key o =>
      us_account_id o = k /\ is_retracted r = Ok false /\ is_delegate r = true
      /\ (signer_signed r e \/ account_signed r e)
  | _ => False
  end.

(** What stays of an account, and of a delegate. *)
Definition delegate_kept (op : operation) (d d' : delegate_stats) : Prop :=
  ds_pay_rate d' <= ds_pay_rate d /\ ds_votes_for d' = ds_votes_for d
  /\ (ds_pay_balance d' = ds_pay_balance d
      \/ exists o, op = op_withdraw_pay o /\ ds_pay_balance d' = ds_pay_balance d -! wp_amount o).

Definition account_kept (op : operation) (r r' : account_record) e : Prop :=
  ac_id r' = ac_id r /\ ac_name r' = ac_name r /\ ac_owner_key r' = ac_owner_key r
  /\ (ac_active_key_history r' = ac_active_key_history r \/ owner_signed r e)
  /\ forall d, ac_delegate_info r = Some d -> exists d', ac_delegate_info r' = Some d' /\ delegate_kept op d d'.

Lemma delegate_kept_refl op d : delegate_kept op d d.
Proof. split_and!; [ done | done | by left ]. Qed.
Lemma account_kept_refl op r e : account_kept op r r e.
Proof. split_and!; [ done.. | by left | ]. intros d Hd. exists d. split; [ done | apply delegate_kept_refl ]. Qed.

Lemma account_stored r s s' k :
  store_account_record r s = Ok s' ->
  get_account_record s' k = if decide (ac_id r = k) then Some r else get_account_record s k.
Proof.
  intros H. rewrite !account_read. destruct (store_flat account_t (ac_id r) r s s' H eq_refl) as [E _].
  etrans; [ exact (f_equal (fun m => m !! k) E) | ]. apply lookup_insert.
Qed.

Lemma account_op_stored r e e' k :
  store_account r e = Ok e' ->
  get_account_record (es_state e') k = if decide (ac_id r = k) then Some r else get_account_record (es_state e) k.
Proof. unfold store_account. intros H. inv_ok. by apply account_stored. Qed.

Lemma update_active_key_kept o r e r' :
  update_active_key o r e = Ok r' ->
  r' = set_ac_active_key_history (ac_active_key_history r') r
  /\ (ac_active_key_history r' = ac_active_key_history r /\ account_signed r e \/ owner_signed r e).
Proof.
  assert (Er : forall r, r = set_ac_active_key_history (ac_active_key_history r) r) by by intros [].
  unfold update_active_key. intros H. inv_ok. rename a into current.
  destruct (ua_active_key o) as [k|]; [ destruct (negb (k =? current)) | ]; inv_ok; subst;
    try (split; [ apply Er | by left ]).
  unfold set_active_key in H. inv_ok. split; [ done | ]. right. unfold owner_signed.
  destruct (check_key e (ac_owner_key r)); [ by left | ]. right. by subst.
Qed.

Lemma update_delegate_kept op o r e r' e' :
  update_delegate o r e = Ok (r', e') ->
  r' = set_ac_delegate_info (ac_delegate_info r') r /\ es_state e' = es_state e
  /\ forall d, ac_delegate_info r = Some d -> exists d', ac_delegate_info r' = Some d' /\ delegate_kept op d d'.
Proof.
  unfold update_delegate, is_delegate. intros H. inv_ok. destruct (is_delegate_rate _).
  - destruct (ac_delegate_info r) as [d|] eqn:Ed; inv_ok; simplify_eq.
    + split_and!; [ done.. | ]. intros d' [= <-]. eexists. split; [ done | ]. b2p.
      split_and!; [ simpl; lia | done | by left ].
    + apply make_delegate_state in H as Es. unfold make_delegate, set_signing_key in H. simpl in H. inv_ok.
      by simplify_eq.
  - destruct (ac_delegate_info r) as [d|] eqn:Ed; inv_ok; [ done | ]. simplify_eq.
    split_and!; [ | done.. ]. destruct r'; simpl in *. by subst.
Qed.

(** The three operations that change an account. *)
Lemma update_account_spec o e e' k r :
  evaluate_update_account o e = Ok e' -> wf (es_state e) -> get_account_record (es_state e) k = Some r ->
  exists r', get_account_record (es_state e') k = Some r' /\ account_kept (op_update_account o) r r' e
    /\ (r' = r \/ may_change_account (op_update_account o) k r e).
Proof.
  unfold evaluate_update_account. intros H Hwf Hr. inv_op.
  match goal with H : get_account_record _ (ua_account_id o) = Some ?x |- _ => rename x into r0; rename H into Hr0 end.
  match goal with H : update_active_key _ _ _ = Ok ?x |- _ => rename x into r1; apply update_active_key_kept in H as [E1 K1] end.
  match goal with H : update_delegate _ ?x _ = Ok ?y |- _ => set (r2 := x) in *; destruct y as [r3 e3];
    apply (update_delegate_kept (op_update_account o)) in H as (E3 & Es3 & K3) end.
  apply (account_op_stored _ _ _ k) in H. rewrite H, Es3. destruct (read_account _ _ _ Hwf Hr0) as [Hid _].
  assert (H2 : ac_id r2 = ac_id r0 /\ ac_name r2 = ac_name r0 /\ ac_owner_key r2 = ac_owner_key r0
     /\ ac_active_key_history r2 = ac_active_key_history r1 /\ ac_delegate_info r2 = ac_delegate_info r0)
    by (unfold r2; destruct (ua_public_data o); simpl; split_and!; try done; by rewrite E1).
  destruct H2 as (I2 & N2 & O2 & A2 & D2).
  assert (I3 : ac_id (set_ac_last_update (es_now e3) r3) = ac_id r0) by (rewrite E3; simpl; congruence).
  rewrite I3, Hid. destruct (decide (ua_account_id o = k)) as [<-|].
  - assert (r0 = r) as -> by congruence. eexists. split_and!; [ done | | right ].
    + rewrite E3. split_and!; simpl; try congruence.
      * rewrite A2. destruct K1 as [[K1 _]|K1]; [ by left | by right ].
      * intros d Hd. apply K3. by rewrite D2.
    + subst. simpl. split_and!; [ done | done | ]. destruct K1 as [[_ K1]|K1]; auto.
  - exists r. split_and!; [ done | apply account_kept_refl | by left ].
Qed.

Lemma withdraw_pay_spec o e e' k r :
  evaluate_withdraw_pay o e = Ok e' -> wf (es_state e) -> get_account_record (es_state e) k = Some r ->
  exists r', get_account_record (es_state e') k = Some r' /\ account_kept (op_withdraw_pay o) r r' e
    /\ (r' = r \/ may_change_account (op_withdraw_pay o) k r e).
Proof.
  unfold evaluate_withdraw_pay. intros H Hwf Hr. inv_op. b2p.
  match goal with H : get_account_record _ (Z.abs (wp_account_id o)) = Some ?x |- _ => rename x into r0; rename H into Hr0 end.
  match goal with H : ac_delegate_info r0 = Some ?x |- _ => rename x into d; rename H into Hd end.
  apply (account_op_stored _ _ _ k) in H. rewrite H. destruct (read_account _ _ _ Hwf Hr0) as [Hid _].
  simpl ac_id. rewrite Hid. destruct (decide (Z.abs (wp_account_id o) = k)) as [<-|].
  - assert (r0 = r) as -> by congruence. eexists. split_and!; [ done | | right ].
    + split_and!; simpl; try done; [ by left | ]. intros d' Hd'. assert (d' = d) as -> by congruence.
      eexists. split; [ done | ]. split_and!; [ done | done | right; by exists o ].
    + subst. simpl. split_and!; [ done | done | ]. exists d. split; [ done | lia ].
  - exists r. split_and!; [ done | apply account_kept_refl | by left ].
Qed.

Lemma update_signing_key_spec o e e' k r :
  evaluate_update_signing_key o e = Ok e' -> wf (es_state e) -> get_account_record (es_state e) k = Some r ->
  exists r', get_account_record (es_state e') k = Some r' /\ account_kept (op_update_signing_key o) r r' e
    /\ (r' = r \/ may_change_account (op_update_signing_key o) k r e).
Proof.
  unfold evaluate_update_signing_key. intros H Hwf Hr. inv_op.
  match goal with H : get_account_record _ (us_account_id o) = Some ?x |- _ => rename x into r0; rename H into Hr0 end.
  match goal with H : signing_address _ = Ok ?x |- _ => rename x into addr; rename H into Ha end.
  match goal with H : set_signing_key _ _ _ = Ok ?x |- _ => rename x into r1; rename H into Hk end.
  apply (account_op_stored _ _ _ k) in H. rewrite H. destruct (read_account _ _ _ Hwf Hr0) as [Hid _].
  unfold set_signing_key in Hk. destruct (ac_delegate_info r0) as [d|] eqn:Hd; inv_ok.
  simpl ac_id. rewrite Hid. destruct (decide (us_account_id o = k)) as [<-|].
  - assert (r0 = r) as -> by congruence. eexists. split_and!; [ done | | right ].
    + split_and!; simpl; try done; [ by left | ]. intros d' Hd'. assert (d' = d) as -> by congruence.
      eexists. split; [ done | ]. split_and!; [ done | done | by left ].
    + subst. simpl. split_and!; [ done | done | done | ]. destruct (check_signature e addr) eqn:Es.
      * left. by exists addr.
      * by right.
  - exists r. split_and!; [ done | apply account_kept_refl | by left ].
Qed.

(** A registration takes a new id. *)
Lemma register_account_others o e e' k r :
  evaluate_register_account o e = Ok e' -> wf (es_state e) -> get_account_record (es_state e) k = Some r ->
  get_account_record (es_state e') k = Some r.
Proof.
  unfold evaluate_register_account. intros H Hwf Hr. inv_op.
  match goal with H : new_account_id _ = Ok ?x |- _ => destruct x as [id s1]; rename H into Hn end. inv_op.
  match goal with H : set_active_key _ _ ?x = Ok ?y |- _ => set (r0 := x) in *; rename y into r1; rename H into Hk end.
  match goal with H : (if _ then make_delegate _ _ _ ?x else _) = Ok ?y |- _ =>
    set (e1 := x) in *; destruct y as [r2 e2]; rename H into Hm end.
  assert (H1 : ac_id r1 = id) by (unfold set_active_key in Hk; by inv_ok).
  assert (H2 : ac_id r2 = id /\ es_state e2 = s1).
  { destruct (is_delegate_rate _); [ | inv_ok; simplify_eq; naive_solver ].
    apply make_delegate_keeps in Hm as (Hi & Hp & Hs & Hf). naive_solver. }
  destruct H2 as [Hi Hs]. apply (account_op_stored _ _ _ k) in H. rewrite H, Hs, Hi.
  unfold new_account_id in Hn. inv_ok. injection Hn as <- <-.
  rewrite account_read in Hr. rewrite decide_False.
  - rewrite account_read. etrans; [ | exact Hr ].
    match goal with |- flat account_t (store_property_record _ ?v _) !! _ = _ =>
      pose proof (flat_other property_t last_account_id_property v (es_state e) _ account_t eq_refl) as E end.
    assert (Hne : account_t <> property_t) by congruence. exact (f_equal (fun m => m !! k) (E Hne)).
  - intros <-. match goal with H : last_account_id _ = Ok ?n |- _ => pose proof (wf_accounts _ Hwf n _ _ H Hr) end. lia.
Qed.

Lemma account_change op e e' k r :
  evaluate_operation op e = Ok e' -> wf (es_state e) -> get_account_record (es_state e) k = Some r ->
  exists r', get_account_record (es_state e') k = Some r' /\ account_kept op r r' e
    /\ (r' = r \/ may_change_account op k r e).
Proof.
  intros H Hwf Hr.
  assert (G : get_account_record (es_state e') k = Some r -> exists r', get_account_record (es_state e') k = Some r'
    /\ account_kept op r r' e /\ (r' = r \/ may_change_account op k r e))
    by (intros E; exists r; split_and!; [ done | apply account_kept_refl | by left ]).
  destruct op; try (apply G; rewrite account_read, (untouched _ _ _ account_t H), <- account_read by not_written; done).
  - apply G. by eapply register_account_others.
  - by apply update_account_spec.
  - by apply withdraw_pay_spec.
  - by apply update_signing_key_spec.
Qed.

(** C5: within one operation, an account changes only with its signatures: an
    operation that changes it is an update, a pay withdrawal or a signing key
    update of that account, which is signed by its owner or active key, by a
    parent account, or for the signing key by the signing key; a retracted
    account is not updated, and the pay withdrawn is there. What a transaction
    settles at its end, the votes of delegates and the reputation, and what a
    block does to its delegate, the count of blocks and the pay, come on top. *)
Theorem accounts_changed_with_authority op e e' k r
    (H : evaluate_operation op e = Ok e') (Hwf : wf (es_state e))
    (Hr : get_account_record (es_state e) k = Some r) :
  get_account_record (es_state e') k = Some r \/ may_change_account op k r e.
Proof. destruct (account_change op e e' k r H Hwf Hr) as (r' & Hr' & _ & [->|G]); [ by left | by right ]. Qed.

(** C36: an account keeps its id, its name and its owner key through every
    operation, its active keys change only with the signature of its owner or
    of a parent, and a delegate stays a delegate whose pay rate never rises
    and whose pay is taken by pay withdrawals only. *)
Theorem accounts_and_delegates_kept op e e' k r
    (H : evaluate_operation op e = Ok e') (Hwf : wf (es_state e))
    (Hr : get_account_record (es_state e) k = Some r) :
  exists r', get_account_record (es_state e') k = Some r' /\ account_kept op r r' e.
Proof. destruct (account_change op e e' k r H Hwf Hr) as (r' & Hr' & Hk & _). eauto. Qed.

(** ** Assets *)

(** Everything but the amounts, the whitelist and the date of the last
    update. *)
Definition asset_policy (r : asset_record) : asset_record :=
  set_as_money 0 0 0 (set_as_whitelist ∅ (set_as_last_update 0 r)).

(** The update of the asset [r] under [k] that its authority signed. *)
Definition may_change_policy (op : operation) (k : Z) (r : asset_record) e : Prop :=
  match op with
  | op_asset_update_properties o => ap_asset_id o = k
  | op_asset_update_permissions o => am_asset_id o = k
  | _ => False
  end /\ is_user_issued r = true /\ verify_authority e (as_authority r) = true.

(** How the supply may move: issued by the authority within the maximum,
    burned, or bought as chips. *)
Definition may_change_supply (op : operation) (k : Z) (r r' : asset_record) e : Prop :=
  match op with
  | op_issue_asset a =>
      asset_id a = k /\ 0 < k /\ is_user_issued r = true /\ verify_authority e (as_authority r) = true
      /\ 0 < amount a <= as_max_supply r -! as_current_supply r
      /\ as_current_supply r' = as_current_supply r +! amount a
  | op_burn o =>
      asset_id (bo_amount o) = k /\ is_market_issued r = false /\ 0 < amount (bo_amount o)
      /\ as_current_supply r' = as_current_supply r -! amount (bo_amount o)
  | op_buy_chips o =>
      asset_id (bc_amount o) = k /\ 0 < amount (bc_amount o)
      /\ as_current_supply r' = as_current_supply r +! amount (bc_amount o)
  | _ => False
  end.

Definition asset_step (op : operation) (k : Z) (r : asset_record) e (s' : S) : Prop :=
  exists r', get_asset_record s' k = Some r'
    /\ (asset_policy r' = asset_policy r \/ may_change_policy op k r e)
    /\ (as_current_supply r' = as_current_supply r \/ may_change_supply op k r r' e).

Lemma asset_stored r s k :
  get_asset_record (store_asset_record r s) k = if decide (as_id r = k) then Some r else get_asset_record s k.
Proof.
  rewrite !asset_read.
  destruct (store_flat asset_t (as_id r) r s (store_asset_record r s) eq_refl eq_refl) as [E _].
  etrans; [ exact (f_equal (fun m => m !! k) E) | ]. apply lookup_insert.
Qed.

Lemma asset_step_same op k r e s' : get_asset_record s' k = Some r -> asset_step op k r e s'.
Proof. intros H. exists r. split_and!; [ done | by left | by left ]. Qed.

(** An operation that replaces one asset record. *)
Lemma asset_step_store op k r e r0 r1 i s :
  wf (es_state e) -> get_asset_record (es_state e) k = Some r ->
  get_asset_record (es_state e) i = Some r0 -> as_id r1 = as_id r0 ->
  get_asset_record s k = get_asset_record (es_state e) k ->
  (i = k -> asset_policy r1 = asset_policy r0 \/ may_change_policy op k r0 e) ->
  (i = k -> as_current_supply r1 = as_current_supply r0 \/ may_change_supply op k r0 r1 e) ->
  asset_step op k r e (store_asset_record r1 s).
Proof.
  intros Hwf Hr H0 Hi Hs Hp Hc. destruct (read_asset _ _ _ Hwf H0) as [Hid _]. unfold asset_step.
  rewrite asset_stored, Hi, Hid. destruct (decide (i = k)) as [->|]; [ | exists r; rewrite Hs; auto ].
  assert (r0 = r) as -> by congruence. exists r1. auto.
Qed.

Lemma asset_after t k v s s' b : store t k v s = Ok s' -> t <> asset_t -> get_asset_record s' b = get_asset_record s b.
Proof. intros H Hne. rewrite !asset_read. by rewrite (flat_other t k v s s' asset_t H) by congruence. Qed.

Lemma updatable_asset_signed id e r :
  updatable_asset id e = Ok r ->
  get_asset_record (es_state e) id = Some r /\ is_user_issued r = true /\ verify_authority e (as_authority r) = true.
Proof. unfold updatable_asset. intros H. by inv_ok. Qed.

Lemma withdraw_asset_step o e e' k r :
  evaluate_withdraw o e = Ok e' -> wf (es_state e) -> get_asset_record (es_state e) k = Some r ->
  asset_step (op_withdraw o) k r e (es_state e').
Proof.
  unfold evaluate_withdraw. intros H Hwf Hr. inv_op.
  match goal with H : get_asset_record _ (balance_asset_id _) = Some ?x |- _ => rename x into ar; rename H into Har end.
  match goal with H : (if _ then adjust_vote _ _ _ else _) = Ok ?x |- _ =>
    apply maybe_adjust_frame in H as [Hs _]; rename x into e1 end.
  match goal with H : context [claim_yield ar ?r ?x] |- _ => destruct (claim_yield ar r x) as [r' e2] eqn:Ey end.
  inv_ok. cbn [es_state add_balance set_op_deltas set_fees]. rewrite (proj1 (charge_withdrawal_frame _ _)).
  assert (G : asset_step (op_withdraw o) k r e (es_state e2)).
  { unfold claim_yield in Ey. destruct (_ && (0 <? _)); simplify_eq; [ | by apply asset_step_same; rewrite Hs ].
    eapply (asset_step_store _ _ _ _ ar); [ done | done | exact Har | done | by rewrite <- Hs | by left.. ]. }
  destruct G as (r'' & G1 & G2). exists r''. split; [ | done ]. rewrite <- G1. by eapply (asset_after balance_t).
Qed.

Lemma buy_chips_asset_step o e e' k r :
  evaluate_buy_chips o e = Ok e' -> wf (es_state e) -> get_asset_record (es_state e) k = Some r ->
  asset_step (op_buy_chips o) k r e (es_state e').
Proof.
  unfold evaluate_buy_chips. intros H Hwf Hr. inv_op. b2p.
  match goal with H : get_asset_record _ (asset_id _) = Some ?x |- _ => rename x into ar; rename H into Har end.
  eapply (asset_step_store _ _ _ _ ar); [ done | done | exact Har | done | | by left | ].
  - by eapply (asset_after balance_t).
  - intros Hk. right. split_and!; [ done | lia | done ].
Qed.

Lemma burn_asset_step o e e' k r :
  evaluate_burn o e = Ok e' -> wf (es_state e) -> get_asset_record (es_state e) k = Some r ->
  asset_step (op_burn o) k r e (es_state e').
Proof.
  unfold evaluate_burn. intros H Hwf Hr. inv_op. b2p.
  match goal with H : get_asset_record _ (asset_id _) = Some ?x |- _ => rename x into ar; rename H into Har end.
  match goal with |- context [store_asset ?x _] => set (ar' := x) end.
  assert (G : asset_step (op_burn o) k r e (store_asset_record ar' (es_state e))).
  { eapply (asset_step_store _ _ _ _ ar); [ done | done | exact Har | done | done | by left | ].
    intros Hk. right. split_and!; [ done | done | lia | done ]. }
  destruct G as (r'' & G1 & G2). exists r''. split; [ | done ]. rewrite <- G1. by eapply (asset_after burn_t).
Qed.

Lemma issue_asset_step a e e' k r :
  evaluate_issue_asset a e = Ok e' -> wf (es_state e) -> get_asset_record (es_state e) k = Some r ->
  asset_step (op_issue_asset a) k r e (es_state e').
Proof.
  unfold evaluate_issue_asset. intros H Hwf Hr. inv_op. b2p.
  match goal with H : get_asset_record _ (Z.abs _) = Some ?x |- _ => rename x into ar; rename H into Har end.
  match goal with H : (if 0 <? asset_id a then _ else _) = Ok ?x |- _ => rename x into ar1; rename H into H1 end.
  assert (E : as_id ar1 = as_id ar /\ asset_policy ar1 = asset_policy ar
    /\ (as_current_supply ar1 = as_current_supply ar
        \/ 0 < asset_id a /\ amount a <= as_max_supply ar -! as_current_supply ar
           /\ as_current_supply ar1 = as_current_supply ar +! amount a)).
  { destruct (0 <? asset_id a) eqn:Ep; inv_ok; b2p; split_and!; try done; [ right | by left ]. done. }
  destruct E as (E1 & E2 & E3).
  eapply (asset_step_store _ _ _ _ ar); [ done | done | exact Har | done | done | by left | ].
  intros Hk. destruct E3 as [E3|(E3 & E4 & E5)]; [ by left | right ]. rewrite Z.abs_eq in Hk by lia.
  split_and!; [ done | lia | done | done | lia | lia | done ].
Qed.

Lemma updated_Ok {A} (o : option A) current check v : updated o current check = Ok v -> o = None -> v = current.
Proof. intros H ->. simpl in H. by inv_ok. Qed.

Lemma update_properties_asset_step o e e' k r :
  evaluate_asset_update_properties o e = Ok e' -> wf (es_state e) -> get_asset_record (es_state e) k = Some r ->
  asset_step (op_asset_update_properties o) k r e (es_state e').
Proof.
  unfold evaluate_asset_update_properties. intros H Hwf Hr. inv_ok.
  match goal with H : updatable_asset _ _ = Ok ?x |- _ => rename x into ar; apply updatable_asset_signed in H as (Har & Hu & Hv) end.
  eapply (asset_step_store _ _ _ _ ar); [ done | done | exact Har | done | done | | by left ].
  intros Hk. right. by split_and!.
Qed.

Lemma update_permissions_asset_step o e e' k r :
  evaluate_asset_update_permissions o e = Ok e' -> wf (es_state e) -> get_asset_record (es_state e) k = Some r ->
  asset_step (op_asset_update_permissions o) k r e (es_state e').
Proof.
  unfold evaluate_asset_update_permissions. intros H Hwf Hr. inv_ok.
  match goal with H : updatable_asset _ _ = Ok ?x |- _ => rename x into ar; apply updatable_asset_signed in H as (Har & Hu & Hv) end.
  eapply (asset_step_store _ _ _ _ ar); [ done | done | exact Har | done | done | | by left ].
  intros Hk. right. by split_and!.
Qed.

Lemma update_whitelist_asset_step o e e' k r :
  evaluate_asset_update_whitelist o e = Ok e' -> wf (es_state e) -> get_asset_record (es_state e) k = Some r ->
  asset_step (op_asset_update_whitelist o) k r e (es_state e').
Proof.
  unfold evaluate_asset_update_whitelist. intros H Hwf Hr. inv_ok.
  match goal with H : get_asset_record _ (Z.abs _) = Some ?x |- _ => rename x into ar; rename H into Har end.
  match goal with H : (if 0 <? _ then _ else _) = Ok ?x |- _ => rename x into ar1; rename H into H1 end.
  assert (E : as_id ar1 = as_id ar /\ asset_policy ar1 = asset_policy ar /\ as_current_supply ar1 = as_current_supply ar)
    by (destruct (0 <? _); inv_ok; done).
  destruct E as (E1 & E2 & E3).
  eapply (asset_step_store _ _ _ _ ar); [ done | done | exact Har | done | done | by left.. ].
Qed.

(** A new asset takes a new id. *)
Lemma create_asset_others o e e' k r :
  evaluate_create_asset o e = Ok e' -> wf (es_state e) -> get_asset_record (es_state e) k = Some r ->
  get_asset_record (es_state e') k = Some r.
Proof.
  unfold evaluate_create_asset. intros H Hwf Hr. inv_op.
  match goal with H : issuer_account _ _ _ = Ok ?x |- _ => destruct x as [acc e1]; apply issuer_account_spec in H as (W1 & Hf1 & Ho1 & A1); [ | done ] end.
  inv_op.
  match goal with H : new_asset_id _ = Ok ?x |- _ => destruct x as [id s1]; rename H into Hn end. inv_op.
  match goal with |- context [store_asset ?x ?y] => set (r1 := x); set (e2 := y) end.
  change (get_asset_record (store_asset_record r1 (es_state e2)) k = Some r). rewrite asset_stored.
  match goal with H : last_asset_id (es_state e) = Ok ?x |- _ => rename x into last; rename H into Hlast end.
  unfold new_asset_id in Hn. simpl es_state in Hn. rewrite last_asset_id_flat in Hlast, Hn.
  rewrite Ho1, Hlast in Hn by done. simpl in Hn. injection Hn as <- <-.
  change (as_id r1) with (last + 1). rewrite decide_False.
  - etrans; [ exact (asset_after property_t last_asset_id_property (property_int (last + 1)) (es_state e1) _ k eq_refl ltac:(congruence)) | ].
    rewrite asset_read, Ho1 by done. by rewrite <- asset_read.
  - intros E. match goal with H : match get_asset_record _ _ with Some _ => true | None => false end = false |- _ =>
      rewrite E, Hr in H; discriminate H end.
Qed.

(** C6: within one operation, the rules of an asset, its issuer, authority,
    permissions, flags, precision, maximum supply and fees, change only by an
    update that the authority of the user-issued asset signed, and its supply
    moves only when that authority issues shares within the maximum, when shares
    are burned, or when chips are bought. The whitelist of an asset is not among
    these rules: its update asks for no signature. The pay of a delegate, which
    a block adds to the supply of the base asset, is no operation. *)
Theorem assets_changed_with_authority op e e' k r
    (H : evaluate_operation op e = Ok e') (Hwf : wf (es_state e))
    (Hr : get_asset_record (es_state e) k = Some r) :
  exists r', get_asset_record (es_state e') k = Some r'
    /\ (asset_policy r' = asset_policy r \/ may_change_policy op k r e)
    /\ (as_current_supply r' = as_current_supply r \/ may_change_supply op k r r' e).
Proof.
  change (asset_step op k r e (es_state e')).
  destruct op; try (apply asset_step_same; rewrite asset_read, (untouched _ _ _ asset_t H), <- asset_read by not_written; done).
  - by apply withdraw_asset_step.
  - apply asset_step_same. by eapply create_asset_others.
  - by apply issue_asset_step.
  - by apply update_properties_asset_step.
  - by apply update_permissions_asset_step.
  - by apply update_whitelist_asset_step.
  - by apply burn_asset_step.
  - by apply buy_chips_asset_step.
Qed.
End authority.

(** ** Concrete operations *)

#[local] Existing Instance demo_crypto.
#[local] Existing Instance demo_tx.
#[local] Existing Instance demo_statics.

(** The first account has signed with its owner and its active key. *)
Definition demo_eval : eval_state (pending_chain_state chain_database) :=
  set_signed {[ key_address 11; key_address 12 ]} (eval_start (pending_empty demo_db)).

Definition demo_run (op : operation) : eval_state (pending_chain_state chain_database) :=
  ok_or demo_eval (evaluate_operation op demo_eval).

Lemma demo_eval_wf : wf (es_state demo_eval).
Proof. apply wf_check_wf. vm_compute. reflexivity. Qed.

Definition demo_withdraw : operation := op_withdraw {| wd_balance_id := balance_id alice_balance; wd_amount := 1000 |}.
Definition demo_update : operation := op_update_account {|
  ua_account_id := 1; ua_public_data := Some "profile"%string; ua_active_key := Some 14; ua_delegate_pay_rate := 2 |}.
Definition demo_issue : operation := op_issue_asset (mk_asset 250 1).

Lemma operation_frame_witness :
  flat account_t (es_state (demo_run demo_withdraw)) = flat account_t (es_state demo_eval).
Proof.
  apply (operation_frame demo_withdraw demo_eval); [ apply ok_or_is_ok; vm_compute; reflexivity | not_written ].
Defined.

Lemma balances_taken_with_authority_witness :
  may_take demo_withdraw (balance_id alice_balance) alice_balance demo_eval
  \/ exists r', get_balance_record (es_state (demo_run demo_withdraw)) (balance_id alice_balance) = Some r'
       /\ credited alice_balance r'.
Proof.
  apply (balances_taken_with_authority demo_withdraw demo_eval (demo_run demo_withdraw));
    [ apply ok_or_is_ok; vm_compute; reflexivity | apply demo_eval_wf | exact I | vm_compute; reflexivity ].
Defined.

Lemma accounts_changed_with_authority_witness :
  get_account_record (es_state (demo_run demo_update)) 1 = Some alice \/ may_change_account demo_update 1 alice demo_eval.
Proof.
  apply (accounts_changed_with_authority demo_update demo_eval (demo_run demo_update));
    [ apply ok_or_is_ok; vm_compute; reflexivity | apply demo_eval_wf | vm_compute; reflexivity ].
Defined.

Lemma accounts_and_delegates_kept_witness :
  exists r', get_account_record (es_state (demo_run demo_update)) 1 = Some r' /\ account_kept demo_update alice r' demo_eval.
Proof.
  apply (accounts_and_delegates_kept demo_update demo_eval (demo_run demo_update));
    [ apply ok_or_is_ok; vm_compute; reflexivity | apply demo_eval_wf | vm_compute; reflexivity ].
Defined.

Lemma assets_changed_with_authority_witness :
  exists r', get_asset_record (es_state (demo_run demo_issue)) 1 = Some r'
    /\ (asset_policy r' = asset_policy user_asset \/ may_change_policy demo_issue 1 user_asset demo_eval)
    /\ (as_current_supply r' = as_current_supply user_asset \/ may_change_supply demo_issue 1 user_asset r' demo_eval).
Proof.
  apply (assets_changed_with_authority demo_issue demo_eval (demo_run demo_issue));
    [ apply ok_or_is_ok; vm_compute; reflexivity | apply demo_eval_wf | vm_compute; reflexivity ].
Defined.
