(* ===== verification/Outcomes.v ===== *)
(** What operations pay and demand: vesting and yield, the shares of red
    packets and their claims, escrows, and the fees of a transaction. *)

From Stdlib Require Import String.
From S2P Require Import Prelude Asset Names Combinatorics Records ChainInterface EvalState BalanceOps.
From S2P Require Import AccountOps AssetOps MarketOps Transaction Tables.
From S2P Require Import PendingState ChainDatabase Concrete Undo Supply Conservation Frames Authority.

(** ** Vesting *)

(** What has vested at a time, on integers. The end of the period is a 32-bit
    word: a sum beyond 2^32 lies before the start. *)
Definition vested (start duration original t : Z) : Z :=
  if two32 <=? start + duration then (if start + duration - two32 <=? t then original else 0)
  else if start + duration <=? t then original
  else if start <? t then original * (t - start) / duration else 0.

Definition vesting_ok (start duration original t : Z) : Prop :=
  0 <= start < two32 /\ 0 <= duration < two32 /\ 0 <= original <= INT64_MAX /\ 0 <= t < two32.

Lemma u128_id z : 0 <= z < 2 ^ 128 -> u128 z = z.
Proof. intros H. apply Z.mod_small. change (uint128_max + 1) with (2 ^ 128). lia. Qed.
Lemma u128_le z : 0 <= z -> 0 <= u128 z <= z.
Proof. intros H. unfold u128. change (uint128_max + 1) with (2 ^ 128). split; [ apply Z.mod_pos_bound | apply Z.mod_le ]; lia. Qed.

Lemma vested_range start duration original t :
  vesting_ok start duration original t -> 0 <= vested start duration original t <= original.
Proof.
  intros (Hs & Hd & Ho & Ht). unfold vested. destruct (Z.leb_spec two32 (start + duration)); [ destruct (Z.leb_spec (start + duration - two32) t); lia | ].
  destruct (Z.leb_spec (start + duration) t); [ lia | ].
  destruct (Z.ltb_spec start t); [ | lia ]. split; [ apply Z.div_pos; nia | apply Z.div_le_upper_bound; nia ].
Qed.

Lemma vested_mono start duration original t t' :
  vesting_ok start duration original t -> vesting_ok start duration original t' -> t <= t' ->
  vested start duration original t <= vested start duration original t'.
Proof.
  intros H H' Hle. pose proof (vested_range _ _ _ _ H). pose proof (vested_range _ _ _ _ H').
  destruct H as (Hs & Hd & Ho & Ht). unfold vested in *. destruct (Z.leb_spec two32 (start + duration)).
  { destruct (Z.leb_spec (start + duration - two32) t), (Z.leb_spec (start + duration - two32) t'); lia. }
  destruct (Z.leb_spec (start + duration) t), (Z.leb_spec (start + duration) t'); try lia.
  destruct (Z.ltb_spec start t), (Z.ltb_spec start t'); try lia. apply Z.div_le_mono; nia.
Qed.

Lemma vesting_max_claimable_spec start duration original t :
  vesting_ok start duration original t -> vesting_max_claimable start duration original t = Ok (vested start duration original t).
Proof.
  intros H. pose proof (vested_range _ _ _ _ H) as Hr. destruct H as (Hs & Hd & Ho & Ht).
  unfold vesting_max_claimable, vested in *. destruct (Z.leb_spec two32 (start + duration)) as [Hw|Hw].
  { assert (uwrap32 (start + duration) = start + duration - two32) as ->
      by (unfold uwrap32; rewrite <- (Z.mod_small (start + duration - two32) two32) by lia; rewrite <- (Z_mod_plus_full (start + duration - two32) 1); f_equal; lia).
    destruct (Z.leb_spec (start + duration - two32) t); [ done | ]. by rewrite (proj2 (Z.ltb_ge _ _)) by lia. }
  unfold uwrap32 at 1. rewrite Z.mod_small by lia.
  destruct (Z.leb_spec (start + duration) t); [ done | ]. destruct (Z.ltb_spec start t); [ | done ].
  unfold two32, INT64_MAX in *. unfold uwrap32, two32. rewrite Z.mod_small by lia.
  rewrite (proj2 (Z.ltb_lt 0 (t - start))), (proj2 (Z.ltb_lt (t - start) duration)) by lia. cbn [andb fc_assert rbind].
  rewrite (u128_id original) by lia. rewrite u128_id by nia.
  unfold uwrap64, two64. rewrite Z.mod_small by lia.
  rewrite wrap64_id by (unfold in_int64, INT64_MIN, INT64_MAX; lia).
  by rewrite (proj2 (Z.leb_le 0 _)), (proj2 (Z.leb_le _ original)) by lia.
Qed.

(** C38: a vesting balance, of at most its original amount, can spend what has
    vested and was not claimed yet:
    nothing up to the start, then the share of the original balance for the
    time elapsed rounded down, all of it after the duration; but all of it from
    the wrapped end of the period on, before its start, when start and duration
    add up to 2^32 or more. What can be spent never exceeds the balance and does
    not shrink with time, and a balance that claimed more than has vested is
    refused. *)
Theorem vesting_spendable r owner start duration original t
    (Hc : wc_data (br_condition r) = withdraw_vesting owner start duration original)
    (H : vesting_ok start duration original t) (Hb : 0 <= br_balance r <= original) :
  let claimed := original - br_balance r in
  let v := vested start duration original t in
  get_spendable_balance r t
  = (if claimed <=? v then Ok (mk_asset (v - claimed) (balance_asset_id r)) else Throw assert_exception)
  /\ v - claimed <= br_balance r
  /\ forall t', vesting_ok start duration original t' -> t <= t' -> v <= vested start duration original t'.
Proof.
  intros claimed v. subst claimed. pose proof (vested_range _ _ _ _ H) as Hr. fold v in Hr.
  assert (Ho : original <= INT64_MAX) by apply H. unfold INT64_MAX in Ho.
  split_and!; [ | lia | intros; by apply vested_mono ].
  unfold get_spendable_balance. rewrite Hc, (vesting_max_claimable_spec _ _ _ _ H). cbn [rbind]. fold v.
  rewrite (sub64_id original) by (unfold in_int64, INT64_MIN, INT64_MAX; lia).
  rewrite (proj2 (Z.leb_le 0 (original - br_balance r))) by lia. cbn [andb].
  destruct (Z.leb_spec (original - br_balance r) v); [ | done ]. cbn [fc_assert rbind].
  rewrite sub64_id by (unfold in_int64, INT64_MIN, INT64_MAX; lia).
  rewrite add64_id by (unfold in_int64, INT64_MIN, INT64_MAX; lia).
  rewrite (proj2 (Z.leb_le 0 _)), (proj2 (Z.leb_le _ v)) by lia. cbn [andb fc_assert rbind].
  by rewrite (proj2 (Z.eqb_eq _ v)) by lia.
Qed.

(** ** Yield *)

(** The time-weighted part of a yield is at most the whole, also when the
    128-bit products wrap. *)
Lemma weighted_yield_le y elapsed :
  0 <= y -> 0 <= elapsed < MAX_YIELD_PERIOD_SEC ->
  let y80 := u128 (y * 8) / 10 in
  let delta := u128 (y - y80) in
  0 <= u128 (u128 (y80 * elapsed) / MAX_YIELD_PERIOD_SEC
             + u128 (u128 (delta * elapsed) / MAX_YIELD_PERIOD_SEC * elapsed) / MAX_YIELD_PERIOD_SEC) <= y.
Proof.
  intros Hy He y80 delta.
  assert (Hstep : forall x, 0 <= x -> 0 <= u128 (x * elapsed) / MAX_YIELD_PERIOD_SEC <= x).
  { intros x Hx. destruct (u128_le (x * elapsed)) as [H1 H2]; [ nia | ].
    split; [ apply Z.div_pos | apply Z.div_le_upper_bound ]; nia. }
  assert (H80 : 0 <= y80 <= y).
  { destruct (u128_le (y * 8)) as [H1 H2]; [ lia | ]. unfold y80.
    split; [ apply Z.div_pos | apply Z.div_le_upper_bound ]; lia. }
  assert (Hd : 0 <= delta <= y - y80) by (apply u128_le; lia).
  pose proof (Hstep y80 ltac:(lia)). pose proof (Hstep delta ltac:(lia)).
  pose proof (Hstep (u128 (delta * elapsed) / MAX_YIELD_PERIOD_SEC) ltac:(lia)).
  match goal with |- 0 <= u128 ?z <= _ => destruct (u128_le z); lia end.
Qed.

(** the yield of a balance is positive only more than a day after its
    deposit, it stays below the collected fees it is paid from, and it is at
    most the share of those fees in proportion to the supply outside them. *)
Theorem yield_bounds r now v pool supply (Hp : pool <= INT64_MAX) (Hs : in_int64 supply) (Hv : v <= INT64_MAX) :
  let y := calculate_yield r now v pool supply in
  asset_id y = balance_asset_id r /\ 0 <= amount y
  /\ (0 < amount y -> amount y < pool /\ MIN_YIELD_PERIOD_SEC < now - br_deposit_date r
        /\ amount y * (supply - pool) <= v * pool).
Proof.
  unfold calculate_yield. set (none := mk_asset 0 (balance_asset_id r)).
  assert (Hnone : asset_id none = balance_asset_id r /\ 0 <= amount none /\ (0 < amount none -> amount none < pool
    /\ MIN_YIELD_PERIOD_SEC < now - br_deposit_date r /\ amount none * (supply - pool) <= v * pool))
    by (split_and!; simpl; [ done | lia | lia ]).
  destruct ((v <=? 0) || (supply <=? 0) || (pool <=? 0)) eqn:E0; [ done | ]. b2p.
  set (elapsed := now - br_deposit_date r) in *.
  destruct (Z.leb_spec elapsed MIN_YIELD_PERIOD_SEC); [ done | ].
  unfold in_int64, INT64_MIN, INT64_MAX, MIN_YIELD_PERIOD_SEC in *.
  rewrite sub64_id by (unfold in_int64, INT64_MIN, INT64_MAX; lia).
  set (cs := u128 (supply - pool)). destruct (Z.leb_spec cs 0); [ done | ].
  set (oy := u128 (u128 (v * 1000000) * pool) / cs).
  assert (Hoy : 0 <= oy /\ oy * cs <= v * 1000000 * pool).
  { destruct (u128_le (v * 1000000)) as [I1 I2]; [ lia | ].
    destruct (u128_le (u128 (v * 1000000) * pool)) as [I3 I4]; [ nia | ].
    pose proof (Z.mul_div_le (u128 (u128 (v * 1000000) * pool)) cs ltac:(lia)). unfold oy.
    split; [ apply Z.div_pos; lia | nia ]. }
  match goal with |- context [(if elapsed <? MAX_YIELD_PERIOD_SEC then ?w else oy) / 1000000] =>
    set (yield := if elapsed <? MAX_YIELD_PERIOD_SEC then w else oy) end.
  assert (Hy : 0 <= yield <= oy).
  { unfold yield. destruct (Z.ltb_spec elapsed MAX_YIELD_PERIOD_SEC); [ apply weighted_yield_le; lia | lia ]. }
  set (y := yield / 1000000). pose proof (Z.mul_div_le yield 1000000 ltac:(lia)) as Hy6. fold y in Hy6.
  assert (u128 pool = pool) as -> by (apply u128_id; lia).
  destruct ((0 <? y) && (y <? pool)) eqn:E1; [ | done ]. b2p. simpl amount.
  unfold uwrap64, two64. rewrite Z.mod_small by lia. rewrite wrap64_id by (unfold in_int64, INT64_MIN, INT64_MAX; lia).
  split_and!; [ done | lia | ]. intros _. split_and!; [ lia | lia | ].
  destruct (Z.le_gt_cases (supply - pool) 0); [ nia | ].
  assert (cs = supply - pool) as Hcs by (apply u128_id; lia). rewrite Hcs in *. nia.
Qed.

(** ** The shares of a red packet *)

Lemma shrink_units_spec fuel count units u0 :
  1 <= count <= 30 -> 0 <= units < 2 ^ (Z.of_nat fuel) -> units <= 2 ^ 32 -> 0 < u0 ->
  units * u0 <= INT64_MAX ->
  let '(total, u) := shrink_units fuel count units u0 in
  0 <= total <= 2 * (count + 1) /\ 0 < u /\ total * u <= units * u0 /\ (count <= units -> count <= total).
Proof.
  intros Hc. revert units u0. induction fuel as [|fuel IH]; intros units u0 Hu Hm H0 Hi.
  - simpl in Hu. cbn [shrink_units]. split_and!; lia.
  - cbn [shrink_units].
    assert (E : uwrap32 (uwrap32 (count + 1) * 2) = (count + 1) * 2)
      by (unfold uwrap32, two32; rewrite (Z.mod_small (count + 1)), Z.mod_small by lia; done).
    rewrite E. destruct (Z.ltb_spec ((count + 1) * 2) units) as [Hlt|Hge]; [ | lia ].
    pose proof (Z.mul_div_le units 2 ltac:(lia)). pose proof (Z.mul_succ_div_gt units 2 ltac:(lia)).
    assert (Hu2 : u0 *! 2 = u0 * 2) by (apply mul64_id; unfold in_int64, INT64_MIN, INT64_MAX in *; nia).
    rewrite Hu2. rewrite Nat2Z.inj_succ, Z.pow_succ_r in Hu by lia.
    specialize (IH (units / 2) (u0 * 2) ltac:(lia) ltac:(lia) ltac:(lia) ltac:(nia)).
    destruct (shrink_units fuel count (units / 2) (u0 * 2)) as [total u]. nia.
Qed.

Definition share_sum (l : list Z) : Z := foldr Z.add 0 l.

Lemma share_sum_app l l' : share_sum (l ++ l') = share_sum l + share_sum l'.
Proof. induction l; simpl; lia. Qed.

(** The differences of increasing numbers are positive and telescope. *)
Lemma differences_spec a l :
  StronglySorted lt (a :: l) ->
  length (differences (a :: l)) = length l /\ Forall (Z.lt 0) (differences (a :: l))
  /\ share_sum (differences (a :: l)) = Z.of_nat (List.last (a :: l) 0%nat) - Z.of_nat a.
Proof.
  revert a. induction l as [|b l IH]; intros a Hs; [ split_and!; simpl; [ done | constructor | lia ] | ].
  inversion Hs as [|? ? Hs' Ha]; subst. apply Forall_cons in Ha as [Hab _].
  destruct (IH b Hs') as (H1 & H2 & H3).
  change (differences (a :: b :: l)) with ((Z.of_nat b - Z.of_nat a) :: differences (b :: l)).
  change (List.last (a :: b :: l) 0%nat) with (List.last (b :: l) 0%nat).
  split_and!; [ simpl in *; by f_equal | constructor; [ lia | done ] | ].
  cbn [share_sum foldr]. fold (share_sum (differences (b :: l))). lia.
Qed.

Lemma last_below n (a : nat) l : Forall (fun v => (v < n)%nat) (a :: l) -> (List.last (a :: l) 0 < n)%nat.
Proof.
  revert a. induction l as [|b l IH]; intros a H; apply Forall_cons in H as [Ha H]; [ done | ].
  change (List.last (b :: l) 0 < n)%nat. by apply IH.
Qed.

Lemma packet_shares_spec rand count total :
  1 <= count <= 30 -> count <= total <= 62 ->
  exists shares, packet_shares rand count total = Ok shares /\ length shares = Z.to_nat count
    /\ Forall (Z.lt 0) shares /\ share_sum shares = total.
Proof.
  intros Hc Ht. unfold packet_shares. destruct (Z.ltb_spec 1 count) as [H1|H1].
  2:{ assert (count = 1) as -> by lia. exists [total]. split_and!; [ done | done | repeat constructor; lia | simpl; lia ]. }
  unfold uwrap16. rewrite !Z.mod_small by lia.
  set (k := Z.to_nat (count - 1)). set (n := Z.to_nat (total - 1)).
  assert (Hkn : (1 <= k <= n)%nat) by lia. assert (Hn : (n <= 61)%nat) by lia.
  pose proof (coefficients_fit_63 n k ltac:(lia)) as Hfit.
  rewrite (cnr_exact n k Hfit) by lia. cbn [rbind]. pose proof (binom_pos n k ltac:(lia)) as Hb.
  rewrite (proj2 (Z.eqb_neq _ _)) by lia. cbn [throw_if rbind].
  destruct (unranking_combination (rand mod binom n k) k n Hfit ltac:(lia)) as (l & -> & Hl & _);
    [ apply Z.mod_pos_bound; lia | ].
  destruct Hl as (Hlen & Hsort & Hbound). cbn [rbind].
  rewrite (proj2 (Nat.leb_le _ _)) by lia. cbn [throw_unless rbind]. rewrite take_ge by lia.
  destruct l as [|l0 l]; [ simpl in Hlen; lia | ]. destruct (differences_spec l0 l Hsort) as (D1 & D2 & D3).
  pose proof (last_below n l0 l Hbound) as Hlast. set (last := List.last (l0 :: l) 0%nat) in *.
  assert (E : uwrap32 (total - (Z.of_nat last + 1)) = total - (Z.of_nat last + 1))
    by (unfold uwrap32, two32; apply Z.mod_small; lia).
  rewrite E. eexists. split_and!; [ done | | | ].
  - cbn [length]. rewrite length_app, D1. simpl in *. lia.
  - constructor; [ lia | ]. apply Forall_app. split; [ done | repeat constructor; lia ].
  - change (Z.of_nat l0 + 1 + share_sum (differences (l0 :: l) ++ [total - (Z.of_nat last + 1)]) = total).
    rewrite share_sum_app, D3. simpl. lia.
Qed.

(** C35: a red packet of 1 to 30 shares that is paid for is split: the units,
    which the code counts modulo 2^32, are halved to at most twice the number of
    shares plus two, at most the amount paid is used, and the random id cuts
    the units into exactly [count] shares, each of at least one unit, that add up
    to all units; unless the count has wrapped around to less than the number of
    shares, which takes 2^32 units. A count that has wrapped to 0 makes a packet
    of one share of nothing. *)
Theorem red_packet_split rand count paid (Hc : 1 <= count <= 30)
    (Hp : MIN_RED_PACKET_FEE + count * MIN_RED_PACKET_UNIT <= paid <= INT64_MAX) :
  let units := uwrap32 (div64 paid MIN_RED_PACKET_UNIT) in
  let '(total, unit) := shrink_units 32 count units MIN_RED_PACKET_UNIT in
  total *! unit = total * unit /\ total * unit <= paid /\ total <= 2 * (count + 1)
  /\ (paid < 2 ^ 32 * MIN_RED_PACKET_UNIT -> count <= units)
  /\ (count <= units -> exists shares, packet_shares rand count total = Ok shares /\ length shares = Z.to_nat count
       /\ Forall (Z.lt 0) shares /\ share_sum shares = total)
  /\ (units = 0 -> count = 1 -> packet_shares rand count total = Ok [0]).
Proof.
  intros units. subst units. change MIN_RED_PACKET_FEE with 100000 in *. change MIN_RED_PACKET_UNIT with 100000 in *.
  assert (Hd : div64 paid 100000 = paid / 100000) by (unfold div64; apply Z.quot_div_nonneg; lia). rewrite Hd.
  pose proof (Z.mul_div_le paid 100000 ltac:(lia)). pose proof (Z.mul_succ_div_gt paid 100000 ltac:(lia)).
  assert (Hsmall : paid < 2 ^ 32 * 100000 -> uwrap32 (paid / 100000) = paid / 100000)
    by (intros Hb; unfold uwrap32, two32; apply Z.mod_small; lia).
  assert (Hw : 0 <= uwrap32 (paid / 100000) < 2 ^ 32) by (unfold uwrap32, two32; apply Z.mod_pos_bound; lia).
  assert (Hle : uwrap32 (paid / 100000) <= paid / 100000) by (unfold uwrap32, two32; apply Z.mod_le; lia).
  set (units := uwrap32 (paid / 100000)) in *. pose proof (shrink_units_spec 32 count units 100000 Hc) as G.
  specialize (G ltac:(lia) ltac:(lia) ltac:(lia) ltac:(lia)).
  destruct (shrink_units 32 count units 100000) as [total u]. destruct G as (G1 & G2 & G3 & G4).
  split_and!; [ apply mul64_id; unfold in_int64, INT64_MIN, INT64_MAX in *; nia | lia | lia | | | ].
  - intros Hb. rewrite Hsmall by done. lia.
  - intros Hu. apply packet_shares_spec; lia.
  - intros Hu ->. assert (total = 0) as -> by nia. done.
Qed.

(** ** Claims *)

Lemma next_claim_index_before l n j s : (j < next_claim_index l n - n)%nat -> l !! j = Some s -> unclaimed s = false.
Proof.
  revert n j. induction l as [|x l IH]; simpl; intros n j Hj Hs; [ done | ].
  destruct (unclaimed x) eqn:E; [ lia | ]. destruct j as [|j]; [ simpl in Hs; congruence | ].
  apply (IH (S n) j); [ lia | done ].
Qed.

(** Claiming the first unclaimed share moves the index past it. *)
Lemma next_claim_index_insert l n m s' :
  next_claim_index l n = m -> (m - n < length l)%nat -> unclaimed s' = false ->
  (m < next_claim_index (<[(m - n)%nat := s']> l) n)%nat.
Proof.
  revert n. induction l as [|x l IH]; simpl; intros n Hm Hlen Hs; [ lia | ].
  destruct (unclaimed x) eqn:E.
  - subst. rewrite Nat.sub_diag. simpl. rewrite Hs. pose proof (next_claim_index_ge l (S m)). lia.
  - pose proof (next_claim_index_ge l (S n)). replace (m - n)%nat with (S (m - S n)) by lia. simpl. rewrite E.
    apply IH; [ done | lia | done ].
Qed.

(** The account has one of the shares claimed so far. *)
Definition claimed_by (account : account_id) (p : packet_record) : Prop :=
  exists j s, pk_claim_statuses p !! j = Some s /\ rs_account_id s = account /\ (j < next_available_claim_index p)%nat.

Section claims.
Context {S : Type} `{FcI : Fc} `{CI : chain_interface S} `{CS : !chain_spec S} `{Cr : Crypto} `{CF : !CollisionFree}
  `{Tx : TxCrypto} `{St : Statics}.
Implicit Types e : eval_state S.

Lemma claimed_refused o e e' pk :
  get_packet_record (es_state e) (cp_random_id o) = Some pk -> claimed_by (cp_to_account_id o) pk ->
  evaluate_claim_packet o e = Ok e' -> e' = e.
Proof.
  intros Hp (j & s & Hj & Hs & Hlt) H. unfold evaluate_claim_packet in H. rewrite Hp in H. inv_op.
  simplify_eq. destruct (is_unclaimed_empty a0); inv_ok; [ done | ].
  match goal with H : forallb _ _ = true |- _ => rewrite forallb_forall in H;
    assert (Hin : In s (take (next_available_claim_index a0) (pk_claim_statuses a0)));
    [ apply list_elem_of_In, (list_elem_of_lookup_2 _ j); by rewrite lookup_take_lt | specialize (H s Hin); simpl in H ] end.
  b2p. done.
Qed.

(** An account claims one share of a packet: a claim that pays marks the
    first unclaimed share as the account's and keeps the marks of the others,
    and whatever happens to the rest of the state a further claim for that
    account on the packet is refused or, with all shares claimed, changes
    nothing; the account is not -1. *)
Theorem claims_once o e e' pk
    (H : evaluate_claim_packet o e = Ok e') (Hwf : wf (es_state e)) (Ho : cp_to_account_id o <> -1)
    (Hp : get_packet_record (es_state e) (cp_random_id o) = Some pk) (He : is_unclaimed_empty pk = false) :
  exists pk', get_packet_record (es_state e') (cp_random_id o) = Some pk'
    /\ (next_available_claim_index pk < next_available_claim_index pk')%nat
    /\ claimed_by (cp_to_account_id o) pk'
    /\ (forall account, claimed_by account pk -> claimed_by account pk')
    /\ forall o2 e2 e3, get_packet_record (es_state e2) (cp_random_id o2) = Some pk' ->
         claimed_by (cp_to_account_id o2) pk' -> evaluate_claim_packet o2 e2 = Ok e3 -> e3 = e2.
Proof.
  destruct (claim_packet_spec o e e' pk H Hwf Hp He) as (st & Hst & Hun & W & _ & G).
  destruct (read_packet _ _ _ Hwf Hp) as [Hid _]. rewrite Hid in G.
  set (st' := claim_status _ _ st) in G. set (n := next_available_claim_index pk) in *.
  set (pk' := set_pk_claim_statuses (<[n := st']> (pk_claim_statuses pk)) pk) in G.
  assert (Hlen : (n < length (pk_claim_statuses pk))%nat) by (by eapply lookup_lt_Some).
  assert (Hn : (n < next_available_claim_index pk')%nat).
  { pose proof (next_claim_index_insert (pk_claim_statuses pk) 0 n st' eq_refl) as Hi. rewrite Nat.sub_0_r in Hi.
    apply Hi; [ done | ]. apply Z.eqb_neq. exact Ho. }
  exists pk'. split_and!.
  - unfold get_packet_record, packet_record_lookup. rewrite flat_lookup. exact G.
  - done.
  - exists n, st'. split_and!; [ | done | done ]. simpl. by apply list_lookup_insert_eq.
  - intros account (j & s & Hj & Hs & Hlt). exists j, s. split_and!; [ | done | lia ].
    simpl. rewrite list_lookup_insert_ne by lia. done.
  - intros o2 e2 e3. apply claimed_refused.
Qed.
End claims.

(** ** Escrows *)

Section escrows.
Context {S : Type} `{FcI : Fc} `{CI : chain_interface S} `{CS : !chain_spec S} `{Cr : Crypto}
  `{Tx : TxCrypto} `{St : Statics}.
Implicit Types e : eval_state S.

Lemma signed_or_retracting a (b : bool) e u :
  throw_unless missing_signature (check_signature e a || b) = Ok u -> check_signature e a = true \/ b = true.
Proof. intros H. inv_ok. by apply orb_true_iff. Qed.

(** What a branch demands of the amounts, the record having lost both. *)
Lemma release_branch_amounts sender receiver escrow retracting o r e e' :
  release_branch sender receiver escrow retracting o r e = Ok e' ->
  (re_released_by o = sender -> re_amount_to_sender o = 0 /\ re_amount_to_receiver o <= br_balance r)
  /\ (re_released_by o = receiver -> receiver <> sender ->
      re_amount_to_receiver o = 0 /\ re_amount_to_sender o <= br_balance r)
  /\ (re_released_by o = sender \/ re_released_by o = receiver \/ re_released_by o = escrow
      \/ re_released_by o = null_address
         /\ (check_signature e sender = true /\ check_signature e receiver = true \/ retracting = true)).
Proof.
  unfold release_branch. intros H.
  destruct (Z.eqb_spec sender (re_released_by o)) as [E1|N1].
  { inv_ok. b2p. split_and!; [ done | congruence | by left ]. }
  destruct (Z.eqb_spec receiver (re_released_by o)) as [E2|N2].
  { inv_ok. b2p. split_and!; [ congruence | done | right; by left ]. }
  destruct (Z.eqb_spec escrow (re_released_by o)) as [E3|N3].
  { split_and!; [ congruence.. | auto ]. }
  destruct (Z.eqb_spec null_address (re_released_by o)) as [E4|N4]; [ | by inv_ok ].
  inv_ok. split_and!; [ congruence.. | ]. do 3 right. split; [ done | ].
  repeat match goal with H : _ || _ = true |- _ => apply orb_true_iff in H end. tauto.
Qed.

(** C39: who releases an escrow has signed, is a party to it or stands for
    both the sender and the receiver, and at most the balance is released;
    the sender alone pays the receiver only and the receiver alone the sender
    only, and because the amount is compared with the balance after it was
    subtracted, each of them releases at most half of the escrow. *)
Theorem escrow_release_limits o e e' r sender receiver escrow h m
    (H : evaluate_release_escrow o e = Ok e')
    (Hr : get_balance_record (es_state e) (re_escrow_id o) = Some r)
    (Hc : wc_data (br_condition r) = withdraw_with_escrow sender receiver escrow h m)
    (Hb : 0 <= br_balance r <= INT64_MAX)
    (Hs : re_amount_to_sender o <= INT64_MAX) (Hv : re_amount_to_receiver o <= INT64_MAX) :
  check_signature e (re_released_by o) = true
  /\ 0 <= re_amount_to_sender o /\ 0 <= re_amount_to_receiver o
  /\ re_amount_to_sender o + re_amount_to_receiver o <= br_balance r
  /\ (re_released_by o = sender -> re_amount_to_sender o = 0 /\ 2 * re_amount_to_receiver o <= br_balance r)
  /\ (re_released_by o = receiver -> receiver <> sender ->
      re_amount_to_receiver o = 0 /\ 2 * re_amount_to_sender o <= br_balance r)
  /\ (re_released_by o = sender \/ re_released_by o = receiver \/ re_released_by o = escrow
      \/ re_released_by o = null_address).
Proof.
  unfold evaluate_release_escrow in H. rewrite Hr in H. inv_ok. simplify_eq. b2p. rewrite Hc in H.
  unfold INT64_MAX in *.
  assert (E : forall z, 0 <= z < two64 -> uwrap64 z = z) by (intros; by apply Z.mod_small).
  unfold two64 in E. rewrite !(E (re_amount_to_sender o)), !(E (re_amount_to_receiver o)), (E (br_balance _)) in H by lia.
  rewrite (E (re_amount_to_sender o + re_amount_to_receiver o)) in H by lia.
  inv_ok. b2p.
  match goal with H : release_branch _ _ _ _ _ _ _ = Ok _ |- _ => apply release_branch_amounts in H as (B1 & B2 & B3) end.
  cbn [br_balance set_br_balance] in B1, B2. rewrite wrap64_id in B1, B2 by (unfold in_int64, INT64_MIN, INT64_MAX; lia).
  split_and!; [ done | lia | lia | lia | | | tauto ].
  - intros E1. destruct (B1 E1). lia.
  - intros E1 E2. destruct (B2 E1 E2). lia.
Qed.
End escrows.

(** ** Fees *)

Section fees.
Context {S : Type} `{FcI : Fc} `{CI : chain_interface S} `{CS : !chain_spec S} `{Cr : Crypto} `{St : Statics}.
Implicit Types e : eval_state S.

(** What [validate_fees] demands of one fee. *)
Definition fee_ok e (id fee : Z) : Prop :=
  0 <= fee /\ (forall m, es_min_fees e !! id = Some m -> m <= fee)
  /\ (forall m, es_max_fees e !! id = Some m -> fee <= m)
  /\ (fee <> 0 -> is_Some (get_asset_record (es_state e) id)).

(** The same limits and the same assets. *)
Definition fee_frame e e' : Prop :=
  es_min_fees e' = es_min_fees e /\ es_max_fees e' = es_max_fees e /\ wf (es_state e')
  /\ forall id, is_Some (get_asset_record (es_state e') id) <-> is_Some (get_asset_record (es_state e) id).

Lemma fee_ok_frame e e' id fee : fee_frame e e' -> (fee_ok e' id fee <-> fee_ok e id fee).
Proof. intros (E1 & E2 & _ & E3). unfold fee_ok. by rewrite E1, E2, E3. Qed.

Lemma fee_limit_max (o : option Z) fee :
  match o with Some m => fee <? m | None => false end = false <-> forall m, o = Some m -> m <= fee.
Proof. destruct o; [ rewrite Z.ltb_ge; naive_solver | naive_solver ]. Qed.
Lemma fee_limit_min (o : option Z) fee :
  match o with Some m => m <? fee | None => false end = false <-> forall m, o = Some m -> fee <= m.
Proof. destruct o; [ rewrite Z.ltb_ge; naive_solver | naive_solver ]. Qed.

Lemma validate_fee_total id fee e :
  wf (es_state e) -> fee_ok e id fee -> exists e', validate_fee (id, fee) e = Ok e' /\ fee_frame e e'.
Proof.
  intros Hwf (H1 & H2 & H3 & H4). unfold validate_fee. rewrite (proj2 (Z.ltb_ge fee 0)) by lia.
  rewrite (proj2 (fee_limit_max (es_min_fees e !! id) fee) H2), (proj2 (fee_limit_min (es_max_fees e !! id) fee) H3). cbn [throw_if rbind].
  destruct (Z.eqb_spec fee 0) as [E|N]; [ by exists e | ].
  destruct (H4 N) as [r Hr]. rewrite Hr. cbn [from_option_or rbind]. eexists. split; [ done | ].
  destruct (read_asset _ _ _ Hwf Hr) as [Hid _].
  split_and!; [ done.. | by apply (step_asset _ (es_state e) ∅) | ].
  intros id'. cbn [es_state set_state]. rewrite asset_stored. change (as_id (set_as_collected_fees _ r)) with (as_id r).
  rewrite Hid. destruct (decide (id = id')) as [<-|]; [ | done ]. rewrite Hr. split; intros _; by eexists.
Qed.

Lemma validate_fee_ok id fee e e' :
  validate_fee (id, fee) e = Ok e' -> wf (es_state e) -> fee_ok e id fee.
Proof.
  unfold validate_fee. intros H Hwf. inv_ok. b2p.
  pose proof (proj1 (fee_limit_max (es_min_fees e !! id) fee) Ha0).
  pose proof (proj1 (fee_limit_min (es_max_fees e !! id) fee) Ha1).
  split_and!; [ lia | done | done | ]. intros N. rewrite (proj2 (Z.eqb_neq _ _) N) in H. inv_ok. by eexists.
Qed.

(** the fees of a transaction are accepted exactly when each fee that
    was paid is not negative, at least the minimum and at most the maximum set
    for its asset, and in an asset that exists; so a minimum fee in an asset
    in which the transaction pays nothing is not enforced. *)
Theorem fees_accepted_iff e (Hwf : wf (es_state e)) :
  (exists e', validate_fees e = Ok e') <-> forall id fee, es_fees_paid e !! id = Some fee -> fee_ok e id fee.
Proof.
  assert (G : forall l e0, wf (es_state e0) ->
    (exists e', foldM validate_fee l e0 = Ok e') <-> Forall (fun item => fee_ok e0 (fst item) (snd item)) l).
  { induction l as [|[id fee] l IH]; intros e0 Hw; cbn [foldM]; [ split; intros; [ constructor | by eexists ] | ].
    rewrite Forall_cons. split.
    - intros [e' H]. apply bind_Ok in H as (a & Ha & H).
      pose proof (validate_fee_ok _ _ _ _ Ha Hw) as Hok. split; [ done | ].
      destruct (validate_fee_total _ _ _ Hw Hok) as (e1 & E1 & F). assert (a = e1) as -> by congruence.
      assert (X : exists e', foldM validate_fee l e1 = Ok e') by by eexists.
      apply IH in X; [ | apply F ]. eapply Forall_impl; [ exact X | ]. intros [i f]. by apply (fee_ok_frame e0 e1).
    - intros [Hok Hl]. destruct (validate_fee_total id fee e0 Hw Hok) as (e1 & -> & F). cbn [rbind].
      apply IH; [ apply F | ]. eapply Forall_impl; [ exact Hl | ]. intros [i f]. by apply (fee_ok_frame e0 e1). }
  unfold validate_fees. rewrite (G _ _ Hwf), Forall_forall. split.
  - intros H id fee Hf. by apply (H (id, fee)), elem_of_map_items.
  - intros H [id fee] Hin. apply H. by apply elem_of_map_items.
Qed.
End fees.

(** ** Concrete runs *)

#[local] Existing Instance demo_crypto.
#[local] Existing Instance demo_tx.
#[local] Existing Instance demo_statics.

Definition demo_vesting : balance_record :=
  mk_balance {| wc_asset_id := 0; wc_slate_id := 0; wc_data := withdraw_vesting 24 1000 400 8000 |} 7000 None 0 0 None.

Lemma vesting_spendable_witness : get_spendable_balance demo_vesting 1100 = Ok (mk_asset 1000 0).
Proof.
  assert (H : vesting_ok 1000 400 8000 1100) by (unfold vesting_ok, two32, INT64_MAX; lia).
  destruct (vesting_spendable demo_vesting 24 1000 400 8000 1100 eq_refl H ltac:(vm_compute; split; discriminate)) as [E _].
  exact E.
Defined.

Lemma yield_bounds_witness :
  let y := calculate_yield alice_balance 50000000 900000000 1000000 100000000000 in
  amount y = 9000 /\ amount y * (100000000000 - 1000000) <= 900000000 * 1000000.
Proof.
  assert (Ey : amount (calculate_yield alice_balance 50000000 900000000 1000000 100000000000) = 9000)
    by (vm_compute; reflexivity).
  split; [ exact Ey | ].
  apply (yield_bounds alice_balance 50000000 900000000 1000000 100000000000); rewrite ?Ey;
    unfold in_int64, INT64_MIN, INT64_MAX; lia.
Defined.

(** 2^32 units are counted as none: one share of nothing, and nothing is charged. *)
Example red_packet_units_wrap : let paid := 2 ^ 32 * MIN_RED_PACKET_UNIT in
  shrink_units 32 1 (uwrap32 (div64 paid MIN_RED_PACKET_UNIT)) MIN_RED_PACKET_UNIT = (0, MIN_RED_PACKET_UNIT)
  /\ packet_shares 12345 1 0 = Ok [0].
Proof. vm_compute. done. Qed.

Lemma red_packet_split_witness :
  exists shares, packet_shares 12345 3 5 = Ok shares /\ length shares = 3%nat /\ share_sum shares = 5.
Proof.
  destruct (red_packet_split 12345 3 500000) as (_ & _ & _ & _ & H & _); [ lia | vm_compute; split; discriminate | ].
  destruct H as (shares & H1 & H2 & _ & H3); [ vm_compute; discriminate | ].
  exists shares. split; [ exact H1 | split; [ exact H2 | exact H3 ] ].
Defined.

(** The first account claims for itself. *)
Definition demo_self_claim : claim_packet_operation := {| cp_random_id := 12345; cp_to_account_id := 1 |}.
Definition demo_claimed : eval_state (pending_chain_state chain_database) :=
  ok_or demo_claimant (evaluate_claim_packet demo_self_claim demo_claimant).

Lemma claims_once_witness :
  exists pk', get_packet_record (es_state demo_claimed) 12345 = Some pk' /\ claimed_by 1 pk'
    /\ forall e3, evaluate_claim_packet demo_self_claim demo_claimed = Ok e3 -> e3 = demo_claimed.
Proof.
  destruct (claims_once demo_self_claim demo_claimant demo_claimed demo_packet) as (pk' & H1 & _ & H2 & _ & H3);
    [ apply ok_or_is_ok; vm_compute; reflexivity | apply wf_check_wf; vm_compute; reflexivity
    | discriminate | vm_compute; reflexivity | vm_compute; reflexivity | ].
  exists pk'. split; [ exact H1 | split; [ exact H2 | ] ]. intros e3. exact (H3 demo_self_claim demo_claimed e3 H1 H2).
Defined.

(** An escrow of the first account in favour of the second. *)
Definition demo_escrow : balance_record :=
  mk_balance {| wc_asset_id := 0; wc_slate_id := 0; wc_data := withdraw_with_escrow 24 44 66 0 None |} 1000 None 0 0 None.
Definition demo_escrow_state : eval_state (pending_chain_state chain_database) :=
  set_signed {[ 24 ]} (eval_start (store_balance_record demo_escrow (pending_empty demo_db))).
Definition demo_release (v : Z) : release_escrow_operation := {|
  re_escrow_id := balance_id demo_escrow; re_released_by := 24; re_amount_to_receiver := v; re_amount_to_sender := 0 |}.

Lemma escrow_release_limits_witness :
  is_ok (evaluate_release_escrow (demo_release 500) demo_escrow_state) = true
  /\ evaluate_release_escrow (demo_release 501) demo_escrow_state = Throw assert_exception
  /\ 2 * 500 <= br_balance demo_escrow.
Proof.
  split; [ vm_compute; reflexivity | split; [ vm_compute; reflexivity | ] ].
  assert (E : evaluate_release_escrow (demo_release 500) demo_escrow_state
    = Ok (ok_or demo_escrow_state (evaluate_release_escrow (demo_release 500) demo_escrow_state)))
    by (apply ok_or_is_ok; vm_compute; reflexivity).
  destruct (escrow_release_limits (demo_release 500) demo_escrow_state _ demo_escrow 24 44 66 0 None E)
    as (_ & _ & _ & _ & H & _); [ vm_compute; reflexivity | reflexivity | vm_compute; split; discriminate
    | vm_compute; discriminate | vm_compute; discriminate | ].
  exact (proj2 (H eq_refl)).
Defined.

(** A registration that pays nothing, with a minimum fee in the base asset. *)
Definition demo_free : signed_transaction := {|
  tx_expiration := 110005;
  tx_operations := [ op_register_account {| ra_name := "carol"; ra_public_data := ""; ra_owner_key := 51;
    ra_active_key := 52; ra_delegate_pay_rate := 255; ra_meta_data := None |} ];
  tx_signatures := [] |}.

Lemma fees_accepted_iff_witness :
  is_ok (apply_transaction false 501 0 demo_free (pending_empty demo_db)) = true
  /\ exists e', validate_fees (add_min_fee 0 50000 demo_eval) = Ok e'.
Proof.
  split; [ vm_compute; reflexivity | ].
  apply (fees_accepted_iff (add_min_fee 0 50000 demo_eval)); [ exact demo_eval_wf | ].
  intros id fee H. vm_compute in H. discriminate H.
Defined.
