(* ===== verification/Rankings.v ===== *)
(** The rankings of the chain database: the delegates by vote and the accounts
    by reputation, kept in step with the account records by
    [account_record::store] and [remove]; and the median of the feeds. *)

From S2P Require Import Prelude Asset Names Records ChainInterface Tables PendingState ChainDatabase Concrete.
From S2P Require Import Undo EvalState Transaction Supply Conservation Frames.

Create Rewrite HintDb votes.

Section rankings.
Context `{Cr : Crypto} `{Tx : TxCrypto} `{St : Statics}.
Implicit Types d : chain_database.

(** ** What the index functions leave alone *)

Definition same_votes d d' : Prop := db_delegate_votes d' = db_delegate_votes d.

Lemma index_erase_votes i k d : db_delegate_votes (index_erase i k d) = db_delegate_votes d.
Proof. done. Qed.
Lemma index_insert_votes i k id d : db_delegate_votes (index_insert i k id d) = db_delegate_votes d.
Proof. done. Qed.
Lemma record_insert_votes t k v d : db_delegate_votes (record_insert t k v d) = db_delegate_votes d.
Proof. done. Qed.
Lemma record_erase_votes t k d : db_delegate_votes (record_erase t k d) = db_delegate_votes d.
Proof. done. Qed.
Lemma erase_addresses_votes l d : db_delegate_votes (erase_key_addresses l d) = db_delegate_votes d.
Proof. unfold erase_key_addresses. revert d. induction l as [|x l IH]; simpl; intros d; [ done | by rewrite IH ]. Qed.
Lemma insert_addresses_votes l id d : db_delegate_votes (insert_key_addresses l id d) = db_delegate_votes d.
Proof.
  unfold insert_key_addresses. revert d. induction l as [|x l IH]; simpl; intros d; [ done | ].
  rewrite IH. by case_match.
Qed.
Lemma rp_erase_votes v d : db_delegate_votes (ranking_erase rp_set v d) = db_delegate_votes d.
Proof. done. Qed.
Lemma vote_erase_votes v d : db_delegate_votes (ranking_erase vote_set v d) = db_delegate_votes d ∖ {[ v ]}.
Proof. done. Qed.
Lemma vote_insert_votes v d : db_delegate_votes (ranking_insert vote_set v d) = {[ v ]} ∪ db_delegate_votes d.
Proof. done. Qed.

#[local] Hint Rewrite index_erase_votes index_insert_votes record_insert_votes record_erase_votes erase_addresses_votes
  insert_addresses_votes rp_erase_votes vote_erase_votes vote_insert_votes : votes.

(** ** Storing an account *)

(** The entry of a record in the ranking. *)
Definition entry_of (r : account_record) : option (Z * Z) :=
  match ac_delegate_info r, is_retracted r with
  | Some info, Ok false => Some (ds_votes_for info, ac_id r)
  | _, _ => None
  end.

Lemma retract_votes prev r d d' :
  account_store_retract prev r d = Ok d' -> ac_id prev = ac_id r ->
  (forall e, e ∈ db_delegate_votes d' <-> e ∈ db_delegate_votes d /\ (entry_of prev = Some e -> entry_of r = Some e))
  /\ is_ok (is_retracted r) = true.
Proof.
  unfold account_store_retract. intros H Hid. inv_ok.
  match goal with H : is_retracted prev = Ok ?x |- _ => rename x into pr; rename H into Hpr end.
  match goal with H : is_retracted r = Ok ?x |- _ => rename x into rr; rename H into Hrr end.
  split; [ | by rewrite Hrr ].
  match goal with |- context [db_delegate_votes (if ?b then ranking_erase rp_set ?v ?x else _)] =>
    replace (db_delegate_votes (if b then ranking_erase rp_set v x else x)) with (db_delegate_votes x) by by destruct b;
    rename x into d1 end.
  unfold entry_of, is_delegate in *. rewrite Hpr, Hrr. intros e.
  destruct (ac_delegate_info prev) as [pi|] eqn:Epi.
  - inv_ok. match goal with H : (if negb _ then _ else _) = Ok ?x |- _ => assert (E : db_delegate_votes x = db_delegate_votes d) end.
    { destruct (ac_delegate_info r); simpl in *; inv_ok; repeat case_match; autorewrite with votes;
        repeat case_match; autorewrite with votes; repeat case_match; by autorewrite with votes. }
    match goal with H : (if negb _ then _ else _) = Ok _ |- _ => clear H end. destruct pr; simpl.
    + rewrite E. naive_solver.
    + assert (Hdiff : forall x o, (o : option (Z * Z)) <> Some x ->
          (e ∈ db_delegate_votes a1 ∖ {[ x ]} <-> e ∈ db_delegate_votes d /\ (Some x = Some e -> o = Some e))).
      { intros x o Ho. rewrite E, elem_of_difference, elem_of_singleton. split.
        - intros [H1 H2]. split; [ done | congruence ].
        - intros [H1 H2]. split; [ done | ]. intros ->. by apply Ho, H2. }
      destruct (ac_delegate_info r) as [ri|]; [ | destruct rr; by apply Hdiff ].
      destruct rr; [ by apply Hdiff | ]. simpl. case_bool_decide as Hv; simpl; [ | apply Hdiff; congruence ].
      rewrite E. injection Hv as Hv. rewrite <- Hid, Hv. naive_solver.
  - inv_ok. match goal with |- context [db_delegate_votes ?x] => assert (E : db_delegate_votes x = db_delegate_votes d) end.
    { repeat case_match; autorewrite with votes; repeat case_match; autorewrite with votes; repeat case_match;
        by autorewrite with votes. }
    rewrite E. naive_solver.
Qed.

Lemma enter_votes id r d d' :
  account_store_enter id r d = Ok d' -> id = ac_id r -> is_ok (is_retracted r) = true ->
  forall e, e ∈ db_delegate_votes d' <-> e ∈ db_delegate_votes d \/ entry_of r = Some e.
Proof.
  unfold account_store_enter, entry_of. intros H -> Hr e.
  destruct (ac_delegate_info r) as [i|]; inv_ok.
  - match goal with H : is_retracted r = Ok ?x |- _ => rewrite H; destruct x end;
      rewrite ?vote_insert_votes; autorewrite with votes; [ naive_solver | ].
    rewrite elem_of_union, elem_of_singleton. naive_solver.
  - autorewrite with votes. naive_solver.
Qed.

Lemma fresh_retracted r d d' : account_store_enter (ac_id r) r d = Ok d' ->
  ac_delegate_info r <> None -> is_ok (is_retracted r) = true.
Proof.
  unfold account_store_enter. intros H Hi. destruct (ac_delegate_info r); [ | done ]. inv_ok.
  match goal with H : is_retracted r = _ |- _ => by rewrite H end.
Qed.

(** ** The invariant *)

(** Accounts are stored under their id, and the ranking has the entries of
    the delegates that are not retracted, and no others. *)
Record ranked d : Prop := {
  ranked_keys : forall k r, flat account_t d !! k = Some r -> ac_id r = k;
  ranked_votes : forall e, e ∈ db_delegate_votes d <-> exists k r, flat account_t d !! k = Some r /\ entry_of r = Some e }.

Lemma ranked_account_store r d d' : account_record_store (ac_id r) r d = Ok d' -> ranked d -> ranked d'.
Proof.
  intros H [Hk Hv].
  destruct (store_flat account_t (ac_id r) r d d' H eq_refl) as [E _].
  assert (Hvotes : forall e, e ∈ db_delegate_votes d' <->
    (e ∈ db_delegate_votes d /\ (forall prev, flat account_t d !! ac_id r = Some prev -> entry_of prev = Some e -> entry_of r = Some e))
    \/ entry_of r = Some e).
  { intros e. unfold account_record_store, account_record_lookup in H.
    apply bind_Ok in H as (d1 & H1 & H).
    assert (Ef : record_lookup account_t d (ac_id r) = flat account_t d !! (ac_id r : key_of account_t))
      by apply flat_lookup.
    destruct (record_lookup account_t d (ac_id r)) as [prev|].
    - symmetry in Ef. apply retract_votes in H1 as [H1 H2]; [ | by apply Hk ].
      rewrite (enter_votes _ _ _ _ H eq_refl H2), H1. naive_solver.
    - symmetry in Ef. apply Ok_inj in H1 as <-. assert (Hr : ac_delegate_info r = None \/ is_ok (is_retracted r) = true).
      { destruct (ac_delegate_info r) eqn:Ei; [ right; eapply fresh_retracted; [ exact H | congruence ] | by left ]. }
      destruct Hr as [Hr|Hr]; [ | rewrite (enter_votes _ _ _ _ H eq_refl Hr); naive_solver ].
      unfold account_store_enter, entry_of in *. rewrite Hr in *. inv_ok. autorewrite with votes. naive_solver. }
  split.
  - intros k r'. rewrite E, lookup_insert. case_decide; [ naive_solver | apply Hk ].
  - intros e. rewrite Hvotes. split.
    + intros [[He Hprev] | He]; [ | exists (ac_id r), r; by rewrite E, lookup_insert_eq ].
      apply Hv in He as (k & r' & Hr' & He). destruct (decide (k = ac_id r)) as [->|Hne].
      * exists (ac_id r), r. rewrite E, lookup_insert_eq. split; [ done | by eapply Hprev ].
      * exists k, r'. by rewrite E, lookup_insert_ne.
    + intros (k & r' & Hr' & He). rewrite E, lookup_insert in Hr'. case_decide as Hd; [ right; congruence | left ].
      split; [ apply Hv; eauto | ]. intros prev Hprev Hep. exfalso. apply Hd.
      assert (Hi : forall x, entry_of x = Some e -> ac_id x = snd e).
      { intros x. unfold entry_of. repeat case_match; naive_solver. }
      rewrite <- (Hk _ _ Hr'), <- (Hk _ _ Hprev), (Hi _ He), (Hi _ Hep). done.
Qed.

Lemma ranked_account_remove k d d' : account_record_remove k d = Ok d' -> ranked d -> ranked d'.
Proof.
  intros H [Hk Hv]. destruct (remove_flat account_t k d d' H eq_refl) as [E _].
  assert (Hvotes : forall e, e ∈ db_delegate_votes d' <->
    e ∈ db_delegate_votes d /\ forall prev, flat account_t d !! k = Some prev -> entry_of prev <> Some e).
  { intros e. unfold account_record_remove, account_record_lookup in H.
    assert (Ef : record_lookup account_t d k = flat account_t d !! (k : key_of account_t)) by apply flat_lookup.
    destruct (record_lookup account_t d k) as [prev|]; symmetry in Ef; inv_ok; [ | naive_solver ].
    match goal with H : is_retracted prev = Ok ?x |- _ => rename x into ret; rename H into Hret end.
    match goal with |- context [db_delegate_votes (if ret then ?x else ?y)] =>
      replace (db_delegate_votes (if ret then x else y)) with (db_delegate_votes x)
        by (destruct ret; by autorewrite with votes) end.
    assert (Hu : forall p, flat account_t d !! k = Some p -> p = prev)
      by (intros p Hp; pose proof (eq_trans (eq_sym Ef) Hp) as X; by injection X).
    unfold entry_of. destruct (ac_delegate_info prev) as [info|] eqn:Ei.
    - destruct ret; autorewrite with votes.
      + split; [ | tauto ]. intros He. split; [ done | ]. intros p Hp. apply Hu in Hp as ->.
        by rewrite Ei, Hret.
      + rewrite elem_of_difference, elem_of_singleton. split.
        * intros [H1 H2]. split; [ done | ]. intros p Hp. apply Hu in Hp as ->. rewrite Ei, Hret. by intros [= <-].
        * intros [H1 H2]. split; [ done | ]. intros ->. apply (H2 _ Ef). by rewrite Ei, Hret.
    - autorewrite with votes. split; [ | tauto ]. intros He. split; [ done | ]. intros p Hp.
      apply Hu in Hp as ->. by rewrite Ei. }
  split.
  - intros j r. rewrite E, lookup_delete. case_decide; [ done | apply Hk ].
  - intros e. rewrite Hvotes, Hv. split.
    + intros [(j & r & Hr & He) Hn]. exists j, r. split; [ | done ]. rewrite E, lookup_delete.
      case_decide as Hd; [ subst; by destruct (Hn _ Hr) | done ].
    + intros (j & r & Hr & He). rewrite E, lookup_delete in Hr. case_decide as Hd; [ done | ].
      split; [ eauto | ]. intros prev Hp Hep. apply Hd.
      assert (Hi : forall x, entry_of x = Some e -> ac_id x = snd e).
      { intros x. unfold entry_of. repeat case_match; naive_solver. }
      rewrite <- (Hk _ _ Hr), <- (Hk _ _ Hp), (Hi _ He), (Hi _ Hep). done.
Qed.

Lemma store_other_votes t k v d d' :
  store t k v d = Ok d' -> t <> account_t -> db_delegate_votes d' = db_delegate_votes d.
Proof.
  intros H Hne. destruct t; simpl in H; try done; inv_ok;
    unfold asset_record_store, game_record_store, slot_record_store; by repeat case_match.
Qed.

Lemma remove_other_votes t k d d' :
  remove t k d = Ok d' -> t <> account_t -> db_delegate_votes d' = db_delegate_votes d.
Proof.
  intros H Hne. destruct t; simpl in H; try done; inv_ok;
    unfold property_record_remove, asset_record_remove, slate_record_remove, balance_record_remove,
      transaction_record_remove, burn_record_remove, ad_record_remove, note_record_remove,
      packet_record_remove, operation_reward_record_remove, feed_record_remove, game_record_remove, slot_record_remove;
    by repeat case_match.
Qed.

(** ** Reachable databases *)

(** What is done to the database: records are stored under their keys and
    removed, market orders are stored, and the head moves. *)
Inductive db_step : chain_database -> chain_database -> Prop :=
| step_store t k v d d' : key_ok t k v -> store t k v d = Ok d' -> db_step d d'
| step_remove t k d d' : remove t k d = Ok d' -> db_step d d'
| step_bid k o d : db_step d (store_bid_record k o d)
| step_ask k o d : db_step d (store_ask_record k o d)
| step_market_status x d : db_step d (store_market_status x d)
| step_market_history k x d : db_step d (store_market_history_record k x d)
| step_market_transactions l d : db_step d (set_market_transactions l d)
| step_head num timestamp clock d : db_step d
    (mk_database (db_tables d) (db_indexes d) (db_delegate_votes d) (db_account_rps d) (db_unique_transactions d)
       (db_asks d) (db_bids d) (db_markets d) num timestamp clock).

Definition reachable d : Prop := exists clock, rtc db_step (database_empty clock) d.

Lemma ranked_step d d' : db_step d d' -> ranked d -> ranked d'.
Proof.
  intros H Hr.
  assert (G : flat account_t d' = flat account_t d -> db_delegate_votes d' = db_delegate_votes d -> ranked d').
  { intros E1 E2. destruct Hr as [Hk Hv]. split; intros *; rewrite E1, ?E2; [ apply Hk | apply Hv ]. }
  destruct H as [t k v d d' Hk H|t k d d' H| | | | | |]; try by apply G.
  - destruct (decide (t = account_t)) as [->|Hne]; [ simpl in Hk; subst k; by eapply ranked_account_store | ].
    apply G; [ by apply (flat_other t k v) | by eapply store_other_votes ].
  - destruct (decide (t = account_t)) as [->|Hne]; [ by eapply ranked_account_remove | ].
    apply G; [ | by eapply remove_other_votes ]. destruct (tracked t) eqn:Et.
    + apply remove_flat in H as [_ H]; [ | done ]. by apply H.
    + rewrite remove_untracked in H by done. by simplify_eq.
Qed.

Lemma reachable_ranked d : reachable d -> ranked d.
Proof.
  intros [clock H].
  assert (H0 : ranked (database_empty clock)).
  { split.
    - intros k r Hr. change ((∅ : gmap Z account_record) !! k = Some r) in Hr. by rewrite lookup_empty in Hr.
    - intros e. split; [ intros He; by apply not_elem_of_empty in He | ]. intros (k & r & Hr & _).
      change ((∅ : gmap Z account_record) !! k = Some r) in Hr. by rewrite lookup_empty in Hr. }
  revert H0. induction H as [d|d1 d2 d3 Hs _ IH]; intros Hr; [ done | ]. apply IH. by eapply ranked_step.
Qed.

(** ** The order of the ranking *)

Lemma in_rank_order_elem s e : e ∈ in_rank_order s <-> e ∈ s.
Proof. unfold in_rank_order. by rewrite merge_sort_Permutation, elem_of_elements. Qed.

Lemma in_rank_order_NoDup s : NoDup (in_rank_order s).
Proof. unfold in_rank_order. rewrite merge_sort_Permutation. apply NoDup_elements. Qed.

Lemma in_rank_order_sorted s : StronglySorted rank_before (in_rank_order s).
Proof. unfold in_rank_order. apply Sorted_StronglySorted; [ apply _ | ]. apply Sorted_merge_sort. apply _. Qed.

(** C34: in every reachable database the ranking lists the delegates that are
    not retracted, each once with its votes, the most votes first and among
    equal votes the smallest id first; the active delegates of the next round
    are its first 101. *)
Theorem delegates_ranked_by_vote d (Hd : reachable d) :
  let order := in_rank_order (db_delegate_votes d) in
  StronglySorted rank_before order /\ NoDup order.*2
  /\ (forall v id, (v, id) ∈ order <-> exists r info, get_account_record d id = Some r /\ is_retracted r = Ok false
        /\ ac_delegate_info r = Some info /\ ds_votes_for info = v)
  /\ next_round_active_delegates d = take 101 order.*2.
Proof.
  intros order. destruct (reachable_ranked d Hd) as [Hk Hv].
  assert (Hin : forall v id, (v, id) ∈ order <-> exists r info, get_account_record d id = Some r
    /\ is_retracted r = Ok false /\ ac_delegate_info r = Some info /\ ds_votes_for info = v).
  { intros v id. unfold order. rewrite in_rank_order_elem, Hv.
    assert (Eg : get_account_record d id = flat account_t d !! (id : key_of account_t))
      by exact (flat_lookup account_t d id).
    split.
    - intros (k & r & Hr & He). pose proof (Hk _ _ Hr) as Hid. unfold entry_of in He.
      destruct (ac_delegate_info r) as [info|] eqn:Ei; [ | done ].
      destruct (is_retracted r) as [[]|] eqn:Er; [ done | | done ]. injection He as <- <-.
      exists r, info. split_and!; [ | done.. ]. rewrite Eg, Hid. done.
    - intros (r & info & Hr & Hret & Hi & <-). rewrite Eg in Hr. exists id, r. split; [ done | ].
      unfold entry_of. rewrite Hi, Hret. by rewrite (Hk _ _ Hr). }
  split_and!; [ apply in_rank_order_sorted | | done | done ].
  apply NoDup_fmap_2_strong; [ | apply in_rank_order_NoDup ].
  intros [v1 i1] [v2 i2] H1 H2 E. simpl in E. subst i2. apply Hin in H1 as (r1 & n1 & G1 & _ & I1 & <-).
  apply Hin in H2 as (r2 & n2 & G2 & _ & I2 & <-). congruence.
Qed.

(** ** The reputations *)

Lemma rps_stable d0 : stable (fun _ => True) (fun d => db_account_rps d ⊆ db_account_rps d0).
Proof.
  apply stable_of_primitives; try done. intros w v s Hs. destruct w; [ done | ]. simpl. set_solver.
Qed.

Lemma remove_rps t k d d' : remove t k d = Ok d' -> db_account_rps d' ⊆ db_account_rps d.
Proof.
  assert (He : forall l d, db_account_rps (erase_key_addresses l d) = db_account_rps d).
  { unfold erase_key_addresses. induction l as [|x l IH]; simpl; intros d0; [ done | by rewrite IH ]. }
  intros H. destruct t; simpl in H; inv_ok;
    try (unfold property_record_remove, asset_record_remove, slate_record_remove, balance_record_remove,
      transaction_record_remove, burn_record_remove, ad_record_remove, note_record_remove,
      packet_record_remove, operation_reward_record_remove, feed_record_remove, game_record_remove, slot_record_remove;
    by repeat case_match).
  unfold account_record_remove in H. destruct (account_record_lookup d k); inv_ok; [ | done ].
  repeat case_match; simpl; rewrite ?He; simpl; rewrite ?He; set_solver.
Qed.

(** The ranking of the accounts by reputation stays empty: no operation
    on a reachable database enters an account, so [get_accounts_by_rp] returns
    nothing whatever the reputations are. *)
Theorem reputation_ranking_empty d first count (Hd : reachable d) : get_accounts_by_rp d first count = [].
Proof.
  destruct Hd as [clock H].
  assert (E : db_account_rps d ⊆ ∅).
  { assert (H0 : db_account_rps (database_empty clock) ⊆ ∅) by done. revert H0.
    induction H as [d|d1 d2 d3 Hs _ IH]; intros Hr; [ done | ]. apply IH. etrans; [ | exact Hr ].
    destruct Hs as [t k v d d' Hk H|t k d d' H| | | | | |]; try done.
    - by apply (rps_stable d t k v d d').
    - by apply (remove_rps t k). }
  unfold get_accounts_by_rp, ranked_page, in_rank_order.
  assert (db_account_rps d = ∅) as -> by set_solver. rewrite elements_empty. by destruct first, count.
Qed.
End rankings.

(** ** The feed price *)

Lemma price_lt_spec a b :
  price_lt a b = true <-> quote_asset_id a < quote_asset_id b
    \/ quote_asset_id a = quote_asset_id b /\ (base_asset_id a < base_asset_id b
        \/ base_asset_id a = base_asset_id b /\ ratio a < ratio b).
Proof.
  unfold price_lt. destruct (Z.ltb_spec (quote_asset_id a) (quote_asset_id b)); [ split; [ lia | done ] | ].
  destruct (Z.ltb_spec (quote_asset_id b) (quote_asset_id a)); [ split; [ done | lia ] | ].
  destruct (Z.ltb_spec (base_asset_id a) (base_asset_id b)); [ split; [ lia | done ] | ].
  destruct (Z.ltb_spec (base_asset_id b) (base_asset_id a)); [ split; [ done | lia ] | ].
  rewrite Z.ltb_lt. lia.
Qed.

#[export] Instance price_le_total : Total price_le_rel.
Proof.
  intros a b. unfold price_le_rel. destruct (price_lt b a) eqn:E1, (price_lt a b) eqn:E2; auto.
  apply price_lt_spec in E1, E2. lia.
Qed.

#[export] Instance price_le_trans : Transitive price_le_rel.
Proof.
  unfold price_le_rel. intros a b c H1 H2. destruct (price_lt c a) eqn:E; [ | done ].
  apply not_true_iff_false in H1, H2. rewrite price_lt_spec in H1, H2, E. lia.
Qed.

(** How many prices have a ratio in an interval. *)
Definition count_between (lo hi : Z) (l : list price) : nat :=
  length (filter (fun p => lo <= ratio p <= hi) l).

Lemma count_between_app lo hi l l' : count_between lo hi (l ++ l') = (count_between lo hi l + count_between lo hi l')%nat.
Proof. unfold count_between. by rewrite filter_app, length_app. Qed.

Lemma count_between_le lo hi l : (count_between lo hi l <= length l)%nat.
Proof. apply length_filter. Qed.

Lemma count_between_0 lo hi l : Forall (fun p => ~ (lo <= ratio p <= hi)) l -> count_between lo hi l = 0%nat.
Proof.
  induction 1 as [|x l Hx _ IH]; [ done | ]. unfold count_between in *. rewrite filter_cons. by rewrite decide_False.
Qed.

Lemma fresh_prices_pair feeds delegates quote_id now p :
  p ∈ fresh_prices feeds delegates quote_id now -> quote_asset_id p = quote_id /\ base_asset_id p = 0.
Proof.
  unfold fresh_prices. rewrite list_elem_of_omap. intros (d & _ & H). destruct (feeds !! (quote_id, d)); [ | done ].
  destruct (_ || _) eqn:E; [ done | ]. injection H as <-. b2p. done.
Qed.

Lemma ratio_le_of_price_le a b :
  price_le_rel a b -> quote_asset_id a = quote_asset_id b -> base_asset_id a = base_asset_id b -> ratio a <= ratio b.
Proof. unfold price_le_rel. rewrite <- not_true_iff_false, price_lt_spec. lia. Qed.

(** the price of a market-issued asset is the median of the feeds: with
    fewer than 51 feeds of active delegates younger than a day there is none,
    otherwise it is the price of one of them, and it lies in every interval that
    holds more than half of them, so a minority of delegates cannot move it out
    of the range of the others. *)
Theorem feed_price_median feeds delegates quote_id now :
  let prices := fresh_prices feeds delegates quote_id now in
  (feed_price feeds delegates quote_id now = None <-> (length prices < MIN_FEEDS)%nat)
  /\ forall p, feed_price feeds delegates quote_id now = Some p ->
       p ∈ prices /\ forall lo hi, (length prices < 2 * count_between lo hi prices)%nat -> lo <= ratio p <= hi.
Proof.
  intros prices. unfold feed_price. fold prices. unfold median_price.
  set (l := merge_sort price_le_rel prices).
  assert (Hperm : l ≡ₚ prices) by apply merge_sort_Permutation.
  assert (Hlen : length l = length prices) by by rewrite Hperm.
  assert (Hsort : StronglySorted price_le_rel l)
    by (apply Sorted_StronglySorted; [ apply _ | apply Sorted_merge_sort; apply _ ]).
  assert (Hsome : (MIN_FEEDS <= length prices)%nat -> is_Some (l !! Nat.div2 (length prices))).
  { intros Hm. apply lookup_lt_is_Some. rewrite Hlen. apply Nat.lt_div2. unfold MIN_FEEDS in Hm. lia. }
  split.
  - destruct (Nat.leb_spec MIN_FEEDS (length prices)) as [Hm|Hm]; [ | done ].
    destruct (Hsome Hm) as [p ->]. split; [ done | lia ].
  - intros p. destruct (Nat.leb_spec MIN_FEEDS (length prices)) as [Hm|Hm]; [ | done ]. intros Hp.
    set (m := Nat.div2 (length prices)) in *.
    assert (Hpl : p ∈ l) by by eapply list_elem_of_lookup_2.
    assert (Hin : forall q, q ∈ l -> quote_asset_id q = quote_asset_id p /\ base_asset_id q = base_asset_id p).
    { intros q Hq. rewrite Hperm in Hq, Hpl. apply fresh_prices_pair in Hq, Hpl. intuition congruence. }
    split; [ by rewrite <- Hperm | ]. intros lo hi.
    assert (Hc : count_between lo hi prices = count_between lo hi l).
    { unfold count_between. by rewrite Hperm. }
    rewrite Hc, <- (take_drop_middle l m p Hp), count_between_app. clear Hc.
    rewrite <- (take_drop_middle l m p Hp) in Hsort. apply StronglySorted_app in Hsort as (Hlow & _ & Hhigh).
    pose proof (count_between_le lo hi (take m l)) as H1. rewrite length_take in H1.
    pose proof (count_between_le lo hi (drop (S m) l)) as H2. rewrite length_drop in H2.
    assert (Hm2 : (2 * m <= length prices < 2 * m + 2)%nat).
    { unfold m. pose proof (Nat.div2_odd (length prices)). destruct (Nat.odd _); simpl in *; lia. }
    change (p :: drop (S m) l) with ([p] ++ drop (S m) l). rewrite count_between_app.
    pose proof (count_between_le lo hi [p]) as H3. simpl in H3.
    intros Hmaj. split.
    * destruct (Z.le_gt_cases lo (ratio p)) as [|Hlt]; [ done | exfalso ].
      rewrite (count_between_0 lo hi (take m l)) in Hmaj; [ rewrite (count_between_0 lo hi [p]) in Hmaj | ].
      + lia.
      + repeat constructor. lia.
      + apply Forall_forall. intros q Hq. pose proof (Hlow q p Hq ltac:(left)) as Hle.
        destruct (Hin q) as [E1 E2]; [ rewrite <- (take_drop m l); apply elem_of_app; by left | ]. apply ratio_le_of_price_le in Hle; [ lia | done.. ].
    * destruct (Z.le_gt_cases (ratio p) hi) as [|Hlt]; [ done | exfalso ].
      rewrite (count_between_0 lo hi (drop (S m) l)) in Hmaj; [ rewrite (count_between_0 lo hi [p]) in Hmaj | ].
      + lia.
      + repeat constructor. lia.
      + inversion Hhigh as [|? ? _ Hall]; subst. apply Forall_forall. intros q Hq. rewrite Forall_forall in Hall.
        pose proof (Hall q Hq) as Hle. destruct (Hin q) as [E1 E2]; [ rewrite <- (take_drop (S m) l); apply elem_of_app; by right | ].
        apply ratio_le_of_price_le in Hle; [ lia | done.. ].
Qed.

(** ** A concrete ranking *)

#[local] Existing Instance demo_crypto.
#[local] Existing Instance demo_tx.
#[local] Existing Instance demo_statics.

(** Two delegates with the same votes, and a third with more. *)
Definition demo_delegate (id key votes : Z) : account_record :=
  mk_account id (String.String (Ascii.ascii_of_nat (97 + Z.to_nat id)) "") "" key {[ 100 := key + 1 ]} 100 100 7
    (Some (mk_delegate_stats votes 3 {[ 0 := key + 2 ]} 0 None 0 0 0 0 0)) None.

Definition demo_ranked1 : chain_database :=
  ok_or demo_db (store account_t 5 (demo_delegate 5 500 40) (database_empty 1000)).
Definition demo_ranked2 : chain_database := ok_or demo_db (store account_t 3 (demo_delegate 3 300 40) demo_ranked1).
Definition demo_ranked : chain_database := ok_or demo_db (store account_t 7 (demo_delegate 7 700 90) demo_ranked2).

Lemma demo_reachable : reachable demo_ranked.
Proof.
  exists 1000.
  eapply rtc_l; [ apply (step_store account_t 5 (demo_delegate 5 500 40) _ demo_ranked1); [ reflexivity | ] | ];
    [ apply ok_or_is_ok; vm_compute; reflexivity | ].
  eapply rtc_l; [ apply (step_store account_t 3 (demo_delegate 3 300 40) _ demo_ranked2); [ reflexivity | ] | ];
    [ apply ok_or_is_ok; vm_compute; reflexivity | ].
  eapply rtc_l; [ apply (step_store account_t 7 (demo_delegate 7 700 90) _ demo_ranked); [ reflexivity | ] | ];
    [ apply ok_or_is_ok; vm_compute; reflexivity | apply rtc_refl ].
Qed.

Lemma delegates_ranked_by_vote_witness :
  next_round_active_delegates demo_ranked = [7; 3; 5]
  /\ NoDup (in_rank_order (db_delegate_votes demo_ranked)).*2.
Proof.
  split; [ vm_compute; reflexivity | ].
  exact (proj1 (proj2 (delegates_ranked_by_vote demo_ranked demo_reachable))).
Defined.

Lemma reputation_ranking_empty_witness :
  get_accounts_by_rp demo_ranked 0 10 = [] /\ (ac_rp <$> get_account_record demo_ranked 7) = Some 7.
Proof. split; [ apply (reputation_ranking_empty demo_ranked 0 10 demo_reachable) | vm_compute; reflexivity ]. Defined.
