(* ===== verification/Genesis.v ===== *)
(** The state before the first block, from the genesis file: the initial
    delegates, the balances of other chains, the base asset and the
    properties ([initialize_genesis] of chain_database.cpp).

    Reading the file, its hash and the snapshot information kept for reports
    are left out; so are the encodings of addresses, whose reading is a
    parameter. *)

From stdpp Require Import sorting.
From S2P Require Import Prelude StateMonad Asset Names Records ChainInterface BalanceOps Tables PendingState ChainDatabase AssetOps BlockOps Node.

(** ** The genesis file *)

Record genesis_delegate := { gd_name : string; gd_owner : public_key }.
Record genesis_balance := { gb_raw_address : string; gb_balance : Z }.
Record genesis_vesting_balances := {
  gv_start_time : time; gv_duration_days : Z; gv_vesting_balances : list genesis_balance }.
Record genesis_state := {
  gs_timestamp : time;
  gs_delegates : list genesis_delegate;
  gs_initial_balances : list genesis_balance;
  gs_sharedrop_balances : genesis_vesting_balances }.

(** Addresses in base 58: the address of a PTS address, and an address of this
    chain, each with an exception for a string that is none; and the seconds
    of a number of days. *)
Class GenesisCodec := {
  from_pts_address : string -> result address;
  from_address : string -> result address;
  days_to_seconds : Z -> Z }.

Definition bts_prefixes : list string := [ "BTS"; "KEY"; "DVS"; "XTS" ].
Definition BTS_ADDRESS_PREFIX : string := "PDV".

(** The rest of a string after a prefix. *)
Fixpoint strip_prefix (p s : string) : option string :=
  match p, s with
  | EmptyString, _ => Some s
  | String a p, String b s => if Ascii.eqb a b then strip_prefix p s else None
  | String _ _, EmptyString => None
  end.

(** The loop over the prefixes. *)
Fixpoint convert_prefixed `{GenesisCodec} (prefixes : list string) (raw_address : string) : result address :=
  match prefixes with
  | [] => Throw invalid_pts_address
  | prefix :: prefixes =>
      match strip_prefix prefix raw_address with
      | Some rest => from_address (BTS_ADDRESS_PREFIX +:+ rest)
      | None => convert_prefixed prefixes raw_address
      end
  end.
Definition convert_raw_address `{GenesisCodec} (raw_address : string) : result address :=
  match from_pts_address raw_address with
  | Ok a => Ok a
  | Throw undefined_behaviour => Throw undefined_behaviour
  | Throw _ => convert_prefixed bts_prefixes raw_address
  end.

Section genesis.
Context `{Cr : Crypto} `{Tx : TxCrypto} `{St : Statics} `{Gc : GenesisCodec}.
Implicit Types (db : chain_database).

(** ** Delegates *)

Definition genesis_account (timestamp : time) (id : account_id) (d : genesis_delegate) : result account_record :=
  let r := mk_account id (gd_name d) "" (gd_owner d) ∅ timestamp timestamp 0 None None in
  r <- set_active_key timestamp (gd_owner d) r ;;
  r <- set_signing_key 0 (gd_owner d) (set_ac_delegate_info (Some (set_ds_pay_rate 100 delegate_stats_default)) r) ;;
  Ok (mk_account (ac_id r) (ac_name r) (ac_public_data r) (ac_owner_key r) (ac_active_key_history r)
        (ac_registration_date r) (ac_last_update r) (ac_rp r) (ac_delegate_info r)
        (Some {| am_type := titan_account; am_data := [] |})).

(** The loop over the delegates: the last id and the database. *)
Definition initialize_delegate (timestamp : time) (d : genesis_delegate) (acc : account_id * chain_database)
    : result (account_id * chain_database) :=
  let '(account_id, db) := acc in
  let account_id := account_id + 1 in
  r <- genesis_account timestamp account_id d ;;
  db <- store_account_record r db ;;
  Ok (account_id, db).
Definition initialize_delegates (timestamp : time) (delegates : list genesis_delegate) db
    : result (account_id * chain_database) := foldM (initialize_delegate timestamp) delegates (0, db).

(** ** Balances

    Each loop carries the supply of the base asset so far. *)

Definition initial_balance (timestamp : time) (g : genesis_balance) (acc : Z * chain_database) : result (Z * chain_database) :=
  let '(supply, db) := acc in
  addr <- convert_raw_address (gb_raw_address g) ;;
  let r := balance_of_owner addr (mk_asset (gb_balance g) 0) 0 in
  let r := match get_balance_record db (balance_id r) with
           | Some cur => set_br_balance (br_balance r +! br_balance cur) r
           | None => r
           end in
  Ok (supply +! gb_balance g, store_balance_record (set_br_last_update timestamp r) db).

(** The condition of a vesting balance. *)
Definition vesting_condition (owner : address) (start_time duration original_balance : Z) : withdraw_condition :=
  {| wc_asset_id := 0; wc_slate_id := 0; wc_data := withdraw_vesting owner start_time duration original_balance |}.

(** The original balance of a record found under the condition of another. *)
Definition original_balance_of (r : balance_record) : option Z :=
  match wc_data (br_condition r) with withdraw_vesting _ _ _ original => Some original | _ => None end.

Definition vesting_record (condition : withdraw_condition) (original start_time : Z) : balance_record :=
  set_br_last_update start_time (set_br_balance original (balance_of_condition condition)).

Definition vesting_balance (v : genesis_vesting_balances) (g : genesis_balance) (acc : Z * chain_database)
    : result (Z * chain_database) :=
  let '(supply, db) := acc in
  owner <- convert_raw_address (gb_raw_address g) ;;
  let start_time := gv_start_time v in
  let duration := uwrap32 (days_to_seconds (gv_duration_days v)) in
  let condition := vesting_condition owner start_time duration (gb_balance g) in
  let cur := get_balance_record db (condition_address condition) in
  let db :=
    match cur, cur ≫= original_balance_of with
    | Some cur, Some original =>
        let original := gb_balance g +! original in
        let db := store_balance_record (vesting_record (vesting_condition owner start_time duration original) original start_time) db in
        record_erase balance_t (balance_id cur) db
    | _, _ => store_balance_record (vesting_record condition (gb_balance g) start_time) db
    end in
  Ok (supply +! gb_balance g, db).

(** ** The base asset and the properties *)

Definition genesis_asset (timestamp : time) (supply : Z) : asset_record :=
  mk_asset_record 0 "PDV" god_issuer_id (-1) {| ms_required := 1; ms_owners := ∅ |} 0 0 ∅
    "PLAY PDV Network" "PLAY PDV Network for long-term and hardfork testing" ""
    BLOCKCHAIN_PRECISION MAX_SHARES 0 0 0 supply 0 timestamp timestamp.

Definition genesis_properties (account_id : account_id) (statistics_enabled : bool) db : chain_database :=
  let db := store_property_record last_asset_id_property (property_int 0) db in
  let db := store_property_record last_account_id_property (property_int account_id) db in
  let db := set_active_delegates (next_round_active_delegates db) db in
  let db := store_property_record statistics_enabled_property (property_bool statistics_enabled) db in
  let db := store_property_record last_game_id_property (property_int 0) db in
  store_operation_reward_record {| rw_id := note_op_type; rw_fees := {[ 0 := 0 ]} |} db.

Definition genesis_database (config : genesis_state) (chain_id : Z) (statistics_enabled : bool) db : result chain_database :=
  let db := store_property_record chain_id_property (property_int chain_id) db in
  _ <- fc_assert (NUM_DELEGATES <=? Z.of_nat (length (gs_delegates config))) ;;
  accounts <- initialize_delegates (gs_timestamp config) (gs_delegates config) db ;;
  let '(account_id, db) := accounts in
  balances <- foldM (initial_balance (gs_timestamp config)) (gs_initial_balances config) (0, db) ;;
  balances <- foldM (vesting_balance (gs_sharedrop_balances config))
                (gv_vesting_balances (gs_sharedrop_balances config)) balances ;;
  let '(total_base_supply, db) := balances in
  Ok (genesis_properties account_id statistics_enabled (store_asset_record (genesis_asset (gs_timestamp config) total_base_supply) db)).

(** The record of the genesis in the tree of blocks. *)
Definition gen_fork : block_fork_data := mk_fork_data ∅ true (Some true) None true true.

Definition initialize_genesis (config : genesis_state) (chain_id : Z) (statistics_enabled : bool) (n : node) : result node :=
  db <- genesis_database config chain_id statistics_enabled (nd_db n) ;;
  Ok (set_nd_fork (<[0 := gen_fork]> (nd_fork n)) (set_nd_db db n)).
End genesis.
