(* ===== verification/GenesisProps.v ===== *)
(** The database of the genesis, loop by loop: it is well formed, its accounts
    have their keys, its supply is held by its balances and its first
    delegates are active. Two vesting balances with the same condition are
    merged; unless the merged balance replaces a third one the supply is
    held. *)

From stdpp Require Import sorting.
From S2P Require Import Prelude StateMonad Asset Names Records ChainInterface BalanceOps Transaction Tables PendingState ChainDatabase Concrete AssetOps BlockOps Node ForkDb Undo.
From S2P Require Import Supply Conservation Frames AccountKeys ForkTree NodeTree ChainSupply Rankings Genesis.

(** Distinct conditions have distinct addresses. *)
Class AddressInj `{Crypto} := condition_address_inj : Inj (=) (=) condition_address.

#[export] Instance address_inj_collision_free `{Cr : Crypto} (AI : AddressInj) : CollisionFree.
Proof. split. intros c c' H. by rewrite (condition_address_inj c c' H). Qed.

Section genesis.
Context `{Cr : Crypto} `{AI : !AddressInj} `{Tx : TxCrypto} `{St : Statics} `{Gc : GenesisCodec}.
Implicit Types (db : chain_database).

(** ** Before the last account id is set *)

(** A database of [n] accounts that holds [supply] of the base asset. *)
Record founding (n supply : Z) db : Prop := {
  fo_wf : wf db;
  fo_ok : state_ok db;
  fo_last : flat property_t db !! (last_account_id_property : key_of property_t) = None;
  fo_accounts : forall (id : key_of account_t) r, flat account_t db !! id = Some r -> 1 <= id <= n;
  fo_ranked : ranked db;
  fo_assets : flat asset_t db = ∅;
  fo_rewards : flat operation_reward_t db = ∅;
  fo_total : forall a, total a db ≡64 on_asset a 0 supply }.

Lemma wf_without_last db : (forall t k v, flat t db !! k = Some v -> key_ok t k v) ->
  (flat property_t db : gmap Z property_value) !! last_account_id_property = None -> wf db.
Proof.
  intros H1 H2. split; [ done | ]. intros n id r Hn. exfalso. revert Hn. rewrite last_account_id_flat.
  assert (E : forall o, o = None -> property_as_int o <> Ok n) by (by intros o ->). by apply E.
Qed.

Lemma empty_founding clock : founding 0 0 (database_empty clock).
Proof.
  assert (E : forall t k, flat t (database_empty clock) !! k = None).
  { intros t k. by destruct t. }
  split.
  - apply wf_without_last; [ | exact (E property_t last_account_id_property) ]. intros t k v. by rewrite E.
  - apply state_ok_accounts. intros k v. by rewrite E.
  - exact (E property_t last_account_id_property).
  - intros id r. by rewrite (E account_t id).
  - apply reachable_ranked. by exists clock.
  - done.
  - done.
  - intros a. apply eqm_of_eq. assert (F : forall t, flat t (database_empty clock) = ∅) by (by destruct t).
    unfold total, table_sum. rewrite !F. unfold on_asset. by destruct (0 =? a).
Qed.

(** A store outside of the accounts, not of the last account id. *)
Lemma founding_store t k v db db' n supply supply' :
  store t k v db = Ok db' -> t ∉ [account_t; asset_t; operation_reward_t] -> tracked t = true -> store_guard db t k -> key_ok t k v ->
  (forall a, on_asset a 0 supply - held_at t a k db + held t a v ≡64 on_asset a 0 supply') ->
  founding n supply db -> founding n supply' db'.
Proof.
  intros H Hts Ht Hg Hk Hs [W O L A R Fa Fr T].
  assert (Hne : t <> account_t /\ t <> asset_t /\ t <> operation_reward_t) by (split_and!; intros ->; apply Hts; repeat constructor).
  destruct Hne as (Hne & Ha & Hr).
  assert (Ea : flat account_t db' = flat account_t db) by (by apply (flat_other t k v)).
  split.
  - by eapply wf_store.
  - by eapply state_ok_store_other.
  - destruct (decide (t = property_t)) as [->|Hp]; [ | by rewrite (flat_other t k v db db' property_t H) by congruence ].
    destruct (store_flat property_t k v db db' H eq_refl) as [E _]. rewrite E, lookup_insert_ne by (simpl in Hg; congruence). exact L.
  - intros id r. rewrite Ea. apply A.
  - by apply (ranked_step db db' (step_store t k v db db' Hk H)).
  - by rewrite (flat_other t k v db db' asset_t H) by congruence.
  - by rewrite (flat_other t k v db db' operation_reward_t H) by congruence.
  - intros a. rewrite (total_store t k v a db db' H Ht), <- Hs. fold (held_at t a k db). by rewrite T.
Qed.

Lemma founding_property k v db n supply : k <> last_account_id_property ->
  founding n supply db -> founding n supply (store_property_record k v db).
Proof.
  intros Hk. apply (founding_store property_t k v db); try done; [ set_solver | ]. intros a. apply eqm_of_eq.
  unfold held_at, contrib. destruct (flat property_t db !! _); simpl; lia.
Qed.

(** ** The delegates *)

Lemma genesis_account_spec timestamp id d r : genesis_account timestamp id d = Ok r ->
  ac_id r = id /\ has_keys r /\ pay_balance_of r = 0 /\ (gd_owner d <> null_key -> entry_of r = Some (0, id)).
Proof.
  unfold genesis_account, set_active_key, set_signing_key. intros H. inv_ok. cbn [set_ac_delegate_info ac_delegate_info rbind] in *. inv_ok.
  split_and!; [ done | split; [ done | by intros d' [= <-] ] | done | ].
  intros Hk. unfold entry_of, is_retracted, active_key, max_entry.
  cbn [ac_active_key_history set_ac_active_key_history set_ac_delegate_info]. rewrite insert_empty, map_fold_singleton. cbn.
  by rewrite (proj2 (Z.eqb_neq _ _) Hk).
Qed.

Lemma founding_account n supply r db db' : store_account_record r db = Ok db' -> ac_id r = n + 1 -> 0 <= n ->
  has_keys r -> pay_balance_of r = 0 -> founding n supply db -> founding (n + 1) supply db'.
Proof.
  intros H Hid Hn Hk Hp [W O L A R Fa Fr T].
  destruct (store_flat account_t (ac_id r) r db db' H eq_refl) as [E Eo].
  assert (Lp : flat property_t db' = flat property_t db) by (by apply Eo).
  split.
  - apply wf_without_last; [ | by rewrite Lp ]. intros t k v. destruct (decide (t = account_t)) as [->|Hne].
    + rewrite E, lookup_insert. case_decide; [ intros [= <-]; done | apply (wf_keys db W account_t) ].
    + rewrite Eo by done. apply (wf_keys db W).
  - by eapply state_ok_store_account.
  - by rewrite Lp.
  - intros id r'. rewrite E, lookup_insert. case_decide; [ lia | ]. intros Hr. apply A in Hr. lia.
  - by apply (ranked_account_store r db db').
  - by rewrite Eo.
  - by rewrite Eo.
  - intros a. rewrite (total_store account_t (ac_id r) r a db db' H eq_refl).
    assert (F : flat account_t db !! (ac_id r : key_of account_t) = None).
    { destruct (flat account_t db !! (ac_id r : key_of account_t)) as [r'|] eqn:Er; [ | done ]. apply A in Er. lia. }
    rewrite F. unfold held. rewrite Hp. cbn [contrib]. rewrite T. apply eqm_of_eq. unfold on_asset. destruct (0 =? a); lia.
Qed.

(** Every account up to [n] is a delegate without votes. *)
Definition all_delegates (n : Z) db : Prop :=
  forall id : key_of account_t, 1 <= id <= n -> exists r, flat account_t db !! id = Some r /\ entry_of r = Some (0, id).

Lemma delegates_founding timestamp ds n db n' db' :
  foldM (initialize_delegate timestamp) ds (n, db) = Ok (n', db') -> 0 <= n -> founding n 0 db ->
  n' = n + Z.of_nat (length ds) /\ founding n' 0 db' /\ flat balance_t db' = flat balance_t db
  /\ (Forall (fun d => gd_owner d <> null_key) ds -> all_delegates n db -> all_delegates n' db').
Proof.
  revert n db. induction ds as [|d ds IH]; intros n db H Hn F; cbn [foldM] in H; inv_ok.
  { simplify_eq. split_and!; [ simpl; lia | done.. ]. }
  match goal with H : initialize_delegate _ _ _ = Ok _ |- _ => unfold initialize_delegate in H end. inv_ok.
  match goal with H : genesis_account _ _ _ = Ok ?x |- _ => rename x into r; apply genesis_account_spec in H as (Hid & Hk & Hp & He) end.
  match goal with H : store_account_record _ _ = Ok ?x |- _ => rename x into db1; rename H into Hs end.
  destruct (store_flat account_t (ac_id r) r db db1 Hs eq_refl) as [E Eo].
  destruct (IH (n + 1) db1 H ltac:(lia)) as (-> & F' & Eb & D'); [ by eapply founding_account | ].
  split_and!; [ simpl length; lia | done | by rewrite Eb, Eo | ].
  intros Hds D. inversion Hds as [|? ? Hd Hds']; subst. apply D'; [ done | ]. intros id Hi. rewrite E, lookup_insert. case_decide.
  - subst id. exists r. split; [ done | ]. rewrite Hid. by apply He.
  - apply D. lia.
Qed.

(** ** The balances *)

(** The balances of the first loop are guarded by a signature. *)
Definition only_signatures db : Prop :=
  forall k r, flat balance_t db !! k = Some r -> exists owner data, wc_data (br_condition r) = withdraw_with_signature owner data.

Lemma founding_balance r db n supply supply' :
  (forall a, on_asset a 0 supply - held_at balance_t a (balance_id r) db + on_asset a (balance_asset_id r) (br_balance r)
     ≡64 on_asset a 0 supply') ->
  founding n supply db -> founding n supply' (store_balance_record r db).
Proof. intros H. apply (founding_store balance_t (balance_id r) r db); try done. set_solver. Qed.

(** What is held under the address of a condition. *)
Lemma held_under c db a : wf db ->
  held_at balance_t a (condition_address c) db
  = match get_balance_record db (condition_address c) with Some r => on_asset a (wc_asset_id c) (br_balance r) | None => 0 end.
Proof.
  intros W. destruct (get_balance_record db (condition_address c)) as [r|] eqn:E.
  - destruct (read_balance _ _ _ W E) as [Hid Hh]. rewrite <- Hid, Hh. apply condition_address_inj in Hid.
    unfold balance_asset_id. by rewrite Hid.
  - unfold get_balance_record, balance_record_lookup in E. rewrite flat_lookup in E. exact (held_at_none balance_t a _ _ E).
Qed.

Lemma initial_balance_founding timestamp g supply db supply' db' n :
  initial_balance timestamp g (supply, db) = Ok (supply', db') -> founding n supply db ->
  founding n supply' db' /\ (only_signatures db -> only_signatures db') /\ flat account_t db' = flat account_t db.
Proof.
  unfold initial_balance. intros H F. inv_ok. apply pair_equal_spec in H as [<- <-].
  match goal with H : convert_raw_address _ = Ok ?x |- _ => rename x into owner end.
  set (c := signature_condition owner 0 0). set (r := balance_of_owner _ _ _).
  match goal with |- context [set_br_last_update timestamp ?x] => set (r' := set_br_last_update timestamp x) end.
  assert (Hc : br_condition r' = c) by (unfold r'; by destruct (get_balance_record db (balance_id r))).
  assert (Hi : balance_id r' = condition_address c) by (unfold balance_id; by rewrite Hc).
  split_and!.
  - apply (founding_balance r' db n supply); [ | done ]. intros a. rewrite Hi, held_under by apply F.
    unfold balance_asset_id. rewrite Hc. unfold r'. change (balance_id r) with (condition_address c).
    destruct (get_balance_record db (condition_address c)); simpl; rewrite ?on_asset_add; unfold c; simpl; eqm_solve.
  - intros Ho k x. destruct (store_flat balance_t (balance_id r') r' db (store_balance_record r' db) eq_refl eq_refl) as [E _]. rewrite E, lookup_insert.
    case_decide; [ | apply Ho ]. intros [= <-]. rewrite Hc. by exists owner, None.
  - by apply (flat_other balance_t (balance_id r') r' db).
Qed.

Lemma initial_balances_founding timestamp l supply db supply' db' n :
  foldM (initial_balance timestamp) l (supply, db) = Ok (supply', db') -> founding n supply db -> only_signatures db ->
  founding n supply' db' /\ only_signatures db' /\ flat account_t db' = flat account_t db.
Proof.
  revert supply db. induction l as [|g l IH]; intros supply db H F O; cbn [foldM] in H; inv_ok.
  { by apply pair_equal_spec in H as [<- <-]. }
  match goal with H : initial_balance _ _ _ = Ok ?x |- _ => destruct x as [s1 db1]; rename H into Hg end.
  destruct (initial_balance_founding _ _ _ _ _ _ _ Hg F) as (F1 & O1 & E1).
  destruct (IH _ _ H F1 (O1 O)) as (F2 & O2 & E2). split_and!; [ done | done | congruence ].
Qed.

(** Erasing a balance. *)
Lemma founding_erase k db n supply supply' :
  (forall a, on_asset a 0 supply - held_at balance_t a k db ≡64 on_asset a 0 supply') ->
  founding n supply db -> founding n supply' (record_erase balance_t k db).
Proof.
  intros Hs [W O L A [R1 R2] Fa Fr T].
  assert (E : forall t, t <> balance_t -> flat t (record_erase balance_t k db) = flat t db) by (intros t Ht; by apply flat_erase_ne).
  split.
  - destruct W as [W1 W2]. split.
    + intros t k' v. destruct (decide (t = balance_t)) as [->|Hne]; [ | rewrite E by done; apply W1 ].
      rewrite flat_erase, lookup_delete. case_decide; [ done | apply (W1 balance_t) ].
    + intros m id r. rewrite !last_account_id_flat, !E by done. rewrite <- last_account_id_flat. apply W2.
  - apply state_ok_accounts. intros k' r. rewrite E by done. apply (O account_t).
  - by rewrite E.
  - intros id r. rewrite E by done. apply A.
  - split; [ intros k' r; rewrite E by done; apply R1 | ]. intros e. rewrite E by done. apply R2.
  - by rewrite E.
  - by rewrite E.
  - intros a. rewrite <- Hs, <- T. apply eqm_of_eq. unfold total, held_at.
    rewrite (table_sum_update (fun t => map_sum (fun _ v => held t a v) (flat t db)) _ balance_t)
      by (intros t Ht; by rewrite E).
    rewrite flat_erase. rewrite (map_sum_delete (fun _ v => held balance_t a v) (flat balance_t db) k). lia.
Qed.

(** ** The vesting balances *)

(** Whether no merge of vesting balances replaces another balance; [present]
    are the owners and original balances of the records so far. *)
Fixpoint merges_fresh (present : gset (address * Z)) (l : list genesis_balance) : bool :=
  match l with
  | [] => true
  | g :: l =>
      match convert_raw_address (gb_raw_address g) with
      | Throw _ => true
      | Ok owner =>
          let id := (owner, gb_balance g) in
          if bool_decide (id ∈ present) then
            let merged := (owner, gb_balance g +! gb_balance g) in
            negb (bool_decide (merged ∈ present ∖ {[ id ]})) && merges_fresh (({[ merged ]} ∪ present) ∖ {[ id ]}) l
          else merges_fresh ({[ id ]} ∪ present) l
      end
  end.

Context (v : genesis_vesting_balances).

Definition vesting_of (owner original : Z) : withdraw_condition :=
  vesting_condition owner (gv_start_time v) (uwrap32 (days_to_seconds (gv_duration_days v))) original.

(** The vesting balances of a database. *)
Record vested (present : gset (address * Z)) db : Prop := {
  ve_present : forall o a, is_Some (get_balance_record db (condition_address (vesting_of o a))) <-> (o, a) ∈ present;
  ve_balance : forall o a r, get_balance_record db (condition_address (vesting_of o a)) = Some r -> br_balance r = a }.

Lemma vesting_address_inj o a o' a' : condition_address (vesting_of o a) = condition_address (vesting_of o' a') -> o = o' /\ a = a'.
Proof. intros H%condition_address_inj. by injection H. Qed.

Lemma balance_lookup_store r k db :
  get_balance_record (store_balance_record r db) k = if decide (balance_id r = k) then Some r else get_balance_record db k.
Proof.
  unfold get_balance_record, balance_record_lookup. rewrite !flat_lookup.
  destruct (store_flat balance_t (balance_id r) r db (store_balance_record r db) eq_refl eq_refl) as [E _].
  rewrite E, lookup_insert. done.
Qed.

Lemma balance_lookup_erase k' k db :
  get_balance_record (record_erase balance_t k' db) k = if decide (k' = k) then None else get_balance_record db k.
Proof. unfold get_balance_record, balance_record_lookup. rewrite !flat_lookup, flat_erase, lookup_delete. done. Qed.

(** A record under a new condition. *)
Lemma vested_store present db o a : vested present db ->
  vested ({[ (o, a) ]} ∪ present) (store_balance_record (vesting_record (vesting_of o a) a (gv_start_time v)) db).
Proof.
  intros [P B]. assert (Hi : balance_id (vesting_record (vesting_of o a) a (gv_start_time v)) = condition_address (vesting_of o a)) by done.
  split; intros o' a'; rewrite balance_lookup_store, Hi; case_decide as Hd.
  - apply vesting_address_inj in Hd as [-> ->]. split; [ set_solver | eauto ].
  - rewrite P. split; [ set_solver | ]. intros [[= -> ->]%elem_of_singleton | ?]%elem_of_union; [ done | done ].
  - apply vesting_address_inj in Hd as [-> ->]. by intros r [= <-].
  - apply B.
Qed.

Lemma vested_erase present db o a : vested present db ->
  vested (present ∖ {[ (o, a) ]}) (record_erase balance_t (condition_address (vesting_of o a)) db).
Proof.
  intros [P B]. split; intros o' a'; rewrite balance_lookup_erase; case_decide as Hd.
  - apply vesting_address_inj in Hd as [-> ->]. split; [ by intros [? ?] | set_solver ].
  - rewrite P. split; [ | set_solver ]. intros Hin. apply elem_of_difference. split; [ done | ]. intros [= -> ->]%elem_of_singleton. done.
  - done.
  - apply B.
Qed.

(** Storing the record of a condition that has none. *)
Lemma founding_vesting o a db n supply supply' :
  (forall i, on_asset i 0 supply - held_at balance_t i (condition_address (vesting_of o a)) db + on_asset i 0 a ≡64 on_asset i 0 supply') ->
  founding n supply db -> founding n supply' (store_balance_record (vesting_record (vesting_of o a) a (gv_start_time v)) db).
Proof. intros H. by apply founding_balance. Qed.

Lemma vesting_held o a db i present : wf db -> vested present db ->
  held_at balance_t i (condition_address (vesting_of o a)) db = if bool_decide ((o, a) ∈ present) then on_asset i 0 a else 0.
Proof.
  intros W [P B]. rewrite (held_under (vesting_of o a) db i W). pose proof (P o a) as Po. pose proof (B o a) as Bo.
  destruct (get_balance_record db _) as [r|]; case_bool_decide as Hp.
  - by rewrite (Bo r).
  - destruct Hp. by apply Po.
  - apply Po in Hp. by destruct Hp.
  - done.
Qed.

Lemma vesting_merged o a db cur : wf db -> get_balance_record db (condition_address (vesting_of o a)) = Some cur ->
  original_balance_of cur = Some a /\ balance_id cur = condition_address (vesting_of o a).
Proof.
  intros W H. destruct (read_balance _ _ _ W H) as [Hid _]. split; [ | done ]. apply condition_address_inj in Hid.
  unfold original_balance_of. by rewrite Hid.
Qed.

Lemma eqm_double x : x ≡64 x + x -> x ≡64 0.
Proof. intros H%eqm_sub_0. replace x with (0 - (x - (x + x))) by lia. by rewrite H. Qed.

Lemma vesting_balance_founding g l supply db supply' db' n present :
  vesting_balance v g (supply, db) = Ok (supply', db') -> founding n supply db -> vested present db ->
  merges_fresh present (g :: l) = true ->
  founding n supply' db' /\ flat account_t db' = flat account_t db
  /\ exists present', vested present' db' /\ merges_fresh present' l = true.
Proof.
  unfold vesting_balance. cbn [merges_fresh]. intros H F V M. inv_ok.
  match goal with H : convert_raw_address _ = Ok ?x |- _ => rename x into o; rewrite H in M end.
  set (a := gb_balance g) in *. fold (vesting_of o a) in H. pose proof (fo_wf _ _ _ F) as W.
  pose proof (fun i => vesting_held o a db i present W V) as Hh. pose proof (ve_present _ _ V o a) as P.
  destruct (get_balance_record db (condition_address (vesting_of o a))) as [cur|] eqn:Ec.
  - destruct (vesting_merged o a db cur W Ec) as [Ho Hid]. simpl in H. rewrite Ho, Hid in H.
    apply pair_equal_spec in H as [<- <-]. fold (vesting_of o (a +! a)).
    assert (Hp : (o, a) ∈ present) by (by apply P). rewrite bool_decide_eq_true_2 in M by done. b2p.
    match goal with H : ~ _ ∈ _ |- _ => rename H into Hn end.
    match goal with H : merges_fresh _ l = true |- _ => rename H into Hl end.
    set (db1 := store_balance_record (vesting_record (vesting_of o (a +! a)) (a +! a) (gv_start_time v)) db).
    assert (V1 : vested ({[ (o, a +! a) ]} ∪ present) db1) by (by apply vested_store).
    split_and!; [ | | eexists; split; [ by apply vested_erase | exact Hl ] ].
    + pose proof (fun i => vesting_held o (a +! a) db i present W V) as Hb.
      assert (H1 : forall s, founding n s db1 -> forall i, held_at balance_t i (condition_address (vesting_of o a)) db1 = on_asset i 0 a).
      { intros s F1 i. rewrite (vesting_held o a db1 i _ (fo_wf _ _ _ F1) V1).
        by rewrite (bool_decide_eq_true_2 ((o, a) ∈ {[(o, a +! a)]} ∪ present)) by (apply elem_of_union; by right). }
      pose proof (fun i => on_asset_add i 0 a a) as Ea. destruct (Z.eq_dec (a +! a) a) as [Ez|Ez].
      * assert (F1 : founding n supply db1).
        { apply (founding_vesting o (a +! a) db n supply); [ | done ]. intros i. rewrite Hb, Ez.
          rewrite (bool_decide_eq_true_2 ((o, a) ∈ present)) by done. eqm_solve. }
        eapply founding_erase; [ | exact F1 ]. intros i. rewrite (H1 _ F1), on_asset_add.
        specialize (Ea i). rewrite Ez in Ea. by rewrite (eqm_double _ Ea).
      * assert (F1 : founding n (supply +! (a +! a)) db1).
        { apply (founding_vesting o (a +! a) db n supply); [ | done ]. intros i. rewrite Hb.
          rewrite (bool_decide_eq_false_2 ((o, a +! a) ∈ present)) by set_solver. rewrite !on_asset_add. eqm_solve. }
        eapply founding_erase; [ | exact F1 ]. intros i. rewrite (H1 _ F1).
        rewrite !on_asset_add. eqm_solve.
    + etrans; [ by apply flat_erase_ne | ]. apply (flat_other balance_t _ _ _ _ account_t eq_refl). done.
  - apply pair_equal_spec in H as [<- <-].
    assert (Hp : (o, a) ∉ present) by (intros Hp; apply P in Hp; by destruct Hp). 
    rewrite (bool_decide_eq_false_2 ((o, a) ∈ present)) in M by done.
    split_and!; [ | by apply (flat_other balance_t _ _ _ _ account_t eq_refl) | eexists; split; [ by apply vested_store | exact M ] ].
    apply (founding_vesting o a db n supply); [ | done ]. intros i. rewrite Hh, on_asset_add.
    rewrite (bool_decide_eq_false_2 ((o, a) ∈ present)) by done. eqm_solve.
Qed.

Lemma vesting_balances_founding l supply db supply' db' n present :
  foldM (vesting_balance v) l (supply, db) = Ok (supply', db') -> founding n supply db -> vested present db ->
  merges_fresh present l = true -> founding n supply' db' /\ flat account_t db' = flat account_t db.
Proof.
  revert supply db present. induction l as [|g l IH]; intros supply db present H F V M; cbn [foldM] in H; inv_ok.
  { by apply pair_equal_spec in H as [<- <-]. }
  match goal with H : vesting_balance _ _ _ = Ok ?x |- _ => destruct x as [s1 db1]; rename H into Hg end.
  destruct (vesting_balance_founding g l _ _ _ _ _ _ Hg F V M) as (F1 & E1 & present' & V1 & M1).
  destruct (IH _ _ _ H F1 V1 M1) as [F2 E2]. split; [ done | congruence ].
Qed.

(** No vesting balance yet. *)
Lemma vested_none n supply db : founding n supply db -> only_signatures db -> vested ∅ db.
Proof.
  intros F O.
  assert (N : forall o a, get_balance_record db (condition_address (vesting_of o a)) = None).
  { intros o a. destruct (get_balance_record db _) as [r|] eqn:E; [ | done ]. exfalso.
    destruct (read_balance _ _ _ (fo_wf _ _ _ F) E) as [Hid%condition_address_inj _].
    unfold get_balance_record, balance_record_lookup in E. rewrite flat_lookup in E. apply O in E as (? & ? & E). by rewrite Hid in E. }
  split; intros o a; rewrite N; [ | done ]. split; [ by intros [? ?] | by intros ?%not_elem_of_empty ].
Qed.
End genesis.

(** ** The properties *)

Section genesis_node.
Context `{Cr : Crypto} `{AI : !AddressInj} `{Tx : TxCrypto} `{St : Statics} `{Gc : GenesisCodec}.
Implicit Types (db : chain_database).

Lemma ids_sorted (k : nat) m : StronglySorted rank_before (map (pair 0) (seqZ m (Z.of_nat k))).
Proof.
  revert m. induction k as [|k IH]; intros m; [ constructor | ]. rewrite seqZ_cons by lia.
  replace (Z.pred (Z.of_nat (S k))) with (Z.of_nat k) by lia. simpl. constructor; [ apply IH | ].
  apply Forall_fmap, Forall_seqZ. intros x Hx. unfold rank_before. simpl. lia.
Qed.

(** The delegates without votes are ranked by their ids. *)
Lemma ranked_by_id n supply db : founding n supply db -> 0 <= n -> all_delegates n db ->
  (in_rank_order (db_delegate_votes db)).*2 = seqZ 1 n.
Proof.
  intros F Hn D. transitivity ((map (pair 0) (seqZ 1 n)).*2); [ f_equal | by rewrite <- list_fmap_compose, list_fmap_id ].
  apply (StronglySorted_unique rank_before); [ apply in_rank_order_sorted | | ].
  - rewrite <- (Z2Nat.id n) by done. apply ids_sorted.
  - apply NoDup_Permutation; [ apply in_rank_order_NoDup | apply NoDup_fmap_2; [ by intros ?? [= ->] | apply NoDup_seqZ ] | ].
    intros e. rewrite in_rank_order_elem, (ranked_votes _ (fo_ranked _ _ _ F)), list_elem_of_fmap. split.
    + intros (k & r & Hr & He). pose proof (fo_accounts _ _ _ F _ _ Hr) as Hk. destruct (D k Hk) as (r' & Hr' & He').
      pose proof (eq_trans (eq_sym Hr) Hr') as Er. injection Er as <-. rewrite He' in He. injection He as <-.
      exists k. split; [ done | ]. apply elem_of_seqZ. lia.
    + intros (k & -> & Hk%elem_of_seqZ). destruct (D k) as (r & Hr & He); [ lia | ]. eauto.
Qed.

Lemma genesis_asset_balanced timestamp n supply db : founding n supply db ->
  let db' := store_asset_record (genesis_asset timestamp supply) db in
  wf db' /\ state_ok db' /\ (forall a, total a db' ≡64 0) /\ (forall (id : key_of account_t) r, flat account_t db' !! id = Some r -> 1 <= id <= n)
  /\ flat operation_reward_t db' = ∅ /\ db_delegate_votes db' = db_delegate_votes db.
Proof.
  intros F db'. destruct (step_asset (genesis_asset timestamp supply) db ∅ (fo_wf _ _ _ F)) as [W A].
  assert (E : forall t, t <> asset_t -> flat t db' = flat t db) by (intros t Ht; by apply (flat_other asset_t 0 (genesis_asset timestamp supply) db)).
  split_and!; [ exact W | | | | | ].
  - by apply (state_ok_store_other asset_t 0 (genesis_asset timestamp supply) db db' eq_refl), F.
  - intros a. specialize (A a). rewrite !accounted_no_fees in A. fold db' in A. rewrite A. unfold held_at. rewrite (fo_assets _ _ _ F), (fo_total _ _ _ F).
    rewrite lookup_empty. apply eqm_of_eq. cbn. unfold on_asset. destruct (0 =? a); lia.
  - intros id r. rewrite E by done. apply F.
  - rewrite E by done. apply F.
  - by apply (store_other_votes asset_t 0 (genesis_asset timestamp supply) db db' eq_refl).
Qed.

Lemma last_account_sound n db :
  wf db -> state_ok db -> (forall (id : key_of account_t) r, flat account_t db !! id = Some r -> 1 <= id <= n) ->
  balanced db (store_property_record last_account_id_property (property_int n) db).
Proof.
  intros W O A. set (db' := store_property_record _ _ db).
  destruct (store_flat property_t last_account_id_property (property_int n) db db' eq_refl eq_refl) as [E Eo].
  split_and!.
  - split.
    + intros t k v Hv. destruct (decide (t = property_t)) as [->|Hne]; [ done | ]. rewrite Eo in Hv by done. by apply (wf_keys db W).
    + intros m id r. rewrite last_account_id_flat, E, lookup_insert_eq, Eo by done. cbn. intros [= <-] Hr. apply A in Hr. lia.
  - by apply (state_ok_store_other property_t last_account_id_property (property_int n) db db' eq_refl).
  - intros a. apply eqm_of_eq, (total_store_same property_t last_account_id_property (property_int n) a db db' eq_refl).
    unfold contrib. by destruct (flat property_t db !! _).
Qed.

Lemma property_balanced k v db : k <> last_account_id_property -> wf db -> state_ok db -> balanced db (store_property_record k v db).
Proof. intros Hk W O. by apply (store_plain_balanced property_t k v). Qed.

(** The properties and the empty reward pool. *)
Lemma properties_balanced n st db :
  wf db -> state_ok db -> (forall (id : key_of account_t) r, flat account_t db !! id = Some r -> 1 <= id <= n) ->
  flat operation_reward_t db = ∅ -> balanced db (genesis_properties n st db).
Proof.
  intros W O A R. unfold genesis_properties.
  set (db1 := store_property_record last_asset_id_property _ db). set (db2 := store_property_record last_account_id_property _ db1).
  set (db3 := set_active_delegates _ db2). set (db4 := store_property_record statistics_enabled_property _ db3).
  set (db5 := store_property_record last_game_id_property _ db4). set (r := {| rw_id := note_op_type; rw_fees := _ |}).
  assert (Eo : forall t, t <> property_t -> flat t db5 = flat t db).
  { intros t Ht. unfold db5, db4, db3, db2, db1, set_active_delegates. etrans; [ by apply (flat_other property_t _ _ _ _ t eq_refl) | ].
    do 4 (etrans; [ by apply (flat_other property_t _ _ _ _ t eq_refl) | ]). done. }
  assert (B1 : balanced db db1) by (by apply property_balanced). pose proof B1 as (W1 & O1 & _).
  assert (B2 : balanced db1 db2).
  { apply last_account_sound; [ done | done | ]. intros id r'. unfold db1.
    rewrite (flat_other property_t _ _ db _ account_t eq_refl) by done. apply A. }
  pose proof B2 as (W2 & O2 & _).
  assert (B3 : balanced db2 db3) by (by apply property_balanced). pose proof B3 as (W3 & O3 & _).
  assert (B4 : balanced db3 db4) by (by apply property_balanced). pose proof B4 as (W4 & O4 & _).
  assert (B5 : balanced db4 db5) by (by apply property_balanced). pose proof B5 as (W5 & O5 & _).
  assert (B6 : balanced db5 (store_operation_reward_record r db5)).
  { destruct (step_reward r db5 ∅ W5) as [W6 A6]. split_and!; [ done | | ].
    - by apply (state_ok_store_other operation_reward_t note_op_type r db5 _ eq_refl).
    - intros a. specialize (A6 a). rewrite !accounted_no_fees in A6. rewrite A6. unfold held_at. rewrite Eo, R, lookup_empty by done.
      apply eqm_of_eq. cbn [contrib r rw_fees]. unfold at_or_0. rewrite lookup_singleton. case_decide; simpl; lia. }
  do 5 (eapply balanced_trans; [ eassumption | ]). done.
Qed.

Lemma property_lookup_store k v k' db :
  get_property_record (store_property_record k v db) k' = if decide (k = k') then Some v else get_property_record db k'.
Proof.
  unfold get_property_record, property_record_lookup. rewrite !flat_lookup.
  destruct (store_flat property_t k v db (store_property_record k v db) eq_refl eq_refl) as [E _].
  rewrite E, lookup_insert. done.
Qed.

Lemma property_lookup_reward r k db : get_property_record (store_operation_reward_record r db) k = get_property_record db k.
Proof.
  unfold get_property_record, property_record_lookup. rewrite !flat_lookup.
  by rewrite (flat_other operation_reward_t (rw_id r) r db (store_operation_reward_record r db) property_t eq_refl).
Qed.

Lemma genesis_active n st db : get_active_delegates (genesis_properties n st db)
  = Ok (next_round_active_delegates (store_property_record last_account_id_property (property_int n)
          (store_property_record last_asset_id_property (property_int 0) db))).
Proof.
  unfold get_active_delegates, genesis_properties, set_active_delegates.
  rewrite property_lookup_reward, !property_lookup_store. done.
Qed.

(** The vesting balances of a genesis file never replace one another. *)
Definition merges_kept (config : genesis_state) : Prop :=
  merges_fresh ∅ (gv_vesting_balances (gs_sharedrop_balances config)) = true.

Lemma genesis_database_sound config chain_id st clock db :
  genesis_database config chain_id st (database_empty clock) = Ok db -> merges_kept config ->
  wf db /\ state_ok db /\ (forall a, total a db ≡64 0)
  /\ (Forall (fun d => gd_owner d <> null_key) (gs_delegates config) -> get_active_delegates db = Ok (seqZ 1 101)).
Proof.
  unfold genesis_database, initialize_delegates. intros H M. inv_ok.
  match goal with H : foldM (initialize_delegate _) _ _ = Ok ?x |- _ => destruct x as [n db1]; rename H into Hd end. inv_ok.
  match goal with H : foldM (initial_balance _) _ _ = Ok ?x |- _ => destruct x as [s2 db2]; rename H into Hi end.
  match goal with H : foldM (vesting_balance _) _ _ = Ok ?x |- _ => destruct x as [s3 db3]; rename H into Hv end. inv_ok.
  match goal with H : context [NUM_DELEGATES <=? _] |- _ => rename H into Hnum end.
  set (db0 := store_property_record chain_id_property (property_int chain_id) (database_empty clock)) in Hd.
  assert (F0 : founding 0 0 db0) by (apply founding_property; [ done | apply empty_founding ]).
  assert (D0 : all_delegates 0 db0) by (intros id Hid; lia).
  destruct (delegates_founding _ _ _ _ _ _ Hd ltac:(done) F0) as (-> & F1 & Eb & D1).
  assert (O1 : only_signatures db1).
  { intros k r. rewrite Eb, (flat_other property_t _ _ (database_empty clock) db0 balance_t eq_refl) by done.
    change ((∅ : gmap Z balance_record) !! k = Some r -> exists owner data, wc_data (br_condition r) = withdraw_with_signature owner data).
    by rewrite lookup_empty. }
  destruct (initial_balances_founding _ _ _ _ _ _ _ Hi F1 O1) as (F2 & O2 & E2).
  destruct (vesting_balances_founding _ _ _ _ _ _ _ _ Hv F2 (vested_none _ _ _ _ F2 O2) M) as (F3 & E3).
  destruct (genesis_asset_balanced (gs_timestamp config) _ _ _ F3) as (W4 & O4 & T4 & A4 & R4 & V4).
  destruct (properties_balanced _ st _ W4 O4 A4 R4) as (W & O & T). split_and!; [ done | done | intros i; by rewrite T | ].
  intros Hk. assert (D3 : all_delegates (0 + Z.of_nat (length (gs_delegates config))) db3).
  { intros id Hid. rewrite E3, E2. by apply D1. }
  rewrite genesis_active. f_equal. unfold next_round_active_delegates, get_delegates_by_vote, ranked_page. rewrite drop_0.
  etrans; [ apply (f_equal (fun x => take 101 ((in_rank_order x).*2))), V4 | ]. rewrite (ranked_by_id _ _ _ F3) by (done || lia).
  unfold NUM_DELEGATES in *. b2p.
  replace (0 + Z.of_nat (length (gs_delegates config))) with (101 + (Z.of_nat (length (gs_delegates config)) - 101)) by lia.
  rewrite seqZ_app by lia. apply take_app_length'. by rewrite length_seqZ.
Qed.
End genesis_node.
