(* ===== verification/ChainGenesis.v ===== *)
(** The chain from its genesis: the node [initialize_genesis] makes is one
    that blocks extend, and from it on every unit of supply is held. *)

From S2P Require Import Prelude StateMonad Asset Names Records ChainInterface BalanceOps Transaction Tables PendingState ChainDatabase Concrete AssetOps BlockOps Node ForkDb Undo.
From S2P Require Import Supply Conservation Frames AccountKeys ForkTree NodeTree ForkDemo ChainSupply Rankings Genesis GenesisProps.

(** ** The chain from its genesis *)

(** A node whose files hold nothing. *)
Definition unborn_node `{Tx : TxCrypto} `{St : Statics} (clock : time) (relay_fee : Z) : node :=
  let db := database_empty clock in
  mk_node db 0 header_default ∅ ∅ ∅ ∅ ∅ 0 ∅ ∅ ∅ (pending_empty db) relay_fee true.

Section chain.
Context `{FcI : Fc} `{Cr : Crypto} `{AI : !AddressInj} `{Tx : TxCrypto} `{St : Statics} `{BC : BlockCrypto}.
Context `{Cp : Checkpoints} `{Gm : Games} `{Gc : GenesisCodec}.

Lemma gen_fork_record x d : ({[ 0 := gen_fork ]} : gmap Z block_fork_data) !! x = Some d -> x = 0 /\ d = gen_fork.
Proof. by intros [-> <-]%lookup_singleton_Some. Qed.

Lemma genesis_tree n : nd_fork n = {[ 0 := gen_fork ]} -> nd_blocks n = ∅ -> nd_fork_number n = ∅ ->
  nd_head_id n = 0 -> nd_head_header n = header_default -> db_head_num (nd_db n) = 0 -> node_tree n.
Proof.
  intros F B N I H Hn. split; rewrite ?B, ?I, ?H, ?Hn; try done.
  - rewrite F. split; try done.
    + split; [ done | ]. by exists gen_fork.
    + intros x d c Hd Hc. apply gen_fork_record in Hd as [-> ->]. by apply not_elem_of_empty in Hc.
    + intros x d Hd _ Hne. by apply gen_fork_record in Hd as [-> _].
    + intros x d Hd Hi. by apply gen_fork_record in Hd as [-> ->].
  - intros k x Hx. unfold fetch_blocks_at_number in Hx. rewrite N, lookup_empty in Hx. by apply not_elem_of_nil in Hx.
  - by left.
  - exists gen_fork. by rewrite F.
  - intros x d Hx _. rewrite F in Hx. by apply gen_fork_record in Hx as [-> _].
Qed.

(** Nothing of the genesis moves the head of the database. *)
Lemma head_num_stable h : stable (fun _ => True) (fun db => db_head_num db = h).
Proof. apply stable_of_primitives; try done; by intros []. Qed.

Lemma foldM_head {A B} (f : A -> B * chain_database -> result (B * chain_database)) l acc acc' h :
  (forall x acc acc', f x acc = Ok acc' -> db_head_num acc.2 = h -> db_head_num acc'.2 = h) ->
  foldM f l acc = Ok acc' -> db_head_num acc.2 = h -> db_head_num acc'.2 = h.
Proof.
  intros Hf. revert acc. induction l as [|x l IH]; intros acc H Hh; cbn [foldM] in H; inv_ok; [ by simplify_eq | ].
  eapply IH; [ exact H | ]. by eapply Hf.
Qed.

Lemma genesis_head config chain_id st db db' : genesis_database config chain_id st db = Ok db' -> db_head_num db' = db_head_num db.
Proof.
  unfold genesis_database, initialize_delegates. intros H. inv_ok.
  match goal with H : foldM (initialize_delegate _) _ _ = Ok ?x |- _ => destruct x as [n db1]; rename H into Hd end. inv_ok.
  match goal with H : foldM (initial_balance _) _ _ = Ok ?x |- _ => destruct x as [s2 db2]; rename H into Hi end.
  match goal with H : foldM (vesting_balance _) _ _ = Ok ?x |- _ => destruct x as [s3 db3]; rename H into Hv end. inv_ok.
  pose proof (head_num_stable (db_head_num db)) as P. unfold genesis_properties, set_active_delegates.
  apply (stable_reward _ _ P); [ done | ]. do 5 (apply (stable_property _ _ P); [ done | ]). apply (stable_asset _ _ P); [ done | ].
  apply (foldM_head _ _ _ _ (db_head_num db)) in Hv; [ done | | ].
  { intros g [s d] [s' d'] Hg Hh. unfold vesting_balance in Hg. inv_ok. simplify_eq. cbn [snd] in *. by repeat case_match. }
  apply (foldM_head _ _ _ _ (db_head_num db)) in Hi; [ done | | ].
  { intros g [s d] [s' d'] Hg Hh. unfold initial_balance in Hg. inv_ok. by simplify_eq. }
  apply (foldM_head _ _ _ _ (db_head_num db)) in Hd; [ done | | done ].
  intros g [s d] [s' d'] Hg Hh. unfold initialize_delegate in Hg. inv_ok. simplify_eq.
  by eapply (stable_account _ _ P).
Qed.

(** C15: the genesis starts a chain: from an empty node, with initial delegates
    that have keys and vesting balances of which none is lost in a merge, it
    makes a database whose records lie under their keys, whose accounts have
    their keys and which counts every unit of every asset once, modulo 2^64, a
    tree of blocks that fits the node, and with it the first hundred and one
    delegates are active. *)
Theorem genesis_starts_chain config chain_id st clock fee n
    (H : initialize_genesis config chain_id st (unborn_node clock fee) = Ok n) (Hm : merges_kept config)
    (Hk : Forall (fun d => gd_owner d <> null_key) (gs_delegates config)) :
  node_tree n /\ wf (nd_db n) /\ state_ok (nd_db n) /\ (forall a, total a (nd_db n) ≡64 0)
  /\ get_active_delegates (nd_db n) = Ok (seqZ 1 101).
Proof.
  unfold initialize_genesis in H. inv_ok. match goal with H : genesis_database _ _ _ _ = Ok _ |- _ => rename H into Hg end.
  split; [ apply genesis_tree; try done; exact (genesis_head _ _ _ _ _ Hg) | ].
  destruct (genesis_database_sound _ _ _ _ _ Hg Hm) as (W & O & T & D). split_and!; [ done.. | by apply D ].
Qed.

(** C14: every unit of supply is held: from the genesis, whatever blocks are
    stored and extend the chain one after the other, and whether they are
    applied or rejected, for every asset what the balances, the pay of the
    delegates, the red packets, the reward pools, the collected fees and the
    collaterals hold is the current supply, modulo 2^64, and exactly when both
    are in the range of [share_type]. Provided that the genesis loses no merged
    vesting balance, that no block claims a share for the account -1, which
    makes money ([claim_to_minus_one_mints]), and that the games conserve what
    is held; a block that is popped is not covered. *)
Theorem supply_is_held config chain_id st clock fee n bs
    (H : initialize_genesis config chain_id st (unborn_node clock fee) = Ok n) (Hm : merges_kept config)
    (HG : games_conserve) (Hc : forallb (fun b => forallb proper_claims (fb_user_transactions b)) bs = true) :
  let db := nd_db (extended bs n) in
  wf db /\ state_ok db /\ forall a, total a db ≡64 0 /\ (in_int64 (total a db) -> total a db = 0).
Proof.
  unfold initialize_genesis in H. inv_ok. match goal with H : genesis_database _ _ _ _ = Ok _ |- _ => rename H into Hg end.
  destruct (genesis_database_sound _ _ _ _ _ Hg Hm) as (W0 & O0 & T0 & _).
  match goal with |- let db := nd_db (extended bs ?x) in _ => set (n := x) end.
  destruct (extended_balanced bs n HG Hc W0 O0) as (W & O & T). split_and!; [ done | done | ].
  intros i. assert (E : total i (nd_db (extended bs n)) ≡64 0) by (etrans; [ apply T | apply T0 ]).
  split; [ exact E | ]. intros Hi. by apply eqm_eq.
Qed.
End chain.

(** ** A concrete genesis

    An address of a condition from which the condition can be read. *)

#[local] Existing Instance demo_tx.
#[local] Existing Instance demo_statics.
#[local] Existing Instance fork_crypto.
#[local] Existing Instance no_checkpoints.
#[local] Existing Instance no_games.

Definition memo_code (m : option titan_memo) : list Z :=
  match m with Some m => one_time_key m :: encrypted_memo_data m | None => [] end.
Definition memo_of_code (l : list Z) : option titan_memo :=
  match l with k :: l => Some {| one_time_key := k; encrypted_memo_data := l |} | [] => None end.

Definition condition_code (c : withdraw_condition) : Z * Z * Z * list Z * list Z :=
  let '(tag, data, memo) :=
    match wc_data c with
    | withdraw_null => (0, [], None)
    | withdraw_with_signature o m => (1, [o], m)
    | withdraw_vesting o s d b => (2, [o; s; d; b], None)
    | withdraw_with_multisig r os m => (3, r :: elements os, m)
    | withdraw_with_escrow s r e a m => (4, [s; r; e; a], m)
    end in
  (wc_asset_id c, wc_slate_id c, tag, data, memo_code memo).
Definition condition_of_code (x : Z * Z * Z * list Z * list Z) : withdraw_condition :=
  let '(a, s, tag, data, memo) := x in
  let m := memo_of_code memo in
  mk_condition a s
    (if tag =? 0 then withdraw_null
     else if tag =? 1 then withdraw_with_signature (default 0 (data !! 0%nat)) m
     else match data with
          | [o; st; d; b] => if tag =? 2 then withdraw_vesting o st d b
                             else if tag =? 4 then withdraw_with_escrow o st d b m
                             else withdraw_with_multisig o (list_to_set [st; d; b]) m
          | r :: os => withdraw_with_multisig r (list_to_set os) m
          | [] => withdraw_null
          end).

Lemma condition_of_code_code c : condition_of_code (condition_code c) = c.
Proof.
  assert (Hm : forall m, memo_of_code (memo_code m) = m) by (by intros [[]|]).
  destruct c as [a s [|o m|o st d b|r os m|sn r e g m]]; unfold condition_code, condition_of_code; cbn -[list_to_set]; rewrite ?Hm; try done.
  assert (E : list_to_set (elements os) = os) by apply list_to_set_elements_L.
  destruct (elements os) as [|x1 [|x2 [|x3 [|x4 l]]]]; cbn -[list_to_set]; by rewrite E.
Qed.

Definition coded_crypto : Crypto := {|
  key_address := @key_address demo_crypto;
  pts_key_address := @pts_key_address demo_crypto;
  condition_address := fun c => Z.pos (encode (condition_code c));
  slate_hash := @slate_hash demo_crypto;
  message_signer := @message_signer demo_crypto;
  packet_rand := @packet_rand demo_crypto;
  packet_rand_range := @packet_rand_range demo_crypto |}.
#[local] Existing Instance coded_crypto.

Instance coded_addresses : AddressInj.
Proof.
  intros c c' H. injection H as H. apply (inj encode) in H. rewrite <- (condition_of_code_code c), H. apply condition_of_code_code.
Qed.

(** PTS addresses start with a P, an address is as long as its string. *)
Definition demo_codec : GenesisCodec := {|
  from_pts_address := fun s => match strip_prefix "P" s with Some r => Ok (Z.of_nat (String.length r)) | None => Throw parse_error end;
  from_address := fun s => Ok (1000 + Z.of_nat (String.length s));
  days_to_seconds := fun d => d * 86400 |}.
#[local] Existing Instance demo_codec.

(** The delegate of id [i] signs with the key [100 + i]. *)
Definition demo_genesis (vesting : list genesis_balance) : genesis_state := {|
  gs_timestamp := 99000;
  gs_delegates := map (fun i => {| gd_name := "delegate"; gd_owner := 100 + i |}) (seqZ 1 101);
  gs_initial_balances := [ {| gb_raw_address := "Pab"; gb_balance := 700 |}; {| gb_raw_address := "XTSabc"; gb_balance := 50 |};
                           {| gb_raw_address := "Pcd"; gb_balance := 300 |} ];
  gs_sharedrop_balances := {| gv_start_time := 99000; gv_duration_days := 2; gv_vesting_balances := vesting |} |}.

(** Two vesting balances that are merged. *)
Definition merging : list genesis_balance :=
  [ {| gb_raw_address := "Pab"; gb_balance := 100 |}; {| gb_raw_address := "Pab"; gb_balance := 100 |};
    {| gb_raw_address := "KEYq"; gb_balance := 40 |} ].
Definition born_node (vesting : list genesis_balance) : node :=
  ok_or (unborn_node 100005 0) (initialize_genesis (demo_genesis vesting) 77 true (unborn_node 100005 0)).

Lemma genesis_starts_chain_witness :
  node_tree (born_node merging) /\ get_active_delegates (nd_db (born_node merging)) = Ok (seqZ 1 101).
Proof.
  destruct (genesis_starts_chain (demo_genesis merging) 77 true 100005 0 (born_node merging)) as (T & _ & _ & _ & D).
  - apply ok_or_is_ok. vm_compute. reflexivity.
  - vm_compute. reflexivity.
  - repeat constructor; discriminate.
  - split; [ exact T | exact D ].
Defined.

(** A block of the delegate whose slot it is. *)
Definition born_block : full_block := {|
  fb_header := {| bh_previous := 0; bh_block_num := 1; bh_timestamp := 100000;
                  bh_transaction_digest := 0; bh_next_secret_hash := 1; bh_previous_secret := 0 |};
  fb_delegate_signature := 101 + (10000 mod 101); fb_user_transactions := [] |}.

Lemma supply_is_held_witness :
  nd_head_id (extended [born_block] (born_node merging)) = full_block_id born_block
  /\ total 0 (nd_db (extended [born_block] (born_node merging))) = 0.
Proof.
  split; [ vm_compute; reflexivity | ].
  destruct (supply_is_held (demo_genesis merging) 77 true 100005 0 (born_node merging) [born_block]) as (_ & _ & T).
  - apply ok_or_is_ok. vm_compute. reflexivity.
  - vm_compute. reflexivity.
  - unfold games_conserve. discriminate.
  - reflexivity.
  - apply T. vm_compute. split; discriminate.
Defined.

(** A merge that replaces a third balance: its shares are in the supply and
    held by nobody. *)
Definition replacing : list genesis_balance :=
  [ {| gb_raw_address := "Pab"; gb_balance := 200 |}; {| gb_raw_address := "Pab"; gb_balance := 100 |};
    {| gb_raw_address := "Pab"; gb_balance := 100 |} ].

Example merged_balance_lost :
  merges_fresh ∅ replacing = false /\ total 0 (nd_db (born_node replacing)) = -200
  /\ as_current_supply <$> get_asset_record (nd_db (born_node replacing)) 0 = Some 1450.
Proof. vm_compute. done. Qed.
