(* ===== verification/Pool.v ===== *)
(** The transactions that wait: evaluating a transaction on the pool's state,
    storing it in the pool, evaluating the pool again after a block, and
    making a block of it (chain_database.cpp, chain_database_impl.hpp,
    delegate_config.hpp).

    The pool's state is over the database as it is when it is used. Ids are
    compared as numbers. [apply_changes] on the state of a transaction either
    succeeds or, in the model, writes nothing. *)

From stdpp Require Import sorting.
From S2P Require Import Prelude StateMonad Asset Names Records ChainInterface EvalState Transaction Tables PendingState ChainDatabase.
From S2P Require Import Market BlockOps Node ForkDb.

Definition MAX_PENDING_QUEUE_SIZE : Z := 10.

(** The sizes of packed transactions and of an empty block. *)
Class Sizes := { data_size : signed_transaction -> Z; empty_block_size : Z }.

(** [delegate_config], with the clock apart. *)
Record delegate_config := {
  block_max_transaction_count : Z;
  block_max_size : Z;
  transaction_max_size : Z;
  transaction_canonical_signatures_required : bool;
  transaction_min_fee : Z;
  transaction_blacklist : gset transaction_id;
  operation_blacklist : gset Z }.

(** [operation_type_enum]. *)
Definition operation_type (op : operation) : Z :=
  match op with
  | op_withdraw _ => 1 | op_deposit _ => 2
  | op_register_account _ => 3 | op_update_account _ => 4 | op_withdraw_pay _ => 5
  | op_create_asset _ => 6 | op_issue_asset _ => 8
  | op_asset_update_properties _ => 9 | op_asset_update_permissions _ => 10 | op_asset_update_whitelist _ => 11
  | op_bid _ => 12 | op_ask _ => 13 | op_define_slate _ => 18 | op_update_feed _ => 19 | op_burn _ => 20
  | op_release_escrow _ => 23 | op_update_signing_key _ => 24 | op_update_balance_vote _ => 27
  | op_limit_fee _ => 28 | op_data _ => 29 | op_ad _ => 39 | op_note _ => 40
  | op_red_packet _ => 41 | op_claim_packet _ => 42 | op_buy_chips _ => 46
  end.

Section pool.
Context `{FcI : Fc} `{Cr : Crypto} `{Tx : TxCrypto} `{St : Statics} `{Sz : Sizes} `{BC : BlockCrypto}.

(** The state of a transaction over another pending state. *)
Definition trial : Type := eval_state (pending_chain_state (pending_chain_state chain_database)).

(** ** The pool *)

Definition evaluate_transaction (trx : signed_transaction) (required_fees : Z) : node_m trial :=
  fun n =>
    let pool := set_prev_state (nd_db n) (nd_pending_state n) in
    (r <~ nread (fun _ =>
       e <- evaluate trx (eval_start (pending_empty pool)) ;;
       _ <- throw_if insufficient_relay_fee (es_total_base_fees e <? required_fees) ;;
       pool <- apply_changes (es_state e) ;;
       Ok (e, pool)) ;;
     _ <~ nwrite (fun n => set_nd_pool (nd_pending_trxs n) (nd_fee_index n) (snd r) n) ;;
     nret (fst r)) n.

(** [_pending_fee_index[ fee_index( fees, id ) ] = eval_state]. *)
Definition index_fee (fees : Z) (trx : signed_transaction) : node_m unit :=
  nwrite (fun n => set_nd_pool (nd_pending_trxs n) (<[(fees, trx_id trx) := trx]> (nd_fee_index n)) (nd_pending_state n) n).

Definition required_relay_fee (override_limits : bool) (n : node) : Z :=
  let queued := Z.of_nat (size (nd_fee_index n)) in
  if negb override_limits && (MAX_PENDING_QUEUE_SIZE <? queued) then
    let overage := queued - MAX_PENDING_QUEUE_SIZE in
    (nd_relay_fee n *! overage) *! overage
  else nd_relay_fee n.

Definition store_pending_transaction (trx : signed_transaction) (override_limits : bool) : node_m (option trial) :=
  fun n =>
    match nd_pending_trxs n !! trx_id trx with
    | Some _ => (n, Ok None)
    | None =>
        (e <~ evaluate_transaction trx (required_relay_fee override_limits n) ;;
         _ <~ index_fee (es_total_base_fees e) trx ;;
         _ <~ nwrite (fun n => set_nd_pool (<[trx_id trx := trx]> (nd_pending_trxs n)) (nd_fee_index n) (nd_pending_state n) n) ;;
         nret (Some e)) n
    end.

(** The waiting transactions in the order of their ids; what is no longer
    valid is collected, then removed. *)
Definition waiting_ids (n : node) : list transaction_id := merge_sort Z.le (map_to_list (nd_pending_trxs n)).*1.

Definition revalidate_one (id : transaction_id) (discard : list transaction_id) : node_m (list transaction_id) :=
  fun n =>
    match nd_pending_trxs n !! id with
    | None => (n, Ok discard)
    | Some trx =>
        ncatch (e <~ evaluate_transaction trx (nd_relay_fee n) ;;
                _ <~ index_fee (es_total_base_fees e) trx ;;
                nret discard)
          (fun _ => nret (discard ++ [id])) n
    end.

Definition revalidate_pending : node_m unit :=
  _ <~ nwrite (fun n => set_nd_pool (nd_pending_trxs n) ∅ (pending_empty (nd_db n)) n) ;;
  fun n =>
    (discard <~ nfold revalidate_one (waiting_ids n) [] ;;
     nwrite (fun n => set_nd_pool (foldl (fun m id => delete id m) (nd_pending_trxs n) discard)
       (nd_fee_index n) (nd_pending_state n) n)) n.

(** [fee_index::operator <]: the highest fee first, then the highest id. *)
Definition fee_before (a b : Z * transaction_id) : Prop :=
  if fst a =? fst b then snd b <= snd a else fst b < fst a.

#[export] Instance fee_before_dec : RelDecision fee_before.
Proof. intros a b. unfold fee_before. destruct (fst a =? fst b); apply _. Defined.

Definition get_pending_transactions (n : node) : list signed_transaction :=
  omap (fun k => nd_fee_index n !! k) (merge_sort fee_before (map_to_list (nd_fee_index n)).*1).

(** ** Making a block *)

(** What the loop carries: the state of the block, its transactions and its
    size. *)
Definition draft : Type := pending_chain_state chain_database * list signed_transaction * Z.

(** The checks that leave a transaction out without evaluating it. *)
Definition excluded (config : delegate_config) (block_size : Z) (trx : signed_transaction) : bool :=
  (transaction_max_size config <? data_size trx)
  || (block_max_size config <? block_size + data_size trx)
  || bool_decide (trx_id trx ∈ transaction_blacklist config)
  || existsb (fun op => bool_decide (operation_type op ∈ operation_blacklist config)) (tx_operations trx).

(** The transaction evaluated on the state of the block, and included when its
    fee is high enough; what throws is left out. *)
Definition include_transaction (config : delegate_config) (trx : signed_transaction) (d : draft) : result (option draft) :=
  let '(p, trxs, block_size) := d in
  let included :=
    e <- evaluate trx (set_skips false false (transaction_canonical_signatures_required config) (eval_start (pending_empty p))) ;;
    if es_total_base_fees e <? transaction_min_fee config then Ok None
    else
      p <- apply_changes (es_state e) ;;
      Ok (Some (p, trxs ++ [trx], block_size + data_size trx)) in
  match included with
  | Ok r => Ok r
  | Throw undefined_behaviour => Throw undefined_behaviour
  | Throw _ => Ok None
  end.

(** The loop; [late i] tells whether the time for making the block is over
    before the [i]-th transaction. *)
Fixpoint draft_block (config : delegate_config) (late : nat -> bool) (i : nat) (pool : list signed_transaction) (d : draft)
    : result draft :=
  match pool with
  | [] => Ok d
  | trx :: pool =>
      if late i then Ok d
      else if excluded config (snd d) trx then draft_block config late (i + 1) pool d
      else
        r <- include_transaction config trx d ;;
        match r with
        | None => draft_block config late (i + 1) pool d
        | Some d =>
            if block_max_transaction_count config <=? Z.of_nat (length (snd (fst d))) then Ok d
            else draft_block config late (i + 1) pool d
        end
  end.

Definition generate_block (block_timestamp : time) (config : delegate_config) (late : nat -> bool) (n : node)
    : result full_block :=
  p <- execute_markets (nd_db n) block_timestamp (pending_empty (nd_db n)) ;;
  d <- (if (0 <? block_max_transaction_count config) && (empty_block_size <? block_max_size config)
        then draft_block config late 0 (get_pending_transactions n) (p, [], empty_block_size)
        else Ok (p, [], empty_block_size)) ;;
  let trxs := snd (fst d) in
  let head := nd_head_header n in
  Ok {| fb_header := {| bh_previous := if 0 <? bh_block_num head then nd_head_id n else 0;
                        bh_block_num := uwrap32 (bh_block_num head + 1);
                        bh_timestamp := block_timestamp;
                        bh_transaction_digest := transactions_digest (map trx_id trxs);
                        bh_next_secret_hash := 0; bh_previous_secret := 0 |};
        fb_delegate_signature := 0; fb_user_transactions := trxs |}.
End pool.
