(* ===== verification/PoolProps.v ===== *)
(** The pool of transactions: its index fits the transactions that wait,
    whatever the node does, and a block made of it is within its limits, can
    be evaluated and has a header that is accepted. *)

From stdpp Require Import sorting relations.
From S2P Require Import Prelude StateMonad Asset Names Records ChainInterface EvalState Transaction Tables PendingState ChainDatabase Concrete.
From S2P Require Import Market BlockOps Node ForkDb Undo BlockProps ForkTree ForkDemo Supply Conservation ChainSupply Pool.

Section pool.
Context `{FcI : Fc} `{Cr : Crypto} `{Tx : TxCrypto} `{St : Statics} `{BC : BlockCrypto} `{Cp : Checkpoints} `{Gm : Games}.

(** ** The index and the waiting transactions *)

(** Transactions wait under their ids, the index has some of them, and none
    under two fees. *)
Record pool_ok (n : node) : Prop := {
  po_waiting : forall id trx, nd_pending_trxs n !! id = Some trx -> trx_id trx = id;
  po_indexed : forall fees id trx, nd_fee_index n !! (fees, id) = Some trx -> nd_pending_trxs n !! id = Some trx;
  po_once : forall fees fees' id, is_Some (nd_fee_index n !! (fees, id)) -> is_Some (nd_fee_index n !! (fees', id)) -> fees = fees' }.

Lemma pool_same n n' : nd_pending_trxs n' = nd_pending_trxs n -> nd_fee_index n' = nd_fee_index n -> pool_ok n -> pool_ok n'.
Proof. intros E1 E2 [H1 H2 H3]. split; intros *; rewrite ?E1, ?E2; [ apply H1 | apply H2 | apply H3 ]. Qed.

Lemma pool_empty_index n : nd_fee_index n = ∅ -> (forall id trx, nd_pending_trxs n !! id = Some trx -> trx_id trx = id) -> pool_ok n.
Proof.
  intros E H. split; [ exact H | | ]; intros *; rewrite E, lookup_empty; [ done | ]. by intros [? ?].
Qed.

Lemma pool_write f : (forall n, nd_pending_trxs (f n) = nd_pending_trxs n) -> (forall n, nd_fee_index (f n) = nd_fee_index n) -> keeps pool_ok (nwrite f).
Proof. intros E1 E2. apply keeps_write. intros n. by apply pool_same. Qed.

(** *** A block arrives *)

(** The computation a hypothesis runs keeps the pool. *)
Ltac run_keeps H := match type of H with ?m ?n = (?n', ?r) => cut (keeps pool_ok m); [ intros HK; exact (HK n n' r H ltac:(assumption)) | ]; clear H end.

Lemma pool_fork_store id d : keeps pool_ok (fork_store id d).
Proof. by apply pool_write. Qed.
#[local] Hint Resolve pool_fork_store pool_write : keeps.

Lemma pool_mark_included id v : keeps pool_ok (mark_included id v).
Proof. unfold mark_included. auto 8 with keeps. Qed.
Lemma pool_update_head id h : keeps pool_ok (update_head_block id h).
Proof. by apply pool_write. Qed.

Lemma pool_clear_pending b : keeps pool_ok (clear_pending b).
Proof.
  apply keeps_write. intros n H. apply pool_empty_index; [ done | ]. cbn [set_nd_pool nd_pending_trxs].
  generalize (fb_user_transactions b). intros l. pose proof (po_waiting _ H) as W. revert W. generalize (nd_pending_trxs n). clear.
  induction l as [|trx l IH]; intros m W; [ done | ]. cbn [foldl]. apply IH. intros id t. rewrite lookup_delete_Some. intros [_ Ht]. by apply W.
Qed.

Lemma pool_save_undo num id p : keeps pool_ok (save_undo_state num id p).
Proof.
  unfold save_undo_state. intros n n' r. destruct (num <? nd_min_undo n); [ by intros [= <- <-] | ]. revert n n' r.
  change (keeps pool_ok (u <~ nread (fun _ => build_undo_state p) ;;
    _ <~ (if MAX_UNDO_HISTORY <? num then old_id <~ nread (get_block_id (num - MAX_UNDO_HISTORY)) ;;
            nwrite (fun n => set_nd_undo (delete old_id (nd_undo n)) n) else nret tt) ;;
    nwrite (fun n => set_nd_undo (<[id := u]> (nd_undo n)) n))).
  apply keeps_bind; [ auto with keeps | ]. intros u. apply keeps_bind; [ destruct (_ <? num); auto with keeps | auto with keeps ].
Qed.
#[local] Hint Resolve pool_mark_included pool_update_head pool_clear_pending pool_save_undo : keeps.

Lemma pool_extend_chain b : keeps pool_ok (extend_chain b).
Proof.
  unfold extend_chain, purge_unique. apply keeps_bind; [ | auto with keeps ]. apply keeps_catch.
  - unfold apply_block. repeat (apply keeps_bind; [ auto with keeps | intros ? ]). auto with keeps.
  - intros e. apply keeps_bind; [ apply mark_invalid_keeps; auto with keeps | auto with keeps ].
Qed.
#[local] Hint Resolve pool_extend_chain : keeps.

Lemma pool_pop_block : keeps pool_ok pop_block.
Proof.
  intros n n' r H P. unfold pop_block in H. destruct (bh_block_num (nd_head_header n) =? 0); [ by simplify_eq | ]. run_keeps H.
  repeat (apply keeps_bind; [ auto with keeps | intros ? ]). auto with keeps.
Qed.
#[local] Hint Resolve pool_pop_block : keeps.

Lemma pool_pop_until fuel target : keeps pool_ok (pop_until fuel target).
Proof.
  induction fuel as [|fuel IH]; intros n n' r; cbn [pop_until]; (destruct (nd_head_id n =? target); [ by intros [= <- <-] | ]);
    [ by intros [= <- <-] | ].
  intros H P. run_keeps H. auto with keeps.
Qed.

Lemma pool_switch id : keeps pool_ok (switch_to_fork id).
Proof.
  intros n n' r H P. unfold switch_to_fork in H. destruct (id =? nd_head_id n); [ by simplify_eq | ]. run_keeps H.
  repeat (apply keeps_bind; [ auto using pool_pop_until with keeps | intros ? ]). apply keeps_fold. auto with keeps.
Qed.

Lemma pool_try_forks pushed ids : keeps pool_ok (try_forks pushed ids).
Proof.
  induction ids as [|id ids IH]; cbn [try_forks]; [ auto with keeps | ]. apply keeps_bind; [ auto with keeps | intros d ].
  destruct (can_link d); [ | done ]. apply keeps_bind; [ apply keeps_catch | intros []; auto with keeps ].
  - apply keeps_bind; [ apply pool_switch | auto with keeps ].
  - intros []; auto with keeps.
Qed.

Lemma pool_try_heights pushed k : keeps pool_ok (try_heights pushed k).
Proof.
  induction k as [|k IH]; [ apply keeps_ret | ].
  intros n n' r H P. cbn [try_heights] in H. run_keeps H.
  apply keeps_bind; [ apply pool_try_forks | intros []; auto with keeps ].
Qed.

Lemma pool_push_block b : keeps pool_ok (push_block b).
Proof.
  assert (Hd : forall id, keeps pool_ok (fork_data_of id)) by (intros; apply keeps_read).
  intros n n' r H P. unfold push_block in H. destruct (_ && _); [ by simplify_eq | ]. destruct (is_known_block _ n); [ by eapply Hd | ].
  run_keeps H. apply keeps_bind.
  - apply store_and_index_keeps; auto with keeps; intros m x; by apply pool_same.
  - intros longest. unfold choose_fork. apply keeps_bind; [ | auto ]. destruct (can_link longest.2); [ | auto with keeps ].
    apply keeps_bind; [ auto with keeps | intros lb ]. destruct (_ <? _); [ apply pool_try_heights | auto with keeps ].
Qed.

(** *** A transaction arrives *)

(** Evaluating leaves the waiting transactions and the index alone. *)
Lemma evaluate_transaction_pool trx fees n n' r : evaluate_transaction trx fees n = (n', r) ->
  nd_pending_trxs n' = nd_pending_trxs n /\ nd_fee_index n' = nd_fee_index n.
Proof.
  unfold evaluate_transaction. intros [(n1 & a & E & H)|(e & E & ->)]%nbind_inv; cbv [nread] in E; simplify_eq; [ | done ].
  unfold nbind, nwrite, nret in H. by simplify_eq.
Qed.

Lemma pool_index fees trx n n' : pool_ok n -> nd_pending_trxs n !! trx_id trx = Some trx ->
  (forall f, nd_fee_index n !! (f, trx_id trx) = None) ->
  nd_pending_trxs n' = nd_pending_trxs n -> nd_fee_index n' = <[(fees, trx_id trx) := trx]> (nd_fee_index n) -> pool_ok n'.
Proof.
  intros [H1 H2 H3] Hw Hn E1 E2. split; rewrite ?E1, ?E2; [ done | | ].
  - intros f id t. rewrite lookup_insert. case_decide as Hd; [ intros [= <-]; by injection Hd as _ <- | apply H2 ].
  - intros f f' id. rewrite !lookup_insert. repeat case_decide; simplify_eq; try done.
    + intros _. rewrite Hn. by intros [? ?].
    + rewrite Hn. by intros [? ?].
    + apply H3.
Qed.

Lemma pool_store_pending trx override : keeps pool_ok (store_pending_transaction trx override).
Proof.
  intros n n' r H P. unfold store_pending_transaction in H. destruct (nd_pending_trxs n !! trx_id trx) eqn:Ew; [ by simplify_eq | ].
  apply nbind_inv in H as [(n1 & e & E & H)|(e & E & ->)]; apply evaluate_transaction_pool in E as [E1 E2]; [ | by apply (pool_same n) ].
  unfold nbind, index_fee, nwrite, nret in H. simplify_eq. rewrite <- E1 in Ew. pose proof (pool_same n n1 E1 E2 P) as [H1 H2 H3].
  apply (pool_index (es_total_base_fees e) trx (set_nd_pool (<[trx_id trx := trx]> (nd_pending_trxs n1)) (nd_fee_index n1) (nd_pending_state n1) n1));
    [ | | | done.. ].
  - split; cbn [set_nd_pool nd_pending_trxs nd_fee_index]; [ | | done ].
    + intros id t. rewrite lookup_insert. case_decide; [ intros [= <-]; done | apply H1 ].
    + intros f id t Ht. apply H2 in Ht. rewrite lookup_insert. case_decide; [ congruence | done ].
  - apply lookup_insert_eq.
  - intros f. cbn [set_nd_pool nd_fee_index]. destruct (nd_fee_index n1 !! (f, trx_id trx)) eqn:Ei; [ | done ]. apply H2 in Ei. congruence.
Qed.

(** *** The pool is evaluated again *)

(** The ids [l] are not in the index. *)
Definition unindexed (l : list transaction_id) (n : node) : Prop := forall id, id ∈ l -> forall f, nd_fee_index n !! (f, id) = None.

Lemma revalidate_one_pool id ids discard n n' r : revalidate_one id discard n = (n', r) ->
  pool_ok n -> NoDup (id :: ids ++ discard) -> unindexed (id :: ids ++ discard) n ->
  pool_ok n' /\ match r with
    | Ok discard' => NoDup (ids ++ discard') /\ unindexed (ids ++ discard') n'
    | Throw _ => True
    end.
Proof.
  unfold revalidate_one. intros H P [Nid ND]%NoDup_cons U.
  destruct (nd_pending_trxs n !! id) as [trx|] eqn:Ew.
  2:{ simplify_eq. split_and!; [ done.. | ]. intros x Hx. apply U. by right. }
  pose proof (po_waiting n P _ _ Ew) as <-.
  unfold ncatch, nbind at 1 in H. destruct (evaluate_transaction trx (nd_relay_fee n) n) as [n1 [e|e]] eqn:Ee;
    apply evaluate_transaction_pool in Ee as [E1 E2].
  - unfold index_fee, nbind, nwrite, nret in H. simplify_eq.
    assert (P1 : pool_ok (set_nd_pool (nd_pending_trxs n1) (<[(es_total_base_fees e, trx_id trx) := trx]> (nd_fee_index n1)) (nd_pending_state n1) n1)).
    { apply (pool_index (es_total_base_fees e) trx n); [ done | done | intros f; apply U; by left | done | cbn [set_nd_pool nd_fee_index]; by rewrite E2 ]. }
    split_and!; [ exact P1 | done | ]. intros x Hx f. cbn [set_nd_pool nd_fee_index]. rewrite E2, lookup_insert_ne; [ apply U; by right | ].
    intros [= <- <-]. done.
  - assert (P1 : pool_ok n1) by (by apply (pool_same n)).
    assert (E : n1 = n' /\ (r = Ok (discard ++ [trx_id trx]) \/ exists e, r = Throw e)) by (destruct e; unfold nret in H; simplify_eq; eauto).
    destruct E as [<- [->|[e' ->]]]; [ | done ]. split; [ done | ].
    assert (Hp : ids ++ discard ++ [trx_id trx] ≡ₚ trx_id trx :: ids ++ discard) by (rewrite app_assoc; symmetry; apply Permutation_cons_append).
    split; [ rewrite Hp; by constructor | ]. intros x Hx f. rewrite E2. apply U. by rewrite <- Hp.
Qed.

Lemma revalidate_loop_pool ids discard n n' r : nfold revalidate_one ids discard n = (n', r) ->
  pool_ok n -> NoDup (ids ++ discard) -> unindexed (ids ++ discard) n ->
  pool_ok n' /\ match r with Ok discard' => unindexed discard' n' | Throw _ => True end.
Proof.
  revert discard n. induction ids as [|id ids IH]; intros discard n H P ND U; cbn [nfold] in H; [ unfold nret in H; by simplify_eq | ].
  apply nbind_inv in H as [(n1 & d1 & E & H)|(e & E & ->)]; apply (revalidate_one_pool _ ids) in E as [P1 D]; try done.
  destruct D as [ND1 U1]. by eapply IH.
Qed.

Lemma pool_revalidate : keeps pool_ok revalidate_pending.
Proof.
  intros n n' r H P. unfold revalidate_pending, nbind at 1, nwrite in H.
  set (n0 := set_nd_pool (nd_pending_trxs n) ∅ (pending_empty (nd_db n)) n) in H.
  assert (P0 : pool_ok n0) by (apply pool_empty_index; [ done | apply P ]).
  assert (N0 : NoDup (waiting_ids n0 ++ [])).
  { rewrite app_nil_r. unfold waiting_ids. rewrite merge_sort_Permutation. apply NoDup_fst_map_to_list. }
  assert (U0 : unindexed (waiting_ids n0 ++ []) n0) by (intros x _ f; apply lookup_empty).
  apply nbind_inv in H as [(n1 & d & E & H)|(e & E & ->)]; apply revalidate_loop_pool in E as [P1 U1]; try done.
  injection H as <- <-. destruct P1 as [H1 H2 H3]. split; cbn [set_nd_pool nd_pending_trxs nd_fee_index]; [ | | done ].
  - assert (G : forall l m, (forall id trx, (m : gmap Z signed_transaction) !! id = Some trx -> trx_id trx = id) ->
      forall id trx, foldl (fun m id => delete id m) m l !! id = Some trx -> trx_id trx = id).
    { induction l as [|x l IH]; intros m Hm; [ done | ]. cbn [foldl]. apply IH. intros id t. rewrite lookup_delete_Some. intros [_ Ht]. by apply Hm. }
    by apply G.
  - intros f id trx Hi. pose proof (H2 _ _ _ Hi) as Hw.
    assert (Nd : id ∉ d) by (intros Hd; rewrite (U1 id Hd f) in Hi; done). clear - Hw Nd. revert Hw. generalize (nd_pending_trxs n1).
    induction d as [|x d IH]; intros m Hm; [ done | ]. apply not_elem_of_cons in Nd as [Nx Nd]. cbn [foldl]. apply IH; [ done | ].
    by rewrite lookup_delete_ne.
Qed.

(** What a node does: blocks and transactions arrive, and the pool is
    evaluated again. *)
Inductive node_event : node -> node -> Prop :=
| event_block b n : node_event n (fst (push_block b n))
| event_transaction trx override n : node_event n (fst (store_pending_transaction trx override n))
| event_revalidate n : node_event n (fst (revalidate_pending n)).

(** whatever blocks and transactions arrive, applied or rejected, the
    transactions of the pool wait under their ids, its index by fee holds
    only waiting transactions, and none of them under two fees. *)
Theorem pool_kept n n' (H : rtc node_event n n') (P : pool_ok n) : pool_ok n'.
Proof.
  induction H as [n|n1 n2 n3 E _ IH]; [ done | ]. apply IH. destruct E as [b n|trx o n|n].
  - destruct (push_block b n) as [m r] eqn:E. by apply (pool_push_block b n m r).
  - destruct (store_pending_transaction trx o n) as [m r] eqn:E. by apply (pool_store_pending trx o n m r).
  - destruct (revalidate_pending n) as [m r] eqn:E. by apply (pool_revalidate n m r).
Qed.
End pool.

(** ** A concrete pool *)

#[local] Existing Instance demo_crypto.
#[local] Existing Instance demo_tx.
#[local] Existing Instance demo_statics.
#[local] Existing Instance fork_crypto.
#[local] Existing Instance no_checkpoints.
#[local] Existing Instance no_games.

(** The payment and the claim wait; then a block with the payment arrives and
    what is left is evaluated again. *)
Definition offered (trx : signed_transaction) (n : node) : node := fst (store_pending_transaction trx false n).
Definition queued : node := offered (demo_claim 1) (offered demo_payment fresh_node).
Definition payment_block : full_block := {|
  fb_header := {| bh_previous := 0; bh_block_num := 1; bh_timestamp := 100000;
                  bh_transaction_digest := foldr Z.add 0 (map trx_id [demo_payment]);
                  bh_next_secret_hash := 1; bh_previous_secret := 0 |};
  fb_delegate_signature := 13; fb_user_transactions := [demo_payment] |}.
Definition requeued : node := fst (revalidate_pending (pushed payment_block queued)).

Example requeued_claim : map trx_id (get_pending_transactions queued) = [trx_id demo_payment; trx_id (demo_claim 1)]
  /\ map trx_id (get_pending_transactions requeued) = [trx_id (demo_claim 1)].
Proof. vm_compute. done. Qed.

Lemma fresh_pool : pool_ok fresh_node.
Proof. apply pool_empty_index; [ reflexivity | ]. intros id trx H. exfalso. exact (lookup_empty_Some _ _ H). Qed.

Lemma requeued_events : rtc node_event fresh_node requeued.
Proof.
  pose proof (event_transaction demo_payment false fresh_node) as E1. fold (offered demo_payment fresh_node) in E1.
  pose proof (event_transaction (demo_claim 1) false (offered demo_payment fresh_node)) as E2.
  fold (offered (demo_claim 1) (offered demo_payment fresh_node)) in E2. fold queued in E2.
  pose proof (event_block payment_block queued) as E3. fold (pushed payment_block queued) in E3.
  pose proof (event_revalidate (pushed payment_block queued)) as E4. fold requeued in E4.
  exact (rtc_l _ _ _ _ E1 (rtc_l _ _ _ _ E2 (rtc_l _ _ _ _ E3 (rtc_once _ _ E4)))).
Qed.

Lemma pool_kept_witness : pool_ok requeued /\ nd_fee_index requeued !! (0, trx_id (demo_claim 1)) = Some (demo_claim 1).
Proof.
  split; [ exact (pool_kept fresh_node requeued requeued_events fresh_pool) | vm_compute; reflexivity ].
Defined.
