(* ===== verification/BlockMaking.v ===== *)
(** A block made of the pool keeps the limits of its delegate, can be
    evaluated transaction by transaction, and its header is accepted by
    [verify_header] in the slot of the delegate. *)

From stdpp Require Import sorting.
From S2P Require Import Prelude StateMonad Asset Names Records ChainInterface EvalState Transaction Tables PendingState ChainDatabase Concrete.
From S2P Require Import Market BlockOps Node ForkDb Undo BlockProps ForkTree ForkDemo Supply Conservation ChainSupply Pool PoolProps.

Section making.
Context `{FcI : Fc} `{Cr : Crypto} `{Tx : TxCrypto} `{St : Statics} `{Sz : Sizes} `{BC : BlockCrypto}.
Context (config : delegate_config).

(** Transactions evaluated one after the other, each with a fee of at least
    the minimum. *)
Inductive evaluated : pending_chain_state chain_database -> list signed_transaction -> pending_chain_state chain_database -> Prop :=
| evaluated_nil p : evaluated p [] p
| evaluated_next p trxs p1 trx e p2 :
    evaluated p trxs p1 ->
    evaluate trx (set_skips false false (transaction_canonical_signatures_required config) (eval_start (pending_empty p1))) = Ok e ->
    transaction_min_fee config <= es_total_base_fees e -> apply_changes (es_state e) = Ok p2 ->
    evaluated p (trxs ++ [trx]) p2.

(** What a delegate lets into its blocks. *)
Definition allowed (trx : signed_transaction) : Prop :=
  data_size trx <= transaction_max_size config /\ trx_id trx ∉ transaction_blacklist config
  /\ Forall (fun op => operation_type op ∉ operation_blacklist config) (tx_operations trx).

Definition total_size (trxs : list signed_transaction) : Z := foldr (fun trx s => data_size trx + s) 0 trxs.

Lemma total_size_app l l' : total_size (l ++ l') = total_size l + total_size l'.
Proof. induction l as [|x l IH]; simpl; lia. Qed.

(** A block in the making: [start] is its state before the transactions, [seen] the transactions looked at. *)
Record drafted (start : pending_chain_state chain_database) (seen : list signed_transaction) (d : draft) : Prop := {
  dr_evaluated : evaluated start d.1.2 d.1.1;
  dr_seen : d.1.2 `sublist_of` seen;
  dr_size : d.2 = empty_block_size + total_size d.1.2;
  dr_limit : d.1.2 <> [] -> d.2 <= block_max_size config;
  dr_allowed : Forall allowed d.1.2 }.

Lemma excluded_false size trx : excluded config size trx = false -> allowed trx /\ size + data_size trx <= block_max_size config.
Proof.
  unfold excluded, allowed. intros H. b2p. split_and!; try lia; [ done | ]. rewrite Forall_forall. intros op Hop Hb.
  match goal with H : existsb _ _ = false |- _ => apply not_true_iff_false in H; apply H end. apply existsb_exists. exists op.
  split; [ by apply list_elem_of_In | by apply bool_decide_eq_true ].
Qed.

Lemma include_transaction_spec trx d r start seen : include_transaction config trx d = Ok r -> excluded config d.2 trx = false ->
  drafted start seen d -> drafted start (seen ++ [trx]) (default d r)
  /\ forall d', r = Some d' -> length d'.1.2 = Datatypes.S (length d.1.2).
Proof.
  destruct d as [[p trxs] sz]. unfold include_transaction. intros H [Ha Hs]%excluded_false [D1 D2 D3 D4 D5]. cbn [fst snd] in *.
  assert (Skip : drafted start (seen ++ [trx]) (p, trxs, sz)) by (split; try done; by apply sublist_inserts_r).
  match type of H with match ?x with _ => _ end = _ => destruct x as [o|ex] eqn:E end; [ | destruct ex; simplify_eq; by split ].
  simplify_eq. inv_ok. match goal with H : evaluate _ _ = Ok ?x |- _ => rename x into e end.
  destruct (Z.ltb_spec (es_total_base_fees e) (transaction_min_fee config)); [ simplify_eq; by split | ]. inv_ok. simplify_eq.
  split; [ | intros d' [= <-]; cbn [fst snd]; rewrite length_app; simpl; lia ].
  cbv [from_option id]. split; cbn [fst snd].
  - by eapply evaluated_next.
  - by apply sublist_app.
  - rewrite total_size_app. simpl. lia.
  - done.
  - by apply Forall_app_2; [ | constructor ].
Qed.

Lemma draft_block_spec late i pool d d' start seen : draft_block config late i pool d = Ok d' ->
  drafted start seen d -> Z.of_nat (length d.1.2) < block_max_transaction_count config ->
  drafted start (seen ++ pool) d' /\ Z.of_nat (length d'.1.2) <= block_max_transaction_count config.
Proof.
  assert (More : forall d seen l, drafted start seen d -> drafted start (seen ++ l) d).
  { intros x y l [H1 H2 H3 H4 H5]. split; try done. by apply sublist_inserts_r. }
  revert i d seen. induction pool as [|trx pool IH]; intros i d seen H D L; cbn [draft_block] in H.
  { simplify_eq. rewrite app_nil_r. split; [ done | lia ]. }
  destruct (late i); [ simplify_eq; split; [ by apply More | lia ] | ].
  replace (seen ++ trx :: pool) with ((seen ++ [trx]) ++ pool) by (by rewrite <- app_assoc).
  destruct (excluded config d.2 trx) eqn:Ex; [ eapply IH; [ exact H | by apply More | done ] | ].
  inv_ok. match goal with H : include_transaction _ _ _ = Ok ?x |- _ => rename x into r; rename H into Hi end.
  destruct (include_transaction_spec _ _ _ start seen Hi Ex D) as [D1 L1].
  destruct r as [d1|]; cbv [from_option id] in D1; [ | by eapply IH ]. specialize (L1 d1 eq_refl).
  destruct (Z.leb_spec (block_max_transaction_count config) (Z.of_nat (length d1.1.2))) as [Hc|Hc].
  - simplify_eq. split; [ by apply More | lia ].
  - eapply IH; [ exact H | done | lia ].
Qed.

(** ** The pool in the order of the fees *)

Lemma pending_ids n : pool_ok n -> NoDup (map trx_id (get_pending_transactions n)).
Proof.
  intros [P1 P2 P3]. unfold get_pending_transactions. set (L := merge_sort _ _).
  assert (HL : forall k, k ∈ L -> is_Some (nd_fee_index n !! k)).
  { intros k. unfold L. rewrite merge_sort_Permutation, list_elem_of_fmap. intros ([k' t] & -> & Hk%elem_of_map_to_list). eauto. }
  assert (ND : NoDup L.*2).
  { apply NoDup_fmap_2_strong; [ | unfold L; rewrite merge_sort_Permutation; apply NoDup_fst_map_to_list ].
    intros [f1 i1] [f2 i2] H1 H2 E. simpl in E. subst i2. f_equal. apply (P3 f1 f2 i1); by apply HL. }
  assert (E : map trx_id (omap (fun k => nd_fee_index n !! k) L) = L.*2); [ | by rewrite E ].
  clear ND. clearbody L. induction L as [|[f i] L IH]; [ done | ]. cbn [omap list_omap]. destruct (HL (f, i) ltac:(by left)) as [t Ht].
  rewrite Ht. cbn [map fmap list_fmap]. f_equal; [ by apply P1, (P2 f) | ]. apply IH. intros k Hk. apply HL. by right.
Qed.

Lemma sublist_map {A B} (f : A -> B) l l' : l `sublist_of` l' -> map f l `sublist_of` map f l'.
Proof. induction 1; cbn [map]; by constructor. Qed.

Lemma generate_block_spec timestamp late n b : generate_block timestamp config late n = Ok b ->
  0 <= block_max_transaction_count config ->
  exists start p, execute_markets (nd_db n) timestamp (pending_empty (nd_db n)) = Ok start
    /\ drafted start (get_pending_transactions n) (p, fb_user_transactions b, empty_block_size + total_size (fb_user_transactions b))
    /\ Z.of_nat (length (fb_user_transactions b)) <= block_max_transaction_count config.
Proof.
  unfold generate_block. intros H Hm. inv_ok. match goal with H : execute_markets _ _ _ = Ok ?x |- _ => rename x into start; rename H into Hx end.
  match goal with H : (if _ then _ else _) = Ok ?x |- _ => destruct x as [[p trxs] size]; rename H into Hd end.
  simplify_eq. cbn [fb_user_transactions fst snd]. exists start, p. split; [ done | ].
  assert (D0 : drafted start [] (start, [], empty_block_size)).
  { split; cbn [fst snd total_size foldr]; [ constructor | constructor | lia | done | constructor ]. }
  match type of Hd with (if ?c then _ else _) = _ => destruct c eqn:Ec end.
  - b2p. destruct (draft_block_spec _ _ _ _ _ start [] Hd D0 ltac:(cbn; lia)) as [D L]. split; [ | exact L ].
    pose proof (dr_size _ _ _ D) as Es. cbn [fst snd] in Es. by subst size.
  - simplify_eq. split; [ | simpl; lia ]. destruct D0 as [D1 D2 D3 D4 D5].
    split; try done. apply sublist_nil_l.
Qed.

(** C9: a block made of the pool keeps its limits: its transactions are some
    of the pool's, in the order of the fees, distinct, each of them allowed
    and paying the minimum fee; one after the other they are evaluated on the
    state the markets leave; their number and their size are within the
    limits. *)
Theorem generated_block_within_limits timestamp late n b (P : pool_ok n) (Hm : 0 <= block_max_transaction_count config)
    (H : generate_block timestamp config late n = Ok b) :
  let trxs := fb_user_transactions b in
  trxs `sublist_of` get_pending_transactions n /\ NoDup (map trx_id trxs) /\ Forall allowed trxs
  /\ Z.of_nat (length trxs) <= block_max_transaction_count config
  /\ (trxs <> [] -> empty_block_size + total_size trxs <= block_max_size config)
  /\ exists start p, execute_markets (nd_db n) timestamp (pending_empty (nd_db n)) = Ok start /\ evaluated start trxs p.
Proof.
  destruct (generate_block_spec _ _ _ _ H Hm) as (start & p & Hx & [D1 D2 D3 D4 D5] & L). cbn [fst snd] in *.
  split_and!; [ done | | done | done | done | by exists start, p ].
  eapply sublist_NoDup; [ by apply pending_ids | by apply sublist_map ].
Qed.
End making.

Section accepted.
Context `{FcI : Fc} `{Cr : Crypto} `{Tx : TxCrypto} `{St : Statics} `{Sz : Sizes} `{BC : BlockCrypto}.

(** a block made of the pool, completed and signed by the delegate of its
    slot, has a header that [verify_header] accepts, whatever the delegate's
    limits: in a slot after the head and not in the future, with the signing
    key of the delegate. *)
Theorem generated_header_accepted config timestamp late n b signed active id r signee (P : pool_ok n)
    (Hm : 0 <= block_max_transaction_count config) (H : generate_block timestamp config late n = Ok b)
    (Hnum : db_head_num (nd_db n) = bh_block_num (nd_head_header n)) (Hu : 0 <= bh_block_num (nd_head_header n))
    (Hroot : bh_block_num (nd_head_header n) = 0 -> nd_head_id n = 0)
    (Hslot : timestamp mod 10 = 0) (Hpast : db_head_timestamp (nd_db n) < timestamp)
    (Hfuture : timestamp <= uwrap32 (db_clock (nd_db n) + 20))
    (Hs : fb_user_transactions signed = fb_user_transactions b
      /\ bh_previous (fb_header signed) = bh_previous (fb_header b) /\ bh_block_num (fb_header signed) = bh_block_num (fb_header b)
      /\ bh_timestamp (fb_header signed) = bh_timestamp (fb_header b)
      /\ bh_transaction_digest (fb_header signed) = bh_transaction_digest (fb_header b))
    (Ha : get_active_delegates (nd_db n) = Ok active) (Hd : slot_delegate active timestamp = Some id)
    (Hr : get_account_record (nd_db n) id = Some r) (Hdel : is_delegate r = true) (Hk : signing_key r = Ok signee) :
  verify_header (nd_db n) (nd_head_id n) signed signee = Ok tt.
Proof.
  assert (ND : NoDup (map trx_id (fb_user_transactions b))).
  { destruct (generate_block_spec config _ _ _ _ H Hm) as (start & p & _ & [_ D2 _ _ _] & _).
    eapply sublist_NoDup; [ by apply pending_ids | apply sublist_map, D2 ]. }
  unfold generate_block in H. inv_ok.
  destruct Hs as (S1 & S2 & S3 & S4 & S5). apply verify_header_iff. rewrite S1, S2, S3, S4, S5. cbn [fb_header fb_user_transactions bh_block_num bh_previous bh_timestamp bh_transaction_digest] in *.
  split_and!; try done.
  - intros _. by rewrite Hnum.
  - destruct (Z.ltb_spec 0 (bh_block_num (nd_head_header n))); [ done | ]. symmetry. apply Hroot. lia.
  - by exists active, id, r.
Qed.
End accepted.

(** ** A block of the concrete pool *)

#[local] Existing Instance demo_crypto.
#[local] Existing Instance demo_tx.
#[local] Existing Instance demo_statics.
#[local] Existing Instance fork_crypto.
#[local] Existing Instance no_checkpoints.
#[local] Existing Instance no_games.

Definition demo_sizes : Sizes := {| data_size := fun t => 100 + 50 * Z.of_nat (length (tx_operations t)); empty_block_size := 60 |}.
#[local] Existing Instance demo_sizes.

Definition demo_config (max_size : Z) : delegate_config := {|
  block_max_transaction_count := 5; block_max_size := max_size; transaction_max_size := 400;
  transaction_canonical_signatures_required := false; transaction_min_fee := 0;
  transaction_blacklist := ∅; operation_blacklist := {[ 29 ]} |}.
Definition demo_generated (max_size : Z) : full_block :=
  ok_or payment_block (generate_block 100000 (demo_config max_size) (fun _ => false) queued).

(** The claim alone is not valid: with room for 300 bytes after an empty
    block only the payment is taken, with 500 both are. *)
Example generated_transactions :
  map trx_id (fb_user_transactions (demo_generated 400)) = [trx_id demo_payment]
  /\ map trx_id (fb_user_transactions (demo_generated 560)) = [trx_id demo_payment; trx_id (demo_claim 1)].
Proof. vm_compute. done. Qed.

Lemma offered_pool trx n : pool_ok n -> pool_ok (offered trx n).
Proof. intros P. exact (pool_store_pending trx false n _ _ (surjective_pairing _) P). Qed.

Lemma queued_pool : pool_ok queued.
Proof. exact (offered_pool _ _ (offered_pool _ _ fresh_pool)). Qed.

Lemma demo_generated_ok : generate_block 100000 (demo_config 560) (fun _ => false) queued = Ok (demo_generated 560).
Proof.
  unfold demo_generated. apply ok_or_is_ok. vm_compute. reflexivity.
Qed.

Lemma generated_block_within_limits_witness :
  NoDup (map trx_id (fb_user_transactions (demo_generated 560)))
  /\ empty_block_size + total_size (fb_user_transactions (demo_generated 560)) <= 560.
Proof.
  destruct (generated_block_within_limits (demo_config 560) 100000 (fun _ => false) queued (demo_generated 560)) as (_ & ND & _ & _ & L & _).
  - exact queued_pool.
  - discriminate.
  - exact demo_generated_ok.
  - split; [ exact ND | ]. apply L. vm_compute. discriminate.
Defined.

Definition demo_signed : full_block := {|
  fb_header := {| bh_previous := 0; bh_block_num := 1; bh_timestamp := 100000;
                  bh_transaction_digest := bh_transaction_digest (fb_header (demo_generated 560));
                  bh_next_secret_hash := 1; bh_previous_secret := 0 |};
  fb_delegate_signature := 13; fb_user_transactions := fb_user_transactions (demo_generated 560) |}.

Lemma generated_header_accepted_witness :
  verify_header (nd_db queued) (nd_head_id queued) demo_signed 13 = Ok tt
  /\ nd_head_id (pushed demo_signed queued) = full_block_id demo_signed.
Proof.
  split; [ | vm_compute; reflexivity ].
  apply (generated_header_accepted (demo_config 560) 100000 (fun _ => false) queued (demo_generated 560) demo_signed (replicate 101 1) 1 alice).
  - exact queued_pool.
  - discriminate.
  - exact demo_generated_ok.
  - vm_compute. reflexivity.
  - vm_compute. discriminate.
  - intros _. vm_compute. reflexivity.
  - reflexivity.
  - vm_compute. reflexivity.
  - vm_compute. discriminate.
  - split_and!; vm_compute; reflexivity.
  - vm_compute. reflexivity.
  - vm_compute. reflexivity.
  - vm_compute. reflexivity.
  - vm_compute. reflexivity.
  - vm_compute. reflexivity.
Defined.
