(* ===== verification/Storage.v ===== *)
(** The maps in which a chain is kept: a map on disk, the map with a cache and
    delayed writes, and the map whose file can be switched off
    (libraries/db: level_map.hpp, cached_level_map.hpp, fast_level_map.hpp).

    LevelDB is documented to keep a sorted map that survives the process, with
    puts, deletes and atomic batches; a [level_map] is such a map and whether it
    is open. Failures of the disk, the encoding of keys and values, the upgrade
    of old records and the export to JSON are left out. *)

From stdpp Require Import sorting.
From S2P Require Import Prelude.

(** ** Maps on disk (level_map.hpp) *)

(** The files at the path of the map, when there are any. *)
Record level_map (K V : Type) `{Countable K} := { lm_files : option (gmap K V); lm_is_open : bool }.
Arguments Build_level_map {K V _ _} _ _.
Arguments lm_files {K V _ _} _.
Arguments lm_is_open {K V _ _} _.

Section level_map.
Context {K V : Type} `{Countable K}.
Implicit Types (m : level_map K V) (k : K) (v : V).

Definition level_map_empty : level_map K V := Build_level_map None false.

Definition lm_open m : result (level_map K V) :=
  _ <- fc_assert (negb (lm_is_open m)) ;;
  Ok (Build_level_map (Some (default ∅ (lm_files m))) true).
Definition lm_close m : level_map K V := Build_level_map (lm_files m) false.

(** The contents of an open map. *)
Definition lm_contents m : result (gmap K V) :=
  _ <- fc_assert (lm_is_open m) ;;
  from_option_or undefined_behaviour (lm_files m).

Definition lm_fetch_optional k m : result (option V) := c <- lm_contents m ;; Ok (c !! k).
Definition lm_fetch k m : result V := c <- lm_contents m ;; from_option_or key_not_found_exception (c !! k).
Definition lm_store k v m : result (level_map K V) := c <- lm_contents m ;; Ok (Build_level_map (Some (<[k := v]> c)) true).
Definition lm_remove k m : result (level_map K V) := c <- lm_contents m ;; Ok (Build_level_map (Some (delete k c)) true).

(** [write_batch]: puts and deletes in their order. *)
Definition write_batch : Type := list (K * option V).
Definition batch_write (w : K * option V) (c : gmap K V) : gmap K V :=
  match snd w with Some v => <[fst w := v]> c | None => delete (fst w) c end.
Definition lm_commit (batch : write_batch) m : result (level_map K V) :=
  c <- lm_contents m ;; Ok (Build_level_map (Some (foldl (fun c w => batch_write w c) c batch)) true).

(** The process ends: what is on disk stays. *)
Definition lm_restart m : level_map K V := lm_close m.

(** *** In the order of the keys *)
Context (le : relation K) `{!RelDecision le}.

Definition items (c : gmap K V) : list (K * V) := omap (fun k => pair k <$> c !! k) (merge_sort le (map_to_list c).*1).
Definition lm_begin m : result (list (K * V)) := c <- lm_contents m ;; Ok (items c).
Definition lm_lower_bound k m : result (list (K * V)) :=
  c <- lm_contents m ;; Ok (items (filter (fun kv => le k (fst kv)) c)).
Definition lm_last m : result (option (K * V)) := c <- lm_contents m ;; Ok (list.last (items c)).
Definition lm_size m : result nat := l <- lm_begin m ;; Ok (length l).
End level_map.

(** ** A cache in front (cached_level_map.hpp) *)

Record cached_level_map (K V : Type) `{Countable K} := mk_cached {
  cl_db : level_map K V;
  cl_cache : gmap K V;
  cl_dirty_store : gset K;
  cl_dirty_remove : gset K;
  cl_write_through : bool }.
Arguments mk_cached {K V _ _} _ _ _ _ _.
Arguments cl_db {K V _ _} _.
Arguments cl_cache {K V _ _} _.
Arguments cl_dirty_store {K V _ _} _.
Arguments cl_dirty_remove {K V _ _} _.
Arguments cl_write_through {K V _ _} _.

Section cached.
Context {K V : Type} `{Countable K}.
Implicit Types (m : cached_level_map K V) (k : K) (v : V).

Definition cached_empty : cached_level_map K V := mk_cached level_map_empty ∅ ∅ ∅ true.

(** [emplace_hint] keeps an entry that is there. *)
Definition cl_open (write_through : bool) m : cached_level_map K V * result unit :=
  match lm_open (cl_db m) with
  | Throw e => (m, Throw e)
  | Ok db =>
      (mk_cached db (cl_cache m ∪ default ∅ (lm_files db)) (cl_dirty_store m) (cl_dirty_remove m) write_through, Ok tt)
  end.

(** The batch for the keys to store: up to a key the cache does not have. *)
Fixpoint batch_of (cache : gmap K V) (keys : list K) : write_batch * option exception :=
  match keys with
  | [] => ([], None)
  | k :: keys =>
      match cache !! k with
      | Some v => let '(batch, e) := batch_of cache keys in ((k, Some v) :: batch, e)
      | None => ([], Some out_of_range)
      end
  end.

(** A batch that is left by an exception is committed by its destructor. *)
Definition cl_flush m : cached_level_map K V * result unit :=
  if lm_is_open (cl_db m) then
    let '(batch, e) := batch_of (cl_cache m) (elements (cl_dirty_store m)) in
    match e with
    | Some e =>
        (mk_cached (match lm_commit batch (cl_db m) with Ok db => db | Throw _ => cl_db m end)
           (cl_cache m) (cl_dirty_store m) (cl_dirty_remove m) (cl_write_through m), Throw e)
    | None =>
        match lm_commit (batch ++ map (fun k => (k, None)) (elements (cl_dirty_remove m))) (cl_db m) with
        | Ok db => (mk_cached db (cl_cache m) ∅ ∅ (cl_write_through m), Ok tt)
        | Throw e => (m, Throw e)
        end
    end
  else (m, Throw assert_exception).

Definition cl_close m : cached_level_map K V * result unit :=
  let '(m, r) := if lm_is_open (cl_db m) then cl_flush m else (m, Ok tt) in
  match r with
  | Ok _ => (mk_cached (lm_close (cl_db m)) ∅ ∅ ∅ (cl_write_through m), Ok tt)
  | Throw e => (m, Throw e)
  end.

Definition cl_set_write_through (write_through : bool) m : cached_level_map K V * result unit :=
  if eqb write_through (cl_write_through m) then (m, Ok tt)
  else
    let '(m, r) := if write_through then cl_flush m else (m, Ok tt) in
    match r with
    | Ok _ => (mk_cached (cl_db m) (cl_cache m) (cl_dirty_store m) (cl_dirty_remove m) write_through, Ok tt)
    | Throw e => (m, Throw e)
    end.

Definition cl_fetch_optional k m : option V := cl_cache m !! k.
Definition cl_fetch k m : result V := from_option_or key_not_found_exception (cl_cache m !! k).

(** The cache is written before the disk. *)
Definition cl_store k v m : cached_level_map K V * result unit :=
  let cache := <[k := v]> (cl_cache m) in
  if cl_write_through m then
    match lm_store k v (cl_db m) with
    | Ok db => (mk_cached db cache (cl_dirty_store m) (cl_dirty_remove m) (cl_write_through m), Ok tt)
    | Throw e => (mk_cached (cl_db m) cache (cl_dirty_store m) (cl_dirty_remove m) (cl_write_through m), Throw e)
    end
  else
    (mk_cached (cl_db m) cache ({[ k ]} ∪ cl_dirty_store m) (cl_dirty_remove m ∖ {[ k ]}) (cl_write_through m), Ok tt).

Definition cl_remove k m : cached_level_map K V * result unit :=
  let cache := delete k (cl_cache m) in
  if cl_write_through m then
    match lm_remove k (cl_db m) with
    | Ok db => (mk_cached db cache (cl_dirty_store m) (cl_dirty_remove m) (cl_write_through m), Ok tt)
    | Throw e => (mk_cached (cl_db m) cache (cl_dirty_store m) (cl_dirty_remove m) (cl_write_through m), Throw e)
    end
  else
    (mk_cached (cl_db m) cache (cl_dirty_store m ∖ {[ k ]}) ({[ k ]} ∪ cl_dirty_remove m) (cl_write_through m), Ok tt).

Definition cl_size m : nat := size (cl_cache m).

(** The process ends without [close]; the next one starts with the defaults. *)
Definition cl_restart m : cached_level_map K V := mk_cached (lm_restart (cl_db m)) ∅ ∅ ∅ true.

Context (le : relation K) `{!RelDecision le}.
Definition cl_begin m : list (K * V) := items le (cl_cache m).
Definition cl_last m : option (K * V) := list.last (cl_begin m).
Definition cl_lower_bound k m : list (K * V) := items le (filter (fun kv => le k (fst kv)) (cl_cache m)).
End cached.

(** ** A map whose file can be switched off (fast_level_map.hpp) *)

Record fast_level_map (K V : Type) `{Countable K} := mk_fast {
  fl_ldb : level_map K V;
  (** whether [_ldb_path] is set *)
  fl_has_path : bool;
  fl_ldb_enabled : bool;
  fl_cache : gmap K V }.
Arguments mk_fast {K V _ _} _ _ _ _.
Arguments fl_ldb {K V _ _} _.
Arguments fl_has_path {K V _ _} _.
Arguments fl_ldb_enabled {K V _ _} _.
Arguments fl_cache {K V _ _} _.

Section fast.
Context {K V : Type} `{Countable K}.
Implicit Types (m : fast_level_map K V) (k : K) (v : V).

Definition fast_empty : fast_level_map K V := mk_fast level_map_empty false true ∅.

Definition fl_open m : fast_level_map K V * result unit :=
  if fl_has_path m then (m, Throw assert_exception)
  else
    match lm_open (fl_ldb m) with
    | Ok ldb => (mk_fast ldb true (fl_ldb_enabled m) (fl_cache m ∪ default ∅ (lm_files ldb)), Ok tt)
    | Throw e => (mk_fast (fl_ldb m) true (fl_ldb_enabled m) (fl_cache m), Throw e)
    end.

Definition fl_toggle_leveldb (enabled : bool) m : fast_level_map K V * result unit :=
  if negb (fl_has_path m) then (m, Throw assert_exception)
  else if eqb enabled (fl_ldb_enabled m) then (m, Ok tt)
  else if enabled then
    let batch := map (fun kv => (fst kv, Some (snd kv))) (map_to_list (fl_cache m)) in
    match lm_open (fl_ldb m) with
    | Throw e => (m, Throw e)
    | Ok ldb =>
        match lm_commit batch ldb with
        | Ok ldb => (mk_fast ldb true enabled (fl_cache m), Ok tt)
        | Throw e => (mk_fast ldb true (fl_ldb_enabled m) (fl_cache m), Throw e)
        end
    end
  else
    (** closed, then all files are removed *)
    (mk_fast (Build_level_map None false) true enabled (fl_cache m), Ok tt).

Definition fl_close m : fast_level_map K V * result unit :=
  if fl_has_path m then
    let '(m, r) := if fl_ldb_enabled m then (m, Ok tt) else fl_toggle_leveldb true m in
    match r with
    | Ok _ => (mk_fast (lm_close (fl_ldb m)) false (fl_ldb_enabled m) ∅, Ok tt)
    | Throw e => (m, Throw e)
    end
  else (mk_fast (fl_ldb m) false (fl_ldb_enabled m) ∅, Ok tt).

Definition fl_store k v m : fast_level_map K V * result unit :=
  let cache := <[k := v]> (fl_cache m) in
  if fl_ldb_enabled m then
    match lm_store k v (fl_ldb m) with
    | Ok ldb => (mk_fast ldb (fl_has_path m) (fl_ldb_enabled m) cache, Ok tt)
    | Throw e => (mk_fast (fl_ldb m) (fl_has_path m) (fl_ldb_enabled m) cache, Throw e)
    end
  else (mk_fast (fl_ldb m) (fl_has_path m) (fl_ldb_enabled m) cache, Ok tt).

Definition fl_remove k m : fast_level_map K V * result unit :=
  let cache := delete k (fl_cache m) in
  if fl_ldb_enabled m then
    match lm_remove k (fl_ldb m) with
    | Ok ldb => (mk_fast ldb (fl_has_path m) (fl_ldb_enabled m) cache, Ok tt)
    | Throw e => (mk_fast (fl_ldb m) (fl_has_path m) (fl_ldb_enabled m) cache, Throw e)
    end
  else (mk_fast (fl_ldb m) (fl_has_path m) (fl_ldb_enabled m) cache, Ok tt).

Definition fl_empty m : bool := (size (fl_cache m) =? 0)%nat.
Definition fl_size m : nat := size (fl_cache m).
Definition fl_count k m : nat := match fl_cache m !! k with Some _ => 1 | None => 0 end.
Definition fl_unordered_find k m : option V := fl_cache m !! k.

(** The ordered accessors read the disk. *)
Context (le : relation K) `{!RelDecision le}.
Definition fl_ordered_first m : result (list (K * V)) := lm_begin le (fl_ldb m).
Definition fl_ordered_last m : result (option (K * V)) := lm_last le (fl_ldb m).
Definition fl_ordered_lower_bound k m : result (list (K * V)) := lm_lower_bound le k (fl_ldb m).

(** The process ends without [close]. *)
Definition fl_restart m : fast_level_map K V := mk_fast (lm_restart (fl_ldb m)) false true ∅.
End fast.
