(* ===== verification/StorageProps.v ===== *)
(** The maps of libraries/db keep what is stored in them: both implementations
    refine a map with a copy that survives the end of the process, whatever is
    stored, removed, switched, closed or interrupted. *)

From stdpp Require Import sorting.
From S2P Require Import Prelude Storage.

(** ** What a map promises

    The contents, the contents that the next process will find after this one
    is killed, and whether changes are written at once. *)

Record kept (K V : Type) `{Countable K} := mk_kept { kp_current : gmap K V; kp_saved : gmap K V; kp_through : bool }.
Arguments mk_kept {K V _ _} _ _ _.
Arguments kp_current {K V _ _} _.
Arguments kp_saved {K V _ _} _.
Arguments kp_through {K V _ _} _.

Inductive command (K V : Type) :=
  | cmd_store (k : K) (v : V)
  | cmd_remove (k : K)
  | cmd_write_through (through : bool)
  | cmd_reopen
  | cmd_kill.
Arguments cmd_store {K V} _ _.
Arguments cmd_remove {K V} _.
Arguments cmd_write_through {K V} _.
Arguments cmd_reopen {K V}.
Arguments cmd_kill {K V}.

Section kept.
Context {K V : Type} `{Countable K}.

Definition kept_fresh : kept K V := mk_kept ∅ ∅ true.

Definition kept_change (f : gmap K V -> gmap K V) (s : kept K V) : kept K V :=
  mk_kept (f (kp_current s)) (if kp_through s then f (kp_current s) else kp_saved s) (kp_through s).

(** [off] is what is saved when writing at once is switched off; switching it
    on saves everything, and so does closing. A killed process leaves what was
    saved, and the next one writes at once. *)
Definition kept_step (off : gmap K V -> gmap K V) (c : command K V) (s : kept K V) : kept K V :=
  match c with
  | cmd_store k v => kept_change (insert k v) s
  | cmd_remove k => kept_change (delete k) s
  | cmd_write_through through =>
      if eqb through (kp_through s) then s
      else mk_kept (kp_current s) (if through then kp_current s else off (kp_saved s)) through
  | cmd_reopen => mk_kept (kp_current s) (kp_current s) true
  | cmd_kill => mk_kept (kp_saved s) (kp_saved s) true
  end.
Definition kept_run (off : gmap K V -> gmap K V) (cs : list (command K V)) (s : kept K V) : kept K V :=
  foldl (fun s c => kept_step off c s) s cs.
End kept.

(** ** An implementation: its operations, and the contents it shows *)

Class MapStore (K V M : Type) `{Countable K} := {
  ms_run : command K V -> M -> M * result unit;
  ms_lookup : K -> M -> option V;
  ms_off : gmap K V -> gmap K V }.
Class MapStoreSpec (K V M : Type) `{MapStore K V M} := {
  ms_rel : M -> kept K V -> Prop;
  ms_rel_lookup m s k : ms_rel m s -> ms_lookup k m = kp_current s !! k;
  ms_rel_run m s c : ms_rel m s -> exists m', ms_run c m = (m', Ok tt) /\ ms_rel m' (kept_step ms_off c s) }.

Section simulation.
Context {K V M : Type} `{MapStoreSpec K V M}.

(** Commands one after the other, up to the first that throws. *)
Fixpoint ms_runs (cs : list (command K V)) (m : M) : M * result unit :=
  match cs with
  | [] => (m, Ok tt)
  | c :: cs => let '(m, r) := ms_run c m in match r with Ok _ => ms_runs cs m | Throw e => (m, Throw e) end
  end.

Lemma ms_simulation cs m s : ms_rel m s ->
  exists m', ms_runs cs m = (m', Ok tt) /\ ms_rel m' (kept_run ms_off cs s).
Proof.
  revert m s. induction cs as [|c cs IH]; intros m s R; [ by exists m | ].
  destruct (ms_rel_run m s c R) as (m1 & E & R1). cbn [ms_runs]. rewrite E. apply IH, R1.
Qed.
End simulation.

(** ** The cached map *)

Section cached.
Context {K V : Type} `{Countable K}.
Implicit Types (m : cached_level_map K V) (s : kept K V).

Definition cl_run (c : command K V) (m : cached_level_map K V) : cached_level_map K V * result unit :=
  match c with
  | cmd_store k v => cl_store k v m
  | cmd_remove k => cl_remove k m
  | cmd_write_through through => cl_set_write_through through m
  | cmd_reopen => let '(m, r) := cl_close m in match r with Ok _ => cl_open true m | Throw e => (m, Throw e) end
  | cmd_kill => cl_open true (cl_restart m)
  end.
#[export] Instance cached_store : MapStore K V (cached_level_map K V) :=
  { ms_run := cl_run; ms_lookup := cl_fetch_optional; ms_off := id }.

(** The keys on which the cache and the disk may differ are the dirty ones. *)
Record cached_rel m s : Prop := {
  cr_open : lm_is_open (cl_db m) = true;
  cr_cache : cl_cache m = kp_current s;
  cr_files : lm_files (cl_db m) = Some (kp_saved s);
  cr_through : cl_write_through m = kp_through s;
  cr_clean : kp_through s = true -> cl_dirty_store m = ∅ /\ cl_dirty_remove m = ∅;
  cr_stored : forall k, k ∈ cl_dirty_store m -> is_Some (kp_current s !! k);
  cr_removed : forall k, k ∈ cl_dirty_remove m -> kp_current s !! k = None;
  cr_same : forall k, k ∉ cl_dirty_store m -> k ∉ cl_dirty_remove m -> kp_current s !! k = kp_saved s !! k }.

Lemma cached_through m s : cached_rel m s -> kp_through s = true -> kp_saved s = kp_current s.
Proof.
  intros R T. destruct (cr_clean _ _ R T) as [E1 E2]. apply map_eq. intros k. symmetry.
  apply (cr_same _ _ R); rewrite ?E1, ?E2; set_solver.
Qed.

Lemma batch_of_ok (cache : gmap K V) keys : (forall k, k ∈ keys -> is_Some (cache !! k)) ->
  exists batch, batch_of cache keys = (batch, None) /\
  forall c k, foldl (fun c w => batch_write w c) c batch !! k = if bool_decide (k ∈ keys) then cache !! k else c !! k.
Proof.
  induction keys as [|x keys IH]; intros Hk; [ exists []; split; [ done | ]; intros c k; by rewrite bool_decide_eq_false_2 by set_solver | ].
  destruct (Hk x ltac:(by left)) as [v Hv]. destruct IH as (batch & E & F); [ intros k ?; apply Hk; by right | ].
  exists ((x, Some v) :: batch). cbn [batch_of]. rewrite Hv, E. split; [ done | ]. intros c k. cbn [foldl]. rewrite F. unfold batch_write. simpl.
  rewrite lookup_insert. repeat case_bool_decide; repeat case_decide; simplify_eq; set_solver.
Qed.

Lemma foldl_deletes (keys : list K) (c : gmap K V) k :
  foldl (fun c w => batch_write w c) c (map (fun k => (k, None)) keys) !! k = if bool_decide (k ∈ keys) then None else c !! k.
Proof.
  revert c. induction keys as [|x keys IH]; intros c; [ by rewrite bool_decide_eq_false_2 by set_solver | ].
  cbn [map foldl]. rewrite IH. unfold batch_write. simpl. rewrite lookup_delete.
  repeat case_bool_decide; repeat case_decide; simplify_eq; set_solver.
Qed.

(** Flushing writes the cache to the disk. *)
Lemma cl_flush_ok m s : cached_rel m s ->
  cl_flush m = (mk_cached (Build_level_map (Some (kp_current s)) true) (kp_current s) ∅ ∅ (kp_through s), Ok tt).
Proof.
  intros [Op Ca Fi Th Cl St Re Sa]. unfold cl_flush. rewrite Op.
  destruct (batch_of_ok (cl_cache m) (elements (cl_dirty_store m))) as (batch & E & F).
  { intros k Hk%elem_of_elements. rewrite Ca. by apply St. }
  rewrite E. unfold lm_commit, lm_contents. rewrite Op, Fi. cbn [fc_assert rbind from_option_or]. rewrite Ca, Th. do 4 f_equal.
  apply map_eq. intros k. rewrite foldl_app, foldl_deletes, F, Ca.
  destruct (bool_decide (k ∈ elements (cl_dirty_remove m))) eqn:Er.
  { symmetry. apply Re. by apply bool_decide_eq_true, elem_of_elements in Er. }
  destruct (bool_decide (k ∈ elements (cl_dirty_store m))) eqn:Es; [ done | ]. symmetry. apply Sa.
  - by apply bool_decide_eq_false in Es; rewrite elem_of_elements in Es.
  - by apply bool_decide_eq_false in Er; rewrite elem_of_elements in Er.
Qed.

Lemma cached_clean (c : gmap K V) t : cached_rel (mk_cached (Build_level_map (Some c) true) c ∅ ∅ t) (mk_kept c c t).
Proof. split; try done; set_solver. Qed.

Lemma cl_open_restarted m c : lm_files (cl_db m) = Some c ->
  cl_open true (cl_restart m) = (mk_cached (Build_level_map (Some c) true) c ∅ ∅ true, Ok tt).
Proof. intros E. unfold cl_open, cl_restart, lm_restart, lm_close, lm_open. simpl. rewrite E. simpl. by rewrite (left_id_L ∅ (∪)). Qed.

Lemma cached_change m s k (o : option V) : cached_rel m s ->
  exists m', match o with Some v => cl_store k v m | None => cl_remove k m end = (m', Ok tt)
    /\ cached_rel m' (kept_change (fun c => match o with Some v => <[k := v]> c | None => delete k c end) s).
Proof.
  intros R. pose proof (cached_through _ _ R) as HT. destruct R as [Op Ca Fi Th Cl St Re Sa].
  destruct m as [[files op] cache ds dr wt], s as [cur sav thr]. simpl in *. subst.
  unfold cl_store, cl_remove, kept_change, lm_store, lm_remove, lm_contents. simpl.
  destruct thr.
  - destruct (Cl eq_refl) as [-> ->]. rewrite HT by done. destruct o as [v|]; eexists; (split; [ reflexivity | ]); split; simpl; try done; set_solver.
  - destruct o as [v|]; eexists; (split; [ reflexivity | ]); split; simpl; try done; intros x; rewrite ?lookup_insert, ?lookup_delete; case_decide; subst; set_solver.
Qed.

#[export, program] Instance cached_spec : MapStoreSpec K V (cached_level_map K V) := { ms_rel := cached_rel }.
Next Obligation. intros m s k R. simpl. unfold cl_fetch_optional. by rewrite (cr_cache _ _ R). Qed.
Next Obligation.
  intros m s c R. destruct c as [k v|k|t| |]; cbn [ms_run cached_store cl_run ms_off kept_step].
  - exact (cached_change m s k (Some v) R).
  - exact (cached_change m s k None R).
  - unfold cl_set_write_through. rewrite (cr_through _ _ R).
    destruct (eqb t (kp_through s)) eqn:Et; [ by exists m | ]. destruct t.
    + rewrite (cl_flush_ok _ _ R). eexists. split; [ done | ]. apply cached_clean.
    + eexists. split; [ done | ]. destruct (kp_through s) eqn:Ht; [ | done ]. destruct R. split; simpl; done.
  - unfold cl_close. rewrite (cr_open _ _ R), (cl_flush_ok _ _ R). unfold lm_close. simpl. unfold cl_open, lm_open. simpl.
    rewrite (left_id_L ∅ (∪)). eexists. split; [ done | ]. apply cached_clean.
  - rewrite (cl_open_restarted m _ (cr_files _ _ R)). eexists. split; [ done | ]. apply cached_clean.
Qed.

Lemma cached_starts : exists m, cl_open true cached_empty = (m, Ok tt) /\ cached_rel m kept_fresh.
Proof. eexists. split; [ done | ]. apply cached_clean. Qed.
End cached.

(** ** The map whose file can be switched off *)

Section fast.
Context {K V : Type} `{Countable K}.
Implicit Types (m : fast_level_map K V) (s : kept K V).

Definition fl_run (c : command K V) (m : fast_level_map K V) : fast_level_map K V * result unit :=
  match c with
  | cmd_store k v => fl_store k v m
  | cmd_remove k => fl_remove k m
  | cmd_write_through through => fl_toggle_leveldb through m
  | cmd_reopen => let '(m, r) := fl_close m in match r with Ok _ => fl_open m | Throw e => (m, Throw e) end
  | cmd_kill => fl_open (fl_restart m)
  end.

(** Switching the file off removes it. *)
#[export] Instance fast_store : MapStore K V (fast_level_map K V) :=
  { ms_run := fl_run; ms_lookup := fl_unordered_find; ms_off := fun _ => ∅ }.

Record fast_rel m s : Prop := {
  fr_path : fl_has_path m = true;
  fr_cache : fl_cache m = kp_current s;
  fr_enabled : fl_ldb_enabled m = kp_through s;
  fr_on : kp_through s = true -> fl_ldb m = Build_level_map (Some (kp_current s)) true /\ kp_saved s = kp_current s;
  fr_off : kp_through s = false -> fl_ldb m = Build_level_map None false /\ kp_saved s = ∅ }.

Lemma fast_clean (c : gmap K V) : fast_rel (mk_fast (Build_level_map (Some c) true) true true c) (mk_kept c c true).
Proof. by split. Qed.

Lemma foldl_puts (c : gmap K V) :
  foldl (fun c w => batch_write w c) ∅ (map (fun kv => (fst kv, Some (snd kv))) (map_to_list c)) = c.
Proof.
  assert (E : forall (l : list (K * V)) (d : gmap K V), NoDup l.*1 ->
    foldl (fun c w => batch_write w c) d (map (fun kv => (fst kv, Some (snd kv))) l) = list_to_map l ∪ d).
  { intros l. induction l as [|[k v] l IH]; intros d ND; [ simpl; by rewrite map_empty_union | ].
    cbn [fmap list_fmap fst] in ND. apply NoDup_cons in ND as [Hk ND]. cbn [map foldl list_to_map foldr]. rewrite IH by done. unfold batch_write. simpl.
    apply not_elem_of_list_to_map_1 in Hk. rewrite <- insert_union_r by done. by rewrite insert_union_l. }
  rewrite E by apply NoDup_fst_map_to_list. by rewrite map_union_empty, list_to_map_to_list.
Qed.

(** Switching the file on writes the cache to it. *)
Lemma fl_toggle_on m s : fast_rel m s ->
  (if fl_ldb_enabled m then (m, Ok tt) else fl_toggle_leveldb true m)
  = (mk_fast (Build_level_map (Some (kp_current s)) true) true true (kp_current s), Ok tt).
Proof.
  destruct m as [l p en cache], s as [cur sav t]. intros [Pa Ca En On Off]. simpl in *. subst. destruct t.
  - by destruct (On eq_refl) as [-> _].
  - destruct (Off eq_refl) as [-> _]. unfold fl_toggle_leveldb, lm_open, lm_commit, lm_contents. simpl. by rewrite foldl_puts.
Qed.

Lemma fl_open_closed (c : gmap K V) : fl_open (mk_fast (Build_level_map (Some c) false) false true ∅)
  = (mk_fast (Build_level_map (Some c) true) true true c, Ok tt).
Proof. unfold fl_open, lm_open. simpl. by rewrite (left_id_L ∅ (∪)). Qed.

Lemma fast_change m s k (o : option V) : fast_rel m s ->
  exists m', match o with Some v => fl_store k v m | None => fl_remove k m end = (m', Ok tt)
    /\ fast_rel m' (kept_change (fun c => match o with Some v => <[k := v]> c | None => delete k c end) s).
Proof.
  destruct m as [l p en cache], s as [cur sav t]. intros [Pa Ca En On Off]. simpl in *. subst.
  unfold fl_store, fl_remove, kept_change, lm_store, lm_remove, lm_contents. simpl. destruct t.
  - destruct (On eq_refl) as [-> ->]. destruct o; eexists; (split; [ reflexivity | by split ]).
  - destruct (Off eq_refl) as [-> ->]. destruct o; eexists; (split; [ reflexivity | by split ]).
Qed.

#[export, program] Instance fast_spec : MapStoreSpec K V (fast_level_map K V) := { ms_rel := fast_rel }.
Next Obligation. intros m s k R. simpl. unfold fl_unordered_find. by rewrite (fr_cache _ _ R). Qed.
Next Obligation.
  intros m s c R. destruct c as [k v|k|t| |]; cbn [ms_run fast_store fl_run ms_off kept_step].
  - exact (fast_change m s k (Some v) R).
  - exact (fast_change m s k None R).
  - destruct t.
    + pose proof (fl_toggle_on m s R) as E. unfold fl_toggle_leveldb in *. rewrite (fr_path _ _ R), (fr_enabled _ _ R) in *. simpl in *.
      destruct (kp_through s) eqn:T; [ by exists m | ]. eexists. split; [ exact E | apply fast_clean ].
    + unfold fl_toggle_leveldb. rewrite (fr_path _ _ R), (fr_enabled _ _ R). simpl.
      destruct (kp_through s) eqn:T; [ | by exists m ]. eexists. split; [ done | ]. split; try done. apply R.
  - unfold fl_close. rewrite (fr_path _ _ R), (fl_toggle_on _ _ R). unfold lm_close. simpl. rewrite fl_open_closed.
    eexists. split; [ done | apply fast_clean ].
  - destruct m as [l p en cache], s as [cur sav t]. destruct R as [Pa Ca En On Off]. simpl in *. subst.
    destruct t.
    + destruct (On eq_refl) as [-> ->]. change (fl_restart _) with (mk_fast (Build_level_map (Some cur) false) false true ∅). rewrite fl_open_closed. eexists. split; [ done | apply fast_clean ].
    + destruct (Off eq_refl) as [-> ->]. unfold fl_restart, lm_restart, lm_close, fl_open, lm_open. simpl. rewrite map_empty_union. eexists. split; [ done | apply fast_clean ].
Qed.

Lemma fast_starts : exists m, fl_open fast_empty = (m, Ok tt) /\ fast_rel m kept_fresh.
Proof. eexists. split; [ done | ]. apply fast_clean. Qed.

(** The ordered accessors need the file. *)
Lemma fast_ordered (le : relation K) `{!RelDecision le} m s : fast_rel m s ->
  fl_ordered_first le m = if kp_through s then Ok (items le (fl_cache m)) else Throw assert_exception.
Proof.
  destruct m as [l p en cache], s as [cur sav t]. intros [Pa Ca En On Off]. simpl in *. subst.
  unfold fl_ordered_first, lm_begin, lm_contents. simpl. destruct t; [ by destruct (On eq_refl) as [-> _] | by destruct (Off eq_refl) as [-> _] ].
Qed.
End fast.

(** ** Both maps *)

Section maps.
Context {K V : Type} `{Countable K}.

(** What a map shows after the commands, and what the next process finds when
    this one is killed then. *)
Definition keeps_contents (M : Type) `{MapStore K V M} (opened : M) (cs : list (command K V)) : Prop :=
  let s := kept_run ms_off cs kept_fresh in
  exists m m', ms_runs cs opened = (m, Ok tt) /\ ms_run cmd_kill m = (m', Ok tt)
    /\ (forall k, ms_lookup k m = kp_current s !! k) /\ forall k, ms_lookup k m' = kp_saved s !! k.

Lemma spec_keeps_contents (M : Type) `{MapStoreSpec K V M} (opened : M) cs : ms_rel opened kept_fresh -> keeps_contents M opened cs.
Proof.
  intros R. destruct (ms_simulation cs opened kept_fresh R) as (m & E & Rm). destruct (ms_rel_run m _ cmd_kill Rm) as (m' & E' & Rm').
  exists m, m'. split_and!; [ done | done | intros k; by apply ms_rel_lookup | ].
  intros k. by rewrite (ms_rel_lookup _ _ _ Rm').
Qed.

(** C24: whatever is stored, removed, switched, closed or interrupted, neither
    map ever throws and both show what was stored last; a killed process leaves
    what was there when changes were last written at once: for the map with the
    cache nothing older is lost, for the one that removes its file everything
    is lost until it is switched on again. *)
Theorem maps_keep_contents (cs : list (command K V)) :
  keeps_contents (cached_level_map K V) (fst (cl_open true cached_empty)) cs
  /\ keeps_contents (fast_level_map K V) (fst (fl_open fast_empty)) cs.
Proof.
  destruct (cached_starts (K := K) (V := V)) as (c & Ec & Rc), (fast_starts (K := K) (V := V)) as (f & Ef & Rf). rewrite Ec, Ef.
  split; [ by apply (spec_keeps_contents _ c) | by apply (spec_keeps_contents _ f) ].
Qed.
End maps.

(** A process killed while changes wait. *)
Example killed_while_replaying :
  let cs := [cmd_store 1 10; cmd_write_through false; cmd_store 1 11; cmd_store 2 20; cmd_kill] in
  cl_begin Z.le (fst (ms_runs cs (fst (cl_open true cached_empty)))) = [(1, 10)]
  /\ fl_ordered_first Z.le (fst (ms_runs cs (fst (fl_open fast_empty)))) = Ok []
  /\ cl_begin Z.le (fst (ms_runs (cs ++ [cmd_store 3 30; cmd_reopen]) (fst (cl_open true cached_empty)))) = [(1, 10); (3, 30)].
Proof. vm_compute. done. Qed.
