(* ===== verification/MemoProps.v ===== *)
(** A memo reaches its receiver: what the key of the receiver decrypts is what
    the sender encrypted. *)

From S2P Require Import Prelude Asset Names Records ChainInterface Tables PendingState ChainDatabase Concrete Keys.

(** ** Bytes *)

Lemma le_bytes_length n z : length (le_bytes n z) = n.
Proof. revert z. induction n; intros z; simpl; [ done | by rewrite IHn ]. Qed.

Lemma of_le_bytes n z : 0 <= z < 256 ^ Z.of_nat n -> of_le (le_bytes n z) = z.
Proof.
  revert z. induction n as [|n IH]; intros z Hz; [ simpl in *; lia | ].
  cbn [le_bytes of_le]. rewrite IH.
  - pose proof (Z.div_mod z 256 ltac:(done)). lia.
  - rewrite Nat2Z.inj_succ, Z.pow_succ_r in Hz by lia. split; [ apply Z.div_pos; lia | ]. apply Z.div_lt_upper_bound; lia.
Qed.

Lemma byte_char_code c : byte_char (code c) = c.
Proof. unfold byte_char, code. by rewrite Nat2Z.id, Ascii.ascii_nat_embedding. Qed.

(** A string without a zero byte is read up to the padding. *)
Definition no_zero (s : string) : Prop := Forall (fun c => code c <> 0) (chars s).

Lemma c_str_padded (l : list Ascii.ascii) (n : nat) : Forall (fun c => code c <> 0) l -> c_str (map code l ++ replicate n 0) = l.
Proof.
  induction 1 as [|c l Hc _ IH]; [ by destruct n | ]. simpl. rewrite (proj2 (Z.eqb_neq _ _) Hc), byte_char_code. by f_equal.
Qed.

Lemma overwrite_zeros (l : list Z) n : (length l <= n)%nat -> overwrite l (replicate n 0) = l ++ replicate (n - length l) 0.
Proof. intros H. unfold overwrite. by rewrite drop_replicate. Qed.

(** ** Packing *)

Lemma memo_fields_pack (d : memo_data) rest : 0 <= md_from d < 256 ^ 33 -> 0 <= md_from_signature d < two64 ->
  length (md_message d) = MAX_MEMO_SIZE -> memo_fields (pack_memo d ++ rest) = d.
Proof.
  intros Hf Hs Hm. unfold memo_fields, pack_memo. destruct d as [k s m f]. cbn [md_from md_from_signature md_message md_memo_flags] in *.
  pose proof (le_bytes_length 33 k) as L1. pose proof (le_bytes_length 8 s) as L2.
  f_equal.
  - rewrite <- !app_assoc, take_app_length' by done. by apply of_le_bytes.
  - rewrite <- !app_assoc, drop_app_length' by done. rewrite take_app_length' by done. by apply of_le_bytes.
  - rewrite <- !app_assoc, (app_assoc (le_bytes 33 k)), drop_app_length' by (rewrite length_app; lia). by apply take_app_length'.
  - rewrite <- !app_assoc, (app_assoc (le_bytes 33 k)), (app_assoc _ m), lookup_app_r by (rewrite !length_app, Hm, L1, L2; unfold MAX_MEMO_SIZE; lia).
    rewrite !length_app, Hm, L1, L2. by destruct f.
Qed.

Lemma pack_memo_length d : length (md_message d) = MAX_MEMO_SIZE -> length (pack_memo d) = 61%nat.
Proof. intros H. unfold pack_memo. rewrite !length_app, !le_bytes_length, H. done. Qed.

Lemma unpack_pack_memo d : 0 <= md_from d < 256 ^ 33 -> 0 <= md_from_signature d < two64 -> length (md_message d) = MAX_MEMO_SIZE ->
  unpack_memo (pack_memo d) = Ok d.
Proof.
  intros Hf Hs Hm. unfold unpack_memo. rewrite pack_memo_length by done. cbn [Nat.leb].
  rewrite <- (memo_fields_pack d []) at 2 by done. by rewrite app_nil_r.
Qed.

Lemma unpack_pack_extended d : 0 <= me_from d < 256 ^ 33 -> 0 <= me_from_signature d < two64 ->
  length (me_message d) = MAX_MEMO_SIZE -> length (me_extra_message d) = EXTENDED_MEMO_SIZE ->
  unpack_extended_memo (pack_extended_memo d) = Ok d.
Proof.
  intros Hf Hs Hm He. destruct d as [k s m f x]. cbn [me_from me_from_signature me_message me_memo_flags me_extra_message] in *.
  assert (E : pack_extended_memo (mk_extended_memo k s m f x) = pack_memo (mk_memo k s m f) ++ x)
    by (unfold pack_extended_memo, pack_memo; cbn; by rewrite <- !app_assoc).
  pose proof (pack_memo_length (mk_memo k s m f) Hm) as L. unfold unpack_extended_memo. rewrite E, length_app, L, He. cbn [Nat.leb].
  rewrite memo_fields_pack by done. cbn [md_from md_from_signature md_message md_memo_flags].
  rewrite drop_app_length' by (by rewrite L). by rewrite take_ge by (rewrite He; done).
Qed.

Section memo.
Context `{Cr : Crypto} `{Kc : KeyCrypto} `{Kl : !KeyLaws}.

(** ** Messages *)

(** What is encrypted decrypts, short or long. *)
Lemma decrypt_content secret from signature message otk :
  no_zero message -> (length (string_bytes message) <= MAX_EXTENDED_MEMO_SIZE)%nat -> 0 <= signature < two64 ->
  exists data memo, encrypt_content secret from signature message = Ok data
    /\ decrypt_with_secret secret {| one_time_key := otk; encrypted_memo_data := data |} = Ok memo
    /\ get_extended_message memo = message /\ me_from memo = get_public_key from /\ me_from_signature memo = signature
    /\ me_memo_flags memo = from_memo.
Proof.
  intros Hz Hlen Hs. unfold encrypt_content. set (bytes := string_bytes message) in *.
  assert (Lb : length bytes = length (chars message)) by apply length_map.
  assert (Hmsg : forall n, c_string (bytes ++ replicate n 0) = message).
  { intros n. unfold c_string, bytes, string_bytes. rewrite c_str_padded by done. apply Strings.String.string_of_list_ascii_of_string. }
  pose proof (public_key_range from) as Hp. unfold MAX_EXTENDED_MEMO_SIZE, MAX_MEMO_SIZE, EXTENDED_MEMO_SIZE in *.
  destruct (Nat.leb_spec (length bytes) 19) as [Hle|Hgt].
  - assert (Es : exists m, set_message message memo_data_default = Ok (mk_memo null_key 0 m from_memo) /\ m = bytes ++ replicate (19 - length bytes) 0).
    { unfold set_message. fold bytes. case_bool_decide as Hb; [ rewrite Hb; by eexists | ]. cbn [md_message memo_data_default].
      rewrite length_replicate. unfold MAX_MEMO_SIZE. rewrite (proj2 (Nat.leb_le _ _) Hle). eexists. split; [ done | ]. by apply overwrite_zeros. }
    destruct Es as (m & -> & ->). cbn [rbind]. eexists _, _. split; [ done | ]. unfold decrypt_with_secret. cbn [encrypted_memo_data].
    rewrite aes_inverse, aes_length. cbn [rbind].
    rewrite pack_memo_length by (cbn; rewrite length_app, length_replicate; unfold MAX_MEMO_SIZE; lia).
    rewrite unpack_pack_memo; [ | done | done | cbn; rewrite length_app, length_replicate; unfold MAX_MEMO_SIZE; lia ].
    cbn -[replicate]. split; [ done | ]. split_and!; [ | done.. ].
    unfold get_extended_message. cbn -[replicate]. rewrite <- app_assoc, <- replicate_add. apply Hmsg.
  - assert (Es : set_extended_message message extended_memo_data_default
      = Ok (mk_extended_memo null_key 0 (take 19 bytes) from_memo (drop 19 bytes ++ replicate (51 - length bytes) 0))).
    { unfold set_extended_message. fold bytes. rewrite bool_decide_eq_false_2 by (intros E; rewrite E in Hgt; simpl in Hgt; lia).
      cbn [me_message me_extra_message extended_memo_data_default]. rewrite !length_replicate. unfold MAX_MEMO_SIZE, EXTENDED_MEMO_SIZE.
      rewrite (proj2 (Nat.leb_le _ _)) by lia. cbn [fc_assert rbind]. rewrite (proj2 (Nat.leb_gt _ _)) by lia.
      do 2 f_equal.
      - rewrite overwrite_zeros by (rewrite length_take; lia). rewrite length_take, Nat.min_l by lia. by rewrite app_nil_r.
      - rewrite overwrite_zeros by (rewrite length_drop; lia). rewrite length_drop. do 2 f_equal. lia. }
    rewrite Es. cbn [rbind]. eexists _, _. split; [ done | ]. unfold decrypt_with_secret. cbn [encrypted_memo_data].
    assert (Lm : length (take 19 bytes) = MAX_MEMO_SIZE) by (rewrite length_take; unfold MAX_MEMO_SIZE; lia).
    assert (Lx : length (drop 19 bytes ++ replicate (51 - length bytes) 0) = EXTENDED_MEMO_SIZE)
      by (rewrite length_app, length_drop, length_replicate; unfold EXTENDED_MEMO_SIZE; lia).
    rewrite aes_inverse, aes_length. cbn [rbind me_message me_memo_flags me_extra_message].
    assert (Lp : forall k s, Z.of_nat (length (pack_extended_memo (mk_extended_memo k s (take 19 bytes) from_memo
      (drop 19 bytes ++ replicate (51 - length bytes) 0)))) = 93).
    { intros k s. unfold pack_extended_memo. cbn [me_from me_from_signature me_message me_memo_flags me_extra_message].
      rewrite !length_app, !le_bytes_length, Lm, <- length_app, Lx. done. }
    rewrite Lp. change (sizeof_memo_data <? 16 * (93 / 16 + 1)) with true. cbn match.
    rewrite unpack_pack_extended by done. split; [ done | ]. split_and!; [ | done.. ].
    unfold get_extended_message. cbn [me_message me_extra_message]. rewrite app_assoc, take_drop. apply Hmsg.
Qed.
(** ** Deposits *)

(** The secret of a deposit, from the side of the sender. *)
Definition deposit_secret (one_time receiver : private_key) : secret512 := get_shared_secret one_time (get_public_key receiver).

Lemma stealth_pair one_time receiver : let secret := deposit_secret one_time receiver in
  get_shared_secret receiver (get_public_key one_time) = secret
  /\ get_public_key (stealth_private receiver secret) = stealth_public (get_public_key receiver) secret.
Proof.
  intros secret. split; [ apply shared_secret_comm | ].
  pose proof (public_child_spec (extended_private receiver) (index_of_hash (hash_secret secret))) as H.
  exact (f_equal xp_pub_key H).
Qed.

Lemma memo_signature_range from k : 0 <= memo_signature from k < two64.
Proof. unfold memo_signature. destruct (negb _); [ apply secret_word_range | done ]. Qed.

(** C27: the receiver of a deposit reads the message and the sender: a message of
    at most 51 bytes without a zero byte can be encrypted to the public key of
    any receiver, and the private key of the receiver decrypts it (for a
    receiver without stealth deposits, when the owner is not compared). It
    finds the message, the public key of the sender, and the private key of the
    stealth address; the signature of the sender is valid exactly when the
    secret of the sender with the key that owns the deposit has the first word
    of the secret with the stealth address, which is so for stealth deposits. *)
Theorem memo_reaches_receiver one_time receiver from message (stealth : bool)
    (Hz : no_zero message) (Hlen : (length (string_bytes message) <= MAX_EXTENDED_MEMO_SIZE)%nat) (Hf : from <> 0) :
  let secret := deposit_secret one_time receiver in
  let stealth_key := stealth_public (get_public_key receiver) secret in
  exists w owner st,
    encrypt_memo_data one_time (get_public_key receiver) from message stealth = Ok (w, owner)
    /\ owner = (if stealth then stealth_key else get_public_key receiver)
    /\ decrypt_memo_data receiver (negb stealth) w = Ok (Some st)
    /\ get_extended_message (mo_memo st) = message /\ me_from (mo_memo st) = get_public_key from
    /\ get_public_key (mo_owner_private_key st) = stealth_key
    /\ mo_has_valid_signature st = (secret_word (get_shared_secret from stealth_key) =? secret_word (get_shared_secret from owner))
    /\ (stealth = true -> mo_has_valid_signature st = true).
Proof.
  intros secret stealth_key. set (owner := if stealth then stealth_key else get_public_key receiver).
  destruct (stealth_pair one_time receiver) as [E1 E2]. fold secret in E1, E2. fold stealth_key in E2.
  destruct (decrypt_content secret from (memo_signature from owner) message (get_public_key one_time) Hz Hlen (memo_signature_range _ _))
    as (data & memo & D1 & D2 & D3 & D4 & D5 & D6).
  set (m := {| one_time_key := get_public_key one_time; encrypted_memo_data := data |}) in *.
  assert (V : valid_signature (stealth_private receiver secret) memo
    = (secret_word (get_shared_secret from stealth_key) =? secret_word (get_shared_secret from owner))).
  { assert (Hs : memo_signature from owner = secret_word (get_shared_secret from owner)) by (unfold memo_signature; by rewrite (proj2 (Z.eqb_neq _ _) Hf)).
    unfold valid_signature. rewrite D6, D4, D5, Hs, shared_secret_comm, E2.
    by rewrite (proj2 (Z.eqb_neq _ _) (public_key_valid from Hf)). }
  exists (withdraw_with_signature (key_address owner) (Some m)), owner,
    {| mo_memo := memo; mo_has_valid_signature := valid_signature (stealth_private receiver secret) memo;
       mo_owner_private_key := stealth_private receiver secret |}.
  unfold encrypt_memo_data. fold (deposit_secret one_time receiver). fold secret. fold stealth_key. fold owner. rewrite D1.
  split_and!; [ done | done | | done | done | done | done | ].
  - unfold decrypt_memo_data. cbn [memo_of one_time_key m]. rewrite E1, E2, D2.
    replace (negb (negb stealth) && bool_decide (key_address stealth_key ∉ [key_address owner])) with false; [ done | ].
    destruct stealth; [ | done ]. symmetry. apply bool_decide_eq_false_2. set_solver.
  - intros ->. cbn [mo_has_valid_signature]. rewrite V. apply Z.eqb_refl.
Qed.

(** A deposit in escrow carries a short message to its receiver. *)
Lemma escrow_memo_reaches_receiver one_time receiver from message escrow agreement :
  no_zero message -> (length (string_bytes message) <= MAX_MEMO_SIZE)%nat -> from <> 0 ->
  exists w owner st, encrypt_escrow_memo one_time (get_public_key receiver) from message escrow agreement = Ok (w, owner)
    /\ decrypt_memo_data receiver false w = Ok (Some st) /\ get_extended_message (mo_memo st) = message
    /\ me_from (mo_memo st) = get_public_key from /\ get_public_key (mo_owner_private_key st) = owner
    /\ mo_has_valid_signature st = true.
Proof.
  intros Hz Hlen Hf. set (secret := deposit_secret one_time receiver). set (owner := stealth_public (get_public_key receiver) secret).
  destruct (stealth_pair one_time receiver) as [E1 E2]. fold secret in E1, E2. fold owner in E2.
  destruct (decrypt_content secret from (memo_signature from owner) message (get_public_key one_time) Hz)
    as (data & memo & D1 & D2 & D3 & D4 & D5 & D6); [ unfold MAX_EXTENDED_MEMO_SIZE; lia | apply memo_signature_range | ].
  unfold encrypt_content in D1. rewrite (proj2 (Nat.leb_le _ _) Hlen) in D1. inv_ok.
  match goal with H : set_message _ _ = Ok _ |- _ => rename H into Es end.
  eexists _, owner, {| mo_memo := memo; mo_has_valid_signature := valid_signature (stealth_private receiver secret) memo;
       mo_owner_private_key := stealth_private receiver secret |}.
  unfold encrypt_escrow_memo. fold (deposit_secret one_time receiver). fold secret. fold owner. rewrite Es. cbn [rbind].
  split_and!; [ done | | done | done | done | ].
  - unfold decrypt_memo_data. cbn [memo_of one_time_key]. rewrite E1, E2, D2.
    rewrite bool_decide_eq_false_2; [ done | ]. set_solver.
  - cbn [mo_has_valid_signature]. unfold valid_signature. rewrite D6, D4, D5, (proj2 (Z.eqb_neq _ _) (public_key_valid from Hf)). cbn [andb].
    unfold memo_signature. rewrite (proj2 (Z.eqb_neq _ _) Hf). cbn [negb]. rewrite shared_secret_comm, E2. apply Z.eqb_refl.
Qed.
End memo.

(** ** Concrete keys *)

#[local] Existing Instance demo_crypto.
#[local] Existing Instance demo_keys.

Definition long_message : string := "a message of more than nineteen bytes".

Lemma memo_reaches_receiver_witness :
  exists w owner st, encrypt_memo_data 31 (get_public_key 21) 11 long_message true = Ok (w, owner)
    /\ decrypt_memo_data 21 false w = Ok (Some st)
    /\ get_extended_message (mo_memo st) = long_message /\ mo_has_valid_signature st = true.
Proof.
  destruct (memo_reaches_receiver 31 21 11 long_message true) as (w & owner & st & H1 & _ & H2 & H3 & _ & _ & _ & H4).
  - unfold no_zero. apply (bool_decide_eq_true_1 _). vm_compute. reflexivity.
  - vm_compute. lia.
  - discriminate.
  - exists w, owner, st. split; [ exact H1 | ]. split; [ exact H2 | ]. split; [ exact H3 | ]. exact (H4 eq_refl).
Defined.

(** A deposit to an account without stealth deposits: its owner reads the
    message, but the signature of the sender never counts as valid. *)
Example public_memo_unsigned :
  match encrypt_memo_data 31 (get_public_key 21) 11 "hello" false with
  | Ok (w, _) =>
      match decrypt_memo_data 21 true w, decrypt_memo_data 21 false w with
      | Ok (Some st), Ok None => get_extended_message (mo_memo st) = "hello" /\ mo_has_valid_signature st = false
      | _, _ => False
      end
  | Throw _ => False
  end.
Proof. vm_compute. done. Qed.
