(* ===== verification/AmountProps.v ===== *)
(** Amounts and prices are read as they were written. *)

From Stdlib Require Import Ascii.
From S2P Require Import Prelude Asset Names Records ChainInterface AmountText.

(** ** Decimal numbers *)

#[local] Arguments value : simpl never.
Definition digits (l : list ascii) : Prop := Forall (fun c => isdigit c = true) l.

Lemma code_ascii n : (n < 256)%nat -> code (ascii_of_nat n) = Z.of_nat n.
Proof. intros H. unfold code. by rewrite nat_ascii_embedding. Qed.

Lemma digit_char_spec d : 0 <= d < 10 -> isdigit (digit_char d) = true /\ digit_value (digit_char d) = d.
Proof.
  intros H. unfold isdigit, digit_value, digit_char. rewrite code_ascii by lia. rewrite Z2Nat.id by lia.
  split; [ apply andb_true_iff; split; apply Z.leb_le; lia | lia ].
Qed.

Lemma digit_value_range c : isdigit c = true -> 0 <= digit_value c < 10.
Proof. unfold isdigit, digit_value. intros [?%Z.leb_le ?%Z.leb_le]%andb_true_iff. lia. Qed.

Lemma value_from v l : foldl (fun v c => v * 10 + digit_value c) v l = v * 10 ^ Z.of_nat (length l) + value l.
Proof.
  revert v. induction l as [|c l IH]; intros v; [ unfold value; cbn; lia | ]. unfold value. cbn [foldl length].
  rewrite IH, (IH (0 * 10 + digit_value c)), Nat2Z.inj_succ, Z.pow_succ_r by lia. lia.
Qed.
Lemma value_app l1 l2 : value (l1 ++ l2) = value l1 * 10 ^ Z.of_nat (length l2) + value l2.
Proof. unfold value at 1. by rewrite foldl_app, value_from. Qed.
Lemma value_cons c l : value (c :: l) = digit_value c * 10 ^ Z.of_nat (length l) + value l.
Proof. change (c :: l) with ([c] ++ l). by rewrite value_app. Qed.

Lemma value_range l : digits l -> 0 <= value l < 10 ^ Z.of_nat (length l).
Proof.
  induction 1 as [|c l Hc%digit_value_range _ IH]; [ done | ]. rewrite value_cons. cbn [length].
  rewrite Nat2Z.inj_succ, Z.pow_succ_r by lia. nia.
Qed.

Lemma value_zeros n : value (replicate n zero_char) = 0.
Proof. induction n as [|n IH]; [ done | ]. cbn [replicate]. rewrite value_cons, IH. done. Qed.

Lemma decimal_loop_spec fuel z acc : 0 <= z < 10 ^ Z.of_nat (S fuel) -> digits acc ->
  digits (decimal_loop (S fuel) z acc) /\ value (decimal_loop (S fuel) z acc) = z * 10 ^ Z.of_nat (length acc) + value acc.
Proof.
  revert z acc. induction fuel as [|fuel IH]; intros z acc Hz Hacc; cbn [decimal_loop];
    destruct (digit_char_spec (z mod 10) ltac:(by apply Z.mod_pos_bound)) as [Hd Hv].
  - assert (z / 10 = 0) as -> by (apply Z.div_small; change (10 ^ Z.of_nat 1) with 10 in Hz; lia). cbn. split; [ by constructor | ].
    rewrite value_cons, Hv, Z.mod_small by (change (10 ^ Z.of_nat 1) with 10 in Hz; lia). done.
  - assert (Hq : 0 <= z / 10 < 10 ^ Z.of_nat (S fuel)).
    { split; [ apply Z.div_pos; lia | ]. apply Z.div_lt_upper_bound; [ lia | ]. rewrite <- Z.pow_succ_r by lia. rewrite <- Nat2Z.inj_succ. apply Hz. }
    pose proof (Z.div_mod z 10 ltac:(done)) as E. destruct (Z.eqb_spec (z / 10) 0) as [E0|_].
    + split; [ by constructor | ]. rewrite value_cons, Hv. rewrite E0 in E. f_equal. f_equal. lia.
    + cbn [decimal_loop] in IH. destruct (IH (z / 10) (digit_char (z mod 10) :: acc)) as [I1 I2]; [ done | by constructor | ].
      split; [ exact I1 | ]. cbn [length] in I2. rewrite I2, value_cons, Hv, Nat2Z.inj_succ, Z.pow_succ_r by lia. nia.
Qed.

Lemma log2_pow10 z : 0 <= z -> z < 10 ^ Z.of_nat (S (Z.to_nat (Z.log2 z))).
Proof.
  intros Hz. rewrite Nat2Z.inj_succ, Z2Nat.id by apply Z.log2_nonneg. destruct (Z.eq_dec z 0) as [->|Hne]; [ done | ].
  destruct (Z.log2_spec z ltac:(lia)) as [_ H]. eapply Z.lt_le_trans; [ exact H | ]. apply Z.pow_le_mono_l. lia.
Qed.

Lemma decimal_digits z : 0 <= z -> digits (decimal z).
Proof. intros H. apply decimal_loop_spec; [ split; [ done | by apply log2_pow10 ] | constructor ]. Qed.
Lemma value_decimal z : 0 <= z -> value (decimal z) = z.
Proof. intros H. unfold decimal. rewrite (proj2 (decimal_loop_spec _ z [] ltac:(split; [ done | by apply log2_pow10 ]) ltac:(constructor))). cbn [length]. change (value []) with 0. change (10 ^ Z.of_nat 0) with 1. lia. Qed.

Lemma decimal_loop_length fuel z acc : (length acc < length (decimal_loop (S fuel) z acc))%nat.
Proof.
  revert z acc. induction fuel as [|fuel IH]; intros z acc; cbn [decimal_loop].
  - destruct (_ =? 0); cbn; lia.
  - destruct (_ =? 0); [ cbn; lia | ]. specialize (IH (z / 10) (digit_char (z mod 10) :: acc)). cbn [decimal_loop length] in *. lia.
Qed.
Lemma decimal_nonempty z : decimal z <> [].
Proof. unfold decimal. pose proof (decimal_loop_length (Z.to_nat (Z.log2 z)) z []) as H. intros E. rewrite E in H. cbn in H. lia. Qed.

(** The first digit is not zero, but for zero itself. *)
Lemma decimal_loop_first fuel z acc : 0 < z < 10 ^ Z.of_nat (S fuel) ->
  exists c l, decimal_loop (S fuel) z acc = c :: l /\ isdigit c = true /\ digit_value c <> 0.
Proof.
  revert z acc. induction fuel as [|fuel IH]; intros z acc Hz; cbn [decimal_loop];
    destruct (digit_char_spec (z mod 10) ltac:(by apply Z.mod_pos_bound)) as [Hd Hv].
  - change (10 ^ Z.of_nat 1) with 10 in Hz. rewrite (Z.div_small z 10) by lia. cbn. eexists _, _. split_and!; [ done | done | ].
    rewrite Hv, Z.mod_small; lia.
  - pose proof (Z.div_mod z 10 ltac:(done)) as E. destruct (Z.eqb_spec (z / 10) 0) as [E0|Hne].
    + eexists _, _. split_and!; [ done | done | ]. rewrite Hv. lia.
    + assert (0 <= z / 10) by (apply Z.div_pos; lia). cbn [decimal_loop] in IH. apply IH. split; [ lia | ]. apply Z.div_lt_upper_bound; [ lia | ].
      rewrite <- Z.pow_succ_r by lia. rewrite <- Nat2Z.inj_succ. apply Hz.
Qed.

(** How many digits a number has. *)
Lemma decimal_length z n : 10 ^ Z.of_nat n <= z < 10 ^ Z.of_nat (S n) -> length (decimal z) = S n.
Proof.
  intros Hz. pose proof (Z.pow_pos_nonneg 10 (Z.of_nat n) ltac:(lia) ltac:(lia)).
  destruct (decimal_loop_first (Z.to_nat (Z.log2 z)) z []) as (c & l & E & Hc & Hne); [ split; [ lia | apply log2_pow10; lia ] | ].
  fold (decimal z) in E. pose proof (value_decimal z ltac:(lia)) as Hv. pose proof (decimal_digits z ltac:(lia)) as Hd. rewrite E in *.
  apply Forall_cons in Hd as [_ Hl]. pose proof (value_range l Hl). pose proof (digit_value_range c Hc). rewrite value_cons in Hv. cbn [length].
  assert (length l = n) as ->; [ | done ].
  assert (10 ^ Z.of_nat (length l) <= z) by nia. assert (z < 10 ^ Z.of_nat (S (length l))) by (rewrite Nat2Z.inj_succ, Z.pow_succ_r by lia; nia).
  assert (Z.of_nat n < Z.of_nat (S (length l))) by (apply (Z.pow_lt_mono_r_iff 10); lia).
  assert (Z.of_nat (length l) < Z.of_nat (S n)) by (apply (Z.pow_lt_mono_r_iff 10); lia). lia.
Qed.

(** ** Reading digits *)

Definition ends_digits (rest : list ascii) : Prop := match rest with c :: _ => isdigit c = false | [] => True end.

Lemma span_digits_app ds rest : digits ds -> ends_digits rest -> span_digits (ds ++ rest) = (ds, rest).
Proof.
  intros H Hr. induction H as [|c ds Hc _ IH]; cbn [app span_digits].
  - destruct rest as [|c rest]; [ done | ]. cbn. cbn in Hr. by rewrite Hr.
  - by rewrite Hc, IH.
Qed.

(** The classes of a digit. *)
Lemma digit_classes c : isdigit c = true -> isspace c = false /\ Ascii.eqb c hyphen = false /\ Ascii.eqb c plus_sign = false
  /\ Ascii.eqb c dot = false.
Proof. destruct c as [[] [] [] [] [] [] [] []]; intros H; try (vm_compute in H; discriminate H); by vm_compute. Qed.

Lemma signed_digits_app ds rest : ds <> [] -> digits ds -> ends_digits rest -> signed_digits (ds ++ rest) = (false, ds, rest).
Proof.
  intros Hn Hd Hr. pose proof (span_digits_app ds rest Hd Hr) as E. destruct ds as [|c ds]; [ done | ].
  apply Forall_cons in Hd as [Hc _]. destruct (digit_classes c Hc) as (H1 & H2 & H3 & _). unfold signed_digits.
  cbn [app skip_spaces] in *. rewrite H1, H2, H3. by rewrite E.
Qed.

Lemma stoll_app ds rest : ds <> [] -> digits ds -> ends_digits rest -> value ds <= INT64_MAX -> stoll (ds ++ rest) = Ok (value ds).
Proof.
  intros Hn Hd Hr Hv. unfold stoll. rewrite signed_digits_app by done. rewrite bool_decide_eq_false_2 by done.
  pose proof (value_range ds Hd). rewrite (proj2 (Z.leb_le _ _)) by (unfold INT64_MIN; lia). by rewrite (proj2 (Z.leb_le _ _)).
Qed.

(** ** Amounts *)

Lemma check_amount_digits neg dec ds rest : digits ds -> check_amount neg dec (ds ++ rest) = check_amount neg dec rest.
Proof. induction 1 as [|c ds Hc _ IH]; [ done | ]. cbn [app check_amount]. by rewrite Hc. Qed.

Lemma find_dot ds F : digits ds -> find_char dot (ds ++ dot :: F) = Some (length ds).
Proof.
  induction 1 as [|c ds Hc _ IH]; [ done | ]. cbn [app find_char]. rewrite (proj2 (proj2 (proj2 (digit_classes c Hc)))), IH. done.
Qed.
Lemma find_no_dot ds : digits ds -> find_char dot ds = None.
Proof. induction 1 as [|c ds Hc _ IH]; [ done | ]. cbn [find_char]. by rewrite (proj2 (proj2 (proj2 (digit_classes c Hc)))), IH. Qed.

Lemma power_of_ten_decimal k : (k <= 15)%nat -> is_power_of_ten (10 ^ Z.of_nat k) = true /\ length (decimal (10 ^ Z.of_nat k)) = S k.
Proof. intros H. do 16 (destruct k as [|k]; [ by vm_compute | ]). lia. Qed.

Definition minus_sign (negative : bool) : list ascii := if negative then [hyphen] else [].

(** The amount of [L . F] in units of [10 ^ k] parts. *)
Definition satoshis (L F : list ascii) (k : nat) : Z := value L * 10 ^ Z.of_nat k + value F * 10 ^ Z.of_nat (k - length F).

Lemma satoshis_range L F k : digits L -> digits F -> (length F <= k)%nat -> 0 <= value L /\ 0 <= value F * 10 ^ Z.of_nat (k - length F) < 10 ^ Z.of_nat k.
Proof.
  intros HL HF Hk. pose proof (value_range L HL). pose proof (value_range F HF). split; [ lia | ].
  replace (Z.of_nat k) with (Z.of_nat (length F) + Z.of_nat (k - length F)) by lia. rewrite Z.pow_add_r by lia.
  pose proof (Z.pow_pos_nonneg 10 (Z.of_nat (k - length F)) ltac:(lia) ltac:(lia)). nia.
Qed.

(** The digits before the point, as the code cuts them out. *)
Lemma lhs_digits negative L F : digits L -> (negative = true -> L <> []) ->
  exists rest, substr (if negative then 1 else 0)%nat (Some (length (minus_sign negative) + length L))%nat (minus_sign negative ++ L ++ dot :: F)
    = Ok (L ++ rest) /\ ends_digits rest /\ (L = [] -> rest = []).
Proof.
  intros HL Hn. unfold substr. destruct negative; cbn [minus_sign app length drop].
  - exists [dot]. split; [ | split; [ done | by intros ->; destruct (Hn eq_refl) ] ]. cbn [Nat.ltb Nat.leb].
    rewrite drop_0. replace (1 + length L)%nat with (length L + 1)%nat by lia. by rewrite take_app_add.
  - exists []. rewrite app_nil_r. split; [ | done ]. cbn [Nat.ltb Nat.leb]. rewrite drop_0. cbn [Nat.add]. by rewrite take_app_length.
Qed.

Lemma point_position negative L F : digits L -> find_char dot (minus_sign negative ++ L ++ dot :: F) = Some (length (minus_sign negative) + length L)%nat.
Proof. intros HL. destruct negative; cbn; by rewrite find_dot. Qed.

Lemma check_decimal negative L F : digits L -> digits F -> check_amount false false (minus_sign negative ++ L ++ dot :: F) = Some (negative, true).
Proof.
  intros HL HF. assert (H : forall neg, check_amount neg false (L ++ dot :: F) = Some (neg, true)).
  { intros neg. rewrite check_amount_digits by done. cbn [check_amount]. change (isdigit dot) with false. cbn.
    rewrite <- (app_nil_r F). rewrite check_amount_digits by done. by destruct neg. }
  destruct negative; cbn; apply H.
Qed.

Lemma read_lhs L rest k : digits L -> ends_digits rest -> (L = [] -> rest = []) -> value L * 10 ^ Z.of_nat k <= MAX_SATOSHIS ->
  (if bool_decide (L ++ rest = []) then Ok 0 else v <- stoll (L ++ rest) ;; Ok (wrap64 (uwrap64 (v * 10 ^ Z.of_nat k)))) = Ok (value L * 10 ^ Z.of_nat k).
Proof.
  intros HL Hr Hn Hv. pose proof (value_range L HL). pose proof (Z.pow_pos_nonneg 10 (Z.of_nat k) ltac:(lia) ltac:(lia)) as Hp.
  case_bool_decide as E.
  - apply app_nil in E as [-> _]. done.
  - assert (L <> []) by (intros ->; by rewrite Hn in E). unfold MAX_SATOSHIS in Hv.
    rewrite stoll_app by (try done; unfold INT64_MAX; nia). cbn [rbind]. f_equal.
    unfold uwrap64. rewrite Z.mod_small by (unfold two64; nia). apply wrap64_id. unfold_width. nia.
Qed.

Lemma fraction_digits_ok F k : (k <= 15)%nat -> (length F <= k)%nat ->
  fraction_digits (10 ^ Z.of_nat k) F = Ok (F ++ replicate (k - length F) zero_char).
Proof.
  intros Hk HF. unfold fraction_digits. destruct (power_of_ten_decimal k Hk) as [_ ->]. cbn [Nat.sub]. rewrite Nat.sub_0_r.
  by rewrite (proj2 (Nat.ltb_ge _ _)).
Qed.

Lemma zeros_digits n : digits (replicate n zero_char).
Proof. apply Forall_replicate. done. Qed.

(** A decimal fraction with at most as many digits as the asset has is read
    exactly. *)
Lemma share_string_value negative L F k : (k <= 15)%nat -> digits L -> digits F -> (length F <= k)%nat -> (negative = true -> L <> []) ->
  satoshis L F k <= MAX_SATOSHIS ->
  share_string_to_satoshi (minus_sign negative ++ L ++ dot :: F) (10 ^ Z.of_nat k) = Ok (if negative then - satoshis L F k else satoshis L F k).
Proof.
  intros Hk HL HF Hl Hn Hm. unfold share_string_to_satoshi. rewrite check_decimal by done. destruct (power_of_ten_decimal k Hk) as [-> _].
  cbn [throw_unless rbind]. rewrite point_position by done. destruct (lhs_digits negative L F HL Hn) as (rest & E & Hr & Hrn). rewrite E. cbn [rbind].
  destruct (satoshis_range L F k HL HF Hl) as [HvL HvF]. unfold satoshis in *. unfold MAX_SATOSHIS in Hm.
  assert (10 ^ Z.of_nat k <= 10 ^ 15) by (apply Z.pow_le_mono_r; lia). change (10 ^ 15) with 1000000000000000 in *.
  rewrite (read_lhs L rest k) by (try done; unfold MAX_SATOSHIS; lia). cbn [rbind].
  assert (Hs : substr (S (length (minus_sign negative) + length L)) None (minus_sign negative ++ L ++ dot :: F) = Ok F).
  { unfold substr. rewrite (proj2 (Nat.ltb_ge _ _)) by (rewrite !length_app; cbn; lia). f_equal.
    rewrite app_assoc. replace (S (length (minus_sign negative) + length L)) with (length (minus_sign negative ++ L) + 1)%nat by (rewrite length_app; lia).
    by rewrite drop_app_add. }
  rewrite Hs. cbn [rbind]. rewrite fraction_digits_ok by done. cbn [rbind].
  assert (Hf : (if bool_decide (F ++ replicate (k - length F) zero_char = []) then Ok (value L * 10 ^ Z.of_nat k)
      else v <- stoll (F ++ replicate (k - length F) zero_char) ;; Ok (value L * 10 ^ Z.of_nat k +! v))
      = Ok (value L * 10 ^ Z.of_nat k + value F * 10 ^ Z.of_nat (k - length F))).
  { assert (Hval : value (F ++ replicate (k - length F) zero_char) = value F * 10 ^ Z.of_nat (k - length F))
      by (rewrite value_app, value_zeros, length_replicate; lia).
    case_bool_decide as En; [ rewrite En in Hval; change (value []) with 0 in Hval; rewrite <- Hval; f_equal; lia | ].
    rewrite <- (app_nil_r (F ++ _)). rewrite stoll_app; [ | done | by apply Forall_app; split; [ | apply zeros_digits ] | done | rewrite Hval; unfold INT64_MAX; lia ].
    cbn [rbind]. rewrite Hval, add64_id by (unfold_width; lia). done. }
  rewrite Hf. cbn [rbind]. unfold throw_if, MAX_SATOSHIS. rewrite (proj2 (Z.ltb_ge _ _)) by lia. cbn [rbind]. f_equal.
  destruct negative; [ | done ]. unfold neg64. rewrite wrap64_id; [ done | unfold_width; lia ].
Qed.

(** Too many digits after the point are refused. *)
Lemma share_string_refused L F k : (k <= 15)%nat -> digits L -> digits F -> (k < length F)%nat -> value L * 10 ^ Z.of_nat k <= MAX_SATOSHIS ->
  share_string_to_satoshi (minus_sign false ++ L ++ dot :: F) (10 ^ Z.of_nat k) = Throw invalid_asset_amount.
Proof.
  intros Hk HL HF Hl Hm. unfold share_string_to_satoshi. rewrite (check_decimal false) by done. destruct (power_of_ten_decimal k Hk) as [-> Hlen].
  cbn [throw_unless rbind]. rewrite point_position by done.
  destruct (lhs_digits false L F HL ltac:(done)) as (rest & E & Hr & Hrn). rewrite E. cbn [rbind minus_sign app length Nat.add].
  rewrite (read_lhs L rest k) by done. cbn [rbind].
  assert (Hs : substr (S (length L)) None (L ++ dot :: F) = Ok F).
  { unfold substr. rewrite (proj2 (Nat.ltb_ge _ _)) by (rewrite !length_app; cbn; lia). f_equal.
    replace (S (length L)) with (length L + 1)%nat by lia. by rewrite drop_app_add. }
  rewrite Hs. cbn [rbind]. unfold fraction_digits. rewrite Hlen. cbn [Nat.sub]. rewrite Nat.sub_0_r. by rewrite (proj2 (Nat.ltb_lt _ _)).
Qed.

(** The digits of [10 ^ k + m] after the first. *)
Lemma fraction_of k m : 0 <= m < 10 ^ Z.of_nat k ->
  exists F, drop 1 (decimal (m + 10 ^ Z.of_nat k)) = F /\ digits F /\ length F = k /\ value F = m.
Proof.
  intros Hm. assert (Hlen : length (decimal (m + 10 ^ Z.of_nat k)) = S k).
  { apply decimal_length. rewrite Nat2Z.inj_succ, Z.pow_succ_r by lia. lia. }
  pose proof (decimal_digits (m + 10 ^ Z.of_nat k) ltac:(lia)) as Hd. pose proof (value_decimal (m + 10 ^ Z.of_nat k) ltac:(lia)) as Hv.
  destruct (decimal _) as [|c F]; [ done | ]. apply Forall_cons in Hd as [Hc HF]. injection Hlen as Hlen. exists F. split_and!; [ done.. | ].
  rewrite value_cons, Hlen in Hv. pose proof (value_range F HF) as HvF. rewrite Hlen in HvF. pose proof (digit_value_range c Hc).
  generalize dependent (10 ^ Z.of_nat k). intros P Hm Hv HvF. assert (digit_value c < 2) by nia. assert (0 < digit_value c) by nia.
  replace (digit_value c) with 1 in Hv by lia. lia.
Qed.

Section amounts.
Context `{Pn : PrettyNumber}.

(** A decimal fraction is read as the amount it stands for, if it has at
    most as many digits as the asset and is not above the maximum, and refused
    if it has more digits; and an amount below a thousand units is read as it
    was written. *)
Theorem amount_text_roundtrip (Hp : forall z, 0 <= z < 1000 -> to_pretty_string z = decimal z) (L F : list ascii) (k : nat) (a : Z) (r : asset_record) :
  (k <= 15)%nat -> digits L -> digits F -> as_precision r = 10 ^ Z.of_nat k ->
  (L <> [] -> (length F <= k)%nat -> satoshis L F k <= MAX_SATOSHIS -> forall negative,
    asset_from_string (minus_sign negative ++ L ++ dot :: F) r
    = Ok (mk_asset (if negative then - satoshis L F k else satoshis L F k) (as_id r)))
  /\ ((k < length F)%nat -> value L * 10 ^ Z.of_nat k <= MAX_SATOSHIS -> asset_from_string (L ++ dot :: F) r = Throw invalid_asset_amount)
  /\ (Z.abs a < 1000 * 10 ^ Z.of_nat k -> Z.abs a <= MAX_SATOSHIS ->
      exists text, amount_to_string a false r = Ok text /\ asset_from_string text r = Ok (mk_asset a (as_id r))).
Proof.
  intros Hk HL HF Hr. unfold asset_from_string. rewrite Hr. split_and!.
  - intros Hn Hl Hm negative. by rewrite share_string_value.
  - intros Hl Hm. pose proof (share_string_refused L F k Hk HL HF Hl Hm) as E. cbn [minus_sign app] in E. by rewrite E.
  - intros Ha Hmax. unfold MAX_SATOSHIS in Hmax. pose proof (Z.pow_pos_nonneg 10 (Z.of_nat k) ltac:(lia) ltac:(lia)) as Hpos.
    assert (10 ^ Z.of_nat k <= 10 ^ 15) by (apply Z.pow_le_mono_r; lia). change (10 ^ 15) with 1000000000000000 in *.
    unfold amount_to_string. rewrite Hr, (proj2 (Z.eqb_neq _ _)) by lia. eexists. split; [ done | ].
    assert (Hs : uwrap64 (if 0 <=? a then a else neg64 a) = Z.abs a).
    { destruct (Z.leb_spec 0 a); [ rewrite Z.abs_eq by lia | rewrite Z.abs_neq by lia; unfold neg64; rewrite wrap64_id by (unfold_width; lia) ];
        apply Z.mod_small; unfold two64; lia. }
    rewrite Hs. clear Hs. pose proof (Z.mod_pos_bound (Z.abs a) (10 ^ Z.of_nat k) Hpos) as Hmod.
    pose proof (Z.div_mod (Z.abs a) (10 ^ Z.of_nat k) ltac:(lia)) as Hdiv.
    assert (Hq : 0 <= Z.abs a / 10 ^ Z.of_nat k < 1000) by (split; [ apply Z.div_pos; lia | apply Z.div_lt_upper_bound; lia ]).
    unfold amount_digits. rewrite Hp by done. unfold uwrap64. rewrite (Z.mod_small (_ + _) two64) by (unfold two64; lia).
    destruct (fraction_of k (Z.abs a mod 10 ^ Z.of_nat k) Hmod) as (G & HG & HGd & HGl & HGv). rewrite (Z.add_comm (10 ^ _)), HG.
    assert (E : satoshis (decimal (Z.abs a / 10 ^ Z.of_nat k)) G k = Z.abs a)
      by (unfold satoshis; rewrite value_decimal, HGv, HGl, Nat.sub_diag by lia; change (10 ^ Z.of_nat 0) with 1; lia).
    pose proof (share_string_value (a <? 0) (decimal (Z.abs a / 10 ^ Z.of_nat k)) G k Hk (decimal_digits _ (proj1 Hq)) HGd (Nat.eq_le_incl _ _ HGl)
      (fun _ => decimal_nonempty _) ltac:(rewrite E; unfold MAX_SATOSHIS; lia)) as Hread. rewrite E in Hread.
    destruct (Z.ltb_spec a 0); cbn [minus_sign app] in Hread; rewrite Hread; cbn [rbind]; f_equal; f_equal; lia.
Qed.
End amounts.

(** Neither the position of the minus nor the size of the number is checked. *)
Example minus_in_the_middle : share_string_to_satoshi (chars "1-2") 100 = Ok 200 /\ share_string_to_satoshi (chars "1-2.5") 100 = Ok 150.
Proof. vm_compute. split; reflexivity. Qed.
Example share_string_overflow : share_string_to_satoshi (chars "576460752303423489") 100000 = Ok 100000.
Proof. vm_compute. reflexivity. Qed.

(** ** Prices *)

Section prices.
Context `{FcI : Fc}.

Lemma ratio_int_app ds rest v : digits ds -> ends_digits rest -> 0 <= v -> v * 10 ^ Z.of_nat (length ds) + value ds < two64 ->
  ratio_int (ds ++ rest) v = (v * 10 ^ Z.of_nat (length ds) + value ds, rest).
Proof.
  intros H Hr. revert v. induction H as [|c ds Hc Hds IH]; intros v Hv Hb; cbn [app ratio_int].
  - change (value []) with 0. cbn [length]. change (10 ^ Z.of_nat 0) with 1. replace (v * 1 + 0) with v by lia.
    destruct rest as [|c rest]; [ done | ]. cbn in Hr |- *. by rewrite Hr.
  - rewrite Hc. rewrite value_cons in *. cbn [length] in *. rewrite Nat2Z.inj_succ, Z.pow_succ_r in * by lia.
    pose proof (digit_value_range c Hc). pose proof (value_range ds Hds). pose proof (Z.pow_pos_nonneg 10 (Z.of_nat (length ds)) ltac:(lia) ltac:(lia)).
    assert (E : uwrap64 (v * 10 + digit_value c) = v * 10 + digit_value c) by (apply Z.mod_small; nia).
    rewrite E, IH by nia. f_equal. lia.
Qed.

Lemma ratio_frac_app ds rest part magnitude : digits ds -> ends_digits rest -> 0 <= part < magnitude ->
  magnitude * 10 ^ Z.of_nat (length ds) <= INT64_MAX ->
  ratio_frac (ds ++ rest) part magnitude = Ok (part * 10 ^ Z.of_nat (length ds) + value ds, magnitude * 10 ^ Z.of_nat (length ds), rest).
Proof.
  intros H Hr. revert part magnitude. induction H as [|c ds Hc Hds IH]; intros part magnitude Hp Hb; cbn [app ratio_frac].
  - change (value []) with 0. cbn [length]. change (10 ^ Z.of_nat 0) with 1. rewrite !Z.mul_1_r, Z.add_0_r.
    destruct rest as [|c rest]; [ done | ]. cbn in Hr |- *. by rewrite Hr.
  - rewrite Hc. cbn [length] in *. rewrite value_cons, Nat2Z.inj_succ, Z.pow_succ_r in * by lia.
    pose proof (digit_value_range c Hc). pose proof (Z.pow_pos_nonneg 10 (Z.of_nat (length ds)) ltac:(lia) ltac:(lia)).
    rewrite (proj2 (Z.ltb_ge _ _)), (proj2 (Z.ltb_ge _ _)) by nia. cbn [orb]. rewrite IH by nia. f_equal. f_equal. f_equal; lia.
Qed.

(** The zeros at the end are the only thing taken away. *)
Lemma strip_zeros_spec l G : digits G -> exists G' j, G = G' ++ replicate j zero_char /\ strip_zeros (l ++ dot :: G) = l ++ dot :: G'.
Proof.
  induction G as [|c G IH] using rev_ind; intros HG.
  - exists [], 0%nat. split; [ done | ]. unfold strip_zeros. rewrite rev_app_distr. cbn. by rewrite rev_involutive.
  - apply Forall_app in HG as [HG Hc]. destruct (Ascii.eqb_spec c zero_char) as [->|Hne].
    + destruct (IH HG) as (G' & j & -> & E). exists G', (S j). split; [ by rewrite replicate_S_end, app_assoc | ]. rewrite <- E.
      unfold strip_zeros. rewrite app_comm_cons, app_assoc, rev_app_distr. done.
    + exists (G ++ [c]), 0%nat. split; [ by rewrite app_nil_r | ]. unfold strip_zeros. rewrite app_comm_cons, app_assoc, rev_app_distr. cbn [rev app strip_zeros_rev].
      rewrite (proj2 (Ascii.eqb_neq _ _) Hne). cbn [rev]. by rewrite rev_involutive.
Qed.

(** What is left of the digits after the point. *)
Lemma stripped_fraction G' j (d : nat) : digits G' -> length (G' ++ replicate j zero_char) = d ->
  value (G' ++ replicate j zero_char) = value G' * (10 ^ Z.of_nat d / 10 ^ Z.of_nat (length G')).
Proof.
  intros HG Hl. rewrite length_app, length_replicate in Hl. rewrite value_app, value_zeros, length_replicate, Z.add_0_r. f_equal.
  replace (Z.of_nat d) with (Z.of_nat j + Z.of_nat (length G')) by lia. rewrite Z.pow_add_r by lia. symmetry. apply Z.div_mul.
  apply Z.pow_nonzero; lia.
Qed.

Lemma ratio_string_read r rest : 0 <= r < two64 * FC_REAL128_PRECISION -> ends_digits rest -> set_ratio_from_string (ratio_string r ++ rest) = Ok (r, rest).
Proof.
  intros Hr Hrest. pose proof precision_pos as Hpos. pose proof precision_fits as Hd. pose proof precision_pow10 as Hpow.
  set (P := FC_REAL128_PRECISION) in *. pose proof (Z.mod_pos_bound r P Hpos) as Hmod. pose proof (Z.div_mod r P ltac:(lia)) as Hdiv.
  assert (Hq : 0 <= r / P < two64) by (split; [ apply Z.div_pos; lia | apply Z.div_lt_upper_bound; lia ]).
  assert (HP : P <= 10 ^ 18) by (rewrite Hpow; apply Z.pow_le_mono_r; lia). change (10 ^ 18) with 1000000000000000000 in HP.
  unfold ratio_string. fold P.
  destruct (fraction_of precision_digits (r mod P)) as (G & HG & HGd & HGl & HGv); [ by rewrite <- Hpow | ].
  rewrite <- Hpow in HG. rewrite HG. destruct (strip_zeros_spec (decimal (r / P)) G HGd) as (G' & j & -> & E). rewrite E.
  apply Forall_app in HGd as [HGd _]. pose proof (decimal_digits (r / P) ltac:(lia)) as Hqd. pose proof (value_decimal (r / P) ltac:(lia)) as Hqv.
  pose proof (stripped_fraction G' j precision_digits HGd HGl) as Hfrac. rewrite HGv, <- Hpow in Hfrac.
  destruct (decimal (r / P)) as [|c q] eqn:Eq; [ by destruct (decimal_nonempty (r / P)) | ].
  pose proof (Forall_inv Hqd) as Hc. rewrite <- app_assoc. unfold set_ratio_from_string. cbn [app] in *. rewrite Hc.
  change (c :: q ++ dot :: G' ++ rest) with ((c :: q) ++ dot :: G' ++ rest). rewrite ratio_int_app by (try done; rewrite Hqv; lia).
  rewrite Hqv. cbn [Ascii.eqb]. rewrite Z.mul_0_l, Z.add_0_l.
  assert (Hu : u128 (r / P * P) = r / P * P) by (apply Z.mod_small; unfold uint128_max, two64 in *; nia). fold P. rewrite Hu.
  replace (Ascii.eqb dot dot) with true by done.
  assert (Hend : G' = [] -> r mod P = 0) by (intros ->; change (value []) with 0 in Hfrac; lia).
  destruct G' as [|d G'].
  - cbn [app]. specialize (Hend eq_refl). assert (Hres : r / P * P = r) by lia. rewrite Hres.
    destruct rest as [|x rest]; [ done | ]. cbn in Hrest. by rewrite Hrest.
  - pose proof (Forall_inv HGd) as Hdd. cbn [app]. rewrite Hdd. change (d :: G' ++ rest) with ((d :: G') ++ rest).
    assert (Hlen : (length (d :: G') <= 18)%nat) by (rewrite length_app in HGl; lia).
    assert (Hmag : 10 ^ Z.of_nat (length (d :: G')) <= 10 ^ 18) by (apply Z.pow_le_mono_r; lia). change (10 ^ 18) with 1000000000000000000 in Hmag.
    rewrite ratio_frac_app by (try done; unfold INT64_MAX; lia). cbn [rbind]. rewrite !Z.mul_0_l, Z.add_0_l, Z.mul_1_l. rewrite <- Hfrac.
    assert (Hu2 : u128 (r mod P) = r mod P) by (apply Z.mod_small; unfold uint128_max; lia). rewrite Hu2.
    f_equal. f_equal. unfold u128. rewrite Z.mod_small by (unfold uint128_max, two64 in *; nia). lia.
Qed.

Lemma signed_digits_hyphen l : signed_digits (hyphen :: l) = (true, (span_digits l).1, (span_digits l).2).
Proof.
  unfold signed_digits. cbn [skip_spaces]. replace (isspace hyphen) with false by done.
  replace (Ascii.eqb hyphen hyphen) with true by done. by destruct (span_digits l).
Qed.

Lemma read_int32_signed z rest : -2147483648 <= z <= 2147483647 -> ends_digits rest ->
  read_int32 (signed_decimal z ++ rest) = (z, true, rest) /\ read_int32 (space :: signed_decimal z ++ rest) = (z, true, rest).
Proof.
  intros Hz Hr. assert (E : read_int32 (signed_decimal z ++ rest) = (z, true, rest)); [ | split; [ done | by rewrite <- E ] ].
  unfold read_int32, signed_decimal. destruct (Z.ltb_spec z 0).
  - cbn [app]. rewrite signed_digits_hyphen, span_digits_app by (done || apply decimal_digits; lia).
    cbn [fst snd]. rewrite bool_decide_eq_false_2 by apply decimal_nonempty. rewrite value_decimal by lia. replace (- - z) with z by lia.
    by rewrite (proj2 (Z.ltb_ge _ _)), (proj2 (Z.ltb_ge _ _)) by lia.
  - rewrite signed_digits_app by (done || apply decimal_nonempty || apply decimal_digits; lia).
    rewrite bool_decide_eq_false_2 by apply decimal_nonempty. rewrite value_decimal by lia.
    by rewrite (proj2 (Z.ltb_ge _ _)), (proj2 (Z.ltb_ge _ _)) by lia.
Qed.

(** A price whose integral part fits 64 bits is read as it was written, and
    so is its ratio alone. *)
Theorem price_text_roundtrip (p : price) : 0 <= ratio p < two64 * FC_REAL128_PRECISION ->
  -2147483648 <= base_asset_id p < quote_asset_id p -> quote_asset_id p <= 2147483647 ->
  price_of_string (price_to_string p) = Ok p /\ set_ratio_from_string (ratio_string (ratio p)) = Ok (ratio p, []).
Proof.
  intros Hr Hb Hq. split; [ | rewrite <- (app_nil_r (ratio_string _)); by apply ratio_string_read ].
  unfold price_of_string, price_to_string. rewrite ratio_string_read by done. cbn [rbind]. unfold read_ids.
  destruct (read_int32_signed (quote_asset_id p) (slash :: signed_decimal (base_asset_id p)) ltac:(lia) ltac:(done)) as [_ ->]. cbn [negb].
  change (skip_spaces (slash :: ?l)) with (slash :: l). cbn [skip_spaces].
  replace (isspace slash) with false by done. pose proof (read_int32_signed (base_asset_id p) [] ltac:(lia) ltac:(done)) as [E _].
  rewrite app_nil_r in E. rewrite E. rewrite (proj2 (Z.ltb_lt _ _)) by lia. cbn. by destruct p.
Qed.
End prices.

#[local] Existing Instance fc_exact.

Lemma price_text_roundtrip_witness : price_to_string (mk_price 12345000000000000000 0 7) = chars "12.345 7/0"
  /\ price_of_string (price_to_string (mk_price 12345000000000000000 0 7)) = Ok (mk_price 12345000000000000000 0 7).
Proof.
  split; [ by vm_compute | ]. apply (price_text_roundtrip (mk_price 12345000000000000000 0 7)); vm_compute; repeat split; discriminate.
Defined.

(** The infinite price is not read as it was written. *)
Example infinite_price_text : set_ratio_from_string (ratio_string price_infinite) = Ok (8240973594166534375374607431768211455, []).
Proof. vm_compute. reflexivity. Qed.

Definition demo_pretty : PrettyNumber := {| to_pretty_string := decimal |}.
Definition cent_asset : asset_record :=
  mk_asset_record 1 "CENT" null_issuer_id 0 {| ms_required := 1; ms_owners := ∅ |} 4294967295 0 ∅ "cent" "" ""
    100000 1000000000 0 0 0 0 0 0 0.

Lemma amount_text_roundtrip_witness : exists text, @amount_to_string demo_pretty (-1234567) false cent_asset = Ok text
  /\ asset_from_string text cent_asset = Ok (mk_asset (-1234567) (as_id cent_asset)).
Proof.
  apply (@amount_text_roundtrip demo_pretty (fun _ _ => eq_refl) [] [] 5 (-1234567) cent_asset); (lia || constructor || (vm_compute; done)).
Defined.
