(* ===== verification/AddressText.v ===== *)
(** Addresses and keys as text (address.cpp, pts_address.cpp, types.cpp): a
    prefix and the base 58 digits of the bytes with a checksum.

    An address is the number of its 20 bytes, a public key of its 33, an
    address of ProtoShares or Bitcoin of its 25. The hashes and the conversion
    of digits are parameters. *)

From S2P Require Import Prelude Names Records Keys Concrete MemoProps.

Class TextCodec := {
  to_base58 : list Z -> string;
  from_base58 : string -> result (list Z);
  ripemd160 : list Z -> list Z;
  sha256 : list Z -> list Z }.

Definition is_byte (z : Z) : Prop := 0 <= z < 256.
#[export] Instance is_byte_dec z : Decision (is_byte z).
Proof. unfold is_byte. apply _. Defined.

(** What is documented of them: digits can be read again, and the lengths. *)
Class TextLaws `{TextCodec} := {
  base58_inverse : forall l, Forall is_byte l -> from_base58 (to_base58 l) = Ok l;
  base58_nonempty : forall l, l <> [] -> to_base58 l <> ""%string;
  ripemd160_length : forall l, length (ripemd160 l) = 20%nat;
  ripemd160_bytes : forall l, Forall is_byte (ripemd160 l);
  sha256_length : forall l, length (sha256 l) = 32%nat;
  sha256_bytes : forall l, Forall is_byte (sha256 l) }.

Definition ADDRESS_PREFIX : string := "PDV".

(** [substr( prefix.size() )], of a string that is longer. *)
Definition after_prefix (prefix s : string) : string :=
  String.substring (String.length prefix) (String.length s - String.length prefix) s.
Definition has_prefix (prefix s : string) : bool :=
  bool_decide (String.substring 0 (String.length prefix) s = prefix).

Section text.
Context `{Tc : TextCodec}.

(** ** Addresses *)

Definition address_checksum (v : list Z) : list Z := take 4 (ripemd160 v).

Definition address_to_string (a : address) : string :=
  (ADDRESS_PREFIX ++ to_base58 (le_bytes 20 a ++ address_checksum (le_bytes 20 a)))%string.

(** A character that is not a digit makes the address invalid. *)
Definition address_is_valid (base58str prefix : string) : result bool :=
  if (String.length base58str <=? String.length prefix)%nat then Ok false
  else if negb (has_prefix prefix base58str) then Ok false
  else
    match from_base58 (after_prefix prefix base58str) with
    | Throw parse_error => Ok false
    | Throw e => Throw e
    | Ok v =>
        if negb (length v =? 24)%nat then Ok false
        else Ok (bool_decide (drop 20 v = address_checksum (take (length v - 4) v)))
    end.

Definition address_of_string (base58str : string) : result address :=
  valid <- address_is_valid base58str ADDRESS_PREFIX ;;
  _ <- fc_assert valid ;;
  v <- from_base58 (after_prefix ADDRESS_PREFIX base58str) ;;
  Ok (of_le (take (Nat.min (length v - 4) 20) v)).

(** ** Public keys *)

Definition key_check (data : list Z) : list Z := take 4 (ripemd160 data).

Definition key_to_string (k : public_key) : string :=
  (ADDRESS_PREFIX ++ to_base58 (le_bytes 33 k ++ key_check (le_bytes 33 k)))%string.

(** [unpack< binary_key >]: bytes that follow are not read. *)
Definition unpack_binary_key (bin : list Z) : result (list Z * list Z) :=
  if (37 <=? length bin)%nat then Ok (take 33 bin, take 4 (drop 33 bin)) else Throw out_of_range.

Definition key_of_string (base58str : string) : result public_key :=
  _ <- fc_assert (String.length ADDRESS_PREFIX <? String.length base58str)%nat ;;
  _ <- fc_assert (has_prefix ADDRESS_PREFIX base58str) ;;
  bin <- from_base58 (after_prefix ADDRESS_PREFIX base58str) ;;
  bin_key <- unpack_binary_key bin ;; let '(data, check) := bin_key in
  _ <- fc_assert (bool_decide (key_check data = check)) ;;
  Ok (of_le data).

(** ** Addresses of ProtoShares and Bitcoin *)

Definition pts_check (l : list Z) : list Z := take 4 (sha256 (sha256 (take 21 l))).

(** [pts_address( pub, compressed, version )], of the serialized point. *)
Definition make_pts_address (point : list Z) (version : Z) : list Z :=
  let versioned := version :: ripemd160 (sha256 point) in
  versioned ++ pts_check versioned.

Definition pts_is_valid (l : list Z) : bool := bool_decide (drop 21 l = pts_check l).

Definition pts_to_string (l : list Z) : string := to_base58 l.

(** The bytes that a short string does not fill are not initialized. *)
Definition pts_of_string (base58str : string) : result (list Z) :=
  v <- from_base58 base58str ;;
  if (length v <? 25)%nat then Throw undefined_behaviour
  else
    let addr := take 25 v in
    if pts_is_valid addr then Ok addr else Throw invalid_pts_address.
End text.

(** ** Reading what was written *)

Lemma substring_full s : String.substring 0 (String.length s) s = s.
Proof. induction s as [|c s IH]; [ done | ]. cbn. by rewrite IH. Qed.

Lemma append_cons c p s : (String.String c p ++ s)%string = String.String c (p ++ s).
Proof. done. Qed.

Lemma substring_prefix p s : String.substring 0 (String.length p) (p ++ s) = p.
Proof. induction p as [|c p IH]; [ by destruct s | ]. rewrite append_cons. cbn. by rewrite IH. Qed.

Lemma substring_after p s n : String.substring (String.length p) n (p ++ s) = String.substring 0 n s.
Proof. induction p as [|c p IH]; [ done | ]. rewrite append_cons. apply IH. Qed.

Lemma string_app_length p s : String.length (p ++ s) = (String.length p + String.length s)%nat.
Proof. induction p as [|c p IH]; [ done | ]. rewrite append_cons. cbn. by rewrite IH. Qed.

Lemma has_prefix_app p s : has_prefix p (p ++ s) = true.
Proof. unfold has_prefix. apply bool_decide_eq_true_2, substring_prefix. Qed.

Lemma after_prefix_app p s : after_prefix p (p ++ s) = s.
Proof.
  unfold after_prefix. rewrite substring_after, string_app_length.
  replace (String.length p + String.length s - String.length p)%nat with (String.length s) by lia. apply substring_full.
Qed.

Lemma le_bytes_bytes n z : Forall is_byte (le_bytes n z).
Proof. revert z. induction n as [|n IH]; intros z; cbn [le_bytes]; constructor; [ by apply Z.mod_pos_bound | apply IH ]. Qed.

Section laws.
Context `{Tc : TextCodec} `{Tl : !TextLaws}.

Lemma text_longer p l : l <> [] -> (String.length p < String.length (p ++ to_base58 l))%nat.
Proof.
  intros H%base58_nonempty. rewrite string_app_length. destruct (to_base58 l); [ done | cbn; lia ].
Qed.

Lemma read_digits p l : Forall is_byte l -> from_base58 (after_prefix p (p ++ to_base58 l)) = Ok l.
Proof. intros H. rewrite after_prefix_app. by apply base58_inverse. Qed.

Lemma check_length l : length (address_checksum l) = 4%nat.
Proof. unfold address_checksum. rewrite length_take, ripemd160_length. done. Qed.
Lemma check_bytes l : Forall is_byte (address_checksum l).
Proof. apply Forall_take, ripemd160_bytes. Qed.

(** A string is a valid address exactly if it is the prefix and digits of 24
    bytes of which the last four are the checksum of the others. *)
Lemma address_is_valid_spec prefix s v : from_base58 (after_prefix prefix s) = Ok v ->
  address_is_valid s prefix = Ok true <->
  (String.length prefix < String.length s)%nat /\ has_prefix prefix s = true
  /\ exists data, length data = 20%nat /\ v = data ++ address_checksum data.
Proof.
  intros E. unfold address_is_valid. destruct (Nat.leb_spec (String.length s) (String.length prefix)) as [Hl|Hl].
  { split; [ done | intros [? _]; lia ]. }
  destruct (has_prefix prefix s); cbn [negb]; [ | by split; intros; [ | destruct_and? ] ]. rewrite E.
  destruct (Nat.eqb_spec (length v) 24) as [Hv|Hv]; cbn [negb].
  - rewrite Hv. cbn [Nat.sub]. split.
    + intros H%Ok_inj%bool_decide_eq_true_1. split_and!; [ lia | done | ]. exists (take 20 v).
      rewrite length_take, Hv, <- H, take_drop. done.
    + intros (_ & _ & data & Hd & ->). f_equal. apply bool_decide_eq_true_2. by rewrite take_app_length', drop_app_length'.
  - split; [ done | ]. intros (_ & _ & data & Hd & ->). rewrite length_app, check_length, Hd in Hv. done.
Qed.

Lemma checked_bytes n z : Forall is_byte (le_bytes n z ++ address_checksum (le_bytes n z)).
Proof. apply Forall_app; split; [ apply le_bytes_bytes | apply check_bytes ]. Qed.
Lemma checked_length n z : length (le_bytes n z ++ address_checksum (le_bytes n z)) = (n + 4)%nat.
Proof. by rewrite length_app, check_length, le_bytes_length. Qed.

(** Reading the digits of a key: the bytes are the key's if there are enough. *)
Lemma key_of_digits v : v <> [] -> Forall is_byte v -> key_of_string (ADDRESS_PREFIX ++ to_base58 v) =
  (bin_key <- unpack_binary_key v ;; let '(data, check) := bin_key in
   _ <- fc_assert (bool_decide (key_check data = check)) ;; Ok (of_le data)).
Proof.
  intros Hn Hv. unfold key_of_string. pose proof (text_longer ADDRESS_PREFIX v Hn) as L. apply Nat.ltb_lt in L. rewrite L, has_prefix_app.
  cbn [rbind fc_assert]. by rewrite read_digits.
Qed.

(** What an address, a public key or an address of another chain is printed
    as is valid and read as the same; an address and a public key are never
    taken for one another. *)
Theorem text_roundtrip a k l : 0 <= a < 256 ^ 20 -> 0 <= k < 256 ^ 33 -> length l = 25%nat -> Forall is_byte l -> pts_is_valid l = true ->
  (address_is_valid (address_to_string a) ADDRESS_PREFIX = Ok true /\ address_of_string (address_to_string a) = Ok a)
  /\ (key_of_string (key_to_string k) = Ok k /\ address_is_valid (key_to_string k) ADDRESS_PREFIX = Ok false
      /\ key_of_string (address_to_string a) = Throw out_of_range)
  /\ pts_of_string (pts_to_string l) = Ok l.
Proof.
  intros Ha Hk Hl Hb Hv.
  assert (Hvalid : address_is_valid (address_to_string a) ADDRESS_PREFIX = Ok true).
  { apply (address_is_valid_spec _ _ _ (read_digits _ _ (checked_bytes 20 a))). split_and!; [ by apply text_longer | apply has_prefix_app | ].
    exists (le_bytes 20 a). by rewrite le_bytes_length. }
  split_and!; [ done | | | | | ].
  - unfold address_of_string. rewrite Hvalid. cbn [rbind fc_assert]. unfold address_to_string. rewrite (read_digits _ _ (checked_bytes 20 a)).
    cbn [rbind]. f_equal. rewrite checked_length. rewrite take_app_length' by by rewrite le_bytes_length. by apply of_le_bytes.
  - unfold key_to_string. rewrite key_of_digits by (done || apply checked_bytes). unfold unpack_binary_key. rewrite checked_length. cbn [Nat.leb Nat.add rbind].
    rewrite take_app_length', drop_app_length' by by rewrite le_bytes_length.
    rewrite take_ge by by rewrite check_length. rewrite bool_decide_eq_true_2 by done. cbn [rbind fc_assert]. f_equal. by apply of_le_bytes.
  - unfold address_is_valid, key_to_string. rewrite (proj2 (Nat.leb_gt _ _)) by by apply text_longer. rewrite has_prefix_app. cbn [negb].
    by rewrite (read_digits _ _ (checked_bytes 33 k)), checked_length.
  - unfold address_to_string. rewrite key_of_digits by (done || apply checked_bytes). unfold unpack_binary_key. by rewrite checked_length.
  - unfold pts_of_string, pts_to_string. rewrite base58_inverse by done. cbn [rbind]. rewrite Hl. cbn [Nat.ltb Nat.leb].
    rewrite take_ge by lia. by rewrite Hv.
Qed.
End laws.

(** ** A concrete codec: digits are the bytes, hashes are short sums *)

Definition demo_digits (l : list Z) : string := unchars (map byte_char l).
Definition demo_codec_hash (n : nat) (l : list Z) : list Z := le_bytes n (fold_right (fun b h => 31 * h + b + 7) 5 l).
Definition demo_text : TextCodec := {|
  to_base58 := demo_digits;
  from_base58 := fun s => Ok (string_bytes s);
  ripemd160 := demo_codec_hash 20;
  sha256 := demo_codec_hash 32 |}.

Lemma code_byte_char z : is_byte z -> code (byte_char z) = z.
Proof. intros H. unfold is_byte in H. unfold code, byte_char. rewrite Ascii.nat_ascii_embedding by lia. lia. Qed.

Lemma string_bytes_digits l : Forall is_byte l -> string_bytes (demo_digits l) = l.
Proof.
  intros H. unfold string_bytes, demo_digits, chars, unchars. rewrite Stdlib.Strings.String.list_ascii_of_string_of_list_ascii.
  induction H as [|z l Hz _ IH]; [ done | ]. cbn [map]. by rewrite code_byte_char, IH.
Qed.

#[export] Instance demo_text_laws : @TextLaws demo_text.
Proof.
  split; cbn -[le_bytes].
  - intros l H. change (Ok (string_bytes (demo_digits l)) = Ok l). by rewrite string_bytes_digits.
  - by intros [|z l] H.
  - intros l. apply le_bytes_length.
  - intros l. apply le_bytes_bytes.
  - intros l. apply le_bytes_length.
  - intros l. apply le_bytes_bytes.
Qed.

#[local] Existing Instance demo_text.

Lemma text_roundtrip_witness :
  address_of_string (address_to_string 123456) = Ok 123456 /\ key_of_string (key_to_string 654321) = Ok 654321
  /\ pts_of_string (pts_to_string (make_pts_address [1; 2; 3] 56)) = Ok (make_pts_address [1; 2; 3] 56).
Proof.
  destruct (text_roundtrip 123456 654321 (make_pts_address [1; 2; 3] 56)) as ([_ Ha] & [Hk _] & Hl).
  - by vm_compute.
  - by vm_compute.
  - by vm_compute.
  - apply (bool_decide_eq_true_1 (Forall is_byte (make_pts_address [1; 2; 3] 56))). by vm_compute.
  - by vm_compute.
  - split; [ exact Ha | split; [ exact Hk | exact Hl ] ].
Defined.

(** A character changed in an address is noticed. *)
Example changed_address_invalid : address_is_valid ("PDVx" ++ demo_digits (drop 1 (le_bytes 20 123456 ++ address_checksum (le_bytes 20 123456)))) ADDRESS_PREFIX = Ok false.
Proof. vm_compute. reflexivity. Qed.
