(* ===== verification/WalletDb.v ===== *)
(** The wallet's database (wallet_records.hpp, wallet_records.cpp,
    wallet_db.cpp): records of accounts, keys, contacts, approvals,
    transactions, packets, settings and properties, each kept in a map on disk
    under an index and in maps in memory, with the caches that find them.

    A record on disk is its structure, tagged with its type; a variant is the
    value it holds. The data of a contact is a string. [blockchain::now()] and
    the random keys are arguments. *)

From S2P Require Import Prelude StateMonad Asset Names Records Keys Building Storage.

(** ** Records (wallet_records.hpp) *)

Inductive property_enum :=
  | version | next_record_number | next_child_key_index | automatic_backups | transaction_scanning
  | last_unlocked_scanned_block_number | default_transaction_priority_fee | transaction_expiration_sec.
#[export] Instance property_enum_eq_dec : EqDecision property_enum.
Proof. solve_decision. Defined.
#[export] Instance property_enum_countable : Countable property_enum.
Proof.
  refine (inj_countable' (fun p =>
    match p with
    | version => 0 | next_record_number => 1 | next_child_key_index => 2 | automatic_backups => 3 | transaction_scanning => 4
    | last_unlocked_scanned_block_number => 5 | default_transaction_priority_fee => 6 | transaction_expiration_sec => 7
    end)
    (fun n => if n =? 0 then version else if n =? 1 then next_record_number else if n =? 2 then next_child_key_index
      else if n =? 3 then automatic_backups else if n =? 4 then transaction_scanning
      else if n =? 5 then last_unlocked_scanned_block_number else if n =? 6 then default_transaction_priority_fee
      else transaction_expiration_sec) _). by intros [].
Defined.

(** The values of properties. *)
Inductive variant := null_variant | int_variant (n : Z) | bool_variant (b : bool) | asset_variant (a : asset).
Definition is_null (v : variant) : bool := match v with null_variant => true | _ => false end.
Definition as_int (v : variant) : result Z :=
  match v with int_variant n => Ok n | bool_variant b => Ok (if b then 1 else 0) | _ => Throw bad_cast_exception end.

Record wallet_property := { wp_key : property_enum; wp_value : variant }.
Record master_key := { master_encrypted_key : list Z; master_checksum : Z }.
(** An [account_data] is an [account_record] with three members more. *)
Record account_data := mk_account_data {
  ad_account : account_record; ad_last_child_key_index : Z; ad_block_production_enabled : bool; ad_custom_data : string }.
Record key_data := mk_key_data {
  kd_account_address : address; kd_child_key_index : Z; kd_public_key : public_key; kd_encrypted_private_key : list Z;
  kd_valid_from_signature : bool; kd_memo : option string }.
Inductive contact_type := contact_account_name | contact_public_key | contact_address | contact_btc_address.
Record contact_data := mk_contact {
  cd_contact_type : contact_type; cd_data : string; cd_label : string; cd_custom_data : string }.
Record approval_data := { ap_name : string; ap_approval : Z; ap_custom_data : string }.
Record ledger_entry := mk_ledger_entry {
  le_from_account : option public_key; le_to_account : option public_key; le_amount : asset; le_memo : string;
  le_memo_from_account : option public_key }.
Record transaction_data := {
  td_record_id : transaction_id; td_block_num : Z; td_is_virtual : bool; td_is_confirmed : bool; td_is_market : bool;
  td_trx : signed_transaction; td_ledger_entries : list ledger_entry; td_fee : asset; td_created_time : time;
  td_received_time : time }.
Record transaction_info := mk_transaction_info {
  ti_record_id : transaction_id; ti_block_num : Z; ti_is_virtual : bool; ti_is_confirmed : bool; ti_contract : string;
  ti_trx : signed_transaction; ti_ledger_entries : list ledger_entry; ti_fee : asset; ti_created_time : time;
  ti_received_time : time }.
Record packet_info := { pi_packet_id : Z; pi_account_id : account_id; pi_is_sender : bool; pi_is_claimer : bool }.
Record setting := { se_name : string; se_value : string }.

(** [wallet_record]: the data and where it is on disk. *)
Record wallet_record (D : Type) := mk_wallet_record { wallet_record_index : Z; record_data : D }.
Arguments mk_wallet_record {D} _ _.
Arguments wallet_record_index {D} _.
Arguments record_data {D} _.

(** [generic_wallet_record]: the type of the record and the record. *)
Inductive generic_record :=
  | property_record (r : wallet_record wallet_property)
  | master_key_record (r : wallet_record master_key)
  | account_wallet_record (r : wallet_record account_data)
  | key_record (r : wallet_record key_data)
  | contact_record (r : wallet_record contact_data)
  | approval_record (r : wallet_record approval_data)
  | deprecated_transaction_record (r : wallet_record transaction_data)
  | transaction_info_record (r : wallet_record transaction_info)
  | setting_record (r : wallet_record setting)
  | packet_info_record (r : wallet_record packet_info).

Definition get_wallet_record_index (g : generic_record) : Z :=
  match g with
  | property_record r => wallet_record_index r
  | master_key_record r => wallet_record_index r
  | account_wallet_record r => wallet_record_index r
  | key_record r => wallet_record_index r
  | contact_record r => wallet_record_index r
  | approval_record r => wallet_record_index r
  | deprecated_transaction_record r => wallet_record_index r
  | transaction_info_record r => wallet_record_index r
  | setting_record r => wallet_record_index r
  | packet_info_record r => wallet_record_index r
  end.

Definition is_registered (a : account_data) : bool := 0 <? ac_id (ad_account a).
Definition has_private_key (k : key_data) : bool := negb (bool_decide (kd_encrypted_private_key k = [])).

(** ** Encryption of keys (wallet_records.cpp) *)

(** Hashes: of a password, of a packed index, of a packed address and index. *)
Class WalletHash := {
  sha512_hash : secret512 -> Z; index_hash : Z -> Z; address_index_hash : address -> Z -> Z }.

Section encryption.
Context `{Cr : Crypto} `{Kc : KeyCrypto} `{Wh : WalletHash}.

Definition kd_address (k : key_data) : address := key_address (kd_public_key k).

Definition pack_private_key (k : private_key) : list Z := le_bytes 32 k.
Definition unpack_private_key (l : list Z) : result private_key :=
  if (32 <=? length l)%nat then Ok (of_le (take 32 l)) else Throw out_of_range.
Definition pack_extended_key (k : extended_private_key) : list Z := le_bytes 32 (xk_priv_key k) ++ le_bytes 32 (xk_chain_code k).
Definition unpack_extended_key (l : list Z) : result extended_private_key :=
  if (64 <=? length l)%nat then Ok {| xk_priv_key := of_le (take 32 l); xk_chain_code := of_le (take 32 (drop 32 l)) |}
  else Throw out_of_range.

Definition extended_key_eqb (a b : extended_private_key) : bool :=
  (xk_priv_key a =? xk_priv_key b) && (xk_chain_code a =? xk_chain_code b).

(** The null password is the default [sha512]. *)
Definition decrypt_key (password : secret512) (m : master_key) : result extended_private_key :=
  _ <- fc_assert (negb (password =? 0)) ;;
  _ <- fc_assert (negb (bool_decide (master_encrypted_key m = []))) ;;
  plain_text <- aes_decrypt password (master_encrypted_key m) ;;
  unpack_extended_key plain_text.

Definition check_password (password : secret512) (m : master_key) : bool := master_checksum m =? sha512_hash password.

Definition encrypt_key (password : secret512) (k : extended_private_key) : result master_key :=
  _ <- fc_assert (negb (password =? 0)) ;;
  let m := {| master_encrypted_key := aes_encrypt password (pack_extended_key k); master_checksum := sha512_hash password |} in
  k_dec <- decrypt_key password m ;;
  _ <- fc_assert (extended_key_eqb k_dec k) ;;
  Ok m.

Definition decrypt_private_key (password : secret512) (k : key_data) : result private_key :=
  _ <- fc_assert (negb (password =? 0)) ;;
  plain_text <- aes_decrypt password (kd_encrypted_private_key k) ;;
  unpack_private_key plain_text.

Definition encrypt_private_key (password : secret512) (key : private_key) (k : key_data) : result key_data :=
  _ <- fc_assert (negb (password =? 0)) ;;
  let k := mk_key_data (kd_account_address k) (kd_child_key_index k) (get_public_key key)
             (aes_encrypt password (pack_private_key key)) (kd_valid_from_signature k) (kd_memo k) in
  decrypted <- decrypt_private_key password k ;;
  _ <- fc_assert (key =? decrypted) ;;
  Ok k.
End encryption.

(** ** The state

    The records on disk, the records in memory, and the caches. *)

Record wallet_db := mk_wallet_db {
  w_records : level_map Z generic_record;
  w_properties : gmap property_enum (wallet_record wallet_property);
  w_master_key : option (wallet_record master_key);
  w_accounts : gmap Z (wallet_record account_data);
  w_keys : gmap address (wallet_record key_data);
  w_contacts : gmap string (wallet_record contact_data);
  w_approvals : gmap string (wallet_record approval_data);
  w_transactions : gmap transaction_id (wallet_record transaction_info);
  w_settings : gmap string (wallet_record setting);
  w_packets : gmap Z (wallet_record packet_info);
  w_address_to_account : gmap address Z;
  w_name_to_account : gmap string Z;
  w_id_to_account : gmap account_id Z;
  w_btc_to_bts : gmap address address;
  w_labels : gmap string string;
  w_id_to_transaction : gmap transaction_id transaction_id }.

Definition with_records (v : level_map Z generic_record) (w : wallet_db) : wallet_db :=
  mk_wallet_db v (w_properties w) (w_master_key w) (w_accounts w) (w_keys w) (w_contacts w) (w_approvals w)
    (w_transactions w) (w_settings w) (w_packets w) (w_address_to_account w) (w_name_to_account w) (w_id_to_account w)
    (w_btc_to_bts w) (w_labels w) (w_id_to_transaction w).
Definition with_properties (v : gmap property_enum (wallet_record wallet_property)) (w : wallet_db) : wallet_db :=
  mk_wallet_db (w_records w) v (w_master_key w) (w_accounts w) (w_keys w) (w_contacts w) (w_approvals w) (w_transactions w)
    (w_settings w) (w_packets w) (w_address_to_account w) (w_name_to_account w) (w_id_to_account w) (w_btc_to_bts w)
    (w_labels w) (w_id_to_transaction w).
Definition with_master_key (v : option (wallet_record master_key)) (w : wallet_db) : wallet_db :=
  mk_wallet_db (w_records w) (w_properties w) v (w_accounts w) (w_keys w) (w_contacts w) (w_approvals w) (w_transactions w)
    (w_settings w) (w_packets w) (w_address_to_account w) (w_name_to_account w) (w_id_to_account w) (w_btc_to_bts w)
    (w_labels w) (w_id_to_transaction w).
Definition with_accounts (v : gmap Z (wallet_record account_data)) (w : wallet_db) : wallet_db :=
  mk_wallet_db (w_records w) (w_properties w) (w_master_key w) v (w_keys w) (w_contacts w) (w_approvals w) (w_transactions w)
    (w_settings w) (w_packets w) (w_address_to_account w) (w_name_to_account w) (w_id_to_account w) (w_btc_to_bts w)
    (w_labels w) (w_id_to_transaction w).
Definition with_keys (v : gmap address (wallet_record key_data)) (w : wallet_db) : wallet_db :=
  mk_wallet_db (w_records w) (w_properties w) (w_master_key w) (w_accounts w) v (w_contacts w) (w_approvals w)
    (w_transactions w) (w_settings w) (w_packets w) (w_address_to_account w) (w_name_to_account w) (w_id_to_account w)
    (w_btc_to_bts w) (w_labels w) (w_id_to_transaction w).
Definition with_contacts (v : gmap string (wallet_record contact_data)) (w : wallet_db) : wallet_db :=
  mk_wallet_db (w_records w) (w_properties w) (w_master_key w) (w_accounts w) (w_keys w) v (w_approvals w) (w_transactions w)
    (w_settings w) (w_packets w) (w_address_to_account w) (w_name_to_account w) (w_id_to_account w) (w_btc_to_bts w)
    (w_labels w) (w_id_to_transaction w).
Definition with_approvals (v : gmap string (wallet_record approval_data)) (w : wallet_db) : wallet_db :=
  mk_wallet_db (w_records w) (w_properties w) (w_master_key w) (w_accounts w) (w_keys w) (w_contacts w) v (w_transactions w)
    (w_settings w) (w_packets w) (w_address_to_account w) (w_name_to_account w) (w_id_to_account w) (w_btc_to_bts w)
    (w_labels w) (w_id_to_transaction w).
Definition with_transactions (v : gmap transaction_id (wallet_record transaction_info)) (w : wallet_db) : wallet_db :=
  mk_wallet_db (w_records w) (w_properties w) (w_master_key w) (w_accounts w) (w_keys w) (w_contacts w) (w_approvals w) v
    (w_settings w) (w_packets w) (w_address_to_account w) (w_name_to_account w) (w_id_to_account w) (w_btc_to_bts w)
    (w_labels w) (w_id_to_transaction w).
Definition with_settings (v : gmap string (wallet_record setting)) (w : wallet_db) : wallet_db :=
  mk_wallet_db (w_records w) (w_properties w) (w_master_key w) (w_accounts w) (w_keys w) (w_contacts w) (w_approvals w)
    (w_transactions w) v (w_packets w) (w_address_to_account w) (w_name_to_account w) (w_id_to_account w) (w_btc_to_bts w)
    (w_labels w) (w_id_to_transaction w).
Definition with_packets (v : gmap Z (wallet_record packet_info)) (w : wallet_db) : wallet_db :=
  mk_wallet_db (w_records w) (w_properties w) (w_master_key w) (w_accounts w) (w_keys w) (w_contacts w) (w_approvals w)
    (w_transactions w) (w_settings w) v (w_address_to_account w) (w_name_to_account w) (w_id_to_account w) (w_btc_to_bts w)
    (w_labels w) (w_id_to_transaction w).
Definition with_address_to_account (v : gmap address Z) (w : wallet_db) : wallet_db :=
  mk_wallet_db (w_records w) (w_properties w) (w_master_key w) (w_accounts w) (w_keys w) (w_contacts w) (w_approvals w)
    (w_transactions w) (w_settings w) (w_packets w) v (w_name_to_account w) (w_id_to_account w) (w_btc_to_bts w) (w_labels w)
    (w_id_to_transaction w).
Definition with_name_to_account (v : gmap string Z) (w : wallet_db) : wallet_db :=
  mk_wallet_db (w_records w) (w_properties w) (w_master_key w) (w_accounts w) (w_keys w) (w_contacts w) (w_approvals w)
    (w_transactions w) (w_settings w) (w_packets w) (w_address_to_account w) v (w_id_to_account w) (w_btc_to_bts w)
    (w_labels w) (w_id_to_transaction w).
Definition with_id_to_account (v : gmap account_id Z) (w : wallet_db) : wallet_db :=
  mk_wallet_db (w_records w) (w_properties w) (w_master_key w) (w_accounts w) (w_keys w) (w_contacts w) (w_approvals w)
    (w_transactions w) (w_settings w) (w_packets w) (w_address_to_account w) (w_name_to_account w) v (w_btc_to_bts w)
    (w_labels w) (w_id_to_transaction w).
Definition with_btc_to_bts (v : gmap address address) (w : wallet_db) : wallet_db :=
  mk_wallet_db (w_records w) (w_properties w) (w_master_key w) (w_accounts w) (w_keys w) (w_contacts w) (w_approvals w)
    (w_transactions w) (w_settings w) (w_packets w) (w_address_to_account w) (w_name_to_account w) (w_id_to_account w) v
    (w_labels w) (w_id_to_transaction w).
Definition with_labels (v : gmap string string) (w : wallet_db) : wallet_db :=
  mk_wallet_db (w_records w) (w_properties w) (w_master_key w) (w_accounts w) (w_keys w) (w_contacts w) (w_approvals w)
    (w_transactions w) (w_settings w) (w_packets w) (w_address_to_account w) (w_name_to_account w) (w_id_to_account w)
    (w_btc_to_bts w) v (w_id_to_transaction w).
Definition with_id_to_transaction (v : gmap transaction_id transaction_id) (w : wallet_db) : wallet_db :=
  mk_wallet_db (w_records w) (w_properties w) (w_master_key w) (w_accounts w) (w_keys w) (w_contacts w) (w_approvals w)
    (w_transactions w) (w_settings w) (w_packets w) (w_address_to_account w) (w_name_to_account w) (w_id_to_account w)
    (w_btc_to_bts w) (w_labels w) v.

Definition wallet_db_empty : wallet_db := mk_wallet_db level_map_empty ∅ None ∅ ∅ ∅ ∅ ∅ ∅ ∅ ∅ ∅ ∅ ∅ ∅ ∅.

Abbreviation wallet_m := (state_m wallet_db).

(** ** Loading a record *)

Section loading.
Context `{Cr : Crypto} `{Kc : KeyCrypto} `{Tx : TxCrypto}.
Implicit Types w : wallet_db.

Definition key_history (h : gmap Z public_key) : gset public_key := list_to_set (map snd (map_to_list h)).

(** [scan_public_keys]: null signing keys are visited. *)
Definition scan_public_keys (r : account_record) : gset public_key :=
  {[ ac_owner_key r ]} ∪ (key_history (ac_active_key_history r) ∖ {[ null_key ]})
  ∪ match ac_delegate_info r with Some d => key_history (ds_signing_key_history d) | None => ∅ end.

(** The cache for the addresses of [keys]: they all refer to [index]. *)
Definition index_keys {V} (keys : list public_key) (index : V) (m : gmap address V) : gmap address V :=
  foldl (fun m k => <[key_address k := index]> m) m keys.

Definition load_property_record (r : wallet_record wallet_property) w : wallet_db :=
  with_properties (<[wp_key (record_data r) := r]> (w_properties w)) w.

Definition load_master_key_record (r : wallet_record master_key) w : wallet_db := with_master_key (Some r) w.

Definition load_account_record (r : wallet_record account_data) w : wallet_db :=
  let record_index := wallet_record_index r in
  let account := ad_account (record_data r) in
  let w := with_accounts (<[record_index := r]> (w_accounts w)) w in
  let w := with_address_to_account (index_keys (elements (scan_public_keys account)) record_index (w_address_to_account w)) w in
  let w := with_name_to_account (<[ac_name account := record_index]> (w_name_to_account w)) w in
  if negb (ac_id account =? 0) then with_id_to_account (<[ac_id account := record_index]> (w_id_to_account w)) w else w.

(** The addresses under which a key is found. *)
Definition addresses_of (k : public_key) : list address :=
  [key_address k; pts_key_address k false 0; pts_key_address k true 0; pts_key_address k false 56; pts_key_address k true 56].

Definition load_key_record (r : wallet_record key_data) w : wallet_db :=
  let a := kd_address (record_data r) in
  let w := with_keys (<[a := r]> (w_keys w)) w in
  with_btc_to_bts (foldl (fun m x => <[x := a]> m) (w_btc_to_bts w) (addresses_of (kd_public_key (record_data r)))) w.

Definition load_contact_record (r : wallet_record contact_data) w : wallet_db :=
  let data := cd_data (record_data r) in
  let w := with_contacts (<[data := r]> (w_contacts w)) w in
  with_labels (<[cd_label (record_data r) := data]> (w_labels w)) w.

Definition load_approval_record (r : wallet_record approval_data) w : wallet_db :=
  with_approvals (<[ap_name (record_data r) := r]> (w_approvals w)) w.

(** [signed_transaction().id()]. *)
Definition empty_trx_id : transaction_id := trx_id transaction_default.

Definition load_transaction_record (r : wallet_record transaction_info) w : wallet_db :=
  let record_id := ti_record_id (record_data r) in
  let w := with_transactions (<[record_id := r]> (w_transactions w)) w in
  let w := with_id_to_transaction (<[record_id := record_id]> (w_id_to_transaction w)) w in
  let transaction_id := trx_id (ti_trx (record_data r)) in
  if negb (transaction_id =? empty_trx_id)
  then with_id_to_transaction (<[transaction_id := record_id]> (w_id_to_transaction w)) w else w.

Definition load_setting_record (r : wallet_record setting) w : wallet_db :=
  with_settings (<[se_name (record_data r) := r]> (w_settings w)) w.

Definition load_packet_record (r : wallet_record packet_info) w : wallet_db :=
  with_packets (<[pi_packet_id (record_data r) := r]> (w_packets w)) w.

(** [load_generic_record], for a record that is not a deprecated transaction. *)
Definition load_record (g : generic_record) w : wallet_db :=
  match g with
  | property_record r => load_property_record r w
  | master_key_record r => load_master_key_record r w
  | account_wallet_record r => load_account_record r w
  | key_record r => load_key_record r w
  | contact_record r => load_contact_record r w
  | approval_record r => load_approval_record r w
  | transaction_info_record r => load_transaction_record r w
  | setting_record r => load_setting_record r w
  | packet_info_record r => load_packet_record r w
  | deprecated_transaction_record _ => w
  end.

(** ** Storing a record *)

Definition is_open w : bool := lm_is_open (w_records w) && match w_master_key w with Some _ => true | None => false end.
Definition require_open : wallet_m unit := nread (fun w => fc_assert (is_open w)).

Definition on_records (f : level_map Z generic_record -> result (level_map Z generic_record)) : wallet_m unit :=
  fun w => match f (w_records w) with Ok m => (with_records m w, Ok tt) | Throw e => (w, Throw e) end.

(** The disk is written before the memory. *)
Definition store_and_reload_generic (g : generic_record) : wallet_m unit :=
  _ <~ nread (fun w => _ <- fc_assert (lm_is_open (w_records w)) ;; fc_assert (negb (get_wallet_record_index g =? 0))) ;;
  _ <~ on_records (lm_store (get_wallet_record_index g) g) ;;
  nwrite (load_record g).

Definition get_property (id : property_enum) w : variant :=
  match w_properties w !! id with Some r => wp_value (record_data r) | None => null_variant end.

(** [set_property], for the number of the next record: its index is one. *)
Definition store_property (id : property_enum) (v : variant) (new_index : wallet_m Z) : wallet_m unit :=
  found <~ nread (fun w => Ok (w_properties w !! id)) ;;
  match found with
  | Some r => store_and_reload_generic (property_record
      (mk_wallet_record (wallet_record_index r) {| wp_key := wp_key (record_data r); wp_value := v |}))
  | None =>
      index <~ new_index ;;
      store_and_reload_generic (property_record (mk_wallet_record index {| wp_key := id; wp_value := v |}))
  end.

(** The numbers are [int32_t]; the one after the last is undefined. *)
Definition new_wallet_record_index : wallet_m Z :=
  next_rec_number <~ nread (fun w =>
    let v := get_property next_record_number w in
    if is_null v then Ok 2 else n <- as_int v ;; Ok (swrap32 n)) ;;
  if next_rec_number =? 2147483647 then nthrow undefined_behaviour
  else
    _ <~ store_property next_record_number (int_variant (next_rec_number + 1)) (nret 1) ;;
    nret next_rec_number.

Definition set_property (id : property_enum) (v : variant) : wallet_m unit :=
  store_property id v (if bool_decide (id = next_record_number) then nret 1 else new_wallet_record_index).

(** [store_and_reload_record]: a new record gets an index. *)
Definition store_and_reload {D} (generic : wallet_record D -> generic_record) (r : wallet_record D) : wallet_m (wallet_record D) :=
  index <~ (if wallet_record_index r =? 0 then new_wallet_record_index else nret (wallet_record_index r)) ;;
  let r := mk_wallet_record index (record_data r) in
  _ <~ store_and_reload_generic (generic r) ;;
  nret r.

(** [remove_item]: a record that is not there is passed over. *)
Definition remove_item (index : Z) : wallet_m unit :=
  ncatch (on_records (lm_remove index))
    (fun e => match e with key_not_found_exception => nret tt | _ => nthrow e end).

(** A record with new data, at the index of the record that was found. *)
Definition assign {D} (found : option (wallet_record D)) (d : D) : wallet_record D :=
  mk_wallet_record (match found with Some r => wallet_record_index r | None => 0 end) d.
End loading.

(** ** Keys of the wallet and of its accounts *)

(** [f] until it is done, at most [p] times. *)
Fixpoint until {A B} (p : positive) (f : A -> A + B) (a : A) : A + B :=
  match p with
  | xH => f a
  | xO p => match until p f a with inl a => until p f a | inr b => inr b end
  | xI p =>
      match f a with
      | inl a => match until p f a with inl a => until p f a | inr b => inr b end
      | inr b => inr b
      end
  end.

Section wallet.
Context `{Cr : Crypto} `{Kc : KeyCrypto} `{Tx : TxCrypto} `{Wh : WalletHash}.
Implicit Types w : wallet_db.

Definition get_last_wallet_child_key_index w : result Z :=
  _ <- fc_assert (is_open w) ;;
  Ok (match as_int (get_property next_child_key_index w) with Ok n => uwrap32 n | Throw _ => 0 end).

Definition set_last_wallet_child_key_index (key_index : Z) : wallet_m unit :=
  _ <~ require_open ;; set_property next_child_key_index (int_variant key_index).

Definition get_master_key (password : secret512) w : result extended_private_key :=
  _ <- fc_assert (is_open w) ;;
  match w_master_key w with
  | Some m => decrypt_key password (record_data m)
  | None => Throw undefined_behaviour
  end.

Definition get_wallet_child_key (password : secret512) (key_index : Z) w : result private_key :=
  master_private_key <- get_master_key password w ;;
  Ok (xk_priv_key (private_child master_private_key (index_of_number key_index) private_derivation)).

Definition get_account_child_key (parent : private_key) (child_key_index : Z) w : result private_key :=
  _ <- fc_assert (is_open w) ;;
  Ok (xk_priv_key (private_child (extended_private parent) (index_of_hash (index_hash child_key_index)) private_derivation)).

Definition get_account_child_key_v1 (password : secret512) (account : address) (child_key_index : Z) w : result private_key :=
  master_private_key <- get_master_key password w ;;
  Ok (xk_priv_key (private_child master_private_key (index_of_hash (address_index_hash account child_key_index)) private_derivation)).

(** *** Looking up *)

(** [lookup_account], through one of the caches. *)
Definition lookup_index {K} `{Countable K} (cache : wallet_db -> gmap K Z) (k : K) w : result (option (wallet_record account_data)) :=
  _ <- fc_assert (is_open w) ;;
  Ok (record_index ← cache w !! k; w_accounts w !! record_index).
Definition lookup_account (a : address) w := lookup_index w_address_to_account a w.
Definition lookup_account_name (name : string) w := lookup_index w_name_to_account name w.
Definition lookup_account_id (id : account_id) w := lookup_index w_id_to_account id w.

Definition lookup_key (a : address) w : result (option (wallet_record key_data)) :=
  _ <- fc_assert (is_open w) ;;
  Ok (key_address ← w_btc_to_bts w !! a; w_keys w !! key_address).

Definition has_private (r : option (wallet_record key_data)) : bool :=
  match r with Some r => has_private_key (record_data r) | None => false end.

Definition wallet_has_private_key (a : address) w : bool := has_private (w_keys w !! a).

Definition lookup_contact (data : string) w : result (option (wallet_record contact_data)) :=
  _ <- fc_assert (is_open w) ;; Ok (w_contacts w !! data).
Definition lookup_contact_label (label : string) w : result (option (wallet_record contact_data)) :=
  _ <- fc_assert (is_open w) ;;
  _ <- fc_assert (negb (bool_decide (label = ""%string))) ;;
  match w_labels w !! label with Some data => lookup_contact data w | None => Ok None end.

Definition lookup_approval (name : string) w : result (option (wallet_record approval_data)) :=
  _ <- fc_assert (is_open w) ;;
  _ <- fc_assert (negb (bool_decide (name = ""%string))) ;;
  Ok (w_approvals w !! name).

Definition lookup_packet (id : Z) w : result (option (wallet_record packet_info)) :=
  _ <- fc_assert (is_open w) ;; Ok (w_packets w !! id).

Definition lookup_transaction (id : transaction_id) w : result (option (wallet_record transaction_info)) :=
  _ <- fc_assert (is_open w) ;;
  Ok (record_id ← w_id_to_transaction w !! id; w_transactions w !! record_id).

Definition lookup_setting (name : string) w : option (wallet_record setting) := w_settings w !! name.

Definition get_account_name (a : address) w : result string :=
  found <- lookup_account a w ;; Ok (match found with Some r => ac_name (ad_account (record_data r)) | None => "?"%string end).

Definition get_pending_transactions w : list (wallet_record transaction_info) :=
  filter (fun r => ti_is_virtual (record_data r) = false /\ ti_is_confirmed (record_data r) = false) (map snd (map_to_list (w_transactions w))).

(** *** Storing keys and accounts *)

Definition set_kd_account_address (a : address) (k : key_data) : key_data :=
  mk_key_data a (kd_child_key_index k) (kd_public_key k) (kd_encrypted_private_key k) (kd_valid_from_signature k) (kd_memo k).
Definition key_data_default : key_data := mk_key_data null_address 0 null_key [] false None.

(** [store_key]: a key with its private key belongs to the account that has its
    public key, or else to the account of its account address. *)
Definition store_key (key : key_data) : wallet_m unit :=
  _ <~ require_open ;;
  _ <~ nread (fun _ => fc_assert (negb (kd_public_key key =? null_key))) ;;
  found <~ nread (lookup_key (kd_address key)) ;;
  r <~ store_and_reload key_record (assign found key) ;;
  if has_private_key key then
    by_key <~ nread (lookup_account (key_address (kd_public_key key))) ;;
    account <~ (match by_key with Some a => nret (Some a) | None => nread (lookup_account (kd_account_address key)) end) ;;
    match account with
    | Some a =>
        let owner := owner_address (ad_account (record_data a)) in
        if negb (kd_account_address key =? owner) then
          _ <~ store_and_reload key_record (mk_wallet_record (wallet_record_index r) (set_kd_account_address owner key)) ;;
          nret tt
        else nret tt
    | None => nret tt
    end
  else nret tt.

(** The keys of an account for which [store_account] keeps a record. *)
Definition stored_public_keys (r : account_record) : gset public_key :=
  {[ ac_owner_key r ]}
  ∪ ((key_history (ac_active_key_history r)
      ∪ match ac_delegate_info r with Some d => key_history (ds_signing_key_history d) | None => ∅ end) ∖ {[ null_key ]}).

Definition store_account_key (owner : address) (k : public_key) : wallet_m unit :=
  found <~ nread (lookup_key (key_address k)) ;;
  match found with
  | None => store_key (mk_key_data (key_address k) 0 k [] false None)
  | Some r =>
      if has_private_key (record_data r) && negb (kd_account_address (record_data r) =? owner)
      then store_key (set_kd_account_address owner (record_data r)) else nret tt
  end.

(** The owner key is kept even when it is null, which the assertion excludes. *)
Definition store_account (account : account_data) : wallet_m (wallet_record account_data) :=
  _ <~ require_open ;;
  _ <~ nread (fun _ => fc_assert (negb (bool_decide (ac_name (ad_account account) = ""%string)))) ;;
  _ <~ nread (fun _ => fc_assert (negb (ac_owner_key (ad_account account) =? null_key))) ;;
  found <~ nread (lookup_account (owner_address (ad_account account))) ;;
  r <~ store_and_reload account_wallet_record (assign found account) ;;
  _ <~ nfold (fun k _ => store_account_key (owner_address (ad_account account)) k)
         (merge_sort Z.le (elements (stored_public_keys (ad_account account)))) tt ;;
  nret r.

Definition account_data_default : account_data :=
  mk_account_data (mk_account 0 "" "" null_key ∅ 0 0 0 None None) 0 false "".

(** [store_account( blockchain::account_record )]. *)
Definition store_blockchain_account (r : account_record) : wallet_m (wallet_record account_data) :=
  found <~ nread (lookup_account (owner_address r)) ;;
  let old := match found with Some a => record_data a | None => account_data_default end in
  let account := mk_account_data r (ad_last_child_key_index old) (ad_block_production_enabled old) (ad_custom_data old) in
  _ <~ store_account account ;;
  nret (assign found account).

Definition erase_all {V} (keys : list public_key) (m : gmap address V) : gmap address V :=
  foldl (fun m k => delete (key_address k) m) m keys.

Definition remove_account (a : address) : wallet_m (option (wallet_record account_data)) :=
  found <~ nread (lookup_account a) ;;
  match found with
  | None => nret None
  | Some r =>
      let account := ad_account (record_data r) in
      _ <~ nwrite (fun w =>
        let w := with_id_to_account (delete (ac_id account) (w_id_to_account w)) w in
        let w := with_name_to_account (delete (ac_name account) (w_name_to_account w)) w in
        let w := with_address_to_account (erase_all (elements (scan_public_keys account)) (w_address_to_account w)) w in
        with_accounts (delete (wallet_record_index r) (w_accounts w)) w) ;;
      _ <~ remove_item (wallet_record_index r) ;;
      nret (Some r)
  end.

Definition import_key (password : secret512) (account_name : string) (key : private_key) (move_existing : bool) : wallet_m unit :=
  account <~ nread (lookup_account_name account_name) ;;
  match account with
  | None => nthrow assert_exception
  | Some a =>
      let owner := owner_address (ad_account (record_data a)) in
      let public_key := get_public_key key in
      found <~ nread (lookup_key (key_address public_key)) ;;
      _ <~ nread (fun _ =>
        match found with
        | Some r => fc_assert (move_existing || (kd_account_address (record_data r) =? owner))
        | None => Ok tt
        end) ;;
      let old := match found with Some r => record_data r | None => key_data_default end in
      k <~ nread (fun _ => encrypt_private_key password key
             (mk_key_data owner (kd_child_key_index old) public_key (kd_encrypted_private_key old) (kd_valid_from_signature old) (kd_memo old))) ;;
      store_key k
  end.

(** *** New accounts and keys *)

(** A key without records: no account has it, and no private key is known. *)
Definition key_is_free (a : address) w : result bool :=
  account <- lookup_account a w ;;
  match account with
  | Some _ => Ok false
  | None => key <- lookup_key a w ;; Ok (negb (has_private key))
  end.

(** One turn of the loop of [generate_new_account]: the keys of the next index,
    when they are free. *)
Definition try_account_keys (password : secret512) (key_index : Z) w : result (option (private_key * private_key)) :=
  owner <- get_wallet_child_key password key_index w ;;
  owner_free <- key_is_free (key_address (get_public_key owner)) w ;;
  if owner_free then
    active <- get_account_child_key owner 0 w ;;
    active_free <- key_is_free (key_address (get_public_key active)) w ;;
    Ok (if active_free then Some (owner, active) else None)
  else Ok None.

(** The loops count a [uint32_t] and end when it is zero again. *)
Definition next_index {A} (try : Z -> result (option A)) (key_index : Z) : Z + result (Z * A) :=
  let key_index := uwrap32 (key_index + 1) in
  if key_index =? 0 then inr (Throw assert_exception)
  else
    match try key_index with
    | Ok (Some a) => inr (Ok (key_index, a))
    | Ok None => inl key_index
    | Throw e => inr (Throw e)
    end.
Definition search_index {A} (try : Z -> result (option A)) (key_index : Z) : result (Z * A) :=
  match until (2 ^ 32)%positive (next_index try) key_index with inr r => r | inl _ => Throw undefined_behaviour end.

(** The account and its two keys; the order of the writes is the code's. *)
Definition store_new_account (password : secret512) (now : time) (name : string) (owner active : private_key) (owner_index : option Z)
    : wallet_m public_key :=
  let owner_key := get_public_key owner in
  active_data <~ nread (fun _ => encrypt_private_key password active
    (mk_key_data (key_address owner_key) 0 (get_public_key active) [] false None)) ;;
  owner_data <~ nread (fun _ => encrypt_private_key password owner
    (mk_key_data (key_address owner_key) (default 0 owner_index) owner_key [] false None)) ;;
  account <~ nread (fun _ => set_active_key now (get_public_key active)
    (mk_account 0 name "" owner_key ∅ 0 0 0 None None)) ;;
  _ <~ store_key active_data ;;
  _ <~ (match owner_index with Some i => set_last_wallet_child_key_index i | None => nret tt end) ;;
  _ <~ store_key owner_data ;;
  _ <~ store_account (mk_account_data (set_ac_last_update now account) 0 false "") ;;
  nret owner_key.

Definition no_account_named (name : string) w : result unit :=
  found <- lookup_account_name name w ;;
  fc_assert (match found with Some _ => false | None => true end).

Definition generate_new_account (password : secret512) (now : time) (name : string) : wallet_m public_key :=
  _ <~ nread (no_account_named name) ;;
  found <~ nread (fun w =>
    key_index <- get_last_wallet_child_key_index w ;;
    search_index (fun i => try_account_keys password i w) key_index) ;;
  let '(key_index, (owner, active)) := found in
  store_new_account password now name owner active (Some key_index).

(** With a key for the owner. *)
Definition generate_account_with_key (password : secret512) (now : time) (name : string) (owner : private_key) : wallet_m public_key :=
  active <~ nread (fun w =>
    _ <- no_account_named name w ;;
    active <- get_account_child_key owner 0 w ;;
    owner_account <- lookup_account (key_address (get_public_key owner)) w ;;
    _ <- fc_assert (match owner_account with Some _ => false | None => true end) ;;
    active_account <- lookup_account (key_address (get_public_key active)) w ;;
    _ <- fc_assert (match active_account with Some _ => false | None => true end) ;;
    owner_key <- lookup_key (key_address (get_public_key owner)) w ;;
    _ <- fc_assert (negb (has_private owner_key)) ;;
    active_key <- lookup_key (key_address (get_public_key active)) w ;;
    _ <- fc_assert (negb (has_private active_key)) ;;
    Ok active) ;;
  store_new_account password now name owner active None.

Inductive account_key_type := owner_key_type | active_key_type | signing_key_type.

Definition key_of_type (t : account_key_type) (r : account_record) : result public_key :=
  match t with
  | owner_key_type => Ok (ac_owner_key r)
  | active_key_type => active_key r
  | signing_key_type => _ <- fc_assert (is_delegate r) ;; signing_key r
  end.

Definition try_child_key (parent : private_key) (i : Z) w : result (option private_key) :=
  child <- get_account_child_key parent i w ;;
  known <- lookup_key (key_address (get_public_key child)) w ;;
  Ok (if has_private known then None else Some child).

Definition generate_new_account_child_key (password : secret512) (name : string) (t : account_key_type) : wallet_m private_key :=
  found <~ nread (lookup_account_name name) ;;
  match found with
  | None => nthrow assert_exception
  | Some r =>
      let account := record_data r in
      new_key <~ nread (fun w =>
        retracted <- is_retracted (ad_account account) ;;
        _ <- fc_assert (negb retracted) ;;
        parent_public_key <- key_of_type t (ad_account account) ;;
        parent_key_record <- lookup_key (key_address parent_public_key) w ;;
        _ <- fc_assert (has_private parent_key_record) ;;
        parent <- match parent_key_record with
                  | Some k => decrypt_private_key password (record_data k)
                  | None => Throw undefined_behaviour
                  end ;;
        found <- search_index (fun i => try_child_key parent i w) (ad_last_child_key_index account) ;;
        let '(child_key_index, child) := found in
        k <- encrypt_private_key password child
               (mk_key_data (owner_address (ad_account account)) child_key_index (get_public_key child) [] false None) ;;
        Ok (child_key_index, child, k)) ;;
      let '(child_key_index, child, k) := new_key in
      _ <~ store_account (mk_account_data (ad_account account) child_key_index (ad_block_production_enabled account)
             (ad_custom_data account)) ;;
      _ <~ store_key k ;;
      nret child
  end.

(** The key is random, and new. *)
Definition generate_new_one_time_key (password : secret512) (random : private_key) : wallet_m private_key :=
  known <~ nread (lookup_key (key_address (get_public_key random))) ;;
  _ <~ nread (fun _ => fc_assert (match known with Some _ => false | None => true end)) ;;
  k <~ nread (fun _ => encrypt_private_key password random key_data_default) ;;
  _ <~ store_key k ;;
  nret random.

Definition cache_memo (memo : memo_status) (account_key : private_key) (password : secret512) : wallet_m unit :=
  k <~ nread (fun _ => encrypt_private_key password (mo_owner_private_key memo)
    (mk_key_data (key_address (get_public_key account_key)) 0 (get_public_key (mo_owner_private_key memo)) [] false None)) ;;
  store_key (mk_key_data (kd_account_address k) (kd_child_key_index k) (kd_public_key k) (kd_encrypted_private_key k)
    (mo_has_valid_signature memo) (kd_memo k)).

(** [get_account_private_keys]: the keys that decrypt, of owners and active
    keys, with the name of an account. *)
Definition account_public_keys w : gmap public_key string :=
  map_fold (fun _ r m =>
    let account := ad_account (record_data r) in
    foldl (fun m k => <[k := ac_name account]> m) (<[ac_owner_key account := ac_name account]> m)
      (elements (key_history (ac_active_key_history account) ∖ {[ null_key ]}))) ∅ (w_accounts w).

Definition get_account_private_keys (password : secret512) w : result (gmap private_key string) :=
  map_fold (fun k name keys =>
    keys <- keys ;;
    found <- lookup_key (key_address k) w ;;
    match found with
    | Some r =>
        if has_private_key (record_data r) then
          match decrypt_private_key password (record_data r) with Ok p => Ok (<[p := name]> keys) | Throw _ => Ok keys end
        else Ok keys
    | None => Ok keys
    end) (Ok ∅) (account_public_keys w).
End wallet.

(** *** Contacts, approvals, packets, transactions and settings *)

Section others.
Context `{Cr : Crypto} `{Kc : KeyCrypto} `{Tx : TxCrypto} `{Wh : WalletHash}.
Implicit Types w : wallet_db.

Definition store_contact (contact : contact_data) : wallet_m (wallet_record contact_data) :=
  _ <~ require_open ;;
  _ <~ nread (fun _ => fc_assert (negb (bool_decide (cd_label contact = ""%string)))) ;;
  collision <~ nread (lookup_contact_label (cd_label contact)) ;;
  _ <~ nread (fun _ => throw_if label_already_in_use
         match collision with Some r => negb (bool_decide (cd_data (record_data r) = cd_data contact)) | None => false end) ;;
  found <~ nread (lookup_contact (cd_data contact)) ;;
  _ <~ nwrite (fun w =>
         match found with
         | Some r => if bool_decide (cd_label (record_data r) = cd_label contact) then w
                     else with_labels (delete (cd_label (record_data r)) (w_labels w)) w
         | None => w
         end) ;;
  store_and_reload contact_record (assign found contact).

Definition remove_contact (data : string) : wallet_m (option (wallet_record contact_data)) :=
  found <~ nread (lookup_contact data) ;;
  match found with
  | None => nret None
  | Some r =>
      _ <~ nwrite (fun w => with_contacts (delete data (w_contacts w))
                              (with_labels (delete (cd_label (record_data r)) (w_labels w)) w)) ;;
      _ <~ remove_item (wallet_record_index r) ;;
      nret (Some r)
  end.

Definition remove_contact_label (label : string) : wallet_m (option (wallet_record contact_data)) :=
  found <~ nread (lookup_contact_label label) ;;
  match found with Some r => remove_contact (cd_data (record_data r)) | None => nret None end.

Definition store_packet (packet : packet_info) : wallet_m (wallet_record packet_info) :=
  found <~ nread (lookup_packet (pi_packet_id packet)) ;;
  store_and_reload packet_info_record (assign found packet).

Definition store_approval (approval : approval_data) : wallet_m (wallet_record approval_data) :=
  found <~ nread (lookup_approval (ap_name approval)) ;;
  store_and_reload approval_record (assign found approval).

Definition remove_approval (name : string) : wallet_m (option (wallet_record approval_data)) :=
  found <~ nread (lookup_approval name) ;;
  match found with
  | None => nret None
  | Some r =>
      _ <~ nwrite (fun w => with_approvals (delete name (w_approvals w)) w) ;;
      _ <~ remove_item (wallet_record_index r) ;;
      nret (Some r)
  end.

Definition store_transaction (t : transaction_info) : wallet_m unit :=
  _ <~ nread (fun w =>
    _ <- fc_assert (is_open w) ;;
    _ <- fc_assert (negb (ti_record_id t =? 0)) ;;
    fc_assert (ti_is_virtual t || negb (trx_id (ti_trx t) =? empty_trx_id))) ;;
  found <~ nread (lookup_transaction (ti_record_id t)) ;;
  _ <~ store_and_reload transaction_info_record (assign found t) ;;
  nret tt.

(** The cache of the ids is left. *)
Definition remove_transaction (id : transaction_id) : wallet_m unit :=
  found <~ nread (lookup_transaction id) ;;
  match found with
  | None => nret tt
  | Some r =>
      _ <~ remove_item (wallet_record_index r) ;;
      nwrite (fun w => with_transactions (delete id (w_transactions w)) w)
  end.

Definition store_setting (name value : string) : wallet_m unit :=
  found <~ nread (fun w => Ok (lookup_setting name w)) ;;
  match found with
  | Some r =>
      let r := mk_wallet_record (wallet_record_index r) {| se_name := se_name (record_data r); se_value := value |} in
      _ <~ nwrite (fun w => with_settings (<[name := r]> (w_settings w)) w) ;;
      _ <~ store_and_reload setting_record r ;; nret tt
  | None =>
      index <~ new_wallet_record_index ;;
      let r := mk_wallet_record index {| se_name := name; se_value := value |} in
      _ <~ nwrite (fun w => with_settings (<[name := r]> (w_settings w)) w) ;;
      _ <~ store_and_reload setting_record r ;; nret tt
  end.

(** *** Names and passwords *)

Definition set_ac_name (v : string) (r : account_record) : account_record :=
  mk_account (ac_id r) v (ac_public_data r) (ac_owner_key r) (ac_active_key_history r)
    (ac_registration_date r) (ac_last_update r) (ac_rp r) (ac_delegate_info r) (ac_meta_data r).

Definition rename_account (old_key : public_key) (new_name : string) : wallet_m unit :=
  found <~ nread (lookup_account (key_address old_key)) ;;
  match found with
  | None => nthrow assert_exception
  | Some r =>
      let old := ad_account (record_data r) in
      let index := wallet_record_index r in
      let acct := set_ac_name new_name old in
      let r := mk_wallet_record index (mk_account_data acct (ad_last_child_key_index (record_data r))
                 (ad_block_production_enabled (record_data r)) (ad_custom_data (record_data r))) in
      _ <~ nwrite (fun w =>
        let names := <[new_name := index]> (w_name_to_account w) in
        let names := if bool_decide (names !! ac_name old = Some index) then delete (ac_name old) names else names in
        let w := with_name_to_account names w in
        let w := with_accounts (<[index := r]> (w_accounts w)) w in
        with_address_to_account
          (index_keys (ac_owner_key acct :: map snd (map_to_list (ac_active_key_history acct))) index (w_address_to_account w)) w) ;;
      _ <~ store_and_reload account_wallet_record r ;; nret tt
  end.

Definition validate_password (password : secret512) w : result bool :=
  match w_master_key w with Some m => Ok (check_password password (record_data m)) | None => Throw assert_exception end.

Definition set_master_key (k : extended_private_key) (new_password : secret512) : wallet_m unit :=
  m <~ nread (fun _ => encrypt_key new_password k) ;;
  _ <~ store_and_reload master_key_record (mk_wallet_record (-1) m) ;; nret tt.

(** One key of [change_password]. The loop goes over the map it writes to: a
    key that gets a new address, as the private key of a damaged record would,
    is undefined. *)
Definition change_key (old_password new_password : secret512) (r : wallet_record key_data) : wallet_m unit :=
  if has_private_key (record_data r) then
    k <~ nread (fun w =>
      priv_key <- decrypt_private_key old_password (record_data r) ;;
      k <- encrypt_private_key new_password priv_key (record_data r) ;;
      match w_keys w !! kd_address k with Some _ => Ok k | None => Throw undefined_behaviour end) ;;
    _ <~ store_and_reload key_record (mk_wallet_record (wallet_record_index r) k) ;; nret tt
  else nret tt.

(** The master key is changed before the keys, whose order is that of the map;
    each visit reads the record of the moment. *)
Definition change_password (old_password new_password : secret512) : wallet_m unit :=
  master <~ nread (get_master_key old_password) ;;
  _ <~ set_master_key master new_password ;;
  (fun w => nfold (fun a _ =>
      found <~ nread (fun w => Ok (w_keys w !! a)) ;;
      match found with Some r => change_key old_password new_password r | None => nret tt end)
    (map fst (map_to_list (w_keys w))) tt w).

(** *** Opening and closing *)

(** [load_generic_record]: a deprecated transaction is stored in the new form
    and removed. *)
Definition info_of_deprecated (t : transaction_data) : transaction_info :=
  mk_transaction_info (td_record_id t) (td_block_num t) (td_is_virtual t) (td_is_confirmed t)
    (if td_is_market t then "MARKET" else "CONSENSUS") (td_trx t) (td_ledger_entries t) (td_fee t) (td_created_time t)
    (td_received_time t).

Definition load_generic_record (g : generic_record) : wallet_m unit :=
  match g with
  | deprecated_transaction_record r =>
      _ <~ store_transaction (info_of_deprecated (record_data r)) ;;
      remove_item (wallet_record_index r)
  | g => nwrite (load_record g)
  end.

(** [close] clears the maps of the master key, the accounts, the keys, the
    transactions, the properties and the settings. *)
Definition close w : wallet_db :=
  mk_wallet_db (lm_close (w_records w)) ∅ None ∅ ∅ (w_contacts w) (w_approvals w) ∅ ∅ (w_packets w) ∅ ∅ ∅ ∅ (w_labels w) ∅.

(** [open], with what is at the path: the records are loaded in the order of
    their indices; one that cannot be loaded is passed over. *)
Definition open_records (files : option (gmap Z generic_record)) : wallet_m unit :=
  _ <~ on_records (fun m => lm_open (Build_level_map files (lm_is_open m))) ;;
  records <~ nread (fun w => lm_begin Z.le (w_records w)) ;;
  nfold (fun r _ => ncatch (load_generic_record (snd r)) (fun _ => nret tt)) records tt.

Definition open (files : option (gmap Z generic_record)) : wallet_m unit :=
  ncatch (open_records files) (fun e => _ <~ nwrite close ;; nthrow e).

(** [import_from_json], with the records of the file. *)
Definition store_and_reload_any (g : generic_record) : wallet_m unit :=
  match g with
  | deprecated_transaction_record r =>
      _ <~ store_and_reload_generic g ;; load_generic_record g
  | g => store_and_reload_generic g
  end.

Definition import_records (records : list generic_record) : wallet_m unit :=
  _ <~ require_open ;;
  nfold (fun g _ => ncatch (store_and_reload_any g)
    (fun e => match g with master_key_record _ | key_record _ => nthrow e | _ => nret tt end)) records tt.

(** *** Repair *)

Definition forget_key (k : key_data) w : wallet_db :=
  let a := kd_address k in
  let w := with_keys (delete a (w_keys w)) w in
  with_btc_to_bts (foldl (fun m x => delete x m) (w_btc_to_bts w) (addresses_of (kd_public_key k))) w.

Definition repair_account (g : generic_record) : wallet_m unit :=
  match g with account_wallet_record r => _ <~ store_account (record_data r) ;; nret tt | _ => nret tt end.

Definition repair_key (password : secret512) (g : generic_record) : wallet_m unit :=
  match g with
  | key_record r =>
      let k := record_data r in
      if has_private_key k then
        private_key <~ nread (fun _ => decrypt_private_key password k) ;;
        let public_key := get_public_key private_key in
        if negb (kd_public_key k =? public_key) then
          let k' := mk_key_data (kd_account_address k) (kd_child_key_index k) public_key (kd_encrypted_private_key k)
                      (kd_valid_from_signature k) (kd_memo k) in
          _ <~ nwrite (fun w => load_key_record (mk_wallet_record (wallet_record_index r) k') (forget_key k w)) ;;
          store_key k'
        else store_key k
      else
        _ <~ nwrite (forget_key k) ;; remove_item (wallet_record_index r)
  | _ => nret tt
  end.

Definition set_ti_record_id (id : transaction_id) (t : transaction_info) : transaction_info :=
  mk_transaction_info id (ti_block_num t) (ti_is_virtual t) (ti_is_confirmed t) (ti_contract t) (ti_trx t)
    (ti_ledger_entries t) (ti_fee t) (ti_created_time t) (ti_received_time t).

Definition repair_transaction (g : generic_record) : wallet_m unit :=
  match g with
  | transaction_info_record r =>
      let t := record_data r in
      let id := trx_id (ti_trx t) in
      if negb (id =? empty_trx_id) && negb (ti_record_id t =? id) then
        let t' := set_ti_record_id id t in
        _ <~ nwrite (fun w =>
          let w := with_transactions (delete (ti_record_id t) (w_transactions w)) w in
          let w := with_id_to_transaction (delete (ti_record_id t) (w_id_to_transaction w)) w in
          load_transaction_record (mk_wallet_record (wallet_record_index r) t') w) ;;
        store_transaction t'
      else store_transaction t
  | _ => nret tt
  end.

(** Three passes over the records that were on disk at the beginning; a record
    that cannot be repaired is passed over. *)
Definition repair_records (password : secret512) : wallet_m unit :=
  _ <~ require_open ;;
  records <~ nread (fun w => l <- lm_begin Z.le (w_records w) ;; Ok (map snd l)) ;;
  let pass (repair : generic_record -> wallet_m unit) :=
    nfold (fun g _ => ncatch (repair g) (fun _ => nret tt)) records tt in
  _ <~ pass repair_account ;;
  _ <~ pass (repair_key password) ;;
  pass repair_transaction.
End others.
