(* ===== verification/WalletDbProps.v ===== *)
(** The wallet's database: the memory is what the disk holds. *)

From stdpp Require Import sorting.
From S2P Require Import Prelude StateMonad Asset Names Records Keys Building Storage StorageProps WalletDb.

(** ** Places

    Where a record is in memory: the key of its map. *)

Inductive place :=
  | at_property (p : property_enum) | at_master | at_account (i : Z) | at_key (a : address) | at_contact (data : string)
  | at_approval (name : string) | at_transaction (id : transaction_id) | at_setting (name : string) | at_packet (id : Z)
  | at_deprecated.
#[export] Instance place_eq_dec : EqDecision place.
Proof. solve_decision. Defined.

Section places.
Context `{Cr : Crypto} `{Kc : KeyCrypto} `{Tx : TxCrypto}.
Implicit Types (w : wallet_db) (g : generic_record).

Definition place_of g : place :=
  match g with
  | property_record r => at_property (wp_key (record_data r))
  | master_key_record _ => at_master
  | account_wallet_record r => at_account (wallet_record_index r)
  | key_record r => at_key (kd_address (record_data r))
  | contact_record r => at_contact (cd_data (record_data r))
  | approval_record r => at_approval (ap_name (record_data r))
  | deprecated_transaction_record _ => at_deprecated
  | transaction_info_record r => at_transaction (ti_record_id (record_data r))
  | setting_record r => at_setting (se_name (record_data r))
  | packet_info_record r => at_packet (pi_packet_id (record_data r))
  end.

(** The records in memory. *)
Definition memory w (p : place) : option generic_record :=
  match p with
  | at_property k => property_record <$> w_properties w !! k
  | at_master => master_key_record <$> w_master_key w
  | at_account i => account_wallet_record <$> w_accounts w !! i
  | at_key a => key_record <$> w_keys w !! a
  | at_contact data => contact_record <$> w_contacts w !! data
  | at_approval name => approval_record <$> w_approvals w !! name
  | at_transaction id => transaction_info_record <$> w_transactions w !! id
  | at_setting name => setting_record <$> w_settings w !! name
  | at_packet id => packet_info_record <$> w_packets w !! id
  | at_deprecated => None
  end.

Definition disk w : gmap Z generic_record := default ∅ (lm_files (w_records w)).

Lemma memory_records v w p : memory (with_records v w) p = memory w p.
Proof. by destruct p. Qed.

(** Loading a record puts it at its place. *)
Lemma memory_load g w p : place_of g <> at_deprecated ->
  memory (load_record g w) p = if bool_decide (p = place_of g) then Some g else memory w p.
Proof.
  intros Hg. case_bool_decide as Hp.
  - subst p. destruct g; simpl in *; unfold load_account_record, load_transaction_record; try case_match; simpl; by rewrite ?lookup_insert_eq.
  - destruct g; try done; destruct p; simpl in *; unfold load_account_record, load_transaction_record; try case_match; simpl;
      rewrite ?lookup_insert_ne; try done; congruence.
Qed.

Lemma disk_load g w : disk (load_record g w) = disk w.
Proof. destruct g; try done; simpl; unfold load_account_record, load_transaction_record; by case_match. Qed.
Lemma records_load g w : w_records (load_record g w) = w_records w.
Proof. destruct g; try done; simpl; unfold load_account_record, load_transaction_record; by case_match. Qed.
End places.

(** Addresses of the other kinds are not addresses of keys. *)
Class PtsDisjoint `{Crypto} := pts_disjoint : forall k k' compressed v, pts_key_address k compressed v <> key_address k'.

(** ** The invariant *)

Section mirror.
Context `{Cr : Crypto} `{Kc : KeyCrypto} `{Tx : TxCrypto} `{Wh : WalletHash} `{Pd : !PtsDisjoint}.
Implicit Types (w : wallet_db) (g : generic_record).

(** The transactions that the wallet stores: the id of the record is the id of
    its transaction, or there is no transaction. *)
Definition transaction_ok (t : transaction_info) : Prop :=
  trx_id (ti_trx t) = ti_record_id t \/ trx_id (ti_trx t) = empty_trx_id.
Definition record_ok g : Prop :=
  match g with
  | transaction_info_record r => transaction_ok (record_data r)
  | deprecated_transaction_record _ => False
  | _ => True
  end.

(** The caches that find keys and transactions. *)
Definition keys_cached w : Prop :=
  (forall a, is_Some (w_keys w !! a) -> w_btc_to_bts w !! a = Some a)
  /\ (forall k a, w_btc_to_bts w !! key_address k = Some a -> a = key_address k)
  /\ (forall a r, w_keys w !! a = Some r -> kd_address (record_data r) = a).
Definition transactions_cached w : Prop :=
  (forall id, is_Some (w_transactions w !! id) -> w_id_to_transaction w !! id = Some id)
  /\ (forall id record_id, w_id_to_transaction w !! id = Some record_id -> record_id = id).
Definition cached w : Prop := keys_cached w /\ transactions_cached w.

Lemma cached_load g w : record_ok g -> cached w -> cached (load_record g w).
Proof.
  intros Hg [(K1 & K2 & K3) (T1 & T2)]. destruct g as [ | | | r | | | | r | | ]; try done; simpl in *.
  - unfold load_account_record. by case_match.
  - split; [ | done ]. unfold load_key_record. split_and!; simpl.
    + intros a Ha. set (p := kd_public_key (record_data r)). fold p in Ha.
      pose proof (pts_disjoint p) as D.
      destruct (decide (a = key_address p)) as [->|Hne].
      * rewrite !lookup_insert_ne by (apply D). by rewrite lookup_insert_eq.
      * rewrite lookup_insert_ne in Ha by done. specialize (K3 a). destruct Ha as [r0 Hr]. pose proof (K3 _ Hr) as E.
        assert (forall c v, pts_key_address p c v <> a) by (intros c v; rewrite <- E; apply D).
        rewrite !lookup_insert_ne by done. apply K1. eauto.
    + intros k a. set (p := kd_public_key (record_data r)). rewrite !lookup_insert_ne by apply pts_disjoint.
      destruct (decide (key_address p = key_address k)) as [E|Hne]; [ rewrite E, lookup_insert_eq | rewrite lookup_insert_ne by done; apply K2 ].
      intros [= <-]. done.
    + intros a r0. destruct (decide (a = kd_address (record_data r))) as [->|Hne]; [ rewrite lookup_insert_eq; by intros [= <-] | ].
      rewrite lookup_insert_ne by done. apply K3.
  - assert (Hc : transactions_cached (with_id_to_transaction (<[ti_record_id (record_data r) := ti_record_id (record_data r)]> (w_id_to_transaction w))
      (with_transactions (<[ti_record_id (record_data r) := r]> (w_transactions w)) w))).
    { split; simpl.
      - intros id. destruct (decide (id = ti_record_id (record_data r))) as [->|Hne]; [ by rewrite !lookup_insert_eq | ].
        rewrite !lookup_insert_ne by done. apply T1.
      - intros id record_id. destruct (decide (id = ti_record_id (record_data r))) as [->|Hne]; [ rewrite lookup_insert_eq; by intros [= <-] | ].
        rewrite lookup_insert_ne by done. apply T2. }
    unfold load_transaction_record. case_match eqn:E; [ | split; [ done | exact Hc ] ]. split; [ done | ].
    destruct Hg as [Hid|Hid]; [ | by rewrite Hid, Z.eqb_refl in E ]. rewrite Hid. simpl in *.
    unfold transactions_cached in *; simpl in *. rewrite insert_insert_eq. exact Hc.
Qed.

(** The number that the next record gets. *)
Definition next_number w : Z :=
  match w_properties w !! next_record_number with
  | Some r => match wp_value (record_data r) with int_variant n => n | _ => 0 end
  | None => 2
  end.

(** What is on disk at the indices that are not given out: the master key at
    [-1], the number of the next record at [1]. *)
Definition index_ok (next i : Z) g : Prop :=
  i <> 0 /\ i < next /\ (i = 1 <-> place_of g = at_property next_record_number) /\ (i = -1 <-> place_of g = at_master).

Record mirrored w : Prop := {
  mi_open : w_records w = Build_level_map (Some (disk w)) true;
  mi_disk : forall i g, disk w !! i = Some g ->
    get_wallet_record_index g = i /\ memory w (place_of g) = Some g /\ index_ok (next_number w) i g;
  mi_memory : forall p g, memory w p = Some g -> place_of g = p /\ disk w !! get_wallet_record_index g = Some g;
  mi_next : 2 <= next_number w <= 2147483647;
  mi_value : forall r, w_properties w !! next_record_number = Some r -> wp_value (record_data r) = int_variant (next_number w);
  mi_cached : cached w;
  mi_ok : forall i g, disk w !! i = Some g -> record_ok g }.

Lemma mirrored_not_deprecated w i r : mirrored w -> disk w !! i <> Some (deprecated_transaction_record r).
Proof. intros M H. by destruct (mi_disk _ M _ _ H) as (_ & [=] & _). Qed.

(** ** Storing keeps it *)

(** A record that can be stored where it says: nothing else is there, neither
    on disk nor in memory. *)
Record fits w g : Prop := {
  fi_disk : forall g', disk w !! get_wallet_record_index g = Some g' -> place_of g' = place_of g;
  fi_memory : forall g', memory w (place_of g) = Some g' -> get_wallet_record_index g' = get_wallet_record_index g;
  fi_ok : record_ok g }.

Lemma record_ok_place g : record_ok g -> place_of g <> at_deprecated.
Proof. by destruct g. Qed.

Definition stored g w : wallet_db := load_record g (with_records (Build_level_map (Some (<[get_wallet_record_index g := g]> (disk w))) true) w).

Lemma disk_stored g w : disk (stored g w) = <[get_wallet_record_index g := g]> (disk w).
Proof. unfold stored. by rewrite disk_load. Qed.

Lemma memory_stored g w p : record_ok g -> memory (stored g w) p = if bool_decide (p = place_of g) then Some g else memory w p.
Proof. intros Hg. unfold stored. by rewrite memory_load, memory_records by by apply record_ok_place. Qed.

Lemma stored_mirrored w g : mirrored w -> fits w g ->
  index_ok (next_number (stored g w)) (get_wallet_record_index g) g -> next_number w <= next_number (stored g w) <= 2147483647 ->
  (forall r, w_properties (stored g w) !! next_record_number = Some r -> wp_value (record_data r) = int_variant (next_number (stored g w))) ->
  mirrored (stored g w).
Proof.
  intros M F Hi Hn Hv. pose proof (fi_ok _ _ F) as Hg. split; [ | | | | done | | ].
  - rewrite disk_stored. unfold stored. by rewrite records_load.
  - intros i g'. rewrite disk_stored, memory_stored by done.
    destruct (decide (i = get_wallet_record_index g)) as [->|Hne].
    + rewrite lookup_insert_eq. intros [= <-]. split; [ done | ]. split; [ by rewrite bool_decide_eq_true_2 | done ].
    + rewrite lookup_insert_ne by done. intros H. destruct (mi_disk _ M _ _ H) as (E & Hm & I1 & I2 & I3 & I4).
      split; [ done | ]. split; [ | split_and!; [ done | lia | done | done ] ].
      rewrite bool_decide_eq_false_2; [ done | ]. intros Hp. rewrite Hp in Hm. apply (fi_memory _ _ F) in Hm. congruence.
  - intros p g'. rewrite disk_stored, memory_stored by done. case_bool_decide as Hp.
    + intros [= <-]. by rewrite lookup_insert_eq.
    + intros H. destruct (mi_memory _ M _ _ H) as (E & Hd). split; [ done | ].
      rewrite lookup_insert_ne; [ done | ]. intros Hx. rewrite <- Hx in Hd. apply (fi_disk _ _ F) in Hd. congruence.
  - pose proof (mi_next _ M). lia.
  - unfold stored. apply cached_load; [ done | ]. apply (mi_cached _ M).
  - intros i g'. rewrite disk_stored. intros [[_ <-]|[_ H]]%lookup_insert_Some; [ done | by apply (mi_ok _ M i) ].
Qed.

Lemma next_stored g w : place_of g <> at_property next_record_number -> w_properties (stored g w) !! next_record_number = w_properties w !! next_record_number.
Proof.
  intros Hp. unfold stored. destruct g; simpl in *; unfold load_account_record, load_transaction_record; try case_match; try done.
  simpl. rewrite lookup_insert_ne; [ done | ]. intros E. apply Hp. by rewrite E.
Qed.

Lemma store_generic_spec w g : mirrored w -> get_wallet_record_index g <> 0 -> store_and_reload_generic g w = (stored g w, Ok tt).
Proof.
  intros M Hi. unfold store_and_reload_generic, nbind, nread, on_records. rewrite (mi_open _ M). cbn -[load_record].
  rewrite (proj2 (Z.eqb_neq _ _) Hi). cbn -[load_record]. unfold stored. done.
Qed.

(** A new number: the record of the number is changed, nothing else is. *)
Lemma new_index_spec w w' res : mirrored w -> new_wallet_record_index w = (w', res) ->
  mirrored w' /\ (forall p, p <> at_property next_record_number -> memory w' p = memory w p)
  /\ w_btc_to_bts w' = w_btc_to_bts w /\ w_id_to_transaction w' = w_id_to_transaction w /\ w_address_to_account w' = w_address_to_account w
  /\ match res with
     | Ok i => i = next_number w /\ next_number w' = i + 1 /\ disk w' !! i = None
     | Throw _ => w' = w
     end.
Proof.
  intros M. pose proof (mi_next _ M) as Hr. unfold new_wallet_record_index, nbind at 1, nread, get_property.
  assert (E : (if is_null match w_properties w !! next_record_number with Some r => wp_value (record_data r) | None => null_variant end then Ok 2
    else n <- as_int match w_properties w !! next_record_number with Some r => wp_value (record_data r) | None => null_variant end ;; Ok (swrap32 n))
    = Ok (next_number w)).
  { destruct (w_properties w !! next_record_number) as [r|] eqn:Hp; [ | unfold next_number; by rewrite Hp ].
    rewrite (mi_value _ M _ Hp). cbn. unfold swrap32. f_equal. unfold two32. rewrite Z.mod_small by lia. lia. }
  rewrite E. destruct (next_number w =? 2147483647) eqn:Hmax; [ intros [= <- <-]; done | ]. apply Z.eqb_neq in Hmax.
  set (n := next_number w) in *.
  assert (Hfresh : disk w !! n = None).
  { destruct (disk w !! n) as [g|] eqn:Hd; [ | done ]. destruct (mi_disk _ M _ _ Hd) as (_ & _ & _ & ? & _). lia. }
  assert (Hgo : exists r, wallet_record_index r = 1 /\ record_data r = {| wp_key := next_record_number; wp_value := int_variant (n + 1) |}
    /\ store_property next_record_number (int_variant (n + 1)) (nret 1) w = store_and_reload_generic (property_record r) w).
  { unfold store_property, nbind, nread. destruct (w_properties w !! next_record_number) as [r|] eqn:Hp; cbn [nret].
    - assert (Hm : memory w (at_property next_record_number) = Some (property_record r)) by (simpl; by rewrite Hp).
      destruct (mi_memory _ M _ _ Hm) as (Hk & Hd). simpl in Hk. injection Hk as Hk. eexists. split; [ | split; [ | reflexivity ] ].
      + simpl. destruct (mi_disk _ M _ _ Hd) as (_ & _ & _ & _ & I3 & _). apply I3. simpl. by rewrite Hk.
      + simpl. by rewrite Hk.
    - eexists. split; [ | split; [ | reflexivity ] ]; done. }
  destruct Hgo as (r & Hi & Hd & Hgo). unfold nbind, nret in *. rewrite Hgo, (store_generic_spec w (property_record r) M) by (simpl; lia).
  intros [<- <-]%pair_equal_spec. set (g := property_record r).
  assert (Hp : place_of g = at_property next_record_number) by (simpl; by rewrite Hd).
  assert (Hl : w_properties (stored g w) !! next_record_number = Some r).
  { simpl. rewrite Hd. simpl. by rewrite lookup_insert_eq. }
  assert (Hn : next_number (stored g w) = n + 1) by (unfold next_number; by rewrite Hl, Hd).
  assert (F : fits w g).
  { split; [ | | done ].
    - intros g' H. change (disk w !! wallet_record_index r = Some g') in H. rewrite Hi in H. rewrite Hp. destruct (mi_disk _ M _ _ H) as (_ & _ & _ & _ & I3 & _). by apply I3.
    - intros g' H. rewrite Hp in H. destruct (mi_memory _ M _ _ H) as (E1 & E2). destruct (mi_disk _ M _ _ E2) as (_ & _ & _ & _ & I3 & _).
      simpl. rewrite Hi. by apply I3. }
  split; [ | split ].
  - apply stored_mirrored; try done.
    + rewrite Hn. simpl. rewrite Hi. unfold index_ok. rewrite Hp. split_and!; [ done | lia | done | done ].
    + rewrite Hn. lia.
    + intros r'. rewrite Hl. intros [= <-]. rewrite Hn. by rewrite Hd.
  - intros p Hne. rewrite memory_stored by done. rewrite Hp. by rewrite bool_decide_eq_false_2.
  - split_and!; try done. rewrite disk_stored. simpl. rewrite Hi, lookup_insert_ne by lia. done.
Qed.

(** Kinds of records that are neither the number of the next record nor the
    master key. *)
Class Kind {D} (generic : wallet_record D -> generic_record) := {
  kind_index : forall r, get_wallet_record_index (generic r) = wallet_record_index r;
  kind_place : forall r, place_of (generic r) <> at_property next_record_number /\ place_of (generic r) <> at_master }.
#[export] Instance account_kind : Kind account_wallet_record.
Proof. by split. Qed.
#[export] Instance key_kind : Kind key_record.
Proof. by split. Qed.
#[export] Instance contact_kind : Kind contact_record.
Proof. by split. Qed.
#[export] Instance approval_kind : Kind approval_record.
Proof. by split. Qed.
#[export] Instance transaction_kind : Kind transaction_info_record.
Proof. by split. Qed.
#[export] Instance setting_kind : Kind setting_record.
Proof. by split. Qed.
#[export] Instance packet_kind : Kind packet_info_record.
Proof. by split. Qed.

(** Where new data can be assigned: to the record that is at its place, or,
    when there is none, to a new index. *)
Definition assignable {D} (generic : wallet_record D -> generic_record) w (found : option (wallet_record D)) (d : D) : Prop :=
  (forall i, record_ok (generic (mk_wallet_record i d)))
  /\ match found with
     | Some r => disk w !! wallet_record_index r = Some (generic r)
                 /\ place_of (generic (mk_wallet_record (wallet_record_index r) d)) = place_of (generic r)
     | None => forall i, disk w !! i = None -> memory w (place_of (generic (mk_wallet_record i d))) = None
     end.

(** What a successful store did. *)
Definition stored_at {D} (generic : wallet_record D -> generic_record) w w' (r : wallet_record D) : Prop :=
  (forall p, p <> at_property next_record_number ->
     memory w' p = if bool_decide (p = place_of (generic r)) then Some (generic r) else memory w p)
  /\ disk w' !! wallet_record_index r = Some (generic r).

Lemma kind_ordinary {D} (generic : wallet_record D -> generic_record) `{!Kind generic} w r i : mirrored w -> disk w !! i = Some (generic r) ->
  i = wallet_record_index r /\ i <> 0 /\ i <> 1 /\ i <> -1 /\ i < next_number w.
Proof.
  intros M H. destruct (mi_disk _ M _ _ H) as (E & _ & I1 & I2 & I3 & I4). destruct (kind_place r) as [P1 P2].
  rewrite kind_index in E. split_and!; [ done | done | tauto | tauto | done ].
Qed.

Lemma store_kind {D} (generic : wallet_record D -> generic_record) `{!Kind generic} w r : mirrored w ->
  fits w (generic r) -> wallet_record_index r <> 0 -> wallet_record_index r <> 1 -> wallet_record_index r <> -1 ->
  wallet_record_index r < next_number w ->
  exists w', store_and_reload_generic (generic r) w = (w', Ok tt) /\ mirrored w' /\ stored_at generic w w' r.
Proof.
  intros M F I0 I1 I2 I3. destruct (kind_place r) as [P1 P2]. pose proof (next_stored (generic r) w P1) as Hp.
  assert (Hn : next_number (stored (generic r) w) = next_number w) by (unfold next_number; by rewrite Hp).
  eexists. split; [ apply store_generic_spec; [ done | by rewrite kind_index ] | split ].
  - apply stored_mirrored; try done; rewrite ?Hn.
    + rewrite kind_index. split_and!; try done; split; done.
    + pose proof (mi_next _ M). lia.
    + intros r'. rewrite Hp. apply (mi_value _ M).
  - split; [ intros p _; by apply memory_stored; destruct F | ]. rewrite disk_stored, kind_index. apply lookup_insert_eq.
Qed.

Lemma store_and_reload_spec {D} (generic : wallet_record D -> generic_record) `{!Kind generic} w w' found d res : mirrored w ->
  assignable generic w found d -> store_and_reload generic (assign found d) w = (w', res) ->
  mirrored w' /\ match res with
    | Ok r => record_data r = d /\ (forall r0, found = Some r0 -> wallet_record_index r = wallet_record_index r0) /\ stored_at generic w w' r
    | Throw _ => w' = w
    end.
Proof.
  intros M [Hok A]. unfold store_and_reload. destruct found as [r0|]; cbn [assign wallet_record_index record_data].
  - destruct A as [A1 A2]. destruct (kind_ordinary generic w r0 _ M A1) as (_ & I0 & I1 & I2 & I3).
    rewrite (proj2 (Z.eqb_neq _ _) I0). unfold nbind at 1, nret at 1.
    set (r := mk_wallet_record (wallet_record_index r0) d) in *.
    assert (F : fits w (generic r)).
    { split; [ | | apply Hok ].
      - intros g'. rewrite kind_index. cbn. rewrite A1. intros [= <-]. done.
      - intros g'. rewrite A2. destruct (mi_disk _ M _ _ A1) as (_ & Hm & _). rewrite Hm. intros [= <-]. by rewrite !kind_index. }
    destruct (store_kind generic w r M F) as (w1 & E & M1 & S1); try done. unfold nbind. rewrite E.
    unfold nret. intros [= <- <-]. split; [ done | ]. split; [ done | ]. split; [ by intros ? [= ->] | done ].
  - change (0 =? 0) with true. cbn iota. unfold nbind at 1. destruct (new_wallet_record_index w) as [w1 [i|e]] eqn:En.
    2: { destruct (new_index_spec _ _ _ M En) as (M1 & _ & _ & _ & _ & ->). intros [= <- <-]. done. }
    destruct (new_index_spec _ _ _ M En) as (M1 & Hm & _ & _ & _ & -> & Hn & Hf).
    set (r := mk_wallet_record (next_number w) d) in *. pose proof (mi_next _ M) as Hr.
    assert (Hfw : disk w !! next_number w = None).
    { destruct (disk w !! next_number w) as [g|] eqn:Hd; [ | done ]. destruct (mi_disk _ M _ _ Hd) as (_ & _ & _ & ? & _). lia. }
    assert (F : fits w1 (generic r)).
    { split; [ | | apply Hok ].
      - intros g'. rewrite kind_index. unfold r. cbn. by rewrite Hf.
      - intros g'. rewrite Hm by apply kind_place. intros H. specialize (A _ Hfw). fold r in A. congruence. }
    destruct (store_kind generic w1 r M1 F) as (w2 & E & M2 & S1 & S2); [ unfold r; cbn; lia.. | ].
    unfold nbind. rewrite E. unfold nret. intros [= <- <-]. split; [ done | ]. split; [ done | ]. split; [ done | ].
    split; [ | done ]. intros p Hp. rewrite S1 by done. case_bool_decide; [ done | ]. by apply Hm.
Qed.

(** *** Removing keeps it *)

Lemma removed_mirrored {D} (generic : wallet_record D -> generic_record) `{!Kind generic} w w' r : mirrored w ->
  disk w !! wallet_record_index r = Some (generic r) ->
  w_records w' = Build_level_map (Some (delete (wallet_record_index r) (disk w))) true ->
  (forall p, memory w' p = if bool_decide (p = place_of (generic r)) then None else memory w p) ->
  w_properties w' = w_properties w -> cached w' -> mirrored w'.
Proof.
  intros M Hd Hr Hm Hp Hc.
  assert (Hn : next_number w' = next_number w) by (unfold next_number; by rewrite Hp).
  assert (Hd' : disk w' = delete (wallet_record_index r) (disk w)) by (unfold disk at 1; by rewrite Hr).
  destruct (mi_disk _ M _ _ Hd) as (Hi & Hmr & _).
  split; rewrite ?Hd', ?Hn, ?Hp; [ done | | | apply (mi_next _ M) | apply (mi_value _ M) | done | ].
  - intros i g H. apply lookup_delete_Some in H as [Hne H]. destruct (mi_disk _ M _ _ H) as (E & Hg & I).
    split; [ done | ]. split; [ | done ]. rewrite Hm. case_bool_decide as Hx; [ | done ].
    rewrite Hx, Hmr in Hg. congruence.
  - intros p g. rewrite Hm. case_bool_decide as Hx; [ done | ]. intros Hg. destruct (mi_memory _ M _ _ Hg) as (E1 & E2).
    split; [ done | ]. rewrite lookup_delete_ne; [ done | ]. intros E. rewrite <- E, Hd in E2. congruence.
  - intros i g [_ H]%lookup_delete_Some. by apply (mi_ok _ M i).
Qed.

Lemma remove_item_open w i c : w_records w = Build_level_map (Some c) true ->
  remove_item i w = (with_records (Build_level_map (Some (delete i c)) true) w, Ok tt).
Proof. intros H. unfold remove_item, ncatch, on_records. by rewrite H. Qed.

(** *** What is found *)

Lemma lookup_key_spec w k found : mirrored w -> lookup_key (key_address k) w = Ok found -> found = w_keys w !! key_address k.
Proof.
  intros M. unfold lookup_key. destruct (is_open w); [ | done ]. cbn. intros [= <-].
  destruct (mi_cached _ M) as [(K1 & K2 & _) _]. destruct (w_btc_to_bts w !! key_address k) as [a|] eqn:E; cbn.
  - by rewrite (K2 _ _ E).
  - destruct (w_keys w !! key_address k) eqn:Ek; [ | done ]. specialize (K1 (key_address k)). rewrite Ek in K1.
    rewrite K1 in E by eauto. done.
Qed.

Lemma lookup_transaction_spec w id found : mirrored w -> lookup_transaction id w = Ok found -> found = w_transactions w !! id.
Proof.
  intros M. unfold lookup_transaction. destruct (is_open w); [ | done ]. cbn. intros [= <-].
  destruct (mi_cached _ M) as [_ (T1 & T2)]. destruct (w_id_to_transaction w !! id) as [a|] eqn:E; cbn.
  - by rewrite (T2 _ _ E).
  - destruct (w_transactions w !! id) eqn:Ek; [ | done ]. specialize (T1 id). rewrite Ek in T1. rewrite T1 in E by eauto. done.
Qed.

Lemma assignable_here {D} (generic : wallet_record D -> generic_record) `{!Kind generic} w found d p : mirrored w ->
  (forall i, record_ok (generic (mk_wallet_record i d))) -> (forall i, place_of (generic (mk_wallet_record i d)) = p) ->
  memory w p = generic <$> found -> assignable generic w found d.
Proof.
  intros M Hok Hp Hm. split; [ done | ]. destruct found as [r|]; cbn in Hm; [ | intros i _; by rewrite Hp ].
  destruct (mi_memory _ M _ _ Hm) as (E & Hd). rewrite kind_index in Hd. by rewrite Hp, E.
Qed.

Lemma found_account {K} `{Countable K} (cache : wallet_db -> gmap K Z) k w r : mirrored w -> lookup_index cache k w = Ok (Some r) ->
  w_accounts w !! wallet_record_index r = Some r /\ disk w !! wallet_record_index r = Some (account_wallet_record r).
Proof.
  intros M. unfold lookup_index. destruct (is_open w); [ | done ]. cbn. destruct (cache w !! k) as [i|]; [ | done ]. cbn.
  intros [= E]. assert (Hm : memory w (at_account i) = Some (account_wallet_record r)) by (simpl; by rewrite E).
  destruct (mi_memory _ M _ _ Hm) as (E1 & E2). simpl in E1, E2. by simplify_eq.
Qed.

Lemma assignable_account w found d : mirrored w ->
  (forall r, found = Some r -> disk w !! wallet_record_index r = Some (account_wallet_record r)) -> assignable account_wallet_record w found d.
Proof.
  intros M Hf. split; [ done | ]. destruct found as [r|]; [ by rewrite Hf by done | ].
  intros i Hi. destruct (memory w _) as [g|] eqn:Hm; [ | done ]. destruct (mi_memory _ M _ _ Hm) as (E1 & E2).
  destruct g; simplify_eq/=; by rewrite Hi in E2.
Qed.
End mirror.
