(* ===== verification/WalletSteps.v ===== *)
(** What the wallet's database does keeps memory and disk alike: one lemma per
    operation, and the operations as events. Opening the records on disk again
    restores the memory. *)

From stdpp Require Import sorting.
From S2P Require Import Prelude StateMonad Asset Names Records Keys Building Storage StorageProps WalletDb WalletDbProps.

(** Splitting a run: the state it reads, and what the step returned. *)
Ltac read_step H x E :=
  apply nread_inv in H as [(x & E & H)|(? & ? & -> & ->)]; [ | done ].
Ltac bind_step H w1 a E :=
  apply nbind_inv in H as [(w1 & a & E & H)|(? & E & ->)].

Section steps.
Context `{Cr : Crypto} `{Kc : KeyCrypto} `{Tx : TxCrypto} `{Wh : WalletHash} `{Pd : !PtsDisjoint}.
Implicit Types (w : wallet_db) (g : generic_record).

Lemma keeps_require_open : keeps mirrored require_open.
Proof. apply keeps_read. Qed.
#[local] Hint Resolve keeps_require_open : keeps.

Lemma store_assigned {D} (generic : wallet_record D -> generic_record) `{!Kind generic} w w' found d res : mirrored w ->
  assignable generic w found d -> store_and_reload generic (assign found d) w = (w', res) -> mirrored w'.
Proof. intros M A H. by destruct (store_and_reload_spec _ _ _ _ _ _ M A H). Qed.

(** *** Keys *)

Lemma assignable_key w key found : mirrored w -> lookup_key (kd_address key) w = Ok found -> assignable key_record w found key.
Proof.
  intros M H. apply lookup_key_spec in H as ->; [ | done ].
  by apply (assignable_here key_record w _ _ (at_key (kd_address key))).
Qed.

Lemma stored_at_again {D} (generic : wallet_record D -> generic_record) w w1 w2 r r' :
  place_of (generic r') = place_of (generic r) -> stored_at generic w w1 r -> stored_at generic w1 w2 r' -> stored_at generic w w2 r'.
Proof.
  intros E [H1 _] [H2 D2]. split; [ | done ]. intros p Hp. rewrite H2, H1 by done. rewrite E. by case_bool_decide.
Qed.

Definition key_stored key w w' : Prop := exists a r, kd_public_key key <> null_key /\ record_data r = set_kd_account_address a key
  /\ stored_at key_record w w' r.

(** The key that is stored may get the address of its account. *)
Lemma store_key_run key w w' res : mirrored w -> store_key key w = (w', res) ->
  mirrored w' /\ ((w' = w /\ exists e, res = Throw e) \/ key_stored key w w').
Proof.
  intros M H. unfold store_key in H. apply nread_inv in H as [(u & E1 & H)|(e & E1 & -> & ->)]; [ | eauto ].
  apply nread_inv in H as [(u2 & E2 & H)|(e & E2 & -> & ->)]; [ | eauto ].
  apply fc_assert_Ok, negb_true_iff, Z.eqb_neq in E2.
  apply nread_inv in H as [(found & E3 & H)|(e & E3 & -> & ->)]; [ | eauto ].
  pose proof (assignable_key _ _ _ M E3) as A.
  bind_step H w1 r E4; pose proof (store_and_reload_spec _ _ _ _ _ _ M A E4) as [M1 S1]; [ | subst w'; eauto ].
  destruct S1 as (Hd & _ & Hs).
  assert (Hfirst : key_stored key w w1) by (exists (kd_account_address key), r; by destruct key).
  assert (Hdone : forall e : result unit, (w1, e) = (w', res) -> mirrored w' /\ ((w' = w /\ exists e, res = Throw e) \/ key_stored key w w')).
  { intros e [= <- <-]. eauto. }
  destruct (has_private_key key); [ | by apply (Hdone (Ok tt)) ].
  apply nread_inv in H as [(by_key & E5 & H)|(e & _ & -> & ->)]; [ | by eapply Hdone ].
  apply nbind_inv in H as [(w2 & account & E6 & H)|(e & E6 & ->)].
  2: { destruct by_key; [ done | ]. unfold nread in E6. simplify_eq. by eapply Hdone. }
  assert (w2 = w1) as -> by (destruct by_key; unfold nread, nret in E6; congruence).
  destruct account as [a|]; [ | by apply (Hdone (Ok tt)) ].
  destruct (negb _); [ | by apply (Hdone (Ok tt)) ].
  set (owner := owner_address _) in H. clear E6 Hdone.
  change (mk_wallet_record (wallet_record_index r) (set_kd_account_address owner key))
    with (assign (Some r) (set_kd_account_address owner key)) in H.
  assert (A2 : assignable key_record w1 (Some r) (set_kd_account_address owner key)).
  { split; [ done | ]. split; [ apply Hs | ]. simpl. by rewrite Hd. }
  bind_step H w3 r2 E7; pose proof (store_and_reload_spec _ _ _ _ _ _ M1 A2 E7) as [M2 S2]; [ | subst w'; eauto ].
  apply pair_equal_spec in H as [<- <-]. split; [ done | ]. right. destruct S2 as (Hd2 & _ & Hs2).
  exists owner, r2. split_and!; try done. eapply stored_at_again; [ | exact Hs | exact Hs2 ]. simpl. by rewrite Hd, Hd2.
Qed.

Lemma keeps_store_key key : keeps mirrored (store_key key).
Proof. intros w w' res H M. by destruct (store_key_run _ _ _ _ M H). Qed.
#[local] Hint Resolve keeps_store_key : keeps.

(** *** Accounts *)

Lemma keeps_store_account_key owner k : keeps mirrored (store_account_key owner k).
Proof. apply keeps_bind; [ auto with keeps | ]. intros [r|]; [ destruct (_ && _) | ]; auto with keeps. Qed.

Lemma lookup_found {K} `{Countable K} (cache : wallet_db -> gmap K Z) k w found : mirrored w -> lookup_index cache k w = Ok found ->
  forall r, found = Some r -> disk w !! wallet_record_index r = Some (account_wallet_record r).
Proof. intros M E r ->. by apply (found_account cache k). Qed.

Lemma keeps_store_account account : keeps mirrored (store_account account).
Proof.
  intros w w' res H M. unfold store_account in H. read_step H u E1. read_step H u2 E2. read_step H u3 E3. read_step H found E4.
  pose proof (assignable_account w found account M (lookup_found _ _ _ _ M E4)) as A.
  bind_step H w1 r E5; pose proof (store_assigned _ _ _ _ _ _ M A E5) as M1; [ | done ].
  revert H M1. apply keeps_bind; [ | auto with keeps ]. apply keeps_fold. intros k _. apply keeps_store_account_key.
Qed.
#[local] Hint Resolve keeps_store_account : keeps.

Lemma keeps_store_blockchain_account r : keeps mirrored (store_blockchain_account r).
Proof. unfold store_blockchain_account. auto 10 with keeps. Qed.

Lemma remove_found {D} (generic : wallet_record D -> generic_record) `{!Kind generic} (f : wallet_db -> wallet_db) w w' (r : wallet_record D)
    (X : Type) (x : X) (res : result X) : mirrored w ->
  disk w !! wallet_record_index r = Some (generic r) -> w_records (f w) = w_records w -> w_properties (f w) = w_properties w -> cached (f w) ->
  (forall p, memory (f w) p = if bool_decide (p = place_of (generic r)) then None else memory w p) ->
  (_ <~ nwrite f ;; _ <~ remove_item (wallet_record_index r) ;; nret x) w = (w', res) -> mirrored w'.
Proof.
  intros M Hd Hr Hp Hc Hm. rewrite nwrite_inv. unfold nbind.
  rewrite (remove_item_open _ _ (disk w)) by (rewrite Hr; apply (mi_open _ M)).
  unfold nret. intros [= <- <-]. by apply (removed_mirrored generic w _ r).
Qed.

Lemma keeps_remove_account a : keeps mirrored (remove_account a).
Proof.
  intros w w' res H M. unfold remove_account in H. read_step H found E. destruct found as [r|]; [ | by apply pair_equal_spec in H as [<- _] ].
  destruct (found_account _ _ _ _ M E) as [Ha Hd]. revert H. apply (remove_found account_wallet_record); try done.
  - destruct (mi_cached _ M) as [K T]. by split.
  - intros p. simpl. destruct p; try done; simpl. case_bool_decide as Hx; [ | rewrite lookup_delete_ne; [ done | congruence ] ].
    injection Hx as ->. by rewrite lookup_delete_eq.
Qed.

(** *** New keys *)

Lemma keeps_import_key password name key move : keeps mirrored (import_key password name key move).
Proof. unfold import_key. auto 10 with keeps. apply keeps_bind; [ auto with keeps | ]. intros [a|]; auto 10 with keeps. Qed.

Lemma keeps_new_index : keeps mirrored new_wallet_record_index.
Proof. intros w w' res H M. by destruct (new_index_spec _ _ _ M H). Qed.
#[local] Hint Resolve keeps_new_index : keeps.

(** A property other than the number of the next record. *)
Lemma property_stored w r : mirrored w -> wp_key (record_data r) <> next_record_number ->
  fits w (property_record r) -> wallet_record_index r <> 0 -> wallet_record_index r <> 1 -> wallet_record_index r <> -1 ->
  wallet_record_index r < next_number w ->
  exists w', store_and_reload_generic (property_record r) w = (w', Ok tt) /\ mirrored w'.
Proof.
  intros M Hk F I0 I1 I2 I3. eexists. split; [ by apply store_generic_spec | ].
  assert (P1 : place_of (property_record r) <> at_property next_record_number) by (simpl; congruence).
  pose proof (next_stored (property_record r) w P1) as Hp.
  assert (Hn : next_number (stored (property_record r) w) = next_number w) by (unfold next_number; by rewrite Hp).
  apply stored_mirrored; try done; rewrite ?Hn.
  - split_and!; try done; split; done.
  - pose proof (mi_next _ M). lia.
  - intros r'. rewrite Hp. apply (mi_value _ M).
Qed.

Lemma keeps_set_property id v : id <> next_record_number -> keeps mirrored (set_property id v).
Proof.
  intros Hid w w' res H M. unfold set_property in H. rewrite bool_decide_eq_false_2 in H by done. unfold store_property in H.
  apply nread_inv in H as [(found & E & H)|(? & [=] & _)]. injection E as E.
  destruct found as [r|].
  - assert (Hm : memory w (at_property id) = Some (property_record r)) by (simpl; by rewrite E).
    destruct (mi_memory _ M _ _ Hm) as (Hk & Hd). simpl in Hk, Hd. injection Hk as Hk.
    destruct (mi_disk _ M _ _ Hd) as (_ & _ & I0 & I1 & I2 & I3). simpl in I2, I3. rewrite Hk in I2.
    destruct (property_stored w (mk_wallet_record (wallet_record_index r) {| wp_key := wp_key (record_data r); wp_value := v |}) M)
      as (w1 & E1 & M1); simpl; try done; [ by rewrite Hk | | intros Hx; apply I2 in Hx; congruence | intros Hx; by apply I3 in Hx | ].
    + split; simpl; [ | | done ].
      * intros g'. rewrite Hd. by intros [= <-].
      * intros g'. rewrite Hk, E. by intros [= <-].
    + rewrite E1 in H. congruence.
  - bind_step H w1 i En; destruct (new_index_spec _ _ _ M En) as (M1 & Hm & _ & _ & _ & Hi); [ | by subst ].
    destruct Hi as (-> & Hn & Hf). pose proof (mi_next _ M).
    destruct (property_stored w1 (mk_wallet_record (next_number w) {| wp_key := id; wp_value := v |}) M1) as (w2 & E1 & M2); simpl; try lia; [ done | | ].
    + split; simpl; [ | | done ].
      * intros g'. by rewrite Hf.
      * intros g'. specialize (Hm (at_property id)). simpl in Hm. rewrite Hm by congruence. by rewrite E.
    + rewrite E1 in H. congruence.
Qed.

Lemma keeps_set_last_index i : keeps mirrored (set_last_wallet_child_key_index i).
Proof. apply keeps_bind; [ auto with keeps | ]. intros _. by apply keeps_set_property. Qed.
#[local] Hint Resolve keeps_set_last_index : keeps.

Lemma keeps_store_new_account password now name owner active i : keeps mirrored (store_new_account password now name owner active i).
Proof. unfold store_new_account. repeat (apply keeps_bind; [ auto with keeps | intros ? ]); auto with keeps. destruct i; auto with keeps. Qed.
#[local] Hint Resolve keeps_store_new_account : keeps.

Lemma keeps_generate_new_account password now name : keeps mirrored (generate_new_account password now name).
Proof. unfold generate_new_account. repeat (apply keeps_bind; [ auto with keeps | intros ? ]). destruct a0 as [? [? ?]]. auto with keeps. Qed.

Lemma keeps_generate_account_with_key password now name owner : keeps mirrored (generate_account_with_key password now name owner).
Proof. unfold generate_account_with_key. auto with keeps. Qed.

Lemma keeps_generate_child password name t : keeps mirrored (generate_new_account_child_key password name t).
Proof.
  unfold generate_new_account_child_key. apply keeps_bind; [ auto with keeps | ]. intros [r|]; [ | auto with keeps ].
  apply keeps_bind; [ auto with keeps | ]. intros [[i child] k]. auto 10 with keeps.
Qed.

Lemma keeps_one_time password random : keeps mirrored (generate_new_one_time_key password random).
Proof. unfold generate_new_one_time_key. auto 10 with keeps. Qed.

Lemma keeps_cache_memo memo account_key password : keeps mirrored (cache_memo memo account_key password).
Proof. unfold cache_memo. auto 10 with keeps. Qed.

(** *** The other records *)

(** A record kept under a key of its own, found there and stored again. *)
Lemma keeps_store_here {D} (generic : wallet_record D -> generic_record) `{!Kind generic} w w' res found d p : mirrored w ->
  (forall i, record_ok (generic (mk_wallet_record i d))) -> (forall i, place_of (generic (mk_wallet_record i d)) = p) ->
  memory w p = generic <$> found -> store_and_reload generic (assign found d) w = (w', res) -> mirrored w'.
Proof. intros M Hok Hp Hm. apply (store_assigned generic); [ done | ]. by apply (assignable_here generic w found d p). Qed.

(** Changing the labels changes nothing that is stored. *)
Lemma labels_mirrored v w : mirrored w -> mirrored (with_labels v w).
Proof. intros []. by split. Qed.

Lemma keeps_store_contact contact : keeps mirrored (store_contact contact).
Proof.
  intros w w' res H M. unfold store_contact in H. read_step H u E1. read_step H u2 E2. read_step H collision E3. read_step H u4 E4.
  read_step H found E5. rewrite nwrite_inv in H. revert H.
  assert (M1 : mirrored match found with
    | Some r => if bool_decide (cd_label (record_data r) = cd_label contact) then w else with_labels (delete (cd_label (record_data r)) (w_labels w)) w
    | None => w end) by (destruct found as [r|]; [ destruct (bool_decide (cd_label (record_data r) = cd_label contact)); [ done | by apply labels_mirrored ] | done ]).
  apply (keeps_store_here contact_record _ _ _ _ _ (at_contact (cd_data contact)) M1); try done.
  unfold lookup_contact in E5. destruct (is_open w); [ | done ]. cbn in E5. injection E5 as <-.
  simpl. destruct (w_contacts w !! cd_data contact) as [r|] eqn:Ec; [ | by rewrite Ec ].
  destruct (bool_decide (cd_label (record_data r) = cd_label contact)); simpl; by rewrite Ec.
Qed.

Lemma keeps_remove_contact data : keeps mirrored (remove_contact data).
Proof.
  intros w w' res H M. unfold remove_contact in H. read_step H found E. destruct found as [r|]; [ | by apply pair_equal_spec in H as [<- _] ].
  unfold lookup_contact in E. destruct (is_open w); [ | done ]. cbn in E. injection E as E.
  assert (Hm : memory w (at_contact data) = Some (contact_record r)) by (simpl; by rewrite E).
  destruct (mi_memory _ M _ _ Hm) as (Hk & Hd). revert H. apply (remove_found contact_record); try done.
  - destruct (mi_cached _ M) as [K T]. by split.
  - intros p. rewrite Hk. simpl. destruct p; try done; simpl. case_bool_decide as Hx; [ | rewrite lookup_delete_ne; [ done | congruence ] ].
    injection Hx as ->. by rewrite lookup_delete_eq.
Qed.
#[local] Hint Resolve keeps_remove_contact : keeps.

Lemma keeps_remove_contact_label label : keeps mirrored (remove_contact_label label).
Proof. unfold remove_contact_label. apply keeps_bind; [ auto with keeps | ]. intros [r|]; auto with keeps. Qed.

Lemma keeps_store_packet packet : keeps mirrored (store_packet packet).
Proof.
  intros w w' res H M. unfold store_packet in H. read_step H found E. revert H.
  apply (keeps_store_here packet_info_record _ _ _ _ _ (at_packet (pi_packet_id packet)) M); try done.
  unfold lookup_packet in E. destruct (is_open w); [ | done ]. cbn in E. by injection E as <-.
Qed.

Lemma keeps_store_approval approval : keeps mirrored (store_approval approval).
Proof.
  intros w w' res H M. unfold store_approval in H. read_step H found E. revert H.
  apply (keeps_store_here approval_record _ _ _ _ _ (at_approval (ap_name approval)) M); try done.
  unfold lookup_approval in E. destruct (is_open w); [ | done ]. cbn in E. destruct (negb _); [ | done ]. cbn in E. by injection E as <-.
Qed.

Lemma keeps_remove_approval name : keeps mirrored (remove_approval name).
Proof.
  intros w w' res H M. unfold remove_approval in H. read_step H found E. destruct found as [r|]; [ | by apply pair_equal_spec in H as [<- _] ].
  unfold lookup_approval in E. destruct (is_open w); [ | done ]. cbn in E. destruct (negb _); [ | done ]. cbn in E. injection E as E.
  assert (Hm : memory w (at_approval name) = Some (approval_record r)) by (simpl; by rewrite E).
  destruct (mi_memory _ M _ _ Hm) as (Hk & Hd). revert H. apply (remove_found approval_record); try done.
  - destruct (mi_cached _ M) as [K T]. by split.
  - intros p. rewrite Hk. simpl. destruct p; try done; simpl. case_bool_decide as Hx; [ | rewrite lookup_delete_ne; [ done | congruence ] ].
    injection Hx as ->. by rewrite lookup_delete_eq.
Qed.

Lemma keeps_store_transaction t : transaction_ok t -> keeps mirrored (store_transaction t).
Proof.
  intros Ht w w' res H M. unfold store_transaction in H. read_step H u E1. read_step H found E.
  apply lookup_transaction_spec in E as ->; [ | done ]. bind_step H w1 r Es; [ apply pair_equal_spec in H as [<- _] | ]; revert Es;
  by apply (keeps_store_here transaction_info_record _ _ _ _ _ (at_transaction (ti_record_id t)) M).
Qed.

Lemma keeps_remove_transaction id : keeps mirrored (remove_transaction id).
Proof.
  intros w w' res H M. unfold remove_transaction in H. read_step H found E. destruct found as [r|]; [ | by apply pair_equal_spec in H as [<- _] ].
  apply lookup_transaction_spec in E; [ | done ].
  assert (Hm : memory w (at_transaction id) = Some (transaction_info_record r)) by (simpl; by rewrite <- E).
  destruct (mi_memory _ M _ _ Hm) as (Hk & Hd). unfold nbind in H. rewrite (remove_item_open _ _ _ (mi_open _ M)) in H.
  apply pair_equal_spec in H as [<- _]. apply (removed_mirrored transaction_info_record w _ r); try done.
  - intros p. rewrite Hk. destruct p; try done; simpl. case_bool_decide as Hx; [ | rewrite lookup_delete_ne; [ done | congruence ] ].
    injection Hx as ->. by rewrite lookup_delete_eq.
  - destruct (mi_cached _ M) as [K [T1 T2]]. split; [ done | ]. split; [ | done ]. simpl. intros x Hx. apply T1.
    destruct (decide (x = id)) as [->|Hne]; [ rewrite lookup_delete_eq in Hx; by destruct Hx | by rewrite lookup_delete_ne in Hx ].
Qed.

(** Two states with the same records, on disk and in memory. *)
Lemma mirrored_same w w' : mirrored w -> w_records w' = w_records w -> (forall p, memory w' p = memory w p) ->
  w_properties w' = w_properties w -> w_keys w' = w_keys w -> w_btc_to_bts w' = w_btc_to_bts w ->
  w_transactions w' = w_transactions w -> w_id_to_transaction w' = w_id_to_transaction w -> mirrored w'.
Proof.
  intros M Hr Hm Hp Hk Hb Ht Hi. assert (Hd : disk w' = disk w) by (unfold disk; by rewrite Hr).
  assert (Hn : next_number w' = next_number w) by (unfold next_number; by rewrite Hp).
  split; rewrite ?Hd, ?Hn, ?Hp; [ rewrite Hr; apply (mi_open _ M) | | | apply (mi_next _ M) | apply (mi_value _ M) | | apply (mi_ok _ M) ].
  - intros i g H. rewrite Hm. by apply (mi_disk _ M).
  - intros p g. rewrite Hm. apply (mi_memory _ M).
  - unfold cached, keys_cached, transactions_cached. rewrite Hk, Hb, Ht, Hi. apply (mi_cached _ M).
Qed.

(** A record of a kind that takes the place of the one at its index. *)
Lemma replace_mirrored {D} (generic : wallet_record D -> generic_record) `{!Kind generic} w r0 d : mirrored w ->
  (forall i, record_ok (generic (mk_wallet_record i d))) ->
  disk w !! wallet_record_index r0 = Some (generic r0) ->
  place_of (generic (mk_wallet_record (wallet_record_index r0) d)) = place_of (generic r0) ->
  mirrored (stored (generic (mk_wallet_record (wallet_record_index r0) d)) w).
Proof.
  intros M Hok Hd Hp. destruct (kind_ordinary generic w r0 _ M Hd) as (_ & I0 & I1 & I2 & I3).
  assert (F : fits w (generic (mk_wallet_record (wallet_record_index r0) d))).
  { split; [ | | apply Hok ].
    - intros g'. rewrite kind_index. cbn. rewrite Hd. by intros [= <-].
    - intros g'. rewrite Hp. destruct (mi_disk _ M _ _ Hd) as (_ & Hm & _). rewrite Hm. intros [= <-]. by rewrite !kind_index. }
  destruct (store_kind generic w _ M F) as (w' & E & M' & _); try done.
  rewrite store_generic_spec in E by (try rewrite kind_index; done). by simplify_eq.
Qed.

(** Storing what is in memory already. *)
Lemma store_and_reload_run {D} (generic : wallet_record D -> generic_record) `{!Kind generic} w (r : wallet_record D) c :
  w_records w = Build_level_map (Some c) true -> wallet_record_index r <> 0 ->
  store_and_reload generic r w = (stored (generic r) w, Ok r).
Proof.
  intros Hr Hi. unfold store_and_reload, nbind, store_and_reload_generic, nread, on_records, stored, disk, nbind, nread.
  rewrite (proj2 (Z.eqb_neq _ _) Hi). cbn. destruct r as [i d]. cbn in *. rewrite kind_index, Hr. cbn. by rewrite (proj2 (Z.eqb_neq _ _) Hi).
Qed.

Lemma keeps_store_setting name value : keeps mirrored (store_setting name value).
Proof.
  intros w w' res H M. unfold store_setting in H. apply nread_inv in H as [(found & E & H)|(? & [=] & _)]. injection E as E.
  destruct found as [r|].
  - assert (Hm : memory w (at_setting name) = Some (setting_record r)) by (simpl; unfold lookup_setting in E; by rewrite E).
    destruct (mi_memory _ M _ _ Hm) as (Hk & Hd). simpl in Hk, Hd. injection Hk as Hk.
    destruct (kind_ordinary setting_record w r _ M Hd) as (_ & I0 & _). rewrite nwrite_inv in H. unfold nbind in H.
    set (r' := mk_wallet_record (wallet_record_index r) {| se_name := se_name (record_data r); se_value := value |}) in *.
    rewrite (store_and_reload_run setting_record _ r' (disk w)) in H by (simpl; first [ done | apply (mi_open _ M) ]).
    apply pair_equal_spec in H as [<- _].
    pose proof (replace_mirrored setting_record w r (record_data r') M (fun _ => I) Hd eq_refl : mirrored (stored (setting_record r') w)) as M'.
    revert M'. rewrite <- Hk. intros M'. apply (mirrored_same _ _ M'); try done.
    intros p. rewrite !memory_stored by done. case_bool_decide as Hx; [ done | ]. destruct p; try done. simpl.
    rewrite lookup_insert_ne; [ done | ]. intros <-. by apply Hx.
  - bind_step H w1 i En; destruct (new_index_spec _ _ _ M En) as (M1 & Hm & _ & _ & _ & Hi); [ | by subst ].
    destruct Hi as (-> & Hn & Hf). pose proof (mi_next _ M). rewrite nwrite_inv in H. unfold nbind in H.
    set (r := mk_wallet_record (next_number w) {| se_name := name; se_value := value |}) in *.
    rewrite (store_and_reload_run setting_record _ r (disk w1)) in H by (simpl; first [ lia | apply (mi_open _ M1) ]).
    apply pair_equal_spec in H as [<- _].
    assert (F : fits w1 (setting_record r)).
    { split; simpl; [ | | done ].
      - intros g'. by rewrite Hf.
      - intros g'. specialize (Hm (at_setting name)). simpl in Hm. rewrite Hm by congruence. unfold lookup_setting in E. by rewrite E. }
    destruct (store_kind setting_record w1 r M1 F) as (w2 & E2 & M2 & _); try (simpl; lia).
    rewrite store_generic_spec in E2 by (simpl; first [ done | lia ]). apply pair_equal_spec in E2 as [<- _].
    apply (mirrored_same _ _ M2); try done.
    intros p. rewrite !memory_stored by done. case_bool_decide as Hx; [ done | ]. destruct p; try done. simpl.
    rewrite lookup_insert_ne; [ done | ]. intros <-. by apply Hx.
Qed.

Lemma keeps_rename_account key name : keeps mirrored (rename_account key name).
Proof.
  intros w w' res H M. unfold rename_account in H. read_step H found E. destruct found as [r|]; [ | by apply pair_equal_spec in H as [<- _] ].
  destruct (found_account _ _ _ _ M E) as [Ha Hd]. destruct (kind_ordinary account_wallet_record w r _ M Hd) as (_ & I0 & _).
  rewrite nwrite_inv in H. unfold nbind in H.
  set (d := mk_account_data (set_ac_name name (ad_account (record_data r))) _ _ _) in H.
  rewrite (store_and_reload_run account_wallet_record _ _ (disk w)) in H by (simpl; first [ done | apply (mi_open _ M) ]).
  apply pair_equal_spec in H as [<- _].
  pose proof (replace_mirrored account_wallet_record w r d M (fun _ => I) Hd eq_refl) as M'.
  apply (mirrored_same _ _ M'); try (simpl; unfold load_account_record; by repeat case_match).
  intros p. rewrite !memory_stored by done. case_bool_decide as Hx; [ done | ]. destruct p; try done. simpl.
  rewrite lookup_insert_ne; [ done | ]. intros <-. by apply Hx.
Qed.
End steps.

Lemma elem_of_items {V} (c : gmap Z V) k v : (k, v) ∈ items Z.le c <-> c !! k = Some v.
Proof.
  unfold items. rewrite list_elem_of_omap. split.
  - intros (j & _ & H). destruct (c !! j) as [v'|] eqn:E; simplify_eq/=. done.
  - intros H. exists k. rewrite H. split; [ | done ]. rewrite merge_sort_Permutation, list_elem_of_fmap. exists (k, v).
    by rewrite elem_of_map_to_list.
Qed.

Section reopen.
Context `{Cr : Crypto} `{Kc : KeyCrypto} `{Tx : TxCrypto} `{Wh : WalletHash} `{Pd : !PtsDisjoint}.
Implicit Types (w : wallet_db) (g : generic_record).

Definition load_all (l : list (Z * generic_record)) w : wallet_db := foldl (fun w r => load_record (snd r) w) w l.

(** Without deprecated transactions, opening loads the records one by one. *)
Lemma load_records_run l w : Forall (fun r => record_ok (snd r)) l ->
  nfold (fun r _ => ncatch (load_generic_record (snd r)) (fun _ => nret tt)) l tt w = (load_all l w, Ok tt).
Proof.
  intros Hl. revert w. induction Hl as [|[i g] l Hg _ IH]; intros w; [ done | ].
  cbn [nfold load_all foldl snd]. unfold nbind, ncatch. replace (load_generic_record g) with (nwrite (load_record g)) by (by destruct g).
  unfold nwrite. apply IH.
Qed.

(** What is loaded is at its place; what was there stays otherwise. *)
Lemma memory_load_all l w p g : Forall (fun r => record_ok (snd r)) l ->
  (forall x y, x ∈ l -> y ∈ l -> place_of (snd x) = place_of (snd y) -> x = y) ->
  memory (load_all l w) p = Some g <->
  (exists i, (i, g) ∈ l /\ place_of g = p) \/ (memory w p = Some g /\ forall x, x ∈ l -> place_of (snd x) <> p).
Proof.
  intros Hl Hinj. unfold load_all. revert Hl Hinj. induction l as [|[j h] l IH] using rev_ind; intros Hl Hinj.
  { cbn. split; [ intros H; right; split; [ done | set_solver ] | intros [(i & Hi & _)|[H _]]; [ set_solver | done ] ]. }
  apply List.Forall_app in Hl as [Hl Hh]. assert (Hok : record_ok h) by exact (Forall_inv Hh).
  rewrite foldl_app. cbn [foldl snd]. rewrite memory_load by exact (record_ok_place h Hok).
  assert (IH' := IH Hl ltac:(set_solver)). clear IH. case_bool_decide as Hp.
  - split.
    + intros [= <-]. left. exists j. set_solver.
    + intros [(i & Hi & Hg)|[_ Hn]].
      * f_equal. assert ((i, g) = (j, h)) as [= _ ->]; [ | done ]. apply Hinj; [ done | set_solver | ]. cbn. congruence.
      * exfalso. apply (Hn (j, h)); [ set_solver | done ].
  - rewrite IH'. split; (intros [(i & Hi & Hg)|[Hw Hn]]; [ left; exists i; split; [ | done ] | right; split; [ done | ] ]).
    + set_solver.
    + intros x [Hx|Hx]%elem_of_app; [ by apply Hn | ]. apply list_elem_of_singleton in Hx as ->. by intros E.
    + apply elem_of_app in Hi as [Hi|Hi]; [ done | ]. apply list_elem_of_singleton in Hi. congruence.
    + intros x Hx. apply Hn. set_solver.
Qed.

Lemma cached_load_all l w : Forall (fun r => record_ok (snd r)) l -> cached w -> cached (load_all l w).
Proof. intros Hl. revert w. induction Hl; intros w Hc; [ done | ]. cbn. apply IHHl. by apply cached_load. Qed.
Lemma records_load_all l w : w_records (load_all l w) = w_records w.
Proof. revert w. induction l as [|x l IH]; intros w; [ done | ]. cbn [load_all foldl]. unfold load_all in IH. by rewrite IH, records_load. Qed.

(** The maps of two states with the same records in memory. *)
Definition same_maps w w' : Prop :=
  w_properties w' = w_properties w /\ w_master_key w' = w_master_key w /\ w_accounts w' = w_accounts w /\ w_keys w' = w_keys w
  /\ w_contacts w' = w_contacts w /\ w_approvals w' = w_approvals w /\ w_transactions w' = w_transactions w
  /\ w_settings w' = w_settings w /\ w_packets w' = w_packets w.

Lemma option_fmap_some_inj {A B} (f : A -> B) (a b : option A) : (forall x y, f x = f y -> x = y) -> f <$> a = f <$> b -> a = b.
Proof. intros Hf. destruct a, b; cbn; intros E; try done. injection E as E. by rewrite (Hf _ _ E). Qed.

Lemma memory_maps w w' : (forall p, memory w' p = memory w p) -> same_maps w w'.
Proof.
  intros H. unfold same_maps. split_and!; try (apply map_eq; intros i).
  - eapply (option_fmap_some_inj property_record); [ congruence | apply (H (at_property i)) ].
  - eapply (option_fmap_some_inj master_key_record); [ congruence | apply (H at_master) ].
  - eapply (option_fmap_some_inj account_wallet_record); [ congruence | apply (H (at_account i)) ].
  - eapply (option_fmap_some_inj key_record); [ congruence | apply (H (at_key i)) ].
  - eapply (option_fmap_some_inj contact_record); [ congruence | apply (H (at_contact i)) ].
  - eapply (option_fmap_some_inj approval_record); [ congruence | apply (H (at_approval i)) ].
  - eapply (option_fmap_some_inj transaction_info_record); [ congruence | apply (H (at_transaction i)) ].
  - eapply (option_fmap_some_inj setting_record); [ congruence | apply (H (at_setting i)) ].
  - eapply (option_fmap_some_inj packet_info_record); [ congruence | apply (H (at_packet i)) ].
Qed.

(** Opening the records of [w] in a database [w0] that is closed and knows
    nothing else. *)
Lemma open_mirrored w w0 : mirrored w -> lm_is_open (w_records w0) = false ->
  (forall p g, memory w0 p = Some g -> memory w p = Some g) -> cached w0 ->
  exists w', open (Some (disk w)) w0 = (w', Ok tt) /\ mirrored w' /\ disk w' = disk w /\ forall p, memory w' p = memory w p.
Proof.
  intros M Hclosed H0 Hc0. set (l := items Z.le (disk w)).
  assert (Hl : Forall (fun r => record_ok (snd r)) l).
  { apply Forall_forall. intros [i g] Hx. apply elem_of_items in Hx. by apply (mi_ok _ M i). }
  assert (Hinj : forall x y, x ∈ l -> y ∈ l -> place_of (snd x) = place_of (snd y) -> x = y).
  { intros [i g] [j h] Hx%elem_of_items Hy%elem_of_items E. cbn in E.
    destruct (mi_disk _ M _ _ Hx) as (E1 & M1 & _), (mi_disk _ M _ _ Hy) as (E2 & M2 & _). rewrite E, M2 in M1. congruence. }
  set (w1 := with_records (Build_level_map (Some (disk w)) true) w0). exists (load_all l w1).
  assert (Hrun : open_records (Some (disk w)) w0 = (load_all l w1, Ok tt)).
  { unfold open_records, nbind, on_records, nread. cbn. rewrite Hclosed. cbn. by apply load_records_run. }
  assert (Hr : w_records (load_all l w1) = Build_level_map (Some (disk w)) true) by by rewrite records_load_all.
  assert (Hd : disk (load_all l w1) = disk w) by (unfold disk at 1; by rewrite Hr).
  assert (Hm : forall p, memory (load_all l w1) p = memory w p).
  { intros p. apply option_eq. intros g. rewrite (memory_load_all l w1 p g Hl Hinj). unfold w1. rewrite memory_records. split.
    - intros [(i & Hi & <-)|[Hg _]]; [ | by apply H0 ]. apply elem_of_items in Hi. by destruct (mi_disk _ M _ _ Hi) as (_ & ? & _).
    - intros Hg. left. destruct (mi_memory _ M _ _ Hg) as (E1 & E2). exists (get_wallet_record_index g). split; [ by apply elem_of_items | done ]. }
  destruct (memory_maps _ _ Hm) as (P1 & _ & _ & P2 & _ & _ & P3 & _).
  split; [ unfold open, ncatch; by rewrite Hrun | ]. split; [ | done ].
  assert (Hn : next_number (load_all l w1) = next_number w) by (unfold next_number; by rewrite P1).
  split; rewrite ?Hd, ?Hn, ?P1; [ by rewrite Hr | | | apply (mi_next _ M) | apply (mi_value _ M) | | apply (mi_ok _ M) ].
  - intros i g H. rewrite Hm. by apply (mi_disk _ M).
  - intros p g. rewrite Hm. apply (mi_memory _ M).
  - apply cached_load_all; [ done | ]. exact Hc0.
Qed.
End reopen.
