(* ===== verification/WalletKeys.v ===== *)
(** The private keys of the wallet: each is encrypted with the password, and
    none is lost. *)

From stdpp Require Import relations.
From S2P Require Import Prelude StateMonad Asset Names Records Keys MemoProps Building Storage StorageProps WalletDb WalletDbProps WalletSteps.

Lemma of_le_range n z : 0 <= of_le (le_bytes n z) < 256 ^ Z.of_nat n.
Proof.
  revert z. induction n as [|n IH]; intros z; [ simpl; lia | ]. cbn [le_bytes of_le]. specialize (IH (z / 256)).
  rewrite Nat2Z.inj_succ, Z.pow_succ_r by lia. pose proof (Z.mod_pos_bound z 256 ltac:(done)). lia.
Qed.

Section keys.
Context `{Cr : Crypto} `{Kc : KeyCrypto} `{Kl : !KeyLaws} `{Tx : TxCrypto} `{Wh : WalletHash} `{Pd : !PtsDisjoint}.
Implicit Types (w : wallet_db) (password : secret512).

#[local] Arguments unpack_private_key : simpl never.
#[local] Arguments pack_private_key : simpl never.

(** ** Encryption *)

(** The private key of a record can be had with the password, and it is the
    key of the record's address. *)
Definition sealed password (d : key_data) : Prop :=
  exists k, 0 <= k < 256 ^ 32 /\ decrypt_private_key password d = Ok k /\ key_address (get_public_key k) = kd_address d.

Lemma unpack_pack_private k : 0 <= k < 256 ^ 32 -> unpack_private_key (pack_private_key k) = Ok k.
Proof.
  intros Hk. unfold unpack_private_key, pack_private_key. rewrite le_bytes_length. cbn [Nat.leb].
  rewrite take_ge by by rewrite le_bytes_length. f_equal. by apply of_le_bytes.
Qed.

Lemma encrypt_sealed password k d d' : encrypt_private_key password k d = Ok d' ->
  sealed password d' /\ has_private_key d' = true /\ kd_public_key d' = get_public_key k /\ password <> 0
  /\ kd_account_address d' = kd_account_address d.
Proof.
  unfold encrypt_private_key. intros H. apply bind_Ok in H as (u & Hp & H). apply fc_assert_Ok, negb_true_iff, Z.eqb_neq in Hp.
  apply bind_Ok in H as (k' & Hd & H). apply bind_Ok in H as (u2 & E & H). apply fc_assert_Ok, Z.eqb_eq in E as <-. injection H as <-.
  split; [ | split ]; [ | | done ].
  - exists k. split; [ | done ]. revert Hd. unfold decrypt_private_key. cbn. rewrite (proj2 (Z.eqb_neq _ _) Hp). cbn. rewrite aes_inverse. cbn.
    unfold unpack_private_key, pack_private_key. rewrite le_bytes_length. cbn [Nat.leb]. rewrite take_ge by by rewrite le_bytes_length.
    intros E%Ok_inj. rewrite <- E. exact (of_le_range 32 k).
  - unfold has_private_key. cbn. rewrite bool_decide_eq_false_2; [ done | ]. intros E. pose proof (aes_length password (pack_private_key k)) as L.
    rewrite E in L. cbn [length] in L. pose proof (Z.div_pos (Z.of_nat (length (pack_private_key k))) 16 ltac:(lia) ltac:(lia)). lia.
Qed.

Lemma encrypt_run password k d : password <> 0 -> 0 <= k < 256 ^ 32 -> exists d', encrypt_private_key password k d = Ok d'.
Proof.
  intros Hp Hk. unfold encrypt_private_key, decrypt_private_key. cbn. rewrite (proj2 (Z.eqb_neq _ _) Hp). cbn. rewrite aes_inverse. cbn.
  fold (pack_private_key k). rewrite unpack_pack_private by done. cbn. rewrite Z.eqb_refl. eauto.
Qed.

Lemma sealed_account a password d : sealed password d -> sealed password (set_kd_account_address a d).
Proof. done. Qed.

(** ** Wallets whose keys are sealed *)

Definition all_sealed password w : Prop :=
  forall a r, w_keys w !! a = Some r -> has_private_key (record_data r) = true -> sealed password (record_data r).

(** The keys are sealed, and those of the addresses [A] are known. *)
Record keys_safe (A : address -> Prop) password w : Prop := {
  ks_mirrored : mirrored w;
  ks_sealed : all_sealed password w;
  ks_known : forall a, A a -> wallet_has_private_key a w = true }.

Lemma keys_safe_same A password w w' : w_keys w' = w_keys w -> mirrored w' -> keys_safe A password w -> keys_safe A password w'.
Proof. intros E M [_ S K]. split; [ done | | ]; unfold all_sealed, wallet_has_private_key; by rewrite E. Qed.

(** What keeps memory and disk alike, and the keys as they are. *)
Lemma keeps_safe A password {R} (m : wallet_m R) : keeps mirrored m -> (forall K, keeps (fun w => w_keys w = K) m) -> keeps (keys_safe A password) m.
Proof. intros Hm Hk w w' res H S. eapply keys_safe_same; [ by eapply Hk | eapply Hm; [ done | apply S ] | done ]. Qed.

Definition key_ok (A : address -> Prop) password (key : key_data) : Prop :=
  (has_private_key key = true -> sealed password key) /\ (has_private_key key = false -> ~ A (kd_address key)).

Lemma store_key_safe A password key w w' res : keys_safe A password w -> key_ok A password key -> store_key key w = (w', res) ->
  keys_safe A password w'.
Proof.
  intros [M S K] [K1 K2] H. destruct (store_key_run _ _ _ _ M H) as (M' & [[-> _]|(a & r & _ & Hd & Hs & _)]); [ done | ].
  assert (Hk : forall x, w_keys w' !! x = if bool_decide (x = kd_address key) then Some r else w_keys w !! x).
  { intros x. specialize (Hs (at_key x) ltac:(done)). cbn [place_of] in Hs. rewrite Hd in Hs.
    apply (option_fmap_some_inj key_record); [ congruence | ]. cbn [memory] in Hs. rewrite Hs.
    destruct (decide (x = kd_address key)) as [->|Hne]; [ by rewrite !bool_decide_eq_true_2 | ].
    rewrite !bool_decide_eq_false_2 by (try done; intros E; by injection E as E). done. }
  split; [ done | | ].
  - intros x r' H'. rewrite Hk in H'. case_bool_decide; [ injection H' as <-; rewrite Hd; intros Hp; apply sealed_account; by apply K1 | by apply (S x) ].
  - intros x Hx. unfold wallet_has_private_key. rewrite Hk. case_bool_decide; [ | by apply K ]. subst x. cbn. rewrite Hd. cbn.
    change (has_private_key (set_kd_account_address a key)) with (has_private_key key). destruct (has_private_key key); [ done | ]. by destruct (K2 eq_refl).
Qed.

Lemma keeps_safe_store_key A password key : key_ok A password key -> keeps (keys_safe A password) (store_key key).
Proof. intros Hk w w' res H S. by apply (store_key_safe A password key w w' res). Qed.
Lemma key_ok_sealed A password key : sealed password key -> has_private_key key = true -> key_ok A password key.
Proof. intros S H. split; [ done | congruence ]. Qed.

(** ** Operations that leave the keys *)

Section same_keys.
Context (K : gmap address (wallet_record key_data)).
#[local] Abbreviation same_keys := (fun w => w_keys w = K).

Lemma same_keys_on_records f : keeps same_keys (on_records f).
Proof. intros w w' res H E. unfold on_records in H. destruct (f (w_records w)); simplify_eq; done. Qed.
Lemma same_keys_generic g : (forall a, place_of g <> at_key a) -> keeps same_keys (store_and_reload_generic g).
Proof.
  intros Hg. unfold store_and_reload_generic. apply keeps_bind; [ auto with keeps | intros _ ]. apply keeps_bind; [ apply same_keys_on_records | intros _ ].
  apply keeps_write. intros w <-. destruct g; try done; simpl; unfold load_account_record, load_transaction_record; try case_match; try done.
  by destruct (Hg (kd_address (record_data r))).
Qed.
Lemma same_keys_property id v m : keeps same_keys m -> keeps same_keys (store_property id v m).
Proof.
  intros Hm. unfold store_property. apply keeps_bind; [ auto with keeps | ]. intros [r|]; [ by apply same_keys_generic | ].
  apply keeps_bind; [ done | ]. intros i. by apply same_keys_generic.
Qed.
Lemma same_keys_new_index : keeps same_keys new_wallet_record_index.
Proof.
  unfold new_wallet_record_index. apply keeps_bind; [ auto with keeps | ]. intros n. destruct (n =? _); [ auto with keeps | ].
  apply keeps_bind; [ | auto with keeps ]. apply same_keys_property. auto with keeps.
Qed.
Lemma same_keys_set_property id v : keeps same_keys (set_property id v).
Proof. unfold set_property. apply same_keys_property. case_bool_decide; [ auto with keeps | apply same_keys_new_index ]. Qed.
Lemma same_keys_store {D} (generic : wallet_record D -> generic_record) r : (forall i d a, place_of (generic (mk_wallet_record i d)) <> at_key a) ->
  keeps same_keys (store_and_reload generic r).
Proof.
  intros Hg. unfold store_and_reload. apply keeps_bind; [ destruct (_ =? _); [ apply same_keys_new_index | auto with keeps ] | ].
  intros i. apply keeps_bind; [ by apply same_keys_generic | auto with keeps ].
Qed.
Lemma same_keys_remove i : keeps same_keys (remove_item i).
Proof. unfold remove_item. apply keeps_catch; [ apply same_keys_on_records | intros []; auto with keeps ]. Qed.
Lemma same_keys_require : keeps same_keys require_open.
Proof. apply keeps_read. Qed.
#[local] Hint Resolve same_keys_new_index same_keys_set_property same_keys_remove same_keys_require : keeps.
#[local] Hint Extern 1 (keeps _ (store_and_reload _ _)) => by apply same_keys_store : keeps.
#[local] Hint Extern 1 (keeps _ (nwrite _)) => apply keeps_write; intros; repeat case_match; done : keeps.

Lemma same_keys_remove_account a : keeps same_keys (remove_account a).
Proof. unfold remove_account. apply keeps_bind; [ auto with keeps | ]. intros [r|]; auto 10 with keeps. Qed.
Lemma same_keys_store_contact c : keeps same_keys (store_contact c).
Proof. unfold store_contact. auto 12 with keeps. Qed.
Lemma same_keys_remove_contact data : keeps same_keys (remove_contact data).
Proof. unfold remove_contact. apply keeps_bind; [ auto with keeps | ]. intros [r|]; auto 10 with keeps. Qed.
#[local] Hint Resolve same_keys_remove_contact : keeps.
Lemma same_keys_remove_contact_label label : keeps same_keys (remove_contact_label label).
Proof. unfold remove_contact_label. apply keeps_bind; [ auto with keeps | ]. intros [r|]; auto 10 with keeps. Qed.
Lemma same_keys_store_packet p : keeps same_keys (store_packet p).
Proof. unfold store_packet. auto 10 with keeps. Qed.
Lemma same_keys_store_approval a : keeps same_keys (store_approval a).
Proof. unfold store_approval. auto 10 with keeps. Qed.
Lemma same_keys_remove_approval name : keeps same_keys (remove_approval name).
Proof. unfold remove_approval. apply keeps_bind; [ auto with keeps | ]. intros [r|]; auto 10 with keeps. Qed.
Lemma same_keys_store_transaction t : keeps same_keys (store_transaction t).
Proof. unfold store_transaction. auto 12 with keeps. Qed.
Lemma same_keys_remove_transaction id : keeps same_keys (remove_transaction id).
Proof. unfold remove_transaction. apply keeps_bind; [ auto with keeps | ]. intros [r|]; auto 10 with keeps. Qed.
Lemma same_keys_store_setting name value : keeps same_keys (store_setting name value).
Proof. unfold store_setting. apply keeps_bind; [ auto with keeps | ]. intros [r|]; auto 12 with keeps. Qed.
Lemma same_keys_rename key name : keeps same_keys (rename_account key name).
Proof. unfold rename_account. apply keeps_bind; [ auto with keeps | ]. intros [r|]; auto 12 with keeps. Qed.
Lemma same_keys_set_master k password : keeps same_keys (set_master_key k password).
Proof. unfold set_master_key. auto 12 with keeps. Qed.
Lemma same_keys_account r : keeps same_keys (store_and_reload account_wallet_record r).
Proof. auto with keeps. Qed.
Lemma same_keys_last_index i : keeps same_keys (set_last_wallet_child_key_index i).
Proof. unfold set_last_wallet_child_key_index. auto with keeps. Qed.
End same_keys.

(** ** Operations on keys *)

Section safe.
Context (A : address -> Prop) (password : secret512).
#[local] Abbreviation safe := (keys_safe A password).

Lemma safe_require : keeps safe require_open.
Proof. apply keeps_read. Qed.
#[local] Hint Resolve safe_require : keeps.

Lemma safe_store_account_key owner k : keeps safe (store_account_key owner k).
Proof.
  intros w w' res H S. unfold store_account_key in H. read_step H found E. apply lookup_key_spec in E as ->; [ | apply S ].
  destruct (w_keys w !! key_address k) as [r|] eqn:Ek.
  - destruct (has_private_key (record_data r)) eqn:Hp; cbn [andb] in H; [ | by apply pair_equal_spec in H as [<- _] ].
    destruct (negb _); [ | by apply pair_equal_spec in H as [<- _] ].
    eapply store_key_safe; [ done | | exact H ]. apply key_ok_sealed; [ | done ]. apply sealed_account. by apply (ks_sealed _ _ _ S _ _ Ek).
  - eapply store_key_safe; [ done | | exact H ]. split; [ done | ]. intros _ HA. cbn in HA. apply (ks_known _ _ _ S) in HA.
    unfold kd_address, wallet_has_private_key in HA. cbn in HA. by rewrite Ek in HA.
Qed.

Lemma safe_store_account account : keeps safe (store_account account).
Proof.
  intros w w' res H S. unfold store_account in H. read_step H u E1. read_step H u2 E2. read_step H u3 E3. read_step H found E4.
  pose proof (assignable_account w found account (ks_mirrored _ _ _ S) (lookup_found _ _ _ _ (ks_mirrored _ _ _ S) E4)) as Ha.
  assert (S1 : forall w1 r, store_and_reload account_wallet_record (assign found account) w = (w1, r) -> safe w1).
  { intros w1 r E. pose proof (store_assigned _ _ _ _ _ _ (ks_mirrored _ _ _ S) Ha E) as M1. revert S. apply keys_safe_same; [ | done ].
    by apply (same_keys_account (w_keys w) (assign found account) w w1 r). }
  bind_step H w1 r E5; [ | by eapply S1 ]. apply S1 in E5. revert H E5. apply keeps_bind; [ | auto with keeps ].
  apply keeps_fold. intros k _. apply safe_store_account_key.
Qed.
#[local] Hint Resolve safe_store_account : keeps.

Lemma safe_store_blockchain_account r : keeps safe (store_blockchain_account r).
Proof. unfold store_blockchain_account. auto 10 with keeps. Qed.

(** A key that was just encrypted can be stored. *)
Lemma safe_store_encrypted k d d' : encrypt_private_key password k d = Ok d' -> forall d'', kd_public_key d'' = kd_public_key d' ->
  kd_encrypted_private_key d'' = kd_encrypted_private_key d' -> keeps safe (store_key d'').
Proof.
  intros E d'' E1 E2. destruct (encrypt_sealed _ _ _ _ E) as ((k' & Hr & Hd & Ha) & Hp & _). apply keeps_safe_store_key, key_ok_sealed.
  - exists k'. split; [ done | ]. unfold kd_address, decrypt_private_key in *. by rewrite E1, E2.
  - unfold has_private_key in *. by rewrite E2.
Qed.

Lemma safe_import_key name key move : keeps safe (import_key password name key move).
Proof.
  intros w w' res H S. unfold import_key in H. read_step H account E1. destruct account as [a|]; [ | by apply pair_equal_spec in H as [<- _] ].
  read_step H found E2. read_step H u E3. read_step H k E4. revert H S. by apply (safe_store_encrypted _ _ _ E4).
Qed.

Lemma safe_last_index i : keeps safe (set_last_wallet_child_key_index i).
Proof. apply keeps_safe; [ apply keeps_set_last_index | intros K; apply same_keys_last_index ]. Qed.
#[local] Hint Resolve safe_last_index : keeps.

Lemma safe_store_new_account now name owner active i : keeps safe (store_new_account password now name owner active i).
Proof.
  intros w w' res H S. unfold store_new_account in H. read_step H d1 E1. read_step H d2 E2. read_step H account E3. revert H S.
  apply keeps_bind; [ by apply (safe_store_encrypted _ _ _ E1) | intros _ ]. apply keeps_bind; [ destruct i; auto with keeps | intros _ ].
  apply keeps_bind; [ by apply (safe_store_encrypted _ _ _ E2) | intros _ ]. auto with keeps.
Qed.
#[local] Hint Resolve safe_store_new_account : keeps.

Lemma safe_generate_new_account now name : keeps safe (generate_new_account password now name).
Proof.
  unfold generate_new_account. apply keeps_bind; [ auto with keeps | intros _ ]. apply keeps_bind; [ auto with keeps | ].
  intros [? [? ?]]. auto with keeps.
Qed.
Lemma safe_generate_account_with_key now name owner : keeps safe (generate_account_with_key password now name owner).
Proof. unfold generate_account_with_key. apply keeps_bind; [ auto with keeps | intros active; auto with keeps ]. Qed.

Lemma safe_generate_child name t : keeps safe (generate_new_account_child_key password name t).
Proof.
  intros w w' res H S. unfold generate_new_account_child_key in H. read_step H found E1. destruct found as [r|]; [ | by apply pair_equal_spec in H as [<- _] ].
  read_step H new_key E2. destruct new_key as [[i child] k].
  assert (Hk : exists d, encrypt_private_key password child d = Ok k).
  { do 6 apply bind_Ok in E2 as (? & _ & E2). apply bind_Ok in E2 as ([j c] & _ & E2). apply bind_Ok in E2 as (k' & Hk & E2). simplify_eq. eauto. }
  destruct Hk as [d Hk]. clear E2.
  revert H S. apply keeps_bind; [ auto with keeps | intros _ ]. apply keeps_bind; [ by apply (safe_store_encrypted _ _ _ Hk) | auto with keeps ].
Qed.

Lemma safe_one_time random : keeps safe (generate_new_one_time_key password random).
Proof.
  intros w w' res H S. unfold generate_new_one_time_key in H. read_step H found E1. read_step H u E2. read_step H k E3. revert H S.
  apply keeps_bind; [ by apply (safe_store_encrypted _ _ _ E3) | auto with keeps ].
Qed.
Lemma safe_cache_memo memo account_key : keeps safe (cache_memo memo account_key password).
Proof. intros w w' res H S. unfold cache_memo in H. read_step H k E1. revert H S. by apply (safe_store_encrypted _ _ _ E1). Qed.
End safe.

(** ** The password *)

Lemma master_mirrored w m : mirrored w -> mirrored (stored (master_key_record (mk_wallet_record (-1) m)) w).
Proof.
  intros M. set (g := master_key_record _). pose proof (mi_next _ M) as Hn.
  assert (F : fits w g).
  { split; [ | | done ].
    - intros g' H. destruct (mi_disk _ M _ _ H) as (_ & _ & _ & _ & _ & I4). by apply I4.
    - intros g' H. destruct (mi_memory _ M _ _ H) as (E1 & E2). destruct (mi_disk _ M _ _ E2) as (_ & _ & _ & _ & _ & I4). by apply I4. }
  assert (Hp : next_number (stored g w) = next_number w) by done.
  apply stored_mirrored; try done; rewrite ?Hp.
  - split_and!; try done. simpl. lia.
  - lia.
  - apply (mi_value _ M).
Qed.

(** In the loop, the keys of [l] are sealed with the old password, the others
    with the new one. *)
Record between (A : address -> Prop) (m : option (wallet_record master_key)) old new (l : list address) w : Prop := {
  bt_mirrored : mirrored w;
  bt_master : w_master_key w = m;
  bt_old : forall a r, a ∈ l -> w_keys w !! a = Some r -> has_private_key (record_data r) = true -> sealed old (record_data r);
  bt_new : forall a r, a ∉ l -> w_keys w !! a = Some r -> has_private_key (record_data r) = true -> sealed new (record_data r);
  bt_known : forall a, A a -> wallet_has_private_key a w = true }.

Lemma change_key_run A m old new a l w r : new <> 0 -> a ∉ l -> between A m old new (a :: l) w -> w_keys w !! a = Some r ->
  exists w', change_key old new r w = (w', Ok tt) /\ between A m old new l w'.
Proof.
  intros Hnew Hal B Ha. unfold change_key. destruct (has_private_key (record_data r)) eqn:Hp.
  2: { exists w. split; [ done | ]. destruct B as [M Bm Bo Bn K]. split; [ done | done | set_solver | | done ].
    intros x r' Hx Hr Hp'. destruct (decide (x = a)) as [->|]; [ congruence | ]. apply (Bn x); [ set_solver | done | done ]. }
  destruct (bt_old _ _ _ _ _ _ B a r ltac:(set_solver) Ha Hp) as (k & Hk & Hd & Hka).
  destruct (encrypt_run new k (record_data r) Hnew Hk) as [d Henc].
  destruct (encrypt_sealed _ _ _ _ Henc) as (Hs & Hpd & Hpub & _ & _). pose proof (bt_mirrored _ _ _ _ _ _ B) as M.
  destruct (mi_cached _ M) as [(_ & _ & K3) _]. specialize (K3 _ _ Ha).
  assert (Hda : kd_address d = a) by (unfold kd_address; rewrite Hpub, Hka; done).
  unfold nbind at 1, nread. rewrite Hd. cbn [rbind]. rewrite Henc. cbn [rbind]. rewrite Hda, Ha.
  assert (Hdk : disk w !! wallet_record_index r = Some (key_record r)).
  { assert (Hm : memory w (at_key a) = Some (key_record r)) by (simpl; by rewrite Ha). by destruct (mi_memory _ M _ _ Hm). }
  destruct (kind_ordinary key_record w r _ M Hdk) as (_ & I0 & _).
  unfold nbind. rewrite (store_and_reload_run key_record _ _ (disk w)) by (simpl; first [ done | apply (mi_open _ M) ]).
  eexists. split; [ reflexivity | ]. set (r' := mk_wallet_record (wallet_record_index r) d).
  assert (Hkeys : w_keys (stored (key_record r') w) = <[a := r']> (w_keys w)) by (simpl; by rewrite Hda).
  destruct B as [_ Bm Bo Bn K]. split; [ | done | | | ].
  - apply (replace_mirrored key_record w r d M (fun _ => I) Hdk). simpl. by rewrite Hda, K3.
  - intros x rx Hx. rewrite Hkeys, lookup_insert_ne by set_solver. apply Bo. set_solver.
  - intros x rx Hx. rewrite Hkeys. destruct (decide (x = a)) as [->|Hne]; [ rewrite lookup_insert_eq; by intros [= <-] _ | ].
    rewrite lookup_insert_ne by done. apply Bn. set_solver.
  - intros x Hx. specialize (K x Hx). unfold wallet_has_private_key in *. rewrite Hkeys.
    destruct (decide (x = a)) as [->|Hne]; [ by rewrite lookup_insert_eq | by rewrite lookup_insert_ne ].
Qed.

Lemma change_keys_run A m old new l w : new <> 0 -> NoDup l -> between A m old new l w ->
  exists w', nfold (fun a _ =>
      found <~ nread (fun w => Ok (w_keys w !! a)) ;;
      match found with Some r => change_key old new r | None => nret tt end) l tt w = (w', Ok tt)
    /\ between A m old new [] w'.
Proof.
  intros Hnew Hl. revert w. induction Hl as [|a l Ha _ IH]; intros w B; [ by exists w | ]. cbn [nfold].
  unfold nbind at 1. unfold nbind at 1, nread at 1. destruct (w_keys w !! a) as [r|] eqn:Hr.
  - destruct (change_key_run A m old new a l w r Hnew Ha B Hr) as (w1 & E & B1). rewrite E. by apply IH.
  - apply IH. destruct B as [M Bm Bo Bn K]. split; [ done | done | set_solver | | done ].
    intros x rx Hx Hrx. apply (Bn x); [ | done ]. intros [->|Hin]%elem_of_cons; [ congruence | done ].
Qed.

(** A change of the password changes nothing, or seals every key with the new
    password. *)
Lemma change_password_run A old new w w' res : keys_safe A old w -> change_password old new w = (w', res) ->
  match res with Ok _ => keys_safe A new w' /\ validate_password new w' = Ok true | Throw _ => w' = w end.
Proof.
  intros S H. unfold change_password in H. apply nread_inv in H as [(master & E1 & H)|(e & _ & -> & ->)]; [ | done ].
  assert (Hset : (exists m, set_master_key master new w = (stored (master_key_record (mk_wallet_record (-1) m)) w, Ok tt)
      /\ new <> 0 /\ check_password new m = true) \/ (exists e, set_master_key master new w = (w, Throw e))).
  { unfold set_master_key, nbind at 1, nread. destruct (encrypt_key new master) as [m|e] eqn:Em; [ left | right; eauto ]. exists m. split.
    - unfold nbind, store_and_reload, nbind at 1, nret at 1. cbn -[store_and_reload_generic stored].
      unfold nbind. by rewrite (store_generic_spec w (master_key_record (mk_wallet_record (-1) m)) (ks_mirrored _ _ _ S)).
    - unfold encrypt_key in Em. apply bind_Ok in Em as (u & Hp & Em). apply fc_assert_Ok, negb_true_iff, Z.eqb_neq in Hp.
      apply bind_Ok in Em as (k' & _ & Em). apply bind_Ok in Em as (u2 & _ & Em). injection Em as <-. split; [ done | apply Z.eqb_refl ]. }
  unfold nbind at 1 in H. destruct Hset as [(m & E & Hnew & Hcheck)|(e & E)]; rewrite E in H; [ | by simplify_eq ].
  set (w1 := stored _ w) in H. cbn beta iota in H.
  assert (B : between A (w_master_key w1) old new (map fst (map_to_list (w_keys w1))) w1).
  { destruct S as [M S K]. split; [ by apply master_mirrored | done | by intros a r _; apply S | | done ].
    intros a r Ha Hr. destruct Ha. apply list_elem_of_fmap. exists (a, r). by rewrite elem_of_map_to_list. }
  destruct (change_keys_run A _ old new (map fst (map_to_list (w_keys w1))) w1 Hnew (NoDup_fst_map_to_list _) B) as (w2 & E2 & B2).
  rewrite E2 in H. apply pair_equal_spec in H as [<- <-]. destruct B2 as [M2 Bm _ Bn K2]. split.
  - split; [ done | | done ]. intros a r. apply Bn. set_solver.
  - unfold validate_password. rewrite Bm. cbn. by rewrite Hcheck.
Qed.

(** ** Runs *)

Inductive wallet_op :=
  | wo_store_account (account : account_data) | wo_store_blockchain_account (r : account_record) | wo_remove_account (a : address)
  | wo_import_key (name : string) (key : private_key) (move_existing : bool) | wo_new_account (now : time) (name : string)
  | wo_account_with_key (now : time) (name : string) (owner : private_key) | wo_child_key (name : string) (t : account_key_type)
  | wo_one_time_key (random : private_key) | wo_cache_memo (memo : memo_status) (account_key : private_key)
  | wo_store_contact (contact : contact_data) | wo_remove_contact (data : string) | wo_remove_contact_label (label : string)
  | wo_store_packet (packet : packet_info) | wo_store_approval (approval : approval_data) | wo_remove_approval (name : string)
  | wo_store_transaction (t : transaction_info) | wo_remove_transaction (id : transaction_id) | wo_store_setting (name value : string)
  | wo_rename_account (old_key : public_key) (name : string) | wo_set_property (id : property_enum) (v : variant).

Definition ignore {R} (m : wallet_m R) : wallet_m unit := _ <~ m ;; nret tt.
Definition run_op password (op : wallet_op) : wallet_m unit :=
  match op with
  | wo_store_account account => ignore (store_account account)
  | wo_store_blockchain_account r => ignore (store_blockchain_account r)
  | wo_remove_account a => ignore (remove_account a)
  | wo_import_key name key move_existing => import_key password name key move_existing
  | wo_new_account now name => ignore (generate_new_account password now name)
  | wo_account_with_key now name owner => ignore (generate_account_with_key password now name owner)
  | wo_child_key name t => ignore (generate_new_account_child_key password name t)
  | wo_one_time_key random => ignore (generate_new_one_time_key password random)
  | wo_cache_memo memo account_key => cache_memo memo account_key password
  | wo_store_contact contact => ignore (store_contact contact)
  | wo_remove_contact data => ignore (remove_contact data)
  | wo_remove_contact_label label => ignore (remove_contact_label label)
  | wo_store_packet packet => ignore (store_packet packet)
  | wo_store_approval approval => ignore (store_approval approval)
  | wo_remove_approval name => ignore (remove_approval name)
  | wo_store_transaction t => store_transaction t
  | wo_remove_transaction id => remove_transaction id
  | wo_store_setting name value => store_setting name value
  | wo_rename_account old_key name => rename_account old_key name
  | wo_set_property id v => set_property id v
  end.

(** Transactions are stored under their ids; the number of the next record is
    not set from outside. *)
Definition op_ok (op : wallet_op) : Prop :=
  match op with
  | wo_store_transaction t => transaction_ok t
  | wo_set_property id _ => id <> next_record_number
  | _ => True
  end.

(** What happens to a wallet with its password: an operation, a key that is
    stored as the callers do it, the master key of a new wallet, another
    password, and a restart, in the same process or in a new one. *)
Inductive wallet_step : secret512 * wallet_db -> secret512 * wallet_db -> Prop :=
  | step_op password w w' op res : op_ok op -> run_op password op w = (w', res) -> wallet_step (password, w) (password, w')
  | step_store_key password w w' key res : key_ok (fun a => wallet_has_private_key a w = true) password key ->
      store_key key w = (w', res) -> wallet_step (password, w) (password, w')
  | step_master_key password w w' k new res : w_keys w = ∅ -> set_master_key k new w = (w', res) -> wallet_step (password, w) (new, w')
  | step_password old new w w' res : change_password old new w = (w', res) ->
      wallet_step (old, w) (match res with Ok _ => new | Throw _ => old end, w')
  | step_restart password w w0 w' res : w0 = wallet_db_empty \/ w0 = close w -> open (lm_files (w_records w)) w0 = (w', res) ->
      wallet_step (password, w) (password, w').

Definition new_wallet : wallet_db := fst (open None wallet_db_empty).

Lemma keeps_ignore P {R} (m : wallet_m R) : keeps P m -> keeps P (ignore m).
Proof. intros H. unfold ignore. auto with keeps. Qed.

Lemma safe_run_op A password op : op_ok op -> keeps (keys_safe A password) (run_op password op).
Proof.
  intros Hop. destruct op; cbn [run_op op_ok] in *; try apply keeps_ignore;
    first [ apply safe_store_account | apply safe_store_blockchain_account | apply safe_import_key | apply safe_generate_new_account
          | apply safe_generate_account_with_key | apply safe_generate_child | apply safe_one_time | apply safe_cache_memo
          | apply keeps_safe ];
    first [ apply keeps_remove_account | apply keeps_store_contact | apply keeps_remove_contact | apply keeps_remove_contact_label
          | apply keeps_store_packet | apply keeps_store_approval | apply keeps_remove_approval | by apply keeps_store_transaction
          | apply keeps_remove_transaction | apply keeps_store_setting | apply keeps_rename_account | by apply keeps_set_property | intros K ];
    first [ apply same_keys_remove_account | apply same_keys_store_contact | apply same_keys_remove_contact | apply same_keys_remove_contact_label
          | apply same_keys_store_packet | apply same_keys_store_approval | apply same_keys_remove_approval | apply same_keys_store_transaction
          | apply same_keys_remove_transaction | apply same_keys_store_setting | apply same_keys_rename | apply same_keys_set_property ].
Qed.

Lemma cached_empty w : w_keys w = ∅ -> w_btc_to_bts w = ∅ -> w_transactions w = ∅ -> w_id_to_transaction w = ∅ -> cached w.
Proof.
  intros E1 E2 E3 E4. unfold cached, keys_cached, transactions_cached. rewrite E1, E2, E3, E4. split_and!; intros *; rewrite lookup_empty; try done;
  by intros [].
Qed.

(** A wallet that is opened again has the same maps. *)
Lemma restart_run w w0 : mirrored w -> w0 = wallet_db_empty \/ w0 = close w ->
  exists w', open (lm_files (w_records w)) w0 = (w', Ok tt) /\ mirrored w' /\ same_maps w w'.
Proof.
  intros M Hw0. assert (Hf : lm_files (w_records w) = Some (disk w)) by (by rewrite (mi_open _ M)). rewrite Hf.
  destruct (open_mirrored w w0 M) as (w' & E & M' & _ & Hm).
  - by destruct Hw0 as [->| ->].
  - intros p g. destruct Hw0 as [->| ->]; destruct p; simpl; rewrite ?lookup_empty; done.
  - destruct Hw0 as [->| ->]; by apply cached_empty.
  - exists w'. split; [ done | ]. split; [ done | ]. by apply memory_maps.
Qed.

Lemma step_safe A password w password' w' : wallet_step (password, w) (password', w') -> keys_safe A password w -> keys_safe A password' w'.
Proof.
  intros H S. inversion H; subst; clear H.
  - by eapply safe_run_op.
  - eapply store_key_safe; [ done | | done ]. match goal with K : key_ok _ _ _ |- _ => destruct K as [K1 K2] end. split; [ done | ].
    intros Hp HA. apply (K2 Hp). by apply (ks_known _ _ _ S).
  - match goal with H : set_master_key _ _ _ = _, E : w_keys w = ∅ |- _ => rename H into Hs, E into Ek end.
    pose proof (same_keys_set_master (w_keys w) _ _ _ _ _ Hs eq_refl) as E'. cbn in E'. destruct S as [M _ K]. split.
    + unfold set_master_key in Hs. read_step Hs m Em. unfold store_and_reload, nbind, nret in Hs. cbn -[store_and_reload_generic] in Hs.
      rewrite (store_generic_spec w (master_key_record (mk_wallet_record (-1) m)) M) in Hs by done. apply pair_equal_spec in Hs as [<- _].
      by apply master_mirrored.
    + intros a r. rewrite E', Ek, lookup_empty. done.
    + intros a Ha. specialize (K a Ha). unfold wallet_has_private_key in K. by rewrite Ek, lookup_empty in K.
  - match goal with H : change_password _ _ _ = _ |- _ => pose proof (change_password_run A _ _ _ _ _ S H) as R end.
    destruct res; [ by destruct R | by subst ].
  - match goal with H : open _ ?x = _, D : ?x = _ \/ _ |- _ =>
      destruct (restart_run w x (ks_mirrored _ _ _ S) D) as (opened & E & M & _ & _ & _ & Ek & _);
      rewrite E in H; apply pair_equal_spec in H as [<- _] end.
    by apply (keys_safe_same _ _ w).
Qed.

Lemma steps_safe A s s' : rtc wallet_step s s' -> keys_safe A (fst s) (snd s) -> keys_safe A (fst s') (snd s').
Proof. induction 1 as [|[p1 w1] [p2 w2] s' H _ IH]; [ done | ]. intros S. apply IH. by apply (step_safe A p1 w1). Qed.

Lemma new_wallet_empty : new_wallet = with_records (Build_level_map (Some ∅) true) wallet_db_empty.
Proof. reflexivity. Qed.

Lemma safe_new_wallet password : keys_safe (fun _ => False) password new_wallet.
Proof.
  rewrite new_wallet_empty. split; [ split | | done ]; [ done | | | done | done | by apply cached_empty | | ].
  1, 3: intros i g H; change ((∅ : gmap Z generic_record) !! i = Some g) in H; by rewrite lookup_empty in H.
  - intros p g. destruct p; simpl; by rewrite ?lookup_empty.
  - intros a r H. change ((∅ : gmap address (wallet_record key_data)) !! a = Some r) in H. by rewrite lookup_empty in H.
Qed.
End keys.
