(* ===== verification/WalletProps.v ===== *)
(** Theorems on the wallet's database, with their witnesses: restarts, private
    keys, the search for new keys, and what closing a wallet leaves behind. *)

From stdpp Require Import relations.
From S2P Require Import Prelude StateMonad Asset Names Records Keys Building Storage StorageProps Concrete WalletDb WalletDbProps WalletSteps.
From S2P Require Import WalletKeys.

(** ** The search for a new key *)

Section search.
Context {A : Type} (try : Z -> result (option A)).

(** What is known when the loop has passed the indices up to [j]. *)
Definition passed (i j : Z) : Prop := forall k, i < k <= j -> try k = Ok None.
Definition search_end (i : Z) (r : result (Z * A)) : Prop :=
  match r with
  | Ok (j, a) => i < j < two32 /\ try j = Ok (Some a) /\ passed i (j - 1)
  | Throw e => (e = assert_exception /\ passed i (two32 - 1)) \/ exists j, i < j < two32 /\ try j = Throw e /\ passed i (j - 1)
  end.

Lemma next_index_run i : 0 <= i < two32 ->
  match next_index try i with inl j => j = i + 1 /\ j < two32 /\ try j = Ok None | inr r => search_end i r end.
Proof.
  intros Hi. unfold next_index. destruct (decide (i = two32 - 1)) as [->|Hne].
  - replace (uwrap32 (two32 - 1 + 1)) with 0 by done. cbn. left. split; [ done | ]. intros k Hk. lia.
  - replace (uwrap32 (i + 1)) with (i + 1) by (unfold uwrap32; rewrite Z.mod_small; lia). rewrite (proj2 (Z.eqb_neq _ _)) by lia.
    assert (Hp : passed i (i + 1 - 1)) by (intros k Hk; lia).
    destruct (try (i + 1)) as [[a|]|e] eqn:E; [ | split_and!; [ done | lia | done ] | ]; cbn.
    + split_and!; [ lia | lia | done | done ].
    + right. exists (i + 1). split_and!; [ lia | lia | done | done ].
Qed.

Lemma search_end_later i j r : i <= j -> passed i j -> search_end j r -> search_end i r.
Proof.
  intros Hij Hp. destruct r as [[k a]|e]; cbn.
  - intros (H1 & H2 & H3). split_and!; [ lia.. | done | ]. intros x Hx. destruct (decide (x <= j)); [ apply Hp | apply H3 ]; lia.
  - intros [[-> H]|(k & H1 & H2 & H3)]; [ left; split; [ done | ] | right; exists k; split_and!; [ lia.. | done | ] ];
      intros x Hx; (destruct (decide (x <= j)); [ apply Hp | first [ apply H | apply H3 ] ]; lia).
Qed.

Lemma until_run p : forall i, 0 <= i < two32 ->
  match until p (next_index try) i with inl j => j = i + Zpos p /\ j < two32 /\ passed i j | inr r => search_end i r end.
Proof.
  assert (Hone : forall i, 0 <= i < two32 -> match next_index try i with
    | inl j => j = i + 1 /\ j < two32 /\ passed i j | inr r => search_end i r end).
  { intros i Hi. pose proof (next_index_run i Hi) as H. destruct (next_index try i) as [j|r]; [ | done ].
    destruct H as (-> & Hj & Ht). split_and!; [ done | done | ]. intros k Hk. by replace k with (i + 1) by lia. }
  assert (Hboth : forall (f g : Z -> Z + result (Z * A)) (m n : Z), 0 < m -> 0 < n ->
    (forall i, 0 <= i < two32 -> match f i with inl j => j = i + m /\ j < two32 /\ passed i j | inr r => search_end i r end) ->
    (forall i, 0 <= i < two32 -> match g i with inl j => j = i + n /\ j < two32 /\ passed i j | inr r => search_end i r end) ->
    forall i, 0 <= i < two32 -> match (match f i with inl a => g a | inr b => inr b end) with
      | inl j => j = i + (m + n) /\ j < two32 /\ passed i j | inr r => search_end i r end).
  { intros f g m n Hm Hn Hf Hg i Hi. specialize (Hf i Hi). destruct (f i) as [j|r]; [ | done ]. destruct Hf as (-> & Hj & Hp).
    specialize (Hg (i + m) ltac:(lia)). destruct (g (i + m)) as [k|r].
    - destruct Hg as (-> & Hk & Hp'). split_and!; [ lia | done | ]. intros x Hx. destruct (decide (x <= i + m)); [ apply Hp | apply Hp' ]; lia.
    - apply (search_end_later _ (i + m)); [ lia | done | done ]. }
  induction p as [p IH|p IH|]; intros i Hi; cbn [until].
  - rewrite Pos2Z.inj_xI. replace (2 * Z.pos p + 1) with (1 + (Z.pos p + Z.pos p)) by lia.
    apply (Hboth (next_index try) (fun a => match until p (next_index try) a with inl a => until p (next_index try) a | inr b => inr b end));
      [ lia | lia | done | | done ]. apply Hboth; [ lia | lia | done | done ].
  - rewrite Pos2Z.inj_xO. replace (2 * Z.pos p) with (Z.pos p + Z.pos p) by lia. apply Hboth; [ lia | lia | done | done | done ].
  - by apply Hone.
Qed.

(** The loops that search a free key end: they count a [uint32_t] index up
    from the last one, take the first index whose keys are free, pass an error
    of a key on, and throw when the indices are used up. *)
Theorem search_index_first i : 0 <= i < two32 -> search_end i (search_index try i).
Proof.
  intros Hi. unfold search_index. pose proof (until_run (2 ^ 32) i Hi) as H. destruct (until _ _ _) as [j|r]; [ | done ].
  destruct H as (-> & Hj & _). unfold two32 in *. lia.
Qed.
End search.

Definition free_from_seven (k : Z) : result (option Z) := Ok (if k <? 7 then None else Some (2 * k)).

Lemma search_index_first_witness :
  search_end free_from_seven 3 (search_index free_from_seven 3) /\ search_index free_from_seven 3 = Ok (7, 14).
Proof. split; [ apply (search_index_first free_from_seven 3); unfold two32; lia | vm_compute; reflexivity ]. Defined.

Section wallets.
Context `{Cr : Crypto} `{Kc : KeyCrypto} `{Kl : !KeyLaws} `{Tx : TxCrypto} `{Wh : WalletHash} `{Pd : !PtsDisjoint}.
Implicit Types (w : wallet_db) (password : secret512).

(** ** Restarts *)

Lemma steps_mirrored password s : rtc wallet_step (password, new_wallet) s -> mirrored (snd s).
Proof. intros H. eapply ks_mirrored, (steps_safe _ _ _ H). apply safe_new_wallet. Qed.

(** What is asked of a wallet by address of a key or id of a transaction. *)
Lemma lookups_same w w' : mirrored w -> mirrored w' -> same_maps w w' ->
  (forall k, lookup_key (key_address k) w' = lookup_key (key_address k) w)
  /\ (forall id, lookup_transaction id w' = lookup_transaction id w).
Proof.
  intros M M' (_ & E1 & _ & E2 & _ & _ & E3 & _).
  assert (Ho : is_open w' = is_open w) by (unfold is_open; by rewrite (mi_open _ M), (mi_open _ M'), E1).
  split; [ intros k; destruct (lookup_key (key_address k) w') as [f'|e'] eqn:F', (lookup_key (key_address k) w) as [f|e] eqn:F
         | intros id; destruct (lookup_transaction id w') as [f'|e'] eqn:F', (lookup_transaction id w) as [f|e] eqn:F ].
  - apply lookup_key_spec in F', F; [ | done.. ]. congruence.
  - unfold lookup_key in *. rewrite Ho in F'. by destruct (is_open w).
  - unfold lookup_key in *. rewrite Ho in F'. by destruct (is_open w).
  - unfold lookup_key in *. rewrite Ho in F'. destruct (is_open w); simplify_eq/=. done.
  - apply lookup_transaction_spec in F', F; [ | done.. ]. congruence.
  - unfold lookup_transaction in *. rewrite Ho in F'. by destruct (is_open w).
  - unfold lookup_transaction in *. rewrite Ho in F'. by destruct (is_open w).
  - unfold lookup_transaction in *. rewrite Ho in F'. destruct (is_open w); simplify_eq/=. done.
Qed.

(** C26: After any operations, with any errors among them, opening the records
    on disk again gives the wallet as it was: the same accounts, keys,
    contacts, approvals, transactions, packets, settings, properties and master
    key, found under the same addresses of keys and ids of transactions; in the
    same process, after [close], and in a new one. *)
Theorem wallet_restart password s w0 :
  rtc wallet_step (password, new_wallet) s -> w0 = wallet_db_empty \/ w0 = close (snd s) ->
  exists w', open (lm_files (w_records (snd s))) w0 = (w', Ok tt) /\ same_maps (snd s) w'
    /\ (forall k, lookup_key (key_address k) w' = lookup_key (key_address k) (snd s))
    /\ (forall id, lookup_transaction id w' = lookup_transaction id (snd s)).
Proof.
  intros H Hw0. pose proof (steps_mirrored _ _ H) as M. destruct (restart_run _ _ M Hw0) as (w' & E & M' & Hs).
  exists w'. split; [ done | ]. split; [ done | ]. by apply lookups_same.
Qed.

(** ** Private keys *)

(** A step of a wallet, or any key that is stored, also one without private key
    over one that has it. A private key that is stored is encrypted under the
    password, as all callers do it. *)
Inductive key_step : secret512 * wallet_db -> secret512 * wallet_db -> Prop :=
  | step_wallet s s' : wallet_step s s' -> key_step s s'
  | step_any_key password w w' key res : (has_private_key key = true -> sealed password key) -> store_key key w = (w', res) ->
      key_step (password, w) (password, w').

(** A key without private key is stored over one that has it. *)
Definition overwritten (a : address) (s1 s2 : secret512 * wallet_db) : Prop :=
  wallet_has_private_key a (snd s1) = true /\ wallet_has_private_key a (snd s2) = false
  /\ exists key res, has_private_key key = false /\ kd_address key = a /\ store_key key (snd s1) = (snd s2, res).

Lemma key_step_sealed s s' : key_step s s' -> keys_safe (fun _ => False) (fst s) (snd s) -> keys_safe (fun _ => False) (fst s') (snd s').
Proof.
  intros [[p w] [p' w'] H|p w w' key res Hk H] S; [ by apply (step_safe _ p w) | ].
  apply (store_key_safe _ p key w w' res); [ done | split; [ done | by intros _ ? ] | done ].
Qed.

Lemma key_step_loses s s' a : key_step s s' -> keys_safe (fun _ => False) (fst s) (snd s) -> wallet_has_private_key a (snd s) = true ->
  wallet_has_private_key a (snd s') = false -> overwritten a s s'.
Proof.
  intros H [M S _] Ha Hl. assert (Sa : keys_safe (fun x => x = a) (fst s) (snd s)) by (split; [ done | done | by intros x -> ]).
  assert (Hno : ~ keys_safe (fun x => x = a) (fst s') (snd s')) by (intros [_ _ K]; specialize (K a eq_refl); congruence).
  destruct H as [[p w] [p' w'] H|p w w' key res Hk H]; [ destruct Hno; by apply (step_safe _ p w) | ]. cbn [fst snd] in *.
  split; [ done | ]. split; [ done | ]. exists key, res.
  assert (D : has_private_key key = false /\ kd_address key = a); [ | by destruct D ].
  destruct (has_private_key key) eqn:Hp.
  - destruct Hno. apply (store_key_safe _ p key w w' res); [ done | | done ]. split; [ intros _; by apply Hk | congruence ].
  - split; [ done | ]. destruct (decide (kd_address key = a)) as [E|E]; [ done | ]. destruct Hno.
    apply (store_key_safe _ p key w w' res); [ done | | done ]. split; [ congruence | by intros _ ].
Qed.

(** The private key of [a] is in memory and on disk, and the password decrypts it. *)
Definition holds_private_key (a : address) (s : secret512 * wallet_db) : Prop :=
  exists r k, w_keys (snd s) !! a = Some r /\ disk (snd s) !! wallet_record_index r = Some (key_record r)
    /\ decrypt_private_key (fst s) (record_data r) = Ok k /\ key_address (get_public_key k) = a.

Lemma held_private_key s a : keys_safe (fun _ => False) (fst s) (snd s) -> wallet_has_private_key a (snd s) = true -> holds_private_key a s.
Proof.
  intros [M S _] Ha. unfold wallet_has_private_key in Ha. destruct (w_keys (snd s) !! a) as [r|] eqn:Hr; [ | done ]. cbn in Ha.
  destruct (S _ _ Hr Ha) as (k & _ & Hd & Hk). destruct (mi_cached _ M) as [(_ & _ & K3) _].
  exists r, k. split; [ done | ]. split; [ | split; [ done | by rewrite Hk, (K3 _ _ Hr) ] ].
  assert (Hm : memory (snd s) (at_key a) = Some (key_record r)) by (simpl; by rewrite Hr). by destruct (mi_memory _ M _ _ Hm).
Qed.

(** C25: A private key is lost only by storing over it a key without private
    key: a created wallet that had a private key of an address has one after any
    operations, errors, restarts, changes of the password, whether they succeed
    or not, and keys that are stored, in memory and on disk, and the password of
    the moment decrypts it; or a key record of that address without private key
    was stored in between, at a moment when the wallet had the private key. *)
Theorem private_keys_kept password s s' a : rtc key_step (password, new_wallet) s -> rtc key_step s s' ->
  wallet_has_private_key a (snd s) = true ->
  holds_private_key a s' \/ exists s1 s2, rtc key_step s s1 /\ overwritten a s1 s2 /\ rtc key_step s2 s'.
Proof.
  intros H H' Ha. assert (S : keys_safe (fun _ => False) (fst s) (snd s)).
  { pose proof (safe_new_wallet password) as S0. change new_wallet with (snd (password, new_wallet)) in S0 at 1.
    change password with (fst (password, new_wallet)) in S0 at 1. revert S0. generalize (password, new_wallet) H.
    induction 1 as [|x y z Hxy _ IH]; [ done | ]. intros Sx. by apply IH, (key_step_sealed x y). }
  clear H. induction H' as [s|s1 s2 s3 H12 H23 IH]; [ left; by apply held_private_key | ].
  pose proof (key_step_sealed _ _ H12 S) as S2. destruct (wallet_has_private_key a (snd s2)) eqn:H2.
  - destruct (IH eq_refl S2) as [K|(x & y & Hx & Ho & Hy)]; [ by left | right ]. exists x, y. split; [ by eapply rtc_l | done ].
  - right. exists s1, s2. split; [ apply rtc_refl | ]. split; [ by apply key_step_loses | done ].
Qed.

(** ** What closing leaves behind *)

Lemma labels_load_all l w : (forall i g, (i, g) ∈ l -> match g with contact_record _ => False | _ => True end) ->
  w_labels (load_all l w) = w_labels w /\ w_contacts (load_all l w) = w_contacts w.
Proof.
  revert w. induction l as [|[i g] l IH]; intros w Hl; [ done | ]. cbn [load_all foldl snd]. unfold load_all in IH.
  destruct (IH (load_record g w)) as [-> ->]; [ intros j h Hj; apply (Hl j h); set_solver | ].
  pose proof (Hl i g ltac:(set_solver)) as Hg. destruct g; try done; simpl; unfold load_account_record, load_transaction_record; by case_match.
Qed.

(** Closing a wallet does not clear its contacts. When another wallet is
    opened in the same process, storing a contact of the first again writes it
    at the index it had there: a private key that the second wallet keeps at
    this index is gone from the disk. *)
Theorem stale_contact_overwrites_key w w2 c r kr : mirrored w -> mirrored w2 -> is_open w2 = true ->
  w_contacts w !! cd_data c = Some r -> w_labels w !! cd_label c = Some (cd_data c) -> cd_label c <> ""%string ->
  cd_label (record_data r) = cd_label c -> w_contacts w2 = ∅ -> disk w2 !! wallet_record_index r = Some (key_record kr) ->
  exists w3 w4, open (lm_files (w_records w2)) (close w) = (w3, Ok tt) /\ w_keys w3 !! kd_address (record_data kr) = Some kr
    /\ store_contact c w3 = (w4, Ok (assign (Some r) c))
    /\ disk w4 = <[wallet_record_index r := contact_record (assign (Some r) c)]> (disk w2)
    /\ forall i, disk w4 !! i <> Some (key_record kr).
Proof.
  intros M M2 Ho Hc Hl Hlabel Hsame Hnone Hkr. set (l := items Z.le (disk w2)).
  assert (Hf : lm_files (w_records w2) = Some (disk w2)) by (by rewrite (mi_open _ M2)).
  set (w3 := load_all l (with_records (Build_level_map (Some (disk w2)) true) (close w))).
  assert (Hok : Forall (fun x => record_ok (snd x)) l).
  { apply Forall_forall. intros [i g] Hx. apply elem_of_items in Hx. by apply (mi_ok _ M2 i). }
  assert (Hrun : open (lm_files (w_records w2)) (close w) = (w3, Ok tt)).
  { rewrite Hf. unfold open, ncatch, open_records, nbind at 1, on_records, nread. cbn. unfold nbind. cbn. by rewrite load_records_run. }
  assert (Hinj : forall x y, x ∈ l -> y ∈ l -> place_of (snd x) = place_of (snd y) -> x = y).
  { intros [i g] [j h] Hx%elem_of_items Hy%elem_of_items E. cbn in E.
    destruct (mi_disk _ M2 _ _ Hx) as (E1 & H1 & _), (mi_disk _ M2 _ _ Hy) as (E2 & H2 & _). rewrite E, H2 in H1. congruence. }
  destruct (labels_load_all l (with_records (Build_level_map (Some (disk w2)) true) (close w))) as [Hlabels Hcontacts].
  { intros i g Hi%elem_of_items. destruct (mi_disk _ M2 _ _ Hi) as (_ & Hm & _). destruct g; try done. simpl in Hm. by rewrite Hnone, lookup_empty in Hm. }
  fold w3 in Hlabels, Hcontacts. cbn in Hlabels, Hcontacts.
  assert (Hmem : forall g i, disk w2 !! i = Some g -> memory w3 (place_of g) = Some g).
  { intros g i Hg. apply (memory_load_all _ _ _ _ Hok Hinj). left. exists i. split; [ by apply elem_of_items | done ]. }
  assert (Ho3 : is_open w3 = true).
  { unfold is_open in *. destruct (w_master_key w2) as [m|] eqn:Em; [ | by rewrite andb_false_r in Ho ].
    assert (Hm2 : memory w2 at_master = Some (master_key_record m)) by (simpl; by rewrite Em).
    destruct (mi_memory _ M2 _ _ Hm2) as (_ & Hd). apply Hmem in Hd. simpl in Hd. destruct (w_master_key w3); [ | done ].
    unfold w3. by rewrite records_load_all. }
  assert (Hi0 : wallet_record_index r <> 0).
  { destruct (mi_disk _ M2 _ _ Hkr) as (_ & _ & I0 & _). done. }
  assert (Hd3 : w_records w3 = Build_level_map (Some (disk w2)) true) by (unfold w3; by rewrite records_load_all).
  assert (Hd4 : disk (stored (contact_record (assign (Some r) c)) w3) = <[wallet_record_index r := contact_record (assign (Some r) c)]> (disk w2)).
  { rewrite disk_stored. unfold disk at 1. by rewrite Hd3. }
  exists w3, (stored (contact_record (assign (Some r) c)) w3). split; [ done | ]. split_and!.
  - specialize (Hmem _ _ Hkr). simpl in Hmem. by destruct (w_keys w3 !! _); simplify_eq/=.
  - unfold store_contact, require_open, nread, lookup_contact_label, lookup_contact, nbind, nwrite. rewrite Ho3. cbn -[stored store_and_reload].
    rewrite bool_decide_eq_false_2 by done. cbn -[stored store_and_reload]. rewrite Hlabels, Hl. cbn -[stored store_and_reload].
    rewrite Hcontacts, Hc. cbn -[stored store_and_reload assign].
    assert (Hdata : cd_data (record_data r) = cd_data c).
    { assert (Hm : memory w (at_contact (cd_data c)) = Some (contact_record r)) by (simpl; by rewrite Hc).
      destruct (mi_memory _ M _ _ Hm) as (E & _). simpl in E. congruence. }
    rewrite bool_decide_eq_true_2 by done. cbn -[stored store_and_reload assign]. rewrite bool_decide_eq_true_2 by done.
    by apply (store_and_reload_run contact_record w3 (assign (Some r) c) (disk w2)).
  - done.
  - intros i Hi. rewrite Hd4 in Hi. apply lookup_insert_Some in Hi as [[_ ?]|[Hne Hi]]; [ done | ].
    destruct (mi_disk _ M2 _ _ Hi) as (E1 & _), (mi_disk _ M2 _ _ Hkr) as (E2 & _). simpl in *. congruence.
Qed.

(** ** New accounts *)

(** Storing keys and properties leaves the accounts. *)
Section same_accounts.
Context (accounts : gmap Z (wallet_record account_data)) (names : gmap string Z) (m : option (wallet_record master_key)).
#[local] Abbreviation same := (fun w => w_accounts w = accounts /\ w_name_to_account w = names /\ w_master_key w = m).

Lemma same_accounts_generic g : match g with key_record _ | property_record _ => True | _ => False end -> keeps same (store_and_reload_generic g).
Proof.
  intros Hg. unfold store_and_reload_generic. apply keeps_bind; [ auto with keeps | intros _ ]. apply keeps_bind.
  - intros w w' res H E. unfold on_records in H. by destruct (lm_store _ _ _); simplify_eq.
  - intros _. apply keeps_write. intros w E. by destruct g.
Qed.
Lemma same_accounts_property id v n : keeps same n -> keeps same (store_property id v n).
Proof.
  intros Hn. unfold store_property. apply keeps_bind; [ auto with keeps | ]. intros [r|]; [ by apply same_accounts_generic | ].
  apply keeps_bind; [ done | ]. intros i. by apply same_accounts_generic.
Qed.
Lemma same_accounts_new_index : keeps same new_wallet_record_index.
Proof.
  unfold new_wallet_record_index. apply keeps_bind; [ auto with keeps | ]. intros n. destruct (n =? _); [ auto with keeps | ].
  apply keeps_bind; [ | auto with keeps ]. apply same_accounts_property. auto with keeps.
Qed.
Lemma same_accounts_store_key r : keeps same (store_and_reload key_record r).
Proof.
  unfold store_and_reload. apply keeps_bind; [ destruct (_ =? _); [ apply same_accounts_new_index | auto with keeps ] | ].
  intros i. apply keeps_bind; [ by apply same_accounts_generic | auto with keeps ].
Qed.
Lemma same_accounts_require : keeps same require_open.
Proof. apply keeps_read. Qed.
#[local] Hint Resolve same_accounts_store_key same_accounts_require : keeps.
Lemma same_accounts_key key : keeps same (store_key key).
Proof.
  unfold store_key. do 3 (apply keeps_bind; [ auto with keeps | intros ? ]). apply keeps_bind; [ auto with keeps | intros r ].
  destruct (has_private_key key); [ | auto with keeps ]. apply keeps_bind; [ auto with keeps | intros by_key ].
  apply keeps_bind; [ destruct by_key; auto with keeps | intros [account|]; [ | auto with keeps ] ].
  destruct (negb _); [ | auto with keeps ]. apply keeps_bind; auto with keeps.
Qed.
Lemma same_accounts_account_key owner k : keeps same (store_account_key owner k).
Proof. unfold store_account_key. apply keeps_bind; [ auto with keeps | ]. intros [r|]; [ destruct (_ && _) | ]; auto using same_accounts_key with keeps. Qed.
End same_accounts.

(** A key that was stored is known from then on. *)
Lemma store_key_known A password key w w' : keys_safe A password w -> sealed password key -> has_private_key key = true ->
  store_key key w = (w', Ok tt) -> keys_safe (fun a => A a \/ a = kd_address key) password w'.
Proof.
  intros S Hk Hp H. pose proof (store_key_safe A password key w w' _ S (key_ok_sealed _ _ _ Hk Hp) H) as [M' S' K'].
  split; [ done | done | ]. intros a [Ha| ->]; [ by apply K' | ].
  destruct (store_key_run _ _ _ _ (ks_mirrored _ _ _ S) H) as (_ & [[_ [e He]]|(x & r & _ & Hd & Hs & _)]); [ done | ].
  specialize (Hs (at_key (kd_address key)) ltac:(done)). cbn [place_of] in Hs. rewrite Hd in Hs. rewrite bool_decide_eq_true_2 in Hs by done.
  unfold wallet_has_private_key. simpl in Hs. destruct (w_keys w' !! kd_address key) as [r'|]; [ | done ]. cbn. by simplify_eq/=; rewrite Hd.
Qed.

Lemma store_account_found account w w' r : mirrored w -> store_account account w = (w', Ok r) ->
  record_data r = account /\ lookup_account_name (ac_name (ad_account account)) w' = Ok (Some r).
Proof.
  intros M H. pose proof (keeps_store_account account w w' _ H M) as M'.
  unfold store_account in H. apply nread_inv in H as [(u & E1 & H)|(? & _ & _ & [=])]. apply nread_inv in H as [(u2 & E2 & H)|(? & _ & _ & [=])].
  apply nread_inv in H as [(u3 & E3 & H)|(? & _ & _ & [=])]. apply nread_inv in H as [(found & E4 & H)|(? & _ & _ & [=])].
  pose proof (assignable_account w found account M (lookup_found _ _ _ _ M E4)) as A.
  apply nbind_inv in H as [(w1 & r1 & E5 & H)|(? & _ & [=])]. destruct (store_and_reload_spec _ _ _ _ _ _ M A E5) as [M1 (Hd & _ & Hs)].
  apply nbind_inv in H as [(w2 & u4 & E6 & H)|(? & _ & [=])]. apply pair_equal_spec in H as [<- H]. injection H as ->. split; [ done | ].
  assert (Hfirst : w_accounts w1 !! wallet_record_index r = Some r /\ w_name_to_account w1 !! ac_name (ad_account account) = Some (wallet_record_index r)
    /\ exists mm, w_master_key w1 = Some mm).
  { unfold store_and_reload in E5. apply nbind_inv in E5 as [(w0 & i & E0 & E5)|(? & _ & [=])].
    apply nbind_inv in E5 as [(w3 & u5 & E7 & E5)|(? & _ & [=])]. apply pair_equal_spec in E5 as [<- E5]. apply Ok_inj in E5. subst r.
    assert (Hm0 : exists mm, w_master_key w0 = Some mm).
    { apply fc_assert_Ok in E1. unfold is_open in E1. destruct (w_master_key w) as [mm|] eqn:Em; [ | by rewrite andb_false_r in E1 ]. exists mm.
      destruct (wallet_record_index (assign found account) =? 0); [ | by apply pair_equal_spec in E0 as [<- _] ].
      by destruct (same_accounts_new_index (w_accounts w) (w_name_to_account w) (Some mm) _ _ _ E0 ltac:(done)) as (_ & _ & ?). }
    unfold store_and_reload_generic in E7. apply nread_inv in E7 as [(u6 & _ & E7)|(? & _ & _ & [=])].
    apply nbind_inv in E7 as [(w4 & u7 & E8 & E7)|(? & _ & [=])]. unfold on_records in E8. destruct (lm_store _ _ _); [ | done ].
    apply pair_equal_spec in E8 as [<- _]. apply pair_equal_spec in E7 as [<- _]. simpl. unfold load_account_record. cbn.
    destruct (negb (ac_id (ad_account account) =? 0)); (split_and!; [ apply lookup_insert_eq | apply lookup_insert_eq | exact Hm0 ]). }
  destruct Hfirst as (Ha & Hn & mm & Hmm).
  assert (Hkeep : w_accounts w2 = w_accounts w1 /\ w_name_to_account w2 = w_name_to_account w1 /\ w_master_key w2 = Some mm).
  { revert E6. generalize (merge_sort Z.le (elements (stored_public_keys (ad_account account)))). intros keys E6.
    eapply (keeps_fold (fun w => w_accounts w = w_accounts w1 /\ w_name_to_account w = w_name_to_account w1 /\ w_master_key w = Some mm)
      (fun k _ => store_account_key (owner_address (ad_account account)) k) keys tt); [ | exact E6 | done ].
    intros k _. apply same_accounts_account_key. }
  destruct Hkeep as (Ea & En & Em). unfold lookup_account_name, lookup_index, is_open. rewrite (mi_open _ M'), Em. cbn.
  rewrite En, Hn. cbn. by rewrite Ea, Ha.
Qed.

Lemma key_free_spec a w b : mirrored w -> (exists k, a = key_address k) -> key_is_free a w = Ok b -> b = true -> wallet_has_private_key a w = false.
Proof.
  intros M [k ->] H ->. unfold key_is_free in H. apply bind_Ok in H as (account & _ & H). destruct account; [ done | ].
  apply bind_Ok in H as (found & E & H). apply lookup_key_spec in E as ->; [ | done ]. injection H as H. unfold wallet_has_private_key.
  by apply negb_true_iff in H.
Qed.

Lemma try_account_free password i w owner active : mirrored w -> try_account_keys password i w = Ok (Some (owner, active)) ->
  wallet_has_private_key (key_address (get_public_key owner)) w = false
  /\ wallet_has_private_key (key_address (get_public_key active)) w = false.
Proof.
  intros M H. unfold try_account_keys in H. apply bind_Ok in H as (o & _ & H). apply bind_Ok in H as (b1 & H1 & H).
  destruct b1; [ | done ]. apply bind_Ok in H as (a & _ & H). apply bind_Ok in H as (b2 & H2 & H). destruct b2; [ | done ]. injection H as -> ->.
  split; eapply key_free_spec; eauto.
Qed.

(** Generating an account: neither of its keys was known, both are now,
    with private keys that the password decrypts, and the account is found by
    its name, with its owner key and its active key. *)
Theorem generated_account_spec password0 s now name w' owner_key :
  rtc wallet_step (password0, new_wallet) s -> generate_new_account (fst s) now name (snd s) = (w', Ok owner_key) ->
  exists r active, lookup_account_name name (snd s) = Ok None /\ lookup_account_name name w' = Ok (Some r)
    /\ ac_owner_key (ad_account (record_data r)) = owner_key /\ active_key (ad_account (record_data r)) = Ok active
    /\ Forall (fun k => wallet_has_private_key (key_address k) (snd s) = false /\ wallet_has_private_key (key_address k) w' = true
         /\ exists kr p, w_keys w' !! key_address k = Some kr /\ decrypt_private_key (fst s) (record_data kr) = Ok p) [owner_key; active].
Proof.
  intros H G. destruct s as [password w]. cbn [fst snd] in *.
  pose proof (steps_safe _ _ _ H (safe_new_wallet password0)) as S. cbn [fst snd] in S.
  unfold generate_new_account in G. apply nread_inv in G as [(u & E1 & G)|(? & _ & _ & [=])].
  apply nread_inv in G as [([i [owner active]] & E2 & G)|(? & _ & _ & [=])].
  assert (Hname : lookup_account_name name w = Ok None).
  { unfold no_account_named in E1. apply bind_Ok in E1 as (found & E1 & Hf). apply fc_assert_Ok in Hf. by destruct found. }
  assert (Hfree : wallet_has_private_key (key_address (get_public_key owner)) w = false
    /\ wallet_has_private_key (key_address (get_public_key active)) w = false).
  { apply bind_Ok in E2 as (i0 & Ei & E2). pose proof (search_index_first (fun i => try_account_keys password i w) i0) as Hs.
    assert (Hi0 : 0 <= i0 < two32).
    { unfold get_last_wallet_child_key_index in Ei. apply bind_Ok in Ei as (? & _ & Ei). injection Ei as <-.
      destruct (as_int _); [ apply uwrap32_range | unfold two32; lia ]. }
    specialize (Hs Hi0). rewrite E2 in Hs. destruct Hs as (_ & Ht & _). by apply (try_account_free password i w _ _ (ks_mirrored _ _ _ S)). }
  unfold store_new_account in G. apply nread_inv in G as [(d1 & D1 & G)|(? & _ & _ & [=])]. apply nread_inv in G as [(d2 & D2 & G)|(? & _ & _ & [=])].
  apply nread_inv in G as [(account & D3 & G)|(? & _ & _ & [=])].
  apply nbind_inv in G as [(w1 & [] & G1 & G)|(? & _ & [=])]. apply nbind_inv in G as [(w2 & u2 & G2 & G)|(? & _ & [=])].
  apply nbind_inv in G as [(w3 & [] & G3 & G)|(? & _ & [=])]. apply nbind_inv in G as [(w4 & r & G4 & G)|(? & _ & [=])].
  apply pair_equal_spec in G as [<- G]. injection G as <-.
  destruct (encrypt_sealed _ _ _ _ D1) as (S1 & P1 & K1 & _), (encrypt_sealed _ _ _ _ D2) as (S2 & P2 & K2 & _).
  pose proof (store_key_known _ _ _ _ _ S S1 P1 G1) as N1. pose proof (safe_last_index _ _ _ _ _ _ G2 N1) as N2.
  pose proof (store_key_known _ _ _ _ _ N2 S2 P2 G3) as N3. pose proof (safe_store_account _ _ _ _ _ _ G4 N3) as N4.
  destruct (store_account_found _ _ _ _ (ks_mirrored _ _ _ N3) G4) as [Hd Hfound]. unfold set_active_key in D3.
  apply bind_Ok in D3 as (? & _ & D3). injection D3 as <-. cbn in Hfound.
  assert (Hknown : forall k d, encrypt_private_key password k d = Ok d1 \/ encrypt_private_key password k d = Ok d2 ->
    wallet_has_private_key (key_address (get_public_key k)) w4 = true
    /\ exists kr p, w_keys w4 !! key_address (get_public_key k) = Some kr /\ decrypt_private_key password (record_data kr) = Ok p).
  { intros k d Hk.
    assert (Hw : wallet_has_private_key (key_address (get_public_key k)) w4 = true).
    { apply (ks_known _ _ _ N4). destruct Hk as [Hk|Hk]; destruct (encrypt_sealed _ _ _ _ Hk) as (_ & _ & E & _); unfold kd_address; rewrite E; tauto. }
    split; [ done | ]. unfold wallet_has_private_key in Hw. destruct (w_keys w4 !! _) as [kr|] eqn:Ek; [ | done ].
    destruct (ks_sealed _ _ _ N4 _ _ Ek Hw) as (p & _ & Hp & _). eauto. }
  exists r, (get_public_key active). rewrite Hd. cbn. split_and!; try done.
  - unfold active_key. cbn. rewrite insert_empty. unfold max_entry. by rewrite map_fold_singleton.
  - destruct Hfree as [F1 F2]. repeat constructor; [ done | | | done | | ]; eapply Hknown; eauto.
Qed.
End wallets.

(** ** Concrete wallets *)

(** Addresses of the other kinds are odd. *)
Definition wallet_crypto : Crypto := {|
  key_address := fun k => 2 * k;
  pts_key_address := fun k c v => 2 * (2 * k + 10000 * v + (if c then 5000 else 0)) + 1;
  condition_address := @condition_address demo_crypto;
  slate_hash := @slate_hash demo_crypto;
  message_signer := @message_signer demo_crypto;
  packet_rand := @packet_rand demo_crypto;
  packet_rand_range := @packet_rand_range demo_crypto |}.
Definition demo_hash : WalletHash := {|
  sha512_hash := fun s => s + 1; index_hash := fun i => i; address_index_hash := fun a i => a + i |}.

#[local] Existing Instance wallet_crypto.
#[local] Existing Instance demo_keys.
#[local] Existing Instance demo_tx.
#[local] Existing Instance demo_hash.
#[local] Instance wallet_disjoint : PtsDisjoint.
Proof. intros k k' c v. cbn. lia. Defined.

Definition run_ops (password : secret512) (ops : list wallet_op) (w : wallet_db) : wallet_db :=
  foldl (fun w op => fst (run_op password op w)) w ops.

Lemma ops_steps password ops w : Forall op_ok ops -> rtc wallet_step (password, w) (password, run_ops password ops w).
Proof.
  intros H. revert w. induction H as [|op ops Hop _ IH]; intros w; [ apply rtc_refl | ]. eapply rtc_l; [ | apply IH ].
  apply (step_op password w _ op (snd (run_op password op w))); [ done | apply surjective_pairing ].
Qed.

(** A new wallet with a master key. *)
Definition created (k : private_key) (password : secret512) : wallet_db := fst (set_master_key (extended_private k) password new_wallet).
Lemma created_steps k password : rtc wallet_step (password, new_wallet) (password, created k password).
Proof.
  apply rtc_once, (step_master_key _ _ _ (extended_private k) password (snd (set_master_key (extended_private k) password new_wallet)));
    [ done | apply surjective_pairing ].
Qed.

Definition first_ops : list wallet_op :=
  [wo_set_property version (int_variant 111); wo_new_account 1000 "alice"; wo_child_key "alice" active_key_type;
   wo_store_contact (mk_contact contact_account_name "bob" "friend" ""); wo_store_setting "theme" "dark";
   wo_store_transaction (mk_transaction_info 2001 0 false false "CONSENSUS" {| tx_expiration := 2; tx_operations := [op_data []]; tx_signatures := [] |}
     [] (mk_asset 5 0) 900 900)].
Definition first_wallet : wallet_db := run_ops 9 first_ops (created 5 9).

Lemma first_steps : rtc wallet_step (9, new_wallet) (9, first_wallet).
Proof.
  etransitivity; [ apply (created_steps 5 9) | ]. apply ops_steps. repeat (constructor; [ first [ done | left; done ] | ]). constructor.
Qed.

Lemma wallet_restart_witness : exists w',
  open (lm_files (w_records first_wallet)) (close first_wallet) = (w', Ok tt)
  /\ w_keys w' = w_keys first_wallet /\ size (w_keys first_wallet) = 3%nat /\ size (w_contacts first_wallet) = 1%nat
  /\ size (w_transactions first_wallet) = 1%nat.
Proof.
  destruct (wallet_restart 9 (9, first_wallet) (close first_wallet) first_steps (or_intror eq_refl)) as (w' & E & (_ & _ & _ & H & _) & _).
  cbn [fst snd] in E, H. exists w'. split; [ exact E | ]. split; [ exact H | ]. repeat split; vm_compute; reflexivity.
Defined.

(** Another password, then a label that is in use and a restart. *)
Definition second_wallet : wallet_db := fst (change_password 9 17 first_wallet).
Lemma second_steps : rtc wallet_step (9, first_wallet) (17, second_wallet).
Proof.
  assert (H : exists u, change_password 9 17 first_wallet = (second_wallet, Ok u)).
  { unfold second_wallet. destruct (change_password 9 17 first_wallet) as [w [u|e]] eqn:E; [ by exists u | ].
    assert (Hok : is_ok (snd (change_password 9 17 first_wallet)) = true) by (vm_compute; reflexivity). by rewrite E in Hok. }
  destruct H as [u H]. apply rtc_once, (step_password 9 17 first_wallet second_wallet (Ok u) H).
Qed.

Definition alice_key : public_key := match w_accounts first_wallet !! 6 with Some r => ac_owner_key (ad_account (record_data r)) | None => 0 end.

(** The steps of a wallet are steps with any keys. *)
Lemma key_steps s s' : rtc wallet_step s s' -> rtc key_step s s'.
Proof. induction 1 as [|x y z H _ IH]; [ apply rtc_refl | ]. eapply rtc_l; [ by apply step_wallet | done ]. Qed.

(** The private key is then held or was overwritten. *)
Lemma private_keys_kept_witness : wallet_has_private_key (key_address alice_key) first_wallet = true
  /\ (holds_private_key (key_address alice_key) (17, second_wallet)
      \/ exists s1 s2, rtc key_step (9, first_wallet) s1 /\ overwritten (key_address alice_key) s1 s2 /\ rtc key_step s2 (17, second_wallet)).
Proof.
  assert (H : wallet_has_private_key (key_address alice_key) first_wallet = true) by (vm_compute; reflexivity). split; [ exact H | ].
  apply (private_keys_kept 9 (9, first_wallet) (17, second_wallet) (key_address alice_key) (key_steps _ _ first_steps) (key_steps _ _ second_steps) H).
Defined.

(** A second wallet, with a key at the index of the first wallet's contact. *)
Definition contact_wallet : wallet_db :=
  run_ops 9 [wo_set_property version (int_variant 111); wo_store_contact (mk_contact contact_account_name "bob" "friend" "")] (created 5 9).
Definition key_wallet : wallet_db := run_ops 33 [wo_set_property version (int_variant 111); wo_one_time_key 77] (created 6 33).

Lemma stale_contact_overwrites_key_witness : exists w3 w4,
  open (lm_files (w_records key_wallet)) (close contact_wallet) = (w3, Ok tt)
  /\ wallet_has_private_key (key_address (get_public_key 77)) w3 = true
  /\ (exists r, store_contact (mk_contact contact_account_name "bob" "friend" "") w3 = (w4, Ok r))
  /\ (forall i kr, disk w4 !! i = Some (key_record kr) -> kd_public_key (record_data kr) <> get_public_key 77).
Proof.
  assert (Hc : rtc wallet_step (9, new_wallet) (9, contact_wallet)).
  { etransitivity; [ apply (created_steps 5 9) | ]. apply ops_steps. repeat (constructor; [ done | ]). constructor. }
  assert (Hk : rtc wallet_step (33, new_wallet) (33, key_wallet)).
  { etransitivity; [ apply (created_steps 6 33) | ]. apply ops_steps. repeat (constructor; [ done | ]). constructor. }
  pose proof (steps_mirrored _ _ Hc) as Mc. pose proof (steps_mirrored _ _ Hk) as Mk. cbn [snd] in Mc, Mk.
  set (c := mk_contact contact_account_name "bob" "friend" "").
  assert (Hr : exists r, w_contacts contact_wallet !! "bob"%string = Some r /\ wallet_record_index r = 3 /\ cd_label (record_data r) = "friend"%string)
    by (eexists; split; [ vm_compute; reflexivity | split; reflexivity ]).
  destruct Hr as (r & Hr & Hi & Hl).
  assert (Hkr : exists kr, disk key_wallet !! 3 = Some (key_record kr) /\ kd_public_key (record_data kr) = get_public_key 77
      /\ has_private_key (record_data kr) = true)
    by (eexists; split; [ vm_compute; reflexivity | split; vm_compute; reflexivity ]).
  destruct Hkr as (kr & Hkr & Hp & Hpk). rewrite <- Hi in Hkr.
  destruct (stale_contact_overwrites_key contact_wallet key_wallet c r kr Mc Mk ltac:(vm_compute; reflexivity) Hr ltac:(vm_compute; reflexivity)
    ltac:(done) Hl ltac:(vm_compute; reflexivity) Hkr) as (w3 & w4 & H1 & H2 & H3 & H4 & H5).
  exists w3, w4. split; [ exact H1 | ]. split; [ | split; [ exists (assign (Some r) c); exact H3 | ] ].
  - unfold wallet_has_private_key. rewrite <- Hp. fold (kd_address (record_data kr)). rewrite H2. exact Hpk.
  - intros i kr' Hi' Hp'. rewrite H4, Hi in Hi'. apply lookup_insert_Some in Hi' as [[_ Hx]|[Hne Hx]]; [ discriminate | ].
    destruct (mi_disk _ Mk _ _ Hx) as (E1 & M1 & _), (mi_disk _ Mk _ _ Hkr) as (E2 & M2 & _). cbn in M1, M2.
    unfold kd_address in M1, M2. rewrite Hp' in M1. rewrite Hp in M2. rewrite M1 in M2. injection M2 as E3. cbn in E1, E2. rewrite E3 in *. congruence.
Defined.

Lemma generated_account_spec_witness : exists w' k r active, generate_new_account 9 1000 "alice" (created 5 9) = (w', Ok k)
  /\ lookup_account_name "alice" w' = Ok (Some r) /\ active_key (ad_account (record_data r)) = Ok active
  /\ wallet_has_private_key (key_address k) w' = true /\ wallet_has_private_key (key_address active) w' = true.
Proof.
  destruct (generate_new_account 9 1000 "alice" (created 5 9)) as [w' [k|e]] eqn:E.
  2: { assert (Hok : is_ok (snd (generate_new_account 9 1000 "alice" (created 5 9))) = true) by (vm_compute; reflexivity). by rewrite E in Hok. }
  destruct (generated_account_spec 9 (9, created 5 9) 1000 "alice" w' k (created_steps 5 9) E) as (r & active & _ & H1 & H2 & H3 & H4).
  apply Forall_cons in H4 as [(_ & H5 & _) H4]. apply Forall_cons in H4 as [(_ & H6 & _) _].
  exists w', k, r, active. split; [ reflexivity | ]. split; [ exact H1 | ]. split; [ exact H3 | ]. split; [ exact H5 | exact H6 ].
Defined.
