(* ===== verification/Wallet.v ===== *)
(** The wallet (wallet.cpp, transaction_ledger_experimental.cpp): its life from
    creation to locking, the keys and accounts it hands out, the balances of the
    chain that are its own, and what its transactions are made of.

    The functions run on the state of a wallet and read a node, which stands for
    [_blockchain]. A path is the name of a wallet in the data directory; the
    files are what is on disk under it. [fc::time_point::now()] is in
    microseconds; times and random keys are arguments. Tasks, signals, progress
    and backups have no effect here. *)

From S2P Require Import Prelude StateMonad Asset Names Records Keys Building ChainInterface Tables PendingState ChainDatabase BlockOps Node.
From S2P Require Import Storage AddressText WalletDb.

Definition BTS_WALLET_VERSION : Z := 111.
Definition MIN_PASSWORD_LENGTH : nat := 8.
Definition DEFAULT_UNLOCK_TIME_SEC : Z := 60 * 60.
Definition WALLET_DEFAULT_TRANSACTION_FEE : Z := 50000.
Definition WALLET_DEFAULT_EXPIRATION_SEC : Z := 60 * 60.
Definition MAX_TRANSACTION_EXPIRATION_SEC : Z := 60 * 60 * 24 * 2.
Definition MAX_SLATE_SIZE : nat := 111.

(** [sha512] of a password or brain key, and of a [sha512]; the key of an
    extended key from 64 bytes; the member [slate_id] of public data that is an
    object, and what is there; public data with the members [slate_id] and
    [version]. *)
Inductive slate_id_member := no_slate_id | slate_id_value (id : Z) | slate_id_other.
Class WalletEnv := {
  hash_text : string -> secret512;
  hash_again : secret512 -> secret512;
  first_half : secret512 -> Z;
  public_slate_id : string -> slate_id_member;
  with_slate_id : string -> Z -> string;
  with_version : string -> string -> string }.

Record wallet := mk_wallet {
  wl_enabled : bool;
  wl_db : wallet_db;
  (** where the records are kept, since they were last opened *)
  wl_db_path : option string;
  wl_files : gmap string (gmap Z generic_record);
  wl_current_path : string;
  wl_password : secret512;
  wl_scheduled_lock_time : option Z;
  wl_dirty_balances : bool;
  wl_balances : gmap address balance_record;
  wl_dirty_accounts : bool;
  wl_stealth_keys : list private_key }.

Definition set_wl_db (v : wallet_db) (w : wallet) : wallet :=
  mk_wallet (wl_enabled w) v (wl_db_path w) (wl_files w) (wl_current_path w) (wl_password w) (wl_scheduled_lock_time w)
    (wl_dirty_balances w) (wl_balances w) (wl_dirty_accounts w) (wl_stealth_keys w).
Definition set_wl_disk (path : option string) (files : gmap string (gmap Z generic_record)) (w : wallet) : wallet :=
  mk_wallet (wl_enabled w) (wl_db w) path files (wl_current_path w) (wl_password w) (wl_scheduled_lock_time w)
    (wl_dirty_balances w) (wl_balances w) (wl_dirty_accounts w) (wl_stealth_keys w).
Definition set_wl_current_path (v : string) (w : wallet) : wallet :=
  mk_wallet (wl_enabled w) (wl_db w) (wl_db_path w) (wl_files w) v (wl_password w) (wl_scheduled_lock_time w)
    (wl_dirty_balances w) (wl_balances w) (wl_dirty_accounts w) (wl_stealth_keys w).
Definition set_wl_lock (password : secret512) (lock_time : option Z) (w : wallet) : wallet :=
  mk_wallet (wl_enabled w) (wl_db w) (wl_db_path w) (wl_files w) (wl_current_path w) password lock_time
    (wl_dirty_balances w) (wl_balances w) (wl_dirty_accounts w) (wl_stealth_keys w).
Definition set_wl_balances (dirty : bool) (v : gmap address balance_record) (w : wallet) : wallet :=
  mk_wallet (wl_enabled w) (wl_db w) (wl_db_path w) (wl_files w) (wl_current_path w) (wl_password w) (wl_scheduled_lock_time w)
    dirty v (wl_dirty_accounts w) (wl_stealth_keys w).
Definition set_wl_accounts (dirty : bool) (stealth : list private_key) (w : wallet) : wallet :=
  mk_wallet (wl_enabled w) (wl_db w) (wl_db_path w) (wl_files w) (wl_current_path w) (wl_password w) (wl_scheduled_lock_time w)
    (wl_dirty_balances w) (wl_balances w) dirty stealth.

Abbreviation wm := (state_m wallet).

(** What is written to the records is on disk at once. *)
Definition sync (w : wallet) : wallet :=
  match wl_db_path w, lm_files (w_records (wl_db w)) with
  | Some path, Some c => set_wl_disk (Some path) (<[path := c]> (wl_files w)) w
  | _, _ => w
  end.
Definition on_db {A} (m : wallet_m A) : wm A :=
  fun w => let '(d, r) := m (wl_db w) in (sync (set_wl_db d w), r).
Definition read_db {A} (f : wallet_db -> result A) : wm A := nread (fun w => f (wl_db w)).
(** What does not depend on the wallet. *)
Definition lift {A} (r : result A) : wm A := nread (fun _ => r).

Definition wallet_is_open (w : wallet) : bool := WalletDb.is_open (wl_db w).
Definition assert_open : wm unit := nread (fun w => fc_assert (wallet_is_open w)).
Definition is_locked (w : wallet) : result bool := _ <- fc_assert (wallet_is_open w) ;; Ok (wl_password w =? 0).
Definition is_unlocked (w : wallet) : result bool := locked <- is_locked w ;; Ok (negb locked).
Definition assert_unlocked : wm unit := nread (fun w => u <- is_unlocked w ;; fc_assert u).
(** The two checks as most functions begin. *)
Definition open_and_unlocked : wm unit :=
  nread (fun w => _ <- throw_unless wallet_closed (wallet_is_open w) ;; u <- is_unlocked w ;; throw_unless wallet_locked u).

Definition get_password : wm secret512 := nread (fun w => Ok (wl_password w)).
Definition set_dirty_accounts : wm unit := nwrite (fun w => set_wl_accounts true (wl_stealth_keys w) w).

(** [_wallet_db.open] and [close]. *)
Section files.
Context `{Cr : Crypto} `{Kc : KeyCrypto} `{Tx : TxCrypto}.
Definition open_db (path : string) : wm unit :=
  _ <~ nwrite (fun w => set_wl_disk (Some path) (wl_files w) w) ;;
  fun w => on_db (WalletDb.open (wl_files w !! path)) w.
Definition close_db : wm unit := nwrite (fun w => set_wl_disk None (wl_files w) (set_wl_db (WalletDb.close (wl_db w)) w)).
Definition exists_file (path : string) (w : wallet) : bool := match wl_files w !! path with Some _ => true | None => false end.
Definition remove_all (path : string) : wm unit := nwrite (fun w => set_wl_disk (wl_db_path w) (delete path (wl_files w)) w).
End files.

(** ** Properties of the wallet *)

Section properties.
Context `{Cr : Crypto} `{Kc : KeyCrypto} `{Tx : TxCrypto} `{St : Statics} `{FcI : Fc}.
Variable n : node.

Definition set_checked (id : property_enum) (v : variant) : wm unit := _ <~ assert_open ;; on_db (set_property id v).
Definition get_checked {A} (id : property_enum) (f : variant -> result A) (w : wallet) : result A :=
  _ <- fc_assert (wallet_is_open w) ;; f (get_property id (wl_db w)).
Definition or_else {A} (f : variant -> result A) (d : A) (v : variant) : result A :=
  match f v with Ok a => Ok a | Throw _ => Ok d end.
Definition as_uint32 (v : variant) : result Z := i <- as_int v ;; Ok (uwrap32 i).
Definition as_bool (v : variant) : result bool :=
  match v with bool_variant b => Ok b | int_variant i => Ok (negb (i =? 0)) | _ => Throw bad_cast_exception end.
Definition as_asset (v : variant) : result asset := match v with asset_variant a => Ok a | _ => Throw bad_cast_exception end.

Definition set_version (v : Z) : wm unit := set_checked version (int_variant v).
Definition get_version (w : wallet) : result Z := get_checked version (or_else as_uint32 0) w.
Definition set_automatic_backups (enabled : bool) : wm unit := set_checked automatic_backups (bool_variant enabled).
Definition get_automatic_backups (w : wallet) : result bool := get_checked automatic_backups (or_else as_bool true) w.
Definition set_transaction_scanning (enabled : bool) : wm unit := set_checked transaction_scanning (bool_variant enabled).
Definition get_transaction_scanning (w : wallet) : result bool :=
  _ <- fc_assert (wallet_is_open w) ;;
  if bool_decide (w_accounts (wl_db w) = ∅) then Ok false
  else get_checked transaction_scanning (or_else as_bool true) w.
Definition set_last_scanned_block_number (block_num : Z) : wm unit := set_checked last_unlocked_scanned_block_number (int_variant block_num).
Definition get_last_scanned_block_number (w : wallet) : result Z :=
  get_checked last_unlocked_scanned_block_number (or_else as_uint32 (get_head_block_num (nd_db n))) w.
Definition set_transaction_fee (fee : asset) : wm unit :=
  _ <~ assert_open ;;
  if (amount fee <? 0) || negb (asset_id fee =? 0) then nthrow invalid_fee
  else on_db (set_property default_transaction_priority_fee (asset_variant fee)).
Definition set_transaction_expiration (secs : Z) : wm unit :=
  _ <~ assert_open ;;
  if MAX_TRANSACTION_EXPIRATION_SEC <? secs then nthrow invalid_expiration_time
  else on_db (set_property transaction_expiration_sec (int_variant secs)).
Definition get_transaction_expiration (w : wallet) : result Z := get_checked transaction_expiration_sec as_uint32 w.

(** Thrice the fee for market issued assets with a feed, the withdrawal fee
    for user issued ones. *)
Definition get_transaction_fee (desired_fee_asset_id : Z) (w : wallet) : result asset :=
  fee <- get_checked default_transaction_priority_fee (or_else as_asset (mk_asset WALLET_DEFAULT_TRANSACTION_FEE 0)) w ;;
  if desired_fee_asset_id =? 0 then Ok fee
  else
    match get_asset_record (nd_db n) desired_fee_asset_id with
    | None => Throw assert_exception
    | Some record =>
        if is_market_issued record then
          feed_price <- get_active_feed_price (nd_db n) (as_id record) ;;
          match feed_price with
          | Some p =>
              twice <- asset_add fee fee ;;
              fee <- asset_add fee twice ;;
              asset_mul_price fee p
          | None => Ok fee
          end
        else if is_user_issued record then Ok (mk_asset (as_withdrawal_fee record) (as_id record))
        else Ok fee
    end.

Definition asset_can_pay_network_fee (desired_fee_asset_id : Z) (w : wallet) : result bool :=
  match get_asset_record (nd_db n) desired_fee_asset_id with
  | None => Throw assert_exception
  | Some record =>
      if is_user_issued record then Ok false
      else fee <- get_transaction_fee (as_id record) w ;; Ok (asset_id fee =? as_id record)
  end.
End properties.

(** ** Scanning the chain *)

Section scanning.
Context `{Cr : Crypto} `{Kc : KeyCrypto} `{Tx : TxCrypto} `{Wh : WalletHash} `{St : Statics} `{FcI : Fc}.
Variable n : node.

(** A balance one of whose owners is a key of the wallet. *)
Definition is_own_address (a : address) (d : wallet_db) : result bool := key <- lookup_key a d ;; Ok (has_private key).
Fixpoint any_own_address (l : list address) (d : wallet_db) : result bool :=
  match l with
  | [] => Ok false
  | a :: l => own <- is_own_address a d ;; if own then Ok true else any_own_address l d
  end.
Definition scan_balance (record : balance_record) : wm unit :=
  match get_balance_record (nd_pending_state n) (balance_id record) with
  | None => nret tt
  | Some pending_record =>
      own <~ read_db (any_own_address (elements (balance_owners pending_record))) ;;
      if own : bool then nwrite (fun w => set_wl_balances (wl_dirty_balances w) (<[balance_id record := pending_record]> (wl_balances w)) w)
      else nret tt
  end.
(** Every balance of the chain, as it is in the pending state. *)
Definition scan_balances_experimental : wm unit :=
  _ <~ nwrite (fun w => set_wl_balances (wl_dirty_balances w) ∅ w) ;;
  _ <~ nfold (fun record _ => scan_balance record) (map snd (map_to_list (flat balance_t (nd_db n)))) tt ;;
  nwrite (fun w => set_wl_balances false (wl_balances w) w).

Definition check_address (a : address) (d : wallet_db) : result bool :=
  account <- lookup_account a d ;;
  match account with Some _ => Ok true | None => is_own_address a d end.
(** The account of the chain is the wallet's by its owner, active or signing key. *)
Definition is_own_account (r : account_record) (d : wallet_db) : result bool :=
  own <- check_address (owner_address r) d ;;
  if own : bool then Ok true
  else
    active <- active_address r ;; own <- check_address active d ;;
    if own : bool then Ok true
    else if is_delegate r then signing <- signing_address r ;; check_address signing d
    else Ok false.
Definition scan_account (r : account_record) : wm unit :=
  own <~ read_db (is_own_account r) ;;
  if own : bool then on_db (_ <~ store_blockchain_account r ;; nret tt) else nret tt.
Definition scan_accounts : wm unit :=
  _ <~ nfold (fun r _ => scan_account r) (map snd (map_to_list (flat account_t (nd_db n)))) tt ;;
  unlocked <~ nread is_unlocked ;;
  stealth <~ (if unlocked : bool then
      _ <~ nwrite (fun w => set_wl_accounts (wl_dirty_accounts w) [] w) ;;
      nread (fun w => keys <- get_account_private_keys (wl_password w) (wl_db w) ;;
                      Ok (merge_sort Z.le (map fst (map_to_list keys))))
    else nread (fun w => Ok (wl_stealth_keys w))) ;;
  nwrite (fun w => set_wl_accounts false stealth w).

(** *** The balances that can be spent *)

Definition now (_ : unit) : time := chain_now (nd_pending_state n).

Context `{Tc : TextCodec}.

(** The account of a key, or its text. *)
Definition key_account_name (key : key_data) (d : wallet_db) : result string :=
  account <- lookup_account (kd_account_address key) d ;;
  Ok (match account with Some a => ac_name (ad_account (record_data a)) | None => key_to_string (kd_public_key key) end).

(** The account a record of [_balance_records] counts for. *)
Definition spendable_by (account_name : string) (record : balance_record) (d : wallet_db) : result (option string) :=
  match wc_data (br_condition record) with
  | withdraw_with_signature _ _ =>
      balance <- get_spendable_balance record (now tt) ;;
      if amount balance =? 0 then Ok None
      else
        match balance_owner record with
        | None => Ok None
        | Some owner =>
            key <- lookup_key owner d ;;
            match key with
            | Some k =>
                if has_private_key (record_data k) then
                  name <- key_account_name (record_data k) d ;;
                  Ok (if negb (bool_decide (account_name = ""%string)) && negb (bool_decide (name = account_name)) then None else Some name)
                else Ok None
            | None => Ok None
            end
        end
  | _ => Ok None
  end.
Definition add_spendable (account_name : string) (d : wallet_db) (record : balance_record)
    (balances : gmap string (list balance_record)) : result (gmap string (list balance_record)) :=
  name <- spendable_by account_name record d ;;
  Ok (match name with Some name => <[name := default [] (balances !! name) ++ [record]]> balances | None => balances end).
Definition get_spendable_account_balance_records (account_name : string) (w : wallet) : result (gmap string (list balance_record)) :=
  foldM (add_spendable account_name (wl_db w)) (map snd (map_to_list (wl_balances w))) ∅.

(** The sums, by asset. *)
Definition add_balance (record : balance_record) (m : gmap Z Z) : result (gmap Z Z) :=
  balance <- get_spendable_balance record (now tt) ;;
  Ok (<[asset_id balance := at_or_0 m (asset_id balance) +! amount balance]> m).
Definition get_spendable_account_balances (account_name : string) (w : wallet) : result (gmap string (gmap Z Z)) :=
  records <- get_spendable_account_balance_records account_name w ;;
  foldM (fun item balances => m <- foldM add_balance (snd item) ∅ ;; Ok (<[fst item := m]> balances))
    (map_to_list records) ∅.
End scanning.

(** ** The life of a wallet *)

Section life.
Context `{Cr : Crypto} `{Kc : KeyCrypto} `{Tx : TxCrypto} `{Wh : WalletHash} `{St : Statics} `{FcI : Fc} `{We : WalletEnv}.
Variable n : node.

Definition lock : wm unit := nwrite (fun w => set_wl_lock 0 None (set_wl_accounts true [] w)).

Definition close : wm unit :=
  _ <~ lock ;;
  _ <~ nwrite (set_wl_balances true ∅) ;;
  _ <~ close_db ;;
  nwrite (set_wl_current_path "").

(** [try { m } catch( ... ) { handler; rethrow }]. *)
Definition on_failure {A} (m : wm A) (handler : wm unit) : wm A := ncatch m (fun e => _ <~ handler ;; nthrow e).

Definition BRAINKEY_ROUNDS : positive := 100000.
(** The brain key strengthened, or a random key. *)
Definition first_key (brainkey : string) (random : private_key) : extended_private_key :=
  if bool_decide (brainkey = ""%string) then {| xk_priv_key := random; xk_chain_code := 0 |}
  else {| xk_priv_key := first_half (Pos.iter hash_again (hash_text brainkey) BRAINKEY_ROUNDS); xk_chain_code := 0 |}.

Definition create_file (path password brainkey : string) (random : private_key) : wm unit :=
  _ <~ nread (fun w => fc_assert (wl_enabled w)) ;;
  _ <~ nread (fun w => throw_if wallet_already_exists (exists_file path w)) ;;
  _ <~ lift (throw_if password_too_short (String.length password <? MIN_PASSWORD_LENGTH)%nat) ;;
  on_failure
    (_ <~ close ;;
     _ <~ open_db path ;;
     _ <~ nwrite (fun w => set_wl_lock (hash_text password) (wl_scheduled_lock_time w) w) ;;
     _ <~ on_db (set_master_key (first_key brainkey random) (hash_text password)) ;;
     _ <~ set_version BTS_WALLET_VERSION ;;
     _ <~ set_automatic_backups true ;;
     _ <~ set_transaction_scanning true ;;
     _ <~ set_last_scanned_block_number (get_head_block_num (nd_db n)) ;;
     _ <~ set_transaction_fee (mk_asset WALLET_DEFAULT_TRANSACTION_FEE 0) ;;
     _ <~ set_transaction_expiration WALLET_DEFAULT_EXPIRATION_SEC ;;
     _ <~ close_db ;;
     _ <~ open_db path ;;
     _ <~ nwrite (set_wl_current_path path) ;;
     valid <~ nread (fun w => validate_password (wl_password w) (wl_db w)) ;;
     lift (fc_assert valid))
    (_ <~ close ;; remove_all path).

(** No task that needs the wallet unlocked is ever added. *)
Definition upgrade_version : wm unit :=
  current_version <~ nread get_version ;;
  if BTS_WALLET_VERSION <? current_version then nthrow unsupported_version
  else if current_version =? BTS_WALLET_VERSION then nret tt
  else _ <~ nread get_automatic_backups ;; set_version BTS_WALLET_VERSION.

Definition open_file (path : string) : wm unit :=
  _ <~ nread (fun w => fc_assert (wl_enabled w)) ;;
  _ <~ nread (fun w => throw_unless no_such_wallet (exists_file path w)) ;;
  same <~ nread (fun w => Ok (wallet_is_open w && bool_decide (wl_current_path w = path))) ;;
  if same : bool then nret tt
  else on_failure (_ <~ close ;; _ <~ nwrite (set_wl_current_path path) ;; _ <~ open_db path ;; upgrade_version) close.

Definition open (name : string) : wm unit :=
  _ <~ nread (fun w => fc_assert (wl_enabled w)) ;;
  _ <~ lift (throw_unless invalid_name (is_valid_account_name name)) ;;
  _ <~ nread (fun w => throw_unless no_such_wallet (exists_file name w)) ;;
  _ <~ on_failure (open_file name) close ;;
  _ <~ scan_accounts n ;;
  scan_balances_experimental n.

(** [time_point::sec_since_epoch]. *)
Definition sec_since_epoch (t : Z) : Z := uwrap32 (t / 1000000).

Definition unlock (password : string) (timeout_seconds : Z) (now : Z) : wm unit :=
  on_failure
    (_ <~ assert_open ;;
     _ <~ lift (throw_if invalid_timeout (timeout_seconds <? 1)) ;;
     let new_lock_time := now + timeout_seconds * 1000000 in
     _ <~ lift (throw_if invalid_timeout (sec_since_epoch new_lock_time <=? sec_since_epoch now)) ;;
     _ <~ lift (throw_if password_too_short (String.length password <? MIN_PASSWORD_LENGTH)%nat) ;;
     _ <~ nwrite (fun w => set_wl_lock (hash_text password) (wl_scheduled_lock_time w) w) ;;
     valid <~ nread (fun w => validate_password (wl_password w) (wl_db w)) ;;
     _ <~ lift (throw_unless invalid_password valid) ;;
     _ <~ nwrite (fun w => set_wl_lock (wl_password w) (Some new_lock_time) w) ;;
     scan_accounts n)
    lock.

Definition create (name password brainkey : string) (random : private_key) (now : Z) : wm unit :=
  _ <~ nread (fun w => fc_assert (wl_enabled w)) ;;
  _ <~ lift (throw_unless invalid_name (is_valid_account_name name)) ;;
  _ <~ nread (fun w => throw_if wallet_already_exists (exists_file name w)) ;;
  _ <~ lift (throw_if password_too_short (String.length password <? MIN_PASSWORD_LENGTH)%nat) ;;
  on_failure
    (_ <~ create_file name password brainkey random ;;
     _ <~ open name ;;
     unlock password DEFAULT_UNLOCK_TIME_SEC now)
    close.

Definition change_passphrase (new_passphrase : string) : wm unit :=
  _ <~ open_and_unlocked ;;
  _ <~ lift (throw_if password_too_short (String.length new_passphrase <? MIN_PASSWORD_LENGTH)%nat) ;;
  let new_password := hash_text new_passphrase in
  old_password <~ get_password ;;
  _ <~ on_db (change_password old_password new_password) ;;
  _ <~ nwrite (fun w => set_wl_lock new_password (wl_scheduled_lock_time w) w) ;;
  set_dirty_accounts.

(** Import of a JSON file, if there is one and what is read from it, into a new
    wallet. *)
Definition create_from_json (file : option (result (list generic_record))) (wallet_name passphrase : string) (random : private_key) (now : Z)
    : wm unit :=
  _ <~ nread (fun w => fc_assert (wl_enabled w)) ;;
  content <~ lift (from_option_or file_not_found file) ;;
  _ <~ lift (throw_unless invalid_wallet_name (is_valid_account_name wallet_name)) ;;
  _ <~ create wallet_name passphrase "" random now ;;
  on_failure
    (_ <~ set_version 0 ;;
     records <~ lift content ;;
     _ <~ on_db (import_records records) ;;
     _ <~ close ;;
     _ <~ open wallet_name ;;
     unlock passphrase DEFAULT_UNLOCK_TIME_SEC now)
    (_ <~ close ;; remove_all wallet_name).

(** What happens when the time to lock has come; a wallet that signs blocks
    stays unlocked. *)
Definition delegate_enabled (r : wallet_record account_data) : bool :=
  is_delegate (ad_account (record_data r)) && ad_block_production_enabled (record_data r).
Definition relocker (now : Z) : wm unit :=
  due <~ nread (fun w => Ok (match wl_scheduled_lock_time w with None => true | Some t => t <=? now end)) ;;
  if due : bool then
    _ <~ assert_open ;;
    enabled <~ nread (fun w => Ok (existsb (fun item => delegate_enabled (snd item)) (map_to_list (w_accounts (wl_db w))))) ;;
    if enabled : bool then nret tt else lock
  else nret tt.
End life.

(** ** Keys and accounts *)

Section accounts.
Context `{Cr : Crypto} `{Kc : KeyCrypto} `{Tx : TxCrypto} `{Wh : WalletHash} `{St : Statics} `{FcI : Fc} `{Sg : Signing} `{Tc : TextCodec}.
Variable n : node.

Definition get_private_key (a : address) (w : wallet) : result private_key :=
  _ <- fc_assert (wallet_is_open w) ;;
  u <- is_unlocked w ;; _ <- fc_assert u ;;
  key <- lookup_key a (wl_db w) ;;
  match key with
  | None => Throw assert_exception
  | Some r => _ <- fc_assert (has_private_key (record_data r)) ;; decrypt_private_key (wl_password w) (record_data r)
  end.

Definition get_wallet_public_key (a : address) (w : wallet) : result public_key :=
  key <- lookup_key a (wl_db w) ;;
  match key with Some r => Ok (kd_public_key (record_data r)) | None => Throw assert_exception end.

Definition is_receive_address (a : address) (w : wallet) : result bool := is_own_address a (wl_db w).

Definition get_active_private_key (account_name : string) (w : wallet) : result private_key :=
  _ <- throw_unless invalid_name (is_valid_account_name account_name) ;;
  u <- is_unlocked w ;; _ <- fc_assert u ;;
  account <- lookup_account_name account_name (wl_db w) ;;
  match account with
  | None => Throw assert_exception
  | Some a => active <- active_address (ad_account (record_data a)) ;; get_private_key active w
  end.

(** The key of the account on the chain, or else of the account in the wallet. *)
Definition account_public_key (key : account_record -> result public_key) (account_name : string) (w : wallet) : result public_key :=
  _ <- throw_unless invalid_name (is_valid_account_name account_name) ;;
  registered <- get_account_record_by_name (nd_db n) account_name ;;
  match registered with
  | Some r => retracted <- is_retracted r ;; _ <- throw_if account_retracted retracted ;; key r
  | None =>
      account <- lookup_account_name account_name (wl_db w) ;;
      match account with Some a => key (ad_account (record_data a)) | None => Throw assert_exception end
  end.
Definition get_active_public_key := account_public_key active_key.
Definition get_owner_public_key := account_public_key (fun r => Ok (ac_owner_key r)).

(** A key of the account that was not used before, kept by the wallet. *)
Definition get_new_private_key (account_name : string) : wm private_key :=
  _ <~ open_and_unlocked ;;
  account <~ read_db (lookup_account_name account_name) ;;
  match account with
  | None => nthrow assert_exception
  | Some _ => fun w => on_db (generate_new_account_child_key (wl_password w) account_name active_key_type) w
  end.
Definition get_new_public_key (account_name : string) : wm public_key :=
  k <~ get_new_private_key account_name ;; nret (get_public_key k).

(** The account of the wallet as it is on the chain. *)
Definition get_account (account_name : string) : wm account_data :=
  _ <~ assert_open ;;
  local_account <~ read_db (lookup_account_name account_name) ;;
  chain_account <~ lift (get_account_record_by_name (nd_db n) account_name) ;;
  match local_account, chain_account with
  | None, None => nthrow unknown_account
  | Some l, None => nret (record_data l)
  | None, Some c => nret (mk_account_data c 0 false "")
  | Some l, Some c =>
      _ <~ lift (throw_unless duplicate_account_name (ac_owner_key (ad_account (record_data l)) =? ac_owner_key c)) ;;
      _ <~ on_db (store_blockchain_account c) ;;
      nret (mk_account_data c (ad_last_child_key_index (record_data l)) (ad_block_production_enabled (record_data l))
              (ad_custom_data (record_data l)))
  end.

Definition create_account (account_name : string) (created : time) : wm public_key :=
  _ <~ lift (throw_unless invalid_name (is_valid_account_name account_name)) ;;
  _ <~ assert_open ;;
  _ <~ assert_unlocked ;;
  first <~ nread (fun w => Ok (bool_decide (w_accounts (wl_db w) = ∅))) ;;
  current <~ read_db (lookup_account_name account_name) ;;
  _ <~ lift (throw_if invalid_name (match current with Some _ => true | None => false end)) ;;
  registered <~ lift (get_account_record_by_name (nd_db n) account_name) ;;
  _ <~ lift (throw_if invalid_name (match registered with Some _ => true | None => false end)) ;;
  password <~ get_password ;;
  k <~ on_db (generate_new_account password created account_name) ;;
  _ <~ (if first : bool then set_last_scanned_block_number (get_head_block_num (nd_db n)) else nret tt) ;;
  _ <~ set_dirty_accounts ;;
  nret k.

(** The first account of the name that is not the one registered under it. *)
Definition renamable (old_account_name : string) (registered : option account_record) (r : wallet_record account_data) : option public_key :=
  let local_account := ad_account (record_data r) in
  if negb (bool_decide (ac_name local_account = old_account_name)) then None
  else
    match registered with
    | Some c => if ac_owner_key c =? ac_owner_key local_account then None else Some (ac_owner_key local_account)
    | None => Some (ac_owner_key local_account)
    end.
Definition rename_account (old_account_name new_account_name : string) : wm unit :=
  _ <~ assert_open ;;
  _ <~ lift (throw_unless invalid_name (is_valid_account_name old_account_name)) ;;
  _ <~ lift (throw_unless invalid_name (is_valid_account_name new_account_name)) ;;
  registered <~ lift (get_account_record_by_name (nd_db n) old_account_name) ;;
  old_key <~ nread (fun w => Ok (head (omap (renamable old_account_name registered) (map snd (map_to_list (w_accounts (wl_db w))))))) ;;
  match old_key with
  | None => nthrow match registered with Some _ => key_already_registered | None => unknown_account end
  | Some old_key =>
      by_key <~ lift (get_account_record_by_address (nd_db n) (key_address old_key)) ;;
      _ <~ lift (throw_if key_already_registered
             match by_key with Some r => negb (bool_decide (ac_name r = new_account_name)) | None => false end) ;;
      by_name <~ lift (get_account_record_by_name (nd_db n) new_account_name) ;;
      _ <~ lift (throw_if duplicate_account_name (match by_name with Some _ => true | None => false end)) ;;
      new_account <~ read_db (lookup_account_name new_account_name) ;;
      _ <~ lift (throw_if duplicate_account_name (match new_account with Some _ => true | None => false end)) ;;
      _ <~ on_db (WalletDb.rename_account old_key new_account_name) ;;
      set_dirty_accounts
  end.

(** The name given must be the account's. *)
Definition same_name (account_name : option string) (r : account_record) : result unit :=
  fc_assert match account_name with Some name => bool_decide (name = ac_name r) | None => true end.

Definition import_private_key (new_private_key : private_key) (account_name : option string) (create_new_account : bool) (created : time)
    : wm public_key :=
  _ <~ open_and_unlocked ;;
  let new_public_key := get_public_key new_private_key in
  let new_address := key_address new_public_key in
  let import_into (name : string) : wm public_key :=
    password <~ get_password ;;
    _ <~ on_db (import_key password name new_private_key true) ;; nret new_public_key in
  registered <~ lift (get_account_record_by_address (nd_db n) new_address) ;;
  match registered with
  | Some r =>
      _ <~ lift (same_name account_name r) ;;
      _ <~ on_db (store_blockchain_account r) ;;
      import_into (ac_name r)
  | None =>
      local <~ read_db (lookup_account new_address) ;;
      match local with
      | Some a => _ <~ lift (same_name account_name (ad_account (record_data a))) ;; import_into (ac_name (ad_account (record_data a)))
      | None =>
          match account_name with
          | None => nthrow assert_exception
          | Some name =>
              key <~ read_db (lookup_key new_address) ;;
              match (if has_private key then key else None) with
              | Some k =>
                  account <~ read_db (lookup_account (kd_account_address (record_data k))) ;;
                  match account with
                  | Some a =>
                      _ <~ lift (same_name (Some name) (ad_account (record_data a))) ;; import_into (ac_name (ad_account (record_data a)))
                  | None => nthrow undefined_behaviour
                  end
              | None =>
                  account <~ read_db (lookup_account_name name) ;;
                  match account with
                  | Some a => import_into (ac_name (ad_account (record_data a)))
                  | None =>
                      _ <~ lift (fc_assert create_new_account) ;;
                      password <~ get_password ;;
                      on_db (generate_account_with_key password created name new_private_key)
                  end
              end
          end
      end
  end.

Definition friendly_import_private_key (key : private_key) (account_name : string) (created : time) : wm bool :=
  let a := key_address (get_public_key key) in
  known <~ nread (fun w => match get_private_key a w with
                           | Ok _ => Ok true | Throw undefined_behaviour => Throw undefined_behaviour | Throw _ => Ok false end) ;;
  if known : bool then nret false
  else
    registered <~ lift (get_account_record_by_address (nd_db n) a) ;;
    _ <~ import_private_key key
           match registered with
           | Some r => if bool_decide (ac_name r = account_name) then Some account_name else None
           | None => Some account_name
           end false created ;;
    nret true.

(** A signature for each address, in some order; without one of the keys the
    transaction is not signed. *)
Definition sign_transaction (trx : signed_transaction) (required_signatures : gset address) (w : wallet) : result signed_transaction :=
  foldM (fun a t => k <- get_private_key a w ;; Ok (sign k static_chain_id t)) (elements required_signatures) trx.
End accounts.
