(* ===== verification/Spending.v ===== *)
(** What the wallet's transactions are made of (wallet.cpp): the balances an
    amount is taken from, the contact a recipient stands for, the deposit for
    it, the keys that authorize an update, and the slate of the votes.

    A transaction under way is the transaction and the addresses that have to
    sign it; an exception leaves it as far as it was made. The wallet is only
    read, but for the one time keys. A map without order is visited in the order
    of [map_to_list]; the shuffle of the candidates has no effect on a set. *)

From Stdlib Require Import String.
From S2P Require Import Prelude StateMonad Asset Names Records Keys Building ChainInterface Tables PendingState ChainDatabase BlockOps Node.
From S2P Require Import Storage AmountText AddressText WalletDb Wallet.

Record draft := mk_draft { df_trx : signed_transaction; df_required_signatures : gset address }.
Definition draft_empty : draft := mk_draft transaction_default ∅.
Definition set_df_trx (t : signed_transaction) (d : draft) : draft := mk_draft t (df_required_signatures d).
Definition require_signature (a : address) (d : draft) : draft := mk_draft (df_trx d) ({[ a ]} ∪ df_required_signatures d).
Abbreviation draft_m := (state_m draft).

(** A function of the transaction that may throw, and one that does not. *)
Definition on_trx (f : signed_transaction -> result signed_transaction) : draft_m unit :=
  fun d => match f (df_trx d) with Ok t => (set_df_trx t d, Ok tt) | Throw e => (d, Throw e) end.
Definition on_trx_with {A} (f : signed_transaction -> result (A * signed_transaction)) : draft_m A :=
  fun d => match f (df_trx d) with Ok (a, t) => (set_df_trx t d, Ok a) | Throw e => (d, Throw e) end.
Definition append (f : signed_transaction -> signed_transaction) : draft_m unit := nwrite (fun d => set_df_trx (f (df_trx d)) d).
(** A local draft of a function of the wallet. *)
Definition drafting (m : draft_m unit) (d : draft) : result draft :=
  match m d with (d, Ok _) => Ok d | (_, Throw e) => Throw e end.

Inductive vote_strategy := vote_none | vote_all | vote_random | vote_recommended.

(** [catch( const fc::exception& )]. *)
Definition or_catch {A} (r : result A) (handler : result A) : result A :=
  match r with Throw undefined_behaviour => r | Throw _ => handler | Ok _ => r end.

Section spending.
Context `{Cr : Crypto} `{Kc : KeyCrypto} `{Tx : TxCrypto} `{Wh : WalletHash} `{St : Statics} `{FcI : Fc} `{Sg : Signing}.
Context `{Tc : TextCodec} `{Pn : PrettyNumber} `{We : WalletEnv}.
Variable n : node.
Implicit Types w : wallet.

(** ** Withdrawals *)

(** The balances in turn, each as a whole until the last. *)
Fixpoint withdraw_from (records : list balance_record) (amount_remaining : asset) : draft_m (option asset) :=
  match records with
  | [] => nret (Some amount_remaining)
  | record :: records =>
      balance <~ nread (fun _ => get_spendable_balance record (now n tt)) ;;
      if (amount balance <=? 0) || negb (asset_id balance =? asset_id amount_remaining) then withdraw_from records amount_remaining
      else
        match balance_owner record with
        | None => withdraw_from records amount_remaining
        | Some owner =>
            if amount balance <? amount amount_remaining then
              _ <~ on_trx (withdraw (balance_id record) (amount balance)) ;;
              _ <~ nwrite (require_signature owner) ;;
              remaining <~ nread (fun _ => asset_sub amount_remaining balance) ;;
              withdraw_from records remaining
            else
              _ <~ on_trx (withdraw (balance_id record) (amount amount_remaining)) ;;
              _ <~ nwrite (require_signature owner) ;;
              nret None
        end
  end.
Definition withdraw_to_transaction (amount_to_withdraw : asset) (from_account_name : string) w : draft_m unit :=
  _ <~ nread (fun _ => fc_assert (negb (bool_decide (from_account_name = ""%string)))) ;;
  balance_records <~ nread (fun _ => get_spendable_account_balance_records n from_account_name w) ;;
  match balance_records !! from_account_name with
  | None => nthrow insufficient_funds
  | Some records =>
      remaining <~ withdraw_from records amount_to_withdraw ;;
      match remaining with
      | None => nret tt
      | Some amount_remaining =>
          _ <~ nread (fun _ => to_pretty_asset amount_to_withdraw (nd_db n)) ;;
          available <~ nread (fun _ => asset_sub amount_to_withdraw amount_remaining) ;;
          _ <~ nread (fun _ => to_pretty_asset available (nd_db n)) ;;
          nthrow insufficient_funds
      end
  end.

(** ** Recipients *)

Definition account_contact (name : string) : contact_data := mk_contact contact_account_name name name "".
Definition key_contact (k : public_key) : contact_data := mk_contact contact_public_key (key_to_string k) (key_to_string k) "".
Definition address_contact (a : address) : contact_data := mk_contact contact_address (address_to_string a) (address_to_string a) "".
Definition pts_contact (l : list Z) : contact_data := mk_contact contact_btc_address (pts_to_string l) (pts_to_string l) "".
Definition set_label (label : string) (c : contact_data) : contact_data :=
  mk_contact (cd_contact_type c) (cd_data c) label (cd_custom_data c).

(** [contact_data( db, data, label )]: an account of the chain, a key, an
    address or one of another chain, the first the text can be read as. *)
Definition make_contact (data label : string) : result contact_data :=
  account <- get_account_record_by_name (nd_db n) data ;;
  contact <- match account with
             | Some _ => Ok (account_contact data)
             | None =>
                 or_catch (k <- key_of_string data ;; Ok (key_contact k))
                   (or_catch (a <- address_of_string data ;; Ok (address_contact a))
                      (or_catch (l <- pts_of_string data ;; Ok (pts_contact l)) (Throw invalid_contact)))
             end ;;
  Ok (if bool_decide (label = ""%string) then contact else set_label label contact).

Definition label_prefix : string := "label:".
Definition generic_recipient_to_contact (generic_recipient : string) w : result contact_data :=
  _ <- throw_unless wallet_closed (wallet_is_open w) ;;
  contact <- (if has_prefix label_prefix generic_recipient
              then lookup_contact_label (after_prefix label_prefix generic_recipient) (wl_db w)
              else lookup_contact generic_recipient (wl_db w)) ;;
  match contact with
  | Some r => Ok (record_data r)
  | None =>
      account <- lookup_account_name generic_recipient (wl_db w) ;;
      match account with
      | Some a => Ok (account_contact (ac_name (ad_account (record_data a))))
      | None => make_contact generic_recipient ""
      end
  end.

Definition is_titan_account (r : account_record) : bool :=
  match ac_meta_data r with Some m => match am_type m with titan_account => true | _ => false end | None => false end.

(** [address( pts_address )]. *)
Definition address_of_pts (l : list Z) : address := of_le (ripemd160 l).
Definition contact_address_of (c : contact_data) : result address :=
  match cd_contact_type c with
  | contact_public_key => k <- key_of_string (cd_data c) ;; Ok (key_address k)
  | contact_address => address_of_string (cd_data c)
  | contact_btc_address => l <- pts_of_string (cd_data c) ;; Ok (address_of_pts l)
  | contact_account_name => Throw invalid_contact
  end.

(** The account of the recipient: as on the chain, or else as in the wallet. *)
Definition recipient_account (name : string) w : result account_record :=
  local <- lookup_account_name name (wl_db w) ;;
  registered <- get_account_record_by_name (nd_db n) name ;;
  account <- match local, registered with
             | None, None => Throw unknown_account
             | Some l, Some r =>
                 _ <- throw_unless duplicate_account_name (ac_owner_key (ad_account (record_data l)) =? ac_owner_key r) ;; Ok r
             | None, Some r => Ok r
             | Some l, None => Ok (ad_account (record_data l))
             end ;;
  retracted <- is_retracted account ;;
  _ <- throw_if account_retracted retracted ;;
  Ok account.

Definition sender_private_key (sender : account_record) w : result private_key :=
  if wallet_has_private_key (owner_address sender) (wl_db w) then get_private_key (owner_address sender) w
  else active <- active_address sender ;; get_private_key active w.

Definition deposit_from_transaction (a : asset) (sender : account_record) (recipient : contact_data) (memo : string) (t : signed_transaction)
    : wm (public_key * signed_transaction) :=
  _ <~ lift (throw_if memo_too_long (MAX_EXTENDED_MEMO_SIZE <? String.length memo)%nat) ;;
  match cd_contact_type recipient with
  | contact_account_name =>
      _ <~ nread (fun w => throw_unless wallet_closed (wallet_is_open w)) ;;
      account <~ nread (recipient_account (cd_data recipient)) ;;
      sender_key <~ nread (sender_private_key sender) ;;
      one_time <~ get_new_private_key (ac_name sender) ;;
      active <~ lift (active_key account) ;;
      kt <~ lift (deposit_with_encrypted_memo a sender_key active one_time memo (is_titan_account account) t) ;;
      nret (ac_owner_key account, snd kt)
  | _ =>
      recipient_address <~ lift (contact_address_of recipient) ;;
      t <~ lift (deposit_to_address a recipient_address t) ;;
      nret (null_key, t)
  end.

(** ** The key that authorizes an update *)

(** The first of the keys that the wallet can sign with. *)
Definition accept_key (a : address) w : result (option address) :=
  key <- lookup_key a (wl_db w) ;;
  Ok (match key with Some k => if has_private_key (record_data k) then Some (kd_address (record_data k)) else None | None => None end).
Fixpoint accept_first (l : list (result address)) w : result (option address) :=
  match l with
  | [] => Ok None
  | a :: l => a <- a ;; accepted <- accept_key a w ;; match accepted with Some _ => Ok accepted | None => accept_first l w end
  end.
(** The parents of the account, one after the other; each name is shorter. *)
Fixpoint authorize_parents (fuel : nat) (name : string) w : result (option address) :=
  match fuel with
  | O => Throw undefined_behaviour
  | S fuel =>
      match get_parent_account_name name with
      | None => Ok None
      | Some parent =>
          found <- get_account_record_by_name (nd_db n) parent ;;
          account <- from_option_or assert_exception found ;;
          accepted <- accept_first [active_address account; Ok (owner_address account)] w ;;
          match accepted with Some _ => Ok accepted | None => authorize_parents fuel (ac_name account) w end
      end
  end.
Definition authorizing_key (account : account_record) (need_owner_key : bool) w : result (option address) :=
  accepted <- accept_first (Ok (owner_address account) :: if need_owner_key then [] else [active_address account]) w ;;
  match accepted with
  | Some _ => Ok accepted
  | None => authorize_parents (S (String.length (ac_name account))) (ac_name account) w
  end.
(** Without such a key nothing is required. *)
Definition authorize_update (required_signatures : gset address) (account : account_record) (need_owner_key : bool) w : result (gset address) :=
  accepted <- authorizing_key account need_owner_key w ;;
  Ok (match accepted with Some a => {[ a ]} ∪ required_signatures | None => required_signatures end).

(** ** The slate of the votes *)

(** The account of an approval, if there is one. *)
Definition approved_account (r : wallet_record approval_data) : result (option account_record) :=
  get_account_record_by_name (nd_db n) (ap_name (record_data r)).
Definition approvals w : list (wallet_record approval_data) := map snd (map_to_list (w_approvals (wl_db w))).
Definition add_candidate (r : wallet_record approval_data) (l : list account_id) : result (list account_id) :=
  account <- approved_account r ;;
  Ok (match account with
      | Some a => if is_delegate a && (0 <? ap_approval (record_data r)) then l ++ [ac_id a] else l
      | None => l
      end).

Definition tally (slate : slate_record) (ranks : gmap account_id Z) : gmap account_id Z :=
  foldl (fun m id => <[id := at_or_0 m id + 1]> m) ranks (elements slate).
(** What a candidate recommends counts once. *)
Definition add_recommendations (id : account_id) (ranks : gmap account_id Z) : result (gmap account_id Z) :=
  match get_account_record (nd_db n) id with
  | None => Ok ranks
  | Some r =>
      retracted <- is_retracted r ;;
      if retracted : bool then Ok ranks
      else
        match public_slate_id (ac_public_data r) with
        | slate_id_value slate =>
            Ok (match get_slate_record (nd_db n) slate with Some s => tally s ranks | None => ranks end)
        | _ => Ok ranks
        end
  end.
Definition disqualify (r : wallet_record approval_data) (ranks : gmap account_id Z) : result (gmap account_id Z) :=
  account <- approved_account r ;;
  match account with
  | None => Ok ranks
  | Some a =>
      retracted <- is_retracted a ;;
      Ok (if retracted || negb (is_delegate a) || (ap_approval (record_data r) <? 0) then delete (ac_id a) ranks else ranks)
  end.
Definition keep_delegate (id : account_id) (l : list account_id) : result (list account_id) :=
  match get_account_record (nd_db n) id with
  | None => Ok l
  | Some r =>
      if negb (is_delegate r) then Ok l
      else retracted <- is_retracted r ;; Ok (if retracted : bool then l else l ++ [id])
  end.
Definition better (item : account_id * Z) (best : option (account_id * Z)) : option (account_id * Z) :=
  if match best with Some b => snd b | None => 0 end <? snd item then Some item else best.
(** The best ranked candidates, until the slate is full. *)
Fixpoint fill_slate (fuel : nat) (candidates : list account_id) (ranks : gmap account_id Z) : result (list account_id) :=
  if (MAX_SLATE_SIZE <=? length candidates)%nat || bool_decide (ranks = ∅) then Ok candidates
  else
    match fuel, foldl (fun best item => better item best) None (map_to_list ranks) with
    | S fuel, Some (best, _) => fill_slate fuel (candidates ++ [best]) (delete best ranks)
    | _, _ => Throw undefined_behaviour
    end.

(** The size of the slate that is computed for the other strategies is not
    used. *)
Definition get_delegate_slate (strategy : vote_strategy) w : result slate_record :=
  match strategy with
  | vote_none => Ok ∅
  | _ =>
      for_candidates <- foldM add_candidate (approvals w) [] ;;
      for_candidates <-
        match strategy with
        | vote_recommended =>
            if (length for_candidates <? MAX_SLATE_SIZE)%nat then
              ranks <- foldM add_recommendations for_candidates ∅ ;;
              ranks <- foldM disqualify (approvals w) ranks ;;
              let ranks := foldl (fun m id => delete id m) ranks for_candidates in
              delegates <- foldM keep_delegate for_candidates [] ;;
              fill_slate MAX_SLATE_SIZE delegates ranks
            else Ok for_candidates
        | _ => Ok for_candidates
        end ;;
      let slate : slate_record := list_to_set for_candidates in
      _ <- fc_assert (size slate <=? MAX_SLATE_SIZE)%nat ;;
      Ok slate
  end.

Definition set_delegate_slate (strategy : vote_strategy) w : draft_m unit :=
  match strategy with
  | vote_none => nret tt
  | _ =>
      record <~ nread (fun _ => get_delegate_slate strategy w) ;;
      let id := slate_id record in
      if id =? 0 then nret tt
      else
        _ <~ append (match get_slate_record (nd_db n) id with Some _ => fun t => t | None => define_slate record end) ;;
        append (set_slates id)
  end.
End spending.
