(* ===== verification/TransactionBuilder.v ===== *)
(** The transaction builder (transaction_builder.hpp, transaction_builder.cpp):
    operations are appended to a transaction and noted in the balances of the
    accounts; finalizing pays the fee and makes up for what is outstanding.

    A builder works on a wallet and is changed in place: an exception leaves
    both as they were at that point. The outstanding balances are visited in the
    order of the account's address and the asset. [blockchain::now()] is an
    argument. Public data is a string, that of an empty object is [{}]; the data
    of [account_meta_info] is a list of bytes. *)

From Stdlib Require Import String.
From S2P Require Import Prelude StateMonad Asset Names Records Keys Building ChainInterface EvalState BalanceOps Tables PendingState ChainDatabase BlockOps Market Node.
From S2P Require Import Storage AmountText AddressText WalletDb Wallet Spending.

Definition DEFAULT_MARKET_TRANSACTION_EXPIRATION_SEC : Z := 60 * 10.

(** A notice to a receiver: the memo, the one time key, the signature of the
    sender and the key of the receiver. *)
Record notice := mk_notice {
  nc_message : string; nc_one_time_key : option public_key; nc_signature : Z; nc_recipient : public_key }.

(** The transaction and its signatures, and the other members; those of
    [transaction_record] that are set. *)
Record builder := mk_builder {
  bd_draft : draft;
  bd_outstanding_balances : gmap (address * Z) Z;
  bd_order_keys : gmap address public_key;
  bd_notices : list notice;
  bd_contract : string;
  bd_ledger_entries : list ledger_entry;
  bd_fee : asset;
  bd_record_id : transaction_id;
  bd_created_time : time }.
Definition bd_trx (b : builder) : signed_transaction := df_trx (bd_draft b).
Definition bd_required_signatures (b : builder) : gset address := df_required_signatures (bd_draft b).
Definition builder_empty : builder := mk_builder draft_empty ∅ ∅ [] "" [] (mk_asset 0 0) 0 0.

Definition set_bd_draft (v : draft) (b : builder) : builder :=
  mk_builder v (bd_outstanding_balances b) (bd_order_keys b) (bd_notices b) (bd_contract b) (bd_ledger_entries b) (bd_fee b)
    (bd_record_id b) (bd_created_time b).
Definition set_bd_balances (v : gmap (address * Z) Z) (b : builder) : builder :=
  mk_builder (bd_draft b) v (bd_order_keys b) (bd_notices b) (bd_contract b) (bd_ledger_entries b) (bd_fee b)
    (bd_record_id b) (bd_created_time b).
Definition set_bd_order_keys (v : gmap address public_key) (b : builder) : builder :=
  mk_builder (bd_draft b) (bd_outstanding_balances b) v (bd_notices b) (bd_contract b) (bd_ledger_entries b) (bd_fee b)
    (bd_record_id b) (bd_created_time b).
Definition set_bd_notices (v : list notice) (b : builder) : builder :=
  mk_builder (bd_draft b) (bd_outstanding_balances b) (bd_order_keys b) v (bd_contract b) (bd_ledger_entries b) (bd_fee b)
    (bd_record_id b) (bd_created_time b).
Definition set_bd_ledger (contract : string) (v : list ledger_entry) (b : builder) : builder :=
  mk_builder (bd_draft b) (bd_outstanding_balances b) (bd_order_keys b) (bd_notices b) contract v (bd_fee b)
    (bd_record_id b) (bd_created_time b).
Definition set_bd_fee (v : asset) (b : builder) : builder :=
  mk_builder (bd_draft b) (bd_outstanding_balances b) (bd_order_keys b) (bd_notices b) (bd_contract b) (bd_ledger_entries b) v
    (bd_record_id b) (bd_created_time b).
Definition set_bd_record (id : transaction_id) (created : time) (b : builder) : builder :=
  mk_builder (bd_draft b) (bd_outstanding_balances b) (bd_order_keys b) (bd_notices b) (bd_contract b) (bd_ledger_entries b) (bd_fee b)
    id created.

(** The record of the transaction. *)
Definition transaction_record (b : builder) : transaction_info :=
  mk_transaction_info (bd_record_id b) 0 false false (bd_contract b) (bd_trx b) (bd_ledger_entries b) (bd_fee b)
    (bd_created_time b) (bd_created_time b).

(** ** Computations on the wallet and the builder *)

Abbreviation bm := (state_m (wallet * builder)).
Definition on_wallet {A} (m : wm A) : bm A := fun s => let '(w, r) := m (fst s) in ((w, snd s), r).
Definition on_builder (f : builder -> builder) : bm unit := nwrite (fun s => (fst s, f (snd s))).
Definition on_draft {A} (m : wallet -> draft_m A) : bm A :=
  fun s => let '(d, r) := m (fst s) (bd_draft (snd s)) in ((fst s, set_bd_draft d (snd s)), r).
Definition read_wallet {A} (f : wallet -> result A) : bm A := nread (fun s => f (fst s)).
Definition read_builder {A} (f : builder -> result A) : bm A := nread (fun s => f (snd s)).
Definition check (r : result unit) : bm unit := nread (fun _ => r).
Definition value_of {A} (r : result A) : bm A := nread (fun _ => r).

Definition on_operations (f : signed_transaction -> result signed_transaction) : bm unit := on_draft (fun _ => on_trx f).
Definition append_operation (f : signed_transaction -> signed_transaction) : bm unit := on_draft (fun _ => append f).
Definition must_sign (a : address) : bm unit := on_draft (fun _ => nwrite (require_signature a)).
Definition add_ledger_entry (contract : option string) (e : ledger_entry) : bm unit :=
  on_builder (fun b => set_bd_ledger (default (bd_contract b) contract) (bd_ledger_entries b ++ [e]) b).

(** ** The balances *)

Definition balance_key_le (a b : address * Z) : Prop := fst a < fst b \/ (fst a = fst b /\ snd a <= snd b).
#[export] Instance balance_key_le_dec a b : Decision (balance_key_le a b).
Proof. unfold balance_key_le. apply _. Defined.
Definition entry_le (a b : address * Z * Z) : Prop := balance_key_le (fst a) (fst b).
#[export] Instance entry_le_dec a b : Decision (entry_le a b).
Proof. unfold entry_le. apply _. Defined.
Definition balance_entries (m : gmap (address * Z) Z) : list (address * Z * Z) := merge_sort entry_le (map_to_list m).

Definition change_balance (account : address) (id delta : Z) : bm unit :=
  on_builder (fun b => set_bd_balances (<[(account, id) := at_or_0 (bd_outstanding_balances b) (account, id) +! delta]>
                                          (bd_outstanding_balances b)) b).
Definition deduct_balance (account_to_charge : address) (a : asset) : bm unit :=
  _ <~ check (fc_assert (0 <=? amount a)) ;; change_balance account_to_charge (asset_id a) (- amount a).
Definition credit_balance (account_to_credit : address) (a : asset) : bm unit :=
  _ <~ check (fc_assert (0 <=? amount a)) ;; change_balance account_to_credit (asset_id a) (amount a).

Definition all_positive_balances (b : builder) : gmap Z Z :=
  foldl (fun m '(key, v) => if 0 <? v then <[snd key := at_or_0 m (snd key) +! v]> m else m) ∅
    (balance_entries (bd_outstanding_balances b)).
Definition by_asset_le (a b : Z * Z) : Prop := fst a <= fst b.
#[export] Instance by_asset_le_dec a b : Decision (by_asset_le a b).
Proof. unfold by_asset_le. apply _. Defined.
Definition by_asset (m : gmap Z Z) : list (Z * Z) := merge_sort by_asset_le (map_to_list m).

Section builder.
Context `{Cr : Crypto} `{Kc : KeyCrypto} `{Tx : TxCrypto} `{Wh : WalletHash} `{St : Statics} `{FcI : Fc} `{Sg : Signing}.
Context `{Tc : TextCodec} `{Pn : PrettyNumber} `{We : WalletEnv}.
Variable n : node.

(** The key under which the account's market operations are; [operator[]]
    enters a null key. *)
Definition order_key_for_account (account_address : address) (account_name : string) : bm public_key :=
  order_key <~ read_builder (fun b => Ok (default null_key (bd_order_keys b !! account_address))) ;;
  _ <~ on_builder (fun b => set_bd_order_keys (<[account_address := order_key]> (bd_order_keys b)) b) ;;
  if order_key =? null_key then
    k <~ on_wallet (get_new_public_key account_name) ;;
    _ <~ on_builder (fun b => set_bd_order_keys (<[account_address := k]> (bd_order_keys b)) b) ;;
    nret k
  else nret order_key.

(** The first asset with enough of it in the positive balances that the fee can
    be paid in. *)
Fixpoint fee_asset (balances : list (Z * Z)) (w : wallet) : result (option asset) :=
  match balances with
  | [] => Ok None
  | (id, v) :: balances =>
      can_pay <- asset_can_pay_network_fee n id w ;;
      if can_pay : bool then
        fee <- get_transaction_fee n id w ;;
        if amount fee <=? v then Ok (Some fee) else fee_asset balances w
      else fee_asset balances w
  end.

(** The fee from the balances in turn; a balance below the fee, also a negative
    one, is taken as a whole. *)
Fixpoint eat_balances (entries : list (address * Z * Z)) (required : asset) : bm bool :=
  match entries with
  | [] => nret false
  | (key, v) :: entries =>
      if negb (snd key =? asset_id required) then eat_balances entries required
      else if v <? amount required then
        _ <~ on_builder (fun b => set_bd_balances (<[key := 0]> (bd_outstanding_balances b)) b) ;;
        eat_balances entries (mk_asset (amount required -! v) (asset_id required))
      else
        _ <~ on_builder (fun b => set_bd_balances (<[key := v -! amount required]> (bd_outstanding_balances b)) b) ;;
        nret true
  end.

(** The first asset of the account that the fee is in and that it has enough of. *)
Fixpoint affordable_fee (balances : list (Z * Z)) (w : wallet) : result (option asset) :=
  match balances with
  | [] => Ok None
  | (id, v) :: balances =>
      fee <- get_transaction_fee n id w ;;
      if negb (asset_id fee =? id) then affordable_fee balances w
      else if v <? amount fee then affordable_fee balances w
      else Ok (Some fee)
  end.
Fixpoint fee_payer (entries : list (address * Z * Z)) (balances : gmap string (gmap Z Z)) (w : wallet) : result (option (address * asset)) :=
  match entries with
  | [] => Ok None
  | (key, _) :: entries =>
      account <- lookup_account (fst key) (wl_db w) ;;
      fee <- match account with
             | None => Ok None
             | Some a =>
                 match balances !! ac_name (ad_account (record_data a)) with
                 | None => Ok None
                 | Some account_balances => affordable_fee (by_asset account_balances) w
                 end
             end ;;
      match fee with Some fee => Ok (Some (fst key, fee)) | None => fee_payer entries balances w end
  end.
Definition withdraw_fee : bm bool :=
  balances <~ read_wallet (get_spendable_account_balances n "") ;;
  payer <~ nread (fun s => fee_payer (balance_entries (bd_outstanding_balances (snd s))) balances (fst s)) ;;
  match payer with
  | None => nret false
  | Some (bag_holder, fee) =>
      _ <~ deduct_balance bag_holder fee ;;
      _ <~ on_builder (set_bd_fee fee) ;;
      nret true
  end.
Definition pay_fee : bm unit :=
  required <~ nread (fun s => fee_asset (by_asset (all_positive_balances (snd s))) (fst s)) ;;
  paid <~ match required with
          | Some required_fee =>
              _ <~ on_builder (set_bd_fee required_fee) ;;
              fun s => eat_balances (balance_entries (bd_outstanding_balances (snd s))) required_fee s
          | None => withdraw_fee
          end ;;
  check (fc_assert paid).

(** What is outstanding: a deposit to a new key of the account, or withdrawals
    from its balances. *)
Definition settle (entry : address * Z * Z) : bm unit :=
  let '(account, id, v) := entry in
  found <~ read_wallet (fun w => lookup_account account (wl_db w)) ;;
  match found with
  | None => nthrow undefined_behaviour
  | Some a =>
      let account_name := ac_name (ad_account (record_data a)) in
      if 0 <? v then
        k <~ order_key_for_account account account_name ;;
        on_operations (deposit_to_address (mk_asset v id) (key_address k))
      else if v <? 0 then on_draft (withdraw_to_transaction n (mk_asset (wrap64 (- v)) id) account_name)
      else nret tt
  end.

Definition set_default_expiration (blockchain_now : time) (seconds : wallet -> result Z) : bm unit :=
  expiration <~ read_builder (fun b => Ok (tx_expiration (bd_trx b))) ;;
  if expiration =? 0 then
    secs <~ read_wallet seconds ;;
    append_operation (set_expiration (uwrap32 (blockchain_now + secs)))
  else nret tt.

Definition finalize (with_fee : bool) (strategy : vote_strategy) (blockchain_now : time) : bm unit :=
  _ <~ read_builder (fun b => fc_assert (negb (bool_decide (tx_operations (bd_trx b) = [])))) ;;
  _ <~ (if with_fee then pay_fee else nret tt) ;;
  entries <~ read_builder (fun b => Ok (balance_entries (bd_outstanding_balances b))) ;;
  _ <~ nfold (fun entry _ => settle entry) entries tt ;;
  _ <~ set_default_expiration blockchain_now get_transaction_expiration ;;
  _ <~ on_draft (set_delegate_slate n strategy) ;;
  on_builder (fun b => set_bd_record (trx_id (bd_trx b)) blockchain_now b).

(** Each signature that the wallet can give. *)
Definition try_sign (a : address) (t : signed_transaction) (w : wallet) : result signed_transaction :=
  or_catch (k <- get_private_key a w ;; Ok (sign k static_chain_id t)) (Ok t).
Definition sign_builder : bm transaction_info :=
  t <~ nread (fun s => foldM (fun a t => try_sign a t (fst s)) (elements (bd_required_signatures (snd s))) (bd_trx (snd s))) ;;
  _ <~ on_builder (fun b => set_bd_draft (set_df_trx t (bd_draft b)) b) ;;
  read_builder (fun b => Ok (transaction_record b)).
Definition is_signed (b : builder) : bool := (size (bd_required_signatures b) =? length (tx_signatures (bd_trx b)))%nat.
End builder.

(** ** The operations of a transaction *)

Definition ledger (from to : option public_key) (a : asset) (memo : string) : ledger_entry := mk_ledger_entry from to a memo None.
Definition no_asset : asset := mk_asset 0 0.
Definition empty_object : string := "{}".
(** [fc::sha256::hash] of a text. *)
Definition text_digest `{TextCodec} (s : string) : Z := of_le (sha256 (string_bytes s)).

Section operations.
Context `{Cr : Crypto} `{Kc : KeyCrypto} `{Tx : TxCrypto} `{Wh : WalletHash} `{St : Statics} `{FcI : Fc} `{Sg : Signing}.
Context `{Tc : TextCodec} `{Pn : PrettyNumber} `{We : WalletEnv}.
Variable n : node.

Definition builder_release_escrow (payer : account_record) (escrow_account released_by : address) (to_sender to_receiver : asset)
    (blockchain_now : time) : bm unit :=
  escrow <~ value_of (from_option_or assert_exception (get_balance_record (nd_db n) escrow_account)) ;;
  parties <~ value_of (match wc_data (br_condition escrow) with
                       | withdraw_with_escrow sender receiver _ _ _ => Ok (sender, receiver) | _ => Throw assert_exception end) ;;
  fee <~ read_wallet (get_transaction_fee n 0) ;;
  _ <~ on_draft (withdraw_to_transaction n fee (ac_name payer)) ;;
  _ <~ append_operation (release_escrow escrow_account released_by (amount to_sender) (amount to_receiver)) ;;
  _ <~ (if released_by =? null_address then _ <~ must_sign (fst parties) ;; must_sign (snd parties) else must_sign released_by) ;;
  _ <~ set_default_expiration blockchain_now get_transaction_expiration ;;
  on_builder (fun b => set_bd_record (trx_id (bd_trx b)) blockchain_now b).

Definition builder_register_account (name : string) (public_data : option string) (owner_key : public_key)
    (active_key : option public_key) (delegate_pay : option Z) (meta_info : option account_meta_info)
    (paying_account : option account_record) : bm unit :=
  _ <~ match paying_account with
       | Some p => deduct_balance (owner_address p) (mk_asset (get_account_registration_fee (string_size name `mod` 256)) 0)
       | None => nret tt
       end ;;
  _ <~ append_operation (register_account name (default empty_object public_data) owner_key (default owner_key active_key)
                           (default 255 delegate_pay) meta_info) ;;
  match paying_account with
  | None => nthrow undefined_behaviour
  | Some p => add_ledger_entry None (ledger (Some (ac_owner_key p)) (Some owner_key) no_asset ("Register account: " ++ name))
  end.

(** The fee for the pay rate of a delegate: from the pay of the paying account
    if it has enough, or else from its balance. *)
Definition update_pay_rate (account paying_account : account_record) (delegate_pay : Z) (signatures : gset address) : bm (gset address) :=
  _ <~ check (fc_assert (negb (is_delegate account) || (delegate_pay <=? delegate_pay_rate account))) ;;
  if (negb (is_delegate account) && (delegate_pay <=? 100))
     || (is_delegate account && negb (delegate_pay =? delegate_pay_rate account)) then
    fee_amount <~ value_of (get_delegate_registration_fee (nd_db n) delegate_pay) ;;
    let fee := mk_asset fee_amount 0 in
    pays <~ value_of (if is_delegate paying_account then b <- delegate_pay_balance paying_account ;; Ok (amount fee <=? b) else Ok false) ;;
    signatures <~ (if pays : bool then
                     _ <~ on_operations (withdraw_pay (ac_id paying_account) (amount fee)) ;;
                     k <~ value_of (active_key paying_account) ;; nret ({[ key_address k ]} ∪ signatures)
                   else _ <~ deduct_balance (owner_address paying_account) fee ;; nret signatures) ;;
    _ <~ add_ledger_entry None (ledger (Some (ac_owner_key paying_account)) (Some (ac_owner_key account)) fee
           (if is_delegate account then "Fee to update " ++ ac_name account ++ "'s delegate pay"
            else "Fee to promote " ++ ac_name account ++ " to a delegate")) ;;
    nret signatures
  else nret signatures.

Definition update_account_registration (account : account_record) (public_data : option string) (active_key : option public_key)
    (delegate_pay : option Z) (paying_account : option account_record) : bm unit :=
  _ <~ check (throw_if unknown_account (ac_registration_date account =? 0)) ;;
  _ <~ check (fc_assert (match public_data, active_key, delegate_pay with None, None, None => false | _, _, _ => true end)) ;;
  required_signatures <~ read_builder (fun b => Ok (bd_required_signatures b)) ;;
  signatures <~ read_wallet (authorize_update n required_signatures account (match active_key with Some _ => true | None => false end)) ;;
  let paying_account := default account paying_account in
  _ <~ deduct_balance (owner_address paying_account) no_asset ;;
  signatures <~ match delegate_pay with
                | Some pay => update_pay_rate account paying_account pay signatures
                | None => nret signatures
                end ;;
  _ <~ match active_key with
       | Some k =>
           registered <~ value_of (get_account_record_by_address (nd_db n) (key_address k)) ;;
           local <~ (match registered with Some _ => nret None | None => read_wallet (fun w => lookup_account (key_address k) (wl_db w)) end) ;;
           _ <~ check (throw_if key_already_registered (match registered, local with None, None => false | _, _ => true end)) ;;
           add_ledger_entry None (ledger (Some (ac_owner_key paying_account)) (Some (ac_owner_key account)) no_asset
             ("Update " ++ ac_name account ++ "'s active key"))
       | None => nret tt
       end ;;
  _ <~ append_operation (update_account (ac_id account) (default (delegate_pay_rate account) delegate_pay) public_data active_key) ;;
  _ <~ match public_data with
       | Some _ => add_ledger_entry None (ledger (Some (ac_owner_key paying_account)) (Some (ac_owner_key account)) no_asset
                     ("Update " ++ ac_name account ++ "'s public data"))
       | None => nret tt
       end ;;
  on_builder (fun b => set_bd_draft (mk_draft (bd_trx b) signatures) b).

(** *** Deposits *)

Definition positive_deposit (a : asset) : bm unit := check (throw_if invalid_asset_amount (amount a <=? 0)).
Definition notify (memo : string) (one_time : option public_key) (memo_key : private_key) (recipient : account_record) : bm unit :=
  k <~ value_of (active_key recipient) ;;
  on_builder (fun b => set_bd_notices (bd_notices b ++ [mk_notice memo one_time (sign_compact memo_key (text_digest memo)) k]) b).
Definition not_retracted (r : account_record) : bm unit :=
  retracted <~ value_of (is_retracted r) ;; check (throw_if account_retracted retracted).

Definition deposit_asset (payer recipient : account_record) (a : asset) (memo : string) (memo_sender : option string) : bm unit :=
  _ <~ not_retracted recipient ;;
  _ <~ positive_deposit a ;;
  _ <~ check (throw_if memo_too_long (MAX_EXTENDED_MEMO_SIZE <? String.length memo)%nat) ;;
  let memo_sender := default (ac_name payer) memo_sender in
  found <~ read_wallet (fun w => lookup_account_name memo_sender (wl_db w)) ;;
  memo_account <~ value_of (from_option_or assert_exception found) ;;
  let memo_account := ad_account (record_data memo_account) in
  memo_address <~ read_wallet (fun w => if wallet_has_private_key (owner_address memo_account) (wl_db w) then Ok (owner_address memo_account)
                                        else active_address memo_account) ;;
  _ <~ read_wallet (fun w => fc_assert (wallet_has_private_key memo_address (wl_db w))) ;;
  one_time_key <~ on_wallet (get_new_private_key (ac_name payer)) ;;
  memo_key <~ read_wallet (get_private_key memo_address) ;;
  recipient_key <~ value_of (active_key recipient) ;;
  _ <~ on_operations (fun t => kt <- deposit_with_encrypted_memo a memo_key recipient_key one_time_key memo (is_titan_account recipient) t ;;
                               Ok (snd kt)) ;;
  _ <~ deduct_balance (owner_address payer) a ;;
  _ <~ add_ledger_entry None (mk_ledger_entry (Some (ac_owner_key payer)) (Some recipient_key) a memo
         (if bool_decide (memo_sender = ac_name payer) then None else Some (ac_owner_key memo_account))) ;;
  notify memo (Some (get_public_key one_time_key)) memo_key recipient.

Definition deposit_asset_to_address (payer : account_record) (to_addr : address) (a : asset) (memo : string) : bm unit :=
  _ <~ positive_deposit a ;;
  _ <~ on_operations (deposit_to_address a to_addr) ;;
  _ <~ deduct_balance (owner_address payer) a ;;
  add_ledger_entry None (ledger (Some (ac_owner_key payer)) None a memo).

(** The fee is taken here and again by [finalize]. *)
Definition deposit_asset_to_multisig (a : asset) (from_name : string) (m : Z) (addresses : list address) : bm unit :=
  _ <~ positive_deposit a ;;
  found <~ read_wallet (fun w => lookup_account_name from_name (wl_db w)) ;;
  fee <~ read_wallet (get_transaction_fee n 0) ;;
  payer <~ value_of (from_option_or assert_exception found) ;;
  let payer := ad_account (record_data payer) in
  _ <~ on_operations (deposit_multisig {| ms_required := m; ms_owners := list_to_set addresses |} a) ;;
  total <~ value_of (asset_add a fee) ;;
  _ <~ deduct_balance (owner_address payer) total ;;
  add_ledger_entry None (ledger (Some (ac_owner_key payer)) None a "").

(** For an account that is not a titan account no deposit is made. *)
Definition escrow_deposit (payer recipient escrow_agent : account_record) (agreement : Z) (a : asset) (memo : string)
    (memo_sender : public_key) : bm (option public_key) :=
  if negb (is_titan_account recipient) then nret None
  else
    one_time_key <~ on_wallet (get_new_private_key (ac_name payer)) ;;
    recipient_key <~ value_of (active_key recipient) ;;
    escrow_key <~ value_of (active_key escrow_agent) ;;
    memo_key <~ read_wallet (get_private_key (key_address memo_sender)) ;;
    receiver_key <~ on_draft (fun _ => on_trx_with (deposit_to_escrow recipient_key escrow_key agreement a memo_key memo one_time_key)) ;;
    _ <~ on_wallet (on_db (store_key (mk_key_data (owner_address recipient) 0 receiver_key [] false (Some memo)))) ;;
    nret (Some (get_public_key one_time_key)).
Definition deposit_asset_with_escrow (payer recipient escrow_agent : account_record) (agreement : Z) (a : asset) (memo : string)
    (memo_sender : option public_key) : bm unit :=
  _ <~ not_retracted recipient ;;
  _ <~ not_retracted escrow_agent ;;
  _ <~ positive_deposit a ;;
  _ <~ check (throw_if memo_too_long (MAX_MEMO_SIZE <? String.length memo)%nat) ;;
  payer_key <~ value_of (active_key payer) ;;
  let memo_sender := default payer_key memo_sender in
  one_time <~ escrow_deposit payer recipient escrow_agent agreement a memo memo_sender ;;
  _ <~ deduct_balance (owner_address payer) a ;;
  _ <~ add_ledger_entry None (mk_ledger_entry (Some (ac_owner_key payer)) (Some (ac_owner_key recipient)) a memo
         (if memo_sender =? payer_key then None else Some memo_sender)) ;;
  memo_key <~ read_wallet (get_private_key (key_address memo_sender)) ;;
  notify memo one_time memo_key recipient.

(** From a balance, or from the first one the address owns; each owner has to
    sign. *)
Definition balance_to_withdraw (from : address) : result (address * balance_record) :=
  match get_balance_record (nd_db n) from with
  | Some r => Ok (from, r)
  | None =>
      match head (filter (fun r => balance_is_owner r from = true) (map snd (map_to_list (flat balance_t (nd_db n))))) with
      | Some r => Ok (balance_id r, r)
      | None => Throw assert_exception
      end
  end.
Definition withdraw_from_balance (from : address) (a : Z) : bm unit :=
  balance <~ value_of (balance_to_withdraw from) ;;
  _ <~ on_operations (withdraw (fst balance) a) ;;
  on_draft (fun _ => nwrite (fun d => mk_draft (df_trx d) (balance_owners (snd balance) ∪ df_required_signatures d))).
Definition deposit_to_balance (to : address) (a : asset) : bm unit := on_operations (deposit_to_address a to).

(** *** Orders *)

Context {order_id : market_order -> Z} {small_id : market_order -> string}.

(** The first order with the id, asks before bids. *)
Definition orders_of (type : order_type) (book : gmap market_index_key order_record) : list market_order :=
  map (fun '(k, v) => mk_market_order type k v) (map_to_list book).
Definition get_market_order (id : Z) : option market_order :=
  head (filter (fun o => order_id o = id) (orders_of ask_order (db_asks (nd_db n)) ++ orders_of bid_order (db_bids (nd_db n)))).
Definition negated (a : asset) : asset := mk_asset (wrap64 (- amount a)) (asset_id a).

Definition cancel_market_order (id : Z) : bm unit :=
  order <~ value_of (from_option_or unknown_market_order (get_market_order id)) ;;
  let owner := mi_owner (od_index order) in
  key <~ read_wallet (fun w => lookup_key owner (wl_db w)) ;;
  k <~ value_of (from_option_or private_key_not_found key) ;;
  _ <~ check (throw_unless private_key_not_found (has_private_key (record_data k))) ;;
  found <~ read_wallet (fun w => lookup_account (kd_account_address (record_data k)) (wl_db w)) ;;
  account <~ value_of (from_option_or assert_exception found) ;;
  let account := ad_account (record_data account) in
  balance <~ value_of (order_get_balance order) ;;
  _ <~ check (throw_if zero_amount (amount balance =? 0)) ;;
  let order_price := mi_order_price (od_index order) in
  _ <~ match od_type order with
       | ask_order => append_operation (ask (negated balance) order_price owner)
       | bid_order => append_operation (bid (negated balance) order_price owner)
       | null_order => nthrow invalid_cancel
       end ;;
  _ <~ credit_balance (owner_address account) balance ;;
  _ <~ on_builder (fun b => match bd_order_keys b !! owner_address account with
                            | Some _ => b
                            | None => set_bd_order_keys (<[owner_address account := kd_public_key (record_data k)]> (bd_order_keys b)) b
                            end) ;;
  _ <~ add_ledger_entry (Some "MARKET"%string) (ledger (Some (kd_public_key (record_data k))) (Some (ac_owner_key account)) balance
         ("cancel " ++ small_id order)) ;;
  must_sign owner.

Definition validate_market (quote base : Z) : result unit := throw_if invalid_market (quote <? base).
Definition get_asset_symbol (id : Z) : result string :=
  r <- from_option_or assert_exception (get_asset_record (nd_db n) id) ;; Ok (as_symbol r).
(** The memo of an order. *)
Definition order_memo (verb : string) (quote_price : price) : result string :=
  symbol <- get_asset_symbol (base_asset_id quote_price) ;;
  pretty <- to_pretty_price quote_price true (nd_db n) ;;
  Ok (verb ++ symbol ++ " @ " ++ unchars pretty)%string.
(** What bids and asks have in common, from the order's key on. *)
Definition submit_order (verb : string) (order : asset -> price -> address -> signed_transaction -> signed_transaction)
    (from_account : account_record) (cost : asset) (quote_price : price) (blockchain_now : time) : bm unit :=
  order_key <~ order_key_for_account (owner_address from_account) (ac_name from_account) ;;
  _ <~ deduct_balance (owner_address from_account) cost ;;
  _ <~ append_operation (order cost quote_price (key_address order_key)) ;;
  _ <~ set_default_expiration blockchain_now (fun _ => Ok DEFAULT_MARKET_TRANSACTION_EXPIRATION_SEC) ;;
  memo <~ value_of (order_memo verb quote_price) ;;
  _ <~ add_ledger_entry (Some "MARKET"%string) (ledger (Some (ac_owner_key from_account)) (Some order_key) cost memo) ;;
  must_sign (key_address order_key).
Definition submit_bid (from_account : account_record) (real_quantity : asset) (quote_price : price) (blockchain_now : time) : bm unit :=
  _ <~ check (validate_market (quote_asset_id quote_price) (base_asset_id quote_price)) ;;
  cost <~ value_of (if asset_id real_quantity =? quote_asset_id quote_price then Ok real_quantity
                    else c <- asset_mul_price real_quantity quote_price ;; _ <- fc_assert (asset_id c =? quote_asset_id quote_price) ;; Ok c) ;;
  submit_order "buy " bid from_account cost quote_price blockchain_now.
Definition submit_ask (from_account : account_record) (cost : asset) (quote_price : price) (blockchain_now : time) : bm unit :=
  _ <~ check (validate_market (quote_asset_id quote_price) (base_asset_id quote_price)) ;;
  _ <~ check (fc_assert (asset_id cost =? base_asset_id quote_price)) ;;
  submit_order "sell " ask from_account cost quote_price blockchain_now.

Definition builder_update_signing_key (authorizing_account_name delegate_name : string) (signing_key : public_key) : bm unit :=
  found <~ read_wallet (fun w => lookup_account_name authorizing_account_name (wl_db w)) ;;
  authorizing <~ value_of (from_option_or unknown_account found) ;;
  let authorizing := ad_account (record_data authorizing) in
  registered <~ value_of (get_account_record_by_name (nd_db n) delegate_name) ;;
  delegate <~ value_of (from_option_or unknown_account registered) ;;
  _ <~ append_operation (update_signing_key (ac_id delegate) signing_key) ;;
  _ <~ deduct_balance (owner_address authorizing) no_asset ;;
  k <~ value_of (active_key authorizing) ;;
  _ <~ add_ledger_entry None (ledger (Some k) (Some (ac_owner_key delegate)) no_asset "update block signing key") ;;
  must_sign (key_address k).
End operations.
