(* ===== verification/WalletTrx.v ===== *)
(** The transactions a wallet makes (wallet.cpp): withdrawals for the amount and
    the fee, the operation, the keys that have to sign, the entries of the
    ledger and, if wanted, the signatures.

    The result is the record of the transaction. The version of the client, the
    key of a red packet and the name of a flag are arguments; so is
    [blockchain::now()]. *)

From Stdlib Require Import String.
From S2P Require Import Prelude StateMonad Asset Names Records Keys Building ChainInterface EvalState BalanceOps Tables PendingState ChainDatabase BlockOps Node.
From S2P Require Import Storage AmountText AddressText WalletDb Wallet Spending TransactionBuilder.

(** A new record of a transaction. *)
Definition new_record (t : signed_transaction) (entries : list ledger_entry) (fee : asset) : transaction_info :=
  mk_transaction_info 0 0 false false "" t entries fee 0 0.

Section transactions.
Context `{Cr : Crypto} `{Kc : KeyCrypto} `{Tx : TxCrypto} `{Wh : WalletHash} `{St : Statics} `{FcI : Fc} `{Sg : Signing}.
Context `{Tc : TextCodec} `{Pn : PrettyNumber} `{We : WalletEnv}.
Variable n : node.
Variable blockchain_now : time.

(** ** What they have in common *)

Definition assert_open_and_unlocked : wm unit := _ <~ assert_open ;; assert_unlocked.
Definition new_draft : wm draft :=
  secs <~ nread get_transaction_expiration ;;
  nret (mk_draft (set_expiration (uwrap32 (blockchain_now + secs)) transaction_default) ∅).
Definition step (m : wallet -> draft_m unit) (d : draft) : wm draft := nread (fun w => drafting (m w) d).
Definition add_operation (f : signed_transaction -> signed_transaction) (d : draft) : draft := set_df_trx (f (df_trx d)) d.
Definition add_checked (f : signed_transaction -> result signed_transaction) : draft -> wm draft := step (fun _ => on_trx f).
Definition signed_by (a : address) (d : draft) : draft := require_signature a d.
Definition signed_by_all (l : gset address) (d : draft) : draft := mk_draft (df_trx d) (l ∪ df_required_signatures d).
(** Signed if wanted. *)
Definition complete (with_signatures : bool) (entries : list ledger_entry) (fee : asset) (d : draft) : wm transaction_info :=
  t <~ (if with_signatures then nread (sign_transaction (df_trx d) (df_required_signatures d)) else nret (df_trx d)) ;;
  nret (new_record t entries fee).

(** The amount and the fee, together if they are of one asset. *)
Definition withdraw_with_fee (a fee : asset) (account_name : string) (w : wallet) : draft_m unit :=
  if asset_id fee =? asset_id a then
    total <~ nread (fun _ => asset_add a fee) ;; withdraw_to_transaction n total account_name w
  else
    _ <~ withdraw_to_transaction n a account_name w ;; withdraw_to_transaction n fee account_name w.
Definition known_account (name : string) : wm account_record :=
  found <~ lift (get_account_record_by_name (nd_db n) name) ;; lift (from_option_or assert_exception found).
Definition wallet_account (e : exception) (name : string) : wm account_record :=
  found <~ read_db (lookup_account_name name) ;; r <~ lift (from_option_or e found) ;; nret (ad_account (record_data r)).
Definition account_not_retracted (r : account_record) : result unit :=
  retracted <- is_retracted r ;; throw_if account_retracted retracted.

(** ** Transfers *)

Definition transfer (a : asset) (sender_account_name generic_recipient memo : string) (strategy : vote_strategy) (with_signatures : bool)
    : wm transaction_info :=
  _ <~ open_and_unlocked ;;
  sender_account <~ wallet_account unknown_wallet_account sender_account_name ;;
  recipient <~ nread (generic_recipient_to_contact n generic_recipient) ;;
  d <~ new_draft ;;
  required_fees <~ nread (get_transaction_fee n (asset_id a)) ;;
  d <~ step (withdraw_with_fee a required_fees (ac_name sender_account)) d ;;
  kt <~ deposit_from_transaction n a sender_account recipient memo (df_trx d) ;;
  d <~ step (set_delegate_slate n strategy) (set_df_trx (snd kt) d) ;;
  complete with_signatures [ledger (Some (ac_owner_key sender_account)) (Some (fst kt)) a memo] required_fees d.

(** ** Accounts *)

(** The first parent whose active or owner key the wallet can sign with. *)
Definition parent_key (parent_name : string) : wm (option address) :=
  ncatch
    (parent <~ get_account n parent_name ;;
     let parent := ad_account parent in
     retracted <~ lift (is_retracted parent) ;;
     if retracted : bool then nret None
     else
       active <~ lift (active_address parent) ;;
       nread (fun w => Ok (if wallet_has_private_key active (wl_db w) then Some active
                           else if wallet_has_private_key (owner_address parent) (wl_db w) then Some (owner_address parent) else None)))
    (fun _ => nret None).
Fixpoint parents_key (fuel : nat) (parent_name : option string) : wm (option address) :=
  match fuel, parent_name with
  | S fuel, Some name =>
      found <~ parent_key name ;;
      match found with Some _ => nret found | None => parents_key fuel (get_parent_account_name name) end
  | _, _ => nret None
  end.
Definition authorize_child (account_to_register : string) (d : draft) : wm draft :=
  match get_parent_account_name account_to_register with
  | None => nret d
  | Some parent_name =>
      found <~ parents_key (String.length account_to_register) (Some parent_name) ;;
      match found with Some a => nret (signed_by a d) | None => nthrow unauthorized_child_account end
  end.
Definition registration_fees (name : string) (delegate_pay_rate : Z) (w : wallet) : result asset :=
  fee <- get_transaction_fee n 0 w ;;
  fee <- asset_add fee (mk_asset (get_account_registration_fee (string_size name `mod` 256)) 0) ;;
  if delegate_pay_rate <=? 100 then
    delegate_fee <- get_delegate_registration_fee (nd_db n) delegate_pay_rate ;; asset_add fee (mk_asset delegate_fee 0)
  else Ok fee.
Definition new_name (account_to_register : string) : wm unit :=
  _ <~ lift (throw_unless invalid_name (is_valid_account_name account_to_register)) ;;
  valid_address <~ lift (address_is_valid account_to_register ADDRESS_PREFIX) ;;
  _ <~ lift (throw_if invalid_name valid_address) ;;
  _ <~ assert_open_and_unlocked ;;
  registered <~ lift (get_account_record_by_name (nd_db n) account_to_register) ;;
  lift (throw_if duplicate_account_name (match registered with Some _ => true | None => false end)).

(** From the operation with the keys on. *)
Definition register_with_keys (account_to_register public_data : string) (delegate_pay_rate : Z) (pay_with_account_name : string)
    (new_account_type : account_type) (with_signatures : bool) (payer_key account_key : public_key) (owner active : public_key) (d : draft)
    : wm transaction_info :=
  let meta_info := {| am_type := new_account_type; am_data := [] |} in
  let pay := if delegate_pay_rate <=? 100 then delegate_pay_rate else 255 in
  let d := add_operation (register_account account_to_register public_data owner active pay (Some meta_info)) d in
  d <~ authorize_child account_to_register d ;;
  required_fees <~ nread (registration_fees account_to_register delegate_pay_rate) ;;
  d <~ step (withdraw_to_transaction n required_fees pay_with_account_name) d ;;
  complete with_signatures
    [ledger (Some payer_key) (Some account_key) no_asset
       ("register " ++ account_to_register ++ (if delegate_pay_rate <=? 100 then " as a delegate" else ""))] required_fees d.
(** The keys of the account in the wallet, or its owner key for both. *)
Definition wallet_register_account (account_to_register public_data : string) (delegate_pay_rate : Z) (pay_with_account_name : string)
    (new_account_type : account_type) (with_signatures : bool) : wm transaction_info :=
  _ <~ new_name account_to_register ;;
  payer_key <~ nread (get_owner_public_key n pay_with_account_name) ;;
  account_key <~ nread (get_owner_public_key n account_to_register) ;;
  d <~ new_draft ;;
  keys <~ ncatch (local <~ get_account n account_to_register ;;
                  active <~ lift (active_key (ad_account local)) ;; nret (ac_owner_key (ad_account local), active))
                 (fun _ => nret (account_key, account_key)) ;;
  register_with_keys account_to_register public_data delegate_pay_rate pay_with_account_name new_account_type with_signatures
    payer_key account_key (fst keys) (snd keys) d.
Definition register_account_with_key (account_to_register : string) (account_key : public_key) (public_data : string) (delegate_pay_rate : Z)
    (pay_with_account_name : string) (new_account_type : account_type) (with_signatures : bool) : wm transaction_info :=
  _ <~ new_name account_to_register ;;
  payer_key <~ nread (get_owner_public_key n pay_with_account_name) ;;
  d <~ new_draft ;;
  register_with_keys account_to_register public_data delegate_pay_rate pay_with_account_name new_account_type with_signatures
    payer_key account_key account_key account_key d.

(** A transaction made with a builder. *)
Definition with_builder {A} (m : bm A) : wm A := fun w => let '(s, r) := m (w, builder_empty) in (fst s, r).
Definition build (with_signatures : bool) (m : bm unit) : wm transaction_info :=
  with_builder (_ <~ m ;; _ <~ finalize n true vote_none blockchain_now ;;
                if with_signatures then sign_builder else read_builder (fun b => Ok (transaction_record b))).
Definition paying_account (pay_from_account : string) : wm (option account_record) :=
  if bool_decide (pay_from_account = ""%string) then nret None
  else payer <~ get_account n pay_from_account ;; nret (Some (ad_account payer)).

Definition update_registered_account (account_to_update pay_from_account : string) (public_data : option string) (delegate_pay_rate : Z)
    (with_signatures : bool) : wm transaction_info :=
  _ <~ assert_unlocked ;;
  account <~ get_account n account_to_update ;;
  payer <~ paying_account pay_from_account ;;
  let pay := if delegate_pay_rate <=? 100 then Some delegate_pay_rate else None in
  build with_signatures (update_account_registration n (ad_account account) public_data None pay payer).
(** The new key is generated, or imported if it could be read. *)
Definition wallet_update_active_key (account_to_update pay_from_account : string) (new_active_key : option (option private_key))
    (with_signatures : bool) : wm transaction_info :=
  _ <~ open_and_unlocked ;;
  account <~ get_account n account_to_update ;;
  payer <~ paying_account pay_from_account ;;
  new_public_key <~ match new_active_key with
                    | None =>
                        k <~ (fun w => on_db (generate_new_account_child_key (wl_password w) account_to_update owner_key_type) w) ;;
                        nret (get_public_key k)
                    | Some k =>
                        k <~ lift (from_option_or assert_exception k) ;;
                        import_private_key n k (Some account_to_update) false blockchain_now
                    end ;;
  r <~ with_builder (_ <~ update_account_registration n (ad_account account) None (Some new_public_key) None payer ;;
                     _ <~ finalize n true vote_none blockchain_now ;;
                     if with_signatures then _ <~ on_wallet set_dirty_accounts ;; sign_builder
                     else read_builder (fun b => Ok (transaction_record b))) ;;
  nret r.
Definition retract_account (account_to_retract pay_from_account : string) (with_signatures : bool) : wm transaction_info :=
  _ <~ assert_unlocked ;;
  account <~ get_account n account_to_retract ;;
  payer <~ paying_account pay_from_account ;;
  build with_signatures (update_account_registration n (ad_account account) None (Some null_key) None payer).
Definition wallet_update_signing_key (authorizing_account_name delegate_name : string) (signing_key : public_key) (with_signatures : bool)
    : wm transaction_info :=
  _ <~ open_and_unlocked ;;
  with_builder (_ <~ builder_update_signing_key n authorizing_account_name delegate_name signing_key ;;
                _ <~ finalize n true vote_none blockchain_now ;;
                if with_signatures then _ <~ on_wallet set_dirty_accounts ;; sign_builder
                else read_builder (fun b => Ok (transaction_record b))).

(** ** Burning, ads and red packets *)

Definition message_digest (message : string) : Z := if bool_decide (message = ""%string) then 0 else text_digest message.

Definition burn_asset (a : asset) (paying_account_name for_or_against to_account_name public_message : string)
    (anonymous with_signatures : bool) : wm transaction_info :=
  _ <~ assert_open_and_unlocked ;;
  sender_key <~ nread (get_active_private_key paying_account_name) ;;
  d <~ new_draft ;;
  required_fees <~ nread (get_transaction_fee n (asset_id a)) ;;
  d <~ step (withdraw_with_fee a required_fees paying_account_name) d ;;
  let message_sig := if anonymous then None else Some (sign_compact sender_key (message_digest public_message)) in
  to_account <~ known_account to_account_name ;;
  _ <~ lift (account_not_retracted to_account) ;;
  for_or_against <~ (if bool_decide (for_or_against = "against"%string) then nret (- ac_id to_account)
                     else _ <~ lift (fc_assert (bool_decide (for_or_against = "for"%string))) ;; nret (ac_id to_account)) ;;
  d <~ add_checked (burn a for_or_against public_message message_sig) d ;;
  let memo := if bool_decide (public_message = ""%string) then "burn"%string else ("burn: " ++ public_message)%string in
  complete with_signatures [ledger (Some (get_public_key sender_key)) None a memo] required_fees d.

(** The account signs with its owner key. *)
Definition signing_account (name : string) (d : draft) : wm (account_record * draft) :=
  account <~ known_account name ;;
  _ <~ lift (account_not_retracted account) ;;
  nret (account, signed_by (owner_address account) d).

Definition wallet_buy_ad (a : asset) (publisher_account_name owner_account_name public_message : string) (with_signatures : bool)
    : wm transaction_info :=
  _ <~ assert_open_and_unlocked ;;
  sender_key <~ nread (get_active_private_key publisher_account_name) ;;
  d <~ new_draft ;;
  required_fees <~ nread (get_transaction_fee n 0) ;;
  d <~ step (withdraw_with_fee a required_fees publisher_account_name) d ;;
  publisher <~ signing_account publisher_account_name d ;; let '(publisher, d) := publisher in
  owner <~ known_account owner_account_name ;;
  _ <~ lift (account_not_retracted owner) ;;
  let message_sig := sign_compact sender_key (message_digest public_message) in
  d <~ add_checked (buy_ad a (ac_id owner) (ac_id publisher) public_message (Some message_sig)) d ;;
  owner_key <~ lift (active_key owner) ;;
  let memo := if bool_decide (public_message = ""%string) then "buy ad:"%string else ("buy ad:: " ++ public_message)%string in
  complete with_signatures [ledger (Some (get_public_key sender_key)) (Some owner_key) a memo] required_fees d.

(** [packet_key] is the key of the id and the password. *)
Definition create_red_packet (a : asset) (from_account_name message : string) (random_id : Z) (packet_key : private_key) (count renpin : Z)
    (with_signatures : bool) : wm transaction_info :=
  _ <~ assert_open_and_unlocked ;;
  sender_key <~ nread (get_active_private_key from_account_name) ;;
  d <~ new_draft ;;
  fee <~ nread (get_transaction_fee n 0) ;;
  required_fees <~ lift (asset_add fee (mk_asset MIN_RED_PACKET_FEE 0)) ;;
  d <~ step (withdraw_with_fee a required_fees from_account_name) d ;;
  from <~ signing_account from_account_name d ;; let '(from, d) := from in
  let d := add_operation (red_packet random_id a (ac_id from) message (get_public_key packet_key) count renpin) d in
  complete with_signatures [ledger (Some (get_public_key sender_key)) None a ("Red Packet: " ++ message)] required_fees d.

(** The first signature is that of the packet's key. *)
Definition claim_red_packet (id : Z) (id_text to_account_name : string) (packet_key : private_key) (with_signatures : bool)
    : wm transaction_info :=
  _ <~ assert_open_and_unlocked ;;
  sender_key <~ nread (get_active_private_key to_account_name) ;;
  d <~ new_draft ;;
  packet <~ lift (from_option_or assert_exception (get_packet_record (nd_db n) id)) ;;
  _ <~ lift (fc_assert (negb (is_unclaimed_empty packet))) ;;
  required_fees <~ nread (get_transaction_fee n 0) ;;
  d <~ step (withdraw_to_transaction n required_fees to_account_name) d ;;
  to <~ signing_account to_account_name d ;; let '(to, d) := to in
  let d := add_operation (claim_packet id (ac_id to)) d in
  let d := if with_signatures then add_operation (sign packet_key static_chain_id) d else d in
  complete with_signatures [ledger (Some (get_public_key sender_key)) None required_fees ("Claim Packet: " ++ id_text)] required_fees d.

(** ** Pay and balances *)

Definition withdraw_delegate_pay (delegate_name : string) (a : asset) (withdraw_to_account_name : string) (with_signatures : bool)
    : wm transaction_info :=
  _ <~ assert_open_and_unlocked ;;
  delegate <~ known_account delegate_name ;;
  _ <~ lift (fc_assert (is_delegate delegate)) ;;
  required_fees <~ nread (get_transaction_fee n 0) ;;
  d <~ new_draft ;;
  active <~ lift (active_address delegate) ;;
  key <~ read_db (lookup_key active) ;;
  key <~ lift (from_option_or assert_exception key) ;;
  _ <~ lift (fc_assert (has_private_key (record_data key))) ;;
  delegate_key <~ nread (fun w => decrypt_private_key (wl_password w) (record_data key)) ;;
  let d := signed_by (key_address (get_public_key delegate_key)) d in
  receiver <~ get_account n withdraw_to_account_name ;;
  let receiver := ad_account receiver in
  d <~ add_checked (withdraw_pay (ac_id delegate) (amount a)) d ;;
  rest <~ lift (asset_sub a required_fees) ;;
  receiver_key <~ lift (active_key receiver) ;;
  one_time <~ get_new_private_key delegate_name ;;
  d <~ add_checked (fun t => kt <- deposit_with_encrypted_memo rest delegate_key receiver_key one_time "withdraw pay"
                               (is_titan_account receiver) t ;; Ok (snd kt)) d ;;
  complete with_signatures [ledger (Some (get_public_key delegate_key)) (Some receiver_key) rest "withdraw pay"] required_fees d.

(** The wanted balances of the account, as scanned. *)
Definition collected (wanted : balance_record -> bool) (account_name : string) (record : balance_record) (w : wallet) : result bool :=
  if negb (wanted record) then Ok false
  else
    balance <- get_spendable_balance record (now n tt) ;;
    if amount balance =? 0 then Ok false
    else
      match balance_owner record with
      | None => Ok false
      | Some owner =>
          key <- lookup_key owner (wl_db w) ;;
          match key with
          | Some k =>
              if has_private_key (record_data k) then
                account <- lookup_account (kd_account_address (record_data k)) (wl_db w) ;;
                Ok (match account with Some a => bool_decide (ac_name (ad_account (record_data a)) = account_name) | None => false end)
              else Ok false
          | None => Ok false
          end
      end.
Definition collected_records (wanted : balance_record -> bool) (account_name : string) (w : wallet) : result (list balance_record) :=
  foldM (fun r l => c <- collected wanted account_name r w ;; Ok (if c : bool then l ++ [r] else l)) (map snd (map_to_list (wl_balances w))) [].
Fixpoint withdraw_all (records : list balance_record) (total : asset) (d : draft) : result (asset * draft) :=
  match records with
  | [] => Ok (total, d)
  | record :: records =>
      balance <- get_spendable_balance record (now n tt) ;;
      t <- withdraw (balance_id record) (amount balance) (df_trx d) ;;
      let d := set_df_trx t d in
      match balance_owner record with
      | None => withdraw_all records total d
      | Some owner =>
          total <- asset_add total balance ;;
          withdraw_all records total (require_signature owner d)
      end
  end.
Definition collect_account_balances (account_name : string) (wanted : balance_record -> bool) (memo_message : string) (with_signatures : bool)
    : wm transaction_info :=
  _ <~ open_and_unlocked ;;
  account <~ wallet_account unknown_wallet_account account_name ;;
  records <~ nread (collected_records wanted account_name) ;;
  _ <~ lift (throw_if insufficient_funds (bool_decide (records = []))) ;;
  d <~ new_draft ;;
  td <~ lift (withdraw_all records no_asset d) ;; let '(total_balance, d) := td in
  fee <~ nread (get_transaction_fee n 0) ;;
  rest <~ lift (asset_sub total_balance fee) ;;
  active <~ lift (active_key account) ;;
  sender_key <~ nread (get_private_key (key_address active)) ;;
  one_time <~ get_new_private_key account_name ;;
  d <~ add_checked (fun t => kt <- deposit_with_encrypted_memo rest sender_key active one_time memo_message (is_titan_account account) t ;;
                             Ok (snd kt)) d ;;
  complete with_signatures [ledger (Some (ac_owner_key account)) (Some (ac_owner_key account)) rest memo_message] fee d.

(** What a builder holds for a change of the votes of a balance. *)
Definition set_vote_info (balance_id : address) (voter_address : address) (strategy : vote_strategy) : wm builder :=
  _ <~ assert_open_and_unlocked ;;
  required_fees <~ nread (get_transaction_fee n 0) ;;
  balance <~ lift (from_option_or assert_exception (get_balance_record (nd_db n) balance_id)) ;;
  d <~ new_draft ;;
  d <~ step (set_delegate_slate n strategy) (add_operation (update_balance_vote balance_id (Some voter_address)) d) ;;
  signer <~ lift (if bool_decide (br_restricted_owner balance = Some voter_address) then Ok voter_address
                  else from_option_or assert_exception (balance_owner balance)) ;;
  nret (set_bd_fee required_fees (set_bd_ledger "" [ledger None None no_asset "Set balance vote info"]
          (set_bd_draft (signed_by signer d) builder_empty))).

(** ** Publishing *)

(** The fee of a delegate is taken from its pay if that is above the fee. *)
Definition pay_of_delegate (account : account_record) (required_fees : asset) : result bool :=
  if is_delegate account then pay <- delegate_pay_balance account ;; Ok (amount required_fees <? pay) else Ok false.

(** A feed of the price; an account that is not a delegate is not accepted. *)
Definition publish_feed_values (account_name : string) (values : result (list (Z * price))) (memo : result string) (with_signatures : bool)
    : wm transaction_info :=
  d <~ new_draft ;;
  account <~ known_account account_name ;;
  payer_key <~ nread (get_owner_public_key n account_name) ;;
  values <~ lift values ;;
  let d := add_operation (fun t => foldl (fun t '(id, p) => publish_feed id (ac_id account) (Some p) t) t values) d in
  required_fees <~ nread (get_transaction_fee n 0) ;;
  pay <~ lift (delegate_pay_balance account) ;;
  d <~ (if amount required_fees <? pay then add_checked (withdraw_pay (ac_id account) (amount required_fees)) d
        else step (withdraw_to_transaction n required_fees account_name) d) ;;
  active <~ lift (active_address account) ;;
  memo <~ lift memo ;;
  complete with_signatures [ledger (Some payer_key) (Some payer_key) no_asset memo] required_fees (signed_by active d).
Definition publish_price (account_to_publish_under : string) (new_price : price) (with_signatures : bool) : wm transaction_info :=
  _ <~ assert_open_and_unlocked ;;
  publish_feed_values account_to_publish_under (Ok [(quote_asset_id new_price, new_price)])
    (text <- to_pretty_price new_price true (nd_db n) ;; Ok ("publish price " ++ unchars text)%string) with_signatures.
(** The prices as they are written, by symbol, in the order of the symbols. *)
Definition feed_values (amount_per_xts : list (string * string)) : result (list (Z * price)) :=
  base <- from_option_or assert_exception (get_asset_record (nd_db n) 0) ;;
  foldM (fun '(symbol, text) l =>
           p <- to_ugly_price (chars text) (as_symbol base) symbol true (nd_db n) ;;
           record <- get_asset_record_by_symbol (nd_db n) symbol ;;
           r <- from_option_or assert_exception record ;;
           Ok (l ++ [(as_id r, p)])) amount_per_xts [].
Definition publish_feeds (account_to_publish_under : string) (amount_per_xts : list (string * string)) (with_signatures : bool)
    : wm transaction_info :=
  _ <~ assert_open_and_unlocked ;;
  publish_feed_values account_to_publish_under (feed_values amount_per_xts) (Ok "publish price feeds"%string) with_signatures.

(** The public data of the account with a new member. *)
Definition publish_data (account : account_record) (public_data memo paying_account : string) (payer_key : public_key)
    (with_signatures : bool) (d : draft) : wm transaction_info :=
  let d := add_operation (update_account (ac_id account) (delegate_pay_rate account) (Some public_data) None) d in
  signatures <~ nread (authorize_update n (df_required_signatures d) account false) ;;
  let d := mk_draft (df_trx d) signatures in
  required_fees <~ nread (get_transaction_fee n 0) ;;
  from_pay <~ lift (pay_of_delegate account required_fees) ;;
  d <~ (if from_pay : bool then
          d <~ add_checked (withdraw_pay (ac_id account) (amount required_fees)) d ;;
          active <~ lift (active_address account) ;; nret (signed_by active d)
        else step (withdraw_to_transaction n required_fees paying_account) d) ;;
  complete with_signatures [ledger (Some payer_key) (Some payer_key) no_asset memo] required_fees d.
Definition publishing_account (account_to_publish_under account_to_pay_with : string) : wm (string * account_record) :=
  _ <~ assert_open_and_unlocked ;;
  registered <~ lift (get_account_record_by_name (nd_db n) account_to_publish_under) ;;
  account <~ lift (from_option_or unknown_account registered) ;;
  nret (if bool_decide (account_to_pay_with = ""%string) then account_to_publish_under else account_to_pay_with, account).
Definition publish_slate (account_to_publish_under account_to_pay_with : string) (with_signatures : bool) : wm transaction_info :=
  pa <~ publishing_account account_to_publish_under account_to_pay_with ;; let '(paying, account) := pa in
  d <~ new_draft ;;
  payer_key <~ nread (get_owner_public_key n paying) ;;
  slate <~ nread (get_delegate_slate n vote_all) ;;
  d <~ step (set_delegate_slate n vote_all) d ;;
  _ <~ lift (throw_if invalid_slate (slate_id slate =? 0)) ;;
  publish_data account (with_slate_id (ac_public_data account) (slate_id slate))
    ("publish slate " ++ unchars (decimal (slate_id slate))) paying payer_key with_signatures d.
Definition publish_version (account_to_publish_under account_to_pay_with client_version : string) (with_signatures : bool) : wm transaction_info :=
  pa <~ publishing_account account_to_publish_under account_to_pay_with ;; let '(paying, account) := pa in
  d <~ new_draft ;;
  payer_key <~ nread (get_owner_public_key n paying) ;;
  publish_data account (with_version (ac_public_data account) client_version) ("publish version " ++ client_version) paying payer_key
    with_signatures d.

(** ** Assets *)

Definition asset_register (responsible_account_name symbol name description : string) (max_supply precision initial_supply initial_collateral : Z)
    (issued_type : Z) (issuer_id : Z) (with_signatures : bool) : wm transaction_info :=
  _ <~ open_and_unlocked ;;
  account <~ wallet_account unknown_wallet_account responsible_account_name ;;
  d <~ new_draft ;;
  required_fees <~ lift (asset_add (mk_asset (get_asset_registration_fee (string_size symbol `mod` 256)) 0) (mk_asset initial_collateral 0)) ;;
  d <~ step (withdraw_to_transaction n required_fees responsible_account_name) d ;;
  let d := add_operation (create_asset symbol name description issued_type issuer_id max_supply precision initial_supply initial_collateral) d in
  active <~ lift (active_address account) ;;
  let d := signed_by active d in
  d <~ (if (0 <? initial_supply) && (issued_type =? game_issuer_id) then
          last <~ lift (last_asset_id (nd_db n)) ;;
          recipient <~ nread (generic_recipient_to_contact n responsible_account_name) ;;
          kt <~ deposit_from_transaction n (mk_asset initial_supply (last + 1)) account recipient "initial supply" (df_trx d) ;;
          nret (set_df_trx (snd kt) d)
        else nret d) ;;
  complete with_signatures [ledger (Some (ac_owner_key account)) (Some (ac_owner_key account)) no_asset
                              ("create " ++ symbol ++ " (" ++ name ++ ")")] required_fees d.

Definition uia_issue_or_collect_fees (issue_new : bool) (a : asset) (generic_recipient memo : string) (with_signatures : bool) : wm transaction_info :=
  _ <~ open_and_unlocked ;;
  recipient <~ nread (generic_recipient_to_contact n generic_recipient) ;;
  d <~ new_draft ;;
  required_fees <~ nread (get_transaction_fee n 0) ;;
  record <~ lift (from_option_or assert_exception (get_asset_record (nd_db n) (asset_id a))) ;;
  _ <~ lift (fc_assert (is_user_issued record)) ;;
  issuer <~ read_db (lookup_account_id (as_issuer_id record)) ;;
  issuer <~ lift (from_option_or issuer_not_found issuer) ;;
  let issuer := ad_account (record_data issuer) in
  d <~ step (withdraw_to_transaction n required_fees (ac_name issuer)) d ;;
  let d := add_operation (if issue_new then uia_issue a else uia_withdraw_fees a) d in
  let d := signed_by_all (ms_owners (as_authority record)) d in
  kt <~ deposit_from_transaction n a issuer recipient memo (df_trx d) ;;
  complete with_signatures [ledger (Some (ac_owner_key issuer)) (Some (fst kt)) a memo] required_fees (set_df_trx (snd kt) d).

(** A change of an asset, with the signatures of its authority; the account of
    the payer is looked for last. *)
Definition change_asset (paying_account asset_symbol : string) (change : asset_record -> signed_transaction -> signed_transaction)
    (memo : asset_record -> string) (with_signatures : bool) : wm transaction_info :=
  _ <~ open_and_unlocked ;;
  found <~ lift (get_asset_record_by_symbol (nd_db n) asset_symbol) ;;
  record <~ lift (from_option_or assert_exception found) ;;
  d <~ new_draft ;;
  required_fees <~ nread (get_transaction_fee n 0) ;;
  d <~ step (withdraw_to_transaction n required_fees paying_account) d ;;
  let d := signed_by_all (ms_owners (as_authority record)) (add_operation (change record) d) in
  t <~ (if with_signatures then nread (sign_transaction (df_trx d) (df_required_signatures d)) else nret (df_trx d)) ;;
  payer <~ wallet_account assert_exception paying_account ;;
  nret (new_record t [ledger (Some (ac_owner_key payer)) None no_asset (memo record)] required_fees).
Definition uia_update_properties (paying_account asset_symbol : string) (update_op : asset_update_properties_operation) (with_signatures : bool)
    : wm transaction_info :=
  change_asset paying_account asset_symbol (fun _ => emplace_back (op_asset_update_properties update_op))
    (fun r => "update properties for " ++ as_symbol r)%string with_signatures.
Definition uia_update_permission_or_flag (paying_account asset_symbol : string) (flag : Z) (flag_name : string)
    (add_instead_of_remove update_authority_permission with_signatures : bool) : wm transaction_info :=
  let flags (old : Z) := if add_instead_of_remove then Z.lor old flag else Z.land old (uwrap32 (Z.lnot flag)) in
  change_asset paying_account asset_symbol
    (fun r => if update_authority_permission then uia_update_authority_flag_permissions (as_id r) (flags (as_authority_flag_permissions r))
              else uia_update_active_flags (as_id r) (flags (as_active_flags r)))
    (fun r => (if add_instead_of_remove then "add " ++ flag_name ++ " to" else "remove " ++ flag_name ++ " from")
              ++ (if add_instead_of_remove then " authority perms" else " active flags") ++ "for " ++ as_symbol r)%string with_signatures.
Definition uia_update_whitelist (paying_account asset_symbol : string) (addr : address) (add_to_whitelist with_signatures : bool)
    : wm transaction_info :=
  change_asset paying_account asset_symbol
    (fun r => if add_to_whitelist then uia_add_to_whitelist (as_id r) addr else uia_remove_from_whitelist (as_id r) addr)
    (fun r => (if add_to_whitelist then "add " ++ address_to_string addr ++ " to" else "remove " ++ address_to_string addr ++ " from")
              ++ "whitelist for " ++ as_symbol r)%string with_signatures.

(** A deposit for each address, in the order of the texts, then what they add
    up to is issued. *)
Fixpoint deposit_all (addresses : list (string * Z)) (id : Z) (shares : asset) (t : signed_transaction) : result (asset * signed_transaction) :=
  match addresses with
  | [] => Ok (shares, t)
  | (text, v) :: addresses =>
      addr <- address_of_string text ;;
      t <- deposit_to_address (mk_asset v id) addr t ;;
      shares <- asset_add shares (mk_asset v id) ;;
      deposit_all addresses id shares t
  end.
Definition uia_issue_to_many (symbol : string) (addresses : list (string * Z)) : wm transaction_info :=
  _ <~ assert_open_and_unlocked ;;
  known <~ lift (get_asset_record_by_symbol (nd_db n) symbol) ;;
  _ <~ lift (from_option_or assert_exception known) ;;
  d <~ new_draft ;;
  required_fees <~ nread (get_transaction_fee n 0) ;;
  found <~ lift (get_asset_record_by_symbol (nd_db n) symbol) ;;
  record <~ lift (from_option_or assert_exception found) ;;
  _ <~ lift (fc_assert (is_user_issued record)) ;;
  issuer_account <~ lift (from_option_or assert_exception (get_account_record (nd_db n) (as_issuer_id record))) ;;
  st <~ lift (deposit_all addresses (as_id record) (mk_asset 0 (as_id record)) (df_trx d)) ;; let '(shares_to_issue, t) := st in
  d <~ step (withdraw_to_transaction n required_fees (ac_name issuer_account)) (set_df_trx t d) ;;
  let d := signed_by_all (ms_owners (as_authority record)) (add_operation (uia_issue shares_to_issue) d) in
  found <~ read_db (lookup_account_id (as_issuer_id record)) ;;
  issuer <~ lift (from_option_or assert_exception found) ;;
  let issuer := ad_account (record_data issuer) in
  key <~ read_db (lookup_key (owner_address issuer)) ;;
  _ <~ lift (fc_assert (has_private key)) ;;
  active <~ lift (active_key issuer) ;;
  complete true [ledger (Some active) None shares_to_issue "issue to many addresses"] required_fees d.
End transactions.
