(* ===== verification/Ledger.v ===== *)
(** The ledger of the wallet (transaction_ledger.cpp): what the operations of a
    block mean for the keys of the wallet, as entries of the record of each
    transaction; and the scan of the blocks (wallet.cpp).

    A record under construction is passed from one operation to the next; an
    exception loses it, but not what was stored before. The keys are tried one
    after the other, where the code tries them in threads and takes the first
    that decrypts. Transactions and their operations are read from the chain;
    market transactions, rewards and the snapshots of balances, which the chain
    keeps for reports, are arguments. *)

From Stdlib Require Import String.
From S2P Require Import Prelude StateMonad Asset Names Records Keys Building ChainInterface EvalState BalanceOps Tables PendingState ChainDatabase Market BlockOps Node.
From S2P Require Import Storage AmountText AddressText WalletDb Wallet Spending.

(** ** Entries *)

Definition entry_default : ledger_entry := mk_ledger_entry None None (mk_asset 0 0) "" None.
Definition set_le_from (k : public_key) (e : ledger_entry) : ledger_entry :=
  mk_ledger_entry (Some k) (le_to_account e) (le_amount e) (le_memo e) (le_memo_from_account e).
Definition set_le_to (k : public_key) (e : ledger_entry) : ledger_entry :=
  mk_ledger_entry (le_from_account e) (Some k) (le_amount e) (le_memo e) (le_memo_from_account e).
Definition set_le_amount (a : asset) (e : ledger_entry) : ledger_entry :=
  mk_ledger_entry (le_from_account e) (le_to_account e) a (le_memo e) (le_memo_from_account e).
Definition set_le_memo (memo : string) (e : ledger_entry) : ledger_entry :=
  mk_ledger_entry (le_from_account e) (le_to_account e) (le_amount e) memo (le_memo_from_account e).

Definition set_ti_entries (l : list ledger_entry) (t : transaction_info) : transaction_info :=
  mk_transaction_info (ti_record_id t) (ti_block_num t) (ti_is_virtual t) (ti_is_confirmed t) (ti_contract t) (ti_trx t) l (ti_fee t)
    (ti_created_time t) (ti_received_time t).
Definition set_ti_fee (a : asset) (t : transaction_info) : transaction_info :=
  mk_transaction_info (ti_record_id t) (ti_block_num t) (ti_is_virtual t) (ti_is_confirmed t) (ti_contract t) (ti_trx t)
    (ti_ledger_entries t) a (ti_created_time t) (ti_received_time t).
Definition set_ti_confirmed (block_num : Z) (t : transaction_info) : transaction_info :=
  mk_transaction_info (ti_record_id t) block_num (ti_is_virtual t) true (ti_contract t) (ti_trx t) (ti_ledger_entries t) (ti_fee t)
    (ti_created_time t) (ti_received_time t).

(** A loop over the entries that ends with the first it takes; [None] when it
    takes none. *)
Fixpoint change_first (f : ledger_entry -> result (option ledger_entry)) (l : list ledger_entry) : result (option (list ledger_entry)) :=
  match l with
  | [] => Ok None
  | e :: l =>
      changed <- f e ;;
      match changed with
      | Some e => Ok (Some (e :: l))
      | None => rest <- change_first f l ;; Ok (rest' ← rest; Some (e :: rest'))
      end
  end.
(** With a new entry at the end when it takes none. *)
Definition change_or_add (f : ledger_entry -> result (option ledger_entry)) (new : ledger_entry) (l : list ledger_entry) : result (list ledger_entry) :=
  changed <- change_first f l ;; Ok (match changed with Some l => l | None => l ++ [new] end).
Definition change_if_any (f : ledger_entry -> result (option ledger_entry)) (l : list ledger_entry) : result (list ledger_entry) :=
  changed <- change_first f l ;; Ok (match changed with Some l => l | None => l end).
(** The only entry. *)
Definition with_single (f : ledger_entry -> ledger_entry) (t : transaction_info) : transaction_info :=
  match ti_ledger_entries t with [e] => set_ti_entries [f e] t | _ => t end.

(** The record, the fee so far and the key of the last withdrawal. *)
Record scan := mk_scan { sc_record : transaction_info; sc_total_fee : asset; sc_withdraw_key : public_key }.
Definition set_sc_record (t : transaction_info) (s : scan) : scan := mk_scan t (sc_total_fee s) (sc_withdraw_key s).
Definition set_sc_entries (l : list ledger_entry) (s : scan) : scan := set_sc_record (set_ti_entries l (sc_record s)) s.
Definition set_sc_fee (a : asset) (s : scan) : scan := mk_scan (sc_record s) a (sc_withdraw_key s).
Definition sc_entries (s : scan) : list ledger_entry := ti_ledger_entries (sc_record s).

(** [total_fee += amount] and [-=], if it is the asset of the fee. *)
Definition add_to_fee (a : asset) (s : scan) : result scan :=
  if asset_id a =? asset_id (sc_total_fee s) then fee <- asset_add (sc_total_fee s) a ;; Ok (set_sc_fee fee s) else Ok s.
Definition take_from_fee (a : asset) (s : scan) : result scan :=
  if asset_id a =? asset_id (sc_total_fee s) then fee <- asset_sub (sc_total_fee s) a ;; Ok (set_sc_fee fee s) else Ok s.

Section ledger.
Context `{Cr : Crypto} `{Kc : KeyCrypto} `{Tx : TxCrypto} `{Wh : WalletHash} `{St : Statics} `{FcI : Fc} `{Sg : Signing}.
Context `{Tc : TextCodec} `{Pn : PrettyNumber} `{We : WalletEnv}.
Variable n : node.
Implicit Types (w : wallet) (s : scan).

Definition chain : chain_database := nd_db n.
Definition own_key (a : address) w : result (option (wallet_record key_data)) :=
  key <- lookup_key a (wl_db w) ;; Ok (if has_private key then key else None).

Definition get_account_for_address (a : address) w : result (option (wallet_record account_data)) :=
  _ <- fc_assert (wallet_is_open w) ;;
  key <- lookup_key a (wl_db w) ;;
  match key with Some k => lookup_account (kd_account_address (record_data k)) (wl_db w) | None => Ok None end.
Definition wallet_account_name (r : wallet_record account_data) : string := ac_name (ad_account (record_data r)).

Definition get_key_label (k : public_key) w : result string :=
  if k =? null_key then Ok "ANONYMOUS"%string
  else
    account <- lookup_account (key_address k) (wl_db w) ;;
    match account with
    | Some a => Ok (wallet_account_name a)
    | None =>
        registered <- get_account_record_by_address chain (key_address k) ;;
        match registered with
        | Some a => Ok (ac_name a)
        | None =>
            key <- lookup_key (key_address k) (wl_db w) ;;
            match key with
            | Some r =>
                match kd_memo (record_data r) with
                | Some memo => Ok memo
                | None =>
                    account <- lookup_account (kd_account_address (record_data r)) (wl_db w) ;;
                    Ok (match account with Some a => wallet_account_name a | None => key_to_string k end)
                end
            | None => Ok (key_to_string k)
            end
        end
    end.

(** ** Withdrawals *)

(** The entry is of the account of the key. *)
Definition of_account (e : ledger_entry) (account_address : address) w : result bool :=
  match le_from_account e with
  | None => Ok false
  | Some from =>
      a1 <- get_account_for_address (key_address from) w ;;
      match a1 with
      | None => Ok false
      | Some a1 =>
          a2 <- get_account_for_address account_address w ;;
          Ok (match a2 with Some a2 => bool_decide (wallet_account_name a1 = wallet_account_name a2) | None => false end)
      end
  end.
Definition withdraw_entry (a fee : asset) (account_address : address) w (e : ledger_entry) : result (option ledger_entry) :=
  mine <- of_account e account_address w ;;
  if negb mine then Ok None
  else if asset_id (le_amount e) =? asset_id a then total <- asset_add (le_amount e) a ;; Ok (Some (set_le_amount total e))
  else if amount (le_amount e) =? 0 then Ok (Some (if asset_eqb a fee then e else set_le_amount a e))
  else Ok None.
Definition scan_withdraw (op : withdraw_operation) s : wm (bool * scan) :=
  record <~ lift (from_option_or assert_exception (get_balance_record chain (wd_balance_id op))) ;;
  let a := mk_asset (wd_amount op) (wc_asset_id (br_condition record)) in
  s <~ lift (add_to_fee a s) ;;
  match balance_owner record with
  | None => nret (false, s)
  | Some owner =>
      key <~ nread (own_key owner) ;;
      match key with
      | None => nret (false, s)
      | Some k =>
          let new := set_le_amount a (set_le_from (kd_public_key (record_data k)) entry_default) in
          entries <~ nread (fun w => change_or_add (withdraw_entry a (ti_fee (sc_record s)) (kd_account_address (record_data k)) w) new (sc_entries s)) ;;
          nret (true, mk_scan (set_ti_entries entries (sc_record s)) (sc_total_fee s) (kd_public_key (record_data k)))
      end
  end.

Definition pay_memo (e : ledger_entry) : ledger_entry := if bool_decide (le_memo e = ""%string) then set_le_memo "withdraw pay" e else e.
Definition withdraw_pay_entry (a : asset) (account_address : address) w (e : ledger_entry) : result (option ledger_entry) :=
  mine <- of_account e account_address w ;;
  if negb mine then Ok None
  else if asset_id (le_amount e) =? asset_id a then total <- asset_add (le_amount e) a ;; Ok (Some (pay_memo (set_le_amount total e)))
  else if amount (le_amount e) =? 0 then Ok (Some (pay_memo (set_le_amount a e)))
  else Ok None.
Definition scan_withdraw_pay (op : withdraw_pay_operation) s : wm (bool * scan) :=
  let a := mk_asset (wp_amount op) 0 in
  s <~ lift (add_to_fee a s) ;;
  account <~ lift (from_option_or assert_exception (get_account_record chain (wp_account_id op))) ;;
  key <~ nread (own_key (key_address (ac_owner_key account))) ;;
  match key with
  | None => nret (false, s)
  | Some k =>
      let new := set_le_memo "withdraw pay" (set_le_amount a (set_le_from (kd_public_key (record_data k)) entry_default)) in
      entries <~ nread (fun w => change_or_add (withdraw_pay_entry a (kd_account_address (record_data k)) w) new (sc_entries s)) ;;
      nret (true, set_sc_entries entries s)
  end.
(** ** Accounts, assets and feeds *)

(** The first entry without receiver is the one of the operation. *)
Definition receiver_entry (k : public_key) (memo : string) (e : ledger_entry) : result (option ledger_entry) :=
  match le_to_account e with
  | None => Ok (Some (set_le_memo memo (set_le_amount (mk_asset 0 0) (set_le_to k e))))
  | Some to => Ok (if to =? k then Some (set_le_amount (mk_asset 0 0) e) else None)
  end.
Definition change_entries (f : ledger_entry -> result (option ledger_entry)) s : wm scan :=
  entries <~ lift (change_if_any f (sc_entries s)) ;; nret (set_sc_entries entries s).

Definition scan_register_account (op : register_account_operation) s : wm (bool * scan) :=
  key <~ nread (own_key (key_address (ra_owner_key op))) ;;
  match key with
  | None => nret (false, s)
  | Some _ =>
      account <~ read_db (lookup_account (key_address (ra_owner_key op))) ;;
      match account with
      | None => nret (false, s)
      | Some _ =>
          found <~ lift (get_account_record_by_name chain (ra_name op)) ;;
          registered <~ lift (from_option_or assert_exception found) ;;
          s <~ change_entries (receiver_entry (ra_owner_key op) ("register " ++ ac_name registered)) s ;;
          _ <~ set_dirty_accounts ;;
          nret (true, s)
      end
  end.
(** A key without private key is enough. *)
Definition scan_update_account (op : update_account_operation) s : wm (bool * scan) :=
  account <~ lift (from_option_or assert_exception (get_account_record chain (ua_account_id op))) ;;
  let owner := ac_owner_key account in
  key <~ read_db (lookup_key (key_address owner)) ;;
  match key with
  | None => nret (false, s)
  | Some _ =>
      local <~ read_db (lookup_account (key_address owner)) ;;
      match local with
      | None => nret (false, s)
      | Some _ =>
          found <~ lift (get_account_record_by_name chain (ac_name account)) ;;
          _ <~ lift (from_option_or assert_exception found) ;;
          s <~ change_entries (receiver_entry owner ("update " ++ ac_name account)) s ;;
          _ <~ set_dirty_accounts ;;
          nret (true, s)
      end
  end.

Definition scan_creation (owner : public_key) (memo : string) s : wm (bool * scan) :=
  key <~ nread (own_key (key_address owner)) ;;
  match key with
  | None => nret (false, s)
  | Some _ =>
      changed <~ lift (change_first (receiver_entry owner memo) (sc_entries s)) ;;
      nret (match changed with Some l => (true, set_sc_entries l s) | None => (false, s) end)
  end.
(** The account of the owner of a game is not checked. *)
Definition scan_create_asset (op : create_asset_operation) s : wm (bool * scan) :=
  let memo := ("create " ++ ca_symbol op ++ " (" ++ ca_name op ++ ")")%string in
  if ca_issuer_type op =? user_issuer_id then
    issuer <~ lift (from_option_or assert_exception (get_account_record chain (ca_issuer_id op))) ;;
    scan_creation (ac_owner_key issuer) memo s
  else if ca_issuer_type op =? game_issuer_id then
    game <~ lift (from_option_or assert_exception (get_game_record chain (ca_issuer_id op))) ;;
    owner <~ lift (from_option_or undefined_behaviour (get_account_record chain (gm_owner_account_id game))) ;;
    scan_creation (ac_owner_key owner) (memo ++ " for your game") s
  else nret (false, s).

(** The entry is of a key of the wallet. *)
Definition own_entry (f : public_key -> ledger_entry -> result ledger_entry) w (e : ledger_entry) : result (option ledger_entry) :=
  match le_from_account e with
  | None => Ok None
  | Some from =>
      key <- own_key (key_address from) w ;;
      match key with Some _ => e <- f from e ;; Ok (Some e) | None => Ok None end
  end.
Definition scan_own_entry (f : wallet -> public_key -> ledger_entry -> result ledger_entry) s : wm (bool * scan) :=
  changed <~ nread (fun w => change_first (own_entry (f w) w) (sc_entries s)) ;;
  nret (match changed with Some l => (true, set_sc_entries l s) | None => (false, s) end).
Definition scan_issue_asset (a : asset) : scan -> wm (bool * scan) :=
  scan_own_entry (fun _ _ e => text <- to_pretty_asset a chain ;;
                               Ok (set_le_memo ("issue " ++ unchars text) (set_le_amount a e))).
Definition scan_update_feed : scan -> wm (bool * scan) :=
  scan_own_entry (fun w from e => label <- get_key_label from w ;;
                                  Ok (set_le_to from (set_le_memo ("update feeds for " ++ label) e))).

(** ** Orders and chips *)

Context {small_id : market_order -> string}.

Definition set_kd_memo (memo : string) (k : key_data) : key_data :=
  mk_key_data (kd_account_address k) (kd_child_key_index k) (kd_public_key k) (kd_encrypted_private_key k) (kd_valid_from_signature k) (Some memo).
(** An order is paid to its key, a cancelled one comes from it. *)
Definition order_entry (a : asset) (k : public_key) (memo : string) (e : ledger_entry) : result (option ledger_entry) :=
  if 0 <=? amount a then
    match le_to_account e with
    | None => Ok (Some (set_le_amount a (set_le_to k e)))
    | Some to => Ok (if to =? k then Some (set_le_amount a e) else None)
    end
  else
    let cancelled e := set_le_memo ("cancel " ++ memo) (set_le_amount a e) in
    match le_from_account e with
    | None => Ok (Some (cancelled (set_le_from k e)))
    | Some from => Ok (if from =? k then Some (cancelled e) else None)
    end.
Definition scan_order (type : order_type) (a : asset) (op : market_operation) s : wm (bool * scan) :=
  s <~ lift (take_from_fee a s) ;;
  key <~ nread (own_key (mi_owner (mo_index op))) ;;
  match key with
  | None => nret (false, s)
  | Some r =>
      let memo := small_id (mk_market_order type (mo_index op) (mk_order (mo_amount op) None 0)) in
      _ <~ on_db (store_key (set_kd_memo memo (record_data r))) ;;
      s <~ change_entries (order_entry a (kd_public_key (record_data r)) memo) s ;;
      nret (true, s)
  end.
Definition scan_bid (op : market_operation) : scan -> wm (bool * scan) :=
  scan_order bid_order (mk_asset (mo_amount op) (quote_asset_id (mi_order_price (mo_index op)))) op.
Definition scan_ask (op : market_operation) : scan -> wm (bool * scan) :=
  scan_order ask_order (mk_asset (mo_amount op) (base_asset_id (mi_order_price (mo_index op)))) op.

Definition chips_entry (a : asset) (k : public_key) (e : ledger_entry) : result (option ledger_entry) :=
  if 0 <=? amount a then
    let bought e := set_le_memo "buy chips" (set_le_amount a e) in
    match le_to_account e with
    | None => Ok (Some (bought (set_le_to k e)))
    | Some to => Ok (if to =? k then Some (bought e) else None)
    end
  else Ok None.
Definition scan_buy_chips (op : buy_chips_operation) s : wm (bool * scan) :=
  s <~ lift (take_from_fee (bc_amount op) s) ;;
  key <~ nread (own_key (bc_owner op)) ;;
  match key with
  | None => nret (false, s)
  | Some r => s <~ change_entries (chips_entry (bc_amount op) (kd_public_key (record_data r))) s ;; nret (true, s)
  end.

(** ** Burning, ads, notes and red packets *)

Definition with_message (memo message : string) : string :=
  if bool_decide (message = ""%string) then memo else (memo ++ ": " ++ message)%string.
Definition single_memo (memo : string) s : scan := set_sc_record (with_single (set_le_memo memo) (sc_record s)) s.
Definition own_account (id : account_id) : wm bool :=
  match get_account_record chain id with
  | None => nret false
  | Some r => active <~ lift (active_key r) ;; key <~ nread (own_key (key_address active)) ;; nret (match key with Some _ => true | None => false end)
  end.

Definition scan_burn (op : burn_operation) s : wm (bool * scan) :=
  s <~ lift (take_from_fee (bo_amount op) s) ;; nret (false, single_memo (with_message "burn" (bo_message op)) s).
Definition scan_ad (op : ad_operation) s : wm (bool * scan) :=
  s <~ lift (take_from_fee (ao_amount op) s) ;;
  mine <~ own_account (ao_owner_account_id op) ;;
  nret (mine, single_memo (with_message "advertise" (ao_message op)) s).
Definition scan_note (op : note_operation) s : wm (bool * scan) :=
  s <~ lift (take_from_fee (nt_amount op) s) ;; nret (false, single_memo "write note" s).
(** The packet is noted as sent or claimed by the wallet. *)
Definition note_packet (id : Z) (account : account_id) (sent : bool) : wm unit :=
  found <~ read_db (lookup_packet id) ;;
  let was (f : packet_info -> bool) := match found with Some r => f (record_data r) | None => false end in
  _ <~ on_db (store_packet {| pi_packet_id := id; pi_account_id := account; pi_is_sender := if sent then true else was pi_is_sender;
                              pi_is_claimer := if sent then was pi_is_claimer else true |}) ;;
  nret tt.
Definition scan_red_packet (op : red_packet_operation) s : wm (bool * scan) :=
  s <~ lift (take_from_fee (rp_amount op) s) ;;
  mine <~ own_account (rp_from_account_id op) ;;
  _ <~ (if mine : bool then note_packet (rp_random_id op) (rp_from_account_id op) true else nret tt) ;;
  nret (mine, single_memo (with_message "Red Packet" (rp_message op)) s).

Context {hex : Z -> string}.
(** What the account claimed with the transaction. *)
Definition packet_reward (account : account_id) (trx : transaction_id) (p : packet_record) : result asset :=
  let none := mk_asset 0 (asset_id (pk_amount p)) in
  match filter (fun x => rs_account_id x = account /\ rs_transaction_id x = trx) (pk_claim_statuses p) with
  | x :: _ => asset_add none (rs_amount x)
  | [] => Ok none
  end.
Definition claim_memo (op : claim_packet_operation) (trx : transaction_id) : result string :=
  match get_packet_record chain (cp_random_id op) with
  | None => Ok "Claim Packet "%string
  | Some p =>
      reward <- packet_reward (cp_to_account_id op) trx p ;;
      let from := match get_account_record chain (pk_from_account_id p) with Some r => ac_name r | None => ""%string end in
      Ok ("Claim Packet " ++ hex (cp_random_id op) ++ ": Got amount of: " ++ unchars (signed_decimal (amount reward)) ++ " from " ++ from)%string
  end.
Definition scan_claim_packet (op : claim_packet_operation) s : wm (bool * scan) :=
  mine <~ own_account (cp_to_account_id op) ;;
  _ <~ (if mine : bool then note_packet (cp_random_id op) (cp_to_account_id op) false else nret tt) ;;
  match sc_entries s with
  | [e] => memo <~ lift (claim_memo op (trx_id (ti_trx (sc_record s)))) ;; nret (mine, set_sc_entries [set_le_memo memo e] s)
  | _ => nret (mine, s)
  end.

(** ** Deposits *)

(** The memo as one of the owners reads it, then with the stealth keys. *)
Fixpoint own_memo (owners : list address) (data : withdraw_data) w : result (option (private_key * memo_status)) :=
  match owners with
  | [] => Ok None
  | a :: owners =>
      found <- or_catch (k <- get_private_key a w ;; status <- decrypt_memo_data k true data ;; Ok (st ← status; Some (k, st))) (Ok None) ;;
      match found with Some _ => Ok found | None => own_memo owners data w end
  end.
Fixpoint stealth_memo (keys : list private_key) (data : withdraw_data) : option (private_key * memo_status) :=
  match keys with
  | [] => None
  | k :: keys =>
      match decrypt_memo_data k false data with
      | Ok (Some st) => Some (k, st)
      | _ => stealth_memo keys data
      end
  end.
Definition read_memo (owners : list address) (data : withdraw_data) w : result (option (private_key * memo_status)) :=
  found <- own_memo owners data w ;;
  Ok (match found with Some _ => found | None => stealth_memo (wl_stealth_keys w) data end).

(** The entry of a deposit that is read: of the sender to the receiver, or of
    the receiver, who was the sender, to the one he named. *)
Definition received_entry (a : asset) (from to : public_key) (memo : string) w (e : ledger_entry) : result (option ledger_entry) :=
  match le_from_account e with
  | None => Ok None
  | Some k =>
      let entry := set_le_memo memo (set_le_amount a (set_le_to to e)) in
      match le_memo_from_account e with
      | Some _ => Ok (Some entry)
      | None =>
          a1 <- get_key_label k w ;; a2 <- get_key_label from w ;;
          Ok (if bool_decide (a1 = a2) then Some (set_le_from from entry) else None)
      end
  end.
Definition sent_entry (a : asset) (from to : public_key) (memo : string) w (e : ledger_entry) : result (option ledger_entry) :=
  match le_from_account e with
  | None => Ok None
  | Some k =>
      a1 <- get_key_label k w ;; a2 <- get_key_label from w ;;
      Ok (if bool_decide (a1 = a2) then Some (set_le_memo memo (set_le_amount a (set_le_to to (set_le_from from e)))) else None)
  end.
Definition memo_entry (a : asset) (from to : public_key) (memo : string) : ledger_entry :=
  mk_ledger_entry (Some from) (Some to) a memo None.
Definition scan_memo (a : asset) (owners : list address) (data : withdraw_data) s : wm (bool * scan) :=
  found <~ nread (read_memo owners data) ;;
  match found with
  | None => nret (false, s)
  | Some (k, status) =>
      password <~ get_password ;;
      _ <~ on_db (cache_memo status k password) ;;
      let memo := get_extended_message (mo_memo status) in
      let named := me_from (mo_memo status) in
      entries <~ nread (fun w =>
        match me_memo_flags (mo_memo status) with
        | from_memo => change_or_add (received_entry a named (get_public_key k) memo w) (memo_entry a named (get_public_key k) memo) (sc_entries s)
        | to_memo => change_or_add (sent_entry a (get_public_key k) named memo w) (memo_entry a (get_public_key k) named memo) (sc_entries s)
        end) ;;
      nret (true, set_sc_entries entries s)
  end.

(** A deposit without memo: the change of a withdrawal, or of a cancelled
    order. *)
Definition plain_entry (a : asset) (key : key_data) (cancel : bool) w (e : ledger_entry) : result (option ledger_entry) :=
  match le_from_account e with
  | None => Ok None
  | Some _ =>
      account <- get_account_for_address (kd_address key) w ;;
      match account with
      | None => Ok None
      | Some r =>
          account_key <- lookup_key (owner_address (ad_account (record_data r))) (wl_db w) ;;
          Ok (match account_key with
              | None => None
              | Some k =>
                  if negb cancel && negb (asset_id (le_amount e) =? asset_id a) then None
                  else Some (set_le_amount a (set_le_to (kd_public_key (record_data k)) e))
              end)
      end
  end.
Definition scan_plain (a : asset) (owner : address) s : wm (bool * scan) :=
  key <~ nread (own_key owner) ;;
  match key with
  | None => nret (false, s)
  | Some r =>
      let cancel := is_cancel (ti_trx (sc_record s)) in
      changed <~ nread (fun w => change_first (plain_entry a (record_data r) cancel w) (sc_entries s)) ;;
      match changed with
      | Some l => s <~ lift (if cancel then Ok (set_sc_entries l s) else add_to_fee a (set_sc_entries l s)) ;; nret (true, s)
      | None => nret (true, set_sc_entries (sc_entries s ++ [set_le_amount a (set_le_to (kd_public_key (record_data r)) entry_default)]) s)
      end
  end.
Fixpoint scan_owners (a : asset) (owners : list address) (acc : bool * scan) : wm (bool * scan) :=
  match owners with
  | [] => nret acc
  | owner :: owners => r <~ scan_plain a owner (snd acc) ;; scan_owners a owners (fst acc || fst r, snd r)
  end.

(** Owners in the order of their addresses. *)
Definition ordered_owners (c : withdraw_condition) : list address := merge_sort Z.le (elements (condition_owners c)).
Definition scan_deposit (op : deposit_operation) s : wm (bool * scan) :=
  let condition := dp_condition op in
  let a := mk_asset (dp_amount op) (wc_asset_id condition) in
  s <~ lift (take_from_fee a s) ;;
  match wc_data condition with
  | withdraw_with_signature owner (Some _) => scan_memo a [owner] (wc_data condition) s
  | withdraw_with_signature owner None => scan_owners a [owner] (false, s)
  | withdraw_with_escrow _ _ _ _ (Some _) => scan_memo a (ordered_owners condition) (wc_data condition) s
  | withdraw_with_escrow _ _ _ _ None => scan_owners a (ordered_owners condition) (false, s)
  | _ => nret (false, s)
  end.

(** ** A transaction *)

(** Withdrawals and cancelled orders come first. *)
Definition scan_taking (op : operation) s : wm (bool * scan) :=
  match op with
  | op_withdraw o => scan_withdraw o s
  | op_withdraw_pay o => scan_withdraw_pay o s
  | op_bid o => if mo_amount o <? 0 then scan_bid o s else nret (false, s)
  | op_ask o => if mo_amount o <? 0 then scan_ask o s else nret (false, s)
  | _ => nret (false, s)
  end.
(** What a deposit or an order gives, and what else is stored. *)
Inductive given := given_deposit | given_order | given_other.
Definition scan_giving (op : operation) s : wm (given * bool * scan) :=
  let counted (g : given) (m : wm (bool * scan)) := r <~ m ;; nret (g, fst r, snd r) in
  match op with
  | op_deposit o => counted given_deposit (scan_deposit o s)
  | op_bid o => counted given_order (if 0 <=? mo_amount o then scan_bid o s else nret (false, s))
  | op_ask o => counted given_order (if 0 <=? mo_amount o then scan_ask o s else nret (false, s))
  | op_ad o => counted given_order (if 0 <=? amount (ao_amount o) then scan_ad o s else nret (false, s))
  | op_burn o => counted given_other (scan_burn o s)
  | op_note o => counted given_other (scan_note o s)
  | op_red_packet o => counted given_other (scan_red_packet o s)
  | op_claim_packet o => counted given_other (scan_claim_packet o s)
  | op_buy_chips o => counted given_other (scan_buy_chips o s)
  | _ => nret (given_other, false, s)
  end.
Definition scan_rest (op : operation) s : wm (bool * scan) :=
  match op with
  | op_register_account o => scan_register_account o s
  | op_update_account o => scan_update_account o s
  | op_create_asset o => scan_create_asset o s
  | op_issue_asset a => scan_issue_asset a s
  | op_update_feed o => scan_update_feed s
  | _ => nret (false, s)
  end.

Fixpoint scan_all (f : operation -> scan -> wm (bool * scan)) (ops : list operation) (acc : bool * scan) : wm (bool * scan) :=
  match ops with
  | [] => nret acc
  | op :: ops => r <~ f op (snd acc) ;; scan_all f ops (fst acc || fst r, snd r)
  end.
Fixpoint scan_given (ops : list operation) (has_deposit store : bool) s : wm (bool * bool * scan) :=
  match ops with
  | [] => nret (has_deposit, store, s)
  | op :: ops =>
      r <~ scan_giving op s ;;
      match r with
      | (given_other, found, s) => scan_given ops has_deposit (store || found) s
      | (_, found, s) => scan_given ops (has_deposit || found) store s
      end
  end.

Definition has_text (text memo : string) : bool := match String.index 0 text memo with Some _ => true | None => false end.
(** Amounts are found again, but for those of yields. *)
Definition clear_amount (e : ledger_entry) : ledger_entry :=
  if has_text "yield" (le_memo e) then e else set_le_amount (mk_asset 0 (asset_id (le_amount e))) e.
Definition less_fee (fee : asset) (e : ledger_entry) (l : list ledger_entry) : result (list ledger_entry) :=
  if asset_id (le_amount e) =? asset_id fee then a <- asset_sub (le_amount e) fee ;; Ok (l ++ [set_le_amount a e]) else Ok (l ++ [e]).
Definition not_fee (fee : asset) (l : list ledger_entry) : list ledger_entry :=
  if (1 <? length l)%nat then filter (fun e => asset_eqb (le_amount e) fee = false) l else l.
(** Yields at the end of the entries are found again. *)
Fixpoint drop_yields (l : list ledger_entry) : list ledger_entry :=
  match l with e :: l' => if has_prefix "yield" (le_memo e) then drop_yields l' else l | [] => [] end.
Definition yield_entry (k : public_key) (item : Z * Z) : ledger_entry :=
  mk_ledger_entry (Some k) (Some k) (mk_asset (snd item) (fst item)) "yield" None.
Definition yields_of (r : transaction_record) : list (Z * Z) := map_items (tr_yield_claimed r).
Definition get_exact_transaction (id : transaction_id) : result (option transaction_record) :=
  match get_transaction chain id with
  | None => Ok None
  | Some r => _ <- fc_assert (trx_id (tr_trx r) =? id) ;; Ok (Some r)
  end.
Definition scan_yields (id : transaction_id) s : wm scan :=
  found <~ lift (get_exact_transaction id) ;;
  match found, sc_entries s with
  | None, _ | _, [] => nret s
  | Some r, _ =>
      let items := yields_of r in
      let s := set_sc_entries (rev (drop_yields (rev (sc_entries s))) ++ map (yield_entry (sc_withdraw_key s)) items) s in
      _ <~ (if bool_decide (items = []) then nret tt else on_db (WalletDb.store_transaction (sc_record s))) ;;
      nret s
  end.

Definition set_dirty_balances (dirty : bool) : wm unit := nwrite (fun w => set_wl_balances (wl_dirty_balances w || dirty) (wl_balances w) w).
Definition new_transaction (trx : signed_transaction) (timestamp : time) : transaction_info :=
  mk_transaction_info (trx_id trx) 0 false false "" trx [] (mk_asset 0 0) timestamp timestamp.

Definition scan_operations (trx : signed_transaction) s : wm (bool * scan) :=
  taken <~ scan_all scan_taking (tx_operations trx) (false, s) ;; let '(has_withdrawal, s) := taken in
  given <~ scan_given (tx_operations trx) false false s ;; let '(has_deposit, store, s) := given in
  let fee := sc_total_fee s in
  entries <~ (if has_withdrawal && negb has_deposit then lift (foldM (less_fee fee) (sc_entries s) []) else nret (sc_entries s)) ;;
  let s := set_sc_record (set_ti_fee fee (set_ti_entries (not_fee fee entries) (sc_record s))) s in
  rest <~ scan_all scan_rest (tx_operations trx) (has_withdrawal || has_deposit || store, s) ;; let '(store, s) := rest in
  s <~ (if has_withdrawal : bool then scan_yields (trx_id trx) s else nret s) ;;
  nret (store, s).
Definition scan_transaction (trx : signed_transaction) (block_num : Z) (timestamp : time) (overwrite_existing : bool) : wm transaction_info :=
  found <~ read_db (lookup_transaction (trx_id trx)) ;;
  let record := set_ti_confirmed block_num (match found with Some r => record_data r | None => new_transaction trx timestamp end) in
  let already_exists := match found with Some _ => true | None => false end in
  _ <~ (if already_exists then on_db (WalletDb.store_transaction record) else nret tt) ;;
  let s := mk_scan (set_ti_entries (map clear_amount (ti_ledger_entries record)) record) (mk_asset 0 0) null_key in
  r <~ scan_operations trx s ;; let '(store, s) := r in
  _ <~ (if store && (negb already_exists || overwrite_existing) then on_db (WalletDb.store_transaction (sc_record s)) else nret tt) ;;
  _ <~ set_dirty_balances store ;;
  nret (sc_record s).

(** ** Blocks *)

Definition text_id (text : string) : transaction_id := of_le (ripemd160 (string_bytes text)).
Definition number (z : Z) : string := unchars (decimal z).
(** [catch( ... )] around one of many. *)
Definition attempt {A} (m : wm A) : wm unit :=
  ncatch (_ <~ m ;; nret tt) (fun e => match e with undefined_behaviour => nthrow e | _ => nret tt end).

Definition virtual_record (id_text : string) (block_num : Z) (block_time : time) (entries : list ledger_entry) (contract : string) : transaction_info :=
  mk_transaction_info (text_id id_text) block_num true true contract transaction_default entries (mk_asset 0 0) block_time block_time.
Definition paid_entry (k : public_key) (a : asset) (memo : string) : ledger_entry := mk_ledger_entry (Some k) None a memo None.
Definition filled_entries (paid received : asset) (p : price) (pay proceeds : string)
    (k : wallet_record key_data) (account_key : option (wallet_record key_data)) : wm (list ledger_entry) :=
  text <~ lift (to_pretty_price p true chain) ;;
  to <~ lift (from_option_or undefined_behaviour account_key) ;;
  nret [paid_entry (kd_public_key (record_data k)) paid (pay ++ unchars text);
        mk_ledger_entry (Some (kd_public_key (record_data k))) (Some (kd_public_key (record_data to))) received (proceeds ++ unchars text) None].
(** The record of one side of a trade, under an id made of the block and both
    owners. *)
Definition market_side (own other : address) (block_num : Z) (block_time : time)
    (entries : wallet_record key_data -> option (wallet_record key_data) -> wm (list ledger_entry)) : wm unit :=
  key <~ nread (own_key own) ;;
  match key with
  | None => nret tt
  | Some k =>
      account_key <~ read_db (lookup_key (kd_account_address (record_data k))) ;;
      entries <~ entries k account_key ;;
      _ <~ on_db (WalletDb.store_transaction (virtual_record (number block_num ++ address_to_string own ++ address_to_string other)
                    block_num block_time entries "MARKET")) ;;
      set_dirty_balances true
  end.
(** A bid of another type is one that the market cancelled. *)
Definition bid_entries (t : market_transaction) (k : wallet_record key_data) (account_key : option (wallet_record key_data)) : wm (list ledger_entry) :=
  match mt_bid_type t with
  | bid_order => filled_entries (mt_bid_paid t) (mt_bid_received t) (mt_bid_price t) "pay bid @ " "bid proceeds @ " k account_key
  | _ =>
      _ <~ lift (fc_assert ((amount (mt_ask_paid t) =? 0) && (amount (mt_ask_received t) =? 0) && (asset_id (mt_bid_received t) =? 0)
                            && (amount (mt_bid_paid t) =? 0))) ;;
      to <~ lift (from_option_or undefined_behaviour account_key) ;;
      nret [mk_ledger_entry (Some (kd_public_key (record_data k))) (Some (kd_public_key (record_data to))) (mt_bid_received t)
              "automatic market cancel" None]
  end.
Definition ask_entries (t : market_transaction) (k : wallet_record key_data) (account_key : option (wallet_record key_data)) : wm (list ledger_entry) :=
  match mt_ask_type t with
  | ask_order => filled_entries (mt_ask_paid t) (mt_ask_received t) (mt_ask_price t) "fill ask @ " "ask proceeds @ " k account_key
  | _ => nthrow assert_exception
  end.
Definition scan_market_transaction (block_num : Z) (block_time : time) (t : market_transaction) : wm unit :=
  _ <~ market_side (mt_bid_owner t) (mt_ask_owner t) block_num block_time (bid_entries t) ;;
  market_side (mt_ask_owner t) (mt_bid_owner t) block_num block_time (ask_entries t).

(** A reward and the text that comes with it. *)
Definition scan_operation_reward_transaction (block_num : Z) (block_time : time) (t : reward_transaction) (info : string) : wm unit :=
  key <~ nread (own_key (rt_owner t)) ;;
  match key with
  | None => nret tt
  | Some k =>
      let id := (number block_num ++ address_to_string (rt_owner t) ++ unchars (signed_decimal (amount (rt_reward t))) ++ info)%string in
      text <~ lift (to_pretty_asset (rt_reward t) chain) ;;
      let memo := ("Lucky! You got note reward " ++ unchars text ++ "Info: " ++ info)%string in
      let entry := mk_ledger_entry None (Some (kd_public_key (record_data k))) (rt_reward t) memo None in
      _ <~ on_db (WalletDb.store_transaction (virtual_record id block_num block_time [entry] "OP:NOTE")) ;;
      set_dirty_balances true
  end.

(** What the chain keeps of a block for reports; what the game of a result
    does with the wallet is one of its steps. *)
Record block_reports := {
  rp_market : list market_transaction; rp_games : list (wm bool); rp_rewards : list (reward_transaction * string) }.
Context {reports : Z -> block_reports}.

Fixpoint each {A} (f : A -> wm unit) (l : list A) : wm unit :=
  match l with [] => nret tt | a :: l => _ <~ f a ;; each f l end.
Definition fetch_transaction (trx : signed_transaction) (l : list signed_transaction) : result (list signed_transaction) :=
  r <- from_option_or key_not_found_exception (get_transaction chain (trx_id trx)) ;; Ok (l ++ [tr_trx r]).
Definition scan_block (block_num : Z) : wm unit :=
  block <~ lift (get_block_at block_num n) ;;
  let timestamp := bh_timestamp (fb_header block) in
  trxs <~ lift (foldM fetch_transaction (fb_user_transactions block) []) ;;
  _ <~ each (fun trx => attempt (scan_transaction trx block_num timestamp false)) trxs ;;
  _ <~ each (fun t => attempt (scan_market_transaction block_num timestamp t)) (rp_market (reports block_num)) ;;
  _ <~ each (fun play => attempt (found <~ play ;; if found : bool then set_dirty_balances true else nret tt)) (rp_games (reports block_num)) ;;
  each (fun '(t, info) => attempt (scan_operation_reward_transaction block_num timestamp t info)) (rp_rewards (reports block_num)).

(** ** Scans *)

(** The balances of the snapshot, with the amounts that were claimed and the
    old addresses. *)
Context {snapshot : balance_record -> option (list (Z * string))}.

Definition clear_claims (r : wallet_record account_data) : wm unit :=
  let id := text_id (wallet_account_name r) in
  found <~ read_db (lookup_transaction id) ;;
  match found with
  | Some t => on_db (WalletDb.store_transaction (set_ti_entries [] (record_data t)))
  | None => nret tt
  end.
Definition claim_entry (k : public_key) (id : Z) (item : Z * string) : ledger_entry :=
  mk_ledger_entry None (Some k) (mk_asset (fst item) id) ("claim " ++ snd item) None.
Definition scan_snapshot (timestamp : time) (r : balance_record) : wm unit :=
  match snapshot r, wc_data (br_condition r), balance_owner r with
  | Some items, withdraw_with_signature _ _, Some owner =>
      key <~ nread (own_key owner) ;;
      match key with
      | None => nret tt
      | Some k =>
          let public := kd_public_key (record_data k) in
          label <~ nread (get_key_label public) ;;
          let id := text_id label in
          found <~ read_db (lookup_transaction id) ;;
          let t := match found with
                   | Some t => record_data t
                   | None => mk_transaction_info 0 0 false false "" transaction_default [] (mk_asset 0 0) timestamp timestamp
                   end in
          on_db (WalletDb.store_transaction
            (mk_transaction_info id (ti_block_num t) true true (ti_contract t) (ti_trx t)
               (ti_ledger_entries t ++ map (claim_entry public (wc_asset_id (br_condition r))) items) (ti_fee t) (ti_created_time t) (ti_received_time t)))
      end
  | _, _, _ => nret tt
  end.
Definition scan_balances (genesis_timestamp : time) : wm unit :=
  _ <~ scan_balances_experimental n ;;
  accounts <~ nread (fun w => Ok (map snd (map_to_list (w_accounts (wl_db w))))) ;;
  _ <~ each clear_claims accounts ;;
  each (scan_snapshot genesis_timestamp) (map snd (map_to_list (flat balance_t chain))).

(** The next [count] blocks; an error of one of them does not stop the scan. *)
Fixpoint scan_blocks (count : nat) (block_num : Z) : wm unit :=
  match count with
  | O => nret tt
  | Datatypes.S count => _ <~ attempt (scan_block block_num) ;; scan_blocks count (block_num + 1)
  end.
Definition start_scan_task (genesis_timestamp : time) (start_block_num limit : Z) : wm unit :=
  let head := get_head_block_num chain in
  let current := Z.max start_block_num 1 in
  let count := Z.max 0 (Z.min limit (head - current + 1)) in
  _ <~ (if start_block_num =? 0 then _ <~ scan_balances genesis_timestamp ;; scan_accounts n
        else dirty <~ nread (fun w => Ok (wl_dirty_accounts w)) ;; if dirty : bool then scan_accounts n else nret tt) ;;
  _ <~ scan_blocks (Z.to_nat count) current ;;
  last <~ nread (get_last_scanned_block_number n) ;;
  _ <~ set_last_scanned_block_number (Z.max (current - 1 + count) last) ;;
  dirty_balances <~ nread (fun w => Ok (wl_dirty_balances w)) ;;
  _ <~ (if dirty_balances : bool then scan_balances_experimental n else nret tt) ;;
  dirty_accounts <~ nread (fun w => Ok (wl_dirty_accounts w)) ;;
  if dirty_accounts : bool then scan_accounts n else nret tt.
(** At once, or in the background if scanning is not switched off. *)
Definition start_scan (genesis_timestamp : time) (start_block_num limit : Z) (async : bool) : wm unit :=
  _ <~ open_and_unlocked ;;
  enabled <~ (if async then nread get_transaction_scanning else nret true) ;;
  if enabled : bool then start_scan_task genesis_timestamp start_block_num limit else nret tt.

(** What the wallet does when a block is pushed or popped. *)
Definition block_pushed (genesis_timestamp : time) (block_num : Z) : wm unit :=
  is_open <~ nread (fun w => Ok (wallet_is_open w)) ;;
  unlocked <~ (if is_open : bool then nread is_unlocked else nret false) ;;
  if negb unlocked then nret tt
  else
    enabled <~ nread get_transaction_scanning ;;
    last <~ nread (get_last_scanned_block_number n) ;;
    if negb enabled || (block_num <=? last) then nret tt
    else start_scan genesis_timestamp (Z.min (uwrap32 (last + 1)) block_num) 4294967295 true.
Definition block_popped : wm unit :=
  is_open <~ nread (fun w => Ok (wallet_is_open w)) ;;
  unlocked <~ (if is_open : bool then nread is_unlocked else nret false) ;;
  if negb unlocked then nret tt
  else
    last <~ nread (get_last_scanned_block_number n) ;;
    if get_head_block_num chain <? last then set_last_scanned_block_number (get_head_block_num chain) else nret tt.
End ledger.
