(* ===== verification/WalletDemo.v ===== *)
(** A concrete wallet for the witnesses: created, with the key of an account of
    the demonstration chain, scanned. *)

From Stdlib Require Import String.
From S2P Require Import Prelude StateMonad Asset Names Records Keys Concrete Building ChainInterface Tables PendingState ChainDatabase BlockOps Node.
From S2P Require Import Storage AmountText AddressText WalletDb WalletProps Wallet Spending TransactionBuilder WalletTrx.

Definition demo_signing : Signing := {| sign_compact := fun k _ => k mod group_order + 1 |}.
Definition demo_pretty_number : PrettyNumber := {| to_pretty_string := fun z => decimal z |}.
(** Passwords are their lengths. *)
Definition demo_env : WalletEnv := {|
  hash_text := fun s => Z.of_nat (String.length s) + 1;
  hash_again := fun s => s + 1;
  first_half := fun s => s;
  public_slate_id := fun _ => no_slate_id;
  with_slate_id := fun s _ => s;
  with_version := fun s _ => s |}.

#[local] Existing Instance wallet_crypto.
#[local] Existing Instance demo_keys.
#[local] Existing Instance demo_tx.
#[local] Existing Instance demo_hash.
#[local] Existing Instance demo_statics.
#[local] Existing Instance demo_signing.
#[local] Existing Instance demo_text.
#[local] Existing Instance demo_pretty_number.
#[local] Existing Instance demo_env.

Definition demo_node : node :=
  mk_node demo_db 0 header_default ∅ ∅ ∅ ∅ ∅ 0 ∅ ∅ ∅ (pending_empty demo_db) 0 true.

Definition empty_wallet : wallet := mk_wallet true wallet_db_empty None ∅ "" 0 None true ∅ true [].

Section demo.
Context `{FcI : Fc}.
(** A new wallet, then one with the active key of alice, scanned. *)
Definition new_wallet_file : wallet := fst (create demo_node "demo" "password" "" 4444 1000000000 empty_wallet).
Definition alices_wallet : wallet :=
  fst ((_ <~ import_private_key demo_node 11 (Some "alice"%string) false 100 ;; scan_balances_experimental demo_node) new_wallet_file).
End demo.
