(* ===== verification/SpendingProps.v ===== *)
(** What the wallet spends (Spending.v): the balances that are its own after a
    scan, and the withdrawals for an amount, which take exactly the amount from
    different balances of the account or fail for want of funds. *)

From Stdlib Require Import String.
From S2P Require Import Prelude StateMonad Asset Names Records Keys Building ChainInterface Tables PendingState ChainDatabase BlockOps Node.
From S2P Require Import Storage AmountText AddressText WalletDb WalletProps Wallet Spending Concrete WalletDemo.

(** A fold that collects what a function gives for each element. *)
Lemma foldM_collect {A S} (f : A -> S -> result S) (P : S -> list A -> Prop) l s s' :
  (forall a s s' done, f a s = Ok s' -> P s done -> P s' (done ++ [a])) -> forall seen, P s seen -> foldM f l s = Ok s' -> P s' (seen ++ l).
Proof.
  intros Hf. revert s. induction l as [|a l IH]; intros s seen Hs H; cbn [foldM] in H.
  - apply Ok_inj in H as <-. by rewrite app_nil_r.
  - destruct (f a s) as [s1|] eqn:E; [ | done ]. cbn [rbind] in H. change (a :: l) with ([a] ++ l). rewrite app_assoc. eauto.
Qed.

Section spending.
Context `{Cr : Crypto} `{Kc : KeyCrypto} `{Tx : TxCrypto} `{Wh : WalletHash} `{St : Statics} `{FcI : Fc} `{Sg : Signing}.
Context `{Tc : TextCodec} `{Pn : PrettyNumber} `{We : WalletEnv}.
Variable n : node.
Implicit Types w : wallet.

(** ** The spendable balances of an account *)

(** A balance of a simple owner, not empty, whose key is the wallet's. *)
Lemma spendable_by_inv name r (d : wallet_db) name' : spendable_by n name r d = Ok (Some name') ->
  exists owner memo k, wc_data (br_condition r) = withdraw_with_signature owner memo /\ br_balance r <> 0 /\ balance_owner r = Some owner
  /\ lookup_key owner d = Ok (Some k) /\ has_private_key (record_data k) = true /\ (name <> ""%string -> name' = name).
Proof.
  unfold spendable_by. destruct (wc_data (br_condition r)) as [|owner memo| | |] eqn:Ec; try done.
  unfold get_spendable_balance. rewrite Ec. cbn [rbind amount]. destruct (Z.eqb_spec (br_balance r) 0) as [|Hb]; [ done | ].
  destruct (balance_owner r) as [o|] eqn:Eo; [ | done ]. destruct (lookup_key o d) as [[k|]|] eqn:Ek; [ | done | done ]. cbn [rbind].
  destruct (has_private_key (record_data k)) eqn:Ep; [ | done ]. destruct (key_account_name (record_data k) d) as [x|]; [ | done ]. cbn [rbind].
  intros H%Ok_inj. exists o, memo, k. unfold balance_owner, condition_owner in Eo. rewrite Ec in Eo. injection Eo as ->.
  split_and!; try done. intros Hn. rewrite bool_decide_eq_false_2 in H by done. cbn [negb andb] in H.
  destruct (bool_decide (x = name)) eqn:Eb; cbn in H; [ | done ]. apply bool_decide_eq_true_1 in Eb. congruence.
Qed.

(** The balances of the name are those that count for it, in order. *)
Definition counts_for (name : string) (d : wallet_db) (r : balance_record) : bool :=
  match spendable_by n name r d with Ok (Some _) => true | _ => false end.
Lemma spendable_records_spec name w m : name <> ""%string -> get_spendable_account_balance_records n name w = Ok m ->
  default [] (m !! name) = filter (fun r => counts_for name (wl_db w) r = true) (map snd (map_to_list (wl_balances w))).
Proof.
  intros Hn H. unfold get_spendable_account_balance_records in H. set (l := map snd _) in *.
  change (filter (fun r => counts_for name (wl_db w) r = true) l) with (filter (fun r => counts_for name (wl_db w) r = true) ([] ++ l)).
  apply (foldM_collect (add_spendable n name (wl_db w)) (fun m seen => default [] (m !! name) = filter (fun r => counts_for name (wl_db w) r = true) seen) l ∅ m); [ | done | done ].
  intros r m1 m2 seen Hf Hs. unfold add_spendable in Hf. destruct (spendable_by n name r (wl_db w)) as [[x|]|] eqn:E; cbn [rbind] in Hf; [ | | done ];
    apply Ok_inj in Hf as <-; rewrite filter_app.
  - pose proof (spendable_by_inv _ _ _ _ E) as (o & mm & k & _ & _ & _ & _ & _ & Hx). pose proof (Hx Hn) as ->.
    rewrite lookup_insert_eq. cbn [default from_option id]. rewrite Hs. f_equal. rewrite filter_cons, decide_True; [ done | ].
    unfold counts_for. by rewrite E.
  - rewrite Hs, filter_cons, decide_False; [ by rewrite app_nil_r | ]. unfold counts_for. by rewrite E.
Qed.

(** ** Withdrawals *)

(** What is taken for an amount: whole balances of the asset, until the rest
    fits the next. *)
Definition offered (id : Z) (r : balance_record) : Z :=
  if (0 <? br_balance r) && (balance_asset_id r =? id) then br_balance r else 0.
Fixpoint available (id : Z) (l : list balance_record) : Z :=
  match l with [] => 0 | r :: l => offered id r + available id l end.
Fixpoint takes (id : Z) (l : list balance_record) (v : Z) : list (balance_record * Z) :=
  match l with
  | [] => []
  | r :: l =>
      if offered id r =? 0 then takes id l v
      else if offered id r <? v then (r, offered id r) :: takes id l (v - offered id r) else [(r, v)]
  end.
Fixpoint taken (ws : list (balance_record * Z)) : Z := match ws with [] => 0 | rv :: ws => snd rv + taken ws end.
Definition withdrawal (rv : balance_record * Z) : operation :=
  op_withdraw {| wd_balance_id := balance_id (fst rv); wd_amount := snd rv |}.
Definition owner_of (r : balance_record) : address := default null_address (balance_owner r).
Definition with_withdrawals (ws : list (balance_record * Z)) (d : draft) : draft :=
  mk_draft (set_operations (tx_operations (df_trx d) ++ map withdrawal ws) (df_trx d))
    (list_to_set (map (fun rv => owner_of (fst rv)) ws) ∪ df_required_signatures d).

Lemma offered_nonneg id r : 0 <= offered id r.
Proof. unfold offered. destruct (Z.ltb_spec 0 (br_balance r)); destruct (_ =? id); cbn; lia. Qed.
Lemma available_nonneg id l : 0 <= available id l.
Proof. induction l as [|r l IH]; cbn [available]; [ lia | pose proof (offered_nonneg id r); lia ]. Qed.

Lemma takes_sum id l v : 0 < v -> taken (takes id l v) = Z.min v (available id l).
Proof.
  revert v. induction l as [|r l IH]; intros v Hv; cbn [takes available]; [ cbn; lia | ].
  pose proof (offered_nonneg id r). pose proof (available_nonneg id l).
  destruct (Z.eqb_spec (offered id r) 0) as [->|]; [ by rewrite IH | ].
  destruct (Z.ltb_spec (offered id r) v); cbn [taken snd]; [ | lia ].
  rewrite IH by lia. lia.
Qed.
Lemma takes_sublist id l v : sublist (map fst (takes id l v)) l.
Proof.
  revert v. induction l as [|r l IH]; intros v; cbn [takes]; [ done | ].
  destruct (_ =? 0); [ by apply sublist_cons | ]. destruct (_ <? v); cbn [map fst]; [ by apply sublist_skip | ].
  apply sublist_skip, sublist_nil_l.
Qed.
Lemma takes_within id l v r a : 0 < v -> (r, a) ∈ takes id l v -> 0 < a <= br_balance r /\ balance_asset_id r = id.
Proof.
  revert v. induction l as [|r' l IH]; intros v Hv; cbn [takes]; [ by intros ?%elem_of_nil | ].
  pose proof (offered_nonneg id r'). destruct (Z.eqb_spec (offered id r') 0) as [|Ho]; [ by apply IH | ].
  assert (Hr : br_balance r' = offered id r' /\ balance_asset_id r' = id).
  { unfold offered in *. destruct (Z.ltb_spec 0 (br_balance r')), (Z.eqb_spec (balance_asset_id r') id); cbn in *; lia. }
  destruct (Z.ltb_spec (offered id r') v); rewrite elem_of_cons.
  - intros [[= -> ->]|Hin]; [ lia | apply (IH (v - offered id r')); [ lia | done ] ].
  - intros [[= -> ->]|Hin]; [ lia | by apply elem_of_nil in Hin ].
Qed.

Definition simple (r : balance_record) : Prop := exists owner memo, wc_data (br_condition r) = withdraw_with_signature owner memo.
Lemma simple_spendable r t : simple r -> get_spendable_balance r t = Ok (mk_asset (br_balance r) (balance_asset_id r)) /\ balance_owner r = Some (owner_of r).
Proof.
  intros (o & mm & E). unfold get_spendable_balance, owner_of, balance_owner, condition_owner. by rewrite E.
Qed.

Lemma asset_sub_within v o id : 0 < o < v -> asset_sub (mk_asset v id) (mk_asset o id) = Ok (mk_asset (v - o) id).
Proof.
  intros H. unfold asset_sub. cbn [amount asset_id]. rewrite Z.eqb_refl. cbn [rbind fc_assert].
  rewrite (proj2 (Z.ltb_lt _ _)) by lia. rewrite (proj2 (Z.ltb_ge v _)), (proj2 (Z.ltb_ge o 0)) by (unfold INT64_MIN; lia). done.
Qed.

Lemma with_withdrawals_nil d : with_withdrawals [] d = d.
Proof. destruct d as [[e ops sigs] req]. unfold with_withdrawals, set_operations. cbn. by rewrite app_nil_r, (left_id_L ∅ (∪)). Qed.
Lemma with_withdrawals_cons rv ws d :
  with_withdrawals ws (with_withdrawals [rv] d) = with_withdrawals (rv :: ws) d.
Proof.
  unfold with_withdrawals, set_operations. cbn. rewrite <- app_assoc. f_equal. set_solver.
Qed.
Lemma one_withdrawal r v d : 0 < v -> balance_owner r = Some (owner_of r) ->
  (_ <~ on_trx (withdraw (balance_id r) v) ;; nwrite (require_signature (owner_of r))) d = (with_withdrawals [(r, v)] d, Ok tt).
Proof.
  intros Hv Ho. unfold nbind, on_trx, withdraw. rewrite (proj2 (Z.ltb_lt _ _)) by lia. cbn.
  unfold nwrite, require_signature, with_withdrawals, set_df_trx, emplace_back. cbn. by rewrite (right_id_L ∅ (∪)).
Qed.

Lemma nbind_assoc {S A B C} (m : state_m S A) (f : A -> state_m S B) (g : B -> state_m S C) s :
  nbind m (fun a => nbind (f a) g) s = nbind (nbind m f) g s.
Proof. unfold nbind. by destruct (m s) as [s' [a|e]]. Qed.

Lemma withdraw_from_takes id l v d : Forall simple l -> 0 < v ->
  withdraw_from n l (mk_asset v id) d
  = (with_withdrawals (takes id l v) d, Ok (if v <=? available id l then None else Some (mk_asset (v - available id l) id))).
Proof.
  intros Hl. revert v d. induction Hl as [|r l Hr Hl IH]; intros v d Hv; cbn [withdraw_from takes available].
  { rewrite with_withdrawals_nil, (proj2 (Z.leb_gt _ _)) by lia. by rewrite Z.sub_0_r. }
  destruct (simple_spendable r (now n tt) Hr) as [Es Eo]. unfold nbind at 1, nread at 1. rewrite Es, Eo. cbn [amount asset_id].
  pose proof (available_nonneg id l) as Hav. unfold offered. destruct (Z.leb_spec (br_balance r) 0) as [Hb|Hb]; cbn [orb].
  { rewrite (proj2 (Z.ltb_ge 0 (br_balance r))) by lia. cbn [andb]. rewrite IH by done. reflexivity. }
  rewrite (proj2 (Z.ltb_lt 0 (br_balance r))) by lia. cbn [andb]. destruct (Z.eqb_spec (balance_asset_id r) id) as [Ea|]; cbn [negb]; [ | rewrite IH by done; reflexivity ].
  rewrite (proj2 (Z.eqb_neq (br_balance r) 0)) by lia. destruct (Z.ltb_spec (br_balance r) v) as [Hlt|Hge].
  - rewrite nbind_assoc. rewrite (nbind_ok _ _ _ _ _ (one_withdrawal r (br_balance r) d ltac:(lia) Eo)).
    unfold nbind, nread. rewrite Ea, asset_sub_within by lia. rewrite IH by lia. rewrite with_withdrawals_cons. f_equal. f_equal.
    replace (v - br_balance r - available id l) with (v - (br_balance r + available id l)) by lia.
    destruct (Z.leb_spec (v - br_balance r) (available id l)), (Z.leb_spec v (br_balance r + available id l)); done || lia.
  - rewrite nbind_assoc. rewrite (nbind_ok _ _ _ _ _ (one_withdrawal r v d Hv Eo)). rewrite (proj2 (Z.leb_le v _)) by lia. done.
Qed.

(** The balances that count for an account, and what they are worth. *)
Definition own_balances (name : string) w : list balance_record :=
  filter (fun r => counts_for name (wl_db w) r = true) (map snd (map_to_list (wl_balances w))).

Lemma own_balances_in name w r : r ∈ own_balances name w -> (exists k, wl_balances w !! k = Some r) /\ simple r
  /\ exists k, lookup_key (owner_of r) (wl_db w) = Ok (Some k) /\ has_private_key (record_data k) = true.
Proof.
  intros [Hc Hr]%list_elem_of_filter. apply list_elem_of_fmap in Hr as ([k r'] & -> & Hk%elem_of_map_to_list). cbn [snd] in *.
  unfold counts_for in Hc. destruct (spendable_by n name r' (wl_db w)) as [[x|]|] eqn:E; try done.
  destruct (spendable_by_inv _ _ _ _ E) as (o & mm & kr & Hd & _ & Ho & Hl & Hp & _).
  split_and!; [ by exists k | by exists o, mm | ]. exists kr. unfold owner_of. by rewrite Ho.
Qed.
Lemma own_balances_simple name w : Forall simple (own_balances name w).
Proof. apply Forall_forall. intros r Hr. by apply own_balances_in in Hr as (_ & ? & _). Qed.

(** Each balance is kept under its id. *)
Definition keyed (m : gmap address balance_record) : Prop := forall k r, m !! k = Some r -> balance_id r = k.
Lemma own_balances_distinct name w : keyed (wl_balances w) -> NoDup (map balance_id (own_balances name w)).
Proof.
  intros Hk. unfold own_balances. apply (sublist_NoDup _ (map balance_id (map snd (map_to_list (wl_balances w))))).
  - replace (map balance_id (map snd (map_to_list (wl_balances w)))) with (map fst (map_to_list (wl_balances w))); [ apply NoDup_fst_map_to_list | ].
    rewrite map_map. apply map_ext_in. intros [k r] Hin. cbn. symmetry. apply Hk. apply elem_of_map_to_list. by apply list_elem_of_In.
  - apply (fmap_sublist balance_id). apply sublist_filter.
Qed.

(** The part before the withdrawals. *)
Lemma withdraw_records name a w m d : name <> ""%string -> get_spendable_account_balance_records n name w = Ok m ->
  exists records, default [] records = own_balances name w
  /\ withdraw_to_transaction n a name w d =
     match records with
     | None => (d, Throw insufficient_funds)
     | Some records =>
         (remaining <~ withdraw_from n records a ;;
          match remaining with
          | None => nret tt
          | Some amount_remaining =>
              _ <~ nread (fun _ => to_pretty_asset a (nd_db n)) ;;
              available <~ nread (fun _ => asset_sub a amount_remaining) ;;
              _ <~ nread (fun _ => to_pretty_asset available (nd_db n)) ;;
              nthrow insufficient_funds
          end) d
     end.
Proof.
  intros Hn Hm. exists (m !! name). split; [ by apply spendable_records_spec | ].
  unfold withdraw_to_transaction. rewrite bool_decide_eq_false_2 by done. unfold nbind at 1 2, nread at 1 2. cbn [negb fc_assert].
  rewrite Hm. by destruct (m !! name).
Qed.

Lemma withdraw_enough name id v w m d : name <> ""%string -> 0 < v -> get_spendable_account_balance_records n name w = Ok m ->
  v <= available id (own_balances name w) ->
  withdraw_to_transaction n (mk_asset v id) name w d = (with_withdrawals (takes id (own_balances name w) v) d, Ok tt).
Proof.
  intros Hn Hv Hm Ha. destruct (withdraw_records name (mk_asset v id) w m d Hn Hm) as (records & E & ->).
  rewrite <- E in *. destruct records as [records|]; [ | cbn in Ha; lia ]. cbn [default from_option] in *. change (Datatypes.id records) with records in *.
  assert (Hs : Forall simple records) by (rewrite E; apply own_balances_simple).
  rewrite (nbind_ok _ _ _ _ _ (withdraw_from_takes id records v d Hs Hv)). by rewrite (proj2 (Z.leb_le _ _)).
Qed.
Lemma withdraw_too_much name id v w m d : name <> ""%string -> 0 < v -> get_spendable_account_balance_records n name w = Ok m ->
  available id (own_balances name w) < v -> is_ok (snd (withdraw_to_transaction n (mk_asset v id) name w d)) = false.
Proof.
  intros Hn Hv Hm Ha. destruct (withdraw_records name (mk_asset v id) w m d Hn Hm) as (records & E & ->).
  rewrite <- E in *. destruct records as [records|]; [ | done ]. cbn [default from_option] in *. change (Datatypes.id records) with records in *.
  assert (Hs : Forall simple records) by (rewrite E; apply own_balances_simple).
  rewrite (nbind_ok _ _ _ _ _ (withdraw_from_takes id records v d Hs Hv)). rewrite (proj2 (Z.leb_gt _ _)) by done.
  unfold nbind, nread. destruct (to_pretty_asset _ _); [ | done ]. destruct (asset_sub _ _); [ | done ]. by destruct (to_pretty_asset _ _).
Qed.

(** C29: An amount is withdrawn from different balances of the account, as they
    were scanned, each with a private key of the wallet whose address has to
    sign; the withdrawals add up to the amount, and they fail exactly if the
    balances of the asset do not reach it. *)
Theorem withdrawal_exact (name : string) (id v : Z) (w : wallet) (m : gmap string (list balance_record)) (d : draft) :
  name <> ""%string -> 0 < v -> keyed (wl_balances w) -> get_spendable_account_balance_records n name w = Ok m ->
  (v <= available id (own_balances name w) ->
   exists ws, withdraw_to_transaction n (mk_asset v id) name w d = (with_withdrawals ws d, Ok tt)
   /\ taken ws = v /\ NoDup (map (fun rv => balance_id (fst rv)) ws)
   /\ (forall r a, (r, a) ∈ ws -> wl_balances w !! balance_id r = Some r /\ balance_asset_id r = id /\ 0 < a <= br_balance r
       /\ owner_of r ∈ df_required_signatures (with_withdrawals ws d)
       /\ exists k, lookup_key (owner_of r) (wl_db w) = Ok (Some k) /\ has_private_key (record_data k) = true))
  /\ (available id (own_balances name w) < v -> is_ok (snd (withdraw_to_transaction n (mk_asset v id) name w d)) = false).
Proof.
  intros Hn Hv Hk Hm. split; [ | by eapply withdraw_too_much ]. intros Ha. exists (takes id (own_balances name w) v). split_and!.
  - by eapply withdraw_enough.
  - rewrite takes_sum by done. lia.
  - rewrite <- (map_map fst balance_id). apply (sublist_NoDup _ (map balance_id (own_balances name w))); [ by apply own_balances_distinct | ].
    apply (fmap_sublist balance_id), takes_sublist.
  - intros r a Hin. destruct (takes_within _ _ _ _ _ Hv Hin) as [Hr He].
    assert (Hown : r ∈ own_balances name w).
    { eapply elem_of_sublist; [ | apply (takes_sublist id _ v) ]. apply list_elem_of_fmap. by exists (r, a). }
    apply own_balances_in in Hown as ((k & Hb) & _ & Hkey). split_and!; try done; try lia.
    + by rewrite (Hk k r Hb).
    + cbn. apply elem_of_union_l, elem_of_list_to_set, list_elem_of_fmap. by exists (r, a).
Qed.

(** ** Scanning *)

(** An address that is the wallet's, for a wallet that is open. *)
Definition own_address (d : wallet_db) (a : address) : bool :=
  has_private (key_address ← w_btc_to_bts d !! a; w_keys d !! key_address).
Lemma any_own_address_spec d l : WalletDb.is_open d = true -> any_own_address l d = Ok (existsb (own_address d) l).
Proof.
  intros Ho. induction l as [|a l IH]; [ done | ]. cbn [any_own_address existsb]. unfold is_own_address, lookup_key. rewrite Ho. cbn [rbind fc_assert].
  fold (own_address d a). destruct (own_address d a); [ done | apply IH ].
Qed.

(** The balance of the pending state, if one of its owners is the wallet's. *)
Definition scanned_as (d : wallet_db) (id : address) : option balance_record :=
  match get_balance_record (nd_pending_state n) id with
  | Some r => if existsb (own_address d) (elements (balance_owners r)) then Some r else None
  | None => None
  end.
Definition scan_into (d : wallet_db) (m : gmap address balance_record) (record : balance_record) : gmap address balance_record :=
  match scanned_as d (balance_id record) with Some r => <[balance_id record := r]> m | None => m end.
Lemma scan_balance_spec w record : WalletDb.is_open (wl_db w) = true ->
  scan_balance n record w = (set_wl_balances (wl_dirty_balances w) (scan_into (wl_db w) (wl_balances w) record) w, Ok tt).
Proof.
  intros Ho. unfold scan_balance, scan_into, scanned_as. destruct (get_balance_record (nd_pending_state n) (balance_id record)) as [r|]; [ | by destruct w ].
  unfold nbind, read_db, nread. rewrite any_own_address_spec by done. destruct (existsb _ _); [ done | by destruct w ].
Qed.
Lemma scan_list_spec l w : WalletDb.is_open (wl_db w) = true ->
  nfold (fun record _ => scan_balance n record) l tt w
  = (set_wl_balances (wl_dirty_balances w) (foldl (scan_into (wl_db w)) (wl_balances w) l) w, Ok tt).
Proof.
  revert w. induction l as [|r l IH]; intros w Ho; [ by destruct w | ]. cbn [nfold foldl].
  rewrite (nbind_ok _ _ _ _ _ (scan_balance_spec w r Ho)). rewrite IH by done. by destruct w.
Qed.
Lemma scan_into_lookup d l m id : foldl (scan_into d) m l !! id =
  if bool_decide (id ∈ map balance_id l) then match scanned_as d id with Some r => Some r | None => m !! id end else m !! id.
Proof.
  revert m. induction l as [|r l IH]; intros m; cbn [foldl map]; [ done | ]. rewrite IH. unfold scan_into.
  destruct (decide (id = balance_id r)) as [->|Hne].
  - rewrite (bool_decide_eq_true_2 (_ ∈ _ :: _)) by left. destruct (scanned_as d (balance_id r)) eqn:E; [ rewrite lookup_insert_eq | ]; by case_bool_decide.
  - assert (Hiff : id ∈ balance_id r :: map balance_id l <-> id ∈ map balance_id l) by (rewrite elem_of_cons; tauto).
    rewrite (bool_decide_ext _ _ Hiff). destruct (scanned_as d (balance_id r)); [ by rewrite lookup_insert_ne | done ].
Qed.

(** After a scan the wallet has exactly the balances of the chain, as they
    are in the pending state, of which one owner is an address of a private key
    of the wallet; nothing else of the wallet changes. *)
Theorem balances_scanned (w : wallet) : WalletDb.is_open (wl_db w) = true ->
  exists m, scan_balances_experimental n w = (set_wl_balances false m w, Ok tt)
  /\ forall id r, m !! id = Some r <->
     (exists k b, flat balance_t (nd_db n) !! k = Some b /\ balance_id b = id)
     /\ get_balance_record (nd_pending_state n) id = Some r
     /\ exists a, a ∈ balance_owners r /\ own_address (wl_db w) a = true.
Proof.
  intros Ho. set (l := map snd (map_to_list (flat balance_t (nd_db n)))). exists (foldl (scan_into (wl_db w)) ∅ l). split.
  - unfold scan_balances_experimental. rewrite nwrite_inv. fold l.
    rewrite (nbind_ok _ _ _ _ _ (scan_list_spec l (set_wl_balances (wl_dirty_balances w) ∅ w) Ho)). by destruct w.
  - intros id r. rewrite scan_into_lookup, lookup_empty.
    assert (Hl : id ∈ map balance_id l <-> exists k b, flat balance_t (nd_db n) !! k = Some b /\ balance_id b = id).
    { unfold l. rewrite map_map, list_elem_of_fmap. split.
      - intros ([k b] & -> & Hb%elem_of_map_to_list). by exists k, b.
      - intros (k & b & Hb & <-). exists (k, b). split; [ done | by apply elem_of_map_to_list ]. }
    assert (Hs : scanned_as (wl_db w) id = Some r <->
      get_balance_record (nd_pending_state n) id = Some r /\ exists a, a ∈ balance_owners r /\ own_address (wl_db w) a = true).
    { unfold scanned_as. destruct (get_balance_record (nd_pending_state n) id) as [r'|]; [ | split; [ done | by intros [? _] ] ].
      destruct (existsb (own_address (wl_db w)) (elements (balance_owners r'))) eqn:E.
      - apply existsb_exists in E as (a & Ha%list_elem_of_In%elem_of_elements & Hown). split; [ intros [= ->]; eauto | by intros [? _] ].
      - split; [ done | ]. intros ([= ->] & a & Ha & Hown). exfalso. apply not_true_iff_false in E. apply E, existsb_exists.
        exists a. split; [ by apply list_elem_of_In, elem_of_elements | done ]. }
    case_bool_decide as Hin; rewrite <- Hs, <- Hl; [ | by split; [ | intros [? _] ] ].
    destruct (scanned_as (wl_db w) id); split; [ by intros H; split | by intros [_ H] | done | by intros [_ H] ].
Qed.
End spending.

(** ** A concrete wallet *)

#[local] Existing Instance wallet_crypto.
#[local] Existing Instance demo_keys.
#[local] Existing Instance demo_tx.
#[local] Existing Instance demo_hash.
#[local] Existing Instance demo_statics.
#[local] Existing Instance demo_signing.
#[local] Existing Instance demo_text.
#[local] Existing Instance demo_pretty_number.
#[local] Existing Instance demo_env.

Lemma keyed_check m : bool_decide (map_Forall (fun k r => balance_id r = k) m) = true -> keyed m.
Proof. intros H%bool_decide_eq_true_1 k r Hk. by apply (H k r). Qed.

Lemma withdrawal_exact_witness : exists ws,
  withdraw_to_transaction demo_node (mk_asset 350000 0) "alice" alices_wallet draft_empty = (with_withdrawals ws draft_empty, Ok tt)
  /\ taken ws = 350000
  /\ is_ok (snd (withdraw_to_transaction demo_node (mk_asset 900000001 0) "alice" alices_wallet draft_empty)) = false.
Proof.
  assert (Hm : exists m, get_spendable_account_balance_records demo_node "alice" alices_wallet = Ok m) by (eexists; vm_compute; reflexivity).
  destruct Hm as [m Hm].
  assert (Hk : keyed (wl_balances alices_wallet)) by (apply keyed_check; vm_compute; reflexivity).
  destruct (withdrawal_exact demo_node "alice" 0 350000 alices_wallet m draft_empty ltac:(done) ltac:(done) Hk Hm) as [H _].
  destruct H as (ws & E & Ht & _); [ vm_compute; discriminate | ]. exists ws. split_and!; [ exact E | exact Ht | ].
  apply (withdrawal_exact demo_node "alice" 0 900000001 alices_wallet m draft_empty); [ done | done | exact Hk | exact Hm | by vm_compute ].
Defined.

Lemma balances_scanned_witness : exists m,
  scan_balances_experimental demo_node alices_wallet = (set_wl_balances false m alices_wallet, Ok tt)
  /\ m !! balance_id alice_balance = Some alice_balance.
Proof.
  destruct (balances_scanned demo_node alices_wallet) as (m & E & H); [ by vm_compute | ]. exists m. split; [ exact E | ].
  apply H. split_and!.
  - exists (balance_id alice_balance), alice_balance. split; [ by vm_compute | done ].
  - by vm_compute.
  - exists 24. split; [ apply (bool_decide_eq_true_1 (24 ∈ balance_owners alice_balance)); by vm_compute | by vm_compute ].
Defined.
