(* ===== verification/BuilderProps.v ===== *)
(** What a builder's transaction moves (TransactionBuilder.v): what is taken
    from balances and not deposited again is what was charged and the fee. *)

From Stdlib Require Import String.
From S2P Require Import Prelude StateMonad Asset Names Records Keys Building ChainInterface EvalState BalanceOps Supply Tables PendingState ChainDatabase BlockOps Market Node.
From S2P Require Import Storage AmountText AddressText WalletDb WalletProps Wallet Spending TransactionBuilder Concrete WalletDemo SpendingProps.

Section accounting.
Context `{Cr : Crypto} `{Kc : KeyCrypto} `{Tx : TxCrypto} `{Wh : WalletHash} `{St : Statics} `{FcI : Fc} `{Sg : Signing}.
Context `{Tc : TextCodec} `{Pn : PrettyNumber} `{We : WalletEnv}.
Variable n : node.
(** The balances the wallet has scanned. *)
Variable Bal : gmap address balance_record.

(** ** What operations move *)

(** The asset of a balance. *)
Definition asset_of (id : address) : Z :=
  match Bal !! id with
  | Some r => balance_asset_id r
  | None => match get_balance_record (nd_db n) id with Some r => balance_asset_id r | None => 0 end
  end.
(** What an operation brings into the transaction, of the asset [a]. *)
Definition op_flow (a : Z) (op : operation) : Z :=
  match op with
  | op_withdraw o => on_asset a (asset_of (wd_balance_id o)) (wd_amount o)
  | op_withdraw_pay o => on_asset a 0 (wp_amount o)
  | op_deposit o => - on_asset a (wc_asset_id (dp_condition o)) (dp_amount o)
  | op_bid o => - on_asset a (quote_asset_id (mi_order_price (mo_index o))) (mo_amount o)
  | op_ask o => - on_asset a (base_asset_id (mi_order_price (mo_index o))) (mo_amount o)
  | _ => 0
  end.
Fixpoint ops_flow (a : Z) (ops : list operation) : Z :=
  match ops with [] => 0 | op :: ops => op_flow a op + ops_flow a ops end.
Definition flow (a : Z) (t : signed_transaction) : Z := ops_flow a (tx_operations t).

Lemma ops_flow_app a l l' : ops_flow a (l ++ l') = ops_flow a l + ops_flow a l'.
Proof. induction l as [|op l IH]; cbn [ops_flow app]; lia. Qed.
Lemma flow_emplace a op t : flow a (emplace_back op t) = flow a t + op_flow a op.
Proof. unfold flow, emplace_back. cbn [tx_operations set_operations]. rewrite ops_flow_app. cbn [ops_flow]. lia. Qed.
Lemma flow_set_slates a slate t : flow a (set_slates slate t) = flow a t.
Proof.
  unfold flow, set_slates. cbn [tx_operations set_operations]. induction (tx_operations t) as [|op l IH]; [ done | ]. cbn [map ops_flow].
  rewrite IH. f_equal. destruct op; try done. cbn [with_slate]. destruct (wc_asset_id (dp_condition o) =? 0) eqn:E; [ | done ]. done.
Qed.

Definition owed (a : Z) (b : builder) : Z := map_sum (fun key v => on_asset a (snd key) v) (bd_outstanding_balances b).
(** What the transaction moves when what is outstanding is made up for. *)
Definition due (a : Z) (b : builder) : Z := flow a (bd_trx b) - owed a b.

Lemma on_asset_plus a id x y : on_asset a id (x + y) = on_asset a id x + on_asset a id y.
Proof. unfold on_asset. destruct (id =? a); lia. Qed.
Lemma on_asset_opp a id x : on_asset a id (- x) = - on_asset a id x.
Proof. unfold on_asset. destruct (id =? a); lia. Qed.
Lemma on_asset_0 a id : on_asset a id 0 = 0.
Proof. unfold on_asset. by destruct (id =? a). Qed.
#[local] Instance on_asset_proper : Proper (eq ==> eq ==> eqm ==> eqm) on_asset.
Proof. intros a ? <- id ? <- x y H. unfold on_asset. by destruct (id =? a). Qed.

(** ** Computations and what they move *)

Definition moves {A} (m : bm A) (x : A -> Z -> Z) : Prop :=
  forall s s' r, wl_balances (fst s) = Bal -> m s = (s', Ok r) ->
    wl_balances (fst s') = Bal /\ forall a, due a (snd s') ≡64 due a (snd s) + x r a.
Definition nothing {A} : A -> Z -> Z := fun _ _ => 0.
Definition charge {A} (x : asset) : A -> Z -> Z := fun _ a => on_asset a (asset_id x) (amount x).

Lemma moves_eqm {A} (m : bm A) x y : moves m x -> (forall r a, x r a ≡64 y r a) -> moves m y.
Proof. intros Hm Hxy s s' r Hs E. destruct (Hm s s' r Hs E) as [Hb Hd]. split; [ done | ]. intros a. by rewrite Hd, Hxy. Qed.
Lemma moves_bind {A B} (m : bm A) (f : A -> bm B) x y : moves m x -> (forall r, moves (f r) (fun q a => y q a - x r a)) -> moves (nbind m f) y.
Proof.
  intros Hm Hf s s' q Hs [(s1 & r & E1 & E2)|(e & _ & ?)]%nbind_inv; [ | done ]. destruct (Hm _ _ _ Hs E1) as [Hs1 H1].
  destruct (Hf r _ _ _ Hs1 E2) as [Hs2 H2]. split; [ done | ]. intros a. rewrite H2, H1. eqm_solve.
Qed.
Lemma moves_bind_0 {A B} (m : bm A) (f : A -> bm B) y : moves m nothing -> (forall r, moves (f r) y) -> moves (nbind m f) y.
Proof.
  intros Hm Hf. apply (moves_bind m f nothing y Hm). intros r. apply (moves_eqm _ y); [ apply Hf | ]. intros q a. unfold nothing. eqm_solve.
Qed.
Lemma moves_throw {A} e (x : A -> Z -> Z) : moves (nthrow e) x.
Proof. by intros s s' r _ [=]. Qed.
Lemma moves_ret {A} (r : A) : moves (nret r) nothing.
Proof. intros s s' q Hs [= <- <-]. split; [ done | ]. intros a. unfold nothing. eqm_solve. Qed.
Lemma moves_read {A} (f : wallet * builder -> result A) : moves (nread f) nothing.
Proof. intros s s' r Hs [= <- _]. split; [ done | ]. intros a. unfold nothing. eqm_solve. Qed.
Lemma moves_wallet {A} (m : wm A) : keeps (fun w => wl_balances w = Bal) m -> moves (on_wallet m) nothing.
Proof.
  intros Hm [w b] s' r Hs E. unfold on_wallet in E. cbn [fst snd] in E. destruct (m w) as [w' r'] eqn:Em. injection E as <- ->.
  split; [ by eapply Hm | ]. intros a. unfold nothing. cbn [snd]. eqm_solve.
Qed.
(** A change of the builder. *)
Lemma moves_builder f x : (forall b a, due a (f b) ≡64 due a b + x tt a) -> moves (on_builder f) x.
Proof. intros Hf [w b] s' r Hs [= <- <-]. split; [ done | ]. intros a. apply Hf. Qed.
Lemma moves_same f : (forall b, bd_trx (f b) = bd_trx b /\ bd_outstanding_balances (f b) = bd_outstanding_balances b) -> moves (on_builder f) nothing.
Proof. intros Hf. apply moves_builder. intros b a. destruct (Hf b) as [E1 E2]. unfold due, owed, nothing. rewrite E1, E2. eqm_solve. Qed.
(** A change of the transaction. *)
Lemma moves_draft {A} (m : wallet -> draft_m A) x :
  (forall w d d' r, wl_balances w = Bal -> m w d = (d', Ok r) -> forall a, flow a (df_trx d') ≡64 flow a (df_trx d) + x r a) ->
  moves (on_draft m) x.
Proof.
  intros Hm [w b] s' r Hs E. unfold on_draft in E. cbn [fst snd] in *. destruct (m w (bd_draft b)) as [d' r'] eqn:Em. injection E as <- ->.
  split; [ done | ]. intros a. cbn [snd]. unfold due, owed, bd_trx. cbn [bd_draft set_bd_draft bd_outstanding_balances].
  rewrite (Hm w _ _ _ Hs Em a). eqm_solve.
Qed.
Lemma moves_operation f (x : Z -> Z) : (forall t t', f t = Ok t' -> forall a, flow a t' ≡64 flow a t + x a) -> moves (on_operations f) (fun _ => x).
Proof.
  intros Hf. apply moves_draft. intros w d d' r _ E a. unfold on_trx in E. destruct (f (df_trx d)) as [t'|] eqn:Ef; [ | done ].
  injection E as <- _. by apply Hf.
Qed.
Lemma moves_append f (x : Z -> Z) : (forall t a, flow a (f t) ≡64 flow a t + x a) -> moves (append_operation f) (fun _ => x).
Proof. intros Hf. apply moves_draft. intros w d d' r _ [= <- _] a. apply Hf. Qed.
Lemma moves_must_sign o : moves (must_sign o) nothing.
Proof. apply moves_draft. intros w d d' r _ [= <- _] a. unfold nothing. cbn. eqm_solve. Qed.
Lemma moves_ledger c e : moves (add_ledger_entry c e) nothing.
Proof. by apply moves_same. Qed.

(** Leaves that move nothing where nothing is left to be moved. *)
Lemma moves_done {A} (m : bm A) y : moves m nothing -> (forall r a, 0 ≡64 y r a) -> moves m y.
Proof. intros Hm Hy. by apply (moves_eqm m nothing). Qed.

(** ** The steps *)

Lemma owed_insert a key v b : owed a (set_bd_balances (<[key := v]> (bd_outstanding_balances b)) b)
  = owed a b - on_asset a (snd key) (at_or_0 (bd_outstanding_balances b) key) + on_asset a (snd key) v.
Proof.
  unfold owed. cbn [bd_outstanding_balances set_bd_balances]. rewrite map_sum_insert. unfold at_or_0, contrib.
  destruct (bd_outstanding_balances b !! key); cbn; [ done | ]. rewrite on_asset_0. lia.
Qed.
Lemma moves_change account id delta : moves (change_balance account id delta) (fun _ a => - on_asset a id delta).
Proof.
  apply moves_builder. intros b a. unfold due. rewrite owed_insert. cbn [snd].
  assert (E : on_asset a id (at_or_0 (bd_outstanding_balances b) (account, id) +! delta)
    ≡64 on_asset a id (at_or_0 (bd_outstanding_balances b) (account, id)) + on_asset a id delta).
  { rewrite <- on_asset_plus. by rewrite eqm_add64. }
  rewrite E. unfold bd_trx. cbn [bd_draft set_bd_balances]. eqm_solve.
Qed.
Lemma moves_deduct account x : moves (deduct_balance account x) (charge x).
Proof.
  apply moves_bind_0; [ apply moves_read | ]. intros _. apply (moves_eqm _ _ _ (moves_change _ _ _)). intros r a. rewrite on_asset_opp.
  unfold charge. eqm_solve.
Qed.
Lemma moves_credit account x : moves (credit_balance account x) (fun _ a => - on_asset a (asset_id x) (amount x)).
Proof. apply moves_bind_0; [ apply moves_read | ]. intros _. apply moves_change. Qed.

(** An amount that is not positive is never withdrawn. *)
Lemma withdraw_positive l v id d d' : v <= 0 -> Forall simple l -> withdraw_from n l (mk_asset v id) d <> (d', Ok None).
Proof.
  intros Hv Hl. revert d. induction Hl as [|r l Hr Hl IH]; intros d; cbn [withdraw_from]; [ by intros [=] | ].
  destruct (simple_spendable r (now n tt) Hr) as [Es Eo]. unfold nbind at 1, nread at 1. rewrite Es, Eo. cbn [amount asset_id].
  destruct (Z.leb_spec (br_balance r) 0); cbn [orb]; [ apply IH | ]. destruct (_ =? _); cbn [negb]; [ | apply IH ].
  rewrite (proj2 (Z.ltb_ge _ _)) by lia. unfold nbind, on_trx, withdraw. rewrite (proj2 (Z.ltb_ge _ _)) by lia. by intros [=].
Qed.

Hypothesis Bal_keyed : keyed Bal.

Lemma taken_flow name id w ws a : wl_balances w = Bal -> (forall r v, (r, v) ∈ ws -> r ∈ own_balances n name w /\ balance_asset_id r = id) ->
  ops_flow a (map withdrawal ws) = on_asset a id (taken ws).
Proof.
  intros Hw. induction ws as [|[r v] ws IH]; intros H; cbn [map ops_flow taken]; [ by rewrite on_asset_0 | ].
  rewrite IH by (intros r' v' Hin; apply (H r' v'); by right). destruct (H r v ltac:(left)) as [Hr Hid].
  apply own_balances_in in Hr as ((k & Hk) & _). rewrite Hw in Hk. cbn. unfold asset_of. rewrite (Bal_keyed _ _ Hk), Hk, Hid, on_asset_plus. lia.
Qed.
Lemma withdraw_flow name id v w d d' : wl_balances w = Bal -> withdraw_to_transaction n (mk_asset v id) name w d = (d', Ok tt) ->
  forall a, flow a (df_trx d') = flow a (df_trx d) + on_asset a id v.
Proof.
  intros Hw H a. destruct (decide (name = ""%string)) as [->|Hn].
  { unfold withdraw_to_transaction in H. rewrite bool_decide_eq_true_2 in H by done. done. }
  destruct (get_spendable_account_balance_records n name w) as [m|e] eqn:Em.
  2: { unfold withdraw_to_transaction, nbind, nread in H. rewrite bool_decide_eq_false_2, Em in H by done. done. }
  destruct (withdraw_records n name (mk_asset v id) w m d Hn Em) as (records & E & Ew). rewrite Ew in H.
  destruct records as [records|]; [ | done ]. cbn [default from_option] in E. change (Datatypes.id records) with records in E.
  assert (Hs : Forall simple records) by (rewrite E; apply own_balances_simple).
  destruct (Z.le_gt_cases v 0) as [Hv|Hv].
  { apply nbind_inv in H as [(d1 & o & E1 & E2)|(e & _ & ?)]; [ | done ]. destruct o as [o|].
    - exfalso. clear -E2. unfold nbind, nread in E2. destruct (to_pretty_asset _ _); [ | done ]. destruct (asset_sub _ _); [ | done ].
      by destruct (to_pretty_asset _ _).
    - by apply withdraw_positive in E1. }
  rewrite E, (nbind_ok _ _ _ _ _ (withdraw_from_takes n id _ v d (own_balances_simple n name w) Hv)) in H.
  destruct (Z.leb_spec v (available id (own_balances n name w))) as [Ha|].
  - injection H as <-. unfold flow. cbn. rewrite ops_flow_app, (taken_flow name id w); [ rewrite takes_sum by done; f_equal; f_equal; lia | done | ].
    intros r x Hin. split; [ | by apply (takes_within _ _ _ _ _ Hv) in Hin as [_ ?] ].
    eapply elem_of_sublist; [ | apply (takes_sublist id _ v) ]. apply list_elem_of_fmap. by exists (r, x).
  - exfalso. clear -H. unfold nbind, nread in H. destruct (to_pretty_asset _ _); [ | done ]. destruct (asset_sub _ _); [ | done ].
    by destruct (to_pretty_asset _ _).
Qed.
Lemma moves_withdraw x name : moves (on_draft (withdraw_to_transaction n x name)) (charge x).
Proof.
  apply moves_draft. intros w d d' [] Hw E a. destruct x as [v id]. rewrite (withdraw_flow _ _ _ _ _ _ Hw E a). unfold charge. done.
Qed.

(** What the wallet does for a key leaves its balances. *)
Lemma keeps_on_db {A} (m : wallet_m A) : keeps (fun w => wl_balances w = Bal) (on_db m).
Proof.
  intros w w' r E Hw. unfold on_db in E. destruct (m (wl_db w)) as [d x]. injection E as <- _. unfold sync.
  destruct (wl_db_path _); [ destruct (lm_files _) | ]; done.
Qed.
Lemma keeps_get_new_private_key name : keeps (fun w => wl_balances w = Bal) (get_new_private_key name).
Proof.
  unfold get_new_private_key. apply keeps_bind; [ apply keeps_read | intros _ ]. apply keeps_bind; [ apply keeps_read | intros [a|] ]; [ | apply keeps_throw ].
  apply (keeps_at _ (fun w => on_db _)). intros w. apply keeps_on_db.
Qed.
Lemma moves_new_private_key name : moves (on_wallet (get_new_private_key name)) nothing.
Proof. apply moves_wallet, keeps_get_new_private_key. Qed.
Lemma moves_new_public_key name : moves (on_wallet (get_new_public_key name)) nothing.
Proof.
  apply moves_wallet. unfold get_new_public_key. apply keeps_bind; [ apply keeps_get_new_private_key | intros k; apply keeps_ret ].
Qed.
Lemma moves_order_key account name : moves (order_key_for_account account name) nothing.
Proof.
  unfold order_key_for_account. apply moves_bind_0; [ apply moves_read | intros k ]. apply moves_bind_0; [ by apply moves_same | intros _ ].
  destruct (k =? null_key); [ | apply moves_ret ]. apply moves_bind_0; [ apply moves_new_public_key | intros k' ].
  apply moves_bind_0; [ by apply moves_same | intros _; apply moves_ret ].
Qed.
Lemma moves_expiration t secs : moves (set_default_expiration t secs) nothing.
Proof.
  unfold set_default_expiration. apply moves_bind_0; [ apply moves_read | intros e ]. destruct (e =? 0); [ | apply moves_ret ].
  apply moves_bind_0; [ apply moves_read | intros x ]. apply moves_append. intros tr a. unfold flow. cbn [tx_operations set_expiration]. eqm_solve.
Qed.
Lemma moves_slate strategy : moves (on_draft (set_delegate_slate n strategy)) nothing.
Proof.
  apply moves_draft. intros w d d' [] _ E a. unfold nothing. rewrite Z.add_0_r. destruct strategy; cbn [set_delegate_slate] in E;
    [ by injection E as <- | | | ]; (unfold nbind, nread, append, nwrite in E; destruct (get_delegate_slate n _ w) as [slate|]; [ | done ];
    destruct (_ =? 0); [ by injection E as <- | ]; injection E as <-; cbn [df_trx set_df_trx]; rewrite flow_set_slates;
    by case_match).
Qed.

(** ** The operations of a builder *)

Lemma moves_check c : moves (check c) nothing.
Proof. apply moves_read. Qed.
Lemma moves_value_of {A} (r : result A) : moves (value_of r) nothing.
Proof. apply moves_read. Qed.
Lemma moves_read_wallet {A} (f : wallet -> result A) : moves (read_wallet f) nothing.
Proof. apply moves_read. Qed.
Lemma moves_read_builder {A} (f : builder -> result A) : moves (read_builder f) nothing.
Proof. apply moves_read. Qed.
#[local] Hint Resolve moves_check moves_value_of moves_read_wallet moves_read_builder moves_ret moves_read moves_throw moves_must_sign moves_ledger moves_new_private_key moves_order_key moves_expiration
  moves_slate : core.
Ltac quiet := apply moves_bind_0; [ first [ by auto | by apply moves_same ] | intros ].

(** A transaction with an operation more. *)
Lemma moves_checked (c : result unit) op :
  moves (on_operations (fun t => _ <- c ;; Ok (emplace_back op t))) (fun _ a => op_flow a op).
Proof.
  apply moves_operation. intros t t' E a. destruct c; [ | done ]. cbn in E. apply Ok_inj in E as <-. rewrite flow_emplace. done.
Qed.
Lemma moves_deposit x o : moves (on_operations (deposit_to_address x o)) (fun _ a => - on_asset a (asset_id x) (amount x)).
Proof.
  apply moves_operation. intros t t' E a. unfold deposit_to_address, new_deposit in E. destruct (0 <? amount x); [ | done ]. cbn in E.
  apply Ok_inj in E as <-. rewrite flow_emplace. done.
Qed.
Lemma moves_memo_deposit x sender recipient one_time memo stealth :
  moves (on_operations (fun t => kt <- deposit_with_encrypted_memo x sender recipient one_time memo stealth t ;; Ok (snd kt)))
    (fun _ a => - on_asset a (asset_id x) (amount x)).
Proof.
  apply moves_operation. intros t t' E a. unfold deposit_with_encrypted_memo in E. destruct (encrypt_memo_data _ _ _ _ _) as [[c k]|]; [ | done ].
  cbn in E. apply Ok_inj in E as <-. rewrite flow_emplace. done.
Qed.
Lemma moves_emplace (f : signed_transaction -> signed_transaction) op : (forall t, f t = emplace_back op t) ->
  moves (append_operation f) (fun _ a => op_flow a op).
Proof. intros Hf. apply moves_append. intros t a. rewrite Hf, flow_emplace. done. Qed.

Lemma moves_other f : (forall t, exists op, f t = emplace_back op t /\ forall a, op_flow a op = 0) -> moves (append_operation f) nothing.
Proof. intros Hf. apply moves_append. intros t a. destruct (Hf t) as (op & -> & H). rewrite flow_emplace, H. done. Qed.
Ltac other := apply moves_other; intros t'; eexists; split; [ reflexivity | done ].

Lemma moves_release_escrow payer escrow released to_sender to_receiver t fee s : read_wallet (get_transaction_fee n 0) s = (s, Ok fee) ->
  forall s', wl_balances (fst s) = Bal -> builder_release_escrow n payer escrow released to_sender to_receiver t s = (s', Ok tt) ->
  wl_balances (fst s') = Bal /\ forall a, due a (snd s') ≡64 due a (snd s) + charge fee tt a.
Proof.
  intros Hfee s' Hs E. unfold builder_release_escrow in E.
  apply nread_inv in E as [(r & _ & E)|(? & _ & _ & ?)]; [ | done ]. apply nread_inv in E as [(p & _ & E)|(? & _ & _ & ?)]; [ | done ].
  rewrite (nbind_ok _ _ _ _ _ Hfee) in E. revert s' Hs E.
  enough (H : moves (_ <~ on_draft (withdraw_to_transaction n fee (ac_name payer)) ;;
    _ <~ append_operation (release_escrow escrow released (amount to_sender) (amount to_receiver)) ;;
    _ <~ (if released =? null_address then _ <~ must_sign (fst p) ;; must_sign (snd p) else must_sign released) ;;
    _ <~ set_default_expiration t get_transaction_expiration ;;
    on_builder (fun b => set_bd_record (trx_id (bd_trx b)) t b)) (charge fee)) by (intros s' Hs E; by apply (H s s' tt)).
  apply (moves_bind _ _ (charge fee)); [ apply moves_withdraw | intros [] ].
  apply moves_done; [ | intros [] a; unfold charge; eqm_solve ].
  apply moves_bind_0; [ other | intros _ ].
  apply moves_bind_0; [ destruct (released =? null_address); [ quiet; auto | auto ] | intros _ ].
  quiet. by apply moves_same.
Qed.

Definition registration_charge (name : string) : asset := mk_asset (get_account_registration_fee (string_size name `mod` 256)) 0.
Lemma moves_register_account name data owner active pay info payer :
  moves (builder_register_account name data owner active pay info payer) (charge (registration_charge name)).
Proof.
  unfold builder_register_account. destruct payer as [p|].
  - apply (moves_bind _ _ (charge (registration_charge name))); [ apply moves_deduct | intros [] ].
    apply moves_done; [ | intros [] a; unfold charge; eqm_solve ].
    apply moves_bind_0; [ other | intros _; auto ].
  - quiet. apply moves_bind_0; [ other | auto ].
Qed.

Lemma moves_value {A B} (r : result A) (f : A -> bm B) y : (forall v, r = Ok v -> moves (f v) y) -> moves (nbind (value_of r) f) y.
Proof.
  intros H s s' q Hs E. apply nread_inv in E as [(v & Ev & E)|(? & _ & _ & ?)]; [ by apply (H v Ev s) | done ].
Qed.

(** The fee for a new pay rate. *)
Definition update_charge (account : account_record) (delegate_pay : option Z) : result asset :=
  match delegate_pay with
  | Some pay =>
      if (negb (is_delegate account) && (pay <=? 100)) || (is_delegate account && negb (pay =? delegate_pay_rate account))
      then fee <- get_delegate_registration_fee (nd_db n) pay ;; Ok (mk_asset fee 0) else Ok no_asset
  | None => Ok no_asset
  end.
Lemma charge_nothing {A} (r : A) a : charge no_asset r a = 0.
Proof. apply on_asset_0. Qed.
Lemma moves_update_pay_rate account payer pay signatures x : update_charge account (Some pay) = Ok x ->
  moves (update_pay_rate n account payer pay signatures) (charge x).
Proof.
  intros Hx. unfold update_pay_rate. unfold update_charge in Hx. quiet. destruct (_ || _).
  - destruct (get_delegate_registration_fee (nd_db n) pay) as [fee|] eqn:Ef; [ | done ]. apply Ok_inj in Hx as <-.
    apply moves_value. intros fee' [= <-].
    apply moves_bind_0; [ auto | intros [] ]; apply (moves_bind _ _ (charge (mk_asset fee 0))).
    + apply (moves_bind _ _ (charge (mk_asset fee 0))); [ apply moves_checked | intros [] ].
      apply moves_done; [ quiet; auto | intros ? a; unfold charge; eqm_solve ].
    + intros ?. apply moves_done; [ quiet; auto | intros ? a; unfold charge; eqm_solve ].
    + apply (moves_bind _ _ (charge (mk_asset fee 0))); [ apply moves_deduct | intros [] ].
      apply moves_done; [ auto | intros ? a; unfold charge; eqm_solve ].
    + intros ?. apply moves_done; [ quiet; auto | intros ? a; unfold charge; eqm_solve ].
  - apply Ok_inj in Hx as <-. apply moves_done; [ auto | intros ? a; by rewrite charge_nothing ].
Qed.
Lemma moves_update_account account data active pay payer x : update_charge account pay = Ok x ->
  moves (update_account_registration n account data active pay payer) (charge x).
Proof.
  intros Hx. unfold update_account_registration. do 4 quiet.
  apply moves_bind_0; [ apply (moves_eqm _ _ _ (moves_deduct _ _)); intros ? a; by rewrite charge_nothing | intros _ ].
  apply (moves_bind _ _ (charge x)).
  { destruct pay as [pay|]; [ by apply moves_update_pay_rate | ]. apply Ok_inj in Hx as <-. apply moves_done; [ auto | intros ? a; by rewrite charge_nothing ]. }
  intros signatures. apply moves_done; [ | intros ? a; unfold charge; eqm_solve ].
  apply moves_bind_0; [ destruct active; [ | auto ] | intros _ ].
  { apply moves_bind_0; [ auto | intros registered ]. apply moves_bind_0; [ destruct registered; auto | intros local ]. quiet. auto. }
  apply moves_bind_0; [ other | intros _ ]. apply moves_bind_0; [ destruct data; auto | intros _; by apply moves_same ].
Qed.

Lemma moves_notify memo one_time k recipient : moves (notify memo one_time k recipient) nothing.
Proof. unfold notify. quiet. by apply moves_same. Qed.
Lemma moves_not_retracted r : moves (not_retracted r) nothing.
Proof. unfold not_retracted. quiet. auto. Qed.
Lemma moves_positive x : moves (positive_deposit x) nothing.
Proof. apply moves_check. Qed.
#[local] Hint Resolve moves_notify moves_not_retracted moves_positive : core.

(** An amount that is taken from the balance and paid by an operation. *)
Lemma moves_paid {A} (m : bm A) account x y : moves m (fun _ a => - on_asset a (asset_id x) (amount x)) ->
  forall k : bm unit, moves k y -> moves (_ <~ m ;; _ <~ deduct_balance account x ;; k) y.
Proof.
  intros Hm k Hk. eapply moves_bind; [ exact Hm | intros ? ]. eapply moves_bind; [ apply moves_deduct | intros [] ].
  apply (moves_eqm _ _ _ Hk). intros [] a. unfold charge. eqm_solve.
Qed.
Lemma moves_deposit_asset payer recipient x memo sender : moves (deposit_asset payer recipient x memo sender) nothing.
Proof.
  unfold deposit_asset. do 10 quiet. apply moves_paid; [ apply moves_memo_deposit | ]. quiet. auto.
Qed.
Lemma moves_deposit_to_address payer o x memo : moves (deposit_asset_to_address payer o x memo) nothing.
Proof. unfold deposit_asset_to_address. quiet. apply moves_paid; [ apply moves_deposit | auto ]. Qed.

(** The fee is taken with the amount. *)
Lemma asset_add_sum x y z : asset_add x y = Ok z -> asset_id x = asset_id y /\ asset_id z = asset_id x /\ amount z = amount x + amount y.
Proof.
  unfold asset_add. destruct (Z.eqb_spec (asset_id x) (asset_id y)); [ | done ]. cbn [fc_assert rbind]. destruct (_ || _); [ done | ]. by intros <-%Ok_inj.
Qed.
Lemma moves_deposit_to_multisig x name k addresses fee s : read_wallet (get_transaction_fee n 0) s = (s, Ok fee) ->
  forall s', wl_balances (fst s) = Bal -> deposit_asset_to_multisig n x name k addresses s = (s', Ok tt) ->
  wl_balances (fst s') = Bal /\ forall a, due a (snd s') ≡64 due a (snd s) + charge fee tt a.
Proof.
  intros Hfee s' Hs E. unfold deposit_asset_to_multisig, positive_deposit, check in E.
  apply nread_inv in E as [(r & _ & E)|(? & _ & _ & ?)]; [ | done ]. apply nread_inv in E as [(p & _ & E)|(? & _ & _ & ?)]; [ | done ].
  rewrite (nbind_ok _ _ _ _ _ Hfee) in E. revert s' Hs E.
  match goal with |- forall s', _ -> ?m s = _ -> _ => enough (H : moves m (charge fee)) by (intros s' Hs E; by apply (H s s' tt)) end.
  quiet. eapply moves_bind; [ apply moves_checked | intros [] ]. apply moves_value. intros total (Hsame & Hid & Ht)%asset_add_sum.
  eapply moves_bind; [ apply moves_deduct | intros [] ]. apply moves_done; [ auto | ]. intros [] a. unfold charge. cbn [op_flow dp_condition dp_amount wc_asset_id].
  rewrite Hid, Ht, on_asset_plus, Hsame. eqm_solve.
Qed.

(** Without a deposit the amount is charged all the same. *)
Definition escrow_charge (recipient : account_record) (x : asset) : asset := if is_titan_account recipient then no_asset else x.
Lemma kept_store_key k : keeps (fun w => wl_balances w = Bal) (on_db (store_key k)).
Proof. apply keeps_on_db. Qed.
Lemma moves_escrow_deposit payer recipient agent agreement x memo sender :
  moves (escrow_deposit payer recipient agent agreement x memo sender)
    (fun _ a => charge (escrow_charge recipient x) tt a - on_asset a (asset_id x) (amount x)).
Proof.
  unfold escrow_deposit, escrow_charge. destruct (is_titan_account recipient); cbn [negb].
  - do 4 quiet. apply (moves_bind _ _ (fun _ a => - on_asset a (asset_id x) (amount x))).
    + apply moves_draft. intros w d d' k _ E a. unfold on_trx_with, deposit_to_escrow in E.
      destruct (encrypt_escrow_memo _ _ _ _ _ _) as [[c k']|]; [ | done ]. cbn in E. injection E as <- _. cbn [df_trx set_df_trx].
      rewrite flow_emplace. done.
    + intros k. apply moves_done; [ | intros ? a; rewrite charge_nothing; eqm_solve ].
      apply moves_bind_0; [ apply moves_wallet, kept_store_key | auto ].
  - apply moves_done; [ auto | intros ? a; unfold charge; eqm_solve ].
Qed.
Lemma moves_deposit_with_escrow payer recipient agent agreement x memo sender :
  moves (deposit_asset_with_escrow payer recipient agent agreement x memo sender) (charge (escrow_charge recipient x)).
Proof.
  unfold deposit_asset_with_escrow. do 5 quiet. eapply moves_bind; [ apply moves_escrow_deposit | intros one_time ].
  eapply moves_bind; [ apply moves_deduct | intros [] ]. apply moves_done; [ do 2 quiet; auto | intros [] a; unfold charge; eqm_solve ].
Qed.

(** Balances that are named: what is withdrawn is charged, what is deposited is
    given back. *)
Lemma moves_withdraw_from_balance from v b : balance_to_withdraw n from = Ok b ->
  moves (withdraw_from_balance n from v) (charge (mk_asset v (asset_of (fst b)))).
Proof.
  intros Hb. unfold withdraw_from_balance. apply moves_value. intros b' E. rewrite Hb in E. apply Ok_inj in E as <-.
  eapply moves_bind; [ apply moves_checked | intros [] ]. apply moves_done; [ | intros [] a; unfold charge; cbn; eqm_solve ].
  apply moves_draft. intros w d d' r _ [= <- _] a. unfold nothing. cbn. eqm_solve.
Qed.
Lemma moves_deposit_to_balance o x : moves (deposit_to_balance o x) (charge (mk_asset (- amount x) (asset_id x))).
Proof. apply (moves_eqm _ _ _ (moves_deposit x o)). intros ? a. unfold charge. cbn. rewrite on_asset_opp. done. Qed.

(** Orders. *)
Context {order_id : market_order -> Z} {small_id : market_order -> string}.
Lemma moves_submit_order verb order payer cost p t :
  (forall a tr o, flow a (order cost p o tr) = flow a tr - on_asset a (asset_id cost) (amount cost)) ->
  moves (submit_order n verb order payer cost p t) nothing.
Proof.
  intros Ho. unfold submit_order. quiet. eapply moves_bind; [ apply moves_deduct | intros [] ].
  eapply (moves_bind _ _ (fun _ a => - on_asset a (asset_id cost) (amount cost))); [ apply moves_append; intros tr a; rewrite Ho; eqm_solve | intros [] ].
  apply moves_done; [ do 3 quiet; auto | intros [] a; unfold charge, nothing; eqm_solve ].
Qed.
Lemma moves_submit_bid payer x p t : moves (submit_bid n payer x p t) nothing.
Proof.
  unfold submit_bid. quiet. apply moves_value. intros cost Hc. apply moves_submit_order. intros a tr o. unfold bid. rewrite flow_emplace. cbn.
  replace (asset_id cost) with (quote_asset_id p); [ lia | ]. destruct (Z.eqb_spec (asset_id x) (quote_asset_id p)) as [<-|]; [ by apply Ok_inj in Hc as <- | ].
  destruct (asset_mul_price x p) as [c|]; [ | done ]. cbn in Hc. destruct (Z.eqb_spec (asset_id c) (quote_asset_id p)); [ | done ]. cbn in Hc. by apply Ok_inj in Hc as <-.
Qed.
Lemma moves_submit_ask payer x p t : moves (submit_ask n payer x p t) nothing.
Proof.
  unfold submit_ask. quiet. apply moves_value. intros [] Hc. apply moves_submit_order. intros a tr o. unfold ask. rewrite flow_emplace. cbn.
  destruct (Z.eqb_spec (asset_id x) (base_asset_id p)) as [->|]; [ lia | done ].
Qed.
Lemma moves_cancel id : moves (cancel_market_order n (order_id := order_id) (small_id := small_id) id) nothing.
Proof.
  unfold cancel_market_order. do 6 quiet. apply moves_value. intros balance Hb. quiet.
  apply (moves_bind _ _ (fun _ a => on_asset a (asset_id balance) (amount balance))).
  - unfold order_get_balance in Hb. destruct (od_type r) eqn:Et; [ done | | ]; apply Ok_inj in Hb as <-;
      (apply moves_append; intros tr a; unfold bid, ask; rewrite flow_emplace; cbn; rewrite eqm_wrap64, on_asset_opp; eqm_solve).
  - intros []. eapply moves_bind; [ apply moves_credit | intros [] ]. apply moves_done; [ | intros [] a; unfold nothing; eqm_solve ].
    apply moves_bind_0; [ apply moves_same; intros b; by destruct (bd_order_keys b !! _) | intros _ ]. quiet. auto.
Qed.
Lemma moves_update_signing_key name delegate k : moves (builder_update_signing_key n name delegate k) nothing.
Proof.
  unfold builder_update_signing_key. do 4 quiet. apply moves_bind_0; [ other | intros _ ].
  apply moves_bind_0; [ apply (moves_eqm _ _ _ (moves_deduct _ _)); intros ? a; by rewrite charge_nothing | intros _ ]. do 2 quiet. auto.
Qed.

(** ** A sequence of operations *)

(** A call of a builder function, and what it charges beyond what it moves. *)
Inductive builder_call :=
  | call_release_escrow (payer : account_record) (escrow_account released_by : address) (to_sender to_receiver : asset)
  | call_register_account (name : string) (public_data : option string) (owner_key : public_key) (active_key : option public_key)
      (delegate_pay : option Z) (meta_info : option account_meta_info) (paying_account : option account_record)
  | call_update_account (account : account_record) (public_data : option string) (active_key : option public_key) (delegate_pay : option Z)
      (paying_account : option account_record)
  | call_deposit (payer recipient : account_record) (x : asset) (memo : string) (memo_sender : option string)
  | call_deposit_to_address (payer : account_record) (to_addr : address) (x : asset) (memo : string)
  | call_deposit_to_multisig (x : asset) (from_name : string) (m : Z) (addresses : list address)
  | call_deposit_with_escrow (payer recipient agent : account_record) (agreement : Z) (x : asset) (memo : string) (memo_sender : option public_key)
  | call_withdraw_from_balance (from : address) (v : Z)
  | call_deposit_to_balance (to : address) (x : asset)
  | call_cancel_order (id : Z)
  | call_bid (payer : account_record) (quantity : asset) (p : price)
  | call_ask (payer : account_record) (cost : asset) (p : price)
  | call_update_signing_key (name delegate : string) (key : public_key).

Definition charging (m : bm unit) (x : result asset) : bm asset := _ <~ m ;; value_of x.
Definition charging_fee (m : bm unit) : bm asset := fee <~ read_wallet (get_transaction_fee n 0) ;; _ <~ m ;; nret fee.
Definition run_call (t : time) (c : builder_call) : bm asset :=
  match c with
  | call_release_escrow payer escrow released to_sender to_receiver =>
      charging_fee (builder_release_escrow n payer escrow released to_sender to_receiver t)
  | call_register_account name data owner active pay info payer =>
      charging (builder_register_account name data owner active pay info payer) (Ok (registration_charge name))
  | call_update_account account data active pay payer =>
      charging (update_account_registration n account data active pay payer) (update_charge account pay)
  | call_deposit payer recipient x memo sender => charging (deposit_asset payer recipient x memo sender) (Ok no_asset)
  | call_deposit_to_address payer o x memo => charging (deposit_asset_to_address payer o x memo) (Ok no_asset)
  | call_deposit_to_multisig x name m addresses => charging_fee (deposit_asset_to_multisig n x name m addresses)
  | call_deposit_with_escrow payer recipient agent agreement x memo sender =>
      charging (deposit_asset_with_escrow payer recipient agent agreement x memo sender) (Ok (escrow_charge recipient x))
  | call_withdraw_from_balance from v =>
      charging (withdraw_from_balance n from v) (b <- balance_to_withdraw n from ;; Ok (mk_asset v (asset_of (fst b))))
  | call_deposit_to_balance o x => charging (deposit_to_balance o x) (Ok (mk_asset (- amount x) (asset_id x)))
  | call_cancel_order id => charging (cancel_market_order n (order_id := order_id) (small_id := small_id) id) (Ok no_asset)
  | call_bid payer x p => charging (submit_bid n payer x p t) (Ok no_asset)
  | call_ask payer x p => charging (submit_ask n payer x p t) (Ok no_asset)
  | call_update_signing_key name delegate key => charging (builder_update_signing_key n name delegate key) (Ok no_asset)
  end.
Fixpoint run_calls (t : time) (cs : list builder_call) : bm (list asset) :=
  match cs with
  | [] => nret []
  | c :: cs => x <~ run_call t c ;; xs <~ run_calls t cs ;; nret (x :: xs)
  end.
Fixpoint charges (a : Z) (xs : list asset) : Z :=
  match xs with [] => 0 | x :: xs => on_asset a (asset_id x) (amount x) + charges a xs end.

Definition charged (x : asset) (a : Z) : Z := on_asset a (asset_id x) (amount x).
Lemma moves_charging m x : (forall v, x = Ok v -> moves m (charge v)) -> moves (charging m x) charged.
Proof.
  intros Hm s s' r Hs E. unfold charging in E. apply nbind_inv in E as [(s1 & [] & E1 & E2)|(? & _ & ?)]; [ | done ].
  unfold value_of, nread in E2. injection E2 as <- Hx. destruct (Hm r Hx s s1 tt Hs E1) as [Hb Hd]. split; [ done | exact Hd ].
Qed.
Lemma moves_charging_0 m : moves m nothing -> moves (charging m (Ok no_asset)) charged.
Proof.
  intros Hm. apply moves_charging. intros v <-%Ok_inj. apply moves_done; [ done | ]. intros ? a. by rewrite charge_nothing.
Qed.
Lemma moves_charging_fee m : (forall s fee s', read_wallet (get_transaction_fee n 0) s = (s, Ok fee) -> wl_balances (fst s) = Bal -> m s = (s', Ok tt) ->
    wl_balances (fst s') = Bal /\ forall a, due a (snd s') ≡64 due a (snd s) + charge fee tt a) ->
  moves (charging_fee m) charged.
Proof.
  intros Hm s s' r Hs E. unfold charging_fee in E. apply nread_inv in E as [(fee & Ef & E)|(? & _ & _ & ?)]; [ | done ].
  apply nbind_inv in E as [(s1 & [] & E1 & E2)|(? & _ & ?)]; [ | done ]. injection E2 as <- <-.
  apply (Hm s fee s1); [ unfold read_wallet, nread; by rewrite Ef | done | done ].
Qed.

#[local] Hint Resolve moves_deposit_asset moves_deposit_to_address moves_submit_bid moves_submit_ask moves_cancel moves_update_signing_key : core.
Lemma moves_run_call t c : moves (run_call t c) charged.
Proof.
  destruct c; cbn [run_call]; try (by apply moves_charging_0; auto).
  - apply moves_charging_fee. intros s fee s' Hf Hs E. by eapply moves_release_escrow.
  - apply moves_charging. intros v <-%Ok_inj. apply moves_register_account.
  - apply moves_charging. intros v Hv. by apply moves_update_account.
  - apply moves_charging_fee. intros s fee s' Hf Hs E. by eapply moves_deposit_to_multisig.
  - apply moves_charging. intros v <-%Ok_inj. apply moves_deposit_with_escrow.
  - apply moves_charging. intros v' Hv. destruct (balance_to_withdraw n from) as [b|] eqn:Eb; [ | done ]. cbn in Hv. apply Ok_inj in Hv as <-.
    by apply moves_withdraw_from_balance.
  - apply moves_charging. intros v' <-%Ok_inj. apply moves_deposit_to_balance.
Qed.
Lemma moves_run_calls t cs : moves (run_calls t cs) (fun xs a => charges a xs).
Proof.
  induction cs as [|c cs IH]; cbn [run_calls].
  { intros s s' r Hs [= <- <-]. split; [ done | ]. intros a. cbn [charges]. eqm_solve. }
  eapply moves_bind; [ apply moves_run_call | intros x ]. eapply moves_bind; [ apply IH | intros xs ].
  intros s s' r Hs [= <- <-]. split; [ done | ]. intros a. cbn [charges]. unfold charged. eqm_solve.
Qed.

(** ** The fee *)

Lemma balance_entries_spec (m : gmap (address * Z) Z) : balance_entries m ≡ₚ map_to_list m.
Proof. apply merge_sort_Permutation. Qed.
Lemma balance_entries_lookup m key v : (key, v) ∈ balance_entries m <-> m !! key = Some v.
Proof. rewrite balance_entries_spec. apply elem_of_map_to_list. Qed.
Lemma balance_entries_keys m : NoDup (map fst (balance_entries m)).
Proof.
  assert (E : map fst (balance_entries m) ≡ₚ map fst (map_to_list m)) by (apply Permutation_map, balance_entries_spec).
  rewrite E. apply NoDup_fst_map_to_list.
Qed.

(** The balances lose exactly the fee. *)
Lemma eat_balances_due entries required s s' :
  NoDup (map fst entries) -> (forall key v, (key, v) ∈ entries -> bd_outstanding_balances (snd s) !! key = Some v) ->
  eat_balances entries required s = (s', Ok true) ->
  fst s' = fst s /\ bd_fee (snd s') = bd_fee (snd s) /\ forall a, due a (snd s') ≡64 due a (snd s) + charge required tt a.
Proof.
  revert required s. induction entries as [|[key v] entries IH]; intros required s Hn Hin E; cbn [eat_balances] in E; [ done | ].
  apply NoDup_cons in Hn as [Hk Hn].
  assert (Hnext : forall x b, bd_outstanding_balances b = <[key := x]> (bd_outstanding_balances (snd s)) ->
    forall key' v', (key', v') ∈ entries -> bd_outstanding_balances b !! key' = Some v').
  { intros x b Eb key' v' H. rewrite Eb, lookup_insert_ne; [ by apply Hin; right | ]. intros ->. apply Hk, list_elem_of_fmap. by exists (key', v'). }
  assert (Hv : bd_outstanding_balances (snd s) !! key = Some v) by (apply Hin; left).
  assert (Hold : at_or_0 (bd_outstanding_balances (snd s)) key = v) by (unfold at_or_0; by rewrite Hv).
  destruct (Z.eqb_spec (snd key) (asset_id required)) as [Ek|]; cbn [negb] in E; [ | apply IH; [ done | intros ? ? ?; apply Hin; by right | done ] ].
  destruct (v <? amount required); unfold on_builder in E; rewrite nwrite_inv in E; cbn [fst snd] in E.
  - apply IH in E as (Ew & Ef & Ed); [ | done | by apply (Hnext 0) ]. split_and!; [ done | done | ]. intros a. rewrite Ed. cbn [fst snd]. unfold due. rewrite owed_insert, Hold, on_asset_0.
    unfold charge. cbn [amount asset_id]. rewrite Ek.
    assert (Es : on_asset a (asset_id required) (amount required -! v) ≡64 on_asset a (asset_id required) (amount required) - on_asset a (asset_id required) v).
    { rewrite eqm_sub64. unfold Z.sub at 1. rewrite on_asset_plus, on_asset_opp. eqm_solve. }
    rewrite Es. unfold bd_trx. cbn [bd_draft set_bd_balances]. eqm_solve.
  - injection E as <-. split_and!; [ done | done | ]. intros a. unfold due. cbn [snd]. rewrite owed_insert, Hold. unfold charge. rewrite Ek.
    assert (Es : on_asset a (asset_id required) (v -! amount required) ≡64 on_asset a (asset_id required) v - on_asset a (asset_id required) (amount required)).
    { rewrite eqm_sub64. unfold Z.sub at 1. rewrite on_asset_plus, on_asset_opp. eqm_solve. }
    rewrite Es. unfold bd_trx. cbn [bd_draft set_bd_balances]. eqm_solve.
Qed.

Lemma pay_fee_due s s' : wl_balances (fst s) = Bal -> pay_fee n s = (s', Ok tt) ->
  wl_balances (fst s') = Bal /\ forall a, due a (snd s') ≡64 due a (snd s) + charge (bd_fee (snd s')) tt a.
Proof.
  intros Hs E. unfold pay_fee in E. apply nread_inv in E as [(required & _ & E)|(? & _ & _ & ?)]; [ | done ].
  apply nbind_inv in E as [(s1 & paid & E1 & E2)|(? & _ & ?)]; [ | done ]. unfold check, nread in E2. injection E2 as <- Hp.
  destruct paid; [ | done ]. destruct required as [fee|].
  - unfold on_builder in E1. rewrite nwrite_inv in E1. cbn [fst snd] in E1.
    apply eat_balances_due in E1 as (Ew & Ef & Ed); [ | apply balance_entries_keys | by intros key v ?%balance_entries_lookup ].
    split; [ by rewrite Ew | ]. intros a. rewrite Ed, Ef. cbn [snd set_bd_fee bd_fee]. unfold due, owed, bd_trx. cbn. eqm_solve.
  - unfold withdraw_fee in E1. apply nread_inv in E1 as [(balances & _ & E1)|(? & _ & _ & ?)]; [ | done ].
    apply nread_inv in E1 as [(payer & _ & E1)|(? & _ & _ & ?)]; [ | done ]. destruct payer as [[holder fee]|]; [ | done ].
    apply nbind_inv in E1 as [(s2 & [] & E1 & E2)|(? & _ & ?)]; [ | done ]. unfold on_builder in E2. rewrite nwrite_inv in E2. injection E2 as <-.
    destruct (moves_deduct _ _ _ _ _ Hs E1) as [Hb Hd]. split; [ done | ]. intros a. cbn [snd set_bd_fee bd_fee]. rewrite <- (Hd a).
    unfold due, owed, bd_trx. cbn. eqm_solve.
Qed.

(** ** Making up for the balances *)

Lemma moves_settle account id v : moves (settle n (account, id, v)) (fun _ a => - on_asset a id v).
Proof.
  unfold settle. quiet. destruct r as [r|]; [ | apply moves_throw ]. destruct (Z.ltb_spec 0 v).
  - quiet. apply moves_deposit.
  - destruct (Z.ltb_spec v 0).
    + apply (moves_eqm _ _ _ (moves_withdraw _ _)). intros ? a. unfold charge. cbn [amount asset_id]. rewrite eqm_wrap64, on_asset_opp. done.
    + apply moves_done; [ auto | ]. intros ? a. replace v with 0 by lia. rewrite on_asset_0. done.
Qed.
Definition keeps_money (O : gmap (address * Z) Z) (fee : asset) (s : wallet * builder) : Prop :=
  bd_outstanding_balances (snd s) = O /\ bd_fee (snd s) = fee.
Section kept.
Context (O : gmap (address * Z) Z) (fee : asset).
Lemma kept_builder f : (forall b, bd_outstanding_balances (f b) = bd_outstanding_balances b /\ bd_fee (f b) = bd_fee b) -> keeps (keeps_money O fee) (on_builder f).
Proof. intros Hf. apply keeps_write. intros [w b] [H1 H2]. destruct (Hf b) as [E1 E2]. split; cbn [snd] in *; congruence. Qed.
Lemma kept_wallet {A} (m : wm A) : keeps (keeps_money O fee) (on_wallet m).
Proof. intros [w b] s' r E [H1 H2]. unfold on_wallet in E. cbn [fst] in E. destruct (m w). by injection E as <- _. Qed.
Lemma kept_draft {A} (m : wallet -> draft_m A) : keeps (keeps_money O fee) (on_draft m).
Proof. intros [w b] s' r E [H1 H2]. unfold on_draft in E. cbn [fst snd] in E. destruct (m w (bd_draft b)). by injection E as <- _. Qed.
#[local] Hint Resolve kept_builder kept_wallet kept_draft : keeps.
Lemma kept_settle entry : keeps (keeps_money O fee) (settle n entry).
Proof.
  destruct entry as [[account id] v]. unfold settle. apply keeps_bind; [ apply keeps_read | intros [r|] ]; [ | apply keeps_throw ].
  destruct (0 <? v); [ | destruct (v <? 0); auto with keeps ]. apply keeps_bind; [ | intros k; apply kept_draft ].
  unfold order_key_for_account. apply keeps_bind; [ apply keeps_read | intros k ]. apply keeps_bind; [ by apply kept_builder | intros _ ].
  destruct (k =? null_key); [ | apply keeps_ret ]. apply keeps_bind; [ apply kept_wallet | intros k' ]. apply keeps_bind; [ by apply kept_builder | intros _; apply keeps_ret ].
Qed.
Lemma kept_expiration t secs : keeps (keeps_money O fee) (set_default_expiration t secs).
Proof.
  unfold set_default_expiration. apply keeps_bind; [ apply keeps_read | intros e ]. destruct (e =? 0); [ | apply keeps_ret ].
  apply keeps_bind; [ apply keeps_read | intros x; apply kept_draft ].
Qed.
End kept.

Fixpoint entries_sum (a : Z) (l : list (address * Z * Z)) : Z :=
  match l with [] => 0 | (key, v) :: l => on_asset a (snd key) v + entries_sum a l end.
Lemma moves_settle_all l : moves (nfold (fun entry _ => settle n entry) l tt) (fun _ a => - entries_sum a l).
Proof.
  induction l as [|[[account id] v] l IH]; cbn [nfold entries_sum snd].
  { intros s s' r Hs [= <- <-]. split; [ done | ]. intros a. eqm_solve. }
  eapply moves_bind; [ apply moves_settle | intros [] ]. apply (moves_eqm _ _ _ IH). intros ? a. eqm_solve.
Qed.
Lemma entries_sum_owed a b : entries_sum a (balance_entries (bd_outstanding_balances b)) = owed a b.
Proof.
  assert (Hp : forall l l', l ≡ₚ l' -> entries_sum a l = entries_sum a l').
  { induction 1 as [|[k v]|[k v] [k' v']|]; cbn [entries_sum]; lia. }
  rewrite (Hp _ _ (balance_entries_spec _)). unfold owed. induction (bd_outstanding_balances b) as [|key v m Hk IH] using map_ind; [ done | ].
  rewrite (Hp _ _ (map_to_list_insert m key v Hk)), map_sum_insert_new by done. cbn [entries_sum]. by rewrite IH.
Qed.

(** A transaction that is finalized moves what was due and the fee. *)
Lemma finalize_flow strategy t s s' : wl_balances (fst s) = Bal -> finalize n true strategy t s = (s', Ok tt) ->
  forall a, flow a (bd_trx (snd s')) ≡64 due a (snd s) + charge (bd_fee (snd s')) tt a.
Proof.
  intros Hs E a. unfold finalize in E. apply nread_inv in E as [(? & _ & E)|(? & _ & _ & ?)]; [ | done ].
  apply nbind_inv in E as [(s1 & [] & E1 & E)|(? & _ & ?)]; [ | done ]. destruct (pay_fee_due _ _ Hs E1) as [Hs1 D1].
  apply nread_inv in E as [(entries & Ee & E)|(? & _ & _ & ?)]; [ | done ]. apply Ok_inj in Ee as <-.
  set (O := bd_outstanding_balances (snd s1)) in *.
  match type of E with ?m s1 = _ => assert (Hm : moves m (fun _ a => - entries_sum a (balance_entries O))) end.
  { eapply moves_bind; [ apply moves_settle_all | intros [] ]. apply moves_done; [ do 2 quiet; by apply moves_same | intros [] b; eqm_solve ]. }
  match type of E with ?m s1 = _ => assert (Hk : keeps (keeps_money O (bd_fee (snd s1))) m) end.
  { apply keeps_bind; [ apply keeps_fold; intros; apply kept_settle | intros [] ]. apply keeps_bind; [ apply kept_expiration | intros _ ].
    apply keeps_bind; [ apply kept_draft | intros _; by apply kept_builder ]. }
  destruct (Hm _ _ _ Hs1 E) as [_ D2]. destruct (Hk _ _ _ E (conj eq_refl eq_refl)) as [Ho Hf]. specialize (D2 a).
  unfold O in D2. rewrite entries_sum_owed, D1, <- Hf in D2. unfold due at 1 in D2.
  assert (Eo : owed a (snd s') = owed a (snd s1)) by (unfold owed; by rewrite Ho). rewrite Eo in D2.
  rewrite <- (Z.sub_add (owed a (snd s1)) (flow a (bd_trx (snd s')))), D2. eqm_solve.
Qed.
End accounting.

(** C28: Whatever operations a builder is given, in whatever order, and for
    whatever accounts: once it is finalized, what its transaction takes from
    balances and pay and does not deposit or put in orders again is, asset by
    asset, what the operations charge and the fee that is recorded. *)
Theorem finalized_builder_pays `{Cr : Crypto} `{Kc : KeyCrypto} `{Tx : TxCrypto} `{Wh : WalletHash} `{St : Statics} `{FcI : Fc} `{Sg : Signing}
    `{Tc : TextCodec} `{Pn : PrettyNumber} `{We : WalletEnv} (n : node) (order_id : market_order -> Z) (small_id : market_order -> string)
    (w : wallet) (calls : list builder_call) (strategy : vote_strategy) (t : time) (s' : wallet * builder) (xs : list asset) :
  keyed (wl_balances w) ->
  (xs <~ run_calls n (wl_balances w) (order_id := order_id) (small_id := small_id) t calls ;;
   _ <~ finalize n true strategy t ;; nret xs) (w, builder_empty) = (s', Ok xs) ->
  forall a, flow n (wl_balances w) a (bd_trx (snd s'))
    ≡64 charges a xs + on_asset a (asset_id (bd_fee (snd s'))) (amount (bd_fee (snd s'))).
Proof.
  intros Hk E a. apply nbind_inv in E as [(s1 & ys & E1 & E)|(? & _ & ?)]; [ | done ].
  apply nbind_inv in E as [(s2 & [] & E2 & E)|(? & _ & ?)]; [ | done ]. injection E as <- ->.
  destruct (moves_run_calls n _ Hk t calls (w, builder_empty) _ _ eq_refl E1) as [Hb D]. rewrite (finalize_flow n _ Hk _ _ _ _ Hb E2 a), D.
  replace (due n (wl_balances w) a (snd (w, builder_empty))) with 0 by done. unfold charge. eqm_solve.
Qed.

(** The debt of an account is paid from the balance of another. *)
Example debts_are_mixed w : bd_outstanding_balances (snd (fst (eat_balances [((10, 0), -50); ((20, 0), 100)] (mk_asset 10 0)
    (w, set_bd_balances {[ (10, 0) := -50; (20, 0) := 100 ]} builder_empty)))) = {[ (10, 0) := 0; (20, 0) := 40 ]}.
Proof. vm_compute. reflexivity. Qed.

(** ** A concrete builder *)

#[local] Existing Instance wallet_crypto.
#[local] Existing Instance demo_keys.
#[local] Existing Instance demo_tx.
#[local] Existing Instance demo_hash.
#[local] Existing Instance demo_statics.
#[local] Existing Instance demo_signing.
#[local] Existing Instance demo_text.
#[local] Existing Instance demo_pretty_number.
#[local] Existing Instance demo_env.

(** A transfer, a deposit to an address, one to two owners, which charges the
    fee, and the registration of an account. *)
Definition demo_calls : list builder_call :=
  [call_deposit alice bob (mk_asset 300000 0) "hi" None; call_deposit_to_address alice 44 (mk_asset 1000 0) "there";
   call_deposit_to_multisig (mk_asset 2000 0) "alice" 2 [24; 44];
   call_register_account "charles" None 91 None None None (Some alice)].
Definition demo_build : bm (list asset) :=
  xs <~ run_calls demo_node (wl_balances alices_wallet) (order_id := fun _ => 0) (small_id := fun _ => ""%string) 100000 demo_calls ;;
  _ <~ finalize demo_node true vote_none 100000 ;; nret xs.
Definition demo_built : builder := snd (fst (demo_build (alices_wallet, builder_empty))).

Lemma finalized_builder_pays_witness :
  length (tx_operations (bd_trx demo_built)) = 5%nat /\ bd_fee demo_built = mk_asset 50000 0
  /\ flow demo_node (wl_balances alices_wallet) 0 (bd_trx demo_built) ≡64 200000.
Proof.
  split; [ by vm_compute | split; [ by vm_compute | ] ].
  assert (E : exists s', demo_build (alices_wallet, builder_empty) = (s', Ok [no_asset; no_asset; mk_asset 50000 0; mk_asset 100000 0]) /\ snd s' = demo_built).
  { exists (fst (demo_build (alices_wallet, builder_empty))). split; [ | done ]. rewrite (surjective_pairing (demo_build _)) at 1. f_equal; by vm_compute. }
  destruct E as (s' & E & <-). assert (Hk : keyed (wl_balances alices_wallet)) by (apply keyed_check; vm_compute; reflexivity).
  assert (Hf : bd_fee (snd s') = mk_asset 50000 0).
  { assert (Ef : bd_fee (snd (fst (demo_build (alices_wallet, builder_empty)))) = mk_asset 50000 0) by (by vm_compute). by rewrite E in Ef. }
  unfold demo_build in E.
  rewrite (finalized_builder_pays demo_node (fun _ => 0) (fun _ => ""%string) alices_wallet demo_calls vote_none 100000 s' _ Hk E 0), Hf. by vm_compute.
Defined.
