(* ===== verification/WalletSafe.v ===== *)
(** What the wallet keeps while it is unlocked: whatever it is asked to do, its
    records in memory are those on disk and no private key is lost. *)

From Stdlib Require Import String.
From stdpp Require Import relations.
From S2P Require Import Prelude StateMonad Asset Names Records Keys Building ChainInterface Tables PendingState ChainDatabase BlockOps Node.
From S2P Require Import Storage AmountText AddressText WalletDb WalletDbProps WalletSteps WalletKeys WalletProps.
From S2P Require Import Wallet Spending TransactionBuilder WalletTrx Ledger WalletDemo BuilderProps Concrete.

(** The file that is open has the records of the wallet. *)
Definition on_disk (w : wallet) : Prop :=
  exists path, wl_db_path w = Some path /\ wl_files w !! path = lm_files (w_records (wl_db w)).

Section safe.
Context `{Cr : Crypto} `{Kc : KeyCrypto} `{Kl : !KeyLaws} `{Tx : TxCrypto} `{Wh : WalletHash} `{Pd : !PtsDisjoint} `{St : Statics} `{FcI : Fc} `{Sg : Signing}.
Context `{Tc : TextCodec} `{Pn : PrettyNumber} `{We : WalletEnv}.
Variables (A : address -> Prop) (p : secret512).
Implicit Types w : wallet.

(** The wallet is unlocked with the password [p], its keys are encrypted with
    it, and it has private keys of the addresses [A]. *)
Definition sound w : Prop := keys_safe A p (wl_db w) /\ wl_password w = p /\ on_disk w.

Lemma sound_same w w' : wl_db w' = wl_db w -> wl_password w' = wl_password w -> wl_db_path w' = wl_db_path w -> wl_files w' = wl_files w ->
  sound w -> sound w'.
Proof. intros E1 E2 E3 E4 (H1 & H2 & H3). split_and!; rewrite ?E1, ?E2; [ done | done | ]. unfold on_disk. by rewrite E3, E4, E1. Qed.

Lemma sync_db w : wl_db (sync w) = wl_db w.
Proof. unfold sync. destruct (wl_db_path w); [ by destruct (lm_files (w_records (wl_db w))) | done ]. Qed.
Lemma sync_password w : wl_password (sync w) = wl_password w.
Proof. unfold sync. destruct (wl_db_path w); [ by destruct (lm_files (w_records (wl_db w))) | done ]. Qed.
Lemma sync_path w : wl_db_path (sync w) = wl_db_path w.
Proof. unfold sync. destruct (wl_db_path w) eqn:E; [ by destruct (lm_files (w_records (wl_db w))) | done ]. Qed.
Lemma on_disk_sync w : mirrored (wl_db w) -> is_Some (wl_db_path w) -> on_disk (sync w).
Proof.
  intros M [path Ep]. exists path. rewrite sync_path, sync_db. split; [ done | ]. unfold sync. rewrite Ep, (mi_open _ M). apply lookup_insert_eq.
Qed.
Lemma keeps_sound_db {R} (m : wallet_m R) : keeps (keys_safe A p) m -> keeps sound (on_db m).
Proof.
  intros Hm w w' r E (H1 & H2 & H3). unfold on_db in E. destruct (m (wl_db w)) as [d x] eqn:Em. apply pair_equal_spec in E as [<- _].
  pose proof (Hm _ _ _ Em H1) as S. assert (Ed : wl_db (sync (set_wl_db d w)) = d) by apply sync_db.
  split_and!; [ by rewrite Ed | rewrite sync_password; by cbn | ]. apply on_disk_sync; [ apply S | ]. destruct H3 as (path & Hp & _). by exists path.
Qed.

(** The password that is read is [p]. *)
Lemma keeps_sound_password {R} (m : secret512 -> wm R) : keeps sound (m p) -> keeps sound (nbind get_password m).
Proof. intros H w w' r E S. unfold get_password, nbind, nread in E. rewrite (proj1 (proj2 S)) in E. by eapply H. Qed.
Lemma keeps_sound_at_password {R} (m : secret512 -> wm R) : keeps sound (m p) -> keeps sound (fun w => m (wl_password w) w).
Proof. intros H w w' r E S. rewrite (proj1 (proj2 S)) in E. by eapply H. Qed.

#[local] Hint Resolve safe_store_account safe_store_blockchain_account safe_import_key safe_generate_new_account safe_generate_account_with_key
  safe_generate_child safe_one_time safe_cache_memo keeps_sound_db : keeps.
Lemma safe_set_property id v : id <> next_record_number -> keeps (keys_safe A p) (set_property id v).
Proof. intros H. apply keeps_safe; [ by apply keeps_set_property | intros K; apply same_keys_set_property ]. Qed.
Lemma safe_rename key name : keeps (keys_safe A p) (WalletDb.rename_account key name).
Proof. apply keeps_safe; [ apply keeps_rename_account | intros K; apply same_keys_rename ]. Qed.
Lemma safe_store_packet packet : keeps (keys_safe A p) (store_packet packet).
Proof. apply keeps_safe; [ apply keeps_store_packet | intros K; apply same_keys_store_packet ]. Qed.
Lemma safe_store_transaction t : transaction_ok t -> keeps (keys_safe A p) (WalletDb.store_transaction t).
Proof. intros H. apply keeps_safe; [ by apply keeps_store_transaction | intros K; apply same_keys_store_transaction ]. Qed.
#[local] Hint Resolve safe_rename safe_store_packet : keeps.
#[local] Hint Extern 1 (keeps (keys_safe _ _) (set_property _ _)) => apply safe_set_property; done : keeps.
#[local] Hint Extern 1 (keeps sound (nwrite _)) => apply keeps_write; intros ?; by apply sound_same : keeps.

(** Through binds, handlers and cases. *)
Ltac kept :=
  repeat first
    [ progress intros | solve [ auto with keeps nocore ]
    | match goal with
      | |- keeps _ (nbind get_password _) => apply keeps_sound_password
      | |- keeps _ (nbind _ _) => apply keeps_bind
      | |- keeps _ (ncatch _ _) => apply keeps_catch
      | |- keeps _ (match ?x with _ => _ end) => destruct x
      | |- keeps _ (fun w => on_db (_ (wl_password w) _ _) w) => apply (keeps_sound_at_password (fun password => on_db (_ password _ _)))
      end ].

(** ** Keys and accounts *)

Section commands.
Variable n : node.

Lemma sound_dirty_accounts : keeps sound set_dirty_accounts.
Proof. unfold set_dirty_accounts. kept. Qed.
Lemma sound_assert_open : keeps sound assert_open.
Proof. apply keeps_read. Qed.
Lemma sound_assert_unlocked : keeps sound assert_unlocked.
Proof. apply keeps_read. Qed.
Lemma sound_open_and_unlocked : keeps sound open_and_unlocked.
Proof. apply keeps_read. Qed.
Lemma sound_read_db {R} (f : wallet_db -> result R) : keeps sound (read_db f).
Proof. apply keeps_read. Qed.
Lemma sound_lift {R} (r : result R) : keeps sound (lift r).
Proof. apply keeps_read. Qed.
#[local] Hint Resolve sound_dirty_accounts sound_assert_open sound_assert_unlocked sound_open_and_unlocked sound_read_db sound_lift : keeps.

Lemma sound_set_checked id v : id <> next_record_number -> keeps sound (set_checked id v).
Proof. intros H. unfold set_checked. kept. Qed.
Lemma sound_set_fee fee : keeps sound (set_transaction_fee fee).
Proof. unfold set_transaction_fee. kept. Qed.
Lemma sound_set_expiration secs : keeps sound (set_transaction_expiration secs).
Proof. unfold set_transaction_expiration. kept. Qed.
Lemma sound_last_scanned k : keeps sound (set_last_scanned_block_number k).
Proof. by apply sound_set_checked. Qed.
#[local] Hint Resolve sound_last_scanned : keeps.

Lemma sound_new_private_key name : keeps sound (get_new_private_key name).
Proof. unfold get_new_private_key. kept. Qed.
#[local] Hint Resolve sound_new_private_key : keeps.
Lemma sound_new_public_key name : keeps sound (get_new_public_key name).
Proof. unfold get_new_public_key. kept. Qed.
Lemma sound_get_account name : keeps sound (get_account n name).
Proof. unfold get_account. kept. Qed.
Lemma sound_create_account name t : keeps sound (create_account n name t).
Proof. unfold create_account. kept. Qed.
Lemma sound_rename old new : keeps sound (rename_account n old new).
Proof. unfold rename_account. kept. Qed.
Lemma sound_import key name create t : keeps sound (import_private_key n key name create t).
Proof. unfold import_private_key. kept. Qed.
#[local] Hint Resolve sound_new_public_key sound_get_account sound_import : keeps.
Lemma sound_friendly_import key name t : keeps sound (friendly_import_private_key n key name t).
Proof. unfold friendly_import_private_key. kept. Qed.
Lemma sound_scan_account r : keeps sound (scan_account r).
Proof. unfold scan_account. kept. Qed.
#[local] Hint Resolve sound_scan_account : keeps.
Lemma sound_scan_accounts : keeps sound (scan_accounts n).
Proof. unfold scan_accounts. kept. Qed.
Lemma sound_scan_balance r : keeps sound (scan_balance n r).
Proof. unfold scan_balance. kept. Qed.
#[local] Hint Resolve sound_scan_balance : keeps.
Lemma sound_scan_balances : keeps sound (scan_balances_experimental n).
Proof. unfold scan_balances_experimental. kept. Qed.
#[local] Hint Resolve sound_create_account sound_rename sound_friendly_import sound_scan_accounts sound_scan_balances : keeps.

(** ** The builder *)

Definition sound_with (s : wallet * builder) : Prop := sound (fst s).
Lemma sound_on_wallet {R} (m : wm R) : keeps sound m -> keeps sound_with (on_wallet m).
Proof. intros Hm s s' r E S. unfold on_wallet in E. destruct (m (fst s)) as [w x] eqn:Em. apply pair_equal_spec in E as [<- _]. by apply (Hm _ _ _ Em). Qed.
Lemma sound_on_builder f : keeps sound_with (on_builder f).
Proof. by apply keeps_write. Qed.
Lemma sound_on_draft {R} (m : wallet -> draft_m R) : keeps sound_with (on_draft m).
Proof. intros s s' r E S. unfold on_draft in E. destruct (m (fst s) _) as [d x]. apply pair_equal_spec in E as [<- _]. exact S. Qed.
Lemma sound_nread_with {R} (f : wallet * builder -> result R) : keeps sound_with (nread f).
Proof. apply keeps_read. Qed.
#[local] Hint Resolve sound_on_wallet sound_on_builder sound_on_draft sound_nread_with : keeps.
#[local] Hint Extern 1 (keeps sound_with (read_wallet _)) => apply sound_nread_with : keeps.
#[local] Hint Extern 1 (keeps sound_with (read_builder _)) => apply sound_nread_with : keeps.
#[local] Hint Extern 1 (keeps sound_with (check _)) => apply sound_nread_with : keeps.
#[local] Hint Extern 1 (keeps sound_with (value_of _)) => apply sound_nread_with : keeps.
#[local] Hint Extern 1 (keeps sound_with (append_operation _)) => apply sound_on_draft : keeps.
#[local] Hint Extern 1 (keeps sound_with (on_operations _)) => apply sound_on_draft : keeps.
#[local] Hint Extern 1 (keeps sound_with (must_sign _)) => apply sound_on_draft : keeps.
#[local] Hint Extern 1 (keeps sound_with (add_ledger_entry _ _)) => apply sound_on_builder : keeps.
#[local] Hint Extern 1 (keeps sound_with (change_balance _ _ _)) => apply sound_on_builder : keeps.

Lemma sound_deduct a x : keeps sound_with (deduct_balance a x).
Proof. unfold deduct_balance. kept. Qed.
Lemma sound_credit a x : keeps sound_with (credit_balance a x).
Proof. unfold credit_balance. kept. Qed.
Lemma sound_order_key a name : keeps sound_with (order_key_for_account a name).
Proof. unfold order_key_for_account. kept. Qed.
Lemma sound_eat entries x : keeps sound_with (eat_balances entries x).
Proof. revert x. induction entries as [|[key v] entries IH]; intros x; cbn [eat_balances]; kept; apply IH. Qed.
#[local] Hint Resolve sound_deduct sound_credit sound_order_key sound_eat : keeps.
Lemma sound_withdraw_fee : keeps sound_with (withdraw_fee n).
Proof. unfold withdraw_fee. kept. Qed.
#[local] Hint Resolve sound_withdraw_fee : keeps.
Lemma sound_pay_fee : keeps sound_with (pay_fee n).
Proof. unfold pay_fee. kept. intros s s' r E. by apply (sound_eat _ _ _ _ _ E). Qed.
Lemma sound_settle entry : keeps sound_with (settle n entry).
Proof. unfold settle. kept. Qed.
Lemma sound_expiration t seconds : keeps sound_with (set_default_expiration t seconds).
Proof. unfold set_default_expiration. kept. Qed.
#[local] Hint Resolve sound_pay_fee sound_settle sound_expiration : keeps.
Lemma sound_settle_all entries : keeps sound_with (nfold (fun entry _ => settle n entry) entries tt).
Proof. apply keeps_fold. intros. apply sound_settle. Qed.
#[local] Hint Resolve sound_settle_all : keeps.
Lemma sound_finalize with_fee strategy t : keeps sound_with (finalize n with_fee strategy t).
Proof. unfold finalize. kept. Qed.
Lemma sound_sign_builder : keeps sound_with sign_builder.
Proof. unfold sign_builder. kept. Qed.
#[local] Hint Resolve sound_finalize sound_sign_builder : keeps.

(** *** Its operations *)

Section operations.
Context {order_id : market_order -> Z} {small_id : market_order -> string}.

Lemma sound_not_retracted r : keeps sound_with (not_retracted r).
Proof. unfold not_retracted. kept. Qed.
Lemma sound_positive x : keeps sound_with (positive_deposit x).
Proof. unfold positive_deposit. kept. Qed.
Lemma sound_notify memo k key r : keeps sound_with (notify memo k key r).
Proof. unfold notify. kept. Qed.
#[local] Hint Resolve sound_not_retracted sound_positive sound_notify : keeps.
Lemma sound_release payer e by_ x y t : keeps sound_with (builder_release_escrow n payer e by_ x y t).
Proof. unfold builder_release_escrow. kept. Qed.
Lemma sound_register name data owner active pay info payer : keeps sound_with (builder_register_account name data owner active pay info payer).
Proof. unfold builder_register_account. kept. Qed.
Lemma sound_pay_rate account payer pay signatures : keeps sound_with (update_pay_rate n account payer pay signatures).
Proof. unfold update_pay_rate. kept. Qed.
#[local] Hint Resolve sound_pay_rate : keeps.
Lemma sound_update account data key pay payer : keeps sound_with (update_account_registration n account data key pay payer).
Proof. unfold update_account_registration. kept. Qed.
Lemma sound_deposit payer recipient x memo sender : keeps sound_with (deposit_asset payer recipient x memo sender).
Proof. unfold deposit_asset. kept. Qed.
Lemma sound_deposit_to_address payer a x memo : keeps sound_with (deposit_asset_to_address payer a x memo).
Proof. unfold deposit_asset_to_address. kept. Qed.
Lemma sound_deposit_to_multisig x name m l : keeps sound_with (deposit_asset_to_multisig n x name m l).
Proof. unfold deposit_asset_to_multisig. kept. Qed.
(** The key of the escrow is stored without private key. *)
Lemma sound_escrow payer recipient agent agreement x memo sender : (forall a, ~ A a) ->
  keeps sound_with (deposit_asset_with_escrow payer recipient agent agreement x memo sender).
Proof.
  intros HA. unfold deposit_asset_with_escrow, escrow_deposit. kept.
  apply sound_on_wallet, keeps_sound_db, keeps_safe_store_key. split; [ intros [=] | intros _; apply HA ].
Qed.
Lemma sound_withdraw_from a x : keeps sound_with (withdraw_from_balance n a x).
Proof. unfold withdraw_from_balance. kept. Qed.
Lemma sound_cancel id : keeps sound_with (cancel_market_order n (order_id := order_id) (small_id := small_id) id).
Proof. unfold cancel_market_order. kept. Qed.
Lemma sound_submit verb order r cost q t : keeps sound_with (submit_order n verb order r cost q t).
Proof. unfold submit_order. kept. Qed.
#[local] Hint Resolve sound_submit : keeps.
Lemma sound_bid r x q t : keeps sound_with (submit_bid n r x q t).
Proof. unfold submit_bid. kept. Qed.
Lemma sound_ask r x q t : keeps sound_with (submit_ask n r x q t).
Proof. unfold submit_ask. kept. Qed.
Lemma sound_signing_key name delegate key : keeps sound_with (builder_update_signing_key n name delegate key).
Proof. unfold builder_update_signing_key. kept. Qed.
#[local] Hint Resolve sound_release sound_register sound_update sound_deposit sound_deposit_to_address sound_deposit_to_multisig
  sound_withdraw_from sound_cancel sound_bid sound_ask sound_signing_key : keeps.

Lemma sound_with_builder {R} (m : bm R) : keeps sound_with m -> keeps sound (with_builder m).
Proof. intros Hm w w' r E S. unfold with_builder in E. destruct (m _) as [s x] eqn:Em. apply pair_equal_spec in E as [<- _]. by apply (Hm _ _ _ Em). Qed.
Ltac built := kept; apply sound_with_builder; kept.

(** ** The transactions *)

Section transactions.
Variable blockchain_now : time.
#[local] Hint Extern 1 (keeps sound (step _ _)) => apply keeps_read : keeps.
#[local] Hint Extern 1 (keeps sound (add_checked _ _)) => apply keeps_read : keeps.

Lemma sound_both : keeps sound assert_open_and_unlocked.
Proof. unfold assert_open_and_unlocked. kept. Qed.
Lemma sound_new_draft : keeps sound (new_draft blockchain_now).
Proof. unfold new_draft. kept. Qed.
Lemma sound_complete sg entries fee d : keeps sound (complete sg entries fee d).
Proof. unfold complete. kept. Qed.
Lemma sound_known name : keeps sound (known_account n name).
Proof. unfold known_account. kept. Qed.
Lemma sound_wallet_account e name : keeps sound (wallet_account e name).
Proof. unfold wallet_account. kept. Qed.
Lemma sound_deposit_from a sender to memo t : keeps sound (deposit_from_transaction n a sender to memo t).
Proof. unfold deposit_from_transaction. kept. Qed.
#[local] Hint Resolve sound_both sound_new_draft sound_complete sound_known sound_wallet_account sound_deposit_from : keeps.
Lemma sound_signing name d : keeps sound (signing_account n name d).
Proof. unfold signing_account. kept. Qed.
Lemma sound_parent_key name : keeps sound (parent_key n name).
Proof. unfold parent_key. kept. Qed.
#[local] Hint Resolve sound_signing sound_parent_key : keeps.
Lemma sound_parents fuel name : keeps sound (parents_key n fuel name).
Proof. revert name. induction fuel; intros name; cbn [parents_key]; kept. Qed.
#[local] Hint Resolve sound_parents : keeps.
Lemma sound_authorize name d : keeps sound (authorize_child n name d).
Proof. unfold authorize_child. kept. Qed.
Lemma sound_new_name name : keeps sound (new_name n name).
Proof. unfold new_name. kept. Qed.
#[local] Hint Resolve sound_authorize sound_new_name : keeps.
Lemma sound_register_with name data rate payer ty sg k1 k2 k3 k4 d : keeps sound (register_with_keys n name data rate payer ty sg k1 k2 k3 k4 d).
Proof. unfold register_with_keys. kept. Qed.
#[local] Hint Resolve sound_register_with : keeps.

Lemma sound_transfer a from to memo strategy sg : keeps sound (transfer n blockchain_now a from to memo strategy sg).
Proof. unfold transfer. kept. Qed.
Lemma sound_register_wallet name data rate payer ty sg : keeps sound (wallet_register_account n blockchain_now name data rate payer ty sg).
Proof. unfold wallet_register_account. kept. Qed.
Lemma sound_register_key name k data rate payer ty sg : keeps sound (register_account_with_key n blockchain_now name k data rate payer ty sg).
Proof. unfold register_account_with_key. kept. Qed.

Lemma sound_build sg m : keeps sound_with m -> keeps sound (build n blockchain_now sg m).
Proof. intros Hm. unfold build. built. Qed.
Lemma sound_paying name : keeps sound (paying_account n name).
Proof. unfold paying_account. kept. Qed.
#[local] Hint Resolve sound_build sound_paying : keeps.
Lemma sound_update_registered name payer data rate sg : keeps sound (update_registered_account n blockchain_now name payer data rate sg).
Proof. unfold update_registered_account. kept. Qed.
Lemma sound_active_key name payer k sg : keeps sound (wallet_update_active_key n blockchain_now name payer k sg).
Proof. unfold wallet_update_active_key. built. Qed.
Lemma sound_retract name payer sg : keeps sound (retract_account n blockchain_now name payer sg).
Proof. unfold retract_account. kept. Qed.
Lemma sound_wallet_signing_key name delegate k sg : keeps sound (wallet_update_signing_key n blockchain_now name delegate k sg).
Proof. unfold wallet_update_signing_key. built. Qed.

Lemma sound_feed_values name values memo sg : keeps sound (publish_feed_values n blockchain_now name values memo sg).
Proof. unfold publish_feed_values. kept. Qed.
Lemma sound_publish_data account data memo payer k sg d : keeps sound (publish_data n account data memo payer k sg d).
Proof. unfold publish_data. kept. Qed.
Lemma sound_publishing name payer : keeps sound (publishing_account n name payer).
Proof. unfold publishing_account. kept. Qed.
Lemma sound_change_asset payer symbol change memo sg : keeps sound (change_asset n blockchain_now payer symbol change memo sg).
Proof. unfold change_asset. kept. Qed.
#[local] Hint Resolve sound_feed_values sound_publish_data sound_publishing sound_change_asset : keeps.
Lemma sound_burn a payer side to message anonymous sg : keeps sound (burn_asset n blockchain_now a payer side to message anonymous sg).
Proof. unfold burn_asset. kept. Qed.
Lemma sound_buy_ad a publisher owner message sg : keeps sound (wallet_buy_ad n blockchain_now a publisher owner message sg).
Proof. unfold wallet_buy_ad. kept. Qed.
Lemma sound_red_packet a from message id k count pin sg : keeps sound (create_red_packet n blockchain_now a from message id k count pin sg).
Proof. unfold create_red_packet. kept. Qed.
Lemma sound_claim_packet id text to k sg : keeps sound (claim_red_packet n blockchain_now id text to k sg).
Proof. unfold claim_red_packet. kept. Qed.
Lemma sound_delegate_pay delegate a to sg : keeps sound (withdraw_delegate_pay n blockchain_now delegate a to sg).
Proof. unfold withdraw_delegate_pay. kept. Qed.
Lemma sound_collect name wanted memo sg : keeps sound (collect_account_balances n blockchain_now name wanted memo sg).
Proof. unfold collect_account_balances. kept. Qed.
Lemma sound_vote_info id voter strategy : keeps sound (set_vote_info n blockchain_now id voter strategy).
Proof. unfold set_vote_info. kept. Qed.
Lemma sound_publish_price name x sg : keeps sound (publish_price n blockchain_now name x sg).
Proof. unfold publish_price. kept. Qed.
Lemma sound_publish_feeds name l sg : keeps sound (publish_feeds n blockchain_now name l sg).
Proof. unfold publish_feeds. kept. Qed.
Lemma sound_publish_slate name payer sg : keeps sound (publish_slate n blockchain_now name payer sg).
Proof. unfold publish_slate. kept. Qed.
Lemma sound_publish_version name payer version sg : keeps sound (publish_version n blockchain_now name payer version sg).
Proof. unfold publish_version. kept. Qed.
Lemma sound_asset_register name symbol long text m x y z ty id sg : keeps sound (asset_register n blockchain_now name symbol long text m x y z ty id sg).
Proof. unfold asset_register. kept. Qed.
Lemma sound_uia_issue b a to memo sg : keeps sound (uia_issue_or_collect_fees n blockchain_now b a to memo sg).
Proof. unfold uia_issue_or_collect_fees. kept. Qed.
Lemma sound_uia_properties payer symbol op sg : keeps sound (uia_update_properties n blockchain_now payer symbol op sg).
Proof. unfold uia_update_properties. kept. Qed.
Lemma sound_uia_flags payer symbol flag name b c sg : keeps sound (uia_update_permission_or_flag n blockchain_now payer symbol flag name b c sg).
Proof. unfold uia_update_permission_or_flag. kept. Qed.
Lemma sound_uia_whitelist payer symbol a b sg : keeps sound (uia_update_whitelist n blockchain_now payer symbol a b sg).
Proof. unfold uia_update_whitelist. kept. Qed.
Lemma sound_issue_to_many symbol l : keeps sound (uia_issue_to_many n blockchain_now symbol l).
Proof. unfold uia_issue_to_many. kept. Qed.
End transactions.

(** ** The ledger *)

(** Keeps the wallet sound, and what it returns has a property. *)
Definition good {R} (Q : R -> Prop) (m : wm R) : Prop :=
  forall w w' r, m w = (w', r) -> sound w -> sound w' /\ forall a, r = Ok a -> Q a.
Lemma good_keeps {R} (Q : R -> Prop) m : good Q m -> keeps sound m.
Proof. intros H w w' r E S. by apply (H w w' r). Qed.
Lemma good_ret {R} (Q : R -> Prop) a : Q a -> good Q (nret a).
Proof. intros H w w' r [= <- <-] S. split; [ done | ]. by intros b [= <-]. Qed.
Lemma good_throw {R} (Q : R -> Prop) e : good Q (nthrow e).
Proof. intros w w' r [= <- <-] S. done. Qed.
Lemma good_bind {R T} (P : R -> Prop) (Q : T -> Prop) m f : good P m -> (forall a, P a -> good Q (f a)) -> good Q (nbind m f).
Proof.
  intros Hm Hf w w' r [(w1 & a & E & H)|(e & E & ->)]%nbind_inv S; destruct (Hm _ _ _ E S) as [S1 H1]; [ | done ].
  exact (Hf a (H1 a eq_refl) _ _ _ H S1).
Qed.
Lemma good_after {R T} (Q : T -> Prop) (m : wm R) f : keeps sound m -> (forall a, good Q (f a)) -> good Q (nbind m f).
Proof. intros Hm Hf. apply (good_bind (fun _ => True)); [ | by intros ]. intros w w' r E S. split; [ by apply (Hm _ _ _ E) | done ]. Qed.
Lemma good_read {R T} (Q : T -> Prop) (g : wallet -> result R) f : (forall w a, sound w -> g w = Ok a -> good Q (f a)) -> good Q (nbind (nread g) f).
Proof. intros Hf w w' r [(a & E & H)|(e & E & -> & ->)]%nread_inv S; [ exact (Hf w a S E _ _ _ H S) | done ]. Qed.
Lemma good_lift {R T} (Q : T -> Prop) (x : result R) f : (forall a, x = Ok a -> good Q (f a)) -> good Q (nbind (lift x) f).
Proof. intros Hf. apply good_read. intros w a _. apply Hf. Qed.

Definition scan_ok (s : scan) : Prop := transaction_ok (sc_record s).
#[local] Abbreviation good_scan := (good (fun r => scan_ok (snd r))).

Lemma good_add {T} (Q : T -> Prop) a s f : scan_ok s -> (forall s', scan_ok s' -> good Q (f s')) -> good Q (nbind (lift (add_to_fee a s)) f).
Proof. intros H Hf. apply good_lift. intros s' E. apply Hf. unfold add_to_fee in E. destruct (_ =? _); [ | by injection E as <- ]. by apply bind_Ok in E as (fee & _ & [= <-]). Qed.
Lemma good_take {T} (Q : T -> Prop) a s f : scan_ok s -> (forall s', scan_ok s' -> good Q (f s')) -> good Q (nbind (lift (take_from_fee a s)) f).
Proof. intros H Hf. apply good_lift. intros s' E. apply Hf. unfold take_from_fee in E. destruct (_ =? _); [ | by injection E as <- ]. by apply bind_Ok in E as (fee & _ & [= <-]). Qed.
Lemma good_change {T} (Q : T -> Prop) g s f : scan_ok s -> (forall s', scan_ok s' -> good Q (f s')) -> good Q (nbind (change_entries g s) f).
Proof. intros H Hf. apply (good_bind scan_ok); [ | exact Hf ]. unfold change_entries. apply good_lift. intros l _. by apply good_ret. Qed.

Ltac scanned :=
  repeat first
    [ progress intros
    | match goal with
      | |- good _ (nbind (lift (add_to_fee _ _)) _) => apply good_add; [ assumption | ]
      | |- good _ (nbind (lift (take_from_fee _ _)) _) => apply good_take; [ assumption | ]
      | |- good _ (nbind (change_entries _ _) _) => apply good_change; [ assumption | ]
      | |- good _ (nbind (lift _) _) => apply good_lift
      | |- good _ (nbind (nread _) _) => apply good_read
      | |- good _ (nbind (read_db _) _) => apply good_read
      | |- good _ (nbind _ _) => apply good_after; [ solve [ kept ] | ]
      | |- good _ (nret _) => apply good_ret; assumption
      | |- good _ (nthrow _) => apply good_throw
      | |- good _ (match ?x with _ => _ end) => destruct x
      end ].

Lemma good_withdraw op s : scan_ok s -> good_scan (scan_withdraw n op s).
Proof. intros H. unfold scan_withdraw. scanned. Qed.
Lemma good_withdraw_pay op s : scan_ok s -> good_scan (scan_withdraw_pay n op s).
Proof. intros H. unfold scan_withdraw_pay. scanned. Qed.
Lemma good_register op s : scan_ok s -> good_scan (scan_register_account n op s).
Proof. intros H. unfold scan_register_account. scanned. Qed.
Lemma good_update op s : scan_ok s -> good_scan (scan_update_account n op s).
Proof. intros H. unfold scan_update_account. scanned. Qed.
Lemma good_creation owner memo s : scan_ok s -> good_scan (scan_creation owner memo s).
Proof. intros H. unfold scan_creation. scanned. apply good_ret. by case_match. Qed.

#[local] Hint Resolve good_withdraw good_withdraw_pay good_register good_update good_creation : keeps.
Lemma good_create_asset op s : scan_ok s -> good_scan (scan_create_asset n op s).
Proof. intros H. unfold scan_create_asset. scanned; by apply good_creation. Qed.
Lemma good_own_entry f s : scan_ok s -> good_scan (scan_own_entry f s).
Proof. intros H. unfold scan_own_entry. scanned. apply good_ret. by case_match. Qed.
Lemma good_issue a s : scan_ok s -> good_scan (scan_issue_asset n a s).
Proof. apply good_own_entry. Qed.
Lemma good_feed s : scan_ok s -> good_scan (scan_update_feed n s).
Proof. apply good_own_entry. Qed.

(** A key that is found with its private key is sealed. *)
Lemma own_key_sealed a w r : sound w -> own_key a w = Ok (Some r) -> sealed p (record_data r) /\ has_private_key (record_data r) = true.
Proof.
  intros ([_ Sl _] & _) E. unfold own_key in E. apply bind_Ok in E as (key & E & [= Ek]). destruct key as [k|]; cbn in Ek; [ | done ].
  destruct (has_private_key (record_data k)) eqn:Hp; [ | done ]. injection Ek as <-. split; [ | done ].
  unfold lookup_key in E. apply bind_Ok in E as (_ & _ & [= E]). destruct (w_btc_to_bts (wl_db w) !! a) as [b|]; [ | done ]. cbn in E. by apply (Sl b).
Qed.
Lemma good_order type a op s : scan_ok s -> good_scan (scan_order (small_id := small_id) type a op s).
Proof.
  intros H. unfold scan_order. apply good_take; [ done | ]. intros s1 H1. apply good_read. intros w key S E. destruct key as [r|]; [ | by apply good_ret ].
  destruct (own_key_sealed _ _ _ S E) as [Hs Hp]. apply good_after; [ | scanned ]. by apply keeps_sound_db, keeps_safe_store_key, key_ok_sealed.
Qed.
Lemma good_chips op s : scan_ok s -> good_scan (scan_buy_chips op s).
Proof. intros H. unfold scan_buy_chips. scanned. Qed.

Lemma single_ok f s : scan_ok s -> scan_ok (set_sc_record (with_single f (sc_record s)) s).
Proof. unfold scan_ok, with_single. by destruct (ti_ledger_entries (sc_record s)) as [|e [|? ?]]. Qed.
Lemma sound_own_account id : keeps sound (own_account n id).
Proof. unfold own_account. kept. Qed.
Lemma sound_note_packet id a b : keeps sound (note_packet id a b).
Proof. unfold note_packet. kept. Qed.
#[local] Hint Resolve sound_own_account sound_note_packet : keeps.
Lemma good_burn op s : scan_ok s -> good_scan (scan_burn op s).
Proof. intros H. unfold scan_burn. scanned. by apply good_ret, single_ok. Qed.
Lemma good_ad op s : scan_ok s -> good_scan (scan_ad n op s).
Proof. intros H. unfold scan_ad. scanned. by apply good_ret, single_ok. Qed.
Lemma good_note op s : scan_ok s -> good_scan (scan_note op s).
Proof. intros H. unfold scan_note. scanned. by apply good_ret, single_ok. Qed.
Lemma good_packet op s : scan_ok s -> good_scan (scan_red_packet n op s).
Proof. intros H. unfold scan_red_packet. scanned. by apply good_ret, single_ok. Qed.
Context {hex : Z -> string}.
Lemma good_claim op s : scan_ok s -> good_scan (scan_claim_packet n (hex := hex) op s).
Proof. intros H. unfold scan_claim_packet. scanned. Qed.

Lemma good_memo a owners data s : scan_ok s -> good_scan (scan_memo n a owners data s).
Proof.
  intros H. unfold scan_memo. apply good_read. intros w found S _. destruct found as [[k status]|]; [ | by apply good_ret ].
  unfold get_password. apply good_read. intros w' q S' [= <-]. rewrite (proj1 (proj2 S')). scanned.
Qed.
Lemma good_plain a owner s : scan_ok s -> good_scan (scan_plain a owner s).
Proof.
  intros H. unfold scan_plain. apply good_read. intros w [r|] _ _; [ | by apply good_ret ]. apply good_read. intros w' [l|] _ _; [ | by apply good_ret ].
  destruct (is_cancel _); [ by apply good_lift; intros s' [= <-]; apply good_ret | ]. apply good_add; [ done | ]. intros s' H'. by apply good_ret.
Qed.
Lemma good_owners a owners b s : scan_ok s -> good_scan (scan_owners a owners (b, s)).
Proof.
  revert b s. induction owners as [|o owners IH]; intros b s H; cbn [scan_owners]; [ by apply good_ret | ].
  eapply good_bind; [ by apply good_plain | ]. intros [b' s'] H'. by apply IH.
Qed.
#[local] Hint Resolve good_memo good_owners : keeps.
Lemma good_deposit op s : scan_ok s -> good_scan (scan_deposit n op s).
Proof. intros H. unfold scan_deposit. scanned; auto with keeps. Qed.

Lemma good_taking op s : scan_ok s -> good_scan (scan_taking n (small_id := small_id) op s).
Proof.
  intros H. destruct op; cbn [scan_taking]; try (by apply good_ret); [ by apply good_withdraw | by apply good_withdraw_pay | | ];
  (destruct (_ <? _); [ by apply good_order | by apply good_ret ]).
Qed.
Lemma good_counted (g : given) (m : wm (bool * scan)) : good_scan m -> good (fun r => scan_ok (snd r)) (r <~ m ;; nret (g, fst r, snd r)).
Proof. intros H. eapply good_bind; [ exact H | ]. intros r Hr. by apply good_ret. Qed.
Lemma good_giving op s : scan_ok s -> good (fun r => scan_ok (snd r)) (scan_giving n (small_id := small_id) (hex := hex) op s).
Proof.
  intros H. destruct op; cbn [scan_giving]; try (by apply good_ret); apply good_counted;
    repeat match goal with |- good _ (if ?b then _ else _) => destruct b end;
    first [ by apply good_ret | by apply good_deposit | by apply good_order | by apply good_ad | by apply good_burn | by apply good_note
          | by apply good_packet | by apply good_claim | by apply good_chips ].
Qed.
Lemma good_rest op s : scan_ok s -> good_scan (scan_rest n op s).
Proof.
  intros H. destruct op; cbn [scan_rest];
    first [ by apply good_ret | by apply good_register | by apply good_update | by apply good_create_asset | by apply good_issue | by apply good_feed ].
Qed.
Lemma good_all f ops b s : (forall op s, scan_ok s -> good_scan (f op s)) -> scan_ok s -> good_scan (scan_all f ops (b, s)).
Proof.
  intros Hf. revert b s. induction ops as [|op ops IH]; intros b s H; cbn [scan_all]; [ by apply good_ret | ].
  eapply good_bind; [ by apply Hf | ]. intros [b' s'] H'. by apply IH.
Qed.
Lemma good_given ops b c s : scan_ok s -> good (fun r => scan_ok (snd r)) (scan_given n (small_id := small_id) (hex := hex) ops b c s).
Proof.
  revert b c s. induction ops as [|op ops IH]; intros b c s H; cbn [scan_given]; [ by apply good_ret | ].
  eapply good_bind; [ by apply good_giving | ]. intros [[g b'] s'] H'. destruct g; by apply IH.
Qed.

Lemma sound_store_transaction t : transaction_ok t -> keeps sound (on_db (WalletDb.store_transaction t)).
Proof. intros H. by apply keeps_sound_db, safe_store_transaction. Qed.
Lemma sound_dirty_balances b : keeps sound (set_dirty_balances b).
Proof. unfold set_dirty_balances. kept. Qed.
#[local] Hint Resolve sound_dirty_balances : keeps.
#[local] Hint Extern 1 (keeps sound (on_db (WalletDb.store_transaction _))) => apply sound_store_transaction; done : keeps.
Lemma good_yields id s : scan_ok s -> good scan_ok (scan_yields n id s).
Proof.
  intros H. unfold scan_yields. apply good_lift. intros [r|] _; [ | by apply good_ret ]. destruct (sc_entries s); [ by apply good_ret | ].
  apply good_after; [ kept | ]. intros []. by apply good_ret.
Qed.
Lemma good_operations trx s : scan_ok s -> good_scan (scan_operations n (small_id := small_id) (hex := hex) trx s).
Proof.
  intros H. unfold scan_operations. eapply good_bind; [ apply good_all; [ apply good_taking | done ] | ]. intros [b s1] H1.
  eapply good_bind; [ by apply good_given | ]. intros [[c d] s2] H2. apply good_after; [ kept | ]. intros l.
  eapply good_bind; [ apply good_all; [ apply good_rest | exact H2 ] | ]. intros [e s3] H3.
  eapply (good_bind scan_ok); [ destruct b; [ by apply good_yields | by apply good_ret ] | ]. intros s4 H4. by apply good_ret.
Qed.
(** A record that is found is one of a transaction. *)
Lemma found_transaction id w r : sound w -> lookup_transaction id (wl_db w) = Ok (Some r) ->
  transaction_ok (record_data r) /\ ti_record_id (record_data r) = id.
Proof.
  intros ([M _ _] & _) E. apply lookup_transaction_spec in E; [ | done ]. destruct (mi_memory _ M (at_transaction id) (transaction_info_record r)) as [Hp Hd].
  { cbn. by rewrite <- E. }
  split; [ exact (mi_ok _ M _ _ Hd) | by injection Hp ].
Qed.
Lemma sound_scan_transaction trx b t o : keeps sound (scan_transaction n (small_id := small_id) (hex := hex) trx b t o).
Proof.
  apply (good_keeps (fun _ => True)). unfold scan_transaction. apply good_read. intros w found S E.
  assert (H : transaction_ok (set_ti_confirmed b (match found with Some r => record_data r | None => new_transaction trx t end))).
  { destruct found as [r|]; [ exact (proj1 (found_transaction _ _ _ S E)) | by left ]. }
  apply good_after; [ kept | ]. intros [].
  eapply good_bind; [ apply good_operations; exact H | ]. intros [store s] Hs. apply good_after; [ kept | ]. intros []. scanned. by apply good_ret.
Qed.

(** *** Blocks and scans *)

#[local] Hint Resolve sound_scan_transaction : keeps.
Lemma virtual_ok text b t l c : transaction_ok (virtual_record text b t l c).
Proof. by right. Qed.
#[local] Hint Extern 1 (keeps sound (on_db (WalletDb.store_transaction (virtual_record _ _ _ _ _)))) => apply sound_store_transaction, virtual_ok : keeps.
Lemma sound_filled a b q x y k l : keeps sound (filled_entries n a b q x y k l).
Proof. unfold filled_entries. kept. Qed.
#[local] Hint Resolve sound_filled : keeps.
Lemma sound_side own other b t entries : (forall k l, keeps sound (entries k l)) -> keeps sound (market_side own other b t entries).
Proof. intros H. unfold market_side. kept. Qed.
Lemma sound_bid_entries t k l : keeps sound (bid_entries n t k l).
Proof. unfold bid_entries. kept. Qed.
Lemma sound_ask_entries t k l : keeps sound (ask_entries n t k l).
Proof. unfold ask_entries. kept. Qed.
Lemma sound_scan_market b time t : keeps sound (scan_market_transaction n b time t).
Proof. unfold scan_market_transaction. apply keeps_bind; intros; apply sound_side; [ apply sound_bid_entries | apply sound_ask_entries ]. Qed.
Lemma sound_scan_reward b time t info : keeps sound (scan_operation_reward_transaction n b time t info).
Proof. unfold scan_operation_reward_transaction. kept. Qed.
Lemma sound_attempt {R} (m : wm R) : keeps sound m -> keeps sound (attempt m).
Proof. intros H. unfold attempt. kept. Qed.
Lemma sound_each {R} (f : R -> wm unit) l : (forall x, x ∈ l -> keeps sound (f x)) -> keeps sound (each f l).
Proof.
  induction l as [|x l IH]; intros H; cbn [each]; [ apply keeps_ret | ].
  apply keeps_bind; [ apply H; by left | intros _; apply IH; intros y Hy; apply H; by right ].
Qed.

Context {reports : Z -> block_reports}.
(** The games that a block reports change no key. *)
Hypothesis games_sound : forall b play, play ∈ rp_games (reports b) -> keeps sound play.
Lemma sound_scan_block b : keeps sound (scan_block n (small_id := small_id) (hex := hex) (reports := reports) b).
Proof.
  unfold scan_block. kept; apply sound_each; intros x Hx; cbv beta; try match type of x with prod _ _ => destruct x end; apply sound_attempt;
    first [ apply sound_scan_transaction | apply sound_scan_market | apply sound_scan_reward | pose proof (games_sound _ _ Hx); kept ].
Qed.

Context {snapshot : balance_record -> option (list (Z * string))}.
Lemma sound_clear_claims r : keeps sound (clear_claims r).
Proof.
  apply (good_keeps (fun _ => True)). unfold clear_claims. apply good_read. intros w [t|] S E; [ | by apply good_ret ].
  intros w1 w2 x Ex S1. split; [ | done ]. revert Ex S1. apply sound_store_transaction. exact (proj1 (found_transaction _ _ _ S E)).
Qed.
Lemma sound_snapshot t r : keeps sound (scan_snapshot n (snapshot := snapshot) t r).
Proof.
  apply (good_keeps (fun _ => True)). unfold scan_snapshot. destruct (snapshot r) as [items|]; [ | by apply good_ret ].
  destruct (wc_data _); try by apply good_ret. destruct (balance_owner r); [ | by apply good_ret ].
  apply good_read. intros w0 [k|] _ _; [ | by apply good_ret ]. apply good_read. intros w1 label _ _. apply good_read. intros w found S E.
  intros w2 w3 x Ex S1. split; [ | done ]. revert Ex S1. apply sound_store_transaction. destruct found as [f|]; [ | by right ].
  destruct (found_transaction _ _ _ S E) as [H <-]. exact H.
Qed.
Lemma sound_scan_all_balances t : keeps sound (Ledger.scan_balances n (snapshot := snapshot) t).
Proof.
  unfold Ledger.scan_balances. kept; apply sound_each; intros; [ apply sound_clear_claims | apply sound_snapshot ].
Qed.
Lemma sound_scan_blocks count b : keeps sound (scan_blocks n (small_id := small_id) (hex := hex) (reports := reports) count b).
Proof.
  revert b. induction count as [|count IH]; intros b; cbn [scan_blocks]; [ apply keeps_ret | ].
  apply keeps_bind; [ apply sound_attempt, sound_scan_block | intros _; apply IH ].
Qed.
#[local] Hint Resolve sound_scan_all_balances sound_scan_blocks : keeps.
Lemma sound_scan_task t start limit :
  keeps sound (start_scan_task n (small_id := small_id) (hex := hex) (reports := reports) (snapshot := snapshot) t start limit).
Proof. unfold start_scan_task. kept. Qed.
#[local] Hint Resolve sound_scan_task : keeps.
Lemma sound_start_scan t start limit async :
  keeps sound (start_scan n (small_id := small_id) (hex := hex) (reports := reports) (snapshot := snapshot) t start limit async).
Proof. unfold start_scan. kept. Qed.
#[local] Hint Resolve sound_start_scan : keeps.
Lemma sound_block_pushed t b : keeps sound (block_pushed n (small_id := small_id) (hex := hex) (reports := reports) (snapshot := snapshot) t b).
Proof. unfold block_pushed. kept. Qed.
Lemma sound_block_popped : keeps sound (block_popped n).
Proof. unfold block_popped. kept. Qed.
End operations.
End commands.
End safe.

(** ** What an unlocked wallet does *)

Section unlocked.
Context `{Cr : Crypto} `{Kc : KeyCrypto} `{Kl : !KeyLaws} `{Tx : TxCrypto} `{Wh : WalletHash} `{Pd : !PtsDisjoint} `{St : Statics} `{FcI : Fc} `{Sg : Signing}.
Context `{Tc : TextCodec} `{Pn : PrettyNumber} `{We : WalletEnv}.
Context (order_id : market_order -> Z) (small_id : market_order -> string) (hex : Z -> string) (snapshot : balance_record -> option (list (Z * string))).

Definition escrow_call (c : builder_call) : bool := match c with call_deposit_with_escrow _ _ _ _ _ _ _ => true | _ => false end.
Definition games_keep (reports : Z -> block_reports) : Prop :=
  forall A p b play, play ∈ rp_games (reports b) -> keeps (sound A p) play.

(** Calls of the builder, then its end and the signatures. *)
Definition build_calls n Bal t calls with_fee strategy : wm _ :=
  with_builder (_ <~ run_calls n Bal (order_id := order_id) (small_id := small_id) t calls ;; _ <~ finalize n with_fee strategy t ;; sign_builder).

(** A command, with any arguments, on any state of the chain, but a deposit in
    escrow, which stores a key that it was not given. The scripts of the games,
    which scan blocks in an engine of their own, leave the keys alone. *)
Inductive command : forall {R}, wm R -> Prop :=
  | run_wallet_op op : op_ok op -> command (fun w => on_db (run_op (wl_password w) op) w)
  | run_set_checked id v : id <> next_record_number -> command (set_checked id v)
  | run_set_fee fee : command (set_transaction_fee fee)
  | run_set_expiration secs : command (set_transaction_expiration secs)
  | run_create_account n name t : command (create_account n name t)
  | run_rename_account n old new : command (rename_account n old new)
  | run_import n k name create t : command (import_private_key n k name create t)
  | run_friendly_import n k name t : command (friendly_import_private_key n k name t)
  | run_scan_accounts n : command (scan_accounts n)
  | run_scan_balances n : command (scan_balances_experimental n)
  | run_build n Bal t calls with_fee strategy : Forall (fun c => escrow_call c = false) calls ->
      command (build_calls n Bal t calls with_fee strategy)
  | run_transfer n t a from to memo strategy sg : command (transfer n t a from to memo strategy sg)
  | run_register n t name data rate payer ty sg : command (wallet_register_account n t name data rate payer ty sg)
  | run_register_key n t name k data rate payer ty sg : command (register_account_with_key n t name k data rate payer ty sg)
  | run_update_account n t name payer data rate sg : command (update_registered_account n t name payer data rate sg)
  | run_update_active_key n t name payer k sg : command (wallet_update_active_key n t name payer k sg)
  | run_retract n t name payer sg : command (retract_account n t name payer sg)
  | run_update_signing_key n t name delegate k sg : command (wallet_update_signing_key n t name delegate k sg)
  | run_burn n t a payer side to message anonymous sg : command (burn_asset n t a payer side to message anonymous sg)
  | run_buy_ad n t a publisher owner message sg : command (wallet_buy_ad n t a publisher owner message sg)
  | run_red_packet n t a from message id k count pin sg : command (create_red_packet n t a from message id k count pin sg)
  | run_claim_packet n t id text to k sg : command (claim_red_packet n t id text to k sg)
  | run_delegate_pay n t delegate a to sg : command (withdraw_delegate_pay n t delegate a to sg)
  | run_collect n t name wanted memo sg : command (collect_account_balances n t name wanted memo sg)
  | run_vote_info n t id voter strategy : command (set_vote_info n t id voter strategy)
  | run_publish_price n t name x sg : command (publish_price n t name x sg)
  | run_publish_feeds n t name l sg : command (publish_feeds n t name l sg)
  | run_publish_slate n t name payer sg : command (publish_slate n t name payer sg)
  | run_publish_version n t name payer version sg : command (publish_version n t name payer version sg)
  | run_asset_register n t name symbol long text m x y z ty id sg : command (asset_register n t name symbol long text m x y z ty id sg)
  | run_uia_issue n t b a to memo sg : command (uia_issue_or_collect_fees n t b a to memo sg)
  | run_uia_properties n t payer symbol op sg : command (uia_update_properties n t payer symbol op sg)
  | run_uia_flags n t payer symbol flag name b c sg : command (uia_update_permission_or_flag n t payer symbol flag name b c sg)
  | run_uia_whitelist n t payer symbol a b sg : command (uia_update_whitelist n t payer symbol a b sg)
  | run_issue_to_many n t symbol l : command (uia_issue_to_many n t symbol l)
  | run_scan_transaction n trx b t o : command (scan_transaction n (small_id := small_id) (hex := hex) trx b t o)
  | run_start_scan n reports t start limit async : games_keep reports ->
      command (start_scan n (small_id := small_id) (hex := hex) (reports := reports) (snapshot := snapshot) t start limit async)
  | run_block_pushed n reports t b : games_keep reports ->
      command (block_pushed n (small_id := small_id) (hex := hex) (reports := reports) (snapshot := snapshot) t b)
  | run_block_popped n : command (block_popped n).

(** One command, whatever its outcome. *)
Definition wallet_does (w w' : wallet) : Prop := exists R (m : wm R) r, command m /\ m w = (w', r).

(** *** It keeps the keys *)

Section keeping.
Variables (A : address -> Prop) (p : secret512).

Lemma sound_charging m x : keeps (sound_with A p) m -> keeps (sound_with A p) (charging m x).
Proof. intros H. unfold charging. apply keeps_bind; [ done | intros; apply keeps_read ]. Qed.
Lemma sound_charging_fee n m : keeps (sound_with A p) m -> keeps (sound_with A p) (charging_fee n m).
Proof. intros H. unfold charging_fee. apply keeps_bind; [ apply keeps_read | intros ]. apply keeps_bind; [ done | intros; apply keeps_ret ]. Qed.
Lemma sound_run_call n Bal t c : (forall a, ~ A a) \/ escrow_call c = false ->
  keeps (sound_with A p) (run_call n Bal (order_id := order_id) (small_id := small_id) t c).
Proof.
  intros H. destruct c; [ .. ]; cbn [run_call]; first [ apply sound_charging | apply sound_charging_fee ];
    first [ apply sound_escrow; by destruct H | apply sound_release | apply sound_register | apply sound_update | apply sound_deposit | apply sound_deposit_to_address
          | apply sound_deposit_to_multisig | apply sound_withdraw_from | apply sound_cancel | apply sound_bid | apply sound_ask | apply sound_signing_key
          | unfold deposit_to_balance; apply sound_on_draft ].
Qed.
Lemma sound_run_calls n Bal t cs : Forall (fun c => (forall a, ~ A a) \/ escrow_call c = false) cs ->
  keeps (sound_with A p) (run_calls n Bal (order_id := order_id) (small_id := small_id) t cs).
Proof.
  induction 1 as [|c cs Hc _ IH]; cbn [run_calls]; [ apply keeps_ret | ].
  apply keeps_bind; [ by apply sound_run_call | intros x ]. apply keeps_bind; [ done | intros; apply keeps_ret ].
Qed.
#[local] Hint Resolve sound_set_checked sound_set_fee sound_set_expiration sound_create_account sound_rename sound_import sound_friendly_import
  sound_scan_accounts sound_scan_balances sound_transfer sound_register_wallet sound_register_key sound_update_registered sound_active_key
  sound_retract sound_wallet_signing_key sound_burn sound_buy_ad sound_red_packet sound_claim_packet sound_delegate_pay sound_collect
  sound_vote_info sound_publish_price sound_publish_feeds sound_publish_slate sound_publish_version sound_asset_register sound_uia_issue
  sound_uia_properties sound_uia_flags sound_uia_whitelist sound_issue_to_many sound_scan_transaction sound_block_popped : keeps.
Lemma sound_build_calls n Bal t calls with_fee strategy : Forall (fun c => (forall a, ~ A a) \/ escrow_call c = false) calls ->
  keeps (sound A p) (build_calls n Bal t calls with_fee strategy).
Proof.
  intros H. apply sound_with_builder. apply keeps_bind; [ by apply sound_run_calls | intros _ ].
  apply keeps_bind; [ apply sound_finalize | intros _; apply sound_sign_builder ].
Qed.
Lemma sound_command {R} (m : wm R) : command m -> keeps (sound A p) m.
Proof.
  destruct 1.
  1: { apply (keeps_sound_at_password _ _ (fun q => on_db (run_op q op))). by apply keeps_sound_db, safe_run_op. }
  all: auto 2 with keeps nocore.
  - apply sound_build_calls. eapply Forall_impl; [ done | by right ].
  - apply sound_start_scan. eauto.
  - apply sound_block_pushed. eauto.
Qed.
End keeping.
End unlocked.

(** ** A new wallet *)

Section new.
Context `{Cr : Crypto} `{Kc : KeyCrypto} `{Kl : !KeyLaws} `{Tx : TxCrypto} `{Wh : WalletHash} `{Pd : !PtsDisjoint} `{St : Statics} `{FcI : Fc} `{We : WalletEnv}.

Lemma sound_reopen A p w w' r path : sound A p w -> wl_db_path w = Some path -> (_ <~ close_db ;; open_db path) w = (w', r) -> sound A p w'.
Proof.
  intros (S & Hp & (path' & Hp' & D)) Hpath E. rewrite Hpath in Hp'. injection Hp' as <-. unfold close_db, open_db in E. rewrite !nwrite_inv in E. unfold on_db in E. cbn -[sync] in E. rewrite D in E.
  destruct (restart_run (wl_db w) (WalletDb.close (wl_db w)) (ks_mirrored _ _ _ S) (or_intror eq_refl)) as (d & Eo & M & Sm).
  rewrite Eo in E. apply pair_equal_spec in E as [<- _]. unfold sound. split_and!.
  - rewrite sync_db. apply (keys_safe_same _ _ (wl_db w)); [ apply Sm | exact M | exact S ].
  - by rewrite sync_password.
  - by apply on_disk_sync; [ exact M | eexists ].
Qed.
Lemma open_new p w w' r path : wl_db w = wallet_db_empty -> wl_files w !! path = None -> open_db path w = (w', r) ->
  wl_db w' = new_wallet /\ keys_safe (fun _ => False) p (wl_db w') /\ on_disk w' /\ wl_db_path w' = Some path.
Proof.
  intros Ed Ef E. unfold open_db in E. rewrite nwrite_inv in E. unfold on_db in E. cbn -[sync] in E. rewrite Ef, Ed in E.
  change (WalletDb.open None wallet_db_empty) with (new_wallet, Ok tt : result unit) in E. apply pair_equal_spec in E as [<- _].
  pose proof (safe_new_wallet p) as S. rewrite sync_db. split; [ done | ]. split; [ exact S | ]. split; [ | done ]. by apply on_disk_sync; [ apply S | eexists ].
Qed.
Lemma sound_master A p k w w' r : sound A p w -> w_keys (wl_db w) = ∅ -> on_db (set_master_key k p) w = (w', r) -> sound A p w'.
Proof.
  intros (S & Hp & D) Hk E. unfold on_db in E. destruct (set_master_key k p (wl_db w)) as [d x] eqn:Em. apply pair_equal_spec in E as [<- _].
  assert (S' : keys_safe A p d) by (apply (step_safe A p (wl_db w)); [ by apply (step_master_key p _ _ k p x) | done ]).
  unfold sound. rewrite sync_db, sync_password. split; [ exact S' | ]. split; [ done | ]. apply on_disk_sync; [ apply S' | ]. destruct D as (path & D & _). by exists path.
Qed.
Lemma on_failure_Ok {R} (m : wm R) handler w w' a : on_failure m handler w = (w', Ok a) -> m w = (w', Ok a).
Proof.
  unfold on_failure, ncatch. destruct (m w) as [w1 [b|e]] eqn:E; [ done | ]. unfold nbind, nthrow. destruct e; try done; by destruct (handler w1) as [? []].
Qed.
Lemma path_on_db {R} (m : wallet_m R) path : keeps (fun w => wl_db_path w = path) (on_db m).
Proof.
  intros w w' r E <-. unfold on_db in E. destruct (m (wl_db w)) as [d x]. apply pair_equal_spec in E as [<- _]. by rewrite sync_path.
Qed.

(** The settings of a new wallet. *)
Definition opened p path w : Prop := sound (fun _ => False) p w /\ wl_db_path w = Some path.
Lemma keeps_opened {R} p path (m : wm R) : keeps (sound (fun _ => False) p) m -> keeps (fun w => wl_db_path w = Some path) m -> keeps (opened p path) m.
Proof. intros H1 H2 w w' r E [S P]. split; [ by apply (H1 _ _ _ E) | by apply (H2 _ _ _ E) ]. Qed.
Lemma opened_checked p path id v : id <> next_record_number -> keeps (opened p path) (set_checked id v).
Proof.
  intros H. apply keeps_opened; [ by apply sound_set_checked | ]. unfold set_checked. apply keeps_bind; [ apply keeps_read | intros _; apply path_on_db ].
Qed.
Lemma opened_fee p path fee : keeps (opened p path) (set_transaction_fee fee).
Proof.
  apply keeps_opened; [ apply sound_set_fee | ]. unfold set_transaction_fee. apply keeps_bind; [ apply keeps_read | intros _ ].
  destruct (_ || _); [ apply keeps_throw | apply path_on_db ].
Qed.
Lemma opened_expiration p path secs : keeps (opened p path) (set_transaction_expiration secs).
Proof.
  apply keeps_opened; [ apply sound_set_expiration | ]. unfold set_transaction_expiration. apply keeps_bind; [ apply keeps_read | intros _ ].
  destruct (_ <? _); [ apply keeps_throw | apply path_on_db ].
Qed.

(** After a step that keeps it. *)
Ltac after_step S :=
  match goal with E : nbind _ _ _ = (_, Ok _) |- _ =>
    let w1 := fresh "w" in let a := fresh "a" in let E1 := fresh "E" in
    apply nbind_inv in E as [(w1 & a & E1 & E)|(? & _ & [=])];
    match type of S with opened ?p ?path _ => match type of E1 with ?m _ = _ =>
      let K := fresh "K" in
      assert (K : keeps (opened p path) m) by first [ apply opened_fee | apply opened_expiration | by apply opened_checked ];
      apply (K _ _ _ E1) in S; clear E1 K end end
  end.
Ltac after_read :=
  match goal with E : nbind (nread _) _ _ = (_, Ok _) |- _ => apply nread_inv in E as [(? & ? & E)|(? & _ & _ & [=])]
                | E : nbind (lift _) _ _ = (_, Ok _) |- _ => apply nread_inv in E as [(? & ? & E)|(? & _ & _ & [=])] end.
Lemma validated_is_open A p q w b : sound A p w -> validate_password q (wl_db w) = Ok b -> wallet_is_open w = true.
Proof.
  intros ([M _ _] & _) E. unfold wallet_is_open, WalletDb.is_open. rewrite (mi_open _ M). unfold validate_password in E. by destruct (w_master_key _).
Qed.
Lemma sound_create_file n path password brainkey random w w' : wl_db w = wallet_db_empty ->
  create_file n path password brainkey random w = (w', Ok tt) ->
  sound (fun _ => False) (hash_text password) w' /\ wl_current_path w' = path /\ wallet_is_open w' = true.
Proof.
  intros Ed E. unfold create_file in E. apply nread_inv in E as [(? & _ & E)|(? & _ & _ & [=])]. apply nread_inv in E as [(? & Ef & E)|(? & _ & _ & [=])].
  after_read. apply on_failure_Ok in E.
  apply nbind_inv in E as [(w1 & [] & E1 & E)|(? & _ & [=])]. cbv [close lock close_db nbind nwrite] in E1. apply pair_equal_spec in E1 as [<- _].
  apply nbind_inv in E as [(w2 & [] & E2 & E)|(? & _ & [=])].
  apply (open_new (hash_text password)) in E2 as (Hd & Hs & Hf & Hp); [ | cbn; by rewrite Ed | ].
  2: { cbn. unfold exists_file in Ef. by destruct (wl_files w !! path). }
  rewrite nwrite_inv in E. apply nbind_inv in E as [(w3 & [] & E3 & E)|(? & _ & [=])].
  assert (S : opened (hash_text password) path w3).
  { split; [ | by apply (path_on_db _ (Some path) _ _ _ E3) ]. revert E3. apply sound_master; [ by split | cbn; by rewrite Hd ]. }
  do 6 after_step S. apply nbind_inv in E as [(w9 & [] & E4 & E)|(? & _ & [=])].
  apply nbind_inv in E as [(w10 & [] & E5 & E)|(? & _ & [=])].
  assert (S' : sound (fun _ => False) (hash_text password) w10).
  { eapply (sound_reopen _ _ _ w10 (Ok tt) path); [ apply (proj1 S) | apply S | ]. unfold nbind at 1. by rewrite E4. }
  rewrite nwrite_inv in E. after_read. unfold lift, nread in E. apply pair_equal_spec in E as [<- _].
  assert (S1 : sound (fun _ => False) (hash_text password) (set_wl_current_path path w10)) by (by apply (sound_same _ _ w10)).
  split; [ done | ]. split; [ done | ]. by eapply (validated_is_open _ _ _ _ _ S1).
Qed.
Lemma open_file_same w w' name : wallet_is_open w = true -> wl_current_path w = name -> on_failure (open_file name) close w = (w', Ok tt) -> w' = w.
Proof.
  intros S Hc E. apply on_failure_Ok in E. unfold open_file in E. do 2 after_read. unfold nread, nbind in E. rewrite S, Hc in E.
  rewrite bool_decide_eq_true_2 in E by done. by injection E as ->.
Qed.
(** A wallet that may be locked. *)
Definition lockable A p w : Prop := keys_safe A p (wl_db w) /\ on_disk w.
Lemma unlocked_sound n A password timeout now w w' : lockable A (hash_text password) w -> unlock n password timeout now w = (w', Ok tt) ->
  sound A (hash_text password) w'.
Proof.
  intros S E. unfold unlock in E. apply on_failure_Ok in E.
  do 4 (apply nread_inv in E as [(? & _ & E)|(? & _ & _ & [=])]). rewrite nwrite_inv in E. revert E.
  assert (K : keeps (sound A (hash_text password))
    (valid <~ nread (fun w => validate_password (wl_password w) (wl_db w)) ;;
     _ <~ lift (throw_unless invalid_password valid) ;;
     _ <~ nwrite (fun w => set_wl_lock (wl_password w) (Some (now + timeout * 1000000)) w) ;;
     scan_accounts n)).
  { do 2 (apply keeps_bind; [ apply keeps_read | intros ? ]).
    apply keeps_bind; [ apply keeps_write; intros y (H1 & H2 & H3); done | intros _ ]. apply sound_scan_accounts. }
  intros E. apply (K _ _ _ E). destruct S as [S D]. by split_and!.
Qed.
Lemma sound_unlock n A password timeout now w w' : sound A (hash_text password) w -> unlock n password timeout now w = (w', Ok tt) ->
  sound A (hash_text password) w'.
Proof. intros (S & _ & D). apply unlocked_sound. by split. Qed.
Lemma sound_relock n A password timeout now w w' : sound A (hash_text password) w ->
  (_ <~ lock ;; unlock n password timeout now) w = (w', Ok tt) -> sound A (hash_text password) w'.
Proof. intros (S & _ & D) E. unfold lock in E. rewrite nwrite_inv in E. revert E. apply unlocked_sound. by split. Qed.
Lemma sound_create n name password brainkey random now w w' : wl_db w = wallet_db_empty ->
  create n name password brainkey random now w = (w', Ok tt) -> sound (fun _ => False) (hash_text password) w'.
Proof.
  intros Ed E. unfold create in E. do 4 after_read. apply on_failure_Ok in E. apply nbind_inv in E as [(w1 & [] & E1 & E)|(? & _ & [=])].
  apply sound_create_file in E1 as (S & Hc & Ho); [ | done ]. apply nbind_inv in E as [(w2 & [] & E2 & E)|(? & _ & [=])].
  unfold open in E2.
  assert (S2 : sound (fun _ => False) (hash_text password) w2).
  { clear E. rename E2 into E. do 3 after_read. apply nbind_inv in E as [(w3 & [] & E3 & E)|(? & _ & [=])].
    apply (open_file_same _ _ _ Ho Hc) in E3 as ->. revert E S. apply keeps_bind; [ apply sound_scan_accounts | intros _; apply sound_scan_balances ]. }
  by apply (sound_unlock _ _ _ _ _ _ _ S2 E).
Qed.
End new.

(** ** Private keys *)

Section keys.
Context `{Cr : Crypto} `{Kc : KeyCrypto} `{Kl : !KeyLaws} `{Tx : TxCrypto} `{Wh : WalletHash} `{Pd : !PtsDisjoint} `{St : Statics} `{FcI : Fc} `{Sg : Signing}.
Context `{Tc : TextCodec} `{Pn : PrettyNumber} `{We : WalletEnv}.
Context (order_id : market_order -> Z) (small_id : market_order -> string) (hex : Z -> string) (snapshot : balance_record -> option (list (Z * string))).
#[local] Abbreviation escrow_build := (build_calls order_id small_id).

(** What happens to an unlocked wallet, with its password: a command, a
    transaction of any calls of the builder, another password, and the lock,
    which is opened again. *)
Inductive session_step : secret512 * wallet -> secret512 * wallet -> Prop :=
  | step_command p w w' : wallet_does order_id small_id hex snapshot w w' -> session_step (p, w) (p, w')
  | step_build p w w' n Bal t calls with_fee strategy r : escrow_build n Bal t calls with_fee strategy w = (w', r) -> session_step (p, w) (p, w')
  | step_passphrase p w w' new r : change_passphrase new w = (w', r) ->
      session_step (p, w) (match r with Ok _ => hash_text new | Throw _ => p end, w')
  | step_lock w w' n password timeout now : (_ <~ lock ;; unlock n password timeout now) w = (w', Ok tt) ->
      session_step (hash_text password, w) (hash_text password, w').
#[local] Abbreviation session := (rtc session_step).

(** The step makes a transaction with a deposit in escrow. *)
Definition makes_escrow (s s' : secret512 * wallet) : Prop :=
  exists n Bal t calls with_fee strategy r, Exists (fun c => escrow_call c = true) calls
    /\ escrow_build n Bal t calls with_fee strategy (snd s) = (snd s', r).

Lemma sound_passphrase A p new w w' r : change_passphrase new w = (w', r) -> sound A p w ->
  sound A (match r with Ok _ => hash_text new | Throw _ => p end) w'.
Proof.
  intros E S. unfold change_passphrase in E.
  apply nread_inv in E as [(? & _ & E)|(? & _ & -> & ->)]; [ | done ]. apply nread_inv in E as [(? & _ & E)|(? & _ & -> & ->)]; [ | done ].
  unfold get_password in E. apply nread_inv in E as [(q & Eq & E)|(? & _ & -> & ->)]; [ | done ]. apply Ok_inj in Eq as <-.
  rewrite (proj1 (proj2 S)) in E. destruct S as (S & Hp & D).
  assert (K : forall d y, change_password p (hash_text new) (wl_db w) = (d, y) ->
    on_db (change_password p (hash_text new)) w = (sync (set_wl_db d w), y)) by (intros d y Ex; unfold on_db; by rewrite Ex).
  destruct (change_password p (hash_text new) (wl_db w)) as [d y] eqn:Ex. specialize (K _ _ eq_refl).
  pose proof (change_password_run A _ _ _ _ _ S Ex) as R.
  apply nbind_inv in E as [(w1 & b & E1 & E)|(e & E1 & ->)]; rewrite K in E1; apply pair_equal_spec in E1 as [<- ->].
  - rewrite nwrite_inv in E. unfold set_dirty_accounts in E. apply pair_equal_spec in E as [<- <-]. destruct R as [R _].
    apply (sound_same A (hash_text new) (set_wl_lock (hash_text new) (wl_scheduled_lock_time (sync (set_wl_db d w))) (sync (set_wl_db d w)))); [ done.. | ].
    split_and!; [ by change (keys_safe A (hash_text new) (wl_db (sync (set_wl_db d w)))); rewrite sync_db | done | ].
    change (on_disk (sync (set_wl_db d w))). apply on_disk_sync; [ apply R | ]. destruct D as (path & D & _). by exists path.
  - subst d. split_and!; [ by rewrite sync_db | by rewrite sync_password | ]. apply on_disk_sync; [ apply S | ]. destruct D as (path & D & _). by exists path.
Qed.

(** A step keeps the private keys of [A], unless it makes a deposit in escrow. *)
Lemma sound_step A s s' : session_step s s' -> sound A (fst s) (snd s) ->
  ((forall a, ~ A a) -> sound A (fst s') (snd s')) /\ (sound A (fst s') (snd s') \/ makes_escrow s s').
Proof.
  intros H S. assert (D : sound A (fst s') (snd s') \/ ((forall a, ~ A a) -> sound A (fst s') (snd s')) /\ makes_escrow s s');
    [ | destruct D as [D|[D1 D2]]; [ by split; [ | left ] | by split; [ | right ] ] ].
  destruct H as [p w w' (R & m & r & Hm & E)|p w w' n Bal t calls with_fee strategy r E|p w w' new r E|w w' n password timeout now E]; cbn [fst snd] in *.
  - left. by apply (sound_command _ _ _ _ _ _ _ Hm _ _ _ E).
  - destruct (decide (Forall (fun c => escrow_call c = false) calls)) as [Hn|Hn].
    + left. refine (sound_build_calls order_id small_id A p _ _ _ _ _ _ _ _ _ _ E S). eapply Forall_impl; [ done | by right ].
    + right. split.
      { intros HA. refine (sound_build_calls order_id small_id A p _ _ _ _ _ _ _ _ _ _ E S). apply Forall_true. by left. }
      exists n, Bal, t, calls, with_fee, strategy, r. split; [ | done ]. apply not_Forall_Exists in Hn; [ | apply _ ].
      eapply Exists_impl; [ done | intros c; cbn; by destruct (escrow_call c) ].
  - left. by apply (sound_passphrase _ _ _ _ _ _ E).
  - left. by apply (sound_relock _ _ _ _ _ _ _ S E).
Qed.
Lemma sound_session s s' : session s s' -> sound (fun _ => False) (fst s) (snd s) -> sound (fun _ => False) (fst s') (snd s').
Proof. induction 1 as [|x y z H _ IH]; [ done | ]. intros S. apply IH. apply (sound_step _ x y H S). by intros a []. Qed.
Lemma sound_with_key s a : sound (fun _ => False) (fst s) (snd s) -> wallet_has_private_key a (wl_db (snd s)) = true ->
  sound (fun x => x = a) (fst s) (snd s).
Proof. intros ([M S _] & Hp & D) Ha. split_and!; [ split; [ done | done | by intros x -> ] | done | done ]. Qed.
Lemma session_loses s s' a : session_step s s' -> sound (fun _ => False) (fst s) (snd s) -> wallet_has_private_key a (wl_db (snd s)) = true ->
  wallet_has_private_key a (wl_db (snd s')) = false -> makes_escrow s s'.
Proof.
  intros H S Ha Hl. destruct (sound_step _ _ _ H (sound_with_key _ _ S Ha)) as [_ [S'|E]]; [ exfalso | done ].
  destruct S' as ([_ _ K] & _). specialize (K a eq_refl). congruence.
Qed.
(** What a sound wallet has a private key of it can sign for. *)
Lemma sound_private_key A p w a : sound A p w -> A a ->
  exists r k, w_keys (wl_db w) !! a = Some r /\ decrypt_private_key (wl_password w) (record_data r) = Ok k /\ key_address (get_public_key k) = a
    /\ (wallet_is_open w = true -> get_private_key a w = Ok k).
Proof.
  intros ([M S K] & Hp & _) Ha. specialize (K _ Ha). unfold wallet_has_private_key in K. destruct (mi_cached _ M) as [(K1 & _ & K3) _].
  destruct (w_keys (wl_db w) !! a) as [r|] eqn:Hr; [ | done ]. destruct (S _ _ Hr K) as (k & _ & Hd & Hk). exists r, k. rewrite Hp.
  split; [ done | ]. split; [ done | ]. split; [ by rewrite Hk, (K3 _ _ Hr) | ]. intros Ho.
  assert (Hn : p <> 0). { intros ->. unfold decrypt_private_key in Hd. done. }
  unfold get_private_key, is_unlocked, is_locked. rewrite Ho, Hp, (proj2 (Z.eqb_neq _ _) Hn). cbn. unfold lookup_key. unfold wallet_is_open in Ho.
  rewrite Ho. cbn [fc_assert rbind]. rewrite (K1 a) by by rewrite Hr. cbn. rewrite Hr. cbn. cbn in K. by rewrite K.
Qed.
Lemma sound_file A p w : sound A p w ->
  exists path d, wl_db_path w = Some path /\ WalletDb.open (wl_files w !! path) wallet_db_empty = (d, Ok tt) /\ same_maps (wl_db w) d.
Proof.
  intros (S & _ & (path & Hp & D)). exists path. rewrite D.
  destruct (restart_run _ wallet_db_empty (ks_mirrored _ _ _ S) (or_introl eq_refl)) as (d & E & _ & Hs). by exists d.
Qed.

(** What the wallet has of a private key: the password decrypts it, and the
    wallet signs with it. *)
Definition has_usable_key (a : address) w : Prop :=
  exists r k, w_keys (wl_db w) !! a = Some r /\ decrypt_private_key (wl_password w) (record_data r) = Ok k
    /\ key_address (get_public_key k) = a /\ (wallet_is_open w = true -> get_private_key a w = Ok k).

(** C30: A wallet is created, and then runs commands of an unlocked wallet, with
    any outcome and on any state of the chain (keys, accounts, settings,
    transactions of any calls of the builder, scans of blocks, with scripts of
    games that leave the keys alone), changes its password, with or without
    success, and is locked and unlocked. It then has the password of the moment; its
    file, opened in a new process, gives the same keys, accounts, contacts,
    transactions and settings; and each address that it had a private key of at
    some time has one, which the password decrypts and the wallet signs with,
    unless a transaction with a deposit in escrow took it away in between. *)
Theorem commands_keep_keys n name password brainkey random now w0 w1 s2 s3 a :
  wl_db w0 = wallet_db_empty -> create n name password brainkey random now w0 = (w1, Ok tt) ->
  session (hash_text password, w1) s2 -> wallet_has_private_key a (wl_db (snd s2)) = true -> session s2 s3 ->
  wl_password (snd s3) = fst s3
  /\ (exists path d, wl_db_path (snd s3) = Some path /\ WalletDb.open (wl_files (snd s3) !! path) wallet_db_empty = (d, Ok tt)
       /\ same_maps (wl_db (snd s3)) d)
  /\ (has_usable_key a (snd s3)
      \/ exists s s', session s2 s /\ session_step s s' /\ session s' s3 /\ makes_escrow s s'
           /\ wallet_has_private_key a (wl_db (snd s)) = true /\ wallet_has_private_key a (wl_db (snd s')) = false).
Proof.
  intros Ed Ec H12 Ha H23. pose proof (sound_session _ _ H12 (sound_create _ _ _ _ _ _ _ _ Ed Ec)) as S. clear H12.
  pose proof (sound_session _ _ H23 S) as S3. split; [ apply S3 | ]. split; [ by apply (sound_file _ _ _ S3) | ]. clear S3.
  induction H23 as [s|s s' s3 Hs H23 IH]; [ left; by apply (sound_private_key _ _ _ _ (sound_with_key _ _ S Ha)) | ].
  pose proof (sound_session _ _ (rtc_once _ _ Hs) S) as S'. destruct (wallet_has_private_key a (wl_db (snd s'))) eqn:Ha'.
  - destruct (IH eq_refl S') as [K|(x & y & Hx & R)]; [ by left | right ]. exists x, y. split; [ by eapply rtc_l | done ].
  - right. exists s, s'. split_and!; [ apply rtc_refl | done | done | by eapply session_loses | done | done ].
Qed.
End keys.

#[local] Existing Instance wallet_crypto.
#[local] Existing Instance demo_keys.
#[local] Existing Instance demo_key_laws.
#[local] Existing Instance demo_tx.
#[local] Existing Instance demo_hash.
#[local] Existing Instance demo_statics.
#[local] Existing Instance demo_signing.
#[local] Existing Instance demo_text.
#[local] Existing Instance demo_pretty_number.
#[local] Existing Instance demo_env.
#[local] Existing Instance wallet_disjoint.

(** The key of alice is imported, then she makes an account, is scanned and pays
    an address. *)
Definition with_key : wallet := fst (import_private_key demo_node 11 (Some "alice"%string) false 100 new_wallet_file).
Definition with_account : wallet := fst (create_account demo_node "carol" 200 with_key).
Definition scanned_wallet : wallet := fst (scan_balances_experimental demo_node with_account).
Definition after_commands : wallet :=
  fst (transfer demo_node 1000 (mk_asset 100 0) "alice" "carol" "lunch" vote_none true scanned_wallet).
Definition no_orders (o : market_order) : Z := 0.
Definition no_text {A} (_ : A) : string := "".
Definition no_snapshot (_ : balance_record) : option (list (Z * string)) := None.

Lemma session_fst {R} (m : wm R) p w : command no_orders no_text no_text no_snapshot m ->
  session_step no_orders no_text no_text no_snapshot (p, w) (p, fst (m w)).
Proof. intros H. apply step_command. exists R, m, (snd (m w)). split; [ done | by destruct (m w) ]. Qed.
Lemma demo_created : create demo_node "demo" "password" "" 4444 1000000000 empty_wallet = (new_wallet_file, Ok tt).
Proof.
  assert (Hr : is_ok (snd (create demo_node "demo" "password" "" 4444 1000000000 empty_wallet)) = true) by (vm_compute; reflexivity).
  unfold new_wallet_file. by destruct (create _ _ _ _ _ _ _) as [w' [[]|e]].
Qed.
Lemma commands_keep_keys_witness : let q := hash_text "password" in let a := key_address (get_public_key 11) in
  wl_password after_commands = q
  /\ (has_usable_key a after_commands
      \/ exists s s', rtc (session_step no_orders no_text no_text no_snapshot) (q, with_key) s
           /\ session_step no_orders no_text no_text no_snapshot s s' /\ rtc (session_step no_orders no_text no_text no_snapshot) s' (q, after_commands)
           /\ makes_escrow no_orders no_text s s'
           /\ wallet_has_private_key a (wl_db (snd s)) = true /\ wallet_has_private_key a (wl_db (snd s')) = false).
Proof.
  intros q a.
  destruct (commands_keep_keys no_orders no_text no_text no_snapshot demo_node "demo" "password" "" 4444 1000000000 empty_wallet
    new_wallet_file (q, with_key) (q, after_commands) a) as (Hp & _ & Hk).
  - reflexivity.
  - exact demo_created.
  - apply rtc_once. exact (session_fst _ q new_wallet_file (run_import _ _ _ _ demo_node 11 (Some "alice"%string) false 100)).
  - vm_compute; reflexivity.
  - apply (rtc_l _ (q, with_key) (q, with_account)); [ exact (session_fst _ q with_key (run_create_account _ _ _ _ demo_node "carol" 200)) | ].
    apply (rtc_l _ (q, with_account) (q, scanned_wallet)); [ exact (session_fst _ q with_account (run_scan_balances _ _ _ _ demo_node)) | ].
    apply rtc_once. exact (session_fst _ q scanned_wallet (run_transfer _ _ _ _ demo_node 1000 (mk_asset 100 0) "alice" "carol" "lunch" vote_none true)).
  - split; [ exact Hp | exact Hk ].
Defined.
