(* ===== verification/LedgerProps.v ===== *)
(** What the ledger says of a transaction, and how a payment is found. *)

From Stdlib Require Import String.
From S2P Require Import Prelude StateMonad Asset Names Records Keys Concrete MemoProps Building ChainInterface EvalState BalanceOps Tables PendingState ChainDatabase Market BlockOps Node.
From S2P Require Import Storage AmountText AddressText WalletDb WalletDbProps WalletSteps WalletKeys WalletProps.
From S2P Require Import Wallet Spending TransactionBuilder WalletTrx Ledger WalletDemo SpendingProps WalletSafe.

(** ** The fee of a transaction *)

Lemma asset_sub_Ok a o r : asset_sub a o = Ok r -> asset_id a = asset_id o /\ r = mk_asset (amount a - amount o) (asset_id a).
Proof. unfold asset_sub. intros H. inv_ok. b2p. case_match; [ done | ]. inv_ok. done. Qed.

Section fee.
Context `{Cr : Crypto} `{Kc : KeyCrypto} `{Tx : TxCrypto} `{Wh : WalletHash} `{St : Statics} `{FcI : Fc} `{Sg : Signing}.
Context `{Tc : TextCodec} `{Pn : PrettyNumber} `{We : WalletEnv}.
Context {small_id : market_order -> string} {hex : Z -> string}.
Variable n : node.

Definition in_base (id v : Z) : Z := if id =? 0 then v else 0.
Lemma in_base_0 v : in_base 0 v = v.
Proof. done. Qed.
(** What an operation takes from balances and pay, less what it gives, of the
    base asset. *)
Definition taken_by (op : operation) : Z :=
  match op with
  | op_withdraw o => match get_balance_record (nd_db n) (wd_balance_id o) with
                     | Some r => in_base (wc_asset_id (br_condition r)) (wd_amount o) | None => 0 end
  | op_withdraw_pay o => wp_amount o
  | op_deposit o => - in_base (wc_asset_id (dp_condition o)) (dp_amount o)
  | op_bid o => - in_base (quote_asset_id (mi_order_price (mo_index o))) (mo_amount o)
  | op_ask o => - in_base (base_asset_id (mi_order_price (mo_index o))) (mo_amount o)
  | op_ad o => if 0 <=? amount (ao_amount o) then - in_base (asset_id (ao_amount o)) (amount (ao_amount o)) else 0
  | op_burn o => - in_base (asset_id (bo_amount o)) (amount (bo_amount o))
  | op_note o => - in_base (asset_id (nt_amount o)) (amount (nt_amount o))
  | op_red_packet o => - in_base (asset_id (rp_amount o)) (amount (rp_amount o))
  | op_buy_chips o => - in_base (asset_id (bc_amount o)) (amount (bc_amount o))
  | _ => 0
  end.
Fixpoint difference (ops : list operation) : Z := match ops with [] => 0 | op :: ops => taken_by op + difference ops end.
(** A deposit to a key or in escrow without memo. *)
Definition without_memo (op : operation) : bool :=
  match op with
  | op_deposit o => match wc_data (dp_condition o) with
                    | withdraw_with_signature _ None => true | withdraw_with_escrow _ _ _ _ None => true | _ => false end
  | _ => false
  end.

(** What a computation gives when it gives something. *)
Definition gives {R} (Q : R -> Prop) (m : wm R) : Prop := forall w w' a, m w = (w', Ok a) -> Q a.
Lemma gives_ret {R} (Q : R -> Prop) a : Q a -> gives Q (nret a).
Proof. by intros H w w' b [= _ <-]. Qed.
Lemma gives_throw {R} (Q : R -> Prop) e : gives Q (nthrow e).
Proof. by intros w w' b [=]. Qed.
Lemma gives_bind {R T} (P : R -> Prop) (Q : T -> Prop) m f : gives P m -> (forall a, P a -> gives Q (f a)) -> gives Q (nbind m f).
Proof. intros Hm Hf w w' b [(w1 & a & E & H)|(e & E & [=])]%nbind_inv. exact (Hf a (Hm _ _ _ E) _ _ _ H). Qed.
Lemma gives_any {R T} (Q : T -> Prop) (m : wm R) f : (forall a, gives Q (f a)) -> gives Q (nbind m f).
Proof. intros Hf. by apply (gives_bind (fun _ => True)). Qed.

(** *** The fee so far *)

Definition fee_is (f : Z) (s : scan) : Prop := sc_total_fee s = mk_asset f 0.
Lemma gives_add {T} (Q : T -> Prop) a f s k : fee_is f s -> (forall s', fee_is (f + in_base (asset_id a) (amount a)) s' -> gives Q (k s')) ->
  gives Q (nbind (lift (add_to_fee a s)) k).
Proof.
  intros H Hk. apply (gives_bind (fee_is (f + in_base (asset_id a) (amount a)))); [ | done ]. intros w w' s' [= _ E]. unfold add_to_fee, in_base, fee_is in *. clear Hk.
  rewrite H in E. cbn [asset_id] in E. destruct (asset_id a =? 0).
  - apply bind_Ok in E as (fee & E & [= <-]). apply asset_add_Ok in E as [_ ->]. reflexivity.
  - injection E as <-. by rewrite H, Z.add_0_r.
Qed.
Lemma gives_take {T} (Q : T -> Prop) a f s k : fee_is f s -> (forall s', fee_is (f - in_base (asset_id a) (amount a)) s' -> gives Q (k s')) ->
  gives Q (nbind (lift (take_from_fee a s)) k).
Proof.
  intros H Hk. apply (gives_bind (fee_is (f - in_base (asset_id a) (amount a)))); [ | done ]. intros w w' s' [= _ E]. unfold take_from_fee, in_base, fee_is in *. clear Hk.
  rewrite H in E. cbn [asset_id] in E. destruct (asset_id a =? 0).
  - apply bind_Ok in E as (fee & E & [= <-]). apply asset_sub_Ok in E as [_ ->]. reflexivity.
  - injection E as <-. by rewrite H, Z.sub_0_r.
Qed.
Lemma gives_change {T} (Q : T -> Prop) g f s k : fee_is f s -> (forall s', fee_is f s' -> gives Q (k s')) -> gives Q (nbind (change_entries g s) k).
Proof.
  intros H Hk. apply (gives_bind (fee_is f)); [ | done ]. unfold change_entries. apply gives_any. intros l. by apply gives_ret.
Qed.

Lemma gives_lift {R T} (Q : T -> Prop) (x : result R) f : (forall a, x = Ok a -> gives Q (f a)) -> gives Q (nbind (lift x) f).
Proof. intros Hf. apply (gives_bind (fun a => x = Ok a)); [ | done ]. by intros w w' a [= _ E]. Qed.

Ltac given :=
  repeat first
    [ progress intros
    | match goal with
      | |- gives _ (nbind (lift (add_to_fee _ _)) _) => eapply gives_add; [ eassumption | ]
      | |- gives _ (nbind (lift (take_from_fee _ _)) _) => eapply gives_take; [ eassumption | ]
      | |- gives _ (nbind (change_entries _ _) _) => eapply gives_change; [ eassumption | ]
      | |- gives _ (nbind (lift _) _) => apply gives_lift
      | |- gives _ (nbind _ _) => apply gives_any
      | |- gives _ (nret _) => apply gives_ret
      | |- gives _ (nthrow _) => apply gives_throw
      | |- gives _ (match ?x with _ => _ end) => destruct x eqn:?
      end ];
  repeat match goal with |- context [match ?x with _ => _ end] => destruct x end; cbn [fst snd];
  try match goal with H : fee_is ?g _ |- fee_is ?h _ => replace h with g by (cbn [taken_by asset_id amount]; rewrite ?in_base_0; lia); exact H end.
#[local] Abbreviation fee_of f op m := (gives (fun r => fee_is (f + taken_by op) (snd r)) m).
#[local] Abbreviation keeps_fee f m := (gives (fun r => fee_is f (snd r)) m).

Lemma single_fee f g s : fee_is g s -> fee_is g (set_sc_record (with_single f (sc_record s)) s).
Proof. done. Qed.
Lemma fee_withdraw o f s : fee_is f s -> fee_of f (op_withdraw o) (scan_withdraw n o s).
Proof.
  intros H. unfold scan_withdraw, taken_by. fold (chain n). destruct (get_balance_record (chain n) (wd_balance_id o)) as [r|] eqn:Er; given; try done.
  all: repeat match goal with H : from_option_or _ _ = Ok _ |- _ => injection H as <- end; done.
Qed.
Lemma fee_withdraw_pay o f s : fee_is f s -> fee_of f (op_withdraw_pay o) (scan_withdraw_pay n o s).
Proof. intros H. unfold scan_withdraw_pay. given. Qed.
Lemma fee_order type a op s f : fee_is f s -> gives (fun r => fee_is (f - in_base (asset_id a) (amount a)) (snd r)) (scan_order (small_id := small_id) type a op s).
Proof. intros H. unfold scan_order. given. Qed.
Lemma fee_bid o f s : fee_is f s -> fee_of f (op_bid o) (scan_bid (small_id := small_id) o s).
Proof. apply (fee_order _ (mk_asset _ _)). Qed.
Lemma fee_ask o f s : fee_is f s -> fee_of f (op_ask o) (scan_ask (small_id := small_id) o s).
Proof. apply (fee_order _ (mk_asset _ _)). Qed.
Lemma fee_chips o f s : fee_is f s -> fee_of f (op_buy_chips o) (scan_buy_chips o s).
Proof. intros H. unfold scan_buy_chips. given. Qed.
Lemma fee_burn o f s : fee_is f s -> fee_of f (op_burn o) (scan_burn o s).
Proof. intros H. unfold scan_burn. given. Qed.
Lemma fee_ad o f s : fee_is f s -> (0 <=? amount (ao_amount o)) = true -> fee_of f (op_ad o) (scan_ad n o s).
Proof. intros H Ha. unfold scan_ad. cbn [taken_by]. rewrite Ha. given. Qed.
Lemma fee_note o f s : fee_is f s -> fee_of f (op_note o) (scan_note o s).
Proof. intros H. unfold scan_note. given. Qed.
Lemma fee_packet o f s : fee_is f s -> fee_of f (op_red_packet o) (scan_red_packet n o s).
Proof. intros H. unfold scan_red_packet. given. Qed.
Lemma fee_claim o f s : fee_is f s -> keeps_fee f (scan_claim_packet n (hex := hex) o s).
Proof. intros H. unfold scan_claim_packet. given. Qed.
Lemma fee_memo a owners data f s : fee_is f s -> keeps_fee f (scan_memo n a owners data s).
Proof. intros H. unfold scan_memo. given. Qed.
Lemma fee_deposit o f s : fee_is f s -> without_memo (op_deposit o) = false -> fee_of f (op_deposit o) (scan_deposit n o s).
Proof.
  intros H Hm. unfold scan_deposit. eapply gives_take; [ exact H | ]. intros s' H'. cbn [without_memo taken_by] in *.
  replace (f + - in_base (wc_asset_id (dp_condition o)) (dp_amount o)) with (f - in_base (wc_asset_id (dp_condition o)) (dp_amount o)) by lia.
  destruct (wc_data (dp_condition o)) as [|? []| | |? ? ? ? []]; try done; first [ by apply fee_memo | by apply gives_ret ].
Qed.

(** *** All operations *)

Definition taking (op : operation) : bool :=
  match op with
  | op_withdraw _ | op_withdraw_pay _ => true
  | op_bid o | op_ask o => mo_amount o <? 0
  | _ => false
  end.
Fixpoint part (p : operation -> bool) (ops : list operation) : Z :=
  match ops with [] => 0 | op :: ops => (if p op then taken_by op else 0) + part p ops end.
Lemma part_split ops : part taking ops + part (fun op => negb (taking op)) ops = difference ops.
Proof. induction ops as [|op ops IH]; [ done | ]. cbn [part difference]. destruct (taking op); cbn [negb]; lia. Qed.

Lemma fee_taking op f s : fee_is f s ->
  gives (fun r => fee_is (f + if taking op then taken_by op else 0) (snd r)) (scan_taking n (small_id := small_id) op s).
Proof.
  intros H. destruct op; cbn [taking scan_taking]; try (apply gives_ret; rewrite Z.add_0_r; exact H).
  - by apply fee_withdraw.
  - by apply fee_withdraw_pay.
  - destruct (_ <? _); [ by apply fee_bid | apply gives_ret; by rewrite Z.add_0_r ].
  - destruct (_ <? _); [ by apply fee_ask | apply gives_ret; by rewrite Z.add_0_r ].
Qed.
Lemma fee_counted f (g : given) (m : wm (bool * scan)) : keeps_fee f m ->
  gives (fun r => fee_is f (snd r)) (r <~ m ;; nret (g, fst r, snd r)).
Proof. intros H. eapply gives_bind; [ exact H | ]. intros r Hr. by apply gives_ret. Qed.
Lemma fee_giving op f s : fee_is f s -> without_memo op = false ->
  gives (fun r => fee_is (f + if negb (taking op) then taken_by op else 0) (snd r)) (scan_giving n (small_id := small_id) (hex := hex) op s).
Proof.
  intros H Hm. assert (H0 : fee_is (f + 0) s) by (by rewrite Z.add_0_r).
  destruct op; cbn [taking negb scan_giving]; try (apply gives_ret; exact H0); apply fee_counted.
  - by apply fee_deposit.
  - rewrite Z.leb_antisym. destruct (_ <? _); cbn [negb]; [ by apply gives_ret | by apply fee_bid ].
  - rewrite Z.leb_antisym. destruct (_ <? _); cbn [negb]; [ by apply gives_ret | by apply fee_ask ].
  - by apply fee_burn.
  - destruct (0 <=? amount (ao_amount o)) eqn:E; [ by apply fee_ad | ]. apply gives_ret. cbn [taken_by]. by rewrite E.
  - by apply fee_note.
  - by apply fee_packet.
  - cbn [taken_by]. by apply fee_claim.
  - by apply fee_chips.
Qed.
Lemma fee_all ops b f s : fee_is f s ->
  gives (fun r => fee_is (f + part taking ops) (snd r)) (scan_all (scan_taking n (small_id := small_id)) ops (b, s)).
Proof.
  revert b f s. induction ops as [|op ops IH]; intros b f s H; cbn [scan_all part]; [ apply gives_ret; by rewrite Z.add_0_r | ].
  eapply gives_bind; [ by apply fee_taking | ]. intros [b' s'] H'. rewrite Z.add_assoc. by apply IH.
Qed.
Lemma fee_given ops b c f s : fee_is f s -> Forall (fun op => without_memo op = false) ops ->
  gives (fun r => fee_is (f + part (fun op => negb (taking op)) ops) (snd r)) (scan_given n (small_id := small_id) (hex := hex) ops b c s).
Proof.
  intros H Hops. revert b c f s H. induction Hops as [|op ops Hm _ IH]; intros b c f s H; cbn [scan_given part]; [ apply gives_ret; by rewrite Z.add_0_r | ].
  eapply gives_bind; [ by apply fee_giving | ]. intros [[g b'] s'] H'. cbn [snd] in H'. rewrite Z.add_assoc. destruct g; by apply IH.
Qed.

(** What follows leaves the fee that is noted. *)
Definition noted (f : Z) (s : scan) : Prop := ti_fee (sc_record s) = mk_asset f 0.
Lemma noted_change {T} (Q : T -> Prop) g f s k : noted f s -> (forall s', noted f s' -> gives Q (k s')) -> gives Q (nbind (change_entries g s) k).
Proof.
  intros H Hk. apply (gives_bind (noted f)); [ | done ]. unfold change_entries. apply gives_any. intros l. by apply gives_ret.
Qed.
Ltac noting :=
  repeat first
    [ progress intros
    | match goal with
      | |- gives _ (nbind (change_entries _ _) _) => eapply noted_change; [ eassumption | ]
      | |- gives _ (nbind _ _) => apply gives_any
      | |- gives _ (nret _) => apply gives_ret
      | |- gives _ (match ?x with _ => _ end) => destruct x
      end ];
  repeat match goal with |- context [match ?x with _ => _ end] => destruct x end; try done.
Lemma noted_creation owner memo f s : noted f s -> gives (fun r => noted f (snd r)) (scan_creation owner memo s).
Proof. intros H. unfold scan_creation. noting. Qed.
Lemma noted_rest op f s : noted f s -> gives (fun r => noted f (snd r)) (scan_rest n op s).
Proof.
  intros H. destruct op; cbn [scan_rest]; try (by apply gives_ret).
  - unfold scan_register_account. noting.
  - unfold scan_update_account. noting.
  - unfold scan_create_asset. noting; by apply noted_creation.
  - unfold scan_issue_asset, scan_own_entry. noting.
  - unfold scan_update_feed, scan_own_entry. noting.
Qed.
Lemma noted_all ops b f s : noted f s -> gives (fun r => noted f (snd r)) (scan_all (scan_rest n) ops (b, s)).
Proof.
  revert b s. induction ops as [|op ops IH]; intros b s H; cbn [scan_all]; [ by apply gives_ret | ].
  eapply gives_bind; [ by apply noted_rest | ]. intros [b' s'] H'. by apply IH.
Qed.
Lemma noted_yields id f s : noted f s -> gives (noted f) (scan_yields n id s).
Proof. intros H. unfold scan_yields. noting. Qed.

(** The fee that the ledger notes for a transaction is exactly what the
    transaction takes from balances and from the pay of delegates, less what it
    deposits, orders, burns, pays for ads, notes, packets and chips, in the base
    asset, whatever the wallet has, if no deposit to a key is without memo. *)
Theorem noted_fee (trx : signed_transaction) (block_num : Z) (timestamp : time) (overwrite : bool) (w w' : wallet) (r : transaction_info) :
  Forall (fun op => without_memo op = false) (tx_operations trx) ->
  scan_transaction n (small_id := small_id) (hex := hex) trx block_num timestamp overwrite w = (w', Ok r) ->
  ti_fee r = mk_asset (difference (tx_operations trx)) 0.
Proof.
  intros Hops. revert w w' r. change (gives (fun r => ti_fee r = mk_asset (difference (tx_operations trx)) 0)
    (scan_transaction n (small_id := small_id) (hex := hex) trx block_num timestamp overwrite)).
  unfold scan_transaction. do 2 (apply gives_any; intros ?). eapply (gives_bind (fun r => noted (difference (tx_operations trx)) (snd r))).
  - unfold scan_operations. eapply gives_bind; [ by apply (fee_all _ _ 0) | ]. intros [taken s1] H1. cbn [snd] in H1.
    eapply gives_bind; [ by apply fee_given | ]. intros [[deposit store] s2] H2. cbn [snd] in H2. rewrite Z.add_0_l, part_split in H2.
    apply gives_any. intros entries. eapply gives_bind; [ apply noted_all; exact H2 | ]. intros [store' s3] H3. cbn [snd] in H3.
    eapply (gives_bind (noted (difference (tx_operations trx)))); [ destruct taken; [ by apply noted_yields | by apply gives_ret ] | ].
    intros s4 H4. by apply gives_ret.
  - intros [store s] H. do 2 (apply gives_any; intros ?). by apply gives_ret.
Qed.
End fee.

(** ** A payment to a key of an account *)

Section payment.
Context `{Cr : Crypto} `{Kc : KeyCrypto} `{Kl : !KeyLaws} `{Tx : TxCrypto} `{Wh : WalletHash} `{Pd : !PtsDisjoint} `{St : Statics} `{FcI : Fc} `{Sg : Signing}.
Context `{Tc : TextCodec} `{Pn : PrettyNumber} `{We : WalletEnv}.
Variable n : node.

Lemma decrypt_stealth one_time receiver from message data owner : no_zero message -> (length (string_bytes message) <= MAX_EXTENDED_MEMO_SIZE)%nat ->
  encrypt_memo_data one_time (get_public_key receiver) from message true = Ok (data, owner) ->
  (exists m, data = withdraw_with_signature (key_address owner) (Some m)) /\ exists st, decrypt_memo_data receiver false data = Ok (Some st).
Proof.
  intros Hz Hlen E. unfold encrypt_memo_data in E. fold (deposit_secret one_time receiver) in E. set (secret := deposit_secret one_time receiver) in E.
  destruct (stealth_pair one_time receiver) as [E1 E2]. fold secret in E1, E2. set (k := stealth_public (get_public_key receiver) secret) in *.
  destruct (decrypt_content secret from (memo_signature from k) message (get_public_key one_time) Hz Hlen (memo_signature_range _ _))
    as (content & memo & D1 & D2 & _).
  rewrite D1 in E. apply Ok_inj, pair_equal_spec in E as [<- <-]. split; [ by eexists | ].
  unfold decrypt_memo_data. cbn [memo_of one_time_key]. rewrite E1, E2, D2. cbn [negb andb]. rewrite bool_decide_eq_false_2 by set_solver. by eexists.
Qed.
(** What is read with a stealth key has the private key of an owner. *)
Lemma decrypt_owner k data st owner m : data = withdraw_with_signature owner m -> decrypt_memo_data k false data = Ok (Some st) ->
  key_address (get_public_key (mo_owner_private_key st)) = owner.
Proof.
  intros -> E. unfold decrypt_memo_data in E. destruct m as [m|]; cbn [memo_of] in E; [ | done ]. cbn [negb andb] in E.
  case_bool_decide as Ha; [ done | ]. destruct (decrypt_with_secret _ _) as [memo|[]]; try done. apply Ok_inj in E. injection E as <-. cbn.
  by apply list_elem_of_singleton in Ha.
Qed.
Lemma stealth_memo_found keys k data st owner m : data = withdraw_with_signature owner m -> k ∈ keys -> decrypt_memo_data k false data = Ok (Some st) ->
  exists k' st', stealth_memo keys data = Some (k', st') /\ key_address (get_public_key (mo_owner_private_key st')) = owner.
Proof.
  intros Hd Hk Hst. induction keys as [|x keys IH]; [ by apply not_elem_of_nil in Hk | ]. cbn [stealth_memo].
  destruct (decrypt_memo_data x false data) as [[st'|]|e] eqn:E.
  - exists x, st'. split; [ done | ]. by apply (decrypt_owner _ _ _ _ _ Hd E).
  - apply IH. apply elem_of_cons in Hk as [->|Hk]; [ by rewrite Hst in E | done ].
  - apply IH. apply elem_of_cons in Hk as [->|Hk]; [ by rewrite Hst in E | done ].
Qed.
Lemma own_memo_new w owner data : mirrored (wl_db w) -> wallet_has_private_key (key_address owner) (wl_db w) = false ->
  own_memo [key_address owner] data w = Ok None.
Proof.
  intros M Hk. cbn [own_memo]. replace (or_catch _ _) with (Ok None : result (option (private_key * memo_status))); [ done | ].
  unfold get_private_key, is_unlocked, is_locked. destruct (wallet_is_open w); [ | done ]. cbn [fc_assert rbind].
  destruct (wl_password w =? 0); [ done | ]. cbn [negb fc_assert rbind]. destruct (lookup_key (key_address owner) (wl_db w)) as [found|e] eqn:E.
  - apply lookup_key_spec in E as ->; [ | done ]. cbn [rbind]. unfold wallet_has_private_key in Hk.
    destruct (w_keys (wl_db w) !! key_address owner) as [r|]; [ | done ]. cbn in Hk. by rewrite Hk.
  - unfold lookup_key in E. destruct (WalletDb.is_open (wl_db w)); [ done | ]. cbn in E. injection E as <-. done.
Qed.
Lemma cached_memo_known A p k st w w' : sound A p w -> on_db (cache_memo st k p) w = (w', Ok tt) ->
  mirrored (wl_db w') /\ wallet_has_private_key (key_address (get_public_key (mo_owner_private_key st))) (wl_db w') = true.
Proof.
  intros (S & _) E. unfold on_db in E. destruct (cache_memo st k p (wl_db w)) as [d r] eqn:Ec. apply pair_equal_spec in E as [<- ->]. rewrite sync_db.
  change (wl_db (set_wl_db d w)) with d. unfold cache_memo in Ec. apply nread_inv in Ec as [(d' & Ee & Ec)|(? & _ & _ & [=])].
  destruct (encrypt_sealed _ _ _ _ Ee) as (_ & Hp & Hk & _). apply store_key_run in Ec as (M & [[_ (e & [=])]|(a & r & _ & Hd & Hs & _)]); [ | apply S ].
  split; [ done | ]. specialize (Hs (at_key (key_address (get_public_key (mo_owner_private_key st)))) ltac:(done)). cbn [place_of memory] in Hs.
  rewrite Hd, bool_decide_eq_true_2 in Hs by (unfold kd_address; cbn; by rewrite Hk). unfold wallet_has_private_key.
  destruct (w_keys d !! _) as [r'|]; [ | done ]. injection Hs as Hr. change (has_private_key (record_data r') = true). rewrite Hr, Hd. exact Hp.
Qed.

(** C31: A payment to the key of an account is found by the ledger. A deposit
    for the receiver's stealth address, with a message of at most 51 bytes and
    any one-time key, is seen by every unlocked wallet that has the private key
    of the receiver, and did not have the one of the deposit: the deposit counts
    as the wallet's, the wallet has afterwards the private key of its owner and
    signs with it, and when the wallet scans balances, on any state of the
    chain, one with this owner is among its own. *)
Theorem payment_found (password : secret512) (w w' : wallet) (s s' : scan) (mine : bool) (one_time receiver from : private_key) (message : string)
    (data : withdraw_data) (owner : public_key) (v id slate : Z) :
  sound (fun _ => False) password w -> receiver ∈ wl_stealth_keys w ->
  no_zero message -> (length (string_bytes message) <= MAX_EXTENDED_MEMO_SIZE)%nat ->
  encrypt_memo_data one_time (get_public_key receiver) from message true = Ok (data, owner) ->
  wallet_has_private_key (key_address owner) (wl_db w) = false ->
  scan_deposit n {| dp_amount := v; dp_condition := mk_condition id slate data |} s w = (w', Ok (mine, s')) ->
  mine = true
  /\ (exists r k, w_keys (wl_db w') !! key_address owner = Some r /\ decrypt_private_key (wl_password w') (record_data r) = Ok k
       /\ key_address (get_public_key k) = key_address owner /\ (wallet_is_open w' = true -> get_private_key (key_address owner) w' = Ok k))
  /\ (forall later key b r, wallet_is_open w' = true -> flat balance_t (nd_db later) !! key = Some b ->
        get_balance_record (nd_pending_state later) (balance_id b) = Some r -> balance_owners r = {[ key_address owner ]} ->
        wl_balances (fst (scan_balances_experimental later w')) !! balance_id b = Some r).
Proof.
  intros S Hr Hz Hlen He Hnew E. destruct (decrypt_stealth _ _ _ _ _ _ Hz Hlen He) as [[m Hd] [st Hst]].
  destruct (stealth_memo_found (wl_stealth_keys w) receiver data st (key_address owner) (Some m) Hd Hr Hst) as (k & st' & Hs & Ho).
  pose proof S as ([M _ _] & Hp & _).
  unfold scan_deposit in E. apply nread_inv in E as [(s1 & _ & E)|(? & _ & _ & [=])]. cbn [dp_condition wc_data wc_asset_id dp_amount] in E.
  rewrite Hd in E. rewrite <- Hd in E. unfold scan_memo in E. unfold nbind at 1, nread at 1, read_memo in E.
  rewrite own_memo_new in E by done. cbn [rbind] in E. rewrite Hs in E. unfold get_password in E. unfold nbind at 1, nread at 1 in E. rewrite Hp in E.
  apply nbind_inv in E as [(w1 & [] & E1 & E)|(? & _ & [=])].
  destruct (cached_memo_known _ _ _ _ _ _ S E1) as [M1 Hk1]. rewrite Ho in Hk1.
  apply nread_inv in E as [(l & _ & E)|(? & _ & _ & [=])]. injection E as <- <- _.
  assert (S1 : sound (fun _ => False) password w1).
  { assert (K : keeps (sound (fun _ => False) password) (on_db (cache_memo st' k password))) by apply keeps_sound_db, safe_cache_memo.
    exact (K _ _ _ E1 S). }
  split; [ done | ]. split.
  - assert (S2 : sound (fun x => x = key_address owner) password w1).
    { destruct S1 as ([M2 S2 _] & H2 & H3). split; [ split; [ done | done | by intros x -> ] | done ]. }
    by apply (sound_private_key _ _ _ _ S2).
  - intros later key b r Hopen Hb Hr' Hown. unfold scan_balances_experimental. rewrite nwrite_inv.
    set (l' := map snd (map_to_list (flat balance_t (nd_db later)))).
    rewrite (nbind_ok _ _ _ _ _ (scan_list_spec later l' (set_wl_balances (wl_dirty_balances w1) ∅ w1) Hopen)). cbn [fst].
    change (foldl (scan_into later (wl_db w1)) ∅ l' !! balance_id b = Some r). rewrite scan_into_lookup, bool_decide_eq_true_2.
    + unfold scanned_as. rewrite Hr', Hown. replace (existsb _ _) with true; [ done | ]. symmetry. apply existsb_exists.
      exists (key_address owner). split; [ apply list_elem_of_In, elem_of_elements; set_solver | ]. unfold own_address.
      destruct (mi_cached _ M1) as [(K1 & _ & _) _]. unfold wallet_has_private_key in Hk1.
      destruct (w_keys (wl_db w1) !! key_address owner) as [x|] eqn:Ex; [ | done ]. rewrite (K1 _ ltac:(by rewrite Ex)). cbn. by rewrite Ex.
    + unfold l'. rewrite map_map. apply list_elem_of_fmap. exists (key, b). split; [ done | by apply elem_of_map_to_list ].
Qed.
End payment.

(** ** Concrete transactions *)

#[local] Existing Instance wallet_crypto.
#[local] Existing Instance demo_keys.
#[local] Existing Instance demo_key_laws.
#[local] Existing Instance demo_tx.
#[local] Existing Instance demo_hash.
#[local] Existing Instance demo_statics.
#[local] Existing Instance demo_signing.
#[local] Existing Instance demo_text.
#[local] Existing Instance demo_pretty_number.
#[local] Existing Instance demo_env.
#[local] Existing Instance wallet_disjoint.

Definition alice_pays (data : withdraw_data) (v : Z) : signed_transaction :=
  {| tx_expiration := 5000;
     tx_operations := [op_withdraw {| wd_balance_id := balance_id alice_balance; wd_amount := 150000 |};
                       op_deposit {| dp_amount := v; dp_condition := mk_condition 0 0 data |}];
     tx_signatures := [] |}.
(** Alice's wallet with its stealth keys. *)
Definition alice_scanned : wallet := fst (scan_accounts demo_node with_account).
Definition lunch (to from : private_key) : result (withdraw_data * public_key) := encrypt_memo_data 31 (get_public_key to) from "lunch" true.
Definition data_of (x : result (withdraw_data * public_key)) : withdraw_data := match x with Ok (data, _) => data | Throw _ => withdraw_null end.
Definition scan_demo (trx : signed_transaction) : wallet * result transaction_info :=
  scan_transaction demo_node (small_id := no_text) (hex := no_text) trx 7 1200 false alice_scanned.

Lemma noted_fee_witness : exists r, snd (scan_demo (alice_pays (data_of (lunch 21 11)) 100000)) = Ok r /\ ti_fee r = mk_asset 50000 0.
Proof.
  assert (Hr : is_ok (snd (scan_demo (alice_pays (data_of (lunch 21 11)) 100000))) = true) by (vm_compute; reflexivity).
  unfold scan_demo in *. destruct (scan_transaction _ _ _ _ _ _) as [w' [r|e]] eqn:E; [ | done ]. exists r. split; [ reflexivity | ].
  assert (Hops : Forall (fun op => without_memo op = false) (tx_operations (alice_pays (data_of (lunch 21 11)) 100000))) by (vm_compute; repeat constructor).
  pose proof (noted_fee demo_node _ _ _ _ _ _ _ Hops E) as Hf. rewrite Hf. reflexivity.
Defined.

(** A payment from a key of the wallet to another one, without memo: what is
    paid is noted as fee. *)
Example own_payment_noted_as_fee : match snd (scan_demo (alice_pays (withdraw_with_signature 24 None) 100000)) with
  | Ok r => ti_fee r = mk_asset 150000 0 | Throw _ => False end.
Proof. vm_compute. reflexivity. Qed.

Lemma sound_alice : sound (fun _ => False) 9 alice_scanned.
Proof.
  assert (S : sound (fun _ => False) 9 new_wallet_file) by exact (sound_create demo_node "demo" "password" "" 4444 1000000000 empty_wallet new_wallet_file eq_refl demo_created).
  assert (S1 : sound (fun _ => False) 9 with_key).
  { unfold with_key. destruct (import_private_key _ _ _ _ _ _) as [x r] eqn:E. exact (sound_import _ _ _ _ _ _ _ _ _ _ E S). }
  assert (S2 : sound (fun _ => False) 9 with_account).
  { unfold with_account. destruct (create_account _ _ _ _) as [x r] eqn:E. exact (sound_create_account _ _ _ _ _ _ _ _ E S1). }
  unfold alice_scanned. destruct (scan_accounts _ _) as [x r] eqn:E. exact (sound_scan_accounts _ _ _ _ _ _ E S2).
Qed.

Definition empty_scan : scan := mk_scan (new_transaction transaction_default 1200) (mk_asset 0 0) null_key.
Lemma payment_found_witness : exists w' s', scan_deposit demo_node {| dp_amount := 700; dp_condition := mk_condition 0 0 (data_of (lunch 11 21)) |}
    empty_scan alice_scanned = (w', Ok (true, s'))
  /\ exists k, get_private_key (key_address 1068) w' = Ok k.
Proof.
  assert (Hl : lunch 11 21 = Ok (data_of (lunch 11 21), 1068)) by (vm_compute; reflexivity).
  assert (Hr : is_ok (snd (scan_deposit demo_node {| dp_amount := 700; dp_condition := mk_condition 0 0 (data_of (lunch 11 21)) |}
                             empty_scan alice_scanned)) = true) by (vm_compute; reflexivity).
  assert (Ho : wallet_is_open (fst (scan_deposit demo_node {| dp_amount := 700; dp_condition := mk_condition 0 0 (data_of (lunch 11 21)) |}
                             empty_scan alice_scanned)) = true) by (vm_compute; reflexivity).
  destruct (scan_deposit _ _ _ _) as [w' [[mine s']|e]] eqn:E; [ | done ].
  destruct (payment_found demo_node 9 alice_scanned w' empty_scan s' mine 31 11 21 "lunch" (data_of (lunch 11 21)) 1068 700 0 0)
    as (-> & (r & k & _ & _ & _ & Hk) & _).
  - exact sound_alice.
  - apply (bool_decide_eq_true_1 (11 ∈ wl_stealth_keys alice_scanned)). vm_compute. reflexivity.
  - repeat constructor; done.
  - vm_compute. lia.
  - exact Hl.
  - vm_compute. reflexivity.
  - exact E.
  - exists w', s'. split; [ reflexivity | ]. exists k. by apply Hk.
Defined.
