(* ===== verification/WalletLock.v ===== *)
(** The lock of the wallet (Wallet.v, WalletTrx.v): what a locked wallet
    refuses, which password unlocks it, and what an unlocked wallet signs. *)

From Stdlib Require Import String.
From stdpp Require Import relations.
From S2P Require Import Prelude StateMonad Asset Names Records Keys Building ChainInterface Tables PendingState ChainDatabase BlockOps Node.
From S2P Require Import Storage AmountText AddressText WalletDb WalletDbProps WalletSteps WalletKeys WalletProps Wallet Spending TransactionBuilder WalletTrx Concrete WalletDemo.

Section locks.
Context `{Cr : Crypto} `{Kc : KeyCrypto} `{Tx : TxCrypto} `{Wh : WalletHash} `{St : Statics} `{FcI : Fc} `{Sg : Signing}.
Context `{Tc : TextCodec} `{Pn : PrettyNumber} `{We : WalletEnv}.
Variable n : node.
Implicit Types w : wallet.

(** ** A locked wallet *)

Definition is_shut w : Prop := wallet_is_open w = false \/ wl_password w = 0.
(** Without effect, and with an exception. *)
Definition refused {A} (m : wm A) : Prop := forall w, is_shut w -> exists e, m w = (w, Throw e).

Lemma shut_unlocked w : is_shut w -> is_unlocked w <> Ok true.
Proof. intros [H|H]; unfold is_unlocked, is_locked; [ by rewrite H | ]. destruct (wallet_is_open w); [ by rewrite H | done ]. Qed.
Lemma refused_bind {A B} (m : wm A) (f : A -> wm B) : refused m -> refused (nbind m f).
Proof. intros Hm w Hw. destruct (Hm w Hw) as [e E]. exists e. unfold nbind. by rewrite E. Qed.
(** A check of the arguments first. *)
Lemma refused_after {A B} (f : wallet -> result A) (k : A -> wm B) : (forall a, refused (k a)) -> refused (nbind (nread f) k).
Proof. intros Hk w Hw. unfold nbind, nread. destruct (f w) as [a|e]; [ by apply Hk | by exists e ]. Qed.
Lemma refused_open_and_unlocked : refused open_and_unlocked.
Proof.
  intros w Hw. unfold open_and_unlocked, nread. destruct (wallet_is_open w) eqn:Eo; cbn [throw_unless rbind]; [ | by exists wallet_closed ].
  pose proof (shut_unlocked w Hw). destruct (is_unlocked w) as [[]|e]; [ done | by exists wallet_locked | by exists e ].
Qed.
Lemma refused_assert_unlocked : refused assert_unlocked.
Proof.
  intros w Hw. unfold assert_unlocked, nread. pose proof (shut_unlocked w Hw). destruct (is_unlocked w) as [[]|e]; [ done | by eexists | by eexists ].
Qed.
Lemma refused_assert_open_and_unlocked : refused assert_open_and_unlocked.
Proof. apply refused_after. intros _. apply refused_assert_unlocked. Qed.
#[local] Hint Resolve refused_bind refused_open_and_unlocked refused_assert_unlocked refused_assert_open_and_unlocked : core.

Lemma refused_new_name name : refused (new_name n name).
Proof. unfold new_name. do 3 (apply refused_after; intros ?). auto. Qed.
#[local] Hint Resolve refused_new_name : core.
Lemma refused_publishing account payer : refused (publishing_account n account payer).
Proof. unfold publishing_account. auto. Qed.
#[local] Hint Resolve refused_publishing : core.

Lemma shut_no_key a w : is_shut w -> exists e, get_private_key a w = Throw e.
Proof.
  intros Hw. unfold get_private_key. destruct (wallet_is_open w); cbn; [ | by eexists ]. pose proof (shut_unlocked w Hw).
  destruct (is_unlocked w) as [[]|e]; [ done | by eexists | by eexists ].
Qed.

(** C32: A wallet that is locked or closed gives no private key and signs
    nothing; it makes no key, account or transaction, imports no key and does
    not change its password: each of these throws and leaves it as it was. *)
Theorem locked_wallet_refuses (t : time) :
  (forall w a, is_shut w -> is_ok (get_private_key a w) = false)
  /\ (forall w name, is_shut w -> is_ok (get_active_private_key name w) = false)
  /\ (forall w trx required, is_shut w -> required <> ∅ -> is_ok (sign_transaction trx required w) = false)
  /\ (forall name, refused (get_new_private_key name)) /\ (forall name, refused (create_account n name t))
  /\ (forall key name create, refused (import_private_key n key name create t)) /\ (forall p, refused (change_passphrase p))
  /\ (forall a from to memo s sign, refused (transfer n t a from to memo s sign))
  /\ (forall name data pay payer type sign, refused (wallet_register_account n t name data pay payer type sign))
  /\ (forall name key data pay payer type sign, refused (register_account_with_key n t name key data pay payer type sign))
  /\ (forall name payer data pay sign, refused (update_registered_account n t name payer data pay sign))
  /\ (forall name payer key sign, refused (wallet_update_active_key n t name payer key sign))
  /\ (forall name payer sign, refused (retract_account n t name payer sign))
  /\ (forall name delegate key sign, refused (wallet_update_signing_key n t name delegate key sign))
  /\ (forall a payer side name message anonymous sign, refused (burn_asset n t a payer side name message anonymous sign))
  /\ (forall a publisher owner message sign, refused (wallet_buy_ad n t a publisher owner message sign))
  /\ (forall a from message id key count renpin sign, refused (create_red_packet n t a from message id key count renpin sign))
  /\ (forall id text to key sign, refused (claim_red_packet n t id text to key sign))
  /\ (forall delegate a to sign, refused (withdraw_delegate_pay n t delegate a to sign))
  /\ (forall name wanted memo sign, refused (collect_account_balances n t name wanted memo sign))
  /\ (forall id voter s, refused (set_vote_info n t id voter s))
  /\ (forall name p sign, refused (publish_price n t name p sign)) /\ (forall name values sign, refused (publish_feeds n t name values sign))
  /\ (forall name payer sign, refused (publish_slate n t name payer sign))
  /\ (forall name payer version sign, refused (publish_version n t name payer version sign))
  /\ (forall name symbol title text supply precision initial collateral type issuer sign,
        refused (asset_register n t name symbol title text supply precision initial collateral type issuer sign))
  /\ (forall issue a to memo sign, refused (uia_issue_or_collect_fees n t issue a to memo sign))
  /\ (forall payer symbol op sign, refused (uia_update_properties n t payer symbol op sign))
  /\ (forall payer symbol flag name add perm sign, refused (uia_update_permission_or_flag n t payer symbol flag name add perm sign))
  /\ (forall payer symbol a add sign, refused (uia_update_whitelist n t payer symbol a add sign))
  /\ (forall symbol addresses, refused (uia_issue_to_many n t symbol addresses)).
Proof.
  split_and!; intros; try (apply refused_bind; by auto).
  - by destruct (shut_no_key a w) as [e ->].
  - unfold get_active_private_key. destruct (throw_unless _ _); [ | done ]. cbn. pose proof (shut_unlocked w ltac:(done)).
    by destruct (is_unlocked w) as [[]|e].
  - unfold sign_transaction. destruct (elements required) as [|a l] eqn:E; [ by apply elements_empty_inv, leibniz_equiv in E | ].
    cbn [foldM]. by destruct (shut_no_key a w) as [e ->].
  - unfold create_account. do 2 (apply refused_after; intros _). auto.
Qed.

(** ** Unlocking *)

(** The password and the time to lock are kept by what is done with the records. *)
Definition lock_state (password : secret512) (at_time : option Z) w : Prop := wl_password w = password /\ wl_scheduled_lock_time w = at_time.
Lemma keeps_lock_on_db {A} password at_time (m : wallet_m A) : keeps (lock_state password at_time) (on_db m).
Proof.
  intros w w' r E Hw. unfold on_db in E. destruct (m (wl_db w)) as [d x]. injection E as <- _. unfold sync.
  destruct (wl_db_path _); [ destruct (lm_files _) | ]; done.
Qed.
Lemma keeps_lock_scan_accounts password at_time : keeps (lock_state password at_time) (scan_accounts n).
Proof.
  unfold scan_accounts. apply keeps_bind.
  { apply keeps_fold. intros r _. unfold scan_account. apply keeps_bind; [ apply keeps_read | intros own ]. destruct own; [ apply keeps_lock_on_db | apply keeps_ret ]. }
  intros _. apply keeps_bind; [ apply keeps_read | intros unlocked ]. apply keeps_bind.
  - destruct unlocked; [ | apply keeps_read ]. apply keeps_bind; [ by apply keeps_write | intros _; apply keeps_read ].
  - intros stealth. by apply keeps_write.
Qed.

Definition lockable (password : string) (timeout t : Z) : bool :=
  negb (timeout <? 1) && negb (sec_since_epoch (t + timeout * 1000000) <=? sec_since_epoch t)
  && negb (String.length password <? MIN_PASSWORD_LENGTH)%nat.
Definition has_password (password : string) (mk : wallet_record master_key) : bool := check_password (hash_text password) (record_data mk).

(** A wallet is unlocked by a password only if its hash is that of the
    master key, and is locked after any failure; with another password of
    sufficient length it throws that the password is invalid and leaves the
    records as they were. *)
Theorem unlock_needs_password (password : string) (timeout t : Z) (w w' : wallet) (r : result unit) (mk : wallet_record master_key) :
  wallet_is_open w = true -> w_master_key (wl_db w) = Some mk -> unlock n password timeout t w = (w', r) ->
  (r = Ok tt -> has_password password mk = true /\ lockable password timeout t = true
     /\ wl_password w' = hash_text password /\ wl_scheduled_lock_time w' = Some (t + timeout * 1000000))
  /\ (forall e, r = Throw e -> e <> undefined_behaviour -> wl_password w' = 0 /\ wl_scheduled_lock_time w' = None /\ wl_stealth_keys w' = [])
  /\ (lockable password timeout t = true -> has_password password mk = false -> r = Throw invalid_password /\ wl_db w' = wl_db w).
Proof.
  intros Ho Hm E. unfold unlock, on_failure in E.
  match type of E with ncatch ?m _ _ = _ => destruct (m w) as [w1 r1] eqn:E1 end. unfold ncatch in E. rewrite E1 in E.
  assert (Hbody : (exists e, r1 = Throw e /\ wl_db w1 = wl_db w /\ e <> undefined_behaviour
                     /\ (lockable password timeout t = true -> has_password password mk = false -> e = invalid_password)
                     /\ (lockable password timeout t && has_password password mk = false))
    \/ (lockable password timeout t = true /\ has_password password mk = true /\ lock_state (hash_text password) (Some (t + timeout * 1000000)) w1)).
  { clear E. unfold lockable, has_password. unfold nbind at 1, assert_open, nread in E1. rewrite Ho in E1. cbn [fc_assert] in E1.
    unfold nbind at 1, lift, nread in E1. destruct (timeout <? 1); cbn [throw_if] in E1; [ injection E1 as <- <-; left; eexists; split_and!; done | ].
    unfold nbind at 1, nread in E1. destruct (_ <=? _); cbn [throw_if] in E1; [ injection E1 as <- <-; left; eexists; split_and!; done | ].
    unfold nbind at 1, nread in E1. destruct (_ <? _)%nat; cbn [throw_if] in E1; [ injection E1 as <- <-; left; eexists; split_and!; done | ].
    rewrite nwrite_inv in E1. unfold nbind at 1, nread, validate_password in E1. cbn [wl_db wl_password set_wl_lock] in E1.
    rewrite Hm in E1.
    unfold nbind at 1 in E1. destruct (check_password (hash_text password) (record_data mk)); cbn [throw_unless] in E1.
    - right. split; [ done | ]. split; [ done | ]. rewrite nwrite_inv in E1. by eapply keeps_lock_scan_accounts.
    - injection E1 as <- <-. left. eexists. split_and!; done. }
  destruct Hbody as [(e & -> & Hd & He & Hi & Hf)|(Hl & Hp & Hs)].
  - assert (Hw : (w', r) = (set_wl_lock 0 None (set_wl_accounts true [] w1), Throw e)).
    { rewrite <- E. destruct e; done. }
    injection Hw as -> ->. split_and!; [ done | done | ]. intros H1 H2. rewrite (Hi H1 H2). split; [ done | exact Hd ].
  - destruct r1 as [[]|e].
    + injection E as <- <-. destruct Hs as [Hs1 Hs2]. split_and!; [ done | done | ]. intros _ H2. by rewrite H2 in Hp.
    + destruct (decide (e = undefined_behaviour)) as [->|Hne].
      { injection E as <- <-. split_and!; [ done | by intros e [= <-] | ]. intros _ H2. by rewrite H2 in Hp. }
      assert (Hw : (w', r) = (set_wl_lock 0 None (set_wl_accounts true [] w1), Throw e)) by (rewrite <- E; destruct e; done).
      injection Hw as -> ->. split_and!; [ done | done | ]. intros _ H2. by rewrite H2 in Hp.
Qed.

(** ** Signing *)

(** [transaction::digest] is of the operations and the expiration only: a
    signature does not change what the next one signs. *)
Class DigestLaw `{TxCrypto} : Prop :=
  digest_unsigned : forall t t' chain, tx_expiration t = tx_expiration t' -> tx_operations t = tx_operations t' ->
    trx_digest t chain = trx_digest t' chain.
Context `{Kl : !KeyLaws} `{Pd : !PtsDisjoint} `{Sl : !SigningLaw} `{Dl : !DigestLaw}.

(** The records of the wallet come from the operations of the wallet database. *)
Definition reached w : Prop := exists password, rtc wallet_step (password, new_wallet) (wl_password w, wl_db w).

Lemma own_private_key w a : reached w -> wallet_is_open w = true -> wl_password w <> 0 -> wallet_has_private_key a (wl_db w) = true ->
  exists k, get_private_key a w = Ok k /\ key_address (get_public_key k) = a.
Proof.
  intros [p H] Ho Hp Ha. pose proof (steps_safe _ _ _ H (safe_new_wallet p)) as [M S _]. cbn [fst snd] in *.
  destruct (mi_cached _ M) as [(K1 & _ & K3) _]. unfold wallet_has_private_key in Ha. destruct (w_keys (wl_db w) !! a) as [r|] eqn:Hr; [ | done ].
  destruct (S _ _ Hr Ha) as (k & _ & Hd & Hk). exists k. split; [ | by rewrite Hk, (K3 _ _ Hr) ].
  unfold get_private_key, is_unlocked, is_locked. rewrite Ho, (proj2 (Z.eqb_neq _ _) Hp). cbn.
  unfold lookup_key. unfold wallet_is_open in Ho. rewrite Ho. cbn [fc_assert rbind].
  rewrite (K1 a) by by rewrite Hr. cbn. rewrite Hr. cbn. cbn in Ha. by rewrite Ha.
Qed.

Definition same_body (t t' : signed_transaction) : Prop :=
  tx_expiration t = tx_expiration t' /\ tx_operations t = tx_operations t'.
Definition signed_by (a : address) (t : signed_transaction) : Prop :=
  exists sig k, sig ∈ tx_signatures t /\ recover_key sig (trx_digest t static_chain_id) false = Ok (get_public_key k)
    /\ key_address (get_public_key k) = a.

Lemma signed_later a t k : signed_by a t -> signed_by a (sign k static_chain_id t).
Proof.
  intros (sig & k' & Hs & Hr & Ha). exists sig, k'. split; [ cbn; set_solver | ]. split; [ | done ]. rewrite <- Hr. f_equal. by apply digest_unsigned.
Qed.
Lemma signed_now t k : signed_by (key_address (get_public_key k)) (sign k static_chain_id t).
Proof.
  exists (sign_compact k (trx_digest t static_chain_id)), k. split; [ cbn; set_solver | ]. split; [ | done ].
  rewrite (digest_unsigned (sign k static_chain_id t) t) by done. apply recover_signed.
Qed.

Lemma sign_all w l : reached w -> wallet_is_open w = true -> wl_password w <> 0 ->
  (forall a, a ∈ l -> wallet_has_private_key a (wl_db w) = true) -> forall t,
  exists t', foldM (fun a t => k <- get_private_key a w ;; Ok (sign k static_chain_id t)) l t = Ok t'
    /\ same_body t' t /\ (forall a, signed_by a t -> signed_by a t') /\ (forall a, a ∈ l -> signed_by a t').
Proof.
  intros Hw Ho Hp. induction l as [|a l IH]; intros Ha t; [ exists t; split_and!; [ done | done | auto | by intros a ?%elem_of_nil ] | ].
  destruct (own_private_key w a Hw Ho Hp) as (k & Hk & Hka); [ apply Ha; set_solver | ].
  destruct (IH ltac:(set_solver) (sign k static_chain_id t)) as (t' & E & Hb & Hold & Hnew). exists t'.
  cbn [foldM]. rewrite Hk. cbn [rbind]. rewrite E. split; [ done | ]. split; [ done | ]. split.
  - intros b Hb'. by apply Hold, signed_later.
  - intros b [->|Hb']%elem_of_cons; [ | auto ]. apply Hold. rewrite <- Hka. apply signed_now.
Qed.

(** A wallet that is open and unlocked, whose records come from the
    operations of the wallet database, signs what asks only for addresses of
    which it has the private key: the transaction keeps its operations and its
    expiration, and for each address there is a signature from which a key
    with this address is recovered. *)
Theorem unlocked_wallet_signs (w : wallet) (trx : signed_transaction) (required : gset address) :
  reached w -> wallet_is_open w = true -> wl_password w <> 0 ->
  (forall a, a ∈ required -> wallet_has_private_key a (wl_db w) = true) ->
  exists t, sign_transaction trx required w = Ok t /\ same_body t trx /\ forall a, a ∈ required -> signed_by a t.
Proof.
  intros Hw Ho Hp Ha. destruct (sign_all w (elements required) Hw Ho Hp) with (t := trx) as (t & E & Hb & _ & Hs); [ set_solver | ].
  exists t. split; [ exact E | ]. split; [ exact Hb | ]. intros a. by rewrite <- elem_of_elements; apply Hs.
Qed.
End locks.

(** ** A concrete wallet *)

#[local] Existing Instance wallet_crypto.
#[local] Existing Instance demo_keys.
#[local] Existing Instance demo_tx.
#[local] Existing Instance demo_hash.
#[local] Existing Instance demo_statics.
#[local] Existing Instance demo_signing.
#[local] Existing Instance demo_text.
#[local] Existing Instance demo_pretty_number.
#[local] Existing Instance demo_env.

Lemma demo_signing_law : SigningLaw.
Proof. intros k digest. reflexivity. Qed.
Lemma demo_digest_law : DigestLaw.
Proof. intros t t' chain E1 E2. unfold trx_digest. cbn. by rewrite E1, E2. Qed.
#[local] Existing Instance wallet_disjoint.
#[local] Existing Instance demo_signing_law.
#[local] Existing Instance demo_digest_law.

Definition first_open : wallet := mk_wallet true first_wallet (Some "demo"%string) ∅ "" 9 None true ∅ true [].

Lemma unlocked_wallet_signs_witness : exists t,
  sign_transaction transaction_default {[ key_address alice_key ]} first_open = Ok t
  /\ signed_by (key_address alice_key) t.
Proof.
  assert (Hr : reached first_open) by (exists 9; exact first_steps).
  assert (Hk : wallet_has_private_key (key_address alice_key) (wl_db first_open) = true) by (vm_compute; reflexivity).
  destruct (unlocked_wallet_signs first_open transaction_default {[ key_address alice_key ]} Hr) as (t & E & _ & Hs).
  - vm_compute; reflexivity.
  - done.
  - by intros a ->%elem_of_singleton.
  - exists t. split; [ exact E | ]. by apply Hs, elem_of_singleton.
Defined.

Lemma locked_wallet_refuses_witness : is_ok (get_private_key 24 empty_wallet) = false.
Proof. apply (locked_wallet_refuses demo_node 100). by left. Defined.

(** The wallet of alice, with another password of the same kind. *)
Lemma unlock_needs_password_witness : exists w',
  unlock demo_node "another password" 60 1000000000 alices_wallet = (w', Throw invalid_password) /\ wl_db w' = wl_db alices_wallet.
Proof.
  destruct (unlock demo_node "another password" 60 1000000000 alices_wallet) as [w' r] eqn:E.
  assert (Hm : exists mk, w_master_key (wl_db alices_wallet) = Some mk) by (eexists; vm_compute; reflexivity). destruct Hm as [mk Hm].
  assert (Hp : has_password "another password" mk = false).
  { assert (Hn : (fun o => match o with Some mk => has_password "another password" mk | None => true end) (w_master_key (wl_db alices_wallet)) = false)
      by (vm_compute; reflexivity). by rewrite Hm in Hn. }
  destruct (unlock_needs_password demo_node "another password" 60 1000000000 alices_wallet w' r mk) as (_ & _ & H);
    [ vm_compute; reflexivity | exact Hm | exact E | ].
  destruct H as [-> Hd]; [ vm_compute; reflexivity | exact Hp | ]. exists w'. split; [ reflexivity | exact Hd ].
Defined.
