(* ===== verification/Reopen.v ===== *)
(** Opening the chain again: what a new process rebuilds from the maps on disk,
    and the replay of the stored blocks ([load_checkpoints], [replay_required],
    [populate_indexes] and [open] of chain_database.cpp).

    That the maps on disk have the contents the last process left is the
    refinement of StorageProps. Copying the raw blocks, progress messages and
    the erasure of the index after an error are left out. *)

From stdpp Require Import sorting.
From S2P Require Import Prelude StateMonad Asset Names Records ChainInterface EvalState Transaction Tables PendingState ChainDatabase.
From S2P Require Import Market BlockOps Node ForkDb Genesis Pool Storage.

(** ** Checkpoints *)

Definition max_block_num (checkpoints : gmap Z Z) : Z := foldr Z.max 0 (map_to_list checkpoints).*1.

(** The checkpoints of the file replace the built-in ones when they reach as
    far; [file] is empty when there is none or it cannot be read. *)
Definition load_checkpoints (builtin : gmap Z Z) (last_checkpoint : Z) (file : gmap Z Z) : gmap Z Z * Z :=
  let last_checkpoint := Z.max (max_block_num builtin) last_checkpoint in
  if last_checkpoint <=? max_block_num file then (file, max_block_num file) else (builtin, last_checkpoint).

(** ** What is kept in memory only *)

Definition DATABASE_VERSION : Z := 15.
Definition DEFAULT_RELAY_FEE : Z := 10000.
Definition database_version_property : Z := 0.

Definition set_nd_min_undo (v : Z) (n : node) : node :=
  mk_node (nd_db n) (nd_head_id n) (nd_head_header n) (nd_blocks n) (nd_fork n) (nd_fork_number n) (nd_num_to_id n)
    (nd_undo n) v (nd_future n) (nd_pending_trxs n) (nd_fee_index n) (nd_pending_state n) (nd_relay_fee n) (nd_verify_signatures n).

Section reopen.
Context `{FcI : Fc} `{Cr : Crypto} `{Tx : TxCrypto} `{St : Statics} `{BC : BlockCrypto} `{Cp : Checkpoints} `{Gm : Games}.
Context `{Gc : GenesisCodec}.
Implicit Types (db : chain_database) (n : node).

Definition replay_required db : bool :=
  match get_property_record db database_version_property with
  | Some (property_int version) => negb (version =? DATABASE_VERSION)
  | Some _ | None => true
  end.

(** A database that was just opened. *)
Definition forget_memory db : chain_database :=
  mk_database (db_tables db) (db_indexes db) ∅ ∅ ∅ (db_asks db) (db_bids db) (db_markets db)
    0 (bh_timestamp header_default) (db_clock db).

(** Accounts that are not retracted: delegates by votes, all by reputation. *)
Definition populate_account (r : account_record) db : result chain_database :=
  retracted <- is_retracted r ;;
  db <- (if negb retracted && is_delegate r then votes <- net_votes r ;; Ok (ranking_insert vote_set (votes, ac_id r) db) else Ok db) ;;
  retracted <- is_retracted r ;;
  Ok (if negb retracted then ranking_insert rp_set (ac_rp r, ac_id r) db else db).

Definition populate_transaction (r : transaction_record) db : chain_database :=
  if db_now db <? tx_expiration (tr_trx r) then unique_insert (tr_trx r) db else db.

(** The feeds by asset and delegate are read from their table in the model. *)
Definition populate_indexes db : result chain_database :=
  db <- foldM populate_account (map_to_list (tb_account (db_tables db))).*2 db ;;
  Ok (foldl (fun db r => populate_transaction r db) db (map_to_list (tb_transaction (db_tables db))).*2).

(** A new process with the maps of the old one. *)
Definition restarted n : node :=
  let db := forget_memory (nd_db n) in
  mk_node db 0 header_default (nd_blocks n) (nd_fork n) (nd_fork_number n) (nd_num_to_id n) (nd_undo n) 0 (nd_future n)
    (nd_pending_trxs n) ∅ (pending_empty db) DEFAULT_RELAY_FEE false.

(** The head is the last block of the current chain. *)
Definition open_head : node_m unit :=
  fun n =>
    match list.last (items Z.le (nd_num_to_id n)) with
    | Some (head_num, head_id) =>
        if 0 <? head_num then (h <~ nread (get_block_header head_id) ;; update_head_block head_id h) n else (n, Ok tt)
    | None => (n, Ok tt)
    end.

(** The transactions that waited are evaluated again; those that are not valid
    stay in their map. *)
Definition open_pending (id : transaction_id) : node_m unit :=
  fun n =>
    match nd_pending_trxs n !! id with
    | None => (n, Ok tt)
    | Some trx =>
        ncatch (e <~ evaluate_transaction trx (nd_relay_fee n) ;;
                _ <~ index_fee (es_total_base_fees e) trx ;;
                nwrite (fun n => set_nd_pool (<[trx_id trx := trx]> (nd_pending_trxs n)) (nd_fee_index n) (nd_pending_state n) n))
          (fun _ => nret tt) n
    end.
Definition open_pool : node_m unit := fun n => nfold (fun id _ => open_pending id) (waiting_ids n) tt n.

(** [open] of a database of the current version. *)
Definition reopen : node_m unit :=
  _ <~ nwrite restarted ;;
  _ <~ clear_invalidation_of_future_blocks ;;
  _ <~ open_head ;;
  _ <~ (fun n => (db <~ nread (fun _ => populate_indexes (nd_db n)) ;; nwrite (set_nd_db db)) n) ;;
  open_pool.

(** ** Replay *)

(** The blocks to push: those of the current chain in the order of their
    numbers, or all that are known when there is no current chain. *)
Definition blocks_to_replay n : list full_block :=
  match items Z.le (nd_num_to_id n) with
  | [] => (items Z.le (nd_blocks n)).*2
  | num_to_id => omap (fun num_id => nd_blocks n !! num_id.2) num_to_id
  end.
Definition replay_min_undo n : Z :=
  match list.last (items Z.le (nd_num_to_id n)) with
  | Some (last_known_block_num, _) =>
      if MAX_UNDO_HISTORY <? last_known_block_num then last_known_block_num - MAX_UNDO_HISTORY else 0
  | None => 0
  end.

(** The index is erased: only the raw blocks, the numbers of the current chain
    and the clock are left. *)
Definition erased n : node :=
  let db := database_empty (db_clock (nd_db n)) in
  mk_node db 0 header_default ∅ ∅ ∅ ∅ ∅ 0 ∅ ∅ ∅ (pending_empty db) DEFAULT_RELAY_FEE false.

Definition replay (config : genesis_state) (chain_id : Z) (statistics_enabled : bool) : node_m unit :=
  fun old =>
    let start :=
      let n := erased old in
      let n := set_nd_db (store_property_record database_version_property (property_int DATABASE_VERSION) (nd_db n)) n in
      n <- initialize_genesis config chain_id statistics_enabled n ;;
      Ok (set_nd_min_undo (replay_min_undo old) n) in
    match start with
    | Throw e => (old, Throw e)
    | Ok n => nfold (fun b _ => _ <~ push_block b ;; nret tt) (blocks_to_replay old) tt n
    end.

(** [open]: the pool of a replayed chain is empty. *)
Definition open (config : genesis_state) (chain_id : Z) (statistics_enabled : bool) : node_m unit :=
  fun n => if replay_required (nd_db n) then replay config chain_id statistics_enabled n else reopen n.
End reopen.
