(* ===== verification/ChainMemory.v ===== *)
(** What a node keeps in memory follows from what it keeps on disk: the ranking
    of the delegates from the accounts, the set of known transactions from the
    records of transactions, the head from the numbers of the chain; and the
    blocks that arrive keep it so. *)

From stdpp Require Import sorting.
From S2P Require Import Prelude StateMonad Asset Names Records ChainInterface EvalState BalanceOps Transaction Tables PendingState ChainDatabase Concrete.
From S2P Require Import Market BlockOps Node ForkDb Undo Supply Conservation BlockProps Frames AccountKeys MarketProps ForkTree ForkStore NodeTree ForkSwitch ForkDemo ForkProps ChainSupply Rankings.
From S2P Require Import Genesis GenesisProps ChainGenesis Pool PoolProps Storage StorageProps Reopen.

(** ** What applying a pending state does to the database, store by store *)

Section apply.
Context {S : Type} `{CI : chain_interface S} `{Cr : Crypto} `{St : Statics}.
Implicit Types (p : pending_chain_state S) (s : S).

Variable P : S -> Prop.
Hypothesis P_status : forall x s, P s -> P (store_market_status x s).
Hypothesis P_bid : forall k x s, P s -> P (store_bid_record k x s).
Hypothesis P_ask : forall k x s, P s -> P (store_ask_record k x s).
Hypothesis P_history : forall k x s, P s -> P (store_market_history_record k x s).
Hypothesis P_reports : forall l s, P s -> P (set_market_transactions l s).
Hypothesis P_dirty : forall l s, P s -> P (set_dirty_markets l s).

Lemma apply_changes_by_steps p s' :
  (forall t k v s s', ov_records (tget t (ps_tables p)) !! k = Some v -> store t k v s = Ok s' -> P s -> P s') ->
  (forall t k s s', k ∈ ov_removed (tget t (ps_tables p)) -> remove t k s = Ok s' -> P s -> P s') ->
  apply_changes p = Ok s' -> P (ps_prev p) -> P s'.
Proof.
  intros Hs Hr H Hp.
  assert (R : forall t s s', apply_records t (tget t (ps_tables p)) s = Ok s' -> P s -> P s').
  { intros t s s1 E P1. unfold apply_records in E. inv_ok.
    match goal with E : foldM (fun key s => remove t key s) _ _ = Ok ?x |- _ => assert (P x) as P2; [ | clear E ] end.
    - match goal with E : foldM (fun key s => remove t key s) ?l _ = Ok _ |- _ =>
        assert (F : Forall (fun k => k ∈ ov_removed (tget t (ps_tables p))) l) by (apply Forall_forall; set_solver); revert F P1 E; clear - Hr end.
      generalize (elements (ov_removed (tget t (ps_tables p)))). intros l. revert s.
      induction l as [|k l IH]; intros s F P1 E; cbn [foldM] in E; inv_ok; [ by simplify_eq | ].
      apply Forall_cons in F as [Fk F]. eapply IH; [ done | | eassumption ]. by eapply Hr.
    - match goal with E : foldM (fun item s => store t _ _ s) ?l _ = Ok _ |- _ =>
        assert (F : Forall (fun kv => ov_records (tget t (ps_tables p)) !! kv.1 = Some kv.2) l);
          [ apply Forall_forall; intros [k v] Hkv; by apply elem_of_map_to_list in Hkv | revert F P2 E; clear - Hs ] end.
      match goal with |- Forall _ ?l -> P ?x -> _ => generalize x, l end.
      intros x l. revert x. induction l as [|[k v] l IH]; intros x F P1 E; cbn [foldM] in E; inv_ok; [ by simplify_eq | ].
      apply Forall_cons in F as [Fk F]. eapply IH; [ done | | eassumption ]. by eapply Hs. }
  unfold apply_changes in H. inv_ok.
  match goal with H : foldM _ apply_order _ = Ok ?x |- _ => assert (P x) as Px; [ revert Hp H; clear - R | ] end.
  { generalize (ps_prev p), apply_order. intros s l. revert s.
    induction l as [|t l IH]; intros s Hp H; cbn [foldM] in H; inv_ok; [ by simplify_eq | ]. eapply IH; [ | eassumption ]. by eapply R. }
  apply P_dirty, P_reports. eapply R; [ eassumption | ]. repeat (apply foldl_keeps; [ auto | ]). done.
Qed.
End apply.

Section memory.
Context `{FcI : Fc} `{Cr : Crypto} `{CF : !CollisionFree} `{Tx : TxCrypto} `{St : Statics} `{BC : BlockCrypto}.
Context `{Cp : Checkpoints} `{Gm : Games}.
Implicit Types (db : chain_database) (p : pending_chain_state chain_database) (n : node).

Lemma overlay_shown p t k v : ov_records (tget t (ps_tables p)) !! k = Some v -> flat t p !! k = Some v.
Proof. intros H. rewrite pending_flat. unfold ov_flat. by apply lookup_union_Some_l. Qed.

(** ** The ranking of the delegates *)

Lemma apply_changes_ranked p db' : wf p -> apply_changes p = Ok db' -> ranked (ps_prev p) -> ranked db'.
Proof.
  intros W H. apply (apply_changes_by_steps ranked) with (p := p); [ .. | done ].
  - intros x s. by apply ranked_step, step_market_status.
  - intros k x s. by apply ranked_step, step_bid.
  - intros k x s. by apply ranked_step, step_ask.
  - intros k x s. by apply ranked_step, step_market_history.
  - intros l s. by apply ranked_step, step_market_transactions.
  - intros l s. by apply ranked_step, (step_store property_t dirty_markets_property (property_markets l)).
  - intros t k v s s' Hk E. apply ranked_step. eapply step_store; [ | exact E ]. eapply (wf_keys p W). by apply overlay_shown.
  - intros t k s s' _ E. by apply ranked_step, (step_remove t k).
Qed.

(** ** The known transactions *)

Definition transactions_of db : gmap Z transaction_record := tb_transaction (db_tables db).

(** The id of a transaction, a hash of it, fixes its expiration and digest. *)
Class TrxIds := trx_id_key : forall t t', trx_id t = trx_id t' -> unique_key t = unique_key t'.

(** Records lie under the ids of their transactions; those that expire after
    [now] are known, and what is known has a record. *)
Record recorded (now : time) db : Prop := {
  rc_ids : forall id r, transactions_of db !! id = Some r -> trx_id (tr_trx r) = id;
  rc_stored : forall x, x ∈ db_unique_transactions db -> exists id r, transactions_of db !! id = Some r /\ unique_key (tr_trx r) = x;
  rc_known : forall id r, transactions_of db !! id = Some r -> now < tx_expiration (tr_trx r) ->
    unique_key (tr_trx r) ∈ db_unique_transactions db }.

Lemma recorded_same now db db' : transactions_of db' = transactions_of db ->
  db_unique_transactions db' = db_unique_transactions db -> recorded now db -> recorded now db'.
Proof. intros E1 E2 [H1 H2 H3]. split; intros *; rewrite ?E1, ?E2; [ apply H1 | apply H2 | apply H3 ]. Qed.

Lemma recorded_store `{TI : !TrxIds} now id r db : trx_id (tr_trx r) = id -> recorded now db ->
  recorded now (transaction_record_store id r db).
Proof.
  intros Hid [H1 H2 H3].
  assert (E1 : transactions_of (transaction_record_store id r db) = <[id := r]> (transactions_of db)) by done.
  assert (E2 : db_unique_transactions (transaction_record_store id r db) = {[ unique_key (tr_trx r) ]} ∪ db_unique_transactions db) by done.
  split; intros *; rewrite ?E1, ?E2.
  - rewrite lookup_insert. case_decide; [ intros [= <-]; congruence | apply H1 ].
  - intros [->%elem_of_singleton|Hx]%elem_of_union; [ exists id, r; split; [ apply lookup_insert_eq | done ] | ].
    destruct (H2 _ Hx) as (k & q & Hq & <-). destruct (decide (k = id)) as [->|Hne].
    + exists id, r. split; [ apply lookup_insert_eq | ]. apply trx_id_key. by rewrite Hid, (H1 _ _ Hq).
    + exists k, q. by rewrite lookup_insert_ne.
  - rewrite lookup_insert. case_decide; [ intros [= <-] _; set_solver | intros Hq Ht; set_solver ].
Qed.

Lemma transactions_stable m u :
  stable (fun t => t <> transaction_t) (fun db => transactions_of db = m /\ db_unique_transactions db = u).
Proof.
  apply stable_on_primitives; try done; [ | by intros [] ].
  intros t k v d Ht [E1 E2]. split; [ | exact E2 ]. rewrite <- E1. by destruct t.
Qed.

Lemma recorded_other_store now : stable (fun t => t <> transaction_t) (recorded now).
Proof.
  intros t k v db db' Hne H. destruct (transactions_stable _ _ t k v db db' Hne H (conj eq_refl eq_refl)) as [K1 K2].
  exact (recorded_same now db db' K1 K2).
Qed.

Lemma recorded_later now now' db : now <= now' -> recorded now db -> recorded now' db.
Proof. intros Hle [H1 H2 H3]. split; [ done | done | ]. intros id r Hr Ht. eapply H3; [ done | lia ]. Qed.

(** No transaction yet. *)
Definition blank db : Prop := transactions_of db = ∅ /\ db_unique_transactions db = ∅.

Lemma recorded_blank now db : blank db -> recorded now db.
Proof.
  intros [E1 E2]. split; intros *; rewrite ?E1, ?E2; [ by rewrite lookup_empty | by intros ?%elem_of_empty | by rewrite lookup_empty ].
Qed.

(** The records of transactions of a pending state lie under their ids, and
    nothing is removed. *)
Definition keyed p : Prop := forall id r, flat transaction_t p !! id = Some r -> trx_id (tr_trx r) = id.
Definition plain p : Prop := keyed p /\ no_removals p.

Lemma keyed_store id r p : trx_id (tr_trx r) = id -> keyed p -> keyed (store_transaction id r p).
Proof.
  intros Hid Hk k q. destruct (store_flat transaction_t id r p (store_transaction id r p) eq_refl eq_refl) as [E _].
  intros Hq. assert (Hq' : (<[id := r]> (flat transaction_t p) : gmap Z transaction_record) !! k = Some q) by (etrans; [ | exact Hq ]; by rewrite E).
  rewrite lookup_insert in Hq'. case_decide; [ simplify_eq; done | by apply Hk ].
Qed.

Lemma no_removals_stable : stable (fun _ => True) (fun p => no_removals p).
Proof. apply stable_of_primitives; try done. intros *. apply no_removals_insert. Qed.

(** What games are trusted with here: they store records, but no transactions. *)
Definition games_store : Prop := forall execute db k p p',
  game_execute = Some execute -> execute db k p = Ok p' -> plain p -> plain p'.

Lemma plain_kept : games_store -> kept_by_steps plain.
Proof.
  intros HG. split.
  - intros t k v p p' Hne H [Hk Hr]. split; [ | by apply (no_removals_stable t k v p p') ].
    intros id r. rewrite (flat_other t k v p p' transaction_t H (not_eq_sym Hne)). apply Hk.
  - intros trx location yields p [Hk Hr]. split; [ by apply keyed_store | by apply (no_removals_insert transaction_t) ].
  - intros id r location p Hget [Hk Hr]. split; [ | by apply (no_removals_insert transaction_t) ].
    apply keyed_store; [ | done ]. apply (Hk id r). exact (eq_trans (eq_sym (flat_lookup transaction_t p id)) Hget).
  - intros p p' (U & _ & _ & _ & R) [Hk Hr]. split; [ | auto ]. intros id r. rewrite (U transaction_t) by done. apply Hk.
  - intros trxs p [Hk Hr]. split; [ | done ]. intros id r. rewrite flat_market_transactions. apply Hk.
  - intros execute db n p p' Hg H _ _. by apply (HG _ _ _ _ _ Hg H).
Qed.

Lemma kept_both P Q : kept_by_steps P -> kept_by_steps Q -> kept_by_steps (fun p => P p /\ Q p).
Proof.
  intros [P1 P2 P3 P4 P5 P6] [Q1 Q2 Q3 Q4 Q5 Q6]. split.
  - intros t k v p p' Hne H [HP HQ]. split; [ by apply (P1 t k v p) | by apply (Q1 t k v p) ].
  - intros * []. split; auto.
  - intros * H []. split; [ by apply P3 | by apply Q3 ].
  - intros p p' U []. split; [ by apply (P4 p) | by apply (Q4 p) ].
  - intros * []. split; auto.
  - intros execute db k p p' Hg H W O []. split; [ by apply (P6 execute db k p) | by apply (Q6 execute db k p) ].
Qed.

Lemma plain_empty db now : recorded now db -> plain (pending_empty db).
Proof.
  intros R. split.
  - intros id r. rewrite pending_flat. unfold pending_empty. simpl. rewrite ov_flat_empty. apply (rc_ids _ _ R).
  - intros t. by destruct t.
Qed.

Lemma apply_changes_recorded `{TI : !TrxIds} now p db' : plain p -> apply_changes p = Ok db' -> recorded now (ps_prev p) -> recorded now db'.
Proof.
  intros [Hk Hr] H. apply (apply_changes_by_steps (recorded now)) with (p := p); [ .. | done ].
  1-5: intros *; by apply recorded_same.
  - intros l s. by apply (recorded_other_store now property_t dirty_markets_property (property_markets l)).
  - intros t k v s s' Hv E. destruct (decide (t = transaction_t)) as [->|Hne]; [ | by apply (recorded_other_store now t k v) ].
    simpl in E. simplify_eq. apply recorded_store. apply Hk. by apply (overlay_shown p transaction_t).
  - intros t k s s' Hin. rewrite Hr in Hin. by apply elem_of_empty in Hin.
Qed.

(** ** The chain grows *)

(** What marking forks leaves alone. *)
Definition same_chain n n' : Prop :=
  nd_db n' = nd_db n /\ nd_head_id n' = nd_head_id n /\ nd_head_header n' = nd_head_header n /\ nd_num_to_id n' = nd_num_to_id n
  /\ nd_future n' = nd_future n /\ nd_blocks n' = nd_blocks n.

Lemma mark_invalid_chain n0 id e : keeps (same_chain n0) (mark_invalid id e).
Proof. apply mark_invalid_keeps. intros. by apply keeps_write. Qed.

(** What a block makes of the chain. *)
Definition grown_chain b p db n n' : Prop :=
  evaluate_block b n = Ok p /\ apply_changes p = Ok db
  /\ nd_db n' = set_db_unique (filter (fun k => db_now (with_head (fb_header b) db) < k.1) (db_unique_transactions db))
                  (with_head (fb_header b) db)
  /\ nd_head_id n' = full_block_id b /\ nd_head_header n' = fb_header b
  /\ nd_num_to_id n' = <[num_of b := full_block_id b]> (nd_num_to_id n)
  /\ nd_future n' = nd_future n /\ nd_blocks n' = nd_blocks n.

Lemma save_undo_chain num id p n n' r : save_undo_state num id p n = (n', r) -> same_chain n n' /\ nd_fork n' = nd_fork n.
Proof.
  unfold save_undo_state, nbind, nread, nwrite, nret. intros H. repeat (case_match; simplify_eq; try done).
Qed.

Lemma apply_block_chain b d n n' r : nd_fork n !! full_block_id b = Some d -> apply_block (full_block_id b) b n = (n', r) ->
  r = Ok tt /\ (exists p db, evaluate_block b n = Ok p /\ apply_changes p = Ok db /\ nd_db n' = with_head (fb_header b) db
    /\ nd_head_id n' = full_block_id b /\ nd_head_header n' = fb_header b
    /\ nd_num_to_id n' = <[num_of b := full_block_id b]> (nd_num_to_id n)
    /\ nd_future n' = nd_future n /\ nd_blocks n' = nd_blocks n)
  \/ (exists e, r = Throw e) /\ same_chain n n'.
Proof.
  intros Hd [(n1 & p & E1 & H)|(e & E1 & ->)]%nbind_inv; cbv [nread] in E1; simplify_eq; [ | by right; split; [ eauto | ] ].
  apply nbind_inv in H as [(n2 & [] & E2 & H)|(e & E2 & ->)]; apply save_undo_chain in E2 as [S2 F2]; [ | by right; split; [ eauto | ] ].
  apply nbind_inv in H as [(n3 & db & E3 & H)|(e & E3 & ->)]; cbv [nread] in E3; simplify_eq; [ | by right; split; [ eauto | ] ].
  left. unfold nbind at 1, nwrite in H. rewrite <- F2 in Hd. destruct S2 as (S1 & S2 & S3 & S4 & S5 & S6).
  erewrite nbind_ok in H by (apply mark_included_run; exact Hd).
  unfold nbind, update_head_block, clear_pending, nwrite in H. simplify_eq. split; [ done | ].
  exists p, db. cbn. rewrite <- S4, <- S5, <- S6. by split_and!.
Qed.

Lemma extend_chain_grown b d n n' r : nd_fork n !! full_block_id b = Some d -> extend_chain b n = (n', r) ->
  r = Ok tt /\ (exists p db, grown_chain b p db n n') \/ (exists e, r = Throw e) /\ same_chain n n'.
Proof.
  intros Hd H. unfold extend_chain, ncatch, nbind at 1 in H. destruct (apply_block (full_block_id b) b n) as [n1 r1] eqn:E1.
  destruct (apply_block_chain _ _ _ _ _ Hd E1) as [(-> & p & db & E2 & E3 & E4 & E5 & E6 & E7 & E8 & E9)|[[e ->] S]].
  - left. unfold purge_unique, nwrite in H. simplify_eq. split; [ done | ]. exists p, db. unfold grown_chain. cbn.
    rewrite E4. by split_and!.
  - right. assert (H' : r = Throw e /\ same_chain n n' \/ exists r2, mark_invalid (full_block_id b) e n1 = (n', r2) /\ exists e', r = Throw e').
    { destruct e; try (left; by simplify_eq);
        (right; unfold nbind, nthrow in H; destruct (mark_invalid _ _ n1) as [n2 [[]|e2]]; simplify_eq; eauto). }
    destruct H' as [[-> ?]|(r2 & E2 & Hr)]; [ eauto | ]. split; [ done | ].
    by apply (mark_invalid_chain n _ _ _ _ _ E2).
Qed.

(** Storing a block leaves its record. *)
Definition has_record (id : Z) n : Prop := is_Some (nd_fork n !! id).

Lemma fork_store_record id x d : keeps (has_record id) (fork_store x d).
Proof.
  apply keeps_write. intros n H. unfold has_record in *. cbn. destruct (decide (id = x)) as [->|Hne];
    [ rewrite lookup_insert_eq; eauto | by rewrite lookup_insert_ne ].
Qed.

Lemma stored_has_record id b n n' r : store_and_index id b n = (n', r) -> has_record id n'.
Proof.
  unfold store_and_index. intros H. unfold nbind at 1 2, nwrite in H. unfold nbind at 1, nread in H.
  unfold nbind at 1, fork_store at 1, nwrite in H. unfold nbind at 1, nread in H.
  assert (K : forall (m : node_m (Z * block_fork_data)) d n n' r, keeps (has_record id) m -> (_ <~ fork_store id d ;; m) n = (n', r) -> has_record id n').
  { intros m d x x' rx Hm E. unfold nbind, fork_store, nwrite in E. eapply Hm; [ exact E | ]. unfold has_record. cbn. rewrite lookup_insert_eq. eauto. }
  assert (L : forall ids, keeps (has_record id) (recursive_mark_as_linked ids)).
  { intros ids. unfold recursive_mark_as_linked, keep_highest. auto 8 using mark_descendants_keeps, fork_store_record with keeps. }
  assert (I : forall ids e, keeps (has_record id) (recursive_mark_as_invalid ids e)).
  { intros. apply mark_descendants_keeps; auto using fork_store_record with keeps. }
  repeat case_match; (eapply K; [ | exact H ]); auto with keeps.
  all: apply keeps_bind; [ apply (keeps_read _ (fun _ => _)) | intros e; apply keeps_bind; [ apply I | auto with keeps ] ].
Qed.

(** ** What the memory of a node holds *)

Definition at_genesis n : Prop :=
  bh_block_num (nd_head_header n) = 0 /\ nd_head_id n = 0 /\ nd_head_header n = header_default /\ nd_num_to_id n = ∅ /\ blank (nd_db n).
Definition on_block n : Prop :=
  0 < bh_block_num (nd_head_header n) /\ nd_num_to_id n !! bh_block_num (nd_head_header n) = Some (nd_head_id n)
  /\ exists b, nd_blocks n !! nd_head_id n = Some b /\ nd_head_header n = fb_header b.

(** [seen] has the ids of the blocks that are known. *)
Record memory_ok (seen : list Z) n : Prop := {
  mm_wf : wf (nd_db n);
  mm_ok : state_ok (nd_db n);
  mm_ranked : Rankings.ranked (nd_db n);
  mm_recorded : recorded (db_now (nd_db n)) (nd_db n);
  mm_fresh : forall x, x ∈ db_unique_transactions (nd_db n) -> db_now (nd_db n) < x.1;
  mm_numbers : forall k id, nd_num_to_id n !! k = Some id -> k <= bh_block_num (nd_head_header n);
  mm_head : at_genesis n \/ on_block n;
  mm_db_head : db_head_num (nd_db n) = bh_block_num (nd_head_header n) /\ db_head_timestamp (nd_db n) = bh_timestamp (nd_head_header n);
  mm_range : 0 <= bh_block_num (nd_head_header n) < two32;
  mm_blocks : forall id, is_Some (nd_blocks n !! id) -> id ∈ seen;
  mm_future : nd_future n = ∅;
  mm_pool : pool_ok n }.

(** A block after the head in number and time, or the first. *)
Definition numbered_from_genesis b : Prop := 1 < num_of b \/ num_of b = 1 /\ prev_of b = 0.

Lemma evaluated_header b n p : evaluate_block b n = Ok p -> exists signee, verify_header (nd_db n) (nd_head_id n) b signee = Ok tt.
Proof. unfold evaluate_block. intros H. inv_ok. match goal with H : verify_header _ _ _ _ = Ok ?u |- _ => destruct u end. eauto. Qed.

(** The number and the time of a block that is accepted. *)
Lemma next_number seen b n p : memory_ok seen n -> 0 ∉ seen -> numbered_from_genesis b -> evaluate_block b n = Ok p ->
  bh_block_num (nd_head_header n) < num_of b < two32 /\ recorded (bh_timestamp (fb_header b)) (nd_db n).
Proof.
  intros M H0 Hn [signee H]%evaluated_header. apply verify_header_iff in H as (Hseq & Hprev & _).
  destruct (mm_db_head _ _ M) as [En Et]. pose proof (mm_range _ _ M) as Hr. fold (num_of b) in Hseq. fold (prev_of b) in Hprev.
  destruct Hn as [H1|[H1 Hz]].
  - destruct (Hseq H1) as [Hnum Htime]. rewrite En in Hnum. unfold uwrap32 in Hnum.
    assert (Hlt : bh_block_num (nd_head_header n) + 1 < two32).
    { destruct (Z.lt_ge_cases (bh_block_num (nd_head_header n) + 1) two32) as [|Hge]; [ done | ].
      assert (bh_block_num (nd_head_header n) + 1 = two32) as E by lia. rewrite E, Z_mod_same_full in Hnum. lia. }
    rewrite Z.mod_small in Hnum by lia. split; [ lia | ]. eapply recorded_later; [ | apply (mm_recorded _ _ M) ].
    unfold db_now. rewrite En. destruct (Z.leb_spec (bh_block_num (nd_head_header n)) 0); [ | lia ].
    exfalso. lia.
  - rewrite Hz in Hprev. destruct (mm_head _ _ M) as [(E & _ & _ & _ & B)|(_ & _ & b' & Hb' & _)].
    + split; [ unfold two32; lia | by apply recorded_blank ].
    + exfalso. apply H0, (mm_blocks _ _ M). rewrite Hprev. eauto.
Qed.

Context `{TI : !TrxIds}.

Lemma grown_memory seen b p db n n' :
  games_conserve -> games_store -> forallb proper_claims (fb_user_transactions b) = true ->
  memory_ok seen n -> 0 ∉ seen -> numbered_from_genesis b -> nd_blocks n !! full_block_id b = Some b ->
  grown_chain b p db n n' -> wf (nd_db n') -> state_ok (nd_db n') -> pool_ok n' -> memory_ok seen n'.
Proof.
  intros HG HS Hc M H0 Hn Hb (E1 & E2 & E3 & E4 & E5 & E6 & E7 & E8) W O PO.
  destruct (next_number _ _ _ _ M H0 Hn E1) as [Hnum R].
  assert (HT : db_now (nd_db n') = bh_timestamp (fb_header b)).
  { rewrite E3. unfold db_now. simpl. fold (num_of b). pose proof (mm_range _ _ M). by rewrite (proj2 (Z.leb_gt _ _)) by lia. }
  destruct (evaluate_block_state (fun p => plain p /\ over (nd_db n) p) b n p) as [(Wp & Op & _) [Hp Hv]]; try done.
  { by apply kept_both; [ apply plain_kept | apply over_kept ]. }
  { split; [ by eapply plain_empty | done ]. }
  { apply M. }
  { apply M. }
  unfold over in Hv.
  assert (Rk : Rankings.ranked db) by (apply (apply_changes_ranked p db Wp E2); rewrite Hv; apply M).
  assert (Rc : recorded (bh_timestamp (fb_header b)) db) by (apply (apply_changes_recorded _ p db Hp E2); by rewrite Hv).
  assert (HU : forall x, x ∈ db_unique_transactions (nd_db n') <-> bh_timestamp (fb_header b) < x.1 /\ x ∈ db_unique_transactions db).
  { intros x. rewrite E3. simpl. rewrite elem_of_filter. rewrite <- HT, E3. done. }
  split; try done.
  - rewrite E3. destruct Rk as [R1 R2]. by split.
  - rewrite HT. destruct Rc as [R1 R2 R3]. split; [ by rewrite E3 | intros x [_ Hx]%HU; rewrite E3; by apply R2 | ].
    intros id r Hr Ht. apply HU. split; [ done | ]. rewrite E3 in Hr. by eapply R3.
  - intros x [Hx _]%HU. by rewrite HT.
  - intros k id. rewrite E6, E5. fold (num_of b). rewrite lookup_insert. case_decide; [ lia | ].
    intros Hk%(mm_numbers _ _ M). lia.
  - right. unfold on_block. rewrite E4, E5, E6, E8. fold (num_of b). pose proof (mm_range _ _ M).
    split_and!; [ lia | apply lookup_insert_eq | by exists b ].
  - by rewrite E3, E5.
  - rewrite E5. fold (num_of b). pose proof (mm_range _ _ M). lia.
  - rewrite E8. apply M.
  - rewrite E7. apply M.
Qed.

Lemma same_chain_memory seen n n' : same_chain n n' -> pool_ok n' -> memory_ok seen n -> memory_ok seen n'.
Proof.
  intros (E1 & E2 & E3 & E4 & E5 & E6) PO [H1 H2 H3 H4 H5 H6 H7 H8 H9 H10 H11 _].
  split; unfold at_genesis, on_block in *; by rewrite ?E1, ?E2, ?E3, ?E4, ?E5, ?E6.
Qed.

Lemma store_and_index_after (P : node -> Prop) id b n n' r :
  (forall x d, keeps P (fork_store x d)) -> (forall n m, P n -> P (set_nd_fork_number m n)) ->
  store_and_index id b n = (n', r) -> P (set_nd_blocks (<[id := b]> (nd_blocks n)) n) -> P n'.
Proof.
  intros Hs Hn.
  assert (L : forall ids, keeps P (recursive_mark_as_linked ids)).
  { intros ids. unfold recursive_mark_as_linked, keep_highest. auto 8 using mark_descendants_keeps with keeps. }
  assert (I : forall ids e, keeps P (recursive_mark_as_invalid ids e)) by (intros; apply mark_descendants_keeps; auto with keeps).
  unfold store_and_index, nwrite at 1. unfold nbind at 1. generalize (set_nd_blocks (<[id := b]> (nd_blocks n)) n). clear n. intros n H Hp.
  revert H Hp. match goal with |- ?m n = _ -> _ => cut (keeps P m); [ intros K H; exact (K n n' r H) | ] end.
  repeat (apply keeps_bind; [ auto with keeps | intros ? ]). case_match; auto with keeps.
  match goal with |- keeps P (if ?b then _ else _) => destruct b end; auto with keeps. apply keeps_bind; [ auto with keeps | intros ? ].
  match goal with |- keeps P (if ?b then _ else _) => destruct b end; auto with keeps.
Qed.

(** A stored block, before the chain is extended with it. *)
Lemma stored_memory seen id b n n0 r : store_and_index id b n = (n0, r) -> id ∉ seen -> memory_ok seen n ->
  memory_ok (id :: seen) n0 /\ nd_blocks n0 !! id = Some b.
Proof.
  intros H Hid M.
  assert (S : nd_db n0 = nd_db n /\ nd_head_id n0 = nd_head_id n /\ nd_head_header n0 = nd_head_header n /\ nd_num_to_id n0 = nd_num_to_id n
    /\ nd_future n0 = nd_future n /\ nd_blocks n0 = <[id := b]> (nd_blocks n)).
  { eapply (store_and_index_after (fun x => nd_db x = nd_db n /\ nd_head_id x = nd_head_id n /\ nd_head_header x = nd_head_header n
      /\ nd_num_to_id x = nd_num_to_id n /\ nd_future x = nd_future n /\ nd_blocks x = <[id := b]> (nd_blocks n))); [ | | exact H | done ]; [ | done ].
    intros x d. by apply keeps_write. }
  assert (PO : pool_ok n0).
  { refine (store_and_index_keeps pool_ok id b _ _ _ n n0 r H (mm_pool _ _ M)); [ intros; by apply pool_write | intros; by apply (pool_same n1) .. ]. }
  destruct S as (E1 & E2 & E3 & E4 & E5 & E6).
  assert (Hn : nd_blocks n !! id = None) by (apply eq_None_not_Some; intros X; by apply Hid, (mm_blocks _ _ M)).
  split; [ | rewrite E6; apply lookup_insert_eq ]. destruct M as [H1 H2 H3 H4 H5 H6 H7 H8 H9 H10 H11 _].
  split; unfold at_genesis, on_block in *; rewrite ?E1, ?E2, ?E3, ?E4, ?E5, ?E6; try done.
  - destruct H7 as [?|(? & ? & bh & Hb & ?)]; [ by left | right; split_and!; [ done.. | ] ]. exists bh. split; [ | done ].
    rewrite lookup_insert_ne; [ done | ]. intros ->. congruence.
  - intros k. rewrite lookup_insert. case_decide; [ subst; intros _; by left | intros Hk; right; by apply H10 ].
Qed.

Lemma extended_by_memory seen b n :
  games_conserve -> games_store -> forallb proper_claims (fb_user_transactions b) = true -> numbered_from_genesis b ->
  0 ∉ full_block_id b :: seen -> full_block_id b ∉ seen -> memory_ok seen n -> memory_ok (full_block_id b :: seen) (extended_by b n).
Proof.
  intros HG HS Hc Hn H0 Hid M. unfold extended_by. destruct (store_and_index (full_block_id b) b n) as [n0 r0] eqn:E0. cbn [fst].
  destruct (stored_memory _ _ _ _ _ _ E0 Hid M) as [M0 Hb]. destruct (stored_has_record _ _ _ _ _ E0) as [d Hd].
  destruct (extend_chain b n0) as [n1 r] eqn:E. cbn [fst].
  assert (PO : pool_ok n1) by (eapply pool_extend_chain; [ exact E | apply M0 ]).
  pose proof (extend_chain_balanced _ _ _ _ HG E Hc (mm_wf _ _ M0) (mm_ok _ _ M0)) as (W & O & _).
  destruct (extend_chain_grown _ _ _ _ _ Hd E) as [[_ (p & db & G)]|[_ Sc]]; [ | by eapply same_chain_memory ].
  by eapply grown_memory.
Qed.

Lemma extended_memory bs seen n :
  games_conserve -> games_store -> forallb (fun b => forallb proper_claims (fb_user_transactions b)) bs = true ->
  Forall numbered_from_genesis bs -> NoDup (0 :: map full_block_id bs ++ seen) -> memory_ok seen n ->
  exists seen', memory_ok seen' (extended bs n).
Proof.
  intros HG HS. revert seen n. induction bs as [|b bs IH]; intros seen n Hc Hn ND M; [ by exists seen | ].
  cbn [forallb] in Hc. b2p. apply Forall_cons in Hn as [Hb Hn]. cbn [map app] in ND.
  apply NoDup_cons in ND as [Hz ND]. apply NoDup_cons in ND as [Hid ND]. rewrite elem_of_cons, elem_of_app in Hz. rewrite elem_of_app in Hid.
  cbn [extended foldl]. apply (IH (full_block_id b :: seen)); [ done | done | | apply extended_by_memory; try done; set_solver ].
  apply NoDup_cons. split; [ set_solver | ]. rewrite <- Permutation_middle. apply NoDup_cons. split; [ set_solver | done ].
Qed.
End memory.
