(* ===== verification/ReopenProps.v ===== *)
(** A new process finds the chain as the old one left it: the rankings and the
    set of known transactions that [populate_indexes] rebuilds are those that
    were kept in memory, the head is the block that was the head, and the
    transactions that waited still wait. *)

From stdpp Require Import sorting.
From S2P Require Import Prelude StateMonad Asset Names Records ChainInterface EvalState BalanceOps Transaction Tables PendingState ChainDatabase Concrete.
From S2P Require Import Market BlockOps Node ForkDb Undo Supply Conservation BlockProps Frames AccountKeys MarketProps ForkTree ForkStore NodeTree ForkSwitch ForkDemo ForkProps ChainSupply Rankings.
From S2P Require Import Genesis GenesisProps ChainGenesis Pool PoolProps Storage StorageProps Reopen ChainMemory.

(** ** The memory of a node that starts *)

Section genesis_memory.
Context `{FcI : Fc} `{Cr : Crypto} `{Tx : TxCrypto} `{St : Statics} `{Gc : GenesisCodec}.
Context `{AI : !AddressInj}.
Implicit Types (db : chain_database).

(** A ranking in step and no transactions. *)
Definition unused db : Prop := Rankings.ranked db /\ blank db /\ db_head_timestamp db = bh_timestamp header_default.

Lemma head_time_stable time : stable (fun _ => True) (fun db => db_head_timestamp db = time).
Proof. apply stable_of_primitives; try done. by intros []. Qed.

Lemma unused_stable : stable (fun t => t <> account_t /\ t <> transaction_t) unused.
Proof.
  intros t k v db db' [Ha Ht] H ([Hk Hv] & B & T). split_and!.
  - split; intros *; rewrite (flat_other t k v db db' account_t H (not_eq_sym Ha)), ?(store_other_votes t k v db db' H Ha); [ apply Hk | apply Hv ].
  - by apply (transactions_stable _ _ t k v db db').
  - by apply (head_time_stable _ t k v db db').
Qed.

Lemma unused_account r db db' : store_account_record r db = Ok db' -> unused db -> unused db'.
Proof.
  intros H (R & B & T). split_and!.
  - by apply (ranked_account_store r db db').
  - by apply (transactions_stable ∅ ∅ account_t (ac_id r) r db db').
  - by apply (head_time_stable _ account_t (ac_id r) r db db').
Qed.

Lemma unused_erase k db : unused db -> unused (record_erase balance_t k db).
Proof.
  intros ([Hk Hv] & B & T). split_and!; [ | exact B | exact T ].
  split; [ exact Hk | exact Hv ].
Qed.

Lemma unused_empty clock : unused (database_empty clock).
Proof. split_and!; [ apply reachable_ranked; exists clock; constructor | done | done ]. Qed.

Lemma foldM_unused {A B} (f : A -> B * chain_database -> result (B * chain_database)) l acc acc' :
  (forall x acc acc', f x acc = Ok acc' -> unused acc.2 -> unused acc'.2) -> foldM f l acc = Ok acc' -> unused acc.2 -> unused acc'.2.
Proof.
  intros Hf. revert acc. induction l as [|x l IH]; intros acc H Hh; cbn [foldM] in H; inv_ok; [ by simplify_eq | ].
  eapply IH; [ exact H | ]. by eapply Hf.
Qed.

Lemma genesis_unused config chain_id st clock db : genesis_database config chain_id st (database_empty clock) = Ok db -> unused db.
Proof.
  unfold genesis_database, initialize_delegates. intros H. inv_ok.
  match goal with H : foldM (initialize_delegate _) _ _ = Ok ?x |- _ => destruct x as [n db1]; rename H into Hd end. inv_ok.
  match goal with H : foldM (initial_balance _) _ _ = Ok ?x |- _ => destruct x as [s2 db2]; rename H into Hi end.
  match goal with H : foldM (vesting_balance _) _ _ = Ok ?x |- _ => destruct x as [s3 db3]; rename H into Hv end. inv_ok.
  unfold genesis_properties, set_active_delegates.
  apply (stable_reward _ _ unused_stable); [ done | ]. do 5 (apply (stable_property _ _ unused_stable); [ done | ]).
  apply (stable_asset _ _ unused_stable); [ done | ].
  apply foldM_unused in Hv; [ done | | ].
  { intros g [s d] [s' d'] Hg Hu. unfold vesting_balance in Hg. inv_ok. simplify_eq. cbn [snd] in *.
    repeat case_match; try apply unused_erase; by apply (stable_balance _ _ unused_stable). }
  apply foldM_unused in Hi; [ done | | ].
  { intros g [s d] [s' d'] Hg Hu. unfold initial_balance in Hg. inv_ok. simplify_eq. by apply (stable_balance _ _ unused_stable). }
  apply foldM_unused in Hd; [ done | | ].
  { intros g [s d] [s' d'] Hg Hu. unfold initialize_delegate in Hg. inv_ok. simplify_eq. by eapply unused_account. }
  apply (stable_property _ _ unused_stable); [ done | apply unused_empty ].
Qed.
End genesis_memory.

Section restart.
Context `{FcI : Fc} `{Cr : Crypto} `{Tx : TxCrypto} `{St : Statics} `{BC : BlockCrypto}.
Context `{Cp : Checkpoints} `{Gm : Games} `{Gc : GenesisCodec} `{AI : !AddressInj}.
Implicit Types (db : chain_database) (n : node).

Lemma genesis_memory config chain_id st clock fee n :
  initialize_genesis config chain_id st (unborn_node clock fee) = Ok n -> merges_kept config -> memory_ok [] n.
Proof.
  unfold initialize_genesis. intros H M. inv_ok. match goal with H : genesis_database _ _ _ _ = Ok _ |- _ => rename H into Hg end.
  destruct (genesis_database_sound _ _ _ _ _ Hg M) as (W & O & _). destruct (genesis_unused _ _ _ _ _ Hg) as (R & B & T).
  pose proof (genesis_head _ _ _ _ _ Hg) as Hh. split; try done.
  - by apply recorded_blank.
  - intros x. cbn [nd_db set_nd_fork set_nd_db]. rewrite (proj2 B). by intros ?%elem_of_empty.
  - left. split_and!; [ done | done | done | done | exact B ].
  - intros id. cbn. rewrite lookup_empty. by intros [].
  - apply pool_empty_index; [ done | ]. intros id trx. cbn. by rewrite lookup_empty.
Qed.

(** ** The rankings that are rebuilt *)

(** The entry of an account in the ranking by reputation. *)
Definition rp_entry (r : account_record) : option (Z * Z) :=
  match is_retracted r with Ok false => Some (ac_rp r, ac_id r) | _ => None end.

Lemma has_keys_retracted r : has_keys r -> exists b, is_retracted r = Ok b.
Proof.
  intros [H _]. unfold is_retracted, active_key. destruct (max_entry_some _ H) as [[t k] E]. rewrite E. cbn. eauto.
Qed.

Lemma populate_account_ok r db : has_keys r ->
  populate_account r db = Ok (set_db_rankings (option_to_set (C := gset (Z * Z)) (entry_of r) ∪ db_delegate_votes db)
                                (option_to_set (C := gset (Z * Z)) (rp_entry r) ∪ db_account_rps db) db).
Proof.
  intros [b Hb]%has_keys_retracted. unfold populate_account, entry_of, rp_entry, is_delegate, net_votes. rewrite Hb. cbn [rbind].
  assert (E : db = set_db_rankings (db_delegate_votes db) (db_account_rps db) db) by by destruct db.
  destruct (ac_delegate_info r), b; cbn; f_equal; rewrite ?(left_id_L ∅ (∪)); first [ done | exact E ].
Qed.

Lemma populate_accounts l db : Forall has_keys l -> exists votes rps,
  foldM populate_account l db = Ok (set_db_rankings votes rps db)
  /\ (forall e, e ∈ votes <-> e ∈ db_delegate_votes db \/ exists r, r ∈ l /\ entry_of r = Some e)
  /\ (forall e, e ∈ rps <-> e ∈ db_account_rps db \/ exists r, r ∈ l /\ rp_entry r = Some e).
Proof.
  revert db. induction l as [|r l IH]; intros db H.
  { exists (db_delegate_votes db), (db_account_rps db). split; [ by destruct db | ]. set_solver. }
  apply Forall_cons in H as [Hr H]. cbn [foldM]. rewrite (populate_account_ok _ _ Hr). cbn [rbind].
  match goal with |- context [foldM _ l ?x] => destruct (IH x H) as (votes & rps & E & Hv & Hp) end.
  exists votes, rps. rewrite E. split; [ by destruct db | ].
  assert (K : forall o : option (Z * Z), forall e, e ∈ option_to_set (C := gset (Z * Z)) o <-> o = Some e).
  { intros [x|] e; cbn; [ rewrite elem_of_singleton | rewrite elem_of_empty ]; naive_solver. }
  split; intros e; rewrite ?Hv, ?Hp; cbn; rewrite elem_of_union, K; setoid_rewrite elem_of_cons; naive_solver.
Qed.

Lemma populate_transactions l db :
  foldl (fun db (x : transaction_record) => populate_transaction x db) db l
  = set_db_unique (list_to_set (unique_key ∘ tr_trx <$> filter (fun x => db_now db < tx_expiration (tr_trx x)) l) ∪ db_unique_transactions db) db.
Proof.
  revert db. induction l as [|r l IH]; intros db; cbn [foldl].
  { cbn. rewrite (left_id_L ∅ (∪)). by destruct db. }
  rewrite IH. unfold populate_transaction. rewrite filter_cons. destruct (Z.ltb_spec (db_now db) (tx_expiration (tr_trx r))) as [Hlt|Hge].
  - rewrite decide_True by done. change (db_now (unique_insert (tr_trx r) db)) with (db_now db).
    match goal with |- set_db_unique ?a _ = set_db_unique ?b _ => assert (a = b) as -> by (cbn; set_solver) end. done.
  - by rewrite decide_False by lia.
Qed.
(** *** A memory that was forgotten *)

(** A database without its rankings and known transactions. *)
Definition without_memory db : chain_database := set_db_unique ∅ (set_db_rankings ∅ ∅ db).

(** Every account that is not retracted has its place by reputation. *)
Definition reputations db (rps : gset (Z * Z)) : Prop :=
  forall rp id, (rp, id) ∈ rps <-> exists r, get_account_record db id = Some r /\ is_retracted r = Ok false /\ ac_rp r = rp.

Lemma populate_restores db : state_ok db -> Rankings.ranked db -> recorded (db_now db) db ->
  (forall x, x ∈ db_unique_transactions db -> db_now db < x.1) ->
  exists rps, populate_indexes (without_memory db) = Ok (set_db_rankings (db_delegate_votes db) rps db) /\ reputations db rps.
Proof.
  intros O [Hk Hv] [R1 R2 R3] F.
  assert (L : forall r, r ∈ (map_to_list (tb_account (db_tables db))).*2 <-> exists k : key_of account_t, flat account_t db !! k = Some r).
  { intros r. rewrite list_elem_of_fmap. split.
    - intros ([k x] & -> & Hx). exists k. by apply (elem_of_map_to_list (M := gmap Z)) in Hx.
    - intros [k Hx]. exists (k, r). split; [ done | ]. by apply (elem_of_map_to_list (M := gmap Z)). }
  unfold populate_indexes. destruct (populate_accounts (map_to_list (tb_account (db_tables (without_memory db)))).*2 (without_memory db))
    as (votes & rps & E & V & P).
  { apply Forall_forall. intros r [k Hr]%L. apply (state_ok_keys db k r O). exact (eq_trans (flat_lookup account_t db k) Hr). }
  rewrite E. cbn [rbind]. exists rps.
  assert (votes = db_delegate_votes db) as ->.
  { apply set_eq. intros e. rewrite V, Hv. cbn. setoid_rewrite L. set_solver. }
  split.
  - rewrite populate_transactions. unfold set_db_unique, set_db_rankings, without_memory. cbn. do 2 f_equal.
    apply set_eq. intros x. rewrite (right_id_L ∅ (∪)), elem_of_list_to_set, list_elem_of_fmap. setoid_rewrite list_elem_of_filter.
    setoid_rewrite list_elem_of_fmap. split.
    + intros (r & -> & Ht & [id r'] & -> & Hr). apply (elem_of_map_to_list (M := gmap Z)) in Hr. by apply (R3 id).
    + intros Hx. destruct (R2 x Hx) as (id & r & Hr & <-). exists r. split; [ done | ]. split; [ by apply F in Hx | ].
      exists (id, r). split; [ done | ]. by apply (elem_of_map_to_list (M := gmap Z)).
  - intros rp id. rewrite P. cbn. setoid_rewrite L. split.
    + intros [?%not_elem_of_empty|(r & [k Hr] & He)]; [ done | ]. unfold rp_entry in He. repeat case_match; try done. injection He as <- <-.
      exists r. split_and!; try done. rewrite (Hk _ _ Hr). exact (eq_trans (flat_lookup account_t db k) Hr).
    + intros (r & Hr & Ht & <-). right. exists r. pose proof (eq_trans (eq_sym (flat_lookup account_t db id)) Hr) as Hf.
      split; [ by exists id | ]. unfold rp_entry. rewrite Ht. by rewrite (Hk _ _ Hf).
Qed.
(** ** The head that is found *)

Lemma items_last {V} (c : gmap Z V) k v : c !! k = Some v -> (forall j, is_Some (c !! j) -> j <= k) ->
  list.last (items Z.le c) = Some (k, v).
Proof.
  intros Hk Hmax. unfold items. set (s := merge_sort Z.le (map_to_list c).*1).
  assert (Hin : forall j, j ∈ s <-> is_Some (c !! j)).
  { intros j. unfold s. rewrite merge_sort_Permutation, list_elem_of_fmap. split.
    - intros ([i x] & -> & Hx%elem_of_map_to_list). by exists x.
    - intros [x Hx%elem_of_map_to_list]. by exists (j, x). }
  assert (Hs : StronglySorted Z.le s) by (apply Sorted_StronglySorted; [ apply _ | apply Sorted_merge_sort; apply _ ]).
  destruct s as [|x s' _] using rev_ind; [ exfalso; apply (not_elem_of_nil k), Hin; eauto | ].
  assert (x = k) as ->; [ | rewrite omap_app; cbn; rewrite Hk; cbn; apply last_snoc ].
  assert (Hx : x <= k) by (apply Hmax, Hin; set_solver).
  assert (Hkx : k ∈ s' ++ [x]) by (apply Hin; eauto). apply elem_of_app in Hkx as [Hkx|Hkx]; [ | set_solver ].
  apply (StronglySorted_app_1_elem_of _ _ _ k x) in Hs; [ lia | done | set_solver ].
Qed.

Lemma items_empty {V} : items Z.le (∅ : gmap Z V) = [].
Proof. unfold items. by rewrite map_to_list_empty. Qed.

Lemma open_head_found seen n : memory_ok seen n -> exists n', open_head (restarted n) = (n', Ok tt)
  /\ n' = set_nd_head (nd_head_id n) (nd_head_header n) (set_nd_db (without_memory (nd_db n)) (restarted n)).
Proof.
  intros M. unfold open_head. cbn [restarted nd_num_to_id]. destruct (mm_db_head _ _ M) as [E1 E2].
  eexists. split; [ | done ]. destruct (mm_head _ _ M) as [(G1 & G2 & G3 & G4 & _)|(B1 & B2 & b & B3 & B4)].
  - rewrite G4, items_empty. cbn [list.last]. unfold restarted, set_nd_head, set_nd_db, without_memory, forget_memory. cbn.
    unfold set_db_unique, set_db_rankings. cbn. rewrite E1, E2, G2, G3. done.
  - rewrite (items_last _ _ _ B2) by (intros j [id Hid]; by apply (mm_numbers _ _ M j id)).
    rewrite (proj2 (Z.ltb_lt _ _)) by done. unfold get_block_header, get_block, nbind, nread, update_head_block, nwrite.
    cbn [restarted nd_blocks]. rewrite B3. cbn [from_option_or rbind]. rewrite <- B4.
    unfold restarted, set_nd_head, set_nd_db, without_memory, forget_memory, with_head, set_db_unique, set_db_rankings. cbn.
    by rewrite E1, E2.
Qed.
(** ** The pool *)

Section pool.
Context `{Sz : Sizes}.

(** A node without its pool. *)
Definition without_pool n : node := set_nd_pool ∅ ∅ (pending_empty (database_empty 0)) n.
Definition same_rest n n' : Prop := without_pool n' = without_pool n.

Lemma same_rest_memory seen n n' : same_rest n n' -> pool_ok n' -> memory_ok seen n -> memory_ok seen n'.
Proof.
  intros E. apply same_chain_memory. unfold same_chain.
  pose proof (f_equal nd_db E). pose proof (f_equal nd_head_id E). pose proof (f_equal nd_head_header E).
  pose proof (f_equal nd_num_to_id E). pose proof (f_equal nd_future E). pose proof (f_equal nd_blocks E). done.
Qed.

Lemma rest_set_pool n0 m f p : keeps (same_rest n0) (nwrite (fun n => set_nd_pool (m n) (f n) (p n) n)).
Proof. apply keeps_write. intros n E. exact E. Qed.
#[local] Hint Resolve rest_set_pool : keeps.

Lemma rest_evaluate n0 trx fees : keeps (same_rest n0) (evaluate_transaction trx fees).
Proof.
  intros n n' r. unfold evaluate_transaction. cbv zeta.
  match goal with |- ?m n = _ -> _ => cut (keeps (same_rest n0) m); [ intros K; apply K | ] end. auto with keeps.
Qed.
#[local] Hint Resolve rest_evaluate : keeps.

Lemma rest_index n0 fees trx : keeps (same_rest n0) (index_fee fees trx).
Proof. apply rest_set_pool. Qed.
#[local] Hint Resolve rest_index : keeps.

Lemma rest_store_pending n0 trx override : keeps (same_rest n0) (store_pending_transaction trx override).
Proof.
  intros n n' r H. unfold store_pending_transaction in H. case_match; [ by simplify_eq | ]. revert H.
  match goal with |- ?m n = _ -> _ => cut (keeps (same_rest n0) m); [ intros K; apply K | ] end. auto 8 with keeps.
Qed.

Lemma rest_revalidate n0 : keeps (same_rest n0) revalidate_pending.
Proof.
  apply keeps_bind; [ auto with keeps | intros _ ]. intros n n' r.
  match goal with |- ?m n = _ -> _ => cut (keeps (same_rest n0) m); [ intros K; apply K | ] end. apply keeps_bind; [ | auto with keeps ].
  apply keeps_fold. clear n n' r. intros id d x x' r H. unfold revalidate_one in H. case_match; [ | by simplify_eq ]. revert H.
  match goal with |- ?m x = _ -> _ => cut (keeps (same_rest n0) m); [ intros K; apply K | ] end. auto 8 with keeps.
Qed.
(** Evaluating a transaction of the old pool is one step of [revalidate_pending]. *)
Lemma open_pending_revalidate id n n' r : open_pending id n = (n', r) -> pool_ok n ->
  nd_pending_trxs n' = nd_pending_trxs n
  /\ (r = Ok tt /\ (exists discard, revalidate_one id [] n = (n', Ok discard))
      \/ r = Throw undefined_behaviour /\ revalidate_one id [] n = (n', Throw undefined_behaviour)).
Proof.
  unfold open_pending, revalidate_one. intros H P. destruct (nd_pending_trxs n !! id) as [trx|] eqn:Ew.
  2:{ simplify_eq. split; [ done | left; eauto ]. }
  pose proof (po_waiting n P _ _ Ew) as <-. revert H. unfold ncatch, nbind.
  destruct (evaluate_transaction trx (nd_relay_fee n) n) as [n1 [e|e]] eqn:Ee; apply evaluate_transaction_pool in Ee as [E1 E2].
  - unfold index_fee, nwrite, nret. intros [= <- <-]. cbn [set_nd_pool nd_pending_trxs nd_fee_index nd_pending_state].
    rewrite E1, insert_id by done. split; [ done | ]. left. split; [ done | ]. exists [].
    unfold set_nd_pool. cbn. rewrite ?E1. done.
  - destruct e; unfold nret; intros [= <- <-]; (split; [ done | ]); first [ left; split; [ done | eauto ] | by right ].
Qed.

Lemma open_pool_loop ids n n' r : nfold (fun id _ => open_pending id) ids tt n = (n', r) -> pool_ok n -> NoDup ids -> unindexed ids n ->
  pool_ok n' /\ nd_pending_trxs n' = nd_pending_trxs n /\ (r = Ok tt \/ r = Throw undefined_behaviour).
Proof.
  revert n. induction ids as [|id ids IH]; intros n H P ND U; cbn [nfold] in H.
  { unfold nret in H. simplify_eq. auto. }
  assert (K : forall n1 r1, revalidate_one id [] n = (n1, r1) -> pool_ok n1 /\ (is_ok r1 = true -> unindexed ids n1)).
  { intros n1 r1 E. apply (revalidate_one_pool id ids) in E as [P1 D]; [ | done | by rewrite app_nil_r | by rewrite app_nil_r ].
    split; [ done | ]. destruct r1; [ | done ]. intros _ x Hx. apply D. set_solver. }
  apply nbind_inv in H as [(n1 & [] & E & H)|(e & E & ->)]; apply open_pending_revalidate in E as [E1 [[Er [d Hd]]|[Er Hd]]]; try done.
  - destruct (K _ _ Hd) as [P1 U1]. apply NoDup_cons in ND as [_ ND]. destruct (IH n1 H P1 ND (U1 eq_refl)) as (P2 & E2 & Hr).
    split_and!; [ done | congruence | done ].
  - destruct (K _ _ Hd) as [P1 _]. split_and!; [ done | done | right; congruence ].
Qed.

Lemma rest_open_pool n0 : keeps (same_rest n0) open_pool.
Proof.
  intros n n' r. unfold open_pool. match goal with |- ?m n = _ -> _ => cut (keeps (same_rest n0) m); [ intros K; apply K | ] end.
  apply keeps_fold. clear n n' r. intros id d x x' r H. unfold open_pending in H. case_match; [ | by simplify_eq ]. revert H.
  match goal with |- ?m x = _ -> _ => cut (keeps (same_rest n0) m); [ intros K; apply K | ] end. auto 8 with keeps.
Qed.
(** ** The whole restart *)

(** What a new process has of the old one: everything but the ranking by
    reputation, which is now complete, and the state of the pool. *)
Record same_node n n' : Prop := {
  sn_database : exists rps, nd_db n' = set_db_rankings (db_delegate_votes (nd_db n)) rps (nd_db n) /\ reputations (nd_db n) rps;
  sn_head : nd_head_id n' = nd_head_id n /\ nd_head_header n' = nd_head_header n;
  sn_blocks : nd_blocks n' = nd_blocks n /\ nd_num_to_id n' = nd_num_to_id n;
  sn_forks : nd_fork n' = nd_fork n /\ nd_fork_number n' = nd_fork_number n /\ nd_undo n' = nd_undo n;
  sn_pool : nd_pending_trxs n' = nd_pending_trxs n }.

Lemma reopen_same seen n n' r : memory_ok seen n -> reopen n = (n', r) ->
  (r = Ok tt \/ r = Throw undefined_behaviour) /\ same_node n n' /\ pool_ok n' /\ nd_future n' = ∅.
Proof.
  intros M H. unfold reopen in H. unfold nbind at 1, nwrite in H.
  assert (E0 : clear_invalidation_of_future_blocks (restarted n) = (restarted n, Ok tt)).
  { unfold clear_invalidation_of_future_blocks. cbn [restarted nd_future]. by rewrite (mm_future _ _ M). }
  rewrite (nbind_ok _ _ _ _ _ E0) in H. destruct (open_head_found _ _ M) as (n1 & E1 & D1). rewrite (nbind_ok _ _ _ _ _ E1) in H.
  destruct (populate_restores _ (mm_ok _ _ M) (mm_ranked _ _ M) (mm_recorded _ _ M) (mm_fresh _ _ M)) as (rps & Ep & Rp).
  assert (Edb : nd_db n1 = without_memory (nd_db n)) by by rewrite D1.
  unfold nbind at 1 2, nread, nwrite in H. rewrite Edb, Ep in H.
  match type of H with open_pool ?x = _ => set (n2 := x) in H end.
  assert (P2 : pool_ok n2).
  { apply pool_empty_index; unfold n2; rewrite D1; [ done | ]. exact (po_waiting n (mm_pool _ _ M)). }
  pose proof (rest_open_pool n2 _ _ _ H eq_refl) as Er.
  apply open_pool_loop in H as (P3 & Ew & Hr); [ | done | | intros x _ f; unfold n2; rewrite D1; apply lookup_empty ].
  2:{ unfold waiting_ids. rewrite merge_sort_Permutation. apply NoDup_fst_map_to_list. }
  split_and!; [ done | | done | rewrite (f_equal nd_future Er : nd_future n' = nd_future n2); unfold n2; rewrite D1; apply M ].
  split.
  - exists rps. split; [ exact (f_equal nd_db Er) | done ].
  - pose proof (f_equal nd_head_id Er) as X. pose proof (f_equal nd_head_header Er) as Y. unfold n2 in X, Y. by rewrite D1 in X, Y.
  - pose proof (f_equal nd_blocks Er) as X. pose proof (f_equal nd_num_to_id Er) as Y. unfold n2 in X, Y. by rewrite D1 in X, Y.
  - pose proof (f_equal nd_fork Er) as X. pose proof (f_equal nd_fork_number Er) as Y. pose proof (f_equal nd_undo Er) as Z.
    unfold n2 in X, Y, Z. by rewrite D1 in X, Y, Z.
  - rewrite Ew. unfold n2. by rewrite D1.
Qed.

(** The memory of the new process fits what is on disk as well. *)
Lemma same_node_memory seen n n' : same_node n n' -> pool_ok n' -> nd_future n' = ∅ -> memory_ok seen n -> memory_ok seen n'.
Proof.
  intros [(rps & Edb & _) [E1 E2] [E3 E4] _ _] P F [H1 H2 H3 H4 H5 H6 H7 H8 H9 H10 H11 _].
  split; unfold at_genesis, on_block in *; rewrite ?Edb, ?E1, ?E2, ?E3, ?E4; try done.
  - destruct H1 as [W1 W2]. split; [ exact W1 | exact W2 ].
  - destruct H3 as [R1 R2]. split; [ exact R1 | exact R2 ].
  - destruct H4 as [R1 R2 R3]. split; [ exact R1 | exact R2 | exact R3 ].
Qed.
(** ** Histories with restarts *)

(** Blocks that extend the chain or are refused, transactions, and processes
    that stop after any of them. *)
Inductive event :=
| block_arrives (b : full_block)
| transaction_arrives (trx : signed_transaction) (override_limits : bool)
| pool_evaluated
| process_restarts.

Definition happen n (e : event) : node :=
  match e with
  | block_arrives b => extended_by b n
  | transaction_arrives trx override_limits => fst (store_pending_transaction trx override_limits n)
  | pool_evaluated => fst (revalidate_pending n)
  | process_restarts => fst (reopen n)
  end.
Definition history (es : list event) n : node := foldl happen n es.
Definition arrived (es : list event) : list full_block :=
  omap (fun e => match e with block_arrives b => Some b | _ => None end) es.

Context `{TI : !TrxIds}.

Lemma history_memory es seen n :
  games_conserve -> games_store -> forallb (fun b => forallb proper_claims (fb_user_transactions b)) (arrived es) = true ->
  Forall numbered_from_genesis (arrived es) -> NoDup (0 :: map full_block_id (arrived es) ++ seen) -> memory_ok seen n ->
  exists seen', memory_ok seen' (history es n).
Proof.
  intros HG HS. revert seen n. induction es as [|e es IH]; intros seen n Hc Hn ND M; [ by exists seen | ].
  cbn [history foldl]. destruct e as [b|trx o| |]; cbn [arrived omap list_omap] in Hc, Hn, ND.
  - cbn [forallb] in Hc. b2p. apply Forall_cons in Hn as [Hb Hn]. cbn [map app] in ND.
    apply NoDup_cons in ND as [Hz ND]. apply NoDup_cons in ND as [Hid ND]. rewrite elem_of_cons, elem_of_app in Hz. rewrite elem_of_app in Hid.
    apply (IH (full_block_id b :: seen)); [ done | done | | apply extended_by_memory; try done; set_solver ].
    apply NoDup_cons. split; [ set_solver | ]. rewrite <- Permutation_middle. apply NoDup_cons. split; [ set_solver | done ].
  - apply (IH seen); [ done.. | ]. cbn [happen]. destruct (store_pending_transaction trx o n) as [n1 r] eqn:E. cbn [fst].
    apply (same_rest_memory seen n); [ by apply (rest_store_pending n trx o n n1 r) | by apply (pool_store_pending trx o n n1 r), M | done ].
  - apply (IH seen); [ done.. | ]. cbn [happen]. destruct (revalidate_pending n) as [n1 r] eqn:E. cbn [fst].
    apply (same_rest_memory seen n); [ by apply (rest_revalidate n n n1 r) | by apply (pool_revalidate n n1 r), M | done ].
  - apply (IH seen); [ done.. | ]. cbn [happen]. destruct (reopen n) as [n1 r] eqn:E. cbn [fst].
    destruct (reopen_same _ _ _ _ M E) as (_ & Hs & P & F). by apply (same_node_memory seen n).
Qed.

(** C19: a restart loses nothing: whatever blocks were stored and extended the
    chain since the genesis, and whatever transactions waited, with other
    restarts between them, the process that opens the chain again has the
    tables, the head, the ranking of the delegates, the known transactions, the
    blocks, their tree and the transactions that wait of the one that stopped.
    Only the ranking by reputation differs: it now has every account that is
    not retracted. The blocks have distinct ids and are numbered from the
    genesis, none claims a share for the account -1, the genesis loses no merged
    vesting balance, and the games conserve what is held and store no
    transactions; blocks that are popped and forks that are switched to are not
    covered. *)
Theorem reopen_restores config chain_id st clock fee g es n' r
    (H : initialize_genesis config chain_id st (unborn_node clock fee) = Ok g) (Hm : merges_kept config)
    (HG : games_conserve) (HS : games_store)
    (Hc : forallb (fun b => forallb proper_claims (fb_user_transactions b)) (arrived es) = true)
    (Hn : Forall numbered_from_genesis (arrived es)) (ND : NoDup (0 :: map full_block_id (arrived es)))
    (Hr : reopen (history es g) = (n', r)) :
  (r = Ok tt \/ r = Throw undefined_behaviour) /\ same_node (history es g) n'.
Proof.
  destruct (history_memory es [] g HG HS Hc Hn) as [seen M]; [ by rewrite app_nil_r | by eapply genesis_memory | ].
  by destruct (reopen_same _ _ _ _ M Hr) as (Hres & Hs & _).
Qed.
End pool.
End restart.

(** ** A node that is stopped and started *)

#[local] Existing Instance coded_crypto.
#[local] Existing Instance coded_addresses.
#[local] Existing Instance demo_codec.
#[local] Existing Instance demo_statics.
#[local] Existing Instance fork_crypto.
#[local] Existing Instance no_checkpoints.
#[local] Existing Instance no_games.

(** The id of a transaction has its expiration and its digest. *)
Definition coded_tx : TxCrypto := {|
  trx_id := fun t => Z.pos (encode (tx_expiration t, tx_expiration t * 1000 + Z.of_nat (length (tx_operations t))));
  trx_digest := fun t chain => tx_expiration t * 1000 + Z.of_nat (length (tx_operations t)) + 1000000000 * chain;
  recover_key := fun sig digest canonical => Ok sig |}.
#[local] Existing Instance coded_tx.

Instance coded_ids : TrxIds.
Proof.
  unfold TrxIds. intros t t' H. unfold trx_id, coded_tx in H. injection H as H. apply (inj encode) in H. injection H as H1 H2.
  unfold unique_key, trx_digest, coded_tx. by rewrite !H2, !H1.
Qed.

Definition restart_sizes : Sizes := {| data_size := fun _ => 100; empty_block_size := 60 |}.
#[local] Existing Instance restart_sizes.

(** The owner of the first balance, whose key is 1, pays the owner of the
    third. *)
Definition founder_payment (amount expiration : Z) : signed_transaction := {|
  tx_expiration := expiration;
  tx_operations := [ op_withdraw {| wd_balance_id := condition_address (mk_condition 0 0 (withdraw_with_signature 2 None));
                                    wd_amount := amount |};
                     op_deposit {| dp_amount := amount; dp_condition := mk_condition 0 0 (withdraw_with_signature 4 None) |} ];
  tx_signatures := [1] |}.
Definition founder_node : node :=
  ok_or (unborn_node 100005 0) (initialize_genesis (demo_genesis merging) 77 true (unborn_node 100005 0)).
Definition founder_block : full_block := {|
  fb_header := {| bh_previous := 0; bh_block_num := 1; bh_timestamp := 100000;
                  bh_transaction_digest := trx_id (founder_payment 10 100600);
                  bh_next_secret_hash := 1; bh_previous_secret := 0 |};
  fb_delegate_signature := 101 + (10000 mod 101); fb_user_transactions := [ founder_payment 10 100600 ] |}.
Definition founder_history : list event :=
  [ block_arrives founder_block; transaction_arrives (founder_payment 20 100700) false; process_restarts ].
Definition stopped_node : node := history founder_history founder_node.

Lemma reopen_restores_witness :
  same_node stopped_node (fst (reopen stopped_node))
  /\ elements (db_unique_transactions (nd_db stopped_node)) = [unique_key (founder_payment 10 100600)]
  /\ (map_to_list (nd_pending_trxs stopped_node)).*2 = [founder_payment 20 100700].
Proof.
  split; [ | vm_compute; split; reflexivity ].
  refine (proj2 (reopen_restores (demo_genesis merging) 77 true 100005 0 founder_node founder_history
    (fst (reopen stopped_node)) (snd (reopen stopped_node)) _ _ _ _ _ _ _ _)).
  - apply ok_or_is_ok. vm_compute. reflexivity.
  - vm_compute. reflexivity.
  - unfold games_conserve. discriminate.
  - unfold games_store. discriminate.
  - reflexivity.
  - apply Forall_singleton. by right.
  - apply (bool_decide_eq_true_1 _). vm_compute. reflexivity.
  - apply surjective_pairing.
Defined.
