(* ===== verification/MainChain.v ===== *)
(** The main chain of a node: the ids of its blocks from the first one to the
    head. The index of numbers and the flags of the fork database agree with
    it, and they stay so whatever blocks are pushed and however the forks are
    switched, unless a block could not be popped. *)

From stdpp Require Import relations.
From S2P Require Import Prelude StateMonad Asset Records ChainInterface Transaction PendingState ChainDatabase BlockOps Node ForkDb BlockProps.
From S2P Require Import ForkTree ForkStore NodeTree ForkSwitch ForkProps ChainMemory.

(** ** Lists of blocks, each on top of the one before *)

(** The blocks [l] lead from the genesis to [id] and are numbered from 1. *)
Inductive chain_of (B : gmap Z full_block) : Z -> list Z -> Prop :=
| chain_nil : chain_of B 0 []
| chain_snoc id b l : B !! id = Some b -> id <> 0 -> num_of b = Z.of_nat (length l) + 1 -> chain_of B (prev_of b) l ->
    chain_of B id (l ++ [id]).

Section chains.
Context (B : gmap Z full_block).

(** The last block of a chain. *)
Lemma chain_of_last id l : chain_of B id l -> id = default 0 (list.last l).
Proof. intros [|id' b l' _ _ _ _]; [ done | by rewrite last_snoc ]. Qed.

Lemma chain_of_nil l : chain_of B 0 l -> l = [].
Proof. intros H. inversion H as [|id b l' _ Hne]; [ done | by destruct Hne ]. Qed.

Lemma chain_of_inv id l : chain_of B id l -> id <> 0 ->
  exists b l', l = l' ++ [id] /\ B !! id = Some b /\ num_of b = Z.of_nat (length l') + 1 /\ chain_of B (prev_of b) l'.
Proof. intros H Hne. inversion H as [|id' b l' Hb _ Hn H']; subst; [ done | ]. eauto 6. Qed.

Lemma chain_of_fun id l l' : chain_of B id l -> chain_of B id l' -> l = l'.
Proof.
  intros H. revert l'. induction H as [|id b l Hb Hne Hn H IH]; intros l' H'; [ by apply chain_of_nil in H' | ].
  apply chain_of_inv in H' as (b' & l2 & -> & Hb' & _ & H2); [ | done ]. simplify_eq. by rewrite (IH l2).
Qed.

Lemma chain_of_mono (B' : gmap Z full_block) id l : (forall x b, B !! x = Some b -> B' !! x = Some b) ->
  chain_of B id l -> chain_of B' id l.
Proof. intros HB. induction 1 as [|id b l Hb Hne Hn _ IH]; [ constructor | ]. apply (chain_snoc _ _ b); auto. Qed.

(** A block of a chain: its number is its place, the chain up to it is its
    own. *)
Lemma chain_of_lookup id l i x : chain_of B id l -> l !! i = Some x ->
  exists b, B !! x = Some b /\ x <> 0 /\ num_of b = Z.of_nat i + 1 /\ chain_of B x (take (S i) l).
Proof.
  intros H. revert i x. induction H as [|id b l Hb Hne Hn H IH]; intros i x Hi; [ done | ].
  pose proof (lookup_lt_Some _ _ _ Hi) as Hlt. rewrite length_app in Hlt. cbn in Hlt.
  destruct (decide (i = length l)) as [->|Hil].
  - rewrite lookup_app_r, Nat.sub_diag in Hi by lia. injection Hi as <-. exists b. split_and!; [ done.. | ].
    rewrite take_ge by (rewrite length_app; simpl; lia). by apply (chain_snoc _ _ b).
  - rewrite lookup_app_l in Hi by lia. destruct (IH i x Hi) as (bx & ? & ? & ? & ?). exists bx. split_and!; [ done.. | ].
    by rewrite take_app_le by lia.
Qed.

Lemma chain_of_elem id l x : chain_of B id l -> x ∈ l -> exists b, B !! x = Some b /\ x <> 0 /\ l !! Z.to_nat (num_of b - 1) = Some x.
Proof.
  intros H [i Hi]%list_elem_of_lookup. destruct (chain_of_lookup _ _ _ _ H Hi) as (b & Hb & Hne & Hn & _).
  exists b. split_and!; [ done.. | ]. rewrite Hn. by replace (Z.to_nat (Z.of_nat i + 1 - 1)) with i by lia.
Qed.

(** No block is there twice. *)
Lemma chain_of_place id l i j x : chain_of B id l -> l !! i = Some x -> l !! j = Some x -> i = j.
Proof.
  intros H Hi Hj. destruct (chain_of_lookup _ _ _ _ H Hi) as (b & Hb & _ & Hn & _).
  destruct (chain_of_lookup _ _ _ _ H Hj) as (b' & Hb' & _ & Hn' & _). simplify_eq. lia.
Qed.
End chains.

(** ** The main chain *)

Record main_chain (n : node) (l : list Z) : Prop := {
  mc_chain : chain_of (nd_blocks n) (nd_head_id n) l;
  mc_numbers : forall k id, nd_num_to_id n !! k = Some id <-> 1 <= k /\ l !! Z.to_nat (k - 1) = Some id;
  mc_included : forall id, is_included_block id n = true <-> id = 0 \/ id ∈ l }.

(** What the main chain depends on. *)
Record chain_stays (n n' : node) : Prop := {
  cs_included : forall id, is_included_block id n' = is_included_block id n;
  cs_numbers : nd_num_to_id n' = nd_num_to_id n;
  cs_head : nd_head_id n' = nd_head_id n;
  cs_blocks : forall id b, nd_blocks n !! id = Some b -> nd_blocks n' !! id = Some b }.

Lemma chain_stays_refl n : chain_stays n n.
Proof. by split. Qed.

Lemma chain_stays_trans n1 n2 n3 : chain_stays n1 n2 -> chain_stays n2 n3 -> chain_stays n1 n3.
Proof. intros [A1 A2 A3 A4] [B1 B2 B3 B4]. split; [ intros; by rewrite B1 | congruence | congruence | auto ]. Qed.

Lemma main_chain_stays n n' l : chain_stays n n' -> main_chain n l -> main_chain n' l.
Proof.
  intros [A1 A2 A3 A4] [H1 H2 H3]. split.
  - rewrite A3. by eapply chain_of_mono.
  - intros k id. by rewrite A2.
  - intros id. by rewrite A1.
Qed.

(** Another record of a block with the same flag. *)
Lemma stays_record n id d d' : nd_fork n !! id = Some d -> fd_is_included d' = fd_is_included d ->
  chain_stays n (set_nd_fork (<[id := d']> (nd_fork n)) n).
Proof.
  intros Hd E. split; try done. intros x. unfold is_included_block, get_block_fork_data. cbn.
  destruct (decide (x = id)) as [->|Hne]; [ by rewrite lookup_insert_eq, Hd | by rewrite lookup_insert_ne ].
Qed.

Section marks.
Context (n0 : node).

Lemma keeps_changed {A} (change : block_fork_data -> block_fork_data) id (k : block_fork_data -> node_m A) :
  (forall d, fd_is_included (change d) = fd_is_included d) -> (forall d, keeps (chain_stays n0) (k d)) ->
  keeps (chain_stays n0) (d <~ nread (fork_fetch id) ;; _ <~ fork_store id (change d) ;; k d).
Proof.
  intros Hc Hk n n' r H Hn. apply nread_inv in H as [(d & E & H)|(e & _ & -> & _)]; [ | done ].
  unfold fork_fetch in E. destruct (nd_fork n !! id) as [d0|] eqn:Ed; [ | done ]. cbn in E. apply Ok_inj in E as <-.
  unfold nbind, fork_store, nwrite in H. eapply Hk; [ exact H | ]. eapply chain_stays_trans; [ done | ]. by eapply stays_record.
Qed.

Lemma mark_generations_stays {A} change (visit : Z -> block_fork_data -> A -> node_m A) fuel ids a :
  (forall d, fd_is_included (change d) = fd_is_included d) -> (forall id d a, keeps (chain_stays n0) (visit id d a)) ->
  keeps (chain_stays n0) (mark_generations change visit fuel ids a).
Proof.
  intros Hc Hv. revert ids a. induction fuel as [|fuel IH]; intros ids a; cbn [mark_generations]; case_bool_decide; auto with keeps.
  apply keeps_bind; [ | intros; apply IH ]. apply keeps_fold. intros id [pend a1]. unfold mark_one.
  apply (keeps_changed change id (fun d => a <~ visit id (change d) a1 ;; nret (pend ∪ fd_next_blocks (change d), a))); [ done | ].
  intros d. apply keeps_bind; auto with keeps.
Qed.

Lemma mark_invalid_stays id reason : keeps (chain_stays n0) (mark_invalid id reason).
Proof.
  unfold mark_invalid. apply (keeps_changed (set_fd_valid (Some false) (Some reason))); [ done | ]. intros d.
  unfold recursive_mark_as_invalid, mark_descendants. intros n n' r.
  by apply (mark_generations_stays _ (fun _ _ a => nret a) (S (size (nd_fork n))) (fd_next_blocks d) tt); [ | intros; apply keeps_ret ].
Qed.
End marks.

(** ** Extending and popping *)

(** A block number of 32 bits; the first block follows the genesis. *)
Definition well_numbered (b : full_block) : Prop := numbered_from_genesis b /\ num_of b < two32.
Definition all_numbered (B : gmap Z full_block) : Prop := forall id b, B !! id = Some b -> well_numbered b.

Section changing.
Context `{FcI : Fc} `{Cr : Crypto} `{Tx : TxCrypto} `{St : Statics} `{BC : BlockCrypto} `{Cp : Checkpoints} `{Gm : Games}.
Context (rank : Z -> nat).

(** The number of the head is the length of the chain. *)
Lemma main_chain_length n l : node_tree n -> main_chain n l -> bh_block_num (nd_head_header n) = Z.of_nat (length l).
Proof.
  intros T M. pose proof (mc_chain _ _ M) as H. destruct (decide (nd_head_id n = 0)) as [E|Hne].
  - rewrite E in H. apply chain_of_nil in H as ->. destruct (nt_head _ T) as [[_ ->]|(b & Hb & _)]; [ done | ].
    rewrite E in Hb. destruct (ft_root _ _ _ (nt_fork _ T)) as [H0 _]. congruence.
  - destruct (chain_of_inv _ _ _ H Hne) as (b & l' & -> & Hb & Hn & _). rewrite (head_header _ _ T Hb), length_app.
    fold (num_of b). simpl. lia.
Qed.

Lemma head_length n l : node_tree n -> main_chain n l -> db_head_num (nd_db n) = Z.of_nat (length l).
Proof. intros T M. rewrite (nt_head_num _ T). by apply main_chain_length. Qed.

Lemma main_chain_range n l : node_tree n -> main_chain n l -> all_numbered (nd_blocks n) -> Z.of_nat (length l) < two32.
Proof.
  intros T M W. rewrite <- (main_chain_length _ _ T M). destruct (nt_head _ T) as [[_ ->]|(b & Hb & ->)]; [ done | ].
  by destruct (W _ _ Hb).
Qed.

(** The number of a block that the chain accepts. *)
Lemma evaluated_number n l b p : node_tree n -> main_chain n l -> all_numbered (nd_blocks n) -> numbered_from_genesis b ->
  prev_of b = nd_head_id n -> evaluate_block b n = Ok p -> num_of b = Z.of_nat (length l) + 1.
Proof.
  intros T M W Hn Hp [signee H]%evaluated_header. apply verify_header_iff in H as (Hseq & _). fold (num_of b) in Hseq.
  rewrite (head_length _ _ T M) in Hseq. pose proof (main_chain_range _ _ T M W) as Hr. destruct Hn as [H1|[-> H0]].
  - destruct (Hseq H1) as [E _]. unfold uwrap32 in E. destruct (decide (Z.of_nat (length l) + 1 < two32)) as [?|Hge].
    + by rewrite Z.mod_small in E by lia.
    + assert (Z.of_nat (length l) + 1 = two32) as X by lia. rewrite X, Z_mod_same_full in E. lia.
  - pose proof (mc_chain _ _ M) as Hc. rewrite <- Hp, H0 in Hc. by apply chain_of_nil in Hc as ->.
Qed.

Lemma extended_index n id b l : main_chain n l -> num_of b = Z.of_nat (length l) + 1 ->
  forall k x, <[num_of b := id]> (nd_num_to_id n) !! k = Some x <-> 1 <= k /\ (l ++ [id]) !! Z.to_nat (k - 1) = Some x.
Proof.
  intros M Hn k x. destruct (decide (k = num_of b)) as [->|Hne].
  - rewrite lookup_insert_eq, lookup_app_r by lia. replace (Z.to_nat (num_of b - 1) - length l)%nat with 0%nat by lia.
    cbn. split; [ intros [= ->]; split; [ lia | done ] | intros [_ [= ->]]; done ].
  - rewrite lookup_insert_ne, (mc_numbers _ _ M) by done. split; intros [H1 H2]; (split; [ done | ]).
    + by apply lookup_app_l_Some.
    + apply lookup_app_Some in H2 as [H2|[Hge H2]]; [ done | ]. apply list_lookup_singleton_Some in H2 as [E _]. lia.
Qed.

(** A block above the head, applied or not. *)
Lemma extend_chain_main id b d n n' r l :
  node_tree n -> main_chain n l -> all_numbered (nd_blocks n) -> nd_blocks n !! id = Some b -> prev_of b = nd_head_id n ->
  nd_fork n !! id = Some d -> extend_chain b n = (n', r) -> exists l', main_chain n' l'.
Proof.
  intros T M W Hb Hp Hd H. unfold extend_chain in H. rewrite (nt_ids _ T _ _ Hb) in H. unfold ncatch, nbind at 1 in H.
  destruct (apply_block id b n) as [n1 r1] eqn:E1.
  assert (Eid : full_block_id b = id) by by apply (nt_ids _ T).
  assert (E1' := E1). rewrite <- Eid in E1' at 1. apply (apply_block_chain _ d) in E1'; [ | by rewrite Eid ].
  destruct (apply_block_run _ _ _ _ _ _ Hd E1) as [(-> & Q1 & Q2 & Q3 & Q4 & Q5 & Q6)|[[e ->] Q]].
  - destruct E1' as [(_ & p & db & Ep & _ & _ & _ & _ & Qn & _)|[[e ?] _]]; [ | done ].
    pose proof (evaluated_number _ _ _ _ T M W (proj1 (W _ _ Hb)) Hp Ep) as Hn.
    unfold purge_unique, nwrite in H. apply pair_equal_spec in H as [<- _]. exists (l ++ [id]). split; cbn.
    + rewrite Q1, Q4. apply (chain_snoc _ _ b); [ done | by apply (known_nonzero n); eauto | done | rewrite Hp; apply M ].
    + rewrite Qn, Eid. by apply (extended_index n id b).
    + intros x. unfold is_included_block, get_block_fork_data. cbn. rewrite Q2, elem_of_app, list_elem_of_singleton.
      destruct (decide (x = id)) as [->|Hne]; [ rewrite lookup_insert_eq; cbn; tauto | rewrite lookup_insert_ne by done ].
      pose proof (mc_included _ _ M x) as HI. unfold is_included_block, get_block_fork_data in HI. rewrite HI. tauto.
  - destruct E1' as [(? & _)|[_ (_ & _ & _ & Qn & _ & _)]]; [ done | ]. destruct Q as [Q1 Q2 Q3 Q4 Q5 Q6].
    assert (M1 : main_chain n1 l).
    { apply (main_chain_stays n); [ | done ]. split; [ | done.. | by rewrite Q1 ].
      intros x. unfold is_included_block, get_block_fork_data. by rewrite Q2. }
    exists l. destruct (decide (e = undefined_behaviour)) as [->|Hne]; [ by simplify_eq | ].
    destruct (mark_invalid id e n1) as [n2 r2] eqn:E2.
    assert (n' = n2) as -> by (destruct e; try done; unfold nbind, nthrow in H; rewrite E2 in H; by destruct r2 as [[]|?]; simplify_eq).
    apply (main_chain_stays n1); [ | done ]. apply (mark_invalid_stays n1 _ _ _ _ _ E2), chain_stays_refl.
Qed.

(** The head without its flag, and the chain below it. *)
Lemma unincluded_main n b d db h l : node_tree n -> main_chain n (l ++ [nd_head_id n]) -> nd_blocks n !! nd_head_id n = Some b ->
  nd_fork n !! nd_head_id n = Some d -> num_of b = Z.of_nat (length l) + 1 -> chain_of (nd_blocks n) (prev_of b) l ->
  main_chain (popped d db h n) l.
Proof.
  intros T M Hb Hd Hn Hl. pose proof (head_header _ _ T Hb) as Eh. split; cbn [popped unincluded nd_blocks nd_head_id nd_num_to_id set_nd_db set_nd_head set_nd_fork set_nd_num_to_id].
  - rewrite Eh. exact Hl.
  - intros k x. rewrite Eh. fold (num_of b). destruct (decide (k = num_of b)) as [->|Hne].
    + rewrite lookup_delete_eq. split; [ done | ]. intros [_ H]. rewrite Hn in H.
      apply lookup_lt_Some in H. lia.
    + rewrite lookup_delete_ne, (mc_numbers _ _ M) by done. split; intros [H1 H2]; (split; [ done | ]); [ | by apply lookup_app_l_Some ].
      apply lookup_app_Some in H2 as [H2|[Hge H2]]; [ done | ]. apply list_lookup_singleton_Some in H2 as [E _]. lia.
  - intros x. unfold is_included_block, get_block_fork_data. cbn.
    pose proof (mc_included _ _ M x) as HI. unfold is_included_block, get_block_fork_data in HI.
    rewrite elem_of_app, list_elem_of_singleton in HI. destruct (decide (x = nd_head_id n)) as [->|Hne].
    + rewrite lookup_insert_eq. split; [ done | ]. intros [H0|[i Hi]%list_elem_of_lookup].
      * destruct (ft_root _ _ _ (nt_fork _ T)) as [Hr _]. rewrite H0 in Hb. congruence.
      * exfalso. pose proof (mc_chain _ _ M) as Hc.
        assert (i = length l) as ->; [ | by apply lookup_lt_Some in Hi; lia ].
        apply (chain_of_place _ _ _ _ _ _ Hc (lookup_app_l_Some _ [nd_head_id n] _ _ Hi)). by rewrite lookup_app_r, Nat.sub_diag by lia.
    + rewrite lookup_insert_ne by done. tauto.
Qed.

Lemma pop_block_main n b n' r l : node_tree n -> ranked rank (nd_blocks n) -> main_chain n l -> nd_blocks n !! nd_head_id n = Some b ->
  pop_block n = (n', r) -> match r with Ok _ => exists l', main_chain n' l' | Throw _ => stuck n' end.
Proof.
  intros T R M Hb H. assert (H0 : nd_head_id n <> 0) by (apply (known_nonzero n); eauto).
  destruct (chain_of_inv _ _ _ (mc_chain _ _ M) H0) as (b' & l' & -> & Hb' & Hn & Hl). simplify_eq.
  destruct (pop_block_spec rank n b T R Hb) as (n1 & r1 & E1 & _ & _ & Hr); [ lia | ]. rewrite E1 in H. simplify_eq.
  destruct r as [[]|e]; [ | by destruct Hr ]. exists l'.
  destruct (nt_head_valid _ T) as (d & Hd & _). pose proof (head_header _ _ T Hb) as Eh.
  set (hr := if bh_previous (nd_head_header n) =? 0 then Ok header_default else get_block_header (bh_previous (nd_head_header n)) n).
  destruct hr as [h|e] eqn:Eq; subst hr.
  - rewrite (pop_block_run n d h Hd) in E1; [ | rewrite Eh; fold (num_of b); lia | done ].
    destruct (undone n) as [db|e]; [ | done ]. apply pair_equal_spec in E1 as [<- _]. by apply (unincluded_main _ b).
  - exfalso. destruct (Z.eqb_spec (bh_previous (nd_head_header n)) 0) as [?|Hne]; [ done | ].
    rewrite Eh in Eq, Hne. fold (prev_of b) in Eq, Hne. destruct (chain_of_inv _ _ _ Hl Hne) as (bp & _ & _ & Hbp & _).
    unfold get_block_header, get_block in Eq. by rewrite Hbp in Eq.
Qed.

Lemma pop_until_main fuel target n n' r l : node_tree n -> ranked rank (nd_blocks n) -> main_chain n l ->
  rtc (parent (nd_blocks n)) (nd_head_id n) target -> pop_until fuel target n = (n', r) ->
  (exists l', main_chain n' l') \/ (exists e, r = Throw e) /\ stuck n'.
Proof.
  revert n l. induction fuel as [|fuel IH]; intros n l T R M Ha H; cbn [pop_until] in H;
    destruct (Z.eqb_spec (nd_head_id n) target) as [E|Hne]; simplify_eq; [ eauto.. | ].
  inversion Ha as [x E1 E2|x p y (b & Hb & Ep) Hpa E1 E2]; subst; [ done | ].
  assert (Hnum : num_of b <> 0).
  { destruct (chain_of_inv _ _ _ (mc_chain _ _ M)) as (b' & l' & _ & Hb' & Hn & _); [ apply (known_nonzero n); eauto | ]. simplify_eq. lia. }
  destruct (pop_block_spec rank n b T R Hb Hnum) as (n1 & r1 & Epop & T1 & G1 & Hr1).
  pose proof (pop_block_main n b n1 r1 l T R M Hb Epop) as Hm. destruct r1 as [[]|e].
  - destruct Hm as [l1 M1]. rewrite (nbind_ok _ _ _ _ _ Epop) in H. destruct Hr1 as (Eh & _). pose proof (gr_blocks _ _ G1) as EB.
    apply (IH n1 l1); rewrite ?EB, ?Eh; done.
  - rewrite (nbind_throw _ _ _ _ _ Epop) in H. simplify_eq. eauto.
Qed.

(** ** Switching forks *)

Lemma all_numbered_same n n' : nd_blocks n' = nd_blocks n -> all_numbered (nd_blocks n) -> all_numbered (nd_blocks n').
Proof. by intros ->. Qed.

Lemma extend_path_main n id l target : fork_path n id l target -> node_tree n -> ranked rank (nd_blocks n) -> all_numbered (nd_blocks n) ->
  forall m d m' r c, node_tree m -> grown n m -> kept n m -> main_chain m c -> nd_head_id m = target ->
  nd_fork n !! id = Some d -> can_link d = true -> nfold extend_id (rev (id :: l)) tt m = (m', r) -> exists c', main_chain m' c'.
Proof.
  intros P T R W. induction P as [id b dp Hb Hdp _|id b l target Hb Hne P IH]; intros m d m' r c Tm G K M Hh Hd Hc H;
    destruct (K _ _ Hd Hc) as (dm & Hdm & Hcm); pose proof (gr_blocks _ _ G) as EB; pose proof (all_numbered_same _ _ EB W) as Wm.
  - cbn [rev app nfold] in H. assert (H' : extend_chain b m = (m', r)).
    { rewrite <- H. unfold nbind. rewrite (extend_id_run id b) by (by rewrite EB). by destruct (extend_chain b m) as [? [[]|?]]. }
    apply (extend_chain_main id b dm m m' r c); rewrite ?EB; done.
  - destruct (parent_facts _ _ _ _ T Hb Hd) as (dp & Hdp & Hk). pose proof (link_ok_can_link _ _ Hk Hc) as Hcp.
    change (rev (id :: prev_of b :: l)) with (rev (prev_of b :: l) ++ [id]) in H. rewrite nfold_app in H.
    apply nbind_inv in H as [(m1 & [] & E1 & H)|(e & E1 & ->)];
      destruct (IH m dp _ _ c Tm G K M Hh Hdp Hcp E1) as [c1 M1]; [ | eauto ].
    destruct (extend_path rank n _ l target P T R m dp _ _ Tm G K Hh Hdp Hcp E1) as (T1 & G1 & Hh1 & K1).
    destruct (K1 _ _ Hdm Hcm) as (dm1 & Hdm1 & Hcm1). pose proof (gr_blocks _ _ G1) as EB1.
    assert (H' : extend_chain b m1 = (m', r)).
    { rewrite <- H. cbn [nfold]. unfold nbind. rewrite (extend_id_run id b) by (by rewrite EB1, EB).
      by destruct (extend_chain b m1) as [? [[]|?]]. }
    apply (extend_chain_main id b dm1 m1 m' r c1); rewrite ?EB1, ?EB; done.
Qed.

Lemma switch_to_fork_main n id d n' r l : node_tree n -> ranked rank (nd_blocks n) -> all_numbered (nd_blocks n) -> main_chain n l ->
  nd_fork n !! id = Some d -> can_link d = true -> id <> 0 -> switch_to_fork id n = (n', r) ->
  (exists l', main_chain n' l') \/ stuck n'.
Proof.
  intros T R W M Hd Hc H0 H. unfold switch_to_fork in H. destruct (Z.eqb_spec id (nd_head_id n)) as [->|Hne].
  { simplify_eq. eauto. }
  destruct (get_fork_history_spec rank n id d T R Hd Hc H0) as (p & t & E & P & Ha).
  unfold nbind at 1, nread in H. rewrite E in H. unfold nbind at 1 in H.
  rewrite app_comm_cons, last_snoc in H. cbn [from_option_or] in H.
  rewrite rev_app_distr in H. cbn [rev app tail] in H. apply nbind_inv in H as [(n1 & [] & E1 & H)|(e & E1 & ->)].
  - destruct (pop_until_spec rank _ _ _ _ _ T R Ha E1) as (T1 & G1 & Hh1 & K1).
    destruct (pop_until_main _ _ _ _ _ _ T R M Ha E1) as [[l1 M1]|[[e ?] _]]; [ | done ].
    left. by apply (extend_path_main n id p t P T R W n1 d n' r l1).
  - destruct (pop_until_main _ _ _ _ _ _ T R M Ha E1) as [?|[_ ?]]; tauto.
Qed.

(** ** Pushing *)

(** The node has a main chain, unless its head could not be popped. *)
Definition chain_ok (n : node) : Prop := (exists l, main_chain n l) \/ stuck n.

Lemma chain_ok_stays n n' : chain_stays n n' -> nd_head_header n' = nd_head_header n -> nd_undo n' = nd_undo n -> nd_db n' = nd_db n ->
  (stuck n -> is_Some (nd_fork n' !! nd_head_id n)) -> chain_ok n -> chain_ok n'.
Proof.
  intros S E1 E2 E3 Hf [[l M]|Hs]; [ left; exists l; by apply (main_chain_stays n) | right ].
  destruct (Hf Hs) as [d' Hd']. destruct Hs as (H0 & Hnum & (d & Hd & Hi) & Hu). pose proof (cs_head _ _ S) as Eh.
  unfold stuck. rewrite Eh, E1, E2, E3. split_and!; try done. exists d'. split; [ done | ].
  pose proof (cs_included _ _ S (nd_head_id n)) as EI. unfold is_included_block, get_block_fork_data in EI. rewrite Hd, Hd' in EI. congruence.
Qed.

Lemma tried_main pushed id d n n' r : node_tree n -> ranked rank (nd_blocks n) -> all_numbered (nd_blocks n) -> chain_ok n ->
  nd_fork n !! id = Some d -> can_link d = true -> id <> 0 -> tried pushed id n = (n', r) -> chain_ok n'.
Proof.
  intros T R W C Hd Hc H0 H. unfold tried, ncatch, nbind at 1 in H. destruct (switch_to_fork id n) as [n1 r1] eqn:E.
  assert (C1 : chain_ok n1).
  { destruct C as [[l M]|Hs]; [ exact (switch_to_fork_main _ _ _ _ _ _ T R W M Hd Hc H0 E) | right ].
    exact (proj1 (switch_to_fork_stuck rank _ _ _ _ _ T R Hd Hc H0 Hs E)). }
  destruct r1 as [[]|e]; [ unfold nret in H; by simplify_eq | ].
  assert (n' = n1 \/ exists f, n' = set_nd_future f n1) as [->|[f ->]]
    by (unfold nbind, nwrite, nret in H; destruct e; simplify_eq; eauto).
  - done.
  - apply (chain_ok_stays n1); try done. by intros (_ & _ & (d' & Hd' & _) & _).
Qed.

Lemma try_forks_main pushed ids n n' r : node_tree n -> ranked rank (nd_blocks n) -> all_numbered (nd_blocks n) -> chain_ok n ->
  all_known n ids -> try_forks pushed ids n = (n', r) -> chain_ok n'.
Proof.
  revert n. induction ids as [|id ids IH]; intros n T R W C Hk H; [ unfold try_forks, nret in H; by simplify_eq | ].
  cbn [try_forks] in H. fold (tried pushed id) in H.
  destruct (Hk id ltac:(by left)) as [b Hb]. destruct (ft_known _ _ _ (nt_fork _ T) _ _ Hb) as (d & _ & Hd & _).
  assert (H0 : id <> 0) by (apply (known_nonzero n); eauto).
  assert (Hk' : all_known n ids) by (intros x Hx; apply Hk; by right).
  unfold nbind at 1, nread, fork_fetch in H. rewrite Hd in H. cbn [from_option_or] in H.
  destruct (can_link d) eqn:Hc; [ | by apply (IH n) ].
  apply nbind_inv in H as [(n1 & sw & E & H)|(e & E & ->)];
    pose proof (tried_main pushed id d n _ _ T R W C Hd Hc H0 E) as C1; [ | done ].
  destruct (tried_spec rank pushed id d n _ _ T R Hd Hc H0 E) as (T1 & G1 & _). pose proof (gr_blocks _ _ G1) as EB.
  destruct sw; [ unfold nret in H; by simplify_eq | ].
  apply (IH n1); rewrite ?EB; try done. intros x Hx. rewrite EB. by apply Hk'.
Qed.

Lemma try_heights_main pushed k n n' r : node_tree n -> ranked rank (nd_blocks n) -> all_numbered (nd_blocks n) -> chain_ok n ->
  try_heights pushed k n = (n', r) -> chain_ok n'.
Proof.
  revert n. induction k as [|k IH]; intros n T R W C H; cbn [try_heights] in H; [ unfold nret in H; by simplify_eq | ].
  set (ids := fetch_blocks_at_number (Z.of_nat (Datatypes.S k)) n) in H.
  assert (Hk : all_known n ids) by (intros x Hx; apply (nt_at_number _ T) in Hx as (b & Hb & _); eauto).
  apply nbind_inv in H as [(n1 & done_ & E & H)|(e & E & ->)]; pose proof (try_forks_main pushed ids n _ _ T R W C Hk E) as C1; [ | done ].
  destruct (try_forks_spec rank pushed ids n _ _ T R Hk E) as (T1 & G1 & _). pose proof (gr_blocks _ _ G1) as EB.
  destruct done_; [ unfold nret in H; by simplify_eq | ]. apply (IH n1); by rewrite ?EB.
Qed.

Lemma choose_fork_main id head_num longest n n' r : node_tree n -> ranked rank (nd_blocks n) -> all_numbered (nd_blocks n) -> chain_ok n ->
  choose_fork id head_num longest n = (n', r) -> chain_ok n'.
Proof.
  intros T R W C H. unfold choose_fork in H.
  apply nbind_inv in H as [(n1 & [] & E & H)|(e & E & ->)]; [ unfold fork_data_of, nread in H; apply pair_equal_spec in H as [<- _] | ].
  all: destruct (can_link longest.2); [ | unfold nret in E; by simplify_eq ].
  all: apply nread_inv in E as [(bl & _ & E)|(e2 & _ & -> & _)]; [ | done ].
  all: cbv zeta in E; destruct (head_num <? _); [ | unfold nret in E; by simplify_eq ].
  all: by apply (try_heights_main _ _ _ _ _ T R W C) in E.
Qed.

(** Storing a block that is new. *)
Lemma stored_chain_ok n b F' longest : node_tree n -> chain_ok n -> nd_blocks n !! full_block_id b = None ->
  stored (nd_blocks n) (nd_fork n) (full_block_id b) b F' longest -> chain_ok (set_nd_fork F' (stored_node (full_block_id b) b n)).
Proof.
  intros T C Hnew S. apply (chain_ok_stays n); try done.
  - split; try done.
    + intros x. unfold is_included_block, get_block_fork_data. cbn.
      destruct (nd_fork n !! x) as [d|] eqn:Ed.
      * destruct (st_old _ _ _ _ _ _ S x d Ed) as (d' & -> & E & _). exact E.
      * destruct (F' !! x) as [d'|] eqn:Ed'; [ | done ]. destruct (fd_is_included d') eqn:Ei; [ | done ].
        destruct (st_included _ _ _ _ _ _ S x d' Ed' Ei) as (d & ? & _). congruence.
    + intros x bx Hx. cbn. rewrite lookup_insert_ne by congruence. exact Hx.
  - intros (_ & _ & (d & Hd & _) & _). cbn. destruct (st_old _ _ _ _ _ _ S _ _ Hd) as (d' & -> & _). eauto.
Qed.

Lemma push_block_main b n n' r : node_tree n -> ranked rank (<[full_block_id b := b]> (nd_blocks n)) -> full_block_id b <> 0 ->
  all_numbered (nd_blocks n) -> well_numbered b -> chain_ok n -> push_block b n = (n', r) -> chain_ok n'.
Proof.
  intros T R H0 W Wb C H. destruct (push_block_run _ _ _ _ _ T R H0 H) as [->|(Hnew & F' & longest & Hs & E)]; [ done | ].
  pose proof (stored_node_tree (number_rank ∅) _ _ _ _ T Hnew H0 Hs) as T1.
  apply (choose_fork_main _ _ _ _ _ _ T1 R) in E; [ done | | by apply (stored_chain_ok _ _ _ longest) ].
  intros x bx Hx. cbn in Hx. destruct (decide (x = full_block_id b)) as [->|Hne];
    [ rewrite lookup_insert_eq in Hx; by simplify_eq | rewrite lookup_insert_ne in Hx by done; by apply (W x) ].
Qed.

Lemma reached_chain_ok n bs n' : reaches n bs n' -> node_tree n -> ranked rank (nd_blocks n) -> all_numbered (nd_blocks n) -> chain_ok n ->
  Forall (fun b => full_block_id b <> 0 /\ (rank (prev_of b) < rank (full_block_id b))%nat /\ well_numbered b) bs ->
  node_tree n' /\ all_numbered (nd_blocks n') /\ chain_ok n'.
Proof.
  induction 1 as [n|n b n1 r bs n2 E _ IH]; intros T R W C Hbs; [ done | ]. apply Forall_cons in Hbs as [(H0 & Hr & Wb) Hbs].
  assert (Hins : forall (P : Z -> full_block -> Prop), (forall x bx, nd_blocks n !! x = Some bx -> P x bx) -> P (full_block_id b) b ->
    forall x bx, <[full_block_id b := b]> (nd_blocks n) !! x = Some bx -> P x bx).
  { intros P HP Hb x bx Hx. destruct (decide (x = full_block_id b)) as [->|Hne];
      [ rewrite lookup_insert_eq in Hx; by simplify_eq | rewrite lookup_insert_ne in Hx by done; auto ]. }
  assert (R1 : ranked rank (<[full_block_id b := b]> (nd_blocks n))) by exact (Hins (fun x bx => rank (prev_of bx) < rank x)%nat R Hr).
  pose proof (push_block_main _ _ _ _ T R1 H0 W Wb C E) as C1.
  destruct (push_block_tree _ _ _ _ _ T R1 H0 E) as [T1 [EB|EB]]; apply IH; rewrite ?EB; try done.
  exact (Hins (fun _ bx => well_numbered bx) W Wb).
Qed.

(** ** What the functions of the node read *)

Lemma chain_block_id n l i id : main_chain n l -> l !! i = Some id -> get_block_id (Z.of_nat i + 1) n = Ok id.
Proof.
  intros M Hi. unfold get_block_id. assert (E : nd_num_to_id n !! (Z.of_nat i + 1) = Some id); [ | by rewrite E ].
  apply (mc_numbers _ _ M). split; [ lia | ]. by replace (Z.to_nat (Z.of_nat i + 1 - 1)) with i by lia.
Qed.

Lemma chain_block_at n l i id : node_tree n -> main_chain n l -> l !! i = Some id -> exists b, get_block_at (Z.of_nat i + 1) n = Ok b
  /\ nd_blocks n !! id = Some b /\ full_block_id b = id /\ num_of b = Z.of_nat i + 1.
Proof.
  intros T M Hi. destruct (chain_of_lookup _ _ _ _ _ (mc_chain _ _ M) Hi) as (b & Hb & _ & Hn & _). exists b.
  unfold get_block_at. rewrite (chain_block_id _ _ _ _ M Hi). cbn [rbind]. unfold get_block. rewrite Hb. split_and!; try done.
  by apply (nt_ids _ T).
Qed.
End changing.

(** A node without blocks. *)
Lemma fresh_chain n : nd_head_id n = 0 -> nd_num_to_id n = ∅ -> (forall id, is_included_block id n = true <-> id = 0) ->
  main_chain n [].
Proof.
  intros E1 E2 E3. split; [ rewrite E1; constructor | | ].
  - intros k id. rewrite E2, lookup_empty. split; [ done | ]. by intros [_ ?].
  - intros id. rewrite E3, elem_of_nil. tauto.
Qed.

(** Deciding whether a list is the main chain. *)
Fixpoint chain_check (B : gmap Z full_block) (id : Z) (rev_l : list Z) : bool :=
  match rev_l with
  | [] => id =? 0
  | x :: rest =>
      (x =? id) && negb (id =? 0)
      && match B !! id with
         | Some b => (num_of b =? Z.of_nat (length rest) + 1) && chain_check B (prev_of b) rest
         | None => false
         end
  end.

Lemma chain_check_sound B id rev_l : chain_check B id rev_l = true -> chain_of B id (rev rev_l).
Proof.
  revert id. induction rev_l as [|x rest IH]; intros id H; cbn [chain_check] in H.
  - apply Z.eqb_eq in H as ->. constructor.
  - apply andb_true_iff in H as [[->%Z.eqb_eq H0%negb_true_iff%Z.eqb_neq]%andb_true_iff H].
    destruct (B !! id) as [b|] eqn:Eb; [ | done ]. apply andb_true_iff in H as [Hn%Z.eqb_eq H].
    cbn [rev]. apply (chain_snoc _ _ b); [ done.. | by rewrite length_rev | by apply IH ].
Qed.

Definition main_chain_check (n : node) (l : list Z) : bool :=
  chain_check (nd_blocks n) (nd_head_id n) (rev l)
  && bool_decide (nd_num_to_id n = list_to_map (imap (fun i x => (Z.of_nat i + 1, x)) l))
  && bool_decide (map_Forall (fun id d => fd_is_included d = bool_decide (id = 0 \/ id ∈ l)) (nd_fork n))
  && forallb (fun id => is_included_block id n) (0 :: l).

Lemma main_chain_check_sound n l : main_chain_check n l = true -> main_chain n l.
Proof.
  unfold main_chain_check. intros [[[H1 H2%bool_decide_eq_true]%andb_true_iff H3%bool_decide_eq_true]%andb_true_iff H4]%andb_true_iff. split.
  - apply chain_check_sound in H1. by rewrite rev_involutive in H1.
  - intros k id. rewrite H2. clear. rewrite <- elem_of_list_to_map.
    + rewrite list_elem_of_lookup. setoid_rewrite list_lookup_imap. split.
      * intros (i & (x & Hx & [= -> ->])%fmap_Some). split; [ lia | ]. by replace (Z.to_nat (Z.of_nat i + 1 - 1)) with i by lia.
      * intros [Hk Hi]. exists (Z.to_nat (k - 1)). rewrite Hi. cbn. f_equal. f_equal. lia.
    + rewrite fmap_imap. apply NoDup_alt. intros i j x. rewrite !list_lookup_imap.
      intros (y & _ & E)%fmap_Some (z & _ & E')%fmap_Some. cbn in E, E'. lia.
  - intros id. unfold is_included_block, get_block_fork_data. split.
    + destruct (nd_fork n !! id) as [d|] eqn:E; [ | done ]. rewrite (H3 _ _ E). apply bool_decide_eq_true_1.
    + intros H. rewrite forallb_forall in H4. apply (H4 id). destruct H as [->|H]; [ by left | right; by apply list_elem_of_In ].
Qed.
