(* ===== verification/Client.v ===== *)
(** The client between the chain and the network: the blocks and transactions
    it takes from the network, and what it tells peers of its chain
    (client.cpp, the [node_delegate] and [chain_client_delegate] parts of
    [client_impl]).

    Items are named by their type and id; the blocks of the chain are the items
    the peers synchronize. A synopsis of a chain is a list of ids, few of them
    old and more of them recent, from which a peer finds the last block the two
    chains share. [_debug_stop_before_block_num], progress messages and
    notices to the user have no effect here. *)

From S2P Require Import Prelude StateMonad Asset Records ChainInterface EvalState Tables PendingState ChainDatabase BlockOps Node ForkDb Pool.

(** ** Items and messages *)

Inductive item_type := trx_message_type | block_message_type | other_message_type.
#[export] Instance item_type_eq_dec : EqDecision item_type.
Proof. solve_decision. Defined.

Record item_id := mk_item { item_kind : item_type; item_hash : Z }.
#[export] Instance item_id_eq_dec : EqDecision item_id.
Proof. solve_decision. Defined.

(** A block travels with its id. *)
Record block_message := mk_block_message { bm_block : full_block; bm_block_id : Z }.
Definition block_message_of `{BlockCrypto} (b : full_block) : block_message := mk_block_message b (full_block_id b).

Inductive client_message :=
  | a_block (m : block_message)
  | a_trx (trx : signed_transaction)
  | another_message.

(** [(unsigned)log2( BTS_BLOCKCHAIN_BLOCKS_PER_YEAR * 20 )]. *)
Definition BLOCKS_PER_YEAR : Z := 3600 / BLOCK_INTERVAL_SEC * 24 * 365.
Definition blockchain_synopsis_size_limit : nat := Z.to_nat (Z.log2 (BLOCKS_PER_YEAR * 20)).

(** ** The chain as peers see it *)

(** [chain_database::get_block_num]. *)
Definition get_block_num (id : Z) (n : node) : result Z :=
  if id =? 0 then Ok 0 else b <- get_block id n ;; Ok (bh_block_num (fb_header b)).

(** The number of the first of the ids that is on the main chain. *)
Fixpoint last_seen_num (ids : list Z) (n : node) : result Z :=
  match ids with
  | [] => Ok 1
  | id :: ids =>
      match get_block_num id n with
      | Ok num => if is_included_block id n then Ok num else last_seen_num ids n
      | Throw key_not_found_exception => last_seen_num ids n
      | Throw e => Throw e
      end
  end.

(** The ids of [count] blocks of the main chain from a number on. *)
Fixpoint ids_from (count : nat) (num : Z) (n : node) : result (list Z) :=
  match count with
  | O => Ok []
  | S count => id <- get_block_id num n ;; ids <- ids_from count (uwrap32 (num + 1)) n ;; Ok (id :: ids)
  end.

(** The ids after the last block of the synopsis that is on the main chain,
    that block first, and how many more there are. Without the id of a number
    the reply is empty. *)
Definition get_item_ids (kind : item_type) (blockchain_synopsis : list Z) (limit : Z) (n : node) : result (list Z * Z) :=
  _ <- fc_assert (bool_decide (kind = block_message_type)) ;;
  _ <- throw_if fc_exception (Nat.ltb blockchain_synopsis_size_limit (length blockchain_synopsis)) ;;
  last_seen_block_num <- last_seen_num (rev blockchain_synopsis) n ;;
  let head_block_num := bh_block_num (nd_head_header n) in
  if head_block_num =? 0 then Ok ([], 0)
  else
    let last_seen_block_num := if head_block_num <? last_seen_block_num then head_block_num else last_seen_block_num in
    let remaining_item_count := uwrap32 (head_block_num - last_seen_block_num + 1) in
    let items_to_get := Z.min limit remaining_item_count in
    match ids_from (Z.to_nat items_to_get) last_seen_block_num n with
    | Ok hashes => Ok (hashes, remaining_item_count - items_to_get)
    | Throw key_not_found_exception => Ok ([], 0)
    | Throw e => Throw e
    end.

Section client.
Context `{FcI : Fc} `{Cr : Crypto} `{Tx : TxCrypto} `{St : Statics} `{Sz : Sizes} `{BC : BlockCrypto}.
Context `{Cp : Checkpoints} `{Gm : Games}.

(** The loop of [get_blockchain_synopsis]: blocks up to [non_fork_high] are on
    the main chain, those above it in [fork_history]. *)
Fixpoint synopsis_from (fuel : nat) (true_high high non_fork_high : Z) (fork_history : list Z) (low : Z) (n : node)
    : result (list Z) :=
  match fuel with
  | O => Throw undefined_behaviour
  | S fuel =>
      id <- (if low <=? non_fork_high then b <- get_block_at low n ;; Ok (full_block_id b)
             else from_option_or undefined_behaviour (fork_history !! Z.to_nat (low - non_fork_high - 1))) ;;
      let low := uwrap32 (low + uwrap32 (true_high - low + 2) / 2) in
      if low <=? high then ids <- synopsis_from fuel true_high high non_fork_high fork_history low n ;; Ok (id :: ids)
      else Ok [id]
  end.
(** More than the halvings of a 32-bit number. *)
Definition synopsis_fuel : nat := 64.

(** Where a synopsis up to a block takes its ids from: the number of the block,
    the number of the last block of the main chain below it, and the fork from
    there to the block. *)
Definition reference_chain (reference_point : Z) (n : node) : result (Z * Z * list Z) :=
  if is_included_block reference_point n then num <- get_block_num reference_point n ;; Ok (num, num, [])
  else
    history <- get_fork_history reference_point n ;;
    last_non_fork_block <- from_option_or undefined_behaviour (list.last history) ;;
    let fork_history := rev (removelast history) in
    non_fork_high <-
      (if last_non_fork_block =? 0 then Ok 0
       else match get_block_num last_non_fork_block n with Throw key_not_found_exception => Ok 0 | r => r end) ;;
    Ok (uwrap32 (non_fork_high + Z.of_nat (length fork_history)), non_fork_high, fork_history).

(** The id 0 asks for the whole chain. *)
Definition get_blockchain_synopsis (kind : item_type) (reference_point number_of_blocks_after : Z) (n : node) : result (list Z) :=
  _ <- fc_assert (bool_decide (kind = block_message_type)) ;;
  let summary high non_fork_high fork_history :=
    synopsis_from synopsis_fuel (uwrap32 (high + number_of_blocks_after)) high non_fork_high fork_history 1 n in
  if reference_point =? 0 then
    let head_num := bh_block_num (nd_head_header n) in
    if head_num =? 0 then Ok [] else summary head_num head_num []
  else
    match reference_chain reference_point n with
    | Ok (high, non_fork_high, fork_history) => summary high non_fork_high fork_history
    | Throw key_not_found_exception => Ok []
    | Throw e => Throw e
    end.

Definition has_item (id : item_id) (n : node) : result bool :=
  match item_kind id with
  | block_message_type => Ok (is_known_block (item_hash id) n)
  | trx_message_type =>
      match get_transaction (nd_db n) (item_hash id) with
      | Some record => _ <- fc_assert (trx_id (tr_trx record) =? item_hash id) ;; Ok true
      | None => Ok false
      end
  | other_message_type => Ok false
  end.

(** Transactions are looked for in a map that is never filled, and what is
    found there is not returned. *)
Definition get_item (id : item_id) (n : node) : result client_message :=
  match item_kind id with
  | block_message_type =>
      b <- get_block (item_hash id) n ;;
      let m := block_message_of b in
      _ <- fc_assert (item_hash id =? bm_block_id m) ;; Ok (a_block m)
  | _ => Throw key_not_found_exception
  end.

Definition get_genesis_timestamp (n : node) : result time :=
  r <- from_option_or undefined_behaviour (get_asset_record (nd_db n) 0) ;; Ok (as_registration_date r).
Definition get_block_time (id : Z) (n : node) : result time :=
  if id =? 0 then get_genesis_timestamp n
  else match get_block_header id n with
       | Ok h => Ok (bh_timestamp h)
       | Throw undefined_behaviour => Throw undefined_behaviour
       | Throw _ => Ok 0
       end.

(** ** The client *)

Record client := mk_client {
  cl_node : node;
  cl_simulate_disconnect : bool;
  cl_sync_mode : bool;
  cl_remaining_items_to_sync : Z;
  cl_exception_db : list exception }.
Definition set_cl_node (n : node) (c : client) : client :=
  mk_client n (cl_simulate_disconnect c) (cl_sync_mode c) (cl_remaining_items_to_sync c) (cl_exception_db c).
Definition set_cl_sync (sync_mode : bool) (remaining : Z) (c : client) : client :=
  mk_client (cl_node c) (cl_simulate_disconnect c) sync_mode remaining (cl_exception_db c).
Definition store_exception (e : exception) (c : client) : client :=
  mk_client (cl_node c) (cl_simulate_disconnect c) (cl_sync_mode c) (cl_remaining_items_to_sync c) (cl_exception_db c ++ [e]).
Notation client_m := (state_m client).

Definition on_chain {A} (m : node_m A) : client_m A :=
  fun c => let '(n, r) := m (cl_node c) in (set_cl_node n c, r).
Definition read_chain {A} (f : node -> A) : client_m A := nread (fun c => Ok (f (cl_node c))).

Definition on_new_block (b : full_block) (block_id : Z) (sync_mode : bool) : client_m block_fork_data :=
  _ <~ nwrite (fun c => set_cl_sync sync_mode
         (if sync_mode && (0 <? cl_remaining_items_to_sync c) then cl_remaining_items_to_sync c - 1
          else cl_remaining_items_to_sync c) c) ;;
  ncatch
    (_ <~ nread (fun c => fc_assert (negb (cl_simulate_disconnect c))) ;;
     fork_data <~ read_chain (get_block_fork_data block_id) ;;
     match fork_data with
     | Some {| fd_is_known := true |} as known =>
         let d := default fork_data_default known in
         if sync_mode && negb (fd_is_linked d) then nthrow unlinkable_block else nret d
     | _ =>
         d <~ on_chain (push_block b) ;;
         if sync_mode && negb (fd_is_linked d) then nthrow unlinkable_block else nret d
     end)
    (fun e => _ <~ nwrite (store_exception e) ;; nthrow e).

Definition on_new_transaction (trx : signed_transaction) : client_m bool :=
  ncatch
    (e <~ on_chain (store_pending_transaction trx false) ;; nret (match e with Some _ => true | None => false end))
    (fun e => match e with
              | duplicate_transaction => nthrow e
              | _ => _ <~ nwrite (store_exception e) ;; nthrow e
              end).

(** The two exceptions that are given to the network have the same names
    there. *)
Definition handle_message (m : client_message) (sync_mode : bool) : client_m bool :=
  match m with
  | a_block (mk_block_message b block_id) =>
      old_head_block <~ read_chain nd_head_id ;;
      d <~ on_new_block b block_id sync_mode ;;
      nret (xorb (fd_is_included d) (bh_previous (fb_header b) =? old_head_block))
  | a_trx trx => on_new_transaction trx
  | another_message => nret false
  end.

(** What is sent again every 13 seconds. *)
Definition rebroadcast_pending (c : client) : list signed_transaction :=
  if cl_sync_mode c then [] else get_pending_transactions (cl_node c).
Definition sync_status (item_count : Z) : client_m unit := nwrite (fun c => set_cl_sync (cl_sync_mode c) item_count c).
End client.
