(* ===== verification/ClientProps.v ===== *)
(** Synopses: their length and what they name, what a peer finds in them, and
    that two nodes find where their chains part. *)

From stdpp Require Import relations.
From S2P Require Import Prelude StateMonad Asset Records ChainInterface Transaction PendingState ChainDatabase BlockOps Node ForkDb Pool.
From S2P Require Import ForkTree ForkStore NodeTree ForkSwitch ForkDemo ForkProps Concrete ChainMemory BlockMaking MainChain Client.

(** ** The numbers of a synopsis *)

(** From a chain of [T] blocks: the first block, the one at half the way to
    the last block, and so on to the last block. *)
Definition synopsis_numbers (T : Z) : list Z := (fun i => T + 1 - T / 2 ^ i) <$> seqZ 0 (Z.log2 T + 1).

(** The synopsis of a list of ids. *)
Definition synopsis_of (c : list Z) : list Z := (fun num => c !!! Z.to_nat (num - 1)) <$> synopsis_numbers (Z.of_nat (length c)).

(** The halvings of [m] down to 1. *)
Definition halvings (m : Z) : list Z := (fun i => m / 2 ^ i) <$> seqZ 0 (Z.log2 m + 1).

Lemma log2_half m : 2 <= m -> Z.log2 m = Z.log2 (m / 2) + 1.
Proof.
  intros Hm. rewrite <- Z.div2_div, Z.div2_spec, Z.log2_shiftr by lia. assert (1 <= Z.log2 m) by (apply Z.log2_le_pow2; lia). lia.
Qed.

Lemma halvings_step m : 1 <= m -> halvings m = m :: if m <=? 1 then [] else halvings (m / 2).
Proof.
  intros Hm. unfold halvings. pose proof (Z.log2_nonneg m). rewrite seqZ_cons by lia. cbn [fmap list_fmap].
  rewrite Z.pow_0_r, Z.div_1_r. f_equal. replace (Z.pred (Z.log2 m + 1)) with (Z.log2 m) by lia.
  destruct (Z.leb_spec m 1) as [Hle|Hgt].
  - assert (m = 1) as -> by lia. done.
  - rewrite log2_half by lia. change 1 with (0 + 1) at 1. rewrite <- (fmap_add_seqZ 1 0), <- list_fmap_compose.
    apply list_fmap_ext. intros i x Hx%lookup_seqZ. cbn. rewrite Z.pow_add_r, Z.pow_1_r, Z.div_div by lia. by rewrite (Z.mul_comm 2).
Qed.

Lemma halvings_length m : length (halvings m) = Z.to_nat (Z.log2 m + 1).
Proof. unfold halvings. by rewrite length_fmap, length_seqZ. Qed.

Lemma halvings_bound m x : 1 <= m -> x ∈ halvings m -> 1 <= x <= m.
Proof.
  intros Hm (i & -> & Hi%elem_of_seqZ)%list_elem_of_fmap. assert (0 < 2 ^ i) by (apply Z.pow_pos_nonneg; lia). split.
  - apply Z.div_le_lower_bound; [ lia | ]. rewrite Z.mul_1_r. etrans; [ apply (Z.pow_le_mono_r 2 i (Z.log2 m)); lia | by apply Z.log2_spec; lia ].
  - apply Z.div_le_upper_bound; nia.
Qed.

Lemma synopsis_numbers_halvings T : synopsis_numbers T = (fun m => T + 1 - m) <$> halvings T.
Proof. unfold synopsis_numbers, halvings. by rewrite <- list_fmap_compose. Qed.

Lemma synopsis_numbers_length T : length (synopsis_numbers T) = Z.to_nat (Z.log2 T + 1).
Proof. unfold synopsis_numbers. by rewrite length_fmap, length_seqZ. Qed.

(** Among the halvings of [m] one is little more than [g]. *)
Lemma halvings_near m g : 1 <= m -> 0 <= g < m -> exists x, x ∈ halvings m /\ g < x <= 2 * g + 1.
Proof.
  intros Hm. remember (Z.to_nat m) as k eqn:Ek. revert m Hm Ek. induction (lt_wf k) as [k _ IH]. intros m Hm -> Hg.
  rewrite halvings_step by done. destruct (decide (m <= 2 * g + 1)) as [Hle|Hgt]; [ exists m; split; [ by left | lia ] | ].
  destruct (Z.leb_spec m 1); [ lia | ].
  assert (g < m / 2) by (apply Z.lt_le_trans with (g + 1); [ lia | apply Z.div_le_lower_bound; lia ]).
  assert (m / 2 < m) by (apply Z.div_lt; lia).
  destruct (IH (Z.to_nat (m / 2))) with (m := m / 2) as (x & Hx & ?); [ lia | lia | done | lia | ].
  exists x. split; [ by right | done ].
Qed.

(** ** The loop *)

Lemma filter_none {A} (P : A -> Prop) `{!forall x, Decision (P x)} (l : list A) : (forall x, x ∈ l -> ~ P x) -> filter P l = [].
Proof.
  induction l as [|x l IH]; intros Hn; [ done | ]. rewrite filter_cons_False by (apply Hn; by left). apply IH. intros y Hy. apply Hn. by right.
Qed.

Section synopsis.
Context `{FcI : Fc} `{Cr : Crypto} `{Tx : TxCrypto} `{St : Statics} `{Sz : Sizes} `{BC : BlockCrypto} `{Cp : Checkpoints} `{Gm : Games}.

(** Where the loop takes the id of a block from. *)
Definition id_at (non_fork_high : Z) (fork_history : list Z) (num : Z) (n : node) : result Z :=
  if num <=? non_fork_high then b <- get_block_at num n ;; Ok (full_block_id b)
  else from_option_or undefined_behaviour (fork_history !! Z.to_nat (num - non_fork_high - 1)).

Lemma synopsis_from_spec (c : list Z) T non_fork_high fork_history n :
  Z.of_nat (length c) <= T < two32 - 1 ->
  (forall num, 1 <= num <= Z.of_nat (length c) -> id_at non_fork_high fork_history num n = Ok (c !!! Z.to_nat (num - 1))) ->
  forall fuel m, 1 <= m <= T -> T + 1 - m <= Z.of_nat (length c) -> (Z.to_nat (Z.log2 m) < fuel)%nat ->
  synopsis_from fuel T (Z.of_nat (length c)) non_fork_high fork_history (T + 1 - m) n
    = Ok ((fun num => c !!! Z.to_nat (num - 1)) <$> filter (fun num => num <= Z.of_nat (length c)) ((fun x => T + 1 - x) <$> halvings m)).
Proof.
  intros HT Hid. unfold two32 in HT. induction fuel as [|fuel IH]; intros m Hm Hhigh Hf; [ lia | ].
  cbn [synopsis_from]. fold (id_at non_fork_high fork_history (T + 1 - m) n). rewrite Hid by lia. cbn [rbind].
  rewrite halvings_step by lia. cbn [fmap list_fmap]. rewrite filter_cons_True by done. cbn [fmap list_fmap].
  assert (E1 : uwrap32 (T - (T + 1 - m) + 2) = m + 1) by (unfold uwrap32; rewrite Z.mod_small by (unfold two32; lia); lia).
  assert (Hh : (m + 1) / 2 = m - m / 2) by (Z.to_euclidean_division_equations; lia).
  assert (0 <= m / 2 < m) by (split; [ apply Z.div_pos; lia | apply Z.div_lt; lia ]).
  rewrite E1, Hh. replace (T + 1 - m + (m - m / 2)) with (T + 1 - m / 2) by lia.
  unfold uwrap32 at 1. unfold uwrap32 at 1. rewrite Z.mod_small by (unfold two32; lia).
  destruct (Z.leb_spec (T + 1 - m / 2) (Z.of_nat (length c))) as [Hle|Hgt].
  - assert (2 <= m) by lia. rewrite (proj2 (Z.leb_gt m 1)) by lia.
    pose proof (log2_half m). pose proof (Z.log2_nonneg (m / 2)). rewrite IH by lia. done.
  - rewrite (filter_none _ (_ <$> _)); [ done | ]. intros x Hx. destruct (Z.leb_spec m 1); [ by apply elem_of_nil in Hx | ].
    apply list_elem_of_fmap in Hx as (y & -> & Hy). apply halvings_bound in Hy; Z.to_euclidean_division_equations; lia.
Qed.

(** ** The chain up to a block *)

(** The blocks from the first one to [id], on the main chain or on a fork. *)
Inductive path_to (B : gmap Z full_block) : Z -> list Z -> Prop :=
| path_nil : path_to B 0 []
| path_snoc id b c : B !! id = Some b -> id <> 0 -> path_to B (prev_of b) c -> path_to B id (c ++ [id]).

Lemma path_to_chain B id c : chain_of B id c -> path_to B id c.
Proof. induction 1 as [|id b l Hb Hne _ _ IH]; [ constructor | by apply (path_snoc _ _ b) ]. Qed.

Lemma path_to_fun B id c c' : path_to B id c -> path_to B id c' -> c = c'.
Proof.
  intros H. revert c'. induction H as [|id b c Hb Hne _ IH]; intros c' H'; inversion H' as [|id' b' c2 Hb' Hne' H2]; subst; try done.
  simplify_eq. by rewrite (IH c2).
Qed.

Lemma path_to_fork n id p target c : fork_path n id p target -> nd_blocks n !! 0 = None -> path_to (nd_blocks n) target c ->
  path_to (nd_blocks n) id (c ++ rev (id :: p)).
Proof.
  intros P H0 Hc. assert (Hne : forall x b, nd_blocks n !! x = Some b -> x <> 0) by (intros x b Hx ->; congruence).
  induction P as [id b d Hb _ _|id b p target Hb _ P IH].
  - apply (path_snoc _ _ b); [ done | by eapply Hne | done ].
  - cbn [rev] in *. rewrite app_assoc. apply (path_snoc _ _ b); [ done | by eapply Hne | by apply IH ].
Qed.

Lemma chain_num n l i id : main_chain n l -> l !! i = Some id -> get_block_num id n = Ok (Z.of_nat i + 1).
Proof.
  intros M Hi. destruct (chain_of_lookup _ _ _ _ _ (mc_chain _ _ M) Hi) as (b & Hb & Hne & Hn & _).
  unfold get_block_num, get_block. rewrite (proj2 (Z.eqb_neq _ _) Hne), Hb. cbn. fold (num_of b). by rewrite Hn.
Qed.

Lemma chain_id_at n l c nf hist num : node_tree n -> main_chain n l -> c `prefix_of` l -> 1 <= num <= Z.of_nat (length c) -> num <= nf ->
  id_at nf hist num n = Ok (c !!! Z.to_nat (num - 1)).
Proof.
  intros T M [l' ->] Hnum Hnf. unfold id_at. rewrite (proj2 (Z.leb_le _ _) Hnf).
  destruct (lookup_lt_is_Some_2 c (Z.to_nat (num - 1))) as [x Hx]; [ lia | ]. rewrite (list_lookup_total_correct _ _ _ Hx).
  destruct (chain_block_at n _ (Z.to_nat (num - 1)) x T M (lookup_app_l_Some _ _ _ _ Hx)) as (b & E & _ & Ei & _).
  replace (Z.of_nat (Z.to_nat (num - 1)) + 1) with num in E by lia. rewrite E. cbn. by rewrite Ei.
Qed.

Context (rank : Z -> nat).

(** The part of the main chain below a fork. *)
Lemma fork_base n l target : node_tree n -> main_chain n l -> (target = 0 \/ is_included_block target n = true) ->
  exists c, c `prefix_of` l /\ path_to (nd_blocks n) target c
    /\ (if target =? 0 then Ok 0 else match get_block_num target n with Throw key_not_found_exception => Ok 0 | r => r end)
       = Ok (Z.of_nat (length c)).
Proof.
  intros T M H. destruct (decide (target = 0)) as [->|Hne].
  { exists []. split_and!; [ apply prefix_nil | constructor | done ]. }
  destruct H as [?|Hi]; [ done | ]. apply (mc_included _ _ M) in Hi as [?|[i Hi]%list_elem_of_lookup]; [ done | ].
  exists (take (S i) l). pose proof (lookup_lt_Some _ _ _ Hi). split_and!; [ apply prefix_take | | ].
  - apply path_to_chain. by destruct (chain_of_lookup _ _ _ _ _ (mc_chain _ _ M) Hi) as (b & _ & _ & _ & ?).
  - rewrite (proj2 (Z.eqb_neq _ _) Hne), (chain_num _ _ _ _ M Hi), length_take. f_equal. lia.
Qed.

Lemma reference_chain_spec n l ref d c : node_tree n -> ranked rank (nd_blocks n) -> main_chain n l -> nd_fork n !! ref = Some d ->
  fd_is_linked d = true -> ref <> 0 -> path_to (nd_blocks n) ref c -> Z.of_nat (length c) < two32 ->
  exists nf hist, reference_chain ref n = Ok (Z.of_nat (length c), nf, hist)
    /\ forall num, 1 <= num <= Z.of_nat (length c) -> id_at nf hist num n = Ok (c !!! Z.to_nat (num - 1)).
Proof.
  intros T R M Hd Hl Hne Hc Hlen. unfold reference_chain. destruct (is_included_block ref n) eqn:Hinc.
  - destruct (fork_base n l ref T M) as (c' & Hp & Hc' & E); [ by right | ]. rewrite (path_to_fun _ _ _ _ Hc Hc') in *.
    rewrite (proj2 (Z.eqb_neq _ _) Hne) in E. exists (Z.of_nat (length c')), [].
    assert (get_block_num ref n = Ok (Z.of_nat (length c'))) as ->.
    { apply (mc_included _ _ M) in Hinc as [?|[i Hi]%list_elem_of_lookup]; [ done | ]. rewrite (chain_num _ _ _ _ M Hi) in E |- *. done. }
    split; [ done | ]. intros num Hnum. apply (chain_id_at n l); [ done.. | lia ].
  - destruct (linked_known _ _ _ T Hd Hl Hne) as [b Hb].
    destruct (fork_history_spec rank (Datatypes.S (size (nd_blocks n))) ref b d n T R Hb Hd Hl) as (p & t & E & P).
    { pose proof (upto_size rank (nd_blocks n) ref). lia. }
    unfold get_fork_history. rewrite E. cbn [rbind]. rewrite app_comm_cons, last_snoc, removelast_last. cbn [from_option_or rbind].
    destruct (fork_base n l t T M) as (c0 & Hp & Hc0 & E0).
    { destruct (path_target _ _ _ _ P) as [?|(dt & Hdt & Hi)]; [ by left | right ]. unfold is_included_block, get_block_fork_data. by rewrite Hdt. }
    rewrite E0. cbn [rbind]. destruct (ft_root _ _ _ (nt_fork _ T)) as [H0 _].
    assert (c = c0 ++ rev (ref :: p)) as ->.
    { eapply path_to_fun; [ exact Hc | by apply (path_to_fork n _ _ t) ]. }
    exists (Z.of_nat (length c0)), (rev (ref :: p)). rewrite length_app in *. split.
    { f_equal. f_equal. f_equal. unfold uwrap32. rewrite Z.mod_small by lia. lia. }
    intros num Hnum. destruct (decide (num <= Z.of_nat (length c0))) as [Hle|Hgt].
    + rewrite lookup_total_app_l by lia. apply (chain_id_at n l); [ done.. | lia | done ].
    + unfold id_at. rewrite (proj2 (Z.leb_gt _ _)) by lia. rewrite lookup_total_app_r by lia.
      replace (Z.to_nat (num - 1) - length c0)%nat with (Z.to_nat (num - Z.of_nat (length c0) - 1)) by lia.
      destruct (lookup_lt_is_Some_2 (rev (ref :: p)) (Z.to_nat (num - Z.of_nat (length c0) - 1))) as [x Hx]; [ lia | ].
      by rewrite Hx, (list_lookup_total_correct _ _ _ Hx).
Qed.

(** ** Synopses *)

(** A synopsis up to the block [ref] is about the blocks [c]. *)
Definition summarized (n : node) (l : list Z) (ref : Z) (c : list Z) : Prop :=
  ref = 0 /\ c = l
  \/ ref <> 0 /\ path_to (nd_blocks n) ref c /\ exists d, nd_fork n !! ref = Some d /\ fd_is_linked d = true.

(** The numbers up to [high] of a synopsis of [T] blocks. *)
Definition part_of_synopsis (c : list Z) (T : Z) : list Z :=
  (fun num => c !!! Z.to_nat (num - 1)) <$> filter (fun num => num <= Z.of_nat (length c)) (synopsis_numbers T).

Lemma summary_spec (c : list Z) k nf hist n : c <> [] -> 0 <= k -> Z.of_nat (length c) + k < two32 - 1 ->
  (forall num, 1 <= num <= Z.of_nat (length c) -> id_at nf hist num n = Ok (c !!! Z.to_nat (num - 1))) ->
  synopsis_from synopsis_fuel (uwrap32 (Z.of_nat (length c) + k)) (Z.of_nat (length c)) nf hist 1 n
    = Ok (part_of_synopsis c (Z.of_nat (length c) + k)).
Proof.
  intros Hne Hk HT Hid. unfold two32 in HT. assert (length c <> 0%nat) by (by intros ?%nil_length_inv).
  unfold uwrap32. rewrite Z.mod_small by (unfold two32; lia). unfold part_of_synopsis. rewrite synopsis_numbers_halvings.
  set (T := Z.of_nat (length c) + k). replace 1 with (T + 1 - T) at 1 by lia.
  apply synopsis_from_spec; try done; try lia; [ unfold two32; lia | ].
  assert (Z.log2 T < 32) by (apply Z.log2_lt_pow2; lia). unfold synopsis_fuel. lia.
Qed.

Lemma get_blockchain_synopsis_spec n l ref c k : node_tree n -> ranked rank (nd_blocks n) -> main_chain n l -> summarized n l ref c ->
  c <> [] -> 0 <= k -> Z.of_nat (length c) + k < two32 - 1 ->
  get_blockchain_synopsis block_message_type ref k n = Ok (part_of_synopsis c (Z.of_nat (length c) + k)).
Proof.
  intros T R M Hc Hne Hk HT. unfold get_blockchain_synopsis. rewrite bool_decide_eq_true_2 by done. cbn [fc_assert rbind].
  assert (length c <> 0%nat) by (by intros ?%nil_length_inv). destruct Hc as [[-> ->]|(H0 & Hp & d & Hd & Hl)].
  - cbn [Z.eqb]. rewrite (main_chain_length _ _ T M). rewrite (proj2 (Z.eqb_neq _ _)) by lia.
    apply summary_spec; try done. intros num Hnum. apply (chain_id_at n l); [ done.. | lia ].
  - rewrite (proj2 (Z.eqb_neq _ _) H0). unfold two32 in HT.
    destruct (reference_chain_spec n l ref d c T R M Hd Hl H0 Hp) as (nf & hist & -> & Hid); [ unfold two32; lia | ].
    by apply summary_spec.
Qed.

Lemma synopsis_numbers_bound T num : 1 <= T -> num ∈ synopsis_numbers T -> 1 <= num <= T.
Proof. intros HT. rewrite synopsis_numbers_halvings. intros (m & -> & Hm%halvings_bound)%list_elem_of_fmap; lia. Qed.

Lemma part_of_synopsis_all c : c <> [] -> part_of_synopsis c (Z.of_nat (length c)) = synopsis_of c.
Proof.
  intros Hne. unfold part_of_synopsis, synopsis_of. f_equal. assert (length c <> 0%nat) by (by intros ?%nil_length_inv).
  assert (Hall : forall num, num ∈ synopsis_numbers (Z.of_nat (length c)) -> num <= Z.of_nat (length c))
    by (intros num Hn%synopsis_numbers_bound; lia).
  revert Hall. generalize (synopsis_numbers (Z.of_nat (length c))). intros nums. induction nums as [|x nums IH]; intros Ha; [ done | ].
  rewrite filter_cons_True by (apply Ha; by left). f_equal. apply IH. intros y Hy. apply Ha. by right.
Qed.

Lemma synopsis_of_length c : length (synopsis_of c) = Z.to_nat (Z.log2 (Z.of_nat (length c)) + 1).
Proof. unfold synopsis_of. by rewrite length_fmap, synopsis_numbers_length. Qed.

(** The block of number [num] is in the synopsis when [num] is one of its
    numbers. *)
Lemma synopsis_of_elem c x : c <> [] -> x ∈ synopsis_of c <-> exists num, num ∈ synopsis_numbers (Z.of_nat (length c)) /\ c !! Z.to_nat (num - 1) = Some x.
Proof.
  intros Hne. assert (length c <> 0%nat) by (by intros ?%nil_length_inv). unfold synopsis_of. rewrite list_elem_of_fmap.
  split; intros (num & H1 & H2); exists num.
  - split; [ done | ]. subst x. pose proof (synopsis_numbers_bound (Z.of_nat (length c)) num ltac:(lia) H2).
    destruct (lookup_lt_is_Some_2 c (Z.to_nat (num - 1))) as [y Hy]; [ lia | ]. by rewrite (list_lookup_total_correct _ _ _ Hy).
  - split; [ | done ]. symmetry. by apply list_lookup_total_correct.
Qed.
End synopsis.

(** ** What a peer answers *)

(** Where the reply to a synopsis starts in the chain [l]: at the last block of
    the synopsis that is on it, or at the first block. The id 0 counts as a
    block before the first one. *)
Definition starts_at (l synopsis : list Z) (i : nat) : Prop :=
  (exists before x after, synopsis = before ++ x :: after /\ l !! i = Some x /\ forall y, y ∈ after -> y <> 0 /\ y ∉ l)
  \/ i = 0%nat /\ forall y, y ∈ synopsis -> y <> 0 /\ y ∉ l.
Definition starts_at_zero (l synopsis : list Z) : Prop :=
  exists before after, synopsis = before ++ 0 :: after /\ forall y, y ∈ after -> y <> 0 /\ y ∉ l.

Lemma starts_somewhere l synopsis : (exists i, starts_at l synopsis i) \/ starts_at_zero l synopsis.
Proof.
  induction synopsis as [|y synopsis IH] using rev_ind; [ left; exists 0%nat; right; split; [ done | intros y Hy; by apply elem_of_nil in Hy ] | ].
  destruct (decide (y = 0)) as [->|H0]; [ right; exists synopsis, []; split; [ done | intros y Hy; by apply elem_of_nil in Hy ] | ].
  destruct (decide (y ∈ l)) as [[i Hi]%list_elem_of_lookup|Hy].
  { left. exists i. left. exists synopsis, y, []. split_and!; [ done | done | intros z Hz; by apply elem_of_nil in Hz ]. }
  assert (Hsnoc : forall after, (forall z, z ∈ after -> z <> 0 /\ z ∉ l) -> forall z, z ∈ after ++ [y] -> z <> 0 /\ z ∉ l).
  { intros after Ha z [Hz| ->%list_elem_of_singleton]%elem_of_app; [ by apply Ha | done ]. }
  destruct IH as [(i & [(before & x & after & -> & Hi & Ha)|[-> Ha]])|(before & after & -> & Ha)].
  - left. exists i. left. exists before, x, (after ++ [y]). split_and!; [ by rewrite <- app_assoc | done | by apply Hsnoc ].
  - left. exists 0%nat. right. split; [ done | by apply Hsnoc ].
  - right. exists before, (after ++ [y]). split; [ by rewrite <- app_assoc | by apply Hsnoc ].
Qed.

Lemma last_seen_none n l ids : main_chain n l -> (forall y, y ∈ ids -> y <> 0 /\ y ∉ l) -> last_seen_num ids n = Ok 1.
Proof.
  intros M. induction ids as [|id ids IH]; intros H; [ done | ]. cbn [last_seen_num].
  destruct (H id ltac:(by left)) as [H0 Hl]. destruct (is_included_block id n) eqn:Ei.
  { apply (mc_included _ _ M) in Ei. tauto. }
  rewrite IH by (intros y Hy; apply H; by right). unfold get_block_num, get_block. rewrite (proj2 (Z.eqb_neq _ _) H0).
  by destruct (nd_blocks n !! id).
Qed.

Lemma last_seen_found n l before x after i : main_chain n l -> (forall y, y ∈ before -> y <> 0 /\ y ∉ l) -> l !! i = Some x ->
  last_seen_num (before ++ x :: after) n = Ok (Z.of_nat i + 1).
Proof.
  intros M. induction before as [|id before IH]; intros H Hi; cbn [app last_seen_num].
  - rewrite (chain_num _ _ _ _ M Hi). rewrite (proj2 (mc_included _ _ M x)); [ done | right; by eapply list_elem_of_lookup_2 ].
  - destruct (H id ltac:(by left)) as [H0 Hl]. destruct (is_included_block id n) eqn:Ei.
    { apply (mc_included _ _ M) in Ei. tauto. }
    rewrite IH by (done || (intros y Hy; apply H; by right)). unfold get_block_num, get_block. rewrite (proj2 (Z.eqb_neq _ _) H0).
    by destruct (nd_blocks n !! id).
Qed.

Lemma last_seen_zero n l before after : main_chain n l -> (forall y, y ∈ before -> y <> 0 /\ y ∉ l) ->
  last_seen_num (before ++ 0 :: after) n = Ok 0.
Proof.
  intros M. induction before as [|id before IH]; intros H; cbn [app last_seen_num].
  - unfold get_block_num. cbn [Z.eqb]. rewrite (proj2 (mc_included _ _ M 0)); [ done | by left ].
  - destruct (H id ltac:(by left)) as [H0 Hl]. destruct (is_included_block id n) eqn:Ei.
    { apply (mc_included _ _ M) in Ei. tauto. }
    rewrite IH by (intros y Hy; apply H; by right). unfold get_block_num, get_block. rewrite (proj2 (Z.eqb_neq _ _) H0).
    by destruct (nd_blocks n !! id).
Qed.

Lemma in_reversed {A} (l : list A) (P : A -> Prop) : (forall y, y ∈ l -> P y) -> forall y, y ∈ rev l -> P y.
Proof. intros H y Hy. apply list_elem_of_In, in_rev, list_elem_of_In in Hy. by apply H. Qed.

Lemma last_seen_starts n l synopsis i : main_chain n l -> starts_at l synopsis i ->
  last_seen_num (rev synopsis) n = Ok (Z.of_nat i + 1).
Proof.
  intros M [(before & x & after & -> & Hi & Ha)|[-> Ha]].
  - rewrite rev_app_distr. cbn [rev]. rewrite <- app_assoc. apply (last_seen_found _ l); [ done | by apply in_reversed | done ].
  - apply (last_seen_none _ l); [ done | by apply in_reversed ].
Qed.

Lemma last_seen_starts_zero n l synopsis : main_chain n l -> starts_at_zero l synopsis -> last_seen_num (rev synopsis) n = Ok 0.
Proof.
  intros M (before & after & -> & Ha). rewrite rev_app_distr. cbn [rev]. rewrite <- app_assoc.
  apply (last_seen_zero _ l); [ done | by apply in_reversed ].
Qed.

Lemma ids_from_chain n l count i : main_chain n l -> (i + count <= length l)%nat -> Z.of_nat (length l) < two32 ->
  ids_from count (Z.of_nat i + 1) n = Ok (take count (drop i l)).
Proof.
  intros M. revert i. induction count as [|count IH]; intros i Hc Hl; [ by rewrite take_0 | ].
  destruct (lookup_lt_is_Some_2 l i) as [x Hx]; [ lia | ]. rewrite (drop_S _ _ _ Hx). cbn [ids_from take].
  rewrite (chain_block_id _ _ _ _ M Hx). cbn [rbind]. destruct count as [|count]; [ done | ].
  unfold uwrap32. rewrite Z.mod_small by lia. replace (Z.of_nat i + 1 + 1) with (Z.of_nat (S i) + 1) by lia.
  rewrite IH by lia. done.
Qed.

Section replies.
Context `{FcI : Fc} `{Cr : Crypto} `{Tx : TxCrypto} `{St : Statics} `{BC : BlockCrypto} `{Cp : Checkpoints} `{Gm : Games}.

Lemma get_item_ids_spec n l synopsis limit i : node_tree n -> main_chain n l -> all_numbered (nd_blocks n) -> l <> [] ->
  (length synopsis <= blockchain_synopsis_size_limit)%nat -> starts_at l synopsis i -> 0 <= limit ->
  get_item_ids block_message_type synopsis limit n =
    Ok (take (Z.to_nat limit) (drop i l), Z.of_nat (length (drop (Z.to_nat limit) (drop i l)))).
Proof.
  intros T M W Hne Hlen Hs Hlim. pose proof (main_chain_range _ _ T M W) as Hr.
  assert (length l <> 0%nat) by (by intros ?%nil_length_inv).
  assert (Hi : (i < length l)%nat) by (destruct Hs as [(_ & x & _ & _ & Hi & _)|[-> _]]; [ by apply lookup_lt_Some in Hi | lia ]).
  unfold get_item_ids. rewrite bool_decide_eq_true_2 by done. cbn [fc_assert rbind].
  rewrite (proj2 (Nat.ltb_ge _ _) Hlen). cbn [throw_if rbind]. rewrite (last_seen_starts _ _ _ _ M Hs). cbn [rbind].
  rewrite (main_chain_length _ _ T M). rewrite (proj2 (Z.eqb_neq _ _)) by lia. rewrite (proj2 (Z.ltb_ge _ _)) by lia.
  replace (Z.of_nat (length l) - (Z.of_nat i + 1) + 1) with (Z.of_nat (length l - i)) by lia.
  unfold uwrap32. rewrite Z.mod_small by lia. rewrite (ids_from_chain n l) by (done || lia).
  f_equal. f_equal.
  - destruct (Z.min_spec limit (Z.of_nat (length l - i))) as [[? ->]|[? ->]]; [ done | ].
    rewrite Nat2Z.id, !take_ge by (rewrite length_drop; lia). done.
  - rewrite !length_drop. lia.
Qed.

Lemma get_item_ids_zero n l synopsis limit : node_tree n -> main_chain n l -> all_numbered (nd_blocks n) -> l <> [] ->
  (length synopsis <= blockchain_synopsis_size_limit)%nat -> starts_at_zero l synopsis -> 0 < limit ->
  get_item_ids block_message_type synopsis limit n = Ok ([], 0).
Proof.
  intros T M W Hne Hlen Hs Hlim. pose proof (main_chain_range _ _ T M W) as Hr.
  assert (length l <> 0%nat) by (by intros ?%nil_length_inv).
  unfold get_item_ids. rewrite bool_decide_eq_true_2 by done. cbn [fc_assert rbind].
  rewrite (proj2 (Nat.ltb_ge _ _) Hlen). cbn [throw_if rbind]. rewrite (last_seen_starts_zero _ _ _ M Hs). cbn [rbind].
  rewrite (main_chain_length _ _ T M). rewrite (proj2 (Z.eqb_neq _ _)) by lia. rewrite (proj2 (Z.ltb_ge _ _)) by lia.
  rewrite Z.sub_0_r. destruct (decide (Z.of_nat (length l) + 1 = two32)) as [E|E].
  { rewrite E. change (uwrap32 two32) with 0. by rewrite Z.min_r by lia. }
  assert (uwrap32 (Z.of_nat (length l) + 1) = Z.of_nat (length l) + 1) as -> by (unfold uwrap32; apply Z.mod_small; unfold two32 in *; lia).
  destruct (Z.to_nat (Z.min limit (Z.of_nat (length l) + 1))) as [|count] eqn:Ec; [ lia | ]. cbn [ids_from].
  unfold get_block_id. destruct (nd_num_to_id n !! 0) as [x|] eqn:E0; [ | done ]. apply (mc_numbers _ _ M) in E0 as [? _]. lia.
Qed.
End replies.

(** ** Two chains *)

(** How many blocks two chains share from the first one on. *)
Fixpoint shared (l l' : list Z) : nat :=
  match l, l' with
  | x :: l, y :: l' => if x =? y then S (shared l l') else 0%nat
  | _, _ => 0%nat
  end.

Lemma shared_take l l' : take (shared l l') l = take (shared l l') l'.
Proof.
  revert l'. induction l as [|x l IH]; intros [|y l']; cbn [shared]; try done. destruct (Z.eqb_spec x y) as [->|]; [ | done ].
  cbn [take]. by rewrite IH.
Qed.

Lemma shared_length l l' : (shared l l' <= length l)%nat /\ (shared l l' <= length l')%nat.
Proof.
  revert l'. induction l as [|x l IH]; intros [|y l']; cbn [shared length]; try lia. destruct (x =? y); [ | lia ]. specialize (IH l'). lia.
Qed.

Lemma shared_max l l' i : (i <= length l)%nat -> take i l = take i l' -> (i <= shared l l')%nat.
Proof.
  revert l l'. induction i as [|i IH]; intros l l' Hi E; [ lia | ]. destruct l as [|x l], l' as [|y l']; cbn in Hi, E; try (lia || done).
  cbn [shared]. injection E as -> E. rewrite Z.eqb_refl. apply le_n_S, IH; [ lia | done ].
Qed.

(** Blocks of the same id have the same parent. *)
Definition agree (B B' : gmap Z full_block) : Prop :=
  forall id b b', B !! id = Some b -> B' !! id = Some b' -> prev_of b = prev_of b'.

Lemma path_to_agree B B' id c c' : agree B B' -> path_to B id c -> path_to B' id c' -> c = c'.
Proof.
  intros HA H. revert c'. induction H as [|id b c Hb Hne _ IH]; intros c' H'; inversion H' as [|id' b' c2 Hb' Hne' H2]; subst; try done.
  rewrite (HA _ _ _ Hb Hb') in IH. by rewrite (IH c2).
Qed.

Lemma chains_share n n' l l' i x : main_chain n l -> main_chain n' l' -> agree (nd_blocks n) (nd_blocks n') -> l !! i = Some x -> x ∈ l' ->
  take (S i) l = take (S i) l' /\ l' !! i = Some x.
Proof.
  intros M M' HA Hi [j Hj]%list_elem_of_lookup.
  destruct (chain_of_lookup _ _ _ _ _ (mc_chain _ _ M) Hi) as (b & _ & _ & _ & H).
  destruct (chain_of_lookup _ _ _ _ _ (mc_chain _ _ M') Hj) as (b' & _ & _ & _ & H').
  pose proof (path_to_agree _ _ _ _ _ HA (path_to_chain _ _ _ H) (path_to_chain _ _ _ H')) as E.
  assert (i = j) as ->; [ | done ]. apply (f_equal length) in E. rewrite !length_take in E.
  apply lookup_lt_Some in Hi. apply lookup_lt_Some in Hj. lia.
Qed.

(** The last of a list that is in [l]. *)
Lemma last_among (l s : list Z) : (exists x, x ∈ s /\ x ∈ l) ->
  exists before x after, s = before ++ x :: after /\ x ∈ l /\ forall y, y ∈ after -> y ∉ l.
Proof.
  induction s as [|z s IH]; intros (x & Hx & Hl); [ by apply elem_of_nil in Hx | ].
  destruct (decide (Exists (fun y => y ∈ l) s)) as [(y & Hy & Hyl)%Exists_exists|Hn].
  - destruct IH as (before & w & after & -> & ? & ?); [ eauto | ]. by exists (z :: before), w, after.
  - exists [], z, s. split_and!; [ done | | ].
    + apply elem_of_cons in Hx as [->|Hx]; [ done | ]. exfalso. apply Hn, Exists_exists. eauto.
    + intros y Hy Hyl. apply Hn, Exists_exists. eauto.
Qed.

Lemma synopsis_lookup c p : c <> [] -> (p < length (synopsis_of c))%nat ->
  synopsis_of c !! p = c !! (length c - Z.to_nat (Z.of_nat (length c) / 2 ^ Z.of_nat p))%nat.
Proof.
  intros Hne Hp. assert (length c <> 0%nat) by (by intros ?%nil_length_inv). rewrite synopsis_of_length in Hp.
  unfold synopsis_of, synopsis_numbers. rewrite !list_lookup_fmap, lookup_seqZ_lt by lia. cbn. rewrite Z.add_0_l.
  set (m := Z.of_nat (length c) / 2 ^ Z.of_nat p).
  assert (1 <= m <= Z.of_nat (length c)).
  { apply halvings_bound; [ lia | ]. unfold halvings. apply list_elem_of_fmap. exists (Z.of_nat p). split; [ done | ]. apply elem_of_seqZ. lia. }
  replace (Z.to_nat (Z.of_nat (length c) + 1 - m - 1)) with (length c - Z.to_nat m)%nat by lia.
  destruct (lookup_lt_is_Some_2 c (length c - Z.to_nat m)) as [x Hx]; [ lia | ]. by rewrite Hx, (list_lookup_total_correct _ _ _ Hx).
Qed.

(** The last block of a synopsis that another chain has: below the fork, and
    no further below it than the chain of the synopsis goes above it. *)
Lemma synopsis_nonzero n l y : main_chain n l -> l <> [] -> y ∈ synopsis_of l -> y <> 0.
Proof.
  intros M Hne (num & _ & Hx)%synopsis_of_elem; [ | done ]. by destruct (chain_of_lookup _ _ _ _ _ (mc_chain _ _ M) Hx) as (b & _ & ? & _).
Qed.

Lemma synopsis_meets n n' l l' : main_chain n l -> main_chain n' l' -> agree (nd_blocks n) (nd_blocks n') -> l <> [] ->
  exists i, starts_at l' (synopsis_of l) i /\ (i <= shared l l')%nat /\ (shared l l' <= i + (length l - shared l l') + 1)%nat.
Proof.
  intros M M' HA Hne. assert (length l <> 0%nat) by (by intros ?%nil_length_inv).
  destruct (shared_length l l') as [Hk1 Hk2]. set (k := shared l l') in *.
  assert (Hin : forall i x, l !! i = Some x -> x ∈ l' -> (S i <= k)%nat).
  { intros i x Hi Hx. destruct (chains_share _ _ _ _ _ _ M M' HA Hi Hx) as [E _]. apply shared_max; [ | done ].
    by apply lookup_lt_Some in Hi. }
  destruct (decide (k = 0%nat)) as [Ek|Hk].
  { exists 0%nat. split_and!; [ right; split; [ done | ] | lia | lia ]. intros y Hys. split; [ by apply (synopsis_nonzero n l) | intros Hyl ].
    apply synopsis_of_elem in Hys as (num & _ & Hy); [ | done ].
    specialize (Hin _ _ Hy Hyl). lia. }
  destruct (halvings_near (Z.of_nat (length l)) (Z.of_nat (length l - k))) as (m & (p & -> & Hp%elem_of_seqZ)%list_elem_of_fmap & Hm); [ lia | lia | ].
  pose proof (Z.log2_nonneg (Z.of_nat (length l))) as Hlog.
  assert (HP : (Z.to_nat p < length (synopsis_of l))%nat) by (rewrite synopsis_of_length; lia).
  pose proof (synopsis_lookup l _ Hne HP) as HL. rewrite Z2Nat.id in HL by lia.
  set (m := Z.of_nat (length l) / 2 ^ p) in *. set (j := (length l - Z.to_nat m)%nat) in *.
  assert (Hmr : 1 <= m <= Z.of_nat (length l)).
  { apply halvings_bound; [ lia | ]. unfold halvings. apply list_elem_of_fmap. exists p. split; [ done | ]. apply elem_of_seqZ. lia. }
  destruct (lookup_lt_is_Some_2 l j) as [y Hy]; [ lia | ]. rewrite Hy in HL.
  assert (Hyl : y ∈ l').
  { apply (list_elem_of_lookup_2 _ j). rewrite <- (lookup_take_lt l' k j) by lia. unfold k. rewrite <- shared_take.
    by rewrite lookup_take_lt by lia. }
  destruct (last_among l' (synopsis_of l)) as (before & x & after & Es & Hxl & Ha).
  { exists y. split; [ by apply list_elem_of_lookup_2 in HL | done ]. }
  assert (Hq : (length before < length (synopsis_of l))%nat) by (rewrite Es, length_app; simpl; lia).
  pose proof (synopsis_lookup l _ Hne Hq) as HX. rewrite Es in HX at 1. rewrite lookup_app_r, Nat.sub_diag in HX by lia. cbn in HX. symmetry in HX.
  set (m' := Z.of_nat (length l) / 2 ^ Z.of_nat (length before)) in *. set (i := (length l - Z.to_nat m')%nat) in *.
  exists i. destruct (chains_share _ _ _ _ _ _ M M' HA HX Hxl) as [_ HX']. split_and!.
  - left. exists before, x, after. split_and!; [ done | done | ]. intros z Hz. split; [ | by apply Ha ].
    apply (synopsis_nonzero n l); [ done | done | ]. rewrite Es. apply elem_of_app. right. by right.
  - pose proof (Hin _ _ HX Hxl). lia.
  - assert (Hpq : (Z.to_nat p <= length before)%nat).
    { rewrite Es in HL. destruct (le_lt_dec (Z.to_nat p) (length before)) as [|Hgt]; [ done | exfalso ].
      rewrite lookup_app_r in HL by lia. destruct (Z.to_nat p - length before)%nat as [|q] eqn:Eq; [ lia | ]. cbn in HL.
      apply (Ha y); [ by apply list_elem_of_lookup_2 in HL | done ]. }
    assert (m' <= m) by (apply Z.div_le_compat_l; [ lia | split; [ apply Z.pow_pos_nonneg; lia | apply Z.pow_le_mono_r; lia ] ]).
    lia.
Qed.

(** ** The properties *)

Section properties.
Context `{FcI : Fc} `{Cr : Crypto} `{Tx : TxCrypto} `{St : Statics} `{Sz : Sizes} `{BC : BlockCrypto} `{Cp : Checkpoints} `{Gm : Games}.

(** C3: Whatever blocks are pushed that are not numbered 0, nor 1 unless they
    follow the genesis, in whatever order and with whatever forks between them,
    the node keeps a main chain, or its head could not be popped: a list of
    blocks, each on top of the one before and numbered from 1, that ends at the
    head, to which the index of numbers leads, and whose blocks, with the
    genesis, are the ones marked as included. The header check lets the other
    numbers through on any head, and then the chain is lost
    ([block_zero_hangs]). *)
Theorem pushed_blocks_keep_chain (rank : Z -> nat) (n n' : node) (bs : list full_block) :
  node_tree n -> ranked rank (nd_blocks n) -> all_numbered (nd_blocks n) -> chain_ok n ->
  Forall (fun b => full_block_id b <> 0 /\ (rank (prev_of b) < rank (full_block_id b))%nat /\ well_numbered b) bs ->
  reaches n bs n' -> chain_ok n'.
Proof. intros T R W C Hbs H. by apply (reached_chain_ok rank n bs n'). Qed.

(** C21: The synopsis of the chain up to a block, on the main chain or on a
    fork, names the blocks of number [h + 1 - h / 2^i]: as many as [h] has
    binary digits, from the first block to the block itself; the loop ends. *)
Theorem synopsis_halves (rank : Z -> nat) (n : node) (l : list Z) (ref : Z) (c : list Z) :
  node_tree n -> ranked rank (nd_blocks n) -> main_chain n l -> summarized n l ref c -> c <> [] -> Z.of_nat (length c) < two32 - 1 ->
  get_blockchain_synopsis block_message_type ref 0 n = Ok (synopsis_of c)
  /\ length (synopsis_of c) = Z.to_nat (Z.log2 (Z.of_nat (length c)) + 1)
  /\ head (synopsis_of c) = head c /\ list.last (synopsis_of c) = list.last c.
Proof.
  intros T R M Hs Hne Hlen. assert (length c <> 0%nat) by (by intros ?%nil_length_inv).
  pose proof (Z.log2_nonneg (Z.of_nat (length c))). pose proof (synopsis_of_length c) as HL. split_and!; [ | done | | ].
  - rewrite (get_blockchain_synopsis_spec rank n l ref c 0), Z.add_0_r, part_of_synopsis_all; done || lia.
  - rewrite !head_lookup, synopsis_lookup by (done || lia). cbn. by rewrite Z.div_1_r, Nat2Z.id, Nat.sub_diag.
  - rewrite !last_lookup, synopsis_lookup by (done || lia). rewrite HL. f_equal.
    replace (Z.of_nat (pred (Z.to_nat (Z.log2 (Z.of_nat (length c)) + 1)))) with (Z.log2 (Z.of_nat (length c))) by lia.
    assert (Z.of_nat (length c) / 2 ^ Z.log2 (Z.of_nat (length c)) = 1) as ->; [ | lia ].
    pose proof (Z.log2_spec (Z.of_nat (length c)) ltac:(lia)) as [Hlo Hhi]. rewrite Z.pow_succ_r in Hhi by lia.
    symmetry. apply (Z.div_unique _ _ _ (Z.of_nat (length c) - 2 ^ Z.log2 (Z.of_nat (length c)))); lia.
Qed.


(** The synopsis of 2^25 blocks or more, eleven years of them, is refused by
    every peer: the limit is meant for twenty years. *)
Theorem long_synopsis_refused (n : node) (c : list Z) (limit : Z) :
  2 ^ 25 <= Z.of_nat (length c) -> get_item_ids block_message_type (synopsis_of c) limit n = Throw fc_exception.
Proof.
  intros Hlen. unfold get_item_ids. rewrite bool_decide_eq_true_2 by done. cbn [fc_assert rbind].
  rewrite (proj2 (Nat.ltb_lt _ _)); [ done | ]. rewrite synopsis_of_length.
  assert (25 <= Z.log2 (Z.of_nat (length c))) by (apply Z.log2_le_pow2; lia). change blockchain_synopsis_size_limit with 25%nat. lia.
Qed.

(** C10: Two nodes find where their chains part: with fewer than 2^25 blocks,
    the reply of one to the synopsis of the other starts at or below the first
    block that only one of them has, so that it leaves out no block the other
    lacks, and lists no more blocks the other has than it has blocks of its own
    after the fork, and two more. The synopsis of 2^25 blocks or more is refused. *)
Theorem sync_finds_fork (n n' : node) (l l' : list Z) (limit : Z) :
  node_tree n -> node_tree n' -> main_chain n l -> main_chain n' l' -> all_numbered (nd_blocks n') ->
  l <> [] -> l' <> [] -> agree (nd_blocks n) (nd_blocks n') -> Z.of_nat (length l) < two32 - 1 -> 0 <= limit ->
  exists synopsis, get_blockchain_synopsis block_message_type 0 0 n = Ok synopsis
    /\ let reply := get_item_ids block_message_type synopsis limit n' in
       if Z.of_nat (length l) <? 2 ^ 25
       then exists i, reply = Ok (take (Z.to_nat limit) (drop i l'), Z.of_nat (length (drop (Z.to_nat limit) (drop i l'))))
              /\ take i l = take i l' /\ (shared l l' <= i + (length l - shared l l') + 1)%nat
       else reply = Throw fc_exception.
Proof.
  intros T T' M M' W Hne Hne' HA Hlen Hlim. assert (length l <> 0%nat) by (by intros ?%nil_length_inv). exists (synopsis_of l). split.
  - unfold get_blockchain_synopsis. rewrite bool_decide_eq_true_2 by done. cbn [fc_assert rbind Z.eqb].
    rewrite (main_chain_length _ _ T M). rewrite (proj2 (Z.eqb_neq _ _)) by lia.
    rewrite (summary_spec l 0), Z.add_0_r, part_of_synopsis_all; done || lia || (intros num Hnum; apply (chain_id_at n l); done || lia).
  - destruct (Z.ltb_spec (Z.of_nat (length l)) (2 ^ 25)) as [Hlt|Hge]; [ | by apply long_synopsis_refused ].
    destruct (synopsis_meets n n' l l' M M' HA Hne) as (i & Hs & Hi & Hov). exists i. split_and!; [ | | done ].
    + apply get_item_ids_spec; try done. rewrite synopsis_of_length.
      assert (Z.log2 (Z.of_nat (length l)) < 25) by (apply Z.log2_lt_pow2; lia). change blockchain_synopsis_size_limit with 25%nat. lia.
    + replace (take i l) with (take i (take (shared l l') l)) by (rewrite take_take; f_equal; lia).
      rewrite shared_take, take_take. f_equal. lia.
Qed.

End properties.

(** ** Concrete nodes *)

#[local] Existing Instance demo_crypto.
#[local] Existing Instance demo_tx.
#[local] Existing Instance demo_statics.
#[local] Existing Instance fork_crypto.
#[local] Existing Instance no_checkpoints.
#[local] Existing Instance no_games.
#[local] Existing Instance demo_sizes.

(** Two chains that part after their first block. *)
Definition our_second : full_block := demo_block_at (full_block_id other_first) 2 100010.
Definition ours : node := after [other_first; our_second].
Definition theirs : node := after [other_first; other_second; other_third].
Definition our_chain : list Z := [full_block_id other_first; full_block_id our_second].
Definition their_chain : list Z := map full_block_id [other_first; other_second; other_third].

(** Our synopsis has both blocks; the reply starts at the shared one. *)
Example fork_found :
  get_blockchain_synopsis block_message_type 0 0 ours = Ok our_chain
  /\ get_item_ids block_message_type our_chain 2 theirs = Ok (take 2 their_chain, 1)
  /\ get_item_ids block_message_type our_chain 2000 theirs = Ok (their_chain, 0).
Proof. vm_compute. done. Qed.

(** The id 0 of a synopsis is found on every chain, at number 0; the reply is
    then that of a node without blocks. *)
Example zero_id_empties_reply :
  get_item_ids block_message_type [0; full_block_id our_second] 2000 theirs = Ok ([], 0).
Proof. vm_compute. done. Qed.

Lemma ours_tree : node_tree ours.
Proof. unfold ours, after. cbn [foldl]. pushed_tree. Qed.
Lemma theirs_tree : node_tree theirs.
Proof. unfold theirs, after. cbn [foldl]. pushed_tree. Qed.
Lemma ours_chain : main_chain ours our_chain.
Proof. apply main_chain_check_sound. vm_compute. done. Qed.
Lemma theirs_chain : main_chain theirs their_chain.
Proof. apply main_chain_check_sound. vm_compute. done. Qed.

Lemma all_numbered_check B :
  bool_decide (map_Forall (fun _ b => (1 < num_of b \/ num_of b = 1 /\ prev_of b = 0) /\ num_of b < two32) B) = true -> all_numbered B.
Proof. intros H%bool_decide_eq_true id b Hb. apply (H id b Hb). Qed.

Lemma agree_check B B' :
  bool_decide (map_Forall (fun id b => prev_of b = prev_of (default b (B' !! id))) B) = true -> agree B B'.
Proof.
  intros H%bool_decide_eq_true id b b' Hb Hb'. specialize (H id b Hb). cbv beta in H. by rewrite Hb' in H.
Qed.

Lemma sync_finds_fork_witness : exists synopsis, get_blockchain_synopsis block_message_type 0 0 ours = Ok synopsis
  /\ let reply := get_item_ids block_message_type synopsis 2 theirs in
     if Z.of_nat (length our_chain) <? 2 ^ 25
     then exists i, reply = Ok (take 2 (drop i their_chain), Z.of_nat (length (drop 2 (drop i their_chain))))
            /\ take i our_chain = take i their_chain
            /\ (shared our_chain their_chain <= i + (length our_chain - shared our_chain their_chain) + 1)%nat
     else reply = Throw fc_exception.
Proof.
  refine (sync_finds_fork ours theirs our_chain their_chain 2 ours_tree theirs_tree ours_chain theirs_chain _ _ _ _ _ _).
  - apply all_numbered_check. vm_compute. done.
  - done.
  - done.
  - apply agree_check. vm_compute. done.
  - done.
  - done.
Defined.


Lemma linked_check n id : match nd_fork n !! id with Some d => fd_is_linked d | None => false end = true ->
  exists d, nd_fork n !! id = Some d /\ fd_is_linked d = true.
Proof. destruct (nd_fork n !! id) as [d|]; [ eauto | done ]. Qed.

(** The fork the chain left, summarized up to its last block. *)
Definition both : node := after [other_first; our_second; other_second; other_third].

Lemma both_tree : node_tree both.
Proof. unfold both, after. cbn [foldl]. pushed_tree. Qed.

Lemma synopsis_halves_witness :
  nd_head_id both = full_block_id other_third
  /\ get_blockchain_synopsis block_message_type (full_block_id our_second) 0 both = Ok (synopsis_of our_chain)
  /\ length (synopsis_of our_chain) = Z.to_nat (Z.log2 (Z.of_nat (length our_chain)) + 1)
  /\ head (synopsis_of our_chain) = head our_chain /\ list.last (synopsis_of our_chain) = list.last our_chain.
Proof.
  split; [ vm_compute; reflexivity | ].
  refine (synopsis_halves id_rank both their_chain (full_block_id our_second) our_chain both_tree _ _ _ _ _).
  - apply ranked_check. vm_compute. done.
  - apply main_chain_check_sound. vm_compute. done.
  - right. split; [ done | ]. split.
    + apply (path_snoc _ _ our_second [full_block_id other_first]); [ vm_compute; reflexivity | done | ].
      apply (path_snoc _ _ other_first []); [ vm_compute; reflexivity | done | constructor ].
    + apply linked_check. vm_compute. reflexivity.
  - done.
  - done.
Defined.

Lemma pushed_blocks_keep_chain_witness : chain_ok both.
Proof.
  apply (pushed_blocks_keep_chain id_rank fresh_node both [other_first; our_second; other_second; other_third]).
  - exact fresh_node_tree.
  - intros id b Hb. done.
  - intros id b Hb. done.
  - left. exists []. apply main_chain_check_sound. vm_compute. done.
  - repeat constructor; vm_compute; (done || lia || (left; done) || (right; done)).
  - apply after_reaches.
Defined.
