(* ===== verification/Sync.v ===== *)
(** The peer-to-peer node (net/node.cpp): synchronizing the chain with several
    peers at once, and passing on new blocks and transactions.

    The node runs on one thread of fibers. A handler here is what one fiber does
    from a message, or from its being scheduled, to its end; that other fibers
    may run while the client works is left out. The loops that sleep until they
    are triggered are one step each, and so is a block handed to the client.
    Messages, and connections to be closed, are appended to [p2_out]. Times of
    requests, by which slow peers are found, and the limit of the send queue are
    left out: a connection may close at any moment ([on_connection_closed]).
    The client is what implements [NodeDelegate]. *)

From S2P Require Import Prelude StateMonad Asset Records ChainInterface EvalState Tables PendingState ChainDatabase BlockOps Node ForkDb Pool Client.

#[export] Instance item_type_countable : Countable item_type.
Proof.
  refine (inj_countable' (fun k => match k with trx_message_type => 0%nat | block_message_type => 1%nat | other_message_type => 2%nat end)
    (fun n => match n with 0%nat => trx_message_type | 1%nat => block_message_type | _ => other_message_type end) _). by intros [].
Defined.
#[export] Instance item_id_countable : Countable item_id.
Proof. by refine (inj_countable' (fun i => (item_kind i, item_hash i)) (fun p => mk_item p.1 p.2) _); intros []. Defined.

Definition MIN_BLOCK_IDS_TO_PREFETCH : nat := 10000.
Definition FUTURE_SYNC_BLOCKS_GRACE_PERIOD_SEC : Z := 60 * 60.
Definition MAX_BLOCKS_PER_PEER_DURING_SYNCING : nat := 100.
Definition MAXIMUM_NUMBER_OF_BLOCKS_TO_HANDLE_AT_ONE_TIME : nat := 200.
Definition MAXIMUM_NUMBER_OF_BLOCKS_TO_PREFETCH : nat := 10 * MAXIMUM_NUMBER_OF_BLOCKS_TO_HANDLE_AT_ONE_TIME.
Definition DEFAULT_MAX_CONNECTIONS : nat := 200.
Definition MAX_ITEM_IDS : Z := 2000.
Definition MAX_INVENTORY_SIZE_IN_MINUTES : Z := 2.
Definition MAX_TRX_PER_SECOND : Z := 1.
Definition cache_duration_in_blocks : Z := 2.
Definition INSUFFICIENT_RELAY_FEE_PENALTY_SEC : Z := 15.

(** ** What the node asks of the client *)

Class NodeDelegate (D : Type) := {
  dg_has_item : item_id -> D -> result bool;
  dg_handle_message : client_message -> bool -> state_m D bool;
  dg_get_item_ids : item_type -> list Z -> D -> result (list Z * Z);
  dg_get_item : item_id -> D -> result client_message;
  dg_get_blockchain_synopsis : item_type -> Z -> Z -> D -> result (list Z);
  dg_sync_status : Z -> D -> D;
  dg_get_block_number : Z -> D -> result Z;
  dg_get_block_time : Z -> D -> result time;
  dg_get_blockchain_now : D -> time;
  dg_error_encountered : D -> D }.

#[export] Instance client_delegate `{FcI : Fc} `{Cr : Crypto} `{Tx : TxCrypto} `{St : Statics} `{Sz : Sizes} `{BC : BlockCrypto}
    `{Cp : Checkpoints} `{Gm : Games} : NodeDelegate client := {|
  dg_has_item := fun id c => has_item id (cl_node c);
  dg_handle_message := handle_message;
  dg_get_item_ids := fun kind synopsis c => get_item_ids kind synopsis MAX_ITEM_IDS (cl_node c);
  dg_get_item := fun id c => get_item id (cl_node c);
  dg_get_blockchain_synopsis := fun kind ref k c => get_blockchain_synopsis kind ref k (cl_node c);
  dg_sync_status := fun count c => fst (sync_status count c);
  dg_get_block_number := fun id c => get_block_num id (cl_node c);
  dg_get_block_time := fun id c => get_block_time id (cl_node c);
  dg_get_blockchain_now := fun c => db_clock (nd_db (cl_node c));
  dg_error_encountered := store_exception fc_exception |}.

(** ** The state of the node *)

Inductive connection_list := active | handshaking | closing.
#[export] Instance connection_list_eq_dec : EqDecision connection_list.
Proof. solve_decision. Defined.

(** [peer_connection]; the inventories have the time of each entry. *)
Record peer := mk_peer {
  pr_list : connection_list;
  pr_inbound : bool;
  pr_they_have_requested_close : bool;
  pr_we_have_requested_close : bool;
  pr_ids_of_items_to_get : list Z;
  pr_ids_of_items_being_processed : gset Z;
  pr_number_of_unfetched_item_ids : Z;
  pr_peer_needs_sync_items_from_us : bool;
  pr_we_need_sync_items_from_peer : bool;
  pr_item_ids_requested : option item_id;
  pr_sync_items_requested : gset Z;
  pr_last_block_number : Z;
  pr_last_block : Z;
  pr_last_block_time : time;
  pr_inhibit_fetching_sync_blocks : bool;
  pr_inventory_advertised_to_us : gmap item_id time;
  pr_inventory_advertised_to_peer : gmap item_id time;
  pr_items_requested : gset item_id;
  pr_transaction_fetching_inhibited_until : time;
  pr_last_known_fork_block_number : Z }.

Definition set_pr_connection (v : connection_list) (they we : bool) (p : peer) : peer :=
  mk_peer v (pr_inbound p) they we (pr_ids_of_items_to_get p) (pr_ids_of_items_being_processed p)
    (pr_number_of_unfetched_item_ids p) (pr_peer_needs_sync_items_from_us p) (pr_we_need_sync_items_from_peer p) (pr_item_ids_requested p)
    (pr_sync_items_requested p) (pr_last_block_number p) (pr_last_block p) (pr_last_block_time p) (pr_inhibit_fetching_sync_blocks p)
    (pr_inventory_advertised_to_us p) (pr_inventory_advertised_to_peer p) (pr_items_requested p) (pr_transaction_fetching_inhibited_until p)
    (pr_last_known_fork_block_number p).
(** The ids that are wanted from the peer, those handed to the client, and how
    many follow. *)
Definition set_pr_ids (to_get : list Z) (processed : gset Z) (unfetched : Z) (p : peer) : peer :=
  mk_peer (pr_list p) (pr_inbound p) (pr_they_have_requested_close p) (pr_we_have_requested_close p) to_get processed
    unfetched (pr_peer_needs_sync_items_from_us p) (pr_we_need_sync_items_from_peer p) (pr_item_ids_requested p)
    (pr_sync_items_requested p) (pr_last_block_number p) (pr_last_block p) (pr_last_block_time p) (pr_inhibit_fetching_sync_blocks p)
    (pr_inventory_advertised_to_us p) (pr_inventory_advertised_to_peer p) (pr_items_requested p) (pr_transaction_fetching_inhibited_until p)
    (pr_last_known_fork_block_number p).
Definition set_pr_needs (they we inhibit : bool) (p : peer) : peer :=
  mk_peer (pr_list p) (pr_inbound p) (pr_they_have_requested_close p) (pr_we_have_requested_close p) (pr_ids_of_items_to_get p)
    (pr_ids_of_items_being_processed p) (pr_number_of_unfetched_item_ids p) they we (pr_item_ids_requested p)
    (pr_sync_items_requested p) (pr_last_block_number p) (pr_last_block p) (pr_last_block_time p) inhibit
    (pr_inventory_advertised_to_us p) (pr_inventory_advertised_to_peer p) (pr_items_requested p) (pr_transaction_fetching_inhibited_until p)
    (pr_last_known_fork_block_number p).
Definition set_pr_requested (ids : option item_id) (sync : gset Z) (items : gset item_id) (p : peer) : peer :=
  mk_peer (pr_list p) (pr_inbound p) (pr_they_have_requested_close p) (pr_we_have_requested_close p) (pr_ids_of_items_to_get p)
    (pr_ids_of_items_being_processed p) (pr_number_of_unfetched_item_ids p) (pr_peer_needs_sync_items_from_us p)
    (pr_we_need_sync_items_from_peer p) ids sync (pr_last_block_number p) (pr_last_block p) (pr_last_block_time p)
    (pr_inhibit_fetching_sync_blocks p) (pr_inventory_advertised_to_us p) (pr_inventory_advertised_to_peer p) items
    (pr_transaction_fetching_inhibited_until p) (pr_last_known_fork_block_number p).
(** The last block of the peer that the client has. *)
Definition set_pr_last (num id : Z) (t : time) (p : peer) : peer :=
  mk_peer (pr_list p) (pr_inbound p) (pr_they_have_requested_close p) (pr_we_have_requested_close p) (pr_ids_of_items_to_get p)
    (pr_ids_of_items_being_processed p) (pr_number_of_unfetched_item_ids p) (pr_peer_needs_sync_items_from_us p)
    (pr_we_need_sync_items_from_peer p) (pr_item_ids_requested p) (pr_sync_items_requested p) num id t
    (pr_inhibit_fetching_sync_blocks p) (pr_inventory_advertised_to_us p) (pr_inventory_advertised_to_peer p) (pr_items_requested p)
    (pr_transaction_fetching_inhibited_until p) (pr_last_known_fork_block_number p).
Definition set_pr_inventory (to_us to_peer : gmap item_id time) (inhibited_until : time) (p : peer) : peer :=
  mk_peer (pr_list p) (pr_inbound p) (pr_they_have_requested_close p) (pr_we_have_requested_close p) (pr_ids_of_items_to_get p)
    (pr_ids_of_items_being_processed p) (pr_number_of_unfetched_item_ids p) (pr_peer_needs_sync_items_from_us p)
    (pr_we_need_sync_items_from_peer p) (pr_item_ids_requested p) (pr_sync_items_requested p) (pr_last_block_number p) (pr_last_block p)
    (pr_last_block_time p) (pr_inhibit_fetching_sync_blocks p) to_us to_peer (pr_items_requested p) inhibited_until
    (pr_last_known_fork_block_number p).

Definition is_active (p : peer) : bool := bool_decide (pr_list p = active).
Definition busy (p : peer) : bool :=
  negb (bool_decide (pr_items_requested p = ∅)) || negb (bool_decide (pr_sync_items_requested p = ∅))
  || match pr_item_ids_requested p with Some _ => true | None => false end.
Definition idle (p : peer) : bool := negb (busy p).

Inductive net_message :=
  | fetch_blockchain_item_ids (kind : item_type) (blockchain_synopsis : list Z)
  | blockchain_item_ids_inventory (kind : item_type) (total_remaining_item_count : Z) (item_hashes_available : list Z)
  | fetch_items (kind : item_type) (items_to_fetch : list Z)
  | item_not_available (requested_item : item_id)
  | item_ids_inventory (kind : item_type) (item_hashes_available : list Z)
  | client_item (m : client_message)
  (** [send_item]: the message is looked up when its turn comes *)
  | queued_item (id : item_id)
  | closing_connection
  | current_time_request.
(** What the node does to a connection. *)
Inductive output := send_message (m : net_message) | close_connection.

(** [_items_to_fetch]: blocks first, then by sequence number. *)
Record prioritized_item := mk_prioritized { pi_item : item_id; pi_sequence_number : Z }.

Record p2p (D : Type) := mk_p2p {
  p2_delegate : D;
  p2_now : time;
  p2_peers : gmap Z peer;
  p2_active_sync_requests : gset Z;
  p2_new_received_sync_items : list block_message;
  p2_received_sync_items : list block_message;
  (** the last of them at the end *)
  p2_most_recent_blocks_accepted : list Z;
  p2_total_number_of_unfetched_items : Z;
  p2_suspend_fetching_sync_blocks : bool;
  (** blocks handed to the client, whose calls have not ended *)
  p2_handle_message_calls : list block_message;
  p2_fetch_sync_items_triggered : bool;
  p2_process_backlog_scheduled : bool;
  p2_items_to_fetch : list prioritized_item;
  p2_items_to_fetch_sequence_counter : Z;
  p2_new_inventory : gset item_id;
  (** by the hash of the message: the message and the block clock *)
  p2_message_cache : gmap Z (client_message * Z);
  p2_block_clock : Z;
  p2_out : list (Z * output) }.
Arguments mk_p2p {D}.
Arguments p2_delegate {D}.
Arguments p2_now {D}.
Arguments p2_peers {D}.
Arguments p2_active_sync_requests {D}.
Arguments p2_new_received_sync_items {D}.
Arguments p2_received_sync_items {D}.
Arguments p2_most_recent_blocks_accepted {D}.
Arguments p2_total_number_of_unfetched_items {D}.
Arguments p2_suspend_fetching_sync_blocks {D}.
Arguments p2_handle_message_calls {D}.
Arguments p2_fetch_sync_items_triggered {D}.
Arguments p2_process_backlog_scheduled {D}.
Arguments p2_items_to_fetch {D}.
Arguments p2_items_to_fetch_sequence_counter {D}.
Arguments p2_new_inventory {D}.
Arguments p2_message_cache {D}.
Arguments p2_block_clock {D}.
Arguments p2_out {D}.

Section setters.
Context {D : Type}.
Implicit Types s : p2p D.

Definition set_p2_delegate (v : D) s : p2p D :=
  mk_p2p v (p2_now s) (p2_peers s) (p2_active_sync_requests s) (p2_new_received_sync_items s) (p2_received_sync_items s)
    (p2_most_recent_blocks_accepted s) (p2_total_number_of_unfetched_items s) (p2_suspend_fetching_sync_blocks s)
    (p2_handle_message_calls s) (p2_fetch_sync_items_triggered s) (p2_process_backlog_scheduled s) (p2_items_to_fetch s)
    (p2_items_to_fetch_sequence_counter s) (p2_new_inventory s) (p2_message_cache s) (p2_block_clock s) (p2_out s).
Definition set_p2_now (v : time) s : p2p D :=
  mk_p2p (p2_delegate s) v (p2_peers s) (p2_active_sync_requests s) (p2_new_received_sync_items s) (p2_received_sync_items s)
    (p2_most_recent_blocks_accepted s) (p2_total_number_of_unfetched_items s) (p2_suspend_fetching_sync_blocks s)
    (p2_handle_message_calls s) (p2_fetch_sync_items_triggered s) (p2_process_backlog_scheduled s) (p2_items_to_fetch s)
    (p2_items_to_fetch_sequence_counter s) (p2_new_inventory s) (p2_message_cache s) (p2_block_clock s) (p2_out s).
Definition set_p2_peers (v : gmap Z peer) s : p2p D :=
  mk_p2p (p2_delegate s) (p2_now s) v (p2_active_sync_requests s) (p2_new_received_sync_items s) (p2_received_sync_items s)
    (p2_most_recent_blocks_accepted s) (p2_total_number_of_unfetched_items s) (p2_suspend_fetching_sync_blocks s)
    (p2_handle_message_calls s) (p2_fetch_sync_items_triggered s) (p2_process_backlog_scheduled s) (p2_items_to_fetch s)
    (p2_items_to_fetch_sequence_counter s) (p2_new_inventory s) (p2_message_cache s) (p2_block_clock s) (p2_out s).
Definition set_p2_active_requests (v : gset Z) s : p2p D :=
  mk_p2p (p2_delegate s) (p2_now s) (p2_peers s) v (p2_new_received_sync_items s) (p2_received_sync_items s)
    (p2_most_recent_blocks_accepted s) (p2_total_number_of_unfetched_items s) (p2_suspend_fetching_sync_blocks s)
    (p2_handle_message_calls s) (p2_fetch_sync_items_triggered s) (p2_process_backlog_scheduled s) (p2_items_to_fetch s)
    (p2_items_to_fetch_sequence_counter s) (p2_new_inventory s) (p2_message_cache s) (p2_block_clock s) (p2_out s).
(** The blocks on their way to the client. *)
Definition set_p2_blocks (new_received received calls : list block_message) (suspend : bool) s : p2p D :=
  mk_p2p (p2_delegate s) (p2_now s) (p2_peers s) (p2_active_sync_requests s) new_received received
    (p2_most_recent_blocks_accepted s) (p2_total_number_of_unfetched_items s) suspend
    calls (p2_fetch_sync_items_triggered s) (p2_process_backlog_scheduled s) (p2_items_to_fetch s)
    (p2_items_to_fetch_sequence_counter s) (p2_new_inventory s) (p2_message_cache s) (p2_block_clock s) (p2_out s).
(** [_most_recent_blocks_accepted] is a circular buffer. *)
Definition set_p2_accepted (accepted : list Z) s : p2p D :=
  mk_p2p (p2_delegate s) (p2_now s) (p2_peers s) (p2_active_sync_requests s) (p2_new_received_sync_items s) (p2_received_sync_items s)
    accepted (p2_total_number_of_unfetched_items s) (p2_suspend_fetching_sync_blocks s)
    (p2_handle_message_calls s) (p2_fetch_sync_items_triggered s) (p2_process_backlog_scheduled s) (p2_items_to_fetch s)
    (p2_items_to_fetch_sequence_counter s) (p2_new_inventory s) (p2_message_cache s) (p2_block_clock s) (p2_out s).
Definition push_accepted (id : Z) s : p2p D :=
  let l := p2_most_recent_blocks_accepted s ++ [id] in set_p2_accepted (drop (length l - DEFAULT_MAX_CONNECTIONS) l) s.
Definition set_p2_total (v : Z) s : p2p D :=
  mk_p2p (p2_delegate s) (p2_now s) (p2_peers s) (p2_active_sync_requests s) (p2_new_received_sync_items s) (p2_received_sync_items s)
    (p2_most_recent_blocks_accepted s) v (p2_suspend_fetching_sync_blocks s)
    (p2_handle_message_calls s) (p2_fetch_sync_items_triggered s) (p2_process_backlog_scheduled s) (p2_items_to_fetch s)
    (p2_items_to_fetch_sequence_counter s) (p2_new_inventory s) (p2_message_cache s) (p2_block_clock s) (p2_out s).
Definition set_p2_scheduled (fetch backlog : bool) s : p2p D :=
  mk_p2p (p2_delegate s) (p2_now s) (p2_peers s) (p2_active_sync_requests s) (p2_new_received_sync_items s) (p2_received_sync_items s)
    (p2_most_recent_blocks_accepted s) (p2_total_number_of_unfetched_items s) (p2_suspend_fetching_sync_blocks s)
    (p2_handle_message_calls s) fetch backlog (p2_items_to_fetch s)
    (p2_items_to_fetch_sequence_counter s) (p2_new_inventory s) (p2_message_cache s) (p2_block_clock s) (p2_out s).
Definition set_p2_items_to_fetch (items : list prioritized_item) (counter : Z) s : p2p D :=
  mk_p2p (p2_delegate s) (p2_now s) (p2_peers s) (p2_active_sync_requests s) (p2_new_received_sync_items s) (p2_received_sync_items s)
    (p2_most_recent_blocks_accepted s) (p2_total_number_of_unfetched_items s) (p2_suspend_fetching_sync_blocks s)
    (p2_handle_message_calls s) (p2_fetch_sync_items_triggered s) (p2_process_backlog_scheduled s) items
    counter (p2_new_inventory s) (p2_message_cache s) (p2_block_clock s) (p2_out s).
Definition set_p2_cache (inventory : gset item_id) (cache : gmap Z (client_message * Z)) (clock : Z) s : p2p D :=
  mk_p2p (p2_delegate s) (p2_now s) (p2_peers s) (p2_active_sync_requests s) (p2_new_received_sync_items s) (p2_received_sync_items s)
    (p2_most_recent_blocks_accepted s) (p2_total_number_of_unfetched_items s) (p2_suspend_fetching_sync_blocks s)
    (p2_handle_message_calls s) (p2_fetch_sync_items_triggered s) (p2_process_backlog_scheduled s) (p2_items_to_fetch s)
    (p2_items_to_fetch_sequence_counter s) inventory cache clock (p2_out s).
Definition add_output (peer_id : Z) (o : output) s : p2p D :=
  mk_p2p (p2_delegate s) (p2_now s) (p2_peers s) (p2_active_sync_requests s) (p2_new_received_sync_items s) (p2_received_sync_items s)
    (p2_most_recent_blocks_accepted s) (p2_total_number_of_unfetched_items s) (p2_suspend_fetching_sync_blocks s)
    (p2_handle_message_calls s) (p2_fetch_sync_items_triggered s) (p2_process_backlog_scheduled s) (p2_items_to_fetch s)
    (p2_items_to_fetch_sequence_counter s) (p2_new_inventory s) (p2_message_cache s) (p2_block_clock s) (p2_out s ++ [(peer_id, o)]).
End setters.

Abbreviation p2p_m D := (state_m (p2p D)).

Section sync.
Context `{ND : NodeDelegate D}.
(** [_hard_fork_block_numbers], in order. *)
Variable hard_fork_block_numbers : list Z.

(** ** Peers *)

Definition read_peer (id : Z) : p2p_m D peer := nread (fun s => from_option_or undefined_behaviour (p2_peers s !! id)).
Definition update_peer (id : Z) (f : peer -> peer) : p2p_m D unit := nwrite (fun s => set_p2_peers (alter f id (p2_peers s)) s).
Definition ask {A} (f : D -> result A) : p2p_m D A := nread (fun s => f (p2_delegate s)).
Definition tell (f : D -> D) : p2p_m D unit := nwrite (fun s => set_p2_delegate (f (p2_delegate s)) s).
Definition send (id : Z) (m : net_message) : p2p_m D unit := nwrite (add_output id (send_message m)).
Definition each {A} (f : A -> p2p_m D unit) (l : list A) : p2p_m D unit := nfold (fun a _ => f a) l tt.

(** [_active_connections], in some order. *)
Definition active_connections (s : p2p D) : list (Z * peer) := filter (fun x => is_active x.2 = true) (map_to_list (p2_peers s)).

Definition trigger_fetch_sync_items_loop : p2p_m D unit := nwrite (fun s => set_p2_scheduled true (p2_process_backlog_scheduled s) s).
Definition trigger_process_backlog_of_sync_blocks : p2p_m D unit :=
  nwrite (fun s => set_p2_scheduled (p2_fetch_sync_items_triggered s) true s).

Definition disconnect_from_peer (id : Z) (caused_by_error : bool) : p2p_m D unit :=
  p <~ read_peer id ;;
  _ <~ (if pr_they_have_requested_close p then
          _ <~ update_peer id (set_pr_connection closing true (pr_we_have_requested_close p)) ;;
          nwrite (add_output id close_connection)
        else
          _ <~ update_peer id (set_pr_connection closing false true) ;;
          send id closing_connection) ;;
  if caused_by_error then tell dg_error_encountered else nret tt.

Definition on_closing_connection_message (id : Z) (closing_due_to_error : bool) : p2p_m D unit :=
  _ <~ update_peer id (fun p => set_pr_connection (pr_list p) true (pr_we_have_requested_close p) p) ;;
  _ <~ (if closing_due_to_error then tell dg_error_encountered else nret tt) ;;
  p <~ read_peer id ;;
  if pr_we_have_requested_close p then nwrite (add_output id close_connection) else nret tt.

Definition is_hard_fork_block (block_number : Z) : bool := bool_decide (block_number ∈ hard_fork_block_numbers).
Definition get_next_known_hard_fork_block_number (block_number : Z) : Z :=
  default 0 (head (filter (fun n => block_number < n) hard_fork_block_numbers)).
(** The peer does not know the hard fork at this block. *)
Definition outdated (block_num : Z) (p : peer) : bool :=
  negb (pr_last_known_fork_block_number p =? 0)
  && let next := get_next_known_hard_fork_block_number (pr_last_known_fork_block_number p) in
     negb (next =? 0) && (next <=? block_num).

(** ** The ids of the chain *)

(** The loop that adds ids the peer has offered to a synopsis. *)
Fixpoint offered_synopsis (fuel : nat) (ids_of_items_to_get : list Z) (reference_num true_high low : Z) : result (list Z) :=
  match fuel with
  | O => Throw undefined_behaviour
  | S fuel =>
      ids <- (if reference_num <? low
              then id <- from_option_or undefined_behaviour (ids_of_items_to_get !! Z.to_nat (low - reference_num - 1)) ;; Ok [id]
              else Ok []) ;;
      let low := uwrap32 (low + uwrap32 (true_high - low + 2) / 2) in
      if low <=? true_high then rest <- offered_synopsis fuel ids_of_items_to_get reference_num true_high low ;; Ok (ids ++ rest)
      else Ok ids
  end.

Definition create_blockchain_synopsis_for_peer (p : peer) (d : D) : result (list Z) :=
  let reference_point := pr_last_block p in
  let number_of_blocks_after := Z.of_nat (length (pr_ids_of_items_to_get p)) in
  synopsis <- dg_get_blockchain_synopsis block_message_type reference_point number_of_blocks_after d ;;
  if number_of_blocks_after =? 0 then Ok synopsis
  else
    offered <- offered_synopsis synopsis_fuel (pr_ids_of_items_to_get p) (pr_last_block_number p)
                 (uwrap32 (pr_last_block_number p + number_of_blocks_after)) 1 ;;
    Ok (synopsis ++ offered).

Definition fetch_next_batch_of_item_ids_from_peer (id : Z) : p2p_m D unit :=
  p <~ read_peer id ;;
  blockchain_synopsis <~ ask (create_blockchain_synopsis_for_peer p) ;;
  let last_item_seen := default 0 (list.last blockchain_synopsis) in
  _ <~ update_peer id (fun p => set_pr_requested (Some (mk_item block_message_type last_item_seen))
         (pr_sync_items_requested p) (pr_items_requested p) p) ;;
  send id (fetch_blockchain_item_ids block_message_type blockchain_synopsis).

Definition start_synchronizing_with_peer (id : Z) : p2p_m D unit :=
  genesis_time <~ ask (dg_get_block_time 0) ;;
  _ <~ update_peer id (fun p => set_pr_last 0 0 genesis_time
         (set_pr_needs (pr_peer_needs_sync_items_from_us p) true false
           (set_pr_ids [] (pr_ids_of_items_being_processed p) 0 p))) ;;
  fetch_next_batch_of_item_ids_from_peer id.

(** [move_peer_to_active_list] and [new_peer_just_added]. *)
Definition new_peer_just_added (id : Z) : p2p_m D unit :=
  _ <~ update_peer id (fun p => set_pr_connection active (pr_they_have_requested_close p) (pr_we_have_requested_close p) p) ;;
  _ <~ send id current_time_request ;;
  start_synchronizing_with_peer id.

(** A peer asks for ids. *)
Definition on_fetch_blockchain_item_ids_message (id : Z) (kind : item_type) (blockchain_synopsis : list Z) : p2p_m D unit :=
  reply <~ ask (dg_get_item_ids kind blockchain_synopsis) ;;
  let '(item_hashes_available, total_remaining) := reply in
  let at_our_head := match item_hashes_available, list.last blockchain_synopsis with
                     | [only], Some last => only =? last
                     | _, _ => false
                     end in
  let needs := negb (match item_hashes_available with [] => true | _ => at_our_head end) in
  _ <~ update_peer id (fun p => set_pr_needs needs (pr_we_need_sync_items_from_peer p) (pr_inhibit_fetching_sync_blocks p) p) ;;
  p <~ read_peer id ;;
  let disconnect_from_inhibited_peer := at_our_head && pr_inhibit_fetching_sync_blocks p in
  _ <~ match list.last blockchain_synopsis with
       | Some last_item_seen =>
           if pr_we_need_sync_items_from_peer p then nret tt
           else has <~ ask (dg_has_item (mk_item kind last_item_seen)) ;;
                if has : bool then nret tt else start_synchronizing_with_peer id
       | None => nret tt
       end ;;
  _ <~ send id (blockchain_item_ids_inventory kind total_remaining item_hashes_available) ;;
  if disconnect_from_inhibited_peer then disconnect_from_peer id false
  else
    if pr_inbound p && bool_decide (pr_list p = handshaking) then new_peer_just_added id else nret tt.

Definition calculate_unsynced_block_count_from_all_peers (s : p2p D) : Z :=
  foldr Z.max 0 (map (fun x => uwrap32 (Z.of_nat (length (pr_ids_of_items_to_get x.2)) + pr_number_of_unfetched_item_ids x.2))
    (active_connections s)).
(** Tells the client when nothing is left; and when the count has changed. *)
Definition report_in_sync : p2p_m D unit :=
  count <~ nread (fun s => Ok (calculate_unsynced_block_count_from_all_peers s)) ;;
  _ <~ nwrite (set_p2_total count) ;;
  if count =? 0 then tell (dg_sync_status 0) else nret tt.
Definition report_count : p2p_m D unit :=
  count <~ nread (fun s => Ok (calculate_unsynced_block_count_from_all_peers s)) ;;
  changed <~ nread (fun s => Ok (negb (count =? p2_total_number_of_unfetched_items s))) ;;
  _ <~ (if changed : bool then tell (dg_sync_status count) else nret tt) ;;
  nwrite (set_p2_total count).

(** The ids of [ids] after those at its front the client has; the last of
    these is the last block of the peer the client has. *)
Fixpoint flush_known (id : Z) (kind : item_type) (ids : list Z) : p2p_m D (list Z) :=
  match ids with
  | [] => nret []
  | front :: rest =>
      has <~ ask (dg_has_item (mk_item kind front)) ;;
      if has : bool then
        _ <~ update_peer id (fun p => set_pr_last (uwrap32 (pr_last_block_number p + 1)) front (pr_last_block_time p) p) ;;
        t <~ ask (dg_get_block_time front) ;;
        _ <~ update_peer id (fun p => set_pr_last (pr_last_block_number p) (pr_last_block p) t p) ;;
        flush_known id kind rest
      else nret ids
  end.

(** What is left of a list after popping its end down to [x]. *)
Fixpoint from_first (x : Z) (l : list Z) : list Z :=
  match l with
  | [] => []
  | y :: rest => if y =? x then l else from_first x rest
  end.
Definition popped_back_to (x : Z) (l : list Z) : list Z := rev (from_first x (rev l)).

(** The ids that are new to the list of the peer. *)
Definition merge_item_ids (id : Z) (kind : item_type) (available : list Z) : p2p_m D (list Z) :=
  p <~ read_peer id ;;
  match available, pr_ids_of_items_to_get p with
  | [], _ => nret []
  | front :: _, [] =>
      is_first_item_for_other_peer <~ nread (fun s => Ok (existsb (fun x => negb (x.1 =? id)
        && match pr_ids_of_items_to_get x.2 with other :: _ => other =? front | [] => false end) (active_connections s))) ;;
      if is_first_item_for_other_peer : bool then nret available else flush_known id kind available
  | front :: rest, to_get =>
      let kept := popped_back_to front to_get in
      match kept with
      | [] =>
          _ <~ update_peer id (fun p => set_pr_last (pr_last_block_number p) front (pr_last_block_time p)
                 (set_pr_ids [] (pr_ids_of_items_being_processed p) (pr_number_of_unfetched_item_ids p) p)) ;;
          num <~ ask (dg_get_block_number front) ;;
          _ <~ update_peer id (fun p => set_pr_last num front (pr_last_block_time p) p) ;;
          t <~ ask (dg_get_block_time front) ;;
          _ <~ update_peer id (fun p => set_pr_last num front t p) ;;
          nret rest
      | _ =>
          _ <~ update_peer id (fun p => set_pr_ids (removelast kept) (pr_ids_of_items_being_processed p) (pr_number_of_unfetched_item_ids p) p) ;;
          nret available
      end
  end.

(** A peer answers with ids. Times and block counts are 32-bit words. *)
Definition on_blockchain_item_ids_inventory_message (id : Z) (kind : item_type) (total_remaining_item_count : Z)
    (item_hashes_available : list Z) : p2p_m D unit :=
  p <~ read_peer id ;;
  match pr_item_ids_requested p with
  | None => nret tt
  | Some _ =>
      _ <~ update_peer id (fun p => set_pr_requested None (pr_sync_items_requested p) (pr_items_requested p) p) ;;
      seen_all <~
        (if total_remaining_item_count =? 0 then
           match item_hashes_available with
           | [] => nret true
           | [only] => ask (dg_has_item (mk_item kind only))
           | _ => nret false
           end
         else nret false) ;;
      if (seen_all : bool) && bool_decide (pr_ids_of_items_to_get p = []) && (pr_number_of_unfetched_item_ids p =? 0) then
        _ <~ update_peer id (fun p => set_pr_needs (pr_peer_needs_sync_items_from_us p) false (pr_inhibit_fetching_sync_blocks p) p) ;;
        report_in_sync
      else
        _ <~ update_peer id (fun p => set_pr_ids (pr_ids_of_items_to_get p) (pr_ids_of_items_being_processed p) total_remaining_item_count p) ;;
        item_hashes_received <~ merge_item_ids id kind item_hashes_available ;;
        _ <~ update_peer id (fun p => set_pr_ids (pr_ids_of_items_to_get p ++ item_hashes_received) (pr_ids_of_items_being_processed p)
               total_remaining_item_count p) ;;
        p <~ read_peer id ;;
        now <~ ask (fun d => Ok (dg_get_blockchain_now d)) ;;
        let minimum_time_of_last_offered_block :=
          uwrap32 (pr_last_block_time p + pr_number_of_unfetched_item_ids p * BLOCK_INTERVAL_SEC) in
        if uwrap32 (now + FUTURE_SYNC_BLOCKS_GRACE_PERIOD_SEC) <? minimum_time_of_last_offered_block then disconnect_from_peer id true
        else
          _ <~ report_count ;;
          let to_get := pr_ids_of_items_to_get p in
          if negb (total_remaining_item_count =? 0) then
            if Nat.ltb MIN_BLOCK_IDS_TO_PREFETCH (length to_get) then trigger_fetch_sync_items_loop
            else fetch_next_batch_of_item_ids_from_peer id
          else
            match to_get with
            | _ :: _ => trigger_fetch_sync_items_loop
            | [] => fetch_next_batch_of_item_ids_from_peer id
            end
  end.

(** ** The blocks of the chain *)

Definition have_already_received_sync_item (s : p2p D) (item_hash : Z) : bool :=
  existsb (fun m => bm_block_id m =? item_hash) (p2_received_sync_items s)
  || existsb (fun m => bm_block_id m =? item_hash) (p2_new_received_sync_items s).

(** What to ask of one peer, given what is asked of others already. *)
Fixpoint items_to_request (count : nat) (s : p2p D) (taken : gset Z) (ids : list Z) : list Z :=
  match count, ids with
  | O, _ | _, [] => []
  | S count', item :: ids =>
      if negb (have_already_received_sync_item s item) && bool_decide (item ∉ taken) && bool_decide (item ∉ p2_active_sync_requests s)
      then item :: items_to_request count' s ({[ item ]} ∪ taken) ids
      else items_to_request count s taken ids
  end.

(** The requests of one run of the loop, peer by peer. *)
Fixpoint schedule_requests (s : p2p D) (taken : gset Z) (peers : list (Z * peer)) : list (Z * list Z) :=
  match peers with
  | [] => []
  | (id, p) :: peers =>
      let items :=
        if pr_we_need_sync_items_from_peer p && idle p && negb (pr_inhibit_fetching_sync_blocks p)
        then items_to_request MAX_BLOCKS_PER_PEER_DURING_SYNCING s taken (pr_ids_of_items_to_get p) else [] in
      match items with
      | [] => schedule_requests s taken peers
      | _ => (id, items) :: schedule_requests s (list_to_set items ∪ taken) peers
      end
  end.

Definition request_sync_items_from_peer (request : Z * list Z) : p2p_m D unit :=
  let '(id, items) := request in
  _ <~ nwrite (fun s => set_p2_active_requests (list_to_set items ∪ p2_active_sync_requests s) s) ;;
  _ <~ update_peer id (fun p => set_pr_requested (pr_item_ids_requested p) (list_to_set items ∪ pr_sync_items_requested p)
         (pr_items_requested p) p) ;;
  send id (fetch_items block_message_type items).

(** One run of [fetch_sync_items_loop]. *)
Definition fetch_sync_items : p2p_m D unit :=
  _ <~ nwrite (fun s => set_p2_scheduled false (p2_process_backlog_scheduled s) s) ;;
  fun s =>
    if p2_suspend_fetching_sync_blocks s then (s, Ok tt)
    else each request_sync_items_from_peer (schedule_requests s ∅ (active_connections s)) s.

(** What an accepted block does to a peer, and what is to be done with it. *)
Inductive peer_action := keep_peer | disconnect_peer | ask_for_more | sync_again.
#[export] Instance peer_action_eq_dec : EqDecision peer_action.
Proof. solve_decision. Defined.

Definition after_accepted (m : block_message) (p : peer) : peer * peer_action :=
  let h := fb_header (bm_block m) in
  if is_hard_fork_block (bh_block_num h) && outdated (bh_block_num h) p then (p, disconnect_peer)
  else if bool_decide (pr_ids_of_items_to_get p = []) && bool_decide (pr_ids_of_items_being_processed p = ∅) then
    (p, if negb (pr_peer_needs_sync_items_from_us p) && negb (pr_we_need_sync_items_from_peer p) then sync_again else keep_peer)
  else if bool_decide (bm_block_id m ∈ pr_ids_of_items_being_processed p) then
    let processed := pr_ids_of_items_being_processed p ∖ {[ bm_block_id m ]} in
    (set_pr_ids (pr_ids_of_items_to_get p) processed (pr_number_of_unfetched_item_ids p)
       (set_pr_last (bh_block_num h) (bm_block_id m) (bh_timestamp h) p),
     if bool_decide (pr_ids_of_items_to_get p = []) && (pr_number_of_unfetched_item_ids p =? 0) && bool_decide (processed = ∅)
     then ask_for_more else keep_peer)
  else (p, keep_peer).

(** What a rejected one does. *)
Definition after_rejected (discontinue_fetching_blocks_from_peer : bool) (m : block_message) (p : peer) : peer * peer_action :=
  if bool_decide (bm_block_id m ∈ pr_ids_of_items_being_processed p) then
    if discontinue_fetching_blocks_from_peer
    then (set_pr_needs (pr_peer_needs_sync_items_from_us p) (pr_we_need_sync_items_from_peer p) true p, keep_peer)
    else (p, disconnect_peer)
  else (p, keep_peer).

(** The active peers that need an action. *)
Definition with_action (action : peer_action) (actions : list (Z * peer_action)) : list Z :=
  map fst (filter (fun x => x.2 = action) actions).

Definition send_sync_block_to_node_delegate (m : block_message) : p2p_m D unit :=
  handled <~ ncatch
    (_ <~ (fun s => let '(d, r) := dg_handle_message (a_block m) true (p2_delegate s) in (set_p2_delegate d s, r)) ;;
     _ <~ nwrite (push_accepted (bm_block_id m)) ;;
     nret None)
    (fun e => nret (Some e)) ;;
  let client_accepted_block := match handled with None => true | Some _ => false end in
  _ <~ (if client_accepted_block then nwrite (fun s => set_p2_total (uwrap32 (p2_total_number_of_unfetched_items s - 1)) s)
        else nret tt) ;;
  let change p := if negb (is_active p) then (p, keep_peer)
                  else if client_accepted_block then after_accepted m p
                  else after_rejected (bool_decide (handled = Some block_older_than_undo_history)) m p in
  actions <~ nread (fun s => Ok (map (fun x => (x.1, snd (change x.2))) (map_to_list (p2_peers s)))) ;;
  _ <~ nwrite (fun s => set_p2_peers ((fun p => fst (change p)) <$> p2_peers s) s) ;;
  _ <~ each (fun id => disconnect_from_peer id true) (with_action disconnect_peer actions) ;;
  _ <~ each fetch_next_batch_of_item_ids_from_peer (with_action ask_for_more actions) ;;
  _ <~ each start_synchronizing_with_peer (with_action sync_again actions) ;;
  trigger_process_backlog_of_sync_blocks.

(** The task of a call: it leaves the list when it ends, also by an
    exception. *)
Definition run_sync_block (i : nat) : p2p_m D unit :=
  fun s =>
    match p2_handle_message_calls s !! i with
    | None => (s, Ok tt)
    | Some m =>
        let '(s, r) := send_sync_block_to_node_delegate m s in
        (set_p2_blocks (p2_new_received_sync_items s) (p2_received_sync_items s) (delete i (p2_handle_message_calls s))
           (p2_suspend_fetching_sync_blocks s) s, r)
    end.

(** A block at the front of the list of a peer: it goes from there to the
    blocks handed to the client. *)
Definition fronts (block_id : Z) (p : peer) : bool :=
  is_active p && match pr_ids_of_items_to_get p with front :: _ => front =? block_id | [] => false end.
Definition hand_over (block_id : Z) (p : peer) : peer :=
  if fronts block_id p
  then set_pr_ids (tail (pr_ids_of_items_to_get p)) ({[ block_id ]} ∪ pr_ids_of_items_being_processed p) (pr_number_of_unfetched_item_ids p) p
  else p.
Definition fronts_some (s : p2p D) (m : block_message) : bool := existsb (fun x => fronts (bm_block_id m) x.2) (map_to_list (p2_peers s)).

(** The first of the blocks that some peer has at the front of its list, the
    blocks before it and those after it. *)
Fixpoint first_ready (s : p2p D) (received : list block_message) : option (list block_message * block_message * list block_message) :=
  match received with
  | [] => None
  | m :: received =>
      if fronts_some s m then Some ([], m, received)
      else match first_ready s received with
           | Some (before, x, after) => Some (m :: before, x, after)
           | None => None
           end
  end.

(** The loop of [process_backlog_of_sync_blocks]. A block that was accepted
    before stays among the received ones, and ends the loop. *)
Fixpoint process_received (fuel : nat) : p2p_m D unit :=
  fun s =>
    let received := rev (p2_new_received_sync_items s) ++ p2_received_sync_items s in
    let s := set_p2_blocks [] received (p2_handle_message_calls s) (p2_suspend_fetching_sync_blocks s) s in
    let '(s, again) :=
      match first_ready s received with
      | None => (s, false)
      | Some (before, m, after) =>
          let s := set_p2_peers (hand_over (bm_block_id m) <$> p2_peers s) s in
          if bool_decide (bm_block_id m ∈ p2_most_recent_blocks_accepted s) then (s, false)
          else (set_p2_blocks [] (before ++ after) (p2_handle_message_calls s ++ [m]) (p2_suspend_fetching_sync_blocks s) s, true)
      end in
    if Nat.leb MAXIMUM_NUMBER_OF_BLOCKS_TO_HANDLE_AT_ONE_TIME (length (p2_handle_message_calls s)) then
      (if Nat.leb MAXIMUM_NUMBER_OF_BLOCKS_TO_PREFETCH (length (p2_received_sync_items s))
       then set_p2_blocks (p2_new_received_sync_items s) (p2_received_sync_items s) (p2_handle_message_calls s) true s else s, Ok tt)
    else if again : bool then
      match fuel with
      | O => (s, Throw undefined_behaviour)
      | S fuel => process_received fuel s
      end
    else (s, Ok tt).

(** One run of the task, when it is scheduled. *)
Definition process_backlog_of_sync_blocks : p2p_m D unit :=
  _ <~ nwrite (fun s => set_p2_scheduled (p2_fetch_sync_items_triggered s) false s) ;;
  fun s =>
    if Nat.leb MAXIMUM_NUMBER_OF_BLOCKS_TO_HANDLE_AT_ONE_TIME (length (p2_handle_message_calls s)) then (s, Ok tt)
    else
      let s := set_p2_blocks (p2_new_received_sync_items s) (p2_received_sync_items s) (p2_handle_message_calls s) false s in
      (_ <~ process_received (S (length (p2_new_received_sync_items s) + length (p2_received_sync_items s))) ;;
       suspended <~ nread (fun s => Ok (p2_suspend_fetching_sync_blocks s)) ;;
       if suspended : bool then nret tt else trigger_fetch_sync_items_loop) s.

Definition process_block_during_sync (m : block_message) : p2p_m D unit :=
  _ <~ nwrite (fun s => set_p2_blocks (m :: p2_new_received_sync_items s) (p2_received_sync_items s) (p2_handle_message_calls s)
         (p2_suspend_fetching_sync_blocks s) s) ;;
  trigger_process_backlog_of_sync_blocks.
End sync.
