(* ===== verification/Inventory.v ===== *)
(** The peer-to-peer node in normal operation (net/node.cpp): what peers have,
    fetching it, giving it to the client and passing it on; the messages of the
    node, and the events of its life.

    New items are named by the hash of their message, the blocks of the chain by
    their id. *)

From S2P Require Import Prelude StateMonad Asset Records ChainInterface EvalState Tables PendingState ChainDatabase BlockOps Node ForkDb Pool Client Sync.

Class MessageHash := { message_id : client_message -> Z }.

Section inventory.
Context `{ND : NodeDelegate D} `{MH : MessageHash}.
Variable hard_fork_block_numbers : list Z.

Definition kind_of (m : client_message) : item_type :=
  match m with a_block _ => block_message_type | a_trx _ => trx_message_type | another_message => other_message_type end.

(** ** The cache of messages, kept for two blocks *)

Definition cache_message (m : client_message) (s : p2p D) : p2p D :=
  match p2_message_cache s !! message_id m with
  | Some _ => s
  | None => set_p2_cache (p2_new_inventory s) (<[message_id m := (m, p2_block_clock s)]> (p2_message_cache s)) (p2_block_clock s) s
  end.
Definition block_accepted (s : p2p D) : p2p D :=
  let clock := uwrap32 (p2_block_clock s + 1) in
  set_p2_cache (p2_new_inventory s)
    (if cache_duration_in_blocks <? clock
     then filter (fun x => clock - cache_duration_in_blocks <= x.2.2) (p2_message_cache s) else p2_message_cache s) clock s.
Definition get_message (message_hash : Z) (s : p2p D) : option client_message := fst <$> p2_message_cache s !! message_hash.

(** ** Inventories *)

Definition clear_old_inventory (now : time) (p : peer) : peer :=
  let oldest_inventory_to_keep := now - MAX_INVENTORY_SIZE_IN_MINUTES * 60 in
  let recent := filter (fun x : item_id * time => oldest_inventory_to_keep <= x.2) in
  set_pr_inventory (recent (pr_inventory_advertised_to_us p)) (recent (pr_inventory_advertised_to_peer p))
    (pr_transaction_fetching_inhibited_until p) p.
Definition advertised_to_us (p : peer) : Z := Z.of_nat (size (pr_inventory_advertised_to_us p)).
Definition is_inventory_advertised_to_us_list_full_for_transactions (p : peer) : bool :=
  MAX_INVENTORY_SIZE_IN_MINUTES * MAX_TRX_PER_SECOND * 60 <? advertised_to_us p.
Definition is_inventory_advertised_to_us_list_full (p : peer) : bool :=
  MAX_INVENTORY_SIZE_IN_MINUTES * MAX_TRX_PER_SECOND * 60
    + (MAX_INVENTORY_SIZE_IN_MINUTES + 1) * 60 / BLOCK_INTERVAL_SEC <? advertised_to_us p.
Definition in_inventory (item : item_id) (inventory : gmap item_id time) : bool :=
  match inventory !! item with Some _ => true | None => false end.
Definition is_item_in_any_peers_inventory (item : item_id) (s : p2p D) : bool :=
  existsb (fun x => in_inventory item (pr_inventory_advertised_to_us x.2)) (active_connections s).

(** An entry that is there keeps its time. *)
Definition insert_timestamped (item : item_id) (t : time) (inventory : gmap item_id time) : gmap item_id time :=
  if in_inventory item inventory then inventory else <[item := t]> inventory.

(** The numbers of the types; any type but these two is one here, with a
    smaller number. *)
Definition type_number (kind : item_type) : Z :=
  match kind with trx_message_type => 1000 | block_message_type => 1001 | other_message_type => 0 end.

(** The order of [prioritized_item_id]: blocks first, then the ones heard of
    first. *)
Definition before_item (a b : prioritized_item) : bool :=
  if bool_decide (item_kind (pi_item a) = item_kind (pi_item b)) then
    let d := uwrap32 (pi_sequence_number b - pi_sequence_number a) in (0 <? d) && (d <? two32 / 2)
  else type_number (item_kind (pi_item b)) <? type_number (item_kind (pi_item a)).
Fixpoint insert_prioritized (x : prioritized_item) (l : list prioritized_item) : list prioritized_item :=
  match l with
  | [] => [x]
  | y :: rest => if before_item x y then x :: l else y :: insert_prioritized x rest
  end.
Definition want_item (item : item_id) : p2p_m D unit :=
  nwrite (fun s =>
    let counter := uwrap32 (p2_items_to_fetch_sequence_counter s + 1) in
    if existsb (fun x => bool_decide (pi_item x = item)) (p2_items_to_fetch s) then set_p2_items_to_fetch (p2_items_to_fetch s) counter s
    else set_p2_items_to_fetch (insert_prioritized (mk_prioritized item (p2_items_to_fetch_sequence_counter s)) (p2_items_to_fetch s)) counter s).

(** The items a peer tells of, until its inventory is full. *)
Fixpoint note_items (id : Z) (kind : item_type) (items : list Z) : p2p_m D unit :=
  match items with
  | [] => nret tt
  | hash :: items =>
      let item := mk_item kind hash in
      s <~ nread (fun s => Ok s) ;;
      let we_advertised_this_item_to_a_peer := existsb (fun x => in_inventory item (pr_inventory_advertised_to_peer x.2)) (active_connections s) in
      let we_requested_this_item_from_a_peer := existsb (fun x => bool_decide (item ∈ pr_items_requested x.2)) (active_connections s) in
      if we_advertised_this_item_to_a_peer then note_items id kind items
      else
        p <~ read_peer id ;;
        if bool_decide (kind = trx_message_type) && is_inventory_advertised_to_us_list_full_for_transactions p
           || is_inventory_advertised_to_us_list_full p then nret tt
        else
          _ <~ update_peer id (fun p => set_pr_inventory (insert_timestamped item (p2_now s) (pr_inventory_advertised_to_us p))
                 (pr_inventory_advertised_to_peer p) (pr_transaction_fetching_inhibited_until p) p) ;;
          _ <~ (if we_requested_this_item_from_a_peer then nret tt else want_item item) ;;
          note_items id kind items
  end.
Definition on_item_ids_inventory_message (id : Z) (kind : item_type) (items : list Z) : p2p_m D unit :=
  now <~ nread (fun s => Ok (p2_now s)) ;;
  _ <~ update_peer id (clear_old_inventory now) ;;
  note_items id kind items.

(** One run of [fetch_items_loop]: each wanted item is asked of the first idle
    peer that has it. *)
Fixpoint fetch_wanted (wanted : list prioritized_item) : p2p_m D (list prioritized_item) :=
  match wanted with
  | [] => nret []
  | x :: wanted =>
      let item := pi_item x in
      s <~ nread (fun s => Ok s) ;;
      let can p := idle p && in_inventory item (pr_inventory_advertised_to_us p)
                   && negb ((p2_now s <? pr_transaction_fetching_inhibited_until p) && bool_decide (item_kind item = trx_message_type)) in
      match filter (fun y => can y.2 = true) (active_connections s) with
      | (id, _) :: _ =>
          _ <~ update_peer id (fun p => set_pr_requested (pr_item_ids_requested p) (pr_sync_items_requested p)
                 ({[ item ]} ∪ pr_items_requested p) p) ;;
          _ <~ send id (fetch_items (item_kind item) [item_hash item]) ;;
          fetch_wanted wanted
      | [] => left <~ fetch_wanted wanted ;; nret (x :: left)
      end
  end.
Definition fetch_items_step : p2p_m D unit :=
  wanted <~ nread (fun s => Ok (p2_items_to_fetch s)) ;;
  left <~ fetch_wanted wanted ;;
  nwrite (fun s => set_p2_items_to_fetch left (p2_items_to_fetch_sequence_counter s) s).

(** One run of [advertise_inventory_loop]: peers in sync are told of the new
    items they have not been told of and have not told of. *)
Definition kinds_to_advertise : list item_type := [trx_message_type; block_message_type; other_message_type].
Definition advertise_to (inventory : list item_id) (now : time) (id : Z) : p2p_m D unit :=
  p <~ read_peer id ;;
  _ <~ (if pr_peer_needs_sync_items_from_us p then nret tt
        else
          let news := filter (fun i => in_inventory i (pr_inventory_advertised_to_peer p) = false
                                       /\ in_inventory i (pr_inventory_advertised_to_us p) = false) inventory in
          _ <~ update_peer id (fun p => set_pr_inventory (pr_inventory_advertised_to_us p)
                 (foldr (fun i m => insert_timestamped i now m) (pr_inventory_advertised_to_peer p) news)
                 (pr_transaction_fetching_inhibited_until p) p) ;;
          each (fun kind => match map item_hash (filter (fun i => item_kind i = kind) news) with
                            | [] => nret tt
                            | hashes => send id (item_ids_inventory kind hashes)
                            end) kinds_to_advertise) ;;
  update_peer id (clear_old_inventory now).
Definition advertise_inventory : p2p_m D unit :=
  s <~ nread (fun s => Ok s) ;;
  _ <~ nwrite (fun s => set_p2_cache ∅ (p2_message_cache s) (p2_block_clock s) s) ;;
  each (advertise_to (elements (p2_new_inventory s)) (p2_now s)) (map fst (active_connections s)).

(** ** Passing on *)

Definition broadcast (m : client_message) : p2p_m D unit :=
  _ <~ match m with a_block b => nwrite (push_accepted (bm_block_id b)) | _ => nret tt end ;;
  _ <~ nwrite (cache_message m) ;;
  nwrite (fun s => set_p2_cache ({[ mk_item (kind_of m) (message_id m) ]} ∪ p2_new_inventory s) (p2_message_cache s) (p2_block_clock s) s).

Definition on_delegate {A} (f : state_m D A) : p2p_m D A :=
  fun s => let '(d, r) := f (p2_delegate s) in (set_p2_delegate d s, r).

(** The peer told us of this block. *)
Definition note_block_of_peer (m : block_message) (now : time) (p : peer) : peer :=
  if is_active p then
    let h := fb_header (bm_block m) in
    clear_old_inventory now
      (if in_inventory (mk_item block_message_type (message_id (a_block m))) (pr_inventory_advertised_to_us p)
       then set_pr_last (bh_block_num h) (bm_block_id m) (bh_timestamp h) p else p)
  else p.

Definition process_block_during_normal_operation (m : block_message) : p2p_m D unit :=
  let block_number := bh_block_num (fb_header (bm_block m)) in
  peers_to_disconnect <~ ncatch
    (known <~ nread (fun s => Ok (bool_decide (bm_block_id m ∈ p2_most_recent_blocks_accepted s))) ;;
     _ <~ (if known : bool then nret tt
           else _ <~ on_delegate (dg_handle_message (a_block m) false) ;; nwrite (push_accepted (bm_block_id m))) ;;
     _ <~ nwrite (fun s => set_p2_peers (note_block_of_peer m (p2_now s) <$> p2_peers s) s) ;;
     _ <~ broadcast (a_block m) ;;
     _ <~ nwrite block_accepted ;;
     nread (fun s => Ok (if is_hard_fork_block hard_fork_block_numbers block_number
                         then map fst (filter (fun x => outdated hard_fork_block_numbers block_number x.2 = true) (active_connections s)) else [])))
    (fun _ => nread (fun s => Ok (map fst (filter (fun x => fronts (bm_block_id m) x.2 = true) (active_connections s))))) ;;
  each (fun id => disconnect_from_peer id true) peers_to_disconnect.

(** A block from a peer. *)
Definition process_block_message (id : Z) (m : block_message) : p2p_m D unit :=
  let item := mk_item block_message_type (message_id (a_block m)) in
  p <~ read_peer id ;;
  if bool_decide (item ∈ pr_items_requested p) then
    _ <~ update_peer id (fun p => set_pr_requested (pr_item_ids_requested p) (pr_sync_items_requested p) (pr_items_requested p ∖ {[ item ]}) p) ;;
    process_block_during_normal_operation m
  else if bool_decide (bm_block_id m ∈ pr_sync_items_requested p) then
    _ <~ update_peer id (fun p => set_pr_requested (pr_item_ids_requested p) (pr_sync_items_requested p ∖ {[ bm_block_id m ]}) (pr_items_requested p) p) ;;
    _ <~ nwrite (fun s => set_p2_active_requests (p2_active_sync_requests s ∖ {[ bm_block_id m ]}) s) ;;
    _ <~ process_block_during_sync m ;;
    p <~ read_peer id ;;
    if idle p then
      if (0 <? pr_number_of_unfetched_item_ids p) && Nat.ltb (length (pr_ids_of_items_to_get p)) MIN_BLOCK_IDS_TO_PREFETCH
      then fetch_next_batch_of_item_ids_from_peer id else trigger_fetch_sync_items_loop
    else nret tt
  else disconnect_from_peer id true.

(** Any other message for the client. *)
Definition process_ordinary_message (id : Z) (m : client_message) : p2p_m D unit :=
  let item := mk_item (kind_of m) (message_id m) in
  p <~ read_peer id ;;
  if bool_decide (item ∈ pr_items_requested p) then
    _ <~ update_peer id (fun p => set_pr_requested (pr_item_ids_requested p) (pr_sync_items_requested p) (pr_items_requested p ∖ {[ item ]}) p) ;;
    handled <~ ncatch (_ <~ on_delegate (dg_handle_message m false) ;; nret None) (fun e => nret (Some e)) ;;
    match handled with
    | None => broadcast m
    | Some insufficient_relay_fee =>
        now <~ nread (fun s => Ok (p2_now s)) ;;
        if bool_decide (kind_of m = trx_message_type)
        then update_peer id (fun p => set_pr_inventory (pr_inventory_advertised_to_us p) (pr_inventory_advertised_to_peer p)
               (now + INSUFFICIENT_RELAY_FEE_PENALTY_SEC) p)
        else nret tt
    | Some _ => nret tt
    end
  else disconnect_from_peer id true.

(** ** Giving items *)

Definition get_message_for_item (item : item_id) (s : p2p D) : result net_message :=
  match get_message (item_hash item) s with
  | Some m => Ok (client_item m)
  | None =>
      match dg_get_item item (p2_delegate s) with
      | Ok m => Ok (client_item m)
      | Throw key_not_found_exception => Ok (item_not_available item)
      | Throw e => Throw e
      end
  end.

Fixpoint messages_for_items (kind : item_type) (items : list Z) (s : p2p D) : result (list net_message) :=
  match items with
  | [] => Ok []
  | hash :: items =>
      m <- get_message_for_item (mk_item kind hash) s ;; rest <- messages_for_items kind items s ;; Ok (m :: rest)
  end.

(** The last block sent becomes the last one of the peer; it is sent when its
    turn comes. *)
Definition on_fetch_items_message (id : Z) (kind : item_type) (items : list Z) : p2p_m D unit :=
  replies <~ nread (messages_for_items kind items) ;;
  let found := omap (fun m => match m with client_item m => Some m | _ => None end) replies in
  _ <~ (if bool_decide (kind = block_message_type) then
          match list.last found with
          | Some (a_block b) =>
              _ <~ update_peer id (fun p => set_pr_last (pr_last_block_number p) (bm_block_id b) (pr_last_block_time p) p) ;;
              num <~ ask (dg_get_block_number (bm_block_id b)) ;;
              _ <~ update_peer id (fun p => set_pr_last num (bm_block_id b) (pr_last_block_time p) p) ;;
              t <~ ask (dg_get_block_time (bm_block_id b)) ;;
              update_peer id (set_pr_last num (bm_block_id b) t)
          | Some _ => nthrow assert_exception
          | None => nret tt
          end
        else nret tt) ;;
  each (fun m => match m with
                 | client_item (a_block b) => send id (queued_item (mk_item block_message_type (bm_block_id b)))
                 | m => send id m
                 end) replies.

Definition on_item_not_available_message (id : Z) (requested_item : item_id) : p2p_m D unit :=
  p <~ read_peer id ;;
  if bool_decide (requested_item ∈ pr_items_requested p) then
    _ <~ update_peer id (fun p =>
           set_pr_inventory (delete requested_item (pr_inventory_advertised_to_us p)) (pr_inventory_advertised_to_peer p)
             (pr_transaction_fetching_inhibited_until p)
             (set_pr_requested (pr_item_ids_requested p) (pr_sync_items_requested p) (pr_items_requested p ∖ {[ requested_item ]}) p)) ;;
    elsewhere <~ nread (fun s => Ok (is_item_in_any_peers_inventory requested_item s)) ;;
    if elsewhere : bool then want_item requested_item else nret tt
  else if bool_decide (item_kind requested_item = block_message_type) && bool_decide (item_hash requested_item ∈ pr_sync_items_requested p) then
    _ <~ update_peer id (fun p => set_pr_requested (pr_item_ids_requested p) (pr_sync_items_requested p ∖ {[ item_hash requested_item ]})
           (pr_items_requested p) p) ;;
    _ <~ (if pr_peer_needs_sync_items_from_us p
          then update_peer id (fun p => set_pr_needs (pr_peer_needs_sync_items_from_us p) (pr_we_need_sync_items_from_peer p) true p)
          else disconnect_from_peer id true) ;;
    trigger_fetch_sync_items_loop
  else nret tt.

(** The connection is gone; what was asked of the peer is asked of others. *)
Definition on_connection_closed (id : Z) : p2p_m D unit :=
  p <~ read_peer id ;;
  _ <~ nwrite (fun s => set_p2_peers (delete id (p2_peers s)) s) ;;
  _ <~ (if bool_decide (pr_sync_items_requested p = ∅) then nret tt
        else
          _ <~ nwrite (fun s => set_p2_active_requests (p2_active_sync_requests s ∖ pr_sync_items_requested p) s) ;;
          trigger_fetch_sync_items_loop) ;;
  each (fun item => elsewhere <~ nread (fun s => Ok (is_item_in_any_peers_inventory item s)) ;;
                    if elsewhere : bool then want_item item else nret tt) (elements (pr_items_requested p)).

(** ** The node *)

(** What happens to the node: a message of a peer, a loop or a task that runs,
    a connection, the clock, and the client broadcasting an item of its own. *)
Inductive event :=
  | got_fetch_blockchain_item_ids (id : Z) (kind : item_type) (blockchain_synopsis : list Z)
  | got_blockchain_item_ids_inventory (id : Z) (kind : item_type) (total_remaining : Z) (available : list Z)
  | got_fetch_items (id : Z) (kind : item_type) (items : list Z)
  | got_item_not_available (id : Z) (requested_item : item_id)
  | got_item_ids_inventory (id : Z) (kind : item_type) (items : list Z)
  | got_closing_connection (id : Z) (closing_due_to_error : bool)
  | got_block (id : Z) (m : block_message)
  | got_other (id : Z) (m : client_message)
  | ran_fetch_sync_items
  | ran_process_backlog
  | ran_sync_block (i : nat)
  | ran_fetch_items
  | ran_advertise_inventory
  | connected (id : Z) (inbound : bool) (last_known_fork : Z)
  | handshake_complete (id : Z)
  | connection_closed (id : Z)
  | client_broadcast (m : client_message)
  | client_changed (d : D)
  | clock_ticked (now : time).

(** A new connection is not active yet; the last address message completes
    the handshake. *)
Definition new_connection (inbound : bool) (last_known_fork : Z) : peer :=
  mk_peer handshaking inbound false false [] ∅ 0 true true None ∅ 0 0 0 false ∅ ∅ ∅ 0 last_known_fork.

(** The tasks run only when they are scheduled. *)
Definition handle_event (e : event) : p2p_m D unit :=
  match e with
  | got_fetch_blockchain_item_ids id kind synopsis => on_fetch_blockchain_item_ids_message id kind synopsis
  | got_blockchain_item_ids_inventory id kind total available => on_blockchain_item_ids_inventory_message id kind total available
  | got_fetch_items id kind items => on_fetch_items_message id kind items
  | got_item_not_available id item => on_item_not_available_message id item
  | got_item_ids_inventory id kind items => on_item_ids_inventory_message id kind items
  | got_closing_connection id error => on_closing_connection_message id error
  | got_block id m => process_block_message id m
  | got_other id m => process_ordinary_message id m
  | ran_fetch_sync_items => fun s => if p2_fetch_sync_items_triggered s then fetch_sync_items s else (s, Ok tt)
  | ran_process_backlog => fun s => if p2_process_backlog_scheduled s then process_backlog_of_sync_blocks s else (s, Ok tt)
  | ran_sync_block i => run_sync_block hard_fork_block_numbers i
  | ran_fetch_items => fetch_items_step
  | ran_advertise_inventory => advertise_inventory
  | connected id inbound last_known_fork => fun s =>
      match p2_peers s !! id with
      | Some _ => (s, Ok tt)
      | None => (set_p2_peers (<[id := new_connection inbound last_known_fork]> (p2_peers s)) s, Ok tt)
      end
  | handshake_complete id =>
      p <~ read_peer id ;; if bool_decide (pr_list p = handshaking) then new_peer_just_added id else nret tt
  | connection_closed id => on_connection_closed id
  | client_broadcast m => broadcast m
  | client_changed d => nwrite (set_p2_delegate d)
  | clock_ticked now => nwrite (set_p2_now now)
  end.
End inventory.
