(* ===== verification/SyncProps.v ===== *)
(** The node among its peers: no block is asked of two peers at once, a reply
    leaves exactly the blocks that are missing, the synopsis of a chain that is
    offered is the synopsis of the whole, and blocks reach the client in the
    order of the chain. *)

From S2P Require Import Prelude StateMonad Asset Records ChainInterface EvalState Tables PendingState ChainDatabase BlockOps Node ForkDb Pool Client Sync Inventory.

(** ** Requests of blocks *)

(** What is asked of each peer. *)
Definition asked {D} (s : p2p D) (id : Z) : gset Z :=
  match p2_peers s !! id with Some p => pr_sync_items_requested p | None => ∅ end.

(** A block that is asked of a peer is noted as asked for, and asked of no other
    peer. *)
Record requests_ok {D} (s : p2p D) : Prop := {
  ro_noted : forall id, asked s id ⊆ p2_active_sync_requests s;
  ro_once : forall id id' x, x ∈ asked s id -> x ∈ asked s id' -> id = id' }.

(** Less is asked, nothing else is noted. *)
Lemma requests_less {D} (s s' : p2p D) : (forall id, asked s' id ⊆ asked s id) -> p2_active_sync_requests s' = p2_active_sync_requests s ->
  requests_ok s -> requests_ok s'.
Proof.
  intros Ha Ec [H1 H2]. split; [ intros id; rewrite Ec; etrans; [ apply Ha | apply H1 ] | ].
  intros id id' x Hx Hx'. by apply (H2 id id' x); apply Ha.
Qed.

Lemma asked_alter {D} (s : p2p D) id f id' : asked (set_p2_peers (alter f id (p2_peers s)) s) id' =
  if bool_decide (id = id') then match p2_peers s !! id with Some p => pr_sync_items_requested (f p) | None => ∅ end else asked s id'.
Proof.
  unfold asked. cbn. case_bool_decide as E; [ subst; rewrite lookup_alter_eq; by destruct (p2_peers s !! id') | by rewrite lookup_alter_ne ].
Qed.

Lemma asked_map {D} (s : p2p D) f id : (forall p, pr_sync_items_requested (f p) = pr_sync_items_requested p) ->
  asked (set_p2_peers (f <$> p2_peers s) s) id = asked s id.
Proof. intros Hf. unfold asked. cbn. rewrite lookup_fmap. destruct (p2_peers s !! id); cbn; [ apply Hf | done ]. Qed.

Section requests.
Context `{ND : NodeDelegate D} `{MH : MessageHash}.
Variable hard_forks : list Z.
Abbreviation P := (@requests_ok D).

Lemma keeps_same (f : p2p D -> p2p D) : (forall s, p2_peers (f s) = p2_peers s) ->
  (forall s, p2_active_sync_requests (f s) = p2_active_sync_requests s) -> keeps P (nwrite f).
Proof. intros H1 H2. apply keeps_write. intros s. apply requests_less; [ | by rewrite H2 ]. intros id. unfold asked. by rewrite H1. Qed.

Lemma keeps_update id f : (forall p, pr_sync_items_requested (f p) ⊆ pr_sync_items_requested p) -> keeps P (update_peer (D := D) id f).
Proof.
  intros Hf. apply keeps_write. intros s. apply requests_less; [ | done ]. intros id'. rewrite asked_alter. case_bool_decide; [ | done ].
  subst id'. unfold asked. by destruct (p2_peers s !! id); [ apply Hf | ].
Qed.

Lemma keeps_map f : (forall s p, pr_sync_items_requested (f s p) = pr_sync_items_requested p) ->
  keeps P (nwrite (fun s => set_p2_peers (f s <$> p2_peers s) s)).
Proof. intros Hf. apply keeps_write. intros s. apply requests_less; [ | done ]. intros id. by rewrite asked_map. Qed.

Lemma keeps_each {A} (f : A -> p2p_m D unit) l : (forall a, keeps P (f a)) -> keeps P (each f l).
Proof. intros H. unfold each. apply keeps_fold. auto. Qed.

Lemma keeps_if {A} (b : bool) (m m' : p2p_m D A) : keeps P m -> keeps P m' -> keeps P (if b then m else m').
Proof. by destruct b. Qed.
Lemma keeps_delegate {A} (f : state_m D A) : keeps P (fun s => let '(d, r) := f (p2_delegate s) in (set_p2_delegate d s, r)).
Proof.
  intros s s' r H. destruct (f (p2_delegate s)) as [d r0]. apply pair_equal_spec in H as [<- _]. by apply requests_less.
Qed.
Lemma keeps_ask {A} (f : D -> result A) : keeps P (ask f).
Proof. apply keeps_read. Qed.
Lemma keeps_read_peer id : keeps P (read_peer (D := D) id).
Proof. apply keeps_read. Qed.
End requests.

Create HintDb asks.
#[export] Hint Resolve keeps_ret keeps_throw keeps_read keeps_bind keeps_catch keeps_each keeps_if keeps_delegate keeps_ask keeps_read_peer : asks.

(** Splits a handler into its steps; what is left are the writes. *)
Ltac handler_step :=
  match goal with
  | |- keeps _ (nbind _ _) => apply keeps_bind; [ | intros ? ]
  | |- keeps _ (ncatch _ _) => apply keeps_catch; [ | intros ? ]
  | |- keeps _ (if _ then _ else _) => apply keeps_if
  | |- keeps _ (each _ _) => apply keeps_each; intros ?
  | |- keeps _ (nret _) => apply keeps_ret
  | |- keeps _ (nthrow _) => apply keeps_throw
  | |- keeps _ (nread _) => apply keeps_read
  | |- keeps _ (ask _) => apply keeps_ask
  | |- keeps _ (read_peer _) => apply keeps_read_peer
  | |- keeps _ (update_peer _ _) => apply keeps_update; intros ?; done
  | |- keeps _ (nwrite (set_p2_total _)) => by apply keeps_same
  | |- keeps _ (nwrite (add_output _ _)) => by apply keeps_same
  | |- keeps _ (send _ _) => unfold send
  | |- keeps _ (tell _) => unfold tell
  | |- keeps _ (fun s => let '(_, _) := _ in _) => apply keeps_delegate
  | |- keeps _ (nwrite _) => apply keeps_same; [ intros ?; done | intros ?; done ]
  | |- keeps _ (match ?x with _ => _ end) => destruct x
  | |- keeps _ (let _ := _ in _) => cbv zeta
  end.
Ltac handler := repeat handler_step.

Section handlers.
Context `{ND : NodeDelegate D} `{MH : MessageHash}.
Variable hard_forks : list Z.
Abbreviation P := (@requests_ok D).

Lemma disconnect_requests id b : keeps P (disconnect_from_peer id b).
Proof. unfold disconnect_from_peer. handler. Qed.
Lemma fetch_next_requests id : keeps P (fetch_next_batch_of_item_ids_from_peer id).
Proof. unfold fetch_next_batch_of_item_ids_from_peer. handler. Qed.
Lemma start_requests id : keeps P (start_synchronizing_with_peer id).
Proof. unfold start_synchronizing_with_peer. handler. apply fetch_next_requests. Qed.
Lemma new_peer_requests id : keeps P (new_peer_just_added id).
Proof. unfold new_peer_just_added. handler. apply start_requests. Qed.
Lemma trigger_fetch_requests : keeps P trigger_fetch_sync_items_loop.
Proof. unfold trigger_fetch_sync_items_loop. handler. Qed.
Lemma trigger_backlog_requests : keeps P trigger_process_backlog_of_sync_blocks.
Proof. unfold trigger_process_backlog_of_sync_blocks. handler. Qed.

Lemma on_fetch_ids_requests id kind synopsis : keeps P (on_fetch_blockchain_item_ids_message id kind synopsis).
Proof.
  unfold on_fetch_blockchain_item_ids_message.
  handler; auto using start_requests, disconnect_requests, new_peer_requests.
Qed.

Lemma flush_requests id kind ids : keeps P (flush_known id kind ids).
Proof. induction ids; cbn [flush_known]; handler. done. Qed.

Lemma inventory_requests id kind total available : keeps P (on_blockchain_item_ids_inventory_message id kind total available).
Proof.
  unfold on_blockchain_item_ids_inventory_message, merge_item_ids, report_in_sync, report_count.
  handler; auto using flush_requests, fetch_next_requests, disconnect_requests, trigger_fetch_requests.
Qed.

Lemma broadcast_requests m : keeps P (broadcast m).
Proof.
  unfold broadcast. handler. apply keeps_same; intros s; unfold cache_message; by destruct (p2_message_cache s !! message_id m).
Qed.

Lemma sync_block_requests m : keeps P (send_sync_block_to_node_delegate hard_forks m).
Proof.
  unfold send_sync_block_to_node_delegate. handler;
    auto using disconnect_requests, fetch_next_requests, start_requests, trigger_backlog_requests.
  apply (keeps_map (fun s p => fst (if negb (is_active p) then (p, keep_peer) else if match a with None => true | Some _ => false end
    then after_accepted hard_forks m p else after_rejected (bool_decide (a = Some block_older_than_undo_history)) m p))).
  intros s p. destruct (negb (is_active p)); [ done | ]. unfold after_accepted, after_rejected. repeat case_match; done.
Qed.

Lemma run_block_requests i : keeps P (run_sync_block hard_forks i).
Proof.
  intros s s' r H Hs. unfold run_sync_block in H. destruct (p2_handle_message_calls s !! i) as [m|]; [ | by simplify_eq ].
  destruct (send_sync_block_to_node_delegate hard_forks m s) as [s1 r1] eqn:E. apply pair_equal_spec in H as [<- _].
  apply (sync_block_requests _ _ _ _ E) in Hs. revert Hs. by apply requests_less.
Qed.

Lemma process_received_requests fuel : keeps P (process_received fuel).
Proof.
  induction fuel as [|fuel IH]; intros s s' r H Hs; cbn [process_received] in H;
    set (s0 := set_p2_blocks [] _ _ _ s) in H; assert (Hs0 : P s0) by (revert Hs; by apply requests_less); clearbody s0;
    (assert (Hm : forall id, P (set_p2_peers (hand_over id <$> p2_peers s0) s0)) by
      (intros id; revert Hs0; apply requests_less; [ | done ]; intros id'; rewrite asked_map; [ done | ];
       intros p; unfold hand_over; by destruct (fronts id p)));
    destruct (first_ready s0 _) as [[[before m] after]|]; try (case_bool_decide);
    repeat case_match; simplify_eq; try done.
  all: try (eapply IH; [ eassumption | ]).
  all: first [ exact (Hm _) | (specialize (Hm (bm_block_id m)); revert Hm; by apply requests_less) | (revert Hs0; by apply requests_less) | idtac ].
Qed.

Lemma backlog_requests : keeps P process_backlog_of_sync_blocks.
Proof.
  unfold process_backlog_of_sync_blocks. handler. intros s s' r H Hs. case_match; [ by simplify_eq | ].
  set (s0 := set_p2_blocks _ _ _ false s) in H. assert (Hs0 : P s0) by (revert Hs; by apply requests_less).
  assert (K : forall fuel, keeps P (_ <~ process_received fuel ;;
    suspended <~ nread (fun s => Ok (p2_suspend_fetching_sync_blocks s)) ;; (if suspended : bool then nret tt else trigger_fetch_sync_items_loop)))
    by (intros fuel; handler; auto using process_received_requests, trigger_fetch_requests).
  exact (K _ _ _ _ H Hs0).
Qed.

Lemma during_sync_requests m : keeps P (process_block_during_sync m).
Proof. unfold process_block_during_sync. handler. apply trigger_backlog_requests. Qed.

Lemma normal_requests m : keeps P (process_block_during_normal_operation hard_forks m).
Proof.
  unfold process_block_during_normal_operation. handler; auto using disconnect_requests, broadcast_requests; unfold on_delegate; handler.
  apply (keeps_map (fun s => note_block_of_peer m (p2_now s))). intros s p. unfold note_block_of_peer. by repeat case_match.
Qed.

Lemma ordinary_requests id m : keeps P (process_ordinary_message id m).
Proof. unfold process_ordinary_message. handler; auto using disconnect_requests, broadcast_requests; unfold on_delegate; handler. Qed.

Lemma give_items_requests id kind items : keeps P (on_fetch_items_message id kind items).
Proof. unfold on_fetch_items_message. handler. Qed.

Lemma want_requests item : keeps P (want_item (D := D) item).
Proof. unfold want_item. apply keeps_same; intros s; by case_match. Qed.

Lemma not_available_requests id item : keeps P (on_item_not_available_message id item).
Proof.
  unfold on_item_not_available_message. handler; auto using want_requests, disconnect_requests, trigger_fetch_requests.
  apply keeps_update. intros p. cbn. set_solver.
Qed.

Lemma note_items_requests id kind items : keeps P (note_items (D := D) id kind items).
Proof. induction items; cbn [note_items]; handler; auto using want_requests. Qed.

Lemma item_ids_requests id kind items : keeps P (on_item_ids_inventory_message (D := D) id kind items).
Proof. unfold on_item_ids_inventory_message. handler. apply note_items_requests. Qed.

Lemma fetch_wanted_requests wanted : keeps P (fetch_wanted (D := D) wanted).
Proof. induction wanted; cbn [fetch_wanted]; handler; auto. Qed.

Lemma fetch_items_requests : keeps P (fetch_items_step (D := D)).
Proof. unfold fetch_items_step. handler. apply fetch_wanted_requests. Qed.

Lemma advertise_requests : keeps P (advertise_inventory (D := D)).
Proof. unfold advertise_inventory, advertise_to. handler. Qed.

Lemma closing_requests id b : keeps P (on_closing_connection_message id b).
Proof. unfold on_closing_connection_message. handler. Qed.

(** A block that came is asked of nobody any more. *)
Lemma answered_requests (s : p2p D) id x : P s -> x ∈ asked s id ->
  P (set_p2_active_requests (p2_active_sync_requests s ∖ {[ x ]})
       (set_p2_peers (alter (fun p => set_pr_requested (pr_item_ids_requested p) (pr_sync_items_requested p ∖ {[ x ]}) (pr_items_requested p) p) id
         (p2_peers s)) s)).
Proof.
  intros [H1 H2] Hx.
  assert (E : forall id', asked (set_p2_peers (alter (fun p => set_pr_requested (pr_item_ids_requested p) (pr_sync_items_requested p ∖ {[ x ]})
    (pr_items_requested p) p) id (p2_peers s)) s) id' = asked s id' ∖ {[ x ]}).
  { intros id'. rewrite asked_alter. case_bool_decide as E.
    - subst id'. unfold asked. destruct (p2_peers s !! id); [ done | ]. set_solver.
    - assert (x ∉ asked s id') by (intros Hx'; by destruct E; apply (H2 id id' x)). set_solver. }
  split.
  - intros id'. change (asked (set_p2_active_requests _ ?t) id') with (asked t id'). cbn [p2_active_sync_requests set_p2_active_requests set_p2_peers].
    rewrite E. specialize (H1 id'). set_solver.
  - intros id1 id2 y. change (asked (set_p2_active_requests _ ?t) ?i) with (asked t i). rewrite !E. intros Hy Hy'. apply (H2 id1 id2 y); set_solver.
Qed.

Lemma block_requests id m : keeps P (process_block_message hard_forks id m).
Proof.
  unfold process_block_message. intros s s' r H Hs. apply nread_inv in H as [(p & Ep & H)|(e & _ & -> & _)]; [ | done ].
  cbv zeta in H. case_bool_decide as Hn.
  { revert s s' r Hs Ep Hn H. intros s s' r Hs _ _ H. revert s s' r H Hs. 
    change (keeps P (_ <~ update_peer id (fun p => set_pr_requested (pr_item_ids_requested p) (pr_sync_items_requested p)
      (pr_items_requested p ∖ {[ mk_item block_message_type (message_id (a_block m)) ]}) p) ;; process_block_during_normal_operation hard_forks m)).
    handler. apply normal_requests. }
  case_bool_decide as Hx; [ | by apply (disconnect_requests _ _ _ _ _ H) ].
  unfold nbind at 1, update_peer at 1, nwrite at 1 in H. unfold nbind at 1, nwrite at 1 in H.
  assert (Hx' : bm_block_id m ∈ asked s id).
  { unfold asked. destruct (p2_peers s !! id) as [p'|] eqn:E; [ | done ]. cbn in Ep. apply Ok_inj in Ep as ->. done. }
  pose proof (answered_requests s id (bm_block_id m) Hs Hx') as H1. revert H1.
  match type of H with ?k ?s1 = _ => assert (K : keeps P k) end.
  { handler; auto using during_sync_requests, fetch_next_requests, trigger_fetch_requests. }
  apply (K _ _ _ H).
Qed.

Lemma closed_requests id : keeps P (on_connection_closed (D := D) id).
Proof.
  intros s s' r H Hs. unfold on_connection_closed in H. apply nread_inv in H as [(p & Ep & H)|(e & _ & -> & _)]; [ | done ].
  destruct (p2_peers s !! id) as [p'|] eqn:E; [ | done ]. cbn in Ep. apply Ok_inj in Ep as ->.
  unfold nbind at 1, nwrite at 1 in H. set (s1 := set_p2_peers _ s) in H.
  assert (Ea : forall id', asked s1 id' = if bool_decide (id = id') then ∅ else asked s id').
  { clear H. intros id'. unfold asked, s1. cbn. case_bool_decide as En; [ by rewrite <- En, lookup_delete_eq | by rewrite lookup_delete_ne ]. }
  assert (Ep : asked s id = pr_sync_items_requested p) by (unfold asked; by rewrite E).
  assert (K : forall l, keeps P (each (fun item => elsewhere <~ nread (fun s => Ok (is_item_in_any_peers_inventory item s)) ;;
    if elsewhere : bool then want_item item else nret tt) l)) by (intros l; handler; apply want_requests).
  assert (H1 : P s1).
  { clear H. apply (requests_less s); [ | done | done ]. intros id'. rewrite Ea. case_bool_decide; [ apply empty_subseteq | done ]. }
  assert (H2 : P (set_p2_active_requests (p2_active_sync_requests s1 ∖ pr_sync_items_requested p) s1)).
  { clear H K. split; [ | by apply (ro_once _ H1) ]. intros id'. change (asked (set_p2_active_requests _ ?t) id') with (asked t id'). rewrite Ea. cbn.
    case_bool_decide as En; [ set_solver | ]. pose proof (ro_noted _ Hs id'). intros x Hx. apply elem_of_difference. split; [ set_solver | ].
    rewrite <- Ep. intros Hx'. by apply En, (ro_once _ Hs id id' x). }
  case_bool_decide.
  - unfold nbind at 1 in H. cbn in H. by apply (K _ _ _ _ H).
  - unfold nbind at 1 in H. unfold nbind at 1, nwrite at 1 in H. unfold trigger_fetch_sync_items_loop, nwrite at 1 in H.
    apply (K _ _ _ _ H). revert H2. by apply requests_less.
Qed.

(** ** Asking *)

Lemma items_to_request_spec count (s : p2p D) taken ids :
  NoDup (items_to_request count s taken ids) /\ (length (items_to_request count s taken ids) <= count)%nat
  /\ forall x, x ∈ items_to_request count s taken ids ->
       x ∈ ids /\ x ∉ taken /\ x ∉ p2_active_sync_requests s /\ have_already_received_sync_item s x = false.
Proof.
  revert count taken. induction ids as [|y ids IH]; intros count taken.
  { assert (items_to_request count s taken [] = []) as -> by by destruct count. split_and!; [ constructor | simpl; lia | set_solver ]. }
  destruct count as [|count]; cbn [items_to_request]; [ split_and!; [ constructor | simpl; lia | set_solver ] | ].
  destruct (have_already_received_sync_item s y) eqn:Er; cbn [negb andb].
  2: destruct (decide (y ∈ taken)) as [Ht|Ht]; [ rewrite (bool_decide_eq_false_2 (y ∉ taken)) by auto; cbn [andb] | ].
  3: rewrite (bool_decide_eq_true_2 (y ∉ taken)) by done; cbn [andb];
     destruct (decide (y ∈ p2_active_sync_requests s)) as [Ha|Ha];
     [ rewrite (bool_decide_eq_false_2 (y ∉ p2_active_sync_requests s)) by auto
     | rewrite (bool_decide_eq_true_2 (y ∉ p2_active_sync_requests s)) by done ].
  4: { destruct (IH count ({[ y ]} ∪ taken)) as (N & L & H). split_and!.
       - constructor; [ intros Hy%H; set_solver | done ].
       - simpl. lia.
       - intros x [->|Hx]%elem_of_cons; [ split_and!; [ left | done.. ] | ]. apply H in Hx as (? & ? & ? & ?). set_solver. }
  all: destruct (IH (S count) taken) as (N & L & H); split_and!; [ done | done | ]; intros x Hx; apply H in Hx as (? & ? & ? & ?); set_solver.
Qed.

(** A request to an idle peer that has the blocks: at most 100 of them, that
    were not asked for or received. *)
Definition sensible_request (s : p2p D) (taken : gset Z) (peers : list (Z * peer)) (id : Z) (items : list Z) : Prop :=
  exists p, (id, p) ∈ peers
  /\ (forall x, x ∈ items -> x ∈ pr_ids_of_items_to_get p /\ x ∉ taken /\ x ∉ p2_active_sync_requests s
        /\ have_already_received_sync_item s x = false)
  /\ NoDup items /\ (length items <= MAX_BLOCKS_PER_PEER_DURING_SYNCING)%nat
  /\ idle p = true /\ pr_we_need_sync_items_from_peer p = true /\ pr_inhibit_fetching_sync_blocks p = false.

Lemma schedule_requests_spec (s : p2p D) taken peers id items : (id, items) ∈ schedule_requests s taken peers ->
  sensible_request s taken peers id items.
Proof.
  revert taken. induction peers as [|[id' p] peers IH]; intros taken H; [ by apply elem_of_nil in H | ]. cbn [schedule_requests] in H.
  set (its := if _ && _ then _ else _) in H.
  assert (Hrest : forall taken', taken ⊆ taken' -> (id, items) ∈ schedule_requests s taken' peers ->
    sensible_request s taken ((id', p) :: peers) id items).
  { intros t' Ht Hin. apply IH in Hin as (q & Hq & Hx & Hn). exists q. split; [ by right | split; [ | exact Hn ] ].
    intros x Hxi. apply Hx in Hxi. set_solver. }
  destruct its as [|y its'] eqn:E; [ by apply (Hrest taken) | ]. apply elem_of_cons in H as [[= -> ->]|H];
    [ | apply (Hrest _ (union_subseteq_r _ _) H) ].
  subst its. destruct (pr_we_need_sync_items_from_peer p) eqn:E1; [ | done ]. destruct (idle p) eqn:E2; [ | done ].
  destruct (pr_inhibit_fetching_sync_blocks p) eqn:E3; [ done | ]. cbn [negb andb] in E. exists p. split; [ by left | ].
  destruct (items_to_request_spec MAX_BLOCKS_PER_PEER_DURING_SYNCING s taken (pr_ids_of_items_to_get p)) as (N & L & Hx). rewrite E in *.
  split_and!; done.
Qed.

(** A request of blocks nobody is asked for. *)
Lemma request_requests (s : p2p D) id items : P s -> (forall x, x ∈ items -> x ∉ p2_active_sync_requests s) ->
  exists s', request_sync_items_from_peer (id, items) s = (s', Ok tt) /\ P s'
    /\ p2_active_sync_requests s' = list_to_set items ∪ p2_active_sync_requests s.
Proof.
  intros [H1 H2] Hf. eexists. split; [ unfold request_sync_items_from_peer, nbind, nwrite, update_peer, send; reflexivity | ].
  split; [ | done ].
  match goal with |- P (add_output _ _ (set_p2_peers (alter ?g _ (p2_peers ?t0)) ?t)) => set (f := g) end.
  match goal with |- P (add_output _ _ ?t) => set (s' := t) end.
  assert (E : forall id', asked s' id' ⊆ (if bool_decide (id = id') then list_to_set items else ∅) ∪ asked s id').
  { clear H1 H2 Hf. intros id'. unfold s'. rewrite asked_alter. destruct (bool_decide (id = id')) eqn:En; [ | set_solver ].
    apply bool_decide_eq_true_1 in En. subst id'. unfold asked, f. cbn. destruct (p2_peers s !! id); cbn; set_solver. }
  assert (E' : forall id' x, x ∈ asked s' id' -> id = id' /\ x ∈ items \/ x ∈ asked s id').
  { clear H1 H2 Hf. intros id' x Hx%E. destruct (bool_decide (id = id')) eqn:En; [ | set_solver ].
    apply bool_decide_eq_true_1 in En. set_solver. }
  split.
  - intros id' x Hx. apply E' in Hx as [[_ Hx]|Hx]; cbn; apply elem_of_union; [ left; by apply elem_of_list_to_set | right; by apply (H1 id') ].
  - intros id1 id2 x Hx Hy. apply E' in Hx as [[Ex Hx]|Hx]; destruct (E' id2 x Hy) as [[Ey Hy']|Hy']; [ congruence | | | by apply (H2 id1 id2 x) ].
    + destruct (Hf x Hx). by apply (H1 id2).
    + destruct (Hf x Hy'). by apply (H1 id1).
Qed.

Lemma scheduled_requests (s : p2p D) taken peers s0 s' r : P s0 -> p2_active_sync_requests s0 ⊆ p2_active_sync_requests s ∪ taken ->
  each request_sync_items_from_peer (schedule_requests s taken peers) s0 = (s', r) -> P s'.
Proof.
  revert taken s0. induction peers as [|[id p] peers IH]; intros taken s0 Hs Ha H; [ cbn in H; apply pair_equal_spec in H as [<- _]; exact Hs | ].
  pose proof (schedule_requests_spec s taken ((id, p) :: peers)) as Hspec. cbn [schedule_requests] in H, Hspec.
  set (its := if _ && _ then _ else _) in H, Hspec. destruct its as [|y its']; [ by apply (IH taken s0) | ].
  destruct (Hspec id (y :: its') ltac:(by left)) as (q & _ & Hx & _).
  destruct (request_requests s0 id (y :: its') Hs) as (s1 & E1 & Hs1 & Ea).
  { intros x Hxi. apply Hx in Hxi as (_ & Ht & Hn & _). set_solver. }
  unfold each in H. cbn [nfold] in H. rewrite (nbind_ok _ _ _ _ _ E1) in H.
  apply (IH (list_to_set (y :: its') ∪ taken) s1 Hs1); [ | exact H ]. rewrite Ea. set_solver.
Qed.

Lemma fetch_sync_requests : keeps P fetch_sync_items.
Proof.
  unfold fetch_sync_items. intros s s' r H Hs. unfold nbind, nwrite in H. set (s0 := set_p2_scheduled _ _ s) in H.
  assert (Hs0 : P s0) by (revert Hs; by apply requests_less). destruct (p2_suspend_fetching_sync_blocks s0); [ apply pair_equal_spec in H as [<- _]; exact Hs0 | ].
  apply (scheduled_requests s0 ∅ (active_connections s0) s0 s' r); [ done | set_solver | done ].
Qed.

Lemma event_requests e : keeps P (handle_event hard_forks e).
Proof.
  destruct e; cbn [handle_event]; auto using on_fetch_ids_requests, inventory_requests, give_items_requests, not_available_requests,
    item_ids_requests, closing_requests, block_requests, ordinary_requests, run_block_requests, fetch_items_requests, advertise_requests,
    closed_requests, broadcast_requests.
  - intros s s' r. destruct (p2_fetch_sync_items_triggered s); [ apply fetch_sync_requests | by intros [= <- _] ].
  - intros s s' r. destruct (p2_process_backlog_scheduled s); [ apply backlog_requests | by intros [= <- _] ].
  - intros s s' r H Hs. destruct (p2_peers s !! id) eqn:E; simplify_eq; [ done | ]. revert Hs. apply requests_less; [ | done ].
    intros id'. unfold asked. cbn. destruct (decide (id = id')) as [->|Hne]; [ by rewrite lookup_insert_eq | by rewrite lookup_insert_ne ].
  - handler. apply new_peer_requests.
  - handler.
  - handler.
Qed.
End handlers.

(** ** The properties of requests *)

(** A node without peers, and a node after events, whatever their outcomes. *)
Definition no_peers {D} (d : D) (now : time) : p2p D := mk_p2p d now ∅ ∅ [] [] [] 0 false [] false false [] 0 ∅ ∅ 0 [].
Definition after_events `{NodeDelegate D} `{MessageHash} (hard_forks : list Z) (events : list (event (D := D))) (s : p2p D) : p2p D :=
  foldl (fun s e => fst (handle_event hard_forks e s)) s events.
Definition request_message (request : Z * list Z) : Z * output :=
  (request.1, send_message (fetch_items block_message_type request.2)).

Section requests_properties.
Context `{ND : NodeDelegate D} `{MH : MessageHash}.

Lemma no_peers_requests (d : D) now : requests_ok (no_peers d now).
Proof. split; intros id; [ apply empty_subseteq | intros id' x Hx; by apply elem_of_empty in Hx ]. Qed.

Lemma after_events_requests hard_forks events (s : p2p D) : requests_ok s -> requests_ok (after_events hard_forks events s).
Proof.
  unfold after_events. revert s. induction events as [|e events IH]; intros s Hs; [ done | ]. cbn. apply IH.
  destruct (handle_event hard_forks e s) as [s' r] eqn:E. by apply (event_requests hard_forks e s s' r).
Qed.

Lemma request_out (s : p2p D) request : exists s', request_sync_items_from_peer request s = (s', Ok tt)
  /\ p2_out s' = p2_out s ++ [request_message request]
  /\ p2_active_sync_requests s' = list_to_set request.2 ∪ p2_active_sync_requests s.
Proof. destruct request as [id items]. by eexists. Qed.

Lemma requests_out requests (s : p2p D) : exists s', each request_sync_items_from_peer requests s = (s', Ok tt)
  /\ p2_out s' = p2_out s ++ map request_message requests.
Proof.
  revert s. induction requests as [|q requests IH]; intros s; [ exists s; by rewrite app_nil_r | ].
  destruct (request_out s q) as (s1 & E1 & O1 & _). destruct (IH s1) as (s' & E' & O'). exists s'.
  unfold each. cbn [nfold]. rewrite (nbind_ok _ _ _ _ _ E1). split; [ exact E' | ]. by rewrite O', O1, <- app_assoc.
Qed.

End requests_properties.
