(* ===== verification/SyncOrder.v ===== *)
(** The blocks of a synchronization on their way to the client: a block waits
    until it is the next one of some peer, and blocks are handed over in the
    order in which the peers list them. The ids a node asks a peer for and takes
    from it: the synopsis it sends while ids are outstanding, and what it keeps
    of a reply. *)

From S2P Require Import Prelude StateMonad Asset Records ChainInterface EvalState Transaction Tables PendingState ChainDatabase Concrete BlockOps Node ForkDb.
From S2P Require Import ForkTree ForkStore NodeTree ForkSwitch ForkDemo ForkProps Pool BlockMaking MainChain Client ClientProps Sync Inventory SyncProps.

(** ** What a peer is rid of *)

(** The front of the list of a peer that goes with the blocks handed over. *)
Fixpoint popped (handed to_get : list Z) : list Z :=
  match handed, to_get with
  | x :: handed, y :: rest => if y =? x then x :: popped handed rest else popped handed to_get
  | _, _ => []
  end.
Definition rid_of (handed : list Z) (p : peer) : peer :=
  if is_active p then
    let gone := popped handed (pr_ids_of_items_to_get p) in
    set_pr_ids (drop (length gone) (pr_ids_of_items_to_get p)) (list_to_set gone ∪ pr_ids_of_items_being_processed p)
      (pr_number_of_unfetched_item_ids p) p
  else p.

Lemma popped_nil handed : popped handed [] = [].
Proof. by destruct handed. Qed.
Lemma popped_none to_get : popped [] to_get = [].
Proof. by destruct to_get. Qed.

Lemma popped_sublist handed to_get : popped handed to_get `sublist_of` handed.
Proof.
  revert to_get. induction handed as [|x handed IH]; intros [|y to_get]; cbn; try apply sublist_nil_l.
  destruct (y =? x); [ apply sublist_skip, IH | apply sublist_cons, IH ].
Qed.

Lemma popped_prefix handed to_get : popped handed to_get `prefix_of` to_get.
Proof.
  revert to_get. induction handed as [|x handed IH]; intros [|y to_get]; cbn; try apply prefix_nil; try done.
  destruct (Z.eqb_spec y x) as [->|]; [ by apply prefix_cons | apply IH ].
Qed.

Lemma popped_split handed to_get : to_get = popped handed to_get ++ drop (length (popped handed to_get)) to_get.
Proof.
  destruct (popped_prefix handed to_get) as [k Hk]. revert Hk. generalize (popped handed to_get). intros gone ->. by rewrite drop_app_length.
Qed.

Lemma rid_of_nothing p : rid_of [] p = p.
Proof. unfold rid_of. destruct (is_active p) eqn:E; [ | done ]. rewrite popped_none. cbn. rewrite union_empty_l_L. by destruct p. Qed.

Lemma rid_of_cons x handed p : rid_of (x :: handed) p = rid_of handed (hand_over x p).
Proof.
  unfold rid_of, hand_over, fronts. destruct (is_active p) eqn:E; cbn [andb]; [ | by rewrite E ].
  destruct (pr_ids_of_items_to_get p) as [|y rest] eqn:Eg; [ by rewrite E, Eg, !popped_nil | ]. cbn [popped].
  destruct (Z.eqb_spec y x) as [->|Hne]; [ | by rewrite E, Eg ].
  change (is_active (set_pr_ids _ _ _ p)) with (is_active p). rewrite E. unfold set_pr_ids. cbn. f_equal. set_solver.
Qed.

Section backlog.
Context `{ND : NodeDelegate D}.
Implicit Types s : p2p D.

Lemma first_ready_spec s received before m after : first_ready s received = Some (before, m, after) ->
  received = before ++ m :: after /\ fronts_some s m = true.
Proof.
  revert before. induction received as [|x received IH]; intros before H; [ done | ]. cbn in H. destruct (fronts_some s x) eqn:E; [ by simplify_eq | ].
  destruct (first_ready s received) as [[[b y] a]|]; [ | done ]. simplify_eq. by destruct (IH b) as [-> ?].
Qed.

Lemma first_ready_none s received m : first_ready s received = None -> m ∈ received -> fronts_some s m = false.
Proof.
  induction received as [|x received IH]; intros H Hm; [ by apply elem_of_nil in Hm | ]. cbn in H. destruct (fronts_some s x) eqn:E; [ done | ].
  destruct (first_ready s received) as [[[b y] a]|]; [ done | ]. apply elem_of_cons in Hm as [->|Hm]; [ done | by apply IH ].
Qed.

Lemma fronts_some_spec s m : fronts_some s m = true <->
  exists id p rest, p2_peers s !! id = Some p /\ is_active p = true /\ pr_ids_of_items_to_get p = bm_block_id m :: rest.
Proof.
  unfold fronts_some. rewrite existsb_exists. split.
  - intros ([id p] & Hin%list_elem_of_In%elem_of_map_to_list & Hf). cbn in Hf. unfold fronts in Hf. apply andb_true_iff in Hf as [Ha Hf].
    destruct (pr_ids_of_items_to_get p) as [|y rest] eqn:E; [ done | ]. apply Z.eqb_eq in Hf as ->. by exists id, p, rest.
  - intros (id & p & rest & Hp & Ha & E). exists (id, p). split; [ by apply list_elem_of_In, elem_of_map_to_list | ].
    cbn. unfold fronts. by rewrite Ha, E, Z.eqb_refl.
Qed.

(** All blocks received and not yet handed over, in the order they are
    looked at. *)
Definition all_received s : list block_message := rev (p2_new_received_sync_items s) ++ p2_received_sync_items s.
Definition waits s (m : block_message) : Prop := fronts_some s m = false.

(** The blocks handed over, the block accepted before at which the loop stopped,
    if there is one, and what is left. *)
Record backlog_done (s s' : p2p D) (handed : list block_message) (stopped : option block_message) : Prop := {
  bd_calls : p2_handle_message_calls s' = p2_handle_message_calls s ++ handed;
  bd_received : all_received s ≡ₚ handed ++ p2_received_sync_items s' /\ p2_new_received_sync_items s' = [];
  bd_peers : p2_peers s' = rid_of (map bm_block_id (handed ++ option_list stopped)) <$> p2_peers s;
  bd_wanted : forall m, m ∈ handed ++ option_list stopped -> exists id p, p2_peers s !! id = Some p /\ is_active p = true
                /\ bm_block_id m ∈ popped (map bm_block_id (handed ++ option_list stopped)) (pr_ids_of_items_to_get p);
  bd_fresh : forall m, m ∈ handed -> bm_block_id m ∉ p2_most_recent_blocks_accepted s;
  bd_stopped : forall m, stopped = Some m -> bm_block_id m ∈ p2_most_recent_blocks_accepted s /\ m ∈ p2_received_sync_items s' }.

(** A block that some peer has first is taken off the lists. *)
Lemma wanted_step s s1 m passed : p2_peers s1 = hand_over (bm_block_id m) <$> p2_peers s -> fronts_some s m = true ->
  (forall x, x ∈ passed -> exists id p, p2_peers s1 !! id = Some p /\ is_active p = true
     /\ bm_block_id x ∈ popped (map bm_block_id passed) (pr_ids_of_items_to_get p)) ->
  forall x, x ∈ m :: passed -> exists id p, p2_peers s !! id = Some p /\ is_active p = true
     /\ bm_block_id x ∈ popped (map bm_block_id (m :: passed)) (pr_ids_of_items_to_get p).
Proof.
  intros Ep (id & p & rest & Hp & Ha & Eg)%fronts_some_spec Bw.
  intros x [->|Hx]%elem_of_cons.
  - exists id, p. split_and!; [ done | done | ]. rewrite Eg. cbn. rewrite Z.eqb_refl. by left.
  - destruct (Bw x Hx) as (i & q' & Hq' & Ha' & Hin). rewrite Ep, lookup_fmap in Hq'.
    destruct (p2_peers s !! i) as [q|] eqn:Hq; [ | done ]. cbn in Hq'. apply (inj Some) in Hq' as <-. exists i, q. revert Ha' Hin.
    unfold hand_over, fronts. destruct (is_active q) eqn:Hqa; cbn [andb]; [ | intros Ha'; congruence ].
    destruct (pr_ids_of_items_to_get q) as [|y r] eqn:Egq; [ intros _ Hin; by rewrite Egq, popped_nil in Hin | ]. cbn [map popped].
    destruct (Z.eqb_spec y (bm_block_id m)) as [->|Hne]; intros _ Hin; split_and!; try done; [ by right | by rewrite Egq in Hin ].
Qed.

Lemma peers_step s s1 m passed peers : p2_peers s1 = hand_over (bm_block_id m) <$> p2_peers s ->
  peers = rid_of (map bm_block_id passed) <$> p2_peers s1 -> peers = rid_of (map bm_block_id (m :: passed)) <$> p2_peers s.
Proof. intros Ep ->. rewrite Ep, <- map_fmap_compose. apply map_fmap_ext. intros i q _. cbn. by rewrite rid_of_cons. Qed.

Lemma backlog_done_step s s1 s' m handed stopped :
  p2_handle_message_calls s1 = p2_handle_message_calls s ++ [m] -> all_received s ≡ₚ m :: all_received s1 ->
  p2_peers s1 = hand_over (bm_block_id m) <$> p2_peers s -> fronts_some s m = true ->
  p2_most_recent_blocks_accepted s1 = p2_most_recent_blocks_accepted s -> bm_block_id m ∉ p2_most_recent_blocks_accepted s ->
  backlog_done s1 s' handed stopped -> backlog_done s s' (m :: handed) stopped.
Proof.
  intros Ec Er Ep Hf Ea Hm [Bc [Br Bn] Bp Bw Bf Bs]. rewrite Ea in *. split.
  - by rewrite Bc, Ec, <- app_assoc.
  - split; [ by rewrite Er, Br | done ].
  - by apply (peers_step s s1).
  - by apply (wanted_step s s1).
  - intros x [->|Hx]%elem_of_cons; [ done | by apply Bf ].
  - done.
Qed.

Lemma rid_of_none (peers : gmap Z peer) : peers = rid_of [] <$> peers.
Proof. symmetry. etrans; [ | apply map_fmap_id ]. apply map_fmap_ext. intros i p _. apply rid_of_nothing. Qed.

Lemma backlog_done_none s s' : p2_handle_message_calls s' = p2_handle_message_calls s -> p2_received_sync_items s' = all_received s ->
  p2_new_received_sync_items s' = [] -> p2_peers s' = p2_peers s -> backlog_done s s' [] None.
Proof.
  intros Ec Er En Ep. split; [ by rewrite Ec, app_nil_r | by rewrite Er | | | | done ].
  - rewrite Ep. apply rid_of_none.
  - intros m Hm; by apply elem_of_nil in Hm.
  - intros m Hm; by apply elem_of_nil in Hm.
Qed.

Lemma backlog_done_stopped s s' m : p2_handle_message_calls s' = p2_handle_message_calls s -> p2_received_sync_items s' = all_received s ->
  p2_new_received_sync_items s' = [] -> p2_peers s' = hand_over (bm_block_id m) <$> p2_peers s -> fronts_some s m = true ->
  m ∈ all_received s -> bm_block_id m ∈ p2_most_recent_blocks_accepted s -> backlog_done s s' [] (Some m).
Proof.
  intros Ec Er En Ep Hf Hm Ha. split; [ by rewrite Ec, app_nil_r | by rewrite Er | | | | ].
  - apply (peers_step s s' m []); [ done | apply rid_of_none ].
  - apply (wanted_step s s' m []); [ done.. | ]. intros x Hx. by apply elem_of_nil in Hx.
  - intros x Hx. by apply elem_of_nil in Hx.
  - intros x [= <-]. by rewrite Er.
Qed.

(** When the loop ends: nothing can be handed over, or enough is, or it stopped
    at a block accepted before. *)
Definition backlog_ended (s : p2p D) (stopped : option block_message) : Prop :=
  (length (p2_handle_message_calls s) <= MAXIMUM_NUMBER_OF_BLOCKS_TO_HANDLE_AT_ONE_TIME)%nat
  /\ (stopped <> None \/ length (p2_handle_message_calls s) = MAXIMUM_NUMBER_OF_BLOCKS_TO_HANDLE_AT_ONE_TIME
      \/ Forall (waits s) (p2_received_sync_items s)).
(** Too much is waiting to ask for more. *)
Definition prefetched (s : p2p D) : bool :=
  Nat.leb MAXIMUM_NUMBER_OF_BLOCKS_TO_HANDLE_AT_ONE_TIME (length (p2_handle_message_calls s))
  && Nat.leb MAXIMUM_NUMBER_OF_BLOCKS_TO_PREFETCH (length (p2_received_sync_items s)).

(** What one round does. *)
Definition round_start s : p2p D := set_p2_blocks [] (all_received s) (p2_handle_message_calls s) (p2_suspend_fetching_sync_blocks s) s.
Definition handed_one s (before after : list block_message) (m : block_message) : p2p D :=
  let s1 := set_p2_peers (hand_over (bm_block_id m) <$> p2_peers s) s in
  set_p2_blocks [] (before ++ after) (p2_handle_message_calls s1 ++ [m]) (p2_suspend_fetching_sync_blocks s1) s1.

Definition finish s : p2p D :=
  if prefetched s then set_p2_blocks (p2_new_received_sync_items s) (p2_received_sync_items s) (p2_handle_message_calls s) true s else s.

Lemma process_received_step fuel s : process_received fuel s =
  match first_ready (round_start s) (all_received s) with
  | None => (finish (round_start s), Ok tt)
  | Some (before, m, after) =>
      if bool_decide (bm_block_id m ∈ p2_most_recent_blocks_accepted s)
      then (finish (set_p2_peers (hand_over (bm_block_id m) <$> p2_peers s) (round_start s)), Ok tt)
      else if Nat.leb MAXIMUM_NUMBER_OF_BLOCKS_TO_HANDLE_AT_ONE_TIME (S (length (p2_handle_message_calls s)))
           then (finish (handed_one (round_start s) before after m), Ok tt)
           else match fuel with
                | O => (handed_one (round_start s) before after m, Throw undefined_behaviour)
                | Datatypes.S fuel => process_received fuel (handed_one (round_start s) before after m)
                end
  end.
Proof.
  assert (Hl : forall before m after,
    length (p2_handle_message_calls (handed_one (round_start s) before after m)) = S (length (p2_handle_message_calls s)))
    by (intros; cbn; rewrite length_app; cbn; lia).
  unfold finish, prefetched.
  destruct fuel; cbn [process_received]; fold (all_received s); fold (round_start s);
    (destruct (first_ready (round_start s) (all_received s)) as [[[before m] after]|];
     [ change (p2_most_recent_blocks_accepted (set_p2_peers _ (round_start s))) with (p2_most_recent_blocks_accepted s);
       destruct (bool_decide (bm_block_id m ∈ p2_most_recent_blocks_accepted s));
       [ | change (set_p2_blocks [] (before ++ after) _ _ _) with (handed_one (round_start s) before after m); rewrite Hl ] | ]);
    destruct (Nat.leb MAXIMUM_NUMBER_OF_BLOCKS_TO_HANDLE_AT_ONE_TIME _); cbn [andb]; try done; by destruct (Nat.leb _ _).
Qed.

Lemma finish_done s0 s handed stopped : backlog_done s0 s handed stopped -> backlog_done s0 (finish s) handed stopped.
Proof. unfold finish. destruct (prefetched s); [ | done ]. by intros [? ? ? ? ? ?]. Qed.

Lemma finish_ended s stopped : backlog_ended s stopped -> backlog_ended (finish s) stopped.
Proof. unfold finish. by destruct (prefetched s). Qed.

Lemma finish_suspended s : p2_suspend_fetching_sync_blocks s = false -> p2_suspend_fetching_sync_blocks (finish s) = prefetched (finish s).
Proof. intros Hs. unfold finish. destruct (prefetched s) eqn:E; [ symmetry; exact E | congruence ]. Qed.

Lemma process_received_spec fuel s : (length (all_received s) <= fuel)%nat ->
  (length (p2_handle_message_calls s) < MAXIMUM_NUMBER_OF_BLOCKS_TO_HANDLE_AT_ONE_TIME)%nat -> p2_suspend_fetching_sync_blocks s = false ->
  exists s' handed stopped, process_received fuel s = (s', Ok tt) /\ backlog_done s s' handed stopped /\ backlog_ended s' stopped
    /\ p2_suspend_fetching_sync_blocks s' = prefetched s'.
Proof.
  revert s. induction fuel as [fuel IH] using lt_wf_ind. intros s Hf Hc Hs. rewrite process_received_step.
  destruct (first_ready (round_start s) (all_received s)) as [[[before m] after]|] eqn:Ef.
  - destruct (first_ready_spec _ _ _ _ _ Ef) as [El Hm].
    assert (Hin : m ∈ all_received s) by (rewrite El; apply elem_of_app; right; by left).
    destruct (bool_decide (bm_block_id m ∈ p2_most_recent_blocks_accepted s)) eqn:Eb.
    { apply bool_decide_eq_true in Eb. eexists _, [], (Some m).
      split_and!; [ done | by apply finish_done, backlog_done_stopped | apply finish_ended | by apply finish_suspended ].
      split; [ cbn; lia | by left ]. }
    apply bool_decide_eq_false in Eb. assert (Hperm : all_received s ≡ₚ m :: before ++ after) by by rewrite El, Permutation_middle.
    set (s1 := handed_one (round_start s) before after m).
    assert (Hstep : forall s' handed stopped, backlog_done s1 s' handed stopped -> backlog_done s s' (m :: handed) stopped)
      by (intros s' handed stopped; by apply backlog_done_step).
    pose proof (Permutation_length Hperm) as Hlen. cbn [length] in Hlen.
    assert (Hc1 : length (p2_handle_message_calls s1) = S (length (p2_handle_message_calls s))) by (cbn; rewrite length_app; cbn; lia).
    destruct (Nat.leb_spec MAXIMUM_NUMBER_OF_BLOCKS_TO_HANDLE_AT_ONE_TIME (S (length (p2_handle_message_calls s)))) as [Hge|Hlt].
    + exists (finish s1), [m], None.
      split_and!; [ done | by apply finish_done, Hstep, backlog_done_none | apply finish_ended | by apply finish_suspended ].
      split; [ lia | right; left; lia ].
    + destruct fuel as [|fuel]; [ lia | ].
      destruct (IH fuel ltac:(lia) s1) as (s' & handed & stopped & E' & Hd & He); [ cbn; lia | lia | done | ].
      exists s', (m :: handed), stopped. split_and!; [ exact E' | by apply Hstep | apply He.. ].
  - exists (finish (round_start s)), [], None.
    split_and!; [ done | by apply finish_done, backlog_done_none | apply finish_ended | by apply finish_suspended ].
    split; [ cbn; lia | right; right ]. apply Forall_forall. intros m Hm. by apply (first_ready_none _ _ _ Ef).
Qed.

Lemma backlog_run s s' r :
  (length (p2_handle_message_calls s) < MAXIMUM_NUMBER_OF_BLOCKS_TO_HANDLE_AT_ONE_TIME)%nat ->
  process_backlog_of_sync_blocks s = (s', r) ->
  r = Ok tt /\ exists handed stopped, backlog_done s s' handed stopped /\ backlog_ended s' stopped
  /\ p2_suspend_fetching_sync_blocks s' = prefetched s' /\ (prefetched s' = false -> p2_fetch_sync_items_triggered s' = true).
Proof.
  intros Hc H. unfold process_backlog_of_sync_blocks, nbind at 1, nwrite at 1 in H.
  change (p2_handle_message_calls (set_p2_scheduled _ _ s)) with (p2_handle_message_calls s) in H. rewrite (proj2 (Nat.leb_gt _ _)) in H by done.
  set (s0 := set_p2_blocks _ _ _ false _) in H.
  destruct (process_received_spec (S (length (p2_new_received_sync_items s0) + length (p2_received_sync_items s0))) s0)
    as (s1 & handed & stopped & E & Hd & He & Hsu); [ unfold all_received; rewrite length_app, length_rev; lia | done | done | ].
  rewrite (nbind_ok _ _ _ _ _ E) in H. unfold nbind, nread in H. cbn [from_option_or] in H. rewrite Hsu in H.
  assert (Hd' : backlog_done s s1 handed stopped) by by destruct Hd.
  destruct (prefetched s1) eqn:Epf; cbn in H; apply pair_equal_spec in H as [<- <-].
  - split; [ done | exists handed, stopped ]. split_and!; try done; congruence.
  - assert (Ep : prefetched (set_p2_scheduled true (p2_process_backlog_scheduled s1) s1) = false) by exact Epf.
    split; [ done | exists handed, stopped ]. split_and!; try done; [ by destruct Hd' | by rewrite Ep ].
Qed.

(** What a peer is rid of. *)
Lemma backlog_peer s s' handed stopped id p : backlog_done s s' handed stopped -> p2_peers s !! id = Some p -> is_active p = true ->
  let gone := popped (map bm_block_id (handed ++ option_list stopped)) (pr_ids_of_items_to_get p) in
  exists p', p2_peers s' !! id = Some p' /\ pr_ids_of_items_to_get p = gone ++ pr_ids_of_items_to_get p'
  /\ pr_ids_of_items_being_processed p' = list_to_set gone ∪ pr_ids_of_items_being_processed p.
Proof.
  intros Hd Hp Hpa. exists (rid_of (map bm_block_id (handed ++ option_list stopped)) p).
  rewrite (bd_peers _ _ _ _ Hd), lookup_fmap, Hp. cbn [fmap option_fmap option_map]. unfold rid_of. rewrite Hpa.
  split_and!; [ done | apply popped_split | done ].
Qed.

(** C12: Blocks reach the client in the order of the chain. A run of the task
    that starts with fewer than 200 calls of the client ends without error;
    each block handed over was not accepted before and was the next one of a
    peer at its turn, and no block is lost: what was received was handed over
    or still waits. Each peer's list loses blocks from its front, and those are
    the blocks handed over, in the order the peer lists them, and at most one
    more: the block accepted before at which the run stopped, which still waits
    with the others. At the end 200 calls of the client run, or no received
    block is the next one of any peer, or the run stopped at such a block; and
    the loop that asks for blocks is woken unless 2000 of them wait. *)
Theorem backlog_in_order (s s' : p2p D) (r : result unit) :
  (length (p2_handle_message_calls s) < MAXIMUM_NUMBER_OF_BLOCKS_TO_HANDLE_AT_ONE_TIME)%nat ->
  process_backlog_of_sync_blocks s = (s', r) ->
  r = Ok tt /\ exists handed stopped, backlog_done s s' handed stopped /\ backlog_ended s' stopped
  /\ (forall id p, p2_peers s !! id = Some p -> is_active p = true ->
       exists p' gone, p2_peers s' !! id = Some p' /\ pr_ids_of_items_to_get p = gone ++ pr_ids_of_items_to_get p'
       /\ gone `sublist_of` map bm_block_id (handed ++ option_list stopped)
       /\ pr_ids_of_items_being_processed p' = list_to_set gone ∪ pr_ids_of_items_being_processed p)
  /\ p2_suspend_fetching_sync_blocks s' = prefetched s'
  /\ (prefetched s' = false -> p2_fetch_sync_items_triggered s' = true).
Proof.
  intros Hc H. destruct (backlog_run s s' r Hc H) as (Er & handed & stopped & Hd & He & Hsu & Htr). split; [ done | ].
  exists handed, stopped. split_and!; try done; [ apply He.. | ]. intros id p Hp Hpa.
  destruct (backlog_peer _ _ _ _ _ _ Hd Hp Hpa) as (p' & Hp' & Eg & Ep).
  exists p', (popped (map bm_block_id (handed ++ option_list stopped)) (pr_ids_of_items_to_get p)).
  split_and!; [ done | done | apply popped_sublist | done ].
Qed.

(** ** One peer *)

Lemma sublist_all {A} (l k : list A) : l `sublist_of` k -> NoDup k -> (forall x, x ∈ k -> x ∈ l) -> l = k.
Proof.
  induction 1 as [|x l k H IH|x l k H IH]; intros Hd Hin; [ done | | ].
  - apply NoDup_cons in Hd as [Hx Hd]. f_equal. apply IH; [ done | ]. intros y Hy.
    assert (y ∈ x :: l) as [->|]%elem_of_cons by (apply Hin; by right); done.
  - apply NoDup_cons in Hd as [Hx Hd]. destruct Hx. apply (elem_of_sublist _ _ _ (Hin x ltac:(by left)) H).
Qed.

(** Only one active peer wants blocks. *)
Definition only_source s (id : Z) (p : peer) : Prop :=
  p2_peers s !! id = Some p /\ is_active p = true
  /\ forall id' p', p2_peers s !! id' = Some p' -> is_active p' = true -> id' <> id -> pr_ids_of_items_to_get p' = [].

Lemma passed_NoDup s s' handed stopped : backlog_done s s' handed stopped -> NoDup (map bm_block_id (all_received s)) ->
  NoDup (map bm_block_id (handed ++ option_list stopped)).
Proof.
  intros Hd Hn. destruct (bd_received _ _ _ _ Hd) as [Hr _]. rewrite Hr, map_app in Hn. rewrite map_app.
  apply NoDup_app in Hn as (Hh & Hdis & _). apply NoDup_app. split; [ done | ].
  destruct stopped as [m|]; cbn; [ | split; [ intros; by apply not_elem_of_nil | constructor ] ].
  split; [ | apply NoDup_singleton ]. intros x Hx ->%list_elem_of_singleton. apply (Hdis _ Hx).
  apply list_elem_of_fmap. exists m. split; [ done | ]. by apply (bd_stopped _ _ _ _ Hd).
Qed.

Lemma passed_by_source s s' id p handed stopped : only_source s id p -> backlog_done s s' handed stopped ->
  NoDup (map bm_block_id (all_received s)) ->
  popped (map bm_block_id (handed ++ option_list stopped)) (pr_ids_of_items_to_get p) = map bm_block_id (handed ++ option_list stopped).
Proof.
  intros (Hp & Ha & Ho) Hd Hn. apply sublist_all; [ apply popped_sublist | by eapply passed_NoDup | ].
  intros x (m & -> & Hm)%list_elem_of_fmap. destruct (bd_wanted _ _ _ _ Hd m Hm) as (i & q & Hq & Hqa & Hin).
  destruct (decide (i = id)) as [->|Hne]; [ congruence | ]. rewrite (Ho i q Hq Hqa Hne), popped_nil in Hin. by apply elem_of_nil in Hin.
Qed.

(** The ids before the first that was accepted before. *)
Fixpoint until_accepted (s : p2p D) (ids : list Z) : list Z :=
  match ids with
  | [] => []
  | x :: rest => if bool_decide (x ∈ p2_most_recent_blocks_accepted s) then [] else x :: until_accepted s rest
  end.

Lemma until_accepted_app s handed rest : Forall (fun x => x ∉ p2_most_recent_blocks_accepted s) handed ->
  until_accepted s (handed ++ rest) = handed ++ until_accepted s rest.
Proof. induction 1 as [|x handed Hx _ IH]; [ done | ]. cbn. by rewrite bool_decide_eq_false_2, IH. Qed.

(** With one source, the loop ends with 200 calls, at a block accepted before,
    or at the end of the list. *)
Lemma source_ended s s' id p p' handed stopped : only_source s id p -> backlog_done s s' handed stopped -> backlog_ended s' stopped ->
  p2_peers s' !! id = Some p' -> map bm_block_id (p2_received_sync_items s') ≡ₚ map bm_block_id (option_list stopped) ++ pr_ids_of_items_to_get p' ->
  (length (p2_handle_message_calls s') <= MAXIMUM_NUMBER_OF_BLOCKS_TO_HANDLE_AT_ONE_TIME)%nat
  /\ (stopped <> None \/ length (p2_handle_message_calls s') = MAXIMUM_NUMBER_OF_BLOCKS_TO_HANDLE_AT_ONE_TIME \/ pr_ids_of_items_to_get p' = []).
Proof.
  intros (Hp & Hpa & _) Hd [Hle He] Hp' Hperm. split; [ done | ]. destruct He as [He|[He|He]]; [ by left | by right; left | ].
  destruct stopped as [m|]; [ by left | right; right ]. cbn [option_list map app] in Hperm.
  destruct (pr_ids_of_items_to_get p') as [|y rest] eqn:E'; [ done | exfalso ].
  assert (Hy : y ∈ map bm_block_id (p2_received_sync_items s')) by (rewrite Hperm; by left).
  apply list_elem_of_fmap in Hy as (m & Em & Hm). rewrite Forall_forall in He. specialize (He m Hm). unfold waits in He.
  apply not_true_iff_false in He. apply He, fronts_some_spec. exists id, p', rest. split_and!; [ done | | by rewrite E', Em ].
  rewrite (bd_peers _ _ _ _ Hd), lookup_fmap, Hp in Hp'. cbn in Hp'. apply (inj Some) in Hp' as <-. unfold rid_of. by rewrite Hpa.
Qed.

(** C13: Once the blocks the one peer lists, all different, have come while no
    other active peer lists any, in whatever order, a run
    of the task hands over the blocks from the front of the list, in the order
    of the list, which is the order of the chain: all those before the first
    that was accepted before, up to 200 calls of the client. What is not handed
    over waits. If none was accepted before, the list of the peer keeps exactly
    those that wait: none, when the calls do not exceed 200. *)
Theorem all_handed_over s s' (r : result unit) (id : Z) (p : peer) :
  let ids := pr_ids_of_items_to_get p in
  let room := (MAXIMUM_NUMBER_OF_BLOCKS_TO_HANDLE_AT_ONE_TIME - length (p2_handle_message_calls s))%nat in
  only_source s id p -> NoDup ids -> map bm_block_id (all_received s) ≡ₚ ids -> (0 < room)%nat ->
  process_backlog_of_sync_blocks s = (s', r) ->
  r = Ok tt /\ exists handed p', p2_handle_message_calls s' = p2_handle_message_calls s ++ handed
    /\ map bm_block_id handed = take room (until_accepted s ids)
    /\ map bm_block_id (p2_received_sync_items s') ≡ₚ drop (length handed) ids /\ p2_new_received_sync_items s' = []
    /\ p2_peers s' !! id = Some p'
    /\ (Forall (fun x => x ∉ p2_most_recent_blocks_accepted s) ids ->
         map bm_block_id handed = take room ids /\ pr_ids_of_items_to_get p' = drop room ids
         /\ pr_ids_of_items_being_processed p' = list_to_set (take room ids) ∪ pr_ids_of_items_being_processed p
         /\ ((length ids <= room)%nat -> p2_received_sync_items s' = [])).
Proof.
  intros ids room Hsrc Hnd Hperm Hroom H. assert (Er' : room = (MAXIMUM_NUMBER_OF_BLOCKS_TO_HANDLE_AT_ONE_TIME - length (p2_handle_message_calls s))%nat) by done.
  clearbody room. destruct (backlog_run s s' r ltac:(lia) H) as (Er & handed & stopped & Hd & He & _ & _). split; [ done | ].
  assert (Hn : NoDup (map bm_block_id (all_received s))) by by rewrite Hperm.
  pose proof (passed_by_source _ _ _ _ _ _ Hsrc Hd Hn) as Epop. pose proof Hsrc as (Hp & Hpa & _).
  destruct (backlog_peer _ _ _ _ _ _ Hd Hp Hpa) as (p' & Hp' & Eg & Ep). rewrite Epop in Eg, Ep. rewrite map_app, <- app_assoc in Eg. fold ids in Eg.
  destruct (bd_received _ _ _ _ Hd) as [Hr Hnew]. rewrite Hr, map_app, Eg in Hperm. apply Permutation_app_inv_l in Hperm.
  destruct (source_ended _ _ _ _ _ _ _ Hsrc Hd He Hp' Hperm) as [Hle Hend]. rewrite (bd_calls _ _ _ _ Hd), length_app in Hle, Hend.
  assert (Hfresh : Forall (fun x => x ∉ p2_most_recent_blocks_accepted s) (map bm_block_id handed)).
  { apply Forall_fmap, Forall_forall. apply (bd_fresh _ _ _ _ Hd). }
  assert (Hlen : length (map bm_block_id handed) = length handed) by apply length_map.
  assert (Eh : map bm_block_id handed = take room (until_accepted s ids)).
  { rewrite Eg, until_accepted_app by done. destruct stopped as [m|].
    - change (map bm_block_id (option_list (Some m)) ++ ?l) with (bm_block_id m :: l). cbn [until_accepted]. rewrite bool_decide_eq_true_2 by by apply (bd_stopped _ _ _ _ Hd). rewrite app_nil_r, take_ge; [ done | lia ].
    - change (map bm_block_id (option_list None) ++ ?l) with l in *. destruct Hend as [?|[Hend|Hend]]; [ done | rewrite take_app_length'; [ done | rewrite length_map; lia ] | ].
      rewrite Hend. cbn. rewrite app_nil_r, take_ge; [ done | lia ]. }
  exists handed, p'. split_and!; try done; [ apply (bd_calls _ _ _ _ Hd) | by rewrite Hperm, Eg, drop_app_length' | ].
  intros Hall. assert (stopped = None) as ->.
  { destruct stopped as [m|]; [ exfalso | done ]. destruct (bd_stopped _ _ _ _ Hd m eq_refl) as [Hacc _].
    rewrite Eg, !Forall_app in Hall. destruct Hall as (_ & Hm & _). by apply Forall_cons in Hm as [? _]. }
  change (option_list None) with (@nil block_message) in *. cbn [map app] in *. rewrite app_nil_r in Ep.
  assert (Hu : until_accepted s ids = ids) by (rewrite <- (app_nil_r ids) at 1; rewrite until_accepted_app by done; apply app_nil_r).
  rewrite Hu in Eh. assert (Ed : pr_ids_of_items_to_get p' = drop room ids).
  { apply (app_inv_head (map bm_block_id handed)). rewrite <- Eg, Eh. symmetry. apply take_drop. }
  split_and!; [ done | done | by rewrite <- Eh | ]. intros Hfit. rewrite Ed, drop_ge in Hperm by done.
  apply Permutation_nil_r, (f_equal length) in Hperm. rewrite length_map in Hperm. by apply nil_length_inv.
Qed.
End backlog.

(** ** The synopsis of a chain that is partly offered *)

Lemma halvings_split T k m : 1 <= m -> filter (fun num => num <= k) ((fun x => T + 1 - x) <$> halvings m)
  ++ filter (fun num => k < num) ((fun x => T + 1 - x) <$> halvings m) = (fun x => T + 1 - x) <$> halvings m.
Proof.
  intros Hm. remember (Z.to_nat m) as n eqn:En. revert m Hm En. induction (lt_wf n) as [n _ IH]. intros m Hm ->.
  rewrite halvings_step by done. cbn [fmap list_fmap]. set (L := _ <$> _).
  assert (HL : forall x, x ∈ L -> T + 1 - m < x).
  { intros x (y & -> & Hy)%list_elem_of_fmap. destruct (Z.leb_spec m 1); [ by apply elem_of_nil in Hy | ].
    apply halvings_bound in Hy; Z.to_euclidean_division_equations; lia. }
  assert (HS : filter (fun num => num <= k) L ++ filter (fun num => k < num) L = L).
  { unfold L. destruct (Z.leb_spec m 1) as [|Hgt]; [ done | ]. apply (IH (Z.to_nat (m / 2))); [ | | done ]; Z.to_euclidean_division_equations; lia. }
  destruct (decide (T + 1 - m <= k)) as [Hle|Hgt].
  - rewrite filter_cons_True, (filter_cons_False (fun num => k < num)) by lia. cbn. by rewrite HS.
  - rewrite filter_cons_False, (filter_cons_True (fun num => k < num)) by lia.
    rewrite (filter_none _ L) by (intros x Hx%HL; lia). rewrite (filter_none _ L) in HS by (intros x Hx%HL; lia). cbn in *. by rewrite HS.
Qed.

Lemma offered_synopsis_spec (ids : list Z) ref T : 0 <= ref -> T = ref + Z.of_nat (length ids) -> T < two32 - 1 ->
  forall fuel m, 1 <= m <= T -> (Z.to_nat (Z.log2 m) < fuel)%nat ->
  offered_synopsis fuel ids ref T (T + 1 - m)
    = Ok ((fun num => ids !!! Z.to_nat (num - ref - 1)) <$> filter (fun num => ref < num) ((fun x => T + 1 - x) <$> halvings m)).
Proof.
  intros Hr -> HT. unfold two32 in HT. set (T := ref + Z.of_nat (length ids)) in *.
  induction fuel as [|fuel IH]; intros m Hm Hf; [ lia | ]. cbn [offered_synopsis].
  rewrite halvings_step by lia. cbn [fmap list_fmap].
  assert (E1 : uwrap32 (T - (T + 1 - m) + 2) = m + 1) by (unfold uwrap32; rewrite Z.mod_small by (unfold two32; lia); lia).
  assert (Hh : (m + 1) / 2 = m - m / 2) by (Z.to_euclidean_division_equations; lia).
  assert (0 <= m / 2 < m) by (split; [ apply Z.div_pos; lia | apply Z.div_lt; lia ]).
  rewrite E1, Hh. replace (T + 1 - m + (m - m / 2)) with (T + 1 - m / 2) by lia.
  assert (uwrap32 (T + 1 - m / 2) = T + 1 - m / 2) as -> by (unfold uwrap32; rewrite Z.mod_small by (unfold two32; lia); lia).
  set (L := if m <=? 1 then [] else halvings (m / 2)).
  assert (Hrest : (if T + 1 - m / 2 <=? T then offered_synopsis fuel ids ref T (T + 1 - m / 2) else Ok [])
    = Ok ((fun num => ids !!! Z.to_nat (num - ref - 1)) <$> filter (fun num => ref < num) ((fun x => T + 1 - x) <$> L))).
  { unfold L. destruct (Z.leb_spec m 1) as [Hle|Hgt].
    - assert (m = 1) as -> by lia. by rewrite (proj2 (Z.leb_gt _ _)) by (change (1 / 2) with 0; lia).
    - assert (1 <= m / 2) by (apply Z.div_le_lower_bound; lia). rewrite (proj2 (Z.leb_le _ _)) by lia.
      pose proof (log2_half m). pose proof (Z.log2_nonneg (m / 2)). apply IH; lia. }
  destruct (Z.ltb_spec ref (T + 1 - m)) as [Hlt|Hge].
  - destruct (lookup_lt_is_Some_2 ids (Z.to_nat (T + 1 - m - ref - 1))) as [x Hx]; [ lia | ]. rewrite Hx. cbn [from_option_or rbind].
    rewrite filter_cons_True by lia. cbn [fmap list_fmap]. rewrite (list_lookup_total_correct _ _ _ Hx).
    destruct (Z.leb_spec (T + 1 - m / 2) T); [ rewrite Hrest | apply Ok_inj in Hrest; rewrite <- Hrest ]; done.
  - cbn [rbind]. rewrite filter_cons_False by lia. destruct (Z.leb_spec (T + 1 - m / 2) T); [ by rewrite Hrest | done ].
Qed.

Section peer_synopsis.
Context `{FcI : Fc} `{Cr : Crypto} `{Tx : TxCrypto} `{St : Statics} `{Sz : Sizes} `{BC : BlockCrypto} `{Cp : Checkpoints} `{Gm : Games}.

(** The part of a synopsis that names ids a peer offers after a block it takes
    for number [r]. *)
Definition offered_part (r : Z) (ids : list Z) : list Z :=
  match ids with
  | [] => []
  | _ :: _ => (fun num => ids !!! Z.to_nat (num - r - 1)) <$> filter (fun num => r < num) (synopsis_numbers (r + Z.of_nat (length ids)))
  end.

Lemma offered_part_some r ids : ids <> [] -> offered_part r ids
  = (fun num => ids !!! Z.to_nat (num - r - 1)) <$> filter (fun num => r < num) (synopsis_numbers (r + Z.of_nat (length ids))).
Proof. by destruct ids. Qed.

Lemma synopsis_numbers_last T : 1 <= T -> exists nums, synopsis_numbers T = nums ++ [T].
Proof.
  intros HT. unfold synopsis_numbers. pose proof (Z.log2_nonneg T). rewrite (seqZ_app 0 (Z.log2 T) 1) by lia. rewrite fmap_app, Z.add_0_l.
  pose proof (Z.log2_spec T ltac:(lia)) as [Hlo Hhi]. rewrite Z.pow_succ_r in Hhi by done.
  assert (E : T / 2 ^ Z.log2 T = 1) by (symmetry; apply (Z.div_unique_pos _ _ _ (T - 2 ^ Z.log2 T)); lia).
  eexists. f_equal. change (seqZ (Z.log2 T) 1) with [0 + Z.log2 T]. rewrite Z.add_0_l. cbn [fmap list_fmap]. rewrite E. f_equal. lia.
Qed.

Lemma offered_part_last r ids : 0 <= r -> ids <> [] -> list.last (offered_part r ids) = list.last ids.
Proof.
  intros Hr Hne. rewrite offered_part_some by done. assert (length ids <> 0%nat) by (by intros ?%nil_length_inv).
  destruct (synopsis_numbers_last (r + Z.of_nat (length ids))) as [nums ->]; [ lia | ].
  rewrite filter_app, filter_cons_True by lia. cbn [filter list_filter]. rewrite fmap_app, last_app. cbn.
  rewrite last_lookup. replace (Z.to_nat (r + Z.of_nat (length ids) - r - 1)) with (pred (length ids)) by lia.
  symmetry. apply list_lookup_lookup_total_lt. lia.
Qed.

Lemma synopsis_joins c ids : c <> [] ->
  part_of_synopsis c (Z.of_nat (length c) + Z.of_nat (length ids)) ++ offered_part (Z.of_nat (length c)) ids = synopsis_of (c ++ ids).
Proof.
  intros Hne. assert (length c <> 0%nat) by (by intros ?%nil_length_inv).
  destruct (decide (ids = [])) as [->|Hids]; [ by rewrite Z.add_0_r, part_of_synopsis_all, !app_nil_r | ].
  rewrite offered_part_some by done. set (T' := Z.of_nat (length c) + Z.of_nat (length ids)).
  unfold part_of_synopsis, synopsis_of. rewrite length_app, Nat2Z.inj_add. fold T'. rewrite synopsis_numbers_halvings.
  rewrite <- (halvings_split T' (Z.of_nat (length c)) T') at 3 by lia. rewrite fmap_app.
  set (L := _ <$> halvings T').
  assert (HL : forall x, x ∈ L -> 1 <= x).
  { intros x (z & -> & Hz)%list_elem_of_fmap. apply halvings_bound in Hz; lia. }
  f_equal; apply list_fmap_ext; intros i x Hx%list_elem_of_lookup_2; apply list_elem_of_filter in Hx as [Hle Hin%HL].
  - by rewrite lookup_total_app_l by lia.
  - rewrite lookup_total_app_r by lia. f_equal. lia.
Qed.

(** C22: The synopsis that a node with blocks sends a peer, whose last shared
    block is linked or not known yet (our whole chain counts as shared then), is
    made of two parts: the numbers, of a chain as long as ours up to the last block we share and the outstanding ids
    of the peer together, that fall on our blocks, and those, counted from the
    number that is kept with the shared block, that fall on the ids of the peer.
    It ends with the last id of the peer, as the code asserts. Where the number
    that is kept is that of the shared block, it is the synopsis of one chain:
    our blocks and after them the ids of the peer. *)
Theorem peer_synopsis (rank : Z -> nat) (cl : client) (l c : list Z) (p : peer) :
  let n := cl_node cl in let ids := pr_ids_of_items_to_get p in let r := pr_last_block_number p in
  node_tree n -> ranked rank (nd_blocks n) -> main_chain n l -> c <> [] -> summarized n l (pr_last_block p) c ->
  0 <= r -> Z.of_nat (length c + length ids) < two32 - 1 -> r + Z.of_nat (length ids) < two32 - 1 ->
  exists synopsis, create_blockchain_synopsis_for_peer p cl = Ok synopsis
  /\ synopsis = part_of_synopsis c (Z.of_nat (length c + length ids)) ++ offered_part r ids
  /\ (ids <> [] -> list.last synopsis = list.last ids)
  /\ (r = Z.of_nat (length c) -> synopsis = synopsis_of (c ++ ids)).
Proof.
  intros n ids r T R M Hne Hs Hr Hlen Hlr. rewrite Nat2Z.inj_add in *. eexists. split; [ | split; [ reflexivity | split ] ].
  - unfold create_blockchain_synopsis_for_peer. fold ids.
    change (dg_get_blockchain_synopsis block_message_type ?a ?k cl) with (get_blockchain_synopsis block_message_type a k n).
    rewrite (get_blockchain_synopsis_spec rank n l _ c) by (done || lia). cbn [rbind]. fold r.
    destruct (decide (ids = [])) as [->|Hids]; [ by rewrite app_nil_r | ]. rewrite offered_part_some by done.
    assert (length ids <> 0%nat) by (by intros ?%nil_length_inv). rewrite (proj2 (Z.eqb_neq _ _)) by lia.
    set (T' := r + Z.of_nat (length ids)) in *. assert (uwrap32 T' = T') as -> by (unfold uwrap32; apply Z.mod_small; unfold two32 in *; lia).
    assert (Hlog : Z.log2 T' < 32) by (apply Z.log2_lt_pow2; unfold two32 in Hlr; lia).
    replace 1 with (T' + 1 - T') at 1 by lia. rewrite offered_synopsis_spec by (done || lia || (unfold synopsis_fuel; lia)). cbn [rbind].
    by rewrite synopsis_numbers_halvings.
  - intros Hids. rewrite last_app, offered_part_last by done. destruct (list.last ids) eqn:El; [ done | by apply last_None in El ].
  - intros ->. by apply synopsis_joins.
Qed.
End peer_synopsis.

(** ** What is kept of a reply *)

(** The ids after the known ones at the front. *)
Fixpoint skip_known (has : Z -> bool) (ids : list Z) : list Z :=
  match ids with
  | [] => []
  | x :: rest => if has x then skip_known has rest else ids
  end.
Fixpoint known_front (has : Z -> bool) (ids : list Z) : list Z :=
  match ids with
  | [] => []
  | x :: rest => if has x then x :: known_front has rest else []
  end.

Lemma known_and_rest has ids : ids = known_front has ids ++ skip_known has ids.
Proof. induction ids as [|x ids IH]; [ done | ]. cbn. destruct (has x); [ cbn; by rewrite <- IH | done ]. Qed.
Lemma known_front_all has ids : Forall (fun x => has x = true) (known_front has ids).
Proof. induction ids as [|x ids IH]; [ constructor | ]. cbn. destruct (has x) eqn:E; [ by constructor | constructor ]. Qed.
Lemma skip_known_head has ids x rest : skip_known has ids = x :: rest -> has x = false.
Proof. induction ids as [|y ids IH]; [ done | ]. cbn. destruct (has y) eqn:E; [ done | by intros [= -> _] ]. Qed.

Section reply.
Context `{ND : NodeDelegate D}.
Implicit Types s : p2p D.
(** What the client says of the blocks. *)
Context (has : Z -> bool) (time_of : Z -> time).
Definition answers (d : D) (ids : list Z) : Prop :=
  forall x, x ∈ ids -> dg_has_item (mk_item block_message_type x) d = Ok (has x)
                    /\ (has x = true -> dg_get_block_time x d = Ok (time_of x)).

Definition seen_block (x : Z) (p : peer) : peer := set_pr_last (uwrap32 (pr_last_block_number p + 1)) x (time_of x) p.
Definition seen_blocks (ids : list Z) (p : peer) : peer := foldl (fun p x => seen_block x p) p ids.

Lemma read_peer_run s id p : p2_peers s !! id = Some p -> read_peer id s = (s, Ok p).
Proof. unfold read_peer, nread. by intros ->. Qed.

(** The state in which a peer has become [p]. *)
Definition with_peer (id : Z) (p : peer) s : p2p D := set_p2_peers (<[id := p]> (p2_peers s)) s.
Lemma with_peer_peer id p s : p2_peers (with_peer id p s) !! id = Some p.
Proof. apply lookup_insert_eq. Qed.
Lemma with_peer_twice id p q s : with_peer id q (with_peer id p s) = with_peer id q s.
Proof. unfold with_peer, set_p2_peers. cbn. by rewrite insert_insert_eq. Qed.
Lemma with_peer_same id p s : p2_peers s !! id = Some p -> with_peer id p s = s.
Proof. intros E. unfold with_peer, set_p2_peers. rewrite insert_id by done. by destruct s. Qed.
Lemma update_peer_run s id f p : p2_peers s !! id = Some p -> update_peer id f s = (with_peer id (f p) s, Ok tt).
Proof. intros E. unfold update_peer, nwrite, with_peer. do 2 f_equal.
  rewrite <- (insert_id _ _ _ E) at 1. by rewrite alter_insert_eq.
Qed.

Lemma flush_known_run ids s id p : p2_peers s !! id = Some p -> answers (p2_delegate s) ids ->
  flush_known id block_message_type ids s = (with_peer id (seen_blocks (known_front has ids) p) s, Ok (skip_known has ids)).
Proof.
  revert s p. induction ids as [|x ids IH]; intros s p Hp Ha; [ by cbn; rewrite with_peer_same | ]. cbn [flush_known known_front skip_known].
  destruct (Ha x ltac:(by left)) as [Hx Ht]. unfold ask at 1. rewrite (nbind_ok _ _ s s (has x)) by (unfold nread; by rewrite Hx).
  destruct (has x); [ | by cbn; rewrite with_peer_same ]. cbv beta.
  rewrite (nbind_ok _ _ _ _ _ (update_peer_run _ _ _ _ Hp)). set (p1 := set_pr_last _ _ _ p).
  rewrite (nbind_ok _ _ _ (with_peer id p1 s) (time_of x)) by (unfold ask, nread; cbn; by rewrite Ht).
  rewrite (nbind_ok _ _ _ _ _ (update_peer_run _ _ _ _ (with_peer_peer _ _ _))), with_peer_twice.
  rewrite (IH _ _ (with_peer_peer _ _ _)); [ by rewrite with_peer_twice | ]. intros y Hy. apply Ha. by right.
Qed.

(** A peer has the ids, whatever else changed. *)
Definition wants (id : Z) (to_get : list Z) (unfetched last : Z) s : Prop :=
  exists p, p2_peers s !! id = Some p /\ pr_ids_of_items_to_get p = to_get /\ pr_number_of_unfetched_item_ids p = unfetched
            /\ pr_last_block p = last.

Lemma wants_update id to_get unfetched last id' f :
  (forall p, pr_ids_of_items_to_get (f p) = pr_ids_of_items_to_get p
             /\ pr_number_of_unfetched_item_ids (f p) = pr_number_of_unfetched_item_ids p /\ pr_last_block (f p) = pr_last_block p) ->
  keeps (wants id to_get unfetched last) (update_peer (D := D) id' f).
Proof.
  intros Hf. apply keeps_write. intros s (p & Hp & E). destruct (decide (id' = id)) as [->|Hne].
  - exists (f p). cbn. rewrite lookup_alter_eq, Hp. split; [ done | ]. by destruct (Hf p) as (-> & -> & ->).
  - exists p. cbn. by rewrite lookup_alter_ne.
Qed.

Lemma wants_write id to_get unfetched last (f : p2p D -> p2p D) : (forall s, p2_peers (f s) = p2_peers s) ->
  keeps (wants id to_get unfetched last) (nwrite f).
Proof. intros Hf. apply keeps_write. intros s (p & Hp & E). exists p. by rewrite Hf. Qed.

Ltac wants_kept :=
  repeat match goal with
  | |- keeps _ (nbind _ _) => apply keeps_bind; [ | intros ? ]
  | |- keeps _ (match ?x with _ => _ end) => destruct x
  | |- keeps _ (nret _) => apply keeps_ret
  | |- keeps _ (nread _) => apply keeps_read
  | |- keeps _ (ask _) => apply keeps_read
  | |- keeps _ (read_peer _) => apply keeps_read
  | |- keeps _ (update_peer _ _) => by apply wants_update
  | |- keeps _ (nwrite _) => by apply wants_write
  | |- keeps _ (tell _) => by apply wants_write
  | |- keeps _ (send _ _) => by apply wants_write
  end.

Lemma wants_fetch id to_get unfetched last id' : keeps (wants id to_get unfetched last) (fetch_next_batch_of_item_ids_from_peer (D := D) id').
Proof. unfold fetch_next_batch_of_item_ids_from_peer. wants_kept. Qed.
Lemma wants_trigger id to_get unfetched last : keeps (wants id to_get unfetched last) (trigger_fetch_sync_items_loop (D := D)).
Proof. unfold trigger_fetch_sync_items_loop. wants_kept. Qed.
Lemma wants_disconnect id to_get unfetched last id' b : keeps (wants id to_get unfetched last) (disconnect_from_peer (D := D) id' b).
Proof. unfold disconnect_from_peer. wants_kept. Qed.
Lemma wants_report id to_get unfetched last : keeps (wants id to_get unfetched last) (report_count (D := D)).
Proof. unfold report_count. wants_kept. Qed.

Lemma seen_blocks_last ids p : pr_last_block (seen_blocks ids p) = default (pr_last_block p) (list.last ids)
  /\ pr_last_block_time (seen_blocks ids p) = default (pr_last_block_time p) (time_of <$> list.last ids)
  /\ pr_number_of_unfetched_item_ids (seen_blocks ids p) = pr_number_of_unfetched_item_ids p
  /\ pr_ids_of_items_to_get (seen_blocks ids p) = pr_ids_of_items_to_get p.
Proof.
  induction ids as [|x ids IH] using rev_ind; [ done | ]. unfold seen_blocks in *. rewrite foldl_snoc, last_snoc. cbn. by destruct IH as (_ & _ & -> & ->).
Qed.

(** Another peer's list starts with this block. *)
Definition first_for_other (s : p2p D) (id front : Z) : bool :=
  existsb (fun x => negb (x.1 =? id) && match pr_ids_of_items_to_get x.2 with other :: _ => other =? front | [] => false end) (active_connections s).

Lemma first_for_other_spec s id front : first_for_other s id front = true <->
  exists id' p', p2_peers s !! id' = Some p' /\ id' <> id /\ is_active p' = true /\ head (pr_ids_of_items_to_get p') = Some front.
Proof.
  unfold first_for_other. rewrite existsb_exists. split.
  - intros ([i q] & Hin%list_elem_of_In & Hq). apply list_elem_of_filter in Hin as [Hact Hin%elem_of_map_to_list]. cbn in *.
    apply andb_true_iff in Hq as [Hi%negb_true_iff%Z.eqb_neq Hq]. exists i, q. split_and!; try done.
    destruct (pr_ids_of_items_to_get q) as [|y l]; [ done | ]. by apply Z.eqb_eq in Hq as ->.
  - intros (i & q & Hq & Hi & Hact & Hh). exists (i, q). split.
    + apply list_elem_of_In, list_elem_of_filter. split; [ done | by apply elem_of_map_to_list ].
    + cbn. rewrite (proj2 (Z.eqb_neq _ _) Hi). destruct (pr_ids_of_items_to_get q) as [|y l]; [ done | ].
      cbn in Hh. apply (inj Some) in Hh as ->. apply Z.eqb_refl.
Qed.

Lemma first_for_other_with_peer s id p front : first_for_other (with_peer id p s) id front = first_for_other s id front.
Proof.
  apply eq_true_iff_eq. rewrite !first_for_other_spec. unfold with_peer. cbn.
  split; intros (i & q & Hq & Hi & R); exists i, q; (split; [ | done ]); [ by rewrite lookup_insert_ne in Hq | by rewrite lookup_insert_ne ].
Qed.

(** The ids dropped from the front of a first reply, and those that stay. *)
Definition dropped_ids (s : p2p D) (id front : Z) (rest : list Z) : list Z :=
  if first_for_other s id front then [] else known_front has (front :: rest).
Definition kept_ids (s : p2p D) (id front : Z) (rest : list Z) : list Z :=
  if first_for_other s id front then front :: rest else skip_known has (front :: rest).

Lemma merge_first_run s id p front rest : p2_peers s !! id = Some p -> pr_ids_of_items_to_get p = [] -> answers (p2_delegate s) (front :: rest) ->
  merge_item_ids id block_message_type (front :: rest) s =
    (with_peer id (seen_blocks (dropped_ids s id front rest) p) s, Ok (kept_ids s id front rest)).
Proof.
  intros Hp Eg Ha. unfold merge_item_ids. rewrite (nbind_ok _ _ _ _ _ (read_peer_run _ _ _ Hp)). rewrite Eg.
  rewrite (nbind_ok _ _ s s (first_for_other s id front)) by done. unfold dropped_ids, kept_ids.
  destruct (first_for_other s id front); [ by cbn; rewrite with_peer_same | by apply flush_known_run ].
Qed.

Lemma seen_all_run s total available : answers (p2_delegate s) available -> skip_known has available <> [] ->
  (if total =? 0 then match available with [] => nret true | [only] => ask (dg_has_item (mk_item block_message_type only)) | _ => nret false end
   else nret false) s = (s, Ok false).
Proof.
  intros Ha Hs. destruct (total =? 0); [ | done ]. destruct available as [|only [|y l]]; [ done | | done ].
  unfold ask, nread. destruct (Ha only ltac:(by left)) as [-> _]. cbn in Hs. by destruct (has only).
Qed.

Lemma kept_and_dropped s id front rest : front :: rest = dropped_ids s id front rest ++ kept_ids s id front rest.
Proof. unfold dropped_ids, kept_ids. destruct (first_for_other _ _ _); [ done | apply known_and_rest ]. Qed.

Lemma dropped_known s id front rest : Forall (fun y => has y = true) (dropped_ids s id front rest).
Proof. unfold dropped_ids. destruct (first_for_other _ _ _); [ constructor | apply known_front_all ]. Qed.

Lemma lacks_some ids : (exists x, x ∈ ids /\ has x = false) -> skip_known has ids <> [].
Proof.
  intros (x & Hx & Hf) E. pose proof (known_and_rest has ids) as El. rewrite E, app_nil_r in El. rewrite El in Hx.
  pose proof (known_front_all has ids) as Hall. rewrite Forall_forall in Hall. specialize (Hall x Hx). cbn in Hall. congruence.
Qed.

Lemma kept_lacks s id front rest : skip_known has (front :: rest) <> [] ->
  if first_for_other s id front then dropped_ids s id front rest = [] else exists x, head (kept_ids s id front rest) = Some x /\ has x = false.
Proof.
  intros Hs. unfold dropped_ids, kept_ids. destruct (first_for_other _ _ _); [ done | ].
  destruct (skip_known has (front :: rest)) as [|x l] eqn:E; [ done | ]. exists x. split; [ done | by apply (skip_known_head has _ _ _ E) ].
Qed.

Lemma kept_nonempty s id front rest : skip_known has (front :: rest) <> [] -> kept_ids s id front rest <> [].
Proof. unfold kept_ids. by destruct (first_for_other _ _ _). Qed.

(** What the handler does with the peer after it has taken the ids. *)
Lemma wanted_at_once s s' r id p (x : Z) missing total :
  p2_peers s !! id = Some p -> pr_ids_of_items_to_get p = x :: missing -> pr_number_of_unfetched_item_ids p = total ->
  (total = 0 \/ (MIN_BLOCK_IDS_TO_PREFETCH < length (x :: missing))%nat) ->
  (_ <~ report_count ;;
   if negb (total =? 0) then
     if Nat.ltb MIN_BLOCK_IDS_TO_PREFETCH (length (pr_ids_of_items_to_get p)) then trigger_fetch_sync_items_loop
     else fetch_next_batch_of_item_ids_from_peer id
   else match pr_ids_of_items_to_get p with
        | _ :: _ => trigger_fetch_sync_items_loop
        | [] => fetch_next_batch_of_item_ids_from_peer id
        end) s = (s', r) -> r = Ok tt /\ p2_fetch_sync_items_triggered s' = true.
Proof.
  intros Hp Eg Eu Ht H. apply nbind_inv in H as [(s1 & [] & H1 & H)|(e & H1 & _)].
  - rewrite Eg in H. destruct (Z.eqb_spec total 0) as [E|E]; cbn [negb] in H; [ by apply pair_equal_spec in H as [<- <-] | ].
    rewrite (proj2 (Nat.ltb_lt _ _)) in H by (destruct Ht; [ done | lia ]). by apply pair_equal_spec in H as [<- <-].
  - revert H1. unfold report_count, tell, nbind, nread, nwrite. by destruct (negb _).
Qed.

(** C23: Of the first ids a peer replies with, when the client lacks one of
    them, those at the front that the client has are dropped, and the last of
    these becomes the last block the peer and we share; what is left, from the
    first block the client does not have, is what is wanted of the peer. When
    the first id is also the first that is wanted of another peer, nothing is
    dropped and all ids are wanted. If no more ids are to come, or more than
    [MIN_BLOCK_IDS_TO_PREFETCH] are wanted, and the time of the last block
    offered is possible, the loop that asks for blocks is woken. *)
Theorem reply_leaves_missing (s s' : p2p D) (r : result unit) (id : Z) (p : peer) (q : item_id) (front : Z) (rest : list Z) (total : Z) :
  p2_peers s !! id = Some p -> pr_item_ids_requested p = Some q -> pr_ids_of_items_to_get p = [] ->
  answers (p2_delegate s) (front :: rest) -> (exists x, x ∈ front :: rest /\ has x = false) ->
  on_blockchain_item_ids_inventory_message id block_message_type total (front :: rest) s = (s', r) ->
  exists known missing, front :: rest = known ++ missing /\ Forall (fun y => has y = true) known
  /\ (if first_for_other s id front then known = [] else exists x, head missing = Some x /\ has x = false)
  /\ wants id missing total (default (pr_last_block p) (list.last known)) s'
  /\ (total = 0 \/ (MIN_BLOCK_IDS_TO_PREFETCH < length missing)%nat ->
      uwrap32 (default (pr_last_block_time p) (time_of <$> list.last known) + total * BLOCK_INTERVAL_SEC)
        <= uwrap32 (dg_get_blockchain_now (p2_delegate s) + FUTURE_SYNC_BLOCKS_GRACE_PERIOD_SEC) ->
      r = Ok tt /\ p2_fetch_sync_items_triggered s' = true).
Proof.
  intros Hp Hq Eg Ha Hlacks%lacks_some H. exists (dropped_ids s id front rest), (kept_ids s id front rest).
  split; [ apply kept_and_dropped | ]. split; [ apply dropped_known | ]. split; [ by apply kept_lacks | ].
  destruct (kept_ids s id front rest) as [|x missing] eqn:Em; [ by apply kept_nonempty in Em | ].
  set (known := dropped_ids s id front rest) in *.
  unfold on_blockchain_item_ids_inventory_message in H. rewrite (nbind_ok _ _ _ _ _ (read_peer_run _ _ _ Hp)), Hq in H.
  rewrite (nbind_ok _ _ _ _ _ (update_peer_run _ _ _ _ Hp)) in H. set (p1 := set_pr_requested None _ _ p) in H.
  rewrite (nbind_ok _ _ _ _ _ (seen_all_run (with_peer id p1 s) _ _ Ha Hlacks)) in H. cbn [andb] in H.
  rewrite (nbind_ok _ _ _ _ _ (update_peer_run _ _ _ _ (with_peer_peer _ _ _))), with_peer_twice in H. set (p2 := set_pr_ids _ _ total p1) in H.
  rewrite (nbind_ok _ _ _ _ _ (merge_first_run (with_peer id p2 s) id p2 front rest (with_peer_peer _ _ _) Eg Ha)), with_peer_twice in H.
  assert (dropped_ids (with_peer id p2 s) id front rest = known /\ kept_ids (with_peer id p2 s) id front rest = x :: missing) as [Ek El]
    by (rewrite <- Em; unfold known, dropped_ids, kept_ids; by rewrite first_for_other_with_peer).
  rewrite Ek, El in H. destruct (seen_blocks_last known p2) as (L1 & L2 & L3 & L4).
  rewrite (nbind_ok _ _ _ _ _ (update_peer_run _ _ _ _ (with_peer_peer _ _ _))), with_peer_twice in H. set (p3 := set_pr_ids _ _ total (seen_blocks _ _)) in H.
  assert (E3 : pr_ids_of_items_to_get p3 = x :: missing)
    by (change (pr_ids_of_items_to_get p3) with (pr_ids_of_items_to_get (seen_blocks known p2) ++ x :: missing); rewrite L4; cbn; by rewrite Eg).
  rewrite (nbind_ok _ _ _ _ _ (read_peer_run _ _ _ (with_peer_peer _ _ _))) in H. set (s3 := with_peer id p3 s) in H.
  assert (W3 : wants id (x :: missing) total (default (pr_last_block p) (list.last known)) s3)
    by (exists p3; split; [ apply with_peer_peer | split_and!; done ]).
  cbv zeta in H. split.
  - revert W3. match type of H with ?k s3 = _ => assert (K : keeps (wants id (x :: missing) total (default (pr_last_block p) (list.last known))) k) end.
    { wants_kept; try apply wants_trigger; try apply wants_fetch; try apply wants_disconnect; apply wants_report. }
    apply (K _ _ _ H).
  - intros Ht Hnow. unfold ask in H. unfold nbind at 1, nread at 1 in H.
    change (pr_number_of_unfetched_item_ids p3) with total in H. change (pr_last_block_time p3) with (pr_last_block_time (seen_blocks known p2)) in H.
    rewrite L2, (proj2 (Z.ltb_ge _ _)) in H by exact Hnow. by apply (wanted_at_once s3 s' r id p3 x missing total (with_peer_peer _ _ _) E3 eq_refl Ht).
Qed.
End reply.
