(* ===== verification/SyncDemo.v ===== *)
(** A concrete node synchronizing its chain: two nodes whose chains part after
    their first block. *)

From S2P Require Import Prelude StateMonad Asset Records ChainInterface Transaction PendingState ChainDatabase BlockOps Node ForkDb Pool.
From S2P Require Import ForkTree ForkStore NodeTree ForkSwitch ForkDemo ForkProps Concrete BlockMaking MainChain Client ClientProps.
From S2P Require Import Sync Inventory SyncProps SyncOrder.

#[local] Existing Instance demo_crypto.
#[local] Existing Instance demo_tx.
#[local] Existing Instance demo_statics.
#[local] Existing Instance fork_crypto.
#[local] Existing Instance no_checkpoints.
#[local] Existing Instance no_games.
#[local] Existing Instance demo_sizes.

(** A block message is named by the id of the block, others are not told
    apart. *)
Definition demo_messages : MessageHash :=
  {| message_id := fun m => match m with a_block b => bm_block_id b | _ => 0 end |}.
#[local] Existing Instance demo_messages.

Definition our_client : client := mk_client ours false false 0 [].
Definition start : p2p client := no_peers our_client 100100.
Definition run (events : list (event (D := client))) : p2p client := after_events [] events start.

(** Peer 7 connects, and replies with the ids of its chain. *)
Definition block_from_7 (b : full_block) : event (D := client) := got_block 7 (block_message_of b).
Definition introduced : list (event (D := client)) := [connected 7 true 0; handshake_complete 7].
Definition replied : list (event (D := client)) :=
  introduced ++ [got_blockchain_item_ids_inventory 7 block_message_type 0 their_chain].
Definition asked_for : list (event (D := client)) := replied ++ [ran_fetch_sync_items].
(** The blocks come in the wrong order. *)
Definition received : list (event (D := client)) := asked_for ++ [block_from_7 other_third; block_from_7 other_second].
Definition handed : list (event (D := client)) := received ++ [ran_process_backlog; ran_sync_block 0; ran_sync_block 0].

(** The ids that are missing are asked for, then the blocks; they are handed
    over in the order of the chain, and the node switches to it. *)
Example sync_round :
  (pr_ids_of_items_to_get <$> p2_peers (run replied) !! 7) = Some (tail their_chain)
  /\ p2_out (run asked_for) = [ (7, send_message current_time_request);
       (7, send_message (fetch_blockchain_item_ids block_message_type our_chain));
       (7, send_message (fetch_items block_message_type (tail their_chain))) ]
  /\ map bm_block_id (p2_handle_message_calls (run (received ++ [ran_process_backlog]))) = tail their_chain
  /\ nd_head_id (cl_node (p2_delegate (run handed))) = full_block_id other_third
  /\ p2_handle_message_calls (run handed) = [].
Proof. vm_compute. done. Qed.

(** The other node, asked with our synopsis. *)
Example reply_sent :
  p2_out (after_events [] [connected 3 true 0; handshake_complete 3; got_fetch_blockchain_item_ids 3 block_message_type our_chain]
    (no_peers (mk_client theirs false false 0 []) 100100))
  = [ (3, send_message current_time_request); (3, send_message (fetch_blockchain_item_ids block_message_type [full_block_id other_first; full_block_id other_third]));
      (3, send_message (blockchain_item_ids_inventory block_message_type 0 their_chain)) ].
Proof. vm_compute. done. Qed.

(** A block that came another way meanwhile: it leaves the list of the peer
    for the blocks handed over, but is not handed over; nothing takes it from
    there, and the blocks after it are left. *)
Example accepted_block_stalls :
  let s := run (received ++ [client_broadcast (a_block (block_message_of other_second)); ran_process_backlog]) in
  (pr_ids_of_items_being_processed <$> p2_peers s !! 7) = Some {[ full_block_id other_second ]}
  /\ p2_handle_message_calls s = [] /\ length (p2_received_sync_items s) = 2%nat /\ p2_process_backlog_scheduled s = false.
Proof. vm_compute. done. Qed.

(** A block the peer does not have after all stays noted as asked for, and is
    asked of nobody again. *)
Example unavailable_block_stays_asked :
  let s := run (asked_for ++ [got_item_not_available 7 (mk_item block_message_type (full_block_id other_second));
                              connected 8 true 0; handshake_complete 8;
                              got_blockchain_item_ids_inventory 8 block_message_type 0 their_chain]) in
  bool_decide (full_block_id other_second ∈ p2_active_sync_requests s) = true
  /\ bool_decide (map_Forall (fun _ p => full_block_id other_second ∉ pr_sync_items_requested p) (p2_peers s)) = true
  /\ schedule_requests s ∅ (active_connections s) = [].
Proof. vm_compute. done. Qed.

(** The number kept with the last block that is shared counts from the start of
    the reply: the block is the second one, its number the first. *)
Definition shared_client : client := mk_client (after [other_first; other_second]) false false 0 [].
Example last_block_misnumbered :
  let s := after_events [] (introduced ++ [got_blockchain_item_ids_inventory 7 block_message_type 0
             [full_block_id other_second; full_block_id other_third]]) (no_peers shared_client 100100) in
  (pr_last_block <$> p2_peers s !! 7) = Some (full_block_id other_second)
  /\ (pr_last_block_number <$> p2_peers s !! 7) = Some 1 /\ get_block_num (full_block_id other_second) (cl_node shared_client) = Ok 2.
Proof. vm_compute. done. Qed.

(** ** Where the theorems apply *)


Lemma backlog_in_order_witness :
  let s := run received in let s' := (process_backlog_of_sync_blocks s).1 in
  (process_backlog_of_sync_blocks s).2 = Ok tt /\ exists handed stopped, backlog_done s s' handed stopped /\ backlog_ended s' stopped
  /\ (forall id p, p2_peers s !! id = Some p -> is_active p = true ->
       exists p' gone, p2_peers s' !! id = Some p' /\ pr_ids_of_items_to_get p = gone ++ pr_ids_of_items_to_get p'
       /\ gone `sublist_of` map bm_block_id (handed ++ option_list stopped)
       /\ pr_ids_of_items_being_processed p' = list_to_set gone ∪ pr_ids_of_items_being_processed p)
  /\ p2_suspend_fetching_sync_blocks s' = prefetched s'
  /\ (prefetched s' = false -> p2_fetch_sync_items_triggered s' = true).
Proof. refine (backlog_in_order (run received) _ _ _ (surjective_pairing _)). vm_compute. lia. Defined.

(** The peer after its reply. *)
Definition peer_7 : peer := default (new_connection true 0) (p2_peers (run replied) !! 7).

Lemma peer_synopsis_witness : exists synopsis, create_blockchain_synopsis_for_peer peer_7 our_client = Ok synopsis
  /\ synopsis = part_of_synopsis [full_block_id other_first] (Z.of_nat (length [full_block_id other_first] + length (pr_ids_of_items_to_get peer_7)))
                 ++ offered_part (pr_last_block_number peer_7) (pr_ids_of_items_to_get peer_7)
  /\ (pr_ids_of_items_to_get peer_7 <> [] -> list.last synopsis = list.last (pr_ids_of_items_to_get peer_7))
  /\ (pr_last_block_number peer_7 = Z.of_nat (length [full_block_id other_first]) ->
       synopsis = synopsis_of ([full_block_id other_first] ++ pr_ids_of_items_to_get peer_7)).
Proof.
  refine (peer_synopsis id_rank our_client our_chain [full_block_id other_first] peer_7 ours_tree _ ours_chain _ _ _ _ _).
  - apply ranked_check. vm_compute. done.
  - done.
  - right. split; [ vm_compute; done | ]. split.
    + assert (pr_last_block peer_7 = full_block_id other_first) as -> by (vm_compute; reflexivity).
      apply (path_snoc _ _ other_first []); [ vm_compute; reflexivity | done | constructor ].
    + apply linked_check. vm_compute. reflexivity.
  - vm_compute. done.
  - vm_compute. reflexivity.
  - vm_compute. reflexivity.
Defined.
(** The number is the right one there, so the synopsis is that of one chain. *)
Example peer_7_number : pr_last_block_number peer_7 = 1 /\ pr_ids_of_items_to_get peer_7 = tail their_chain.
Proof. vm_compute. done. Qed.

Definition first_only (x : Z) : bool := x =? full_block_id other_first.
Definition first_time (x : Z) : time := bh_timestamp (fb_header other_first).
Lemma they_answer : answers first_only first_time (p2_delegate (run introduced)) their_chain.
Proof.
  intros x Hx. repeat (apply elem_of_cons in Hx as [->|Hx];
    [ split; [ vm_compute; reflexivity | intros H; vm_compute in H; first [ discriminate H | vm_compute; reflexivity ] ] | ]).
  by apply elem_of_nil in Hx.
Qed.

(** The peer before its reply. *)
Definition introduced_7 : peer := default (new_connection true 0) (p2_peers (run introduced) !! 7).

Lemma reply_leaves_missing_witness :
  let m := on_blockchain_item_ids_inventory_message 7 block_message_type 0 their_chain (run introduced) in
  exists known missing, their_chain = known ++ missing /\ Forall (fun y => first_only y = true) known
  /\ (if first_for_other (run introduced) 7 (full_block_id other_first) then known = [] else exists x, head missing = Some x /\ first_only x = false)
  /\ wants 7 missing 0 (default (pr_last_block introduced_7) (list.last known)) m.1
  /\ (0 = 0 \/ (MIN_BLOCK_IDS_TO_PREFETCH < length missing)%nat ->
      uwrap32 (default (pr_last_block_time introduced_7) (first_time <$> list.last known) + 0 * BLOCK_INTERVAL_SEC)
        <= uwrap32 (dg_get_blockchain_now (p2_delegate (run introduced)) + FUTURE_SYNC_BLOCKS_GRACE_PERIOD_SEC) ->
      m.2 = Ok tt /\ p2_fetch_sync_items_triggered m.1 = true).
Proof.
  refine (reply_leaves_missing first_only first_time (run introduced) _ _ 7
    introduced_7
    (mk_item block_message_type (full_block_id our_second)) (full_block_id other_first) (tail their_chain) 0 _ _ _ they_answer _ (surjective_pairing _)).
  - vm_compute. reflexivity.
  - vm_compute. reflexivity.
  - vm_compute. reflexivity.
  - exists (full_block_id other_third). split; [ by right; right; left | vm_compute; reflexivity ].
Defined.

Definition waiting_7 : peer := default (new_connection true 0) (p2_peers (run received) !! 7).

Lemma source_check (s : p2p client) id p : p2_peers s !! id = Some p -> is_active p = true ->
  bool_decide (map_Forall (fun i q => i = id \/ pr_ids_of_items_to_get q = []) (p2_peers s)) = true -> only_source s id p.
Proof. intros Hp Ha H%bool_decide_eq_true. split_and!; try done. intros i q Hq _ Hi. by destruct (H i q Hq). Qed.

Lemma all_handed_over_witness :
  let s := run received in let s' := (process_backlog_of_sync_blocks s).1 in let ids := pr_ids_of_items_to_get waiting_7 in
  let room := (MAXIMUM_NUMBER_OF_BLOCKS_TO_HANDLE_AT_ONE_TIME - length (p2_handle_message_calls s))%nat in
  (process_backlog_of_sync_blocks s).2 = Ok tt
  /\ exists handed p', p2_handle_message_calls s' = p2_handle_message_calls s ++ handed
    /\ map bm_block_id handed = take room (until_accepted s ids)
    /\ map bm_block_id (p2_received_sync_items s') ≡ₚ drop (length handed) ids /\ p2_new_received_sync_items s' = []
    /\ p2_peers s' !! 7 = Some p'
    /\ (Forall (fun x => x ∉ p2_most_recent_blocks_accepted s) ids ->
         map bm_block_id handed = take room ids /\ pr_ids_of_items_to_get p' = drop room ids
         /\ pr_ids_of_items_being_processed p' = list_to_set (take room ids) ∪ pr_ids_of_items_being_processed waiting_7
         /\ ((length ids <= room)%nat -> p2_received_sync_items s' = [])).
Proof.
  refine (all_handed_over (run received) _ _ 7 waiting_7 _ _ _ _ (surjective_pairing _)).
  - apply source_check; vm_compute; reflexivity.
  - apply (bool_decide_eq_true_1 (NoDup (pr_ids_of_items_to_get waiting_7))). vm_compute. reflexivity.
  - apply (bool_decide_eq_true_1 (map bm_block_id (all_received (run received)) ≡ₚ pr_ids_of_items_to_get waiting_7)). vm_compute. reflexivity.
  - vm_compute. lia.
Defined.
